(* ===== verification/_CoqProject ===== *)
-Q . S2P
Prelude.v
CoreTypes.v
CoreStep.v
CoreSpec.v
CoreWf.v
CoreRun.v
CoreProps.v
AxiomTypes.v
CommitLog.v
Gateway.v
AxiomProps.v
StrLib.v
Hal.v
KernelState.v
KernelIpc.v
KernelSyscall.v
System.v
KernelReplay.v
KernelSpec.v
KernelRefine.v
SystemRefine.v
KernelWf.v
KernelFun.v
SystemRun.v
SystemReplay.v
HalRel.v
SystemProps.v
BlockStorage.v
BlockLog.v
BlockOps.v
BlockProps.v
VirtqProps.v
WasmHost.v
WasmRuntime.v
X86Hal.v
QemuMain.v
QemuRun.v
QemuProps.v
VfsPath.v
VfsService.v
VfsHandlers.v
VfsOutcome.v
Bridge.v
SpawnState.v
WebHal.v
ProcessLib.v
AppFramework.v
Permission.v
Keystore.v
NetService.v
VfsClient.v
TimeService.v
AppProtocol.v
Apps.v
IdTypes.v
IdKeys.v
IdSession.v
IdService.v
WebSupervisor.v
SpawnCaps.v
SupDispatch.v
SupRun.v
SpawnProps.v
SupLive.v
WorkerIpc.v
SupProps.v
ProcessProps.v
ServiceProps.v
IdProps.v
Init.v
InitProps.v
InitOrder.v
VfsLive.v
VfsStore.v
VfsProps.v
FrameRun.v
PageMap.v
AddressSpace.v
SpaceOps.v
SpaceProps.v
