(* ===== verification/Prelude.v ===== *)
(** * Zero OS: verification library

    Zero OS is a capability microkernel written in Rust. A supervisor boots a
    [System], which combines the kernel proper with the Axiom layer: every
    syscall of a process is logged as a request, executed by the kernel, turned
    into commits of a hash-chained commit log, and logged as a response. The
    commit log can be replayed to rebuild the kernel state. Above the kernel run
    the Init process, which holds the capabilities of the services and routes
    what the supervisor delivers, and services such as the virtual file system,
    whose storage requests the supervisor carries out, the keystore, the network, time,
    permission and identity services, and the applications; all of these run on one
    framework, which polls an endpoint for messages. In the browser a process is
    a worker that exchanges system calls with the supervisor through a mailbox in
    shared memory. On x86_64 a process is a wasm module run by an interpreter, and
    the platform has a block store on a VirtIO disk and a virtual memory manager.
    This library models these parts and proves what makes them correct; this file is
    its root and holds the shared machine integers, bytes, results, ordered maps,
    tactics and lemmas.

    ** Parts of the program and the files that model them

    - Pure kernel core (crates/zos-kernel-core): [CoreTypes] (types.rs,
      capability.rs) and [CoreStep] (state.rs, step.rs with one definition per
      handler and [step] for the dispatch, and invariants.rs). Functions on [&mut KernelState] take the
      state and return it.
    - Axiom layer (crates/zos-axiom): [AxiomTypes] (types.rs, capability.rs),
      [CommitLog] (syslog.rs, commitlog.rs), [Gateway] (gateway.rs, replay.rs). The
      trait
      [Replayable] is a type class.
    - Platform interface and ABI: [Hal] (the trait HAL of crates/zos-hal as a type
      class whose methods thread the platform state, and its TestHal instance; the
      numbers of crates/zos-ipc), [StrLib] ([core::str::from_utf8] and the string
      functions of the standard library).
    - Kernel (crates/zos-kernel/src): [KernelState] (error.rs, ipc.rs, types.rs,
      syscall.rs, core/mod.rs), [KernelIpc] (core/capability.rs, core/endpoint.rs,
      core/ipc.rs), [KernelSyscall] (core/process.rs, core/syscall.rs).
    - System (crates/zos-kernel/src): [System] (system/mod.rs, lifecycle.rs,
      metrics.rs), [KernelReplay] (replay.rs).
    - Block store (crates/zos-hal/src/x86_64): [BlockStorage] (storage.rs, and the
      entry points of virtio/blk_pci.rs), in a state and error monad [IO] over the
      device. Submission and the device are the class [VirtioBlock]. The first part
      of [VirtqProps] (virtio/queue.rs) is the queue of the driver on memory shared with a device.
    - Virtual memory (crates/zos-hal/src/x86_64/vmm): [FrameRun]
      (frame_allocator.rs), [PageMap] (page_table.rs, over a physical memory of
      64-bit words), [AddressSpace] (address_space.rs, mod.rs).
    - Virtual file system: [VfsPath] (crates/zos-vfs/src: core/types.rs,
      core/error.rs, core/path.rs, service/permissions.rs, ipc/types.rs),
      [VfsService] and [VfsHandlers]
      (crates/zos-services/src/services/vfs: mod.rs and handlers/). A handler runs
      in the monad [M] with the service's table of pending operations and the
      history of system calls; the class [VfsJson] stands for serde, and the
      environment [Env] answers the system calls.
    - Supervisor (crates/zos-supervisor/src): [Bridge] (the request tables of
      hal/mod.rs, hal/storage.rs, hal/network.rs, and the payloads that
      supervisor/storage.rs, network.rs and ipc.rs build).
      [SpawnState] (supervisor/spawn/state.rs, pingpong.rs), [WebHal] (hal/mod.rs,
      hal/process.rs, worker.rs and the worker's side of the mailbox, mailbox.ts),
      [WebSupervisor] (supervisor/mod.rs, console.rs, ipc.rs, and the
      notifications of storage.rs and network.rs: the record [Sup] and the
      monad [SM]), [SpawnCaps] (spawn.rs,
      spawn/capabilities/, boot.rs), [SupDispatch] (syscall_dispatch.rs,
      debug_dispatch.rs, worker_events.rs, syscall/mod.rs).
    - Init (crates/zos-init/src): [Init] (lib.rs, registry.rs, bootstrap.rs,
      handlers/), on a state with the history of its system calls.
    - Client library of processes (crates/zos-process/src): [ProcessLib], over the
      class [Host] of the functions a process imports; [WorkerIpc] has its
      instance on the supervisor.
    - x86_64 platform (crates/zos-hal/src/x86_64): [WasmHost] (wasm/host.rs,
      random.rs, serial.rs; the interpreter is the class [Wasmi]), [WasmRuntime]
      (wasm/mod.rs, wasm/process.rs), [X86Hal] (rtc.rs, and mod.rs, the
      instance of the HAL over block store and runtime). [QemuMain] is the kernel's
      program (crates/zos-boot/src/main.rs).

    - Services and applications: [AppFramework] is the framework of crates/zos-apps
      (framework/app.rs, error.rs, runtime.rs) over the client library: the trait
      [ZeroApp] is a type class, a method is a computation on the state of the
      application and of its host, and [run] is the event loop. [Permission],
      [Keystore], [NetService] and [TimeService] are the services of
      crates/zos-services/src/services of these names, [VfsClient] is the client of
      the file system (crates/zos-vfs/src/client), [AppProtocol] the wire format of
      crates/zos-apps/src/protocol and of the application states, [Apps] the clock,
      the settings and the terminal.
    - Identity (crates/zos-identity, crates/zos-network and
      crates/zos-services/src/services/identity): [IdTypes] has the records of the
      crates, the messages, and the pending operations; [IdKeys] auth.rs, utils.rs,
      crypto.rs, the client of the keystore, response.rs and handlers/keys/;
      [IdSession] network.rs, session.rs, registration.rs, tier.rs, credentials.rs
      and preferences.rs; [IdService] keystore_dispatch/, vfs_dispatch.rs,
      network_dispatch.rs and mod.rs. The classes [IdCrypto], [IdJson] and
      [UnicodeCase] stand for the external crates.

    ** Specifications and proofs

    - [CoreSpec] gives the kernel core two abstract capability machines: [dstep],
      in which every named capability passes [axiom_check], as step.rs and
      capability.rs document it, and [astep], which follows the code where it does
      not make that check; [bypasses] is the difference. [CoreWf] and [CoreRun] lift
      them to invariants and runs; [CoreProps] has the theorems: exact refinement of
      [dstep] where nothing bypasses the check, the operations that do bypass it,
      the capability check, the invariant checker, reachable states, first-in
      first-out delivery, no amplification of authority, integrity.
    - [AxiomProps] has the theorems on the audit trail, the commit log (faithful
      below capacity, one-byte tampering always detected, trimming breaks
      verification) and the agreement of the two capability checks.
    - [KernelSpec] gives the kernel a labelled transition system whose labels are
      commits: [micro] steps carry their whole change in the label, [lossy] steps
      do not, [granting] steps are the supervisor's. [KernelRefine] and
      [SystemRefine] show that every operation and every numeric syscall is a
      bounded trace of such steps labelled with its own commits. [KernelWf] has
      the invariant [kwf] and the counting of steps, [KernelFun] the flow of
      authority and the exact results of transfer, receive, delete and kill.
    - [SystemRun] composes the methods of System into runs and has traces of them
      interleaved with changes of the platform, [SystemReplay] the simulation
      between a trace and the replay of its labels, [SystemProps] has the theorems: invariants of
      reachable states, no amplification, faithful replay and its exception, the
      audit of each syscall, capability transfer as a move, kill and grant
      authority, decoding of payloads, absence of panics, and the behaviour of
      three syscall numbers that differs from their documentation.
    - [BlockLog] states the laws of a device (class [DiskLaws], with a RAM disk
      as instance) and relates sectors to a log of entries, [BlockOps] executes the
      operations on it. [BlockProps]: the store refines
      a map from keys to values over any commands and restarts, and after a crash
      at any sector write it differs from the map before in one key at most.
      [VirtqProps] follows descriptor chains and the free list and shows that driver and device together are an abstract queue of requests.
    - [VfsService] shows that the paths the service accepts are the normal forms.
      [VfsOutcome] gives the exact outcome of each handler, [VfsLive] runs
      over arbitrary messages and results, [VfsStore] a
      concrete encoding and a store that remembers. [VfsProps]: every write and
      delete the service asks for carries out a received request (its path, its
      content, its operation) and is warranted by the inode that decides about it,
      every request is settled, what is written is read back.
    - [InitProps] and [InitOrder]: only the supervisor makes Init act on
      processes and capabilities; Init tries to send what it was given in order and
      each message once, also what came while a service waited for its capability,
      and what the kernel accepts keeps the order (a refused send is lost); a
      storage result crosses kernel, mailboxes and Init intact exactly up to 16,324
      bytes.
    - [FrameRun]: used and free frames partition the usable
      memory. [PageMap]: the tables are a tree that refines a map
      from pages to entries; the class [FrameSource] states what mapping needs of
      an allocator, and the frame allocator is an instance. [SpaceOps]
      follows ownership of frames through the operations of
      address spaces, and [SpaceProps] shows that spaces are isolated.
    - [HalRel] has the relations on platform states every system call
      respects (class [HalRel]). [SupRun] composes the entry points of the
      supervisor and relates the states before and after each (class [SupRel]);
      [SpawnProps], [SupLive], [WorkerIpc] have the lemmas on workers, exact effects, spawning, the debug channel, answered
      system calls and messages. [SupProps]: the supervisor refines the system, the
      slots a spawned application has, what reading permissions and the debug
      channel give away. [ProcessProps]: a message sent through the client
      library to an empty queue arrives unchanged, every waiting worker is answered.
    - [QemuRun] shows that scheduler and main loop end and which relations they
      respect (class [QemuRel]), and has an interpreter that meets the laws.
      [QemuProps]: the kernel's program refines the system and returns, its table
      of storage requests fills up, and what a process meets there. [X86Hal] shows
      that the wall clock counts the seconds of the calendar.
    - [AppFramework] has a recorder, which answers the calls of a service from an
      arbitrary environment and remembers them, a total weakest precondition, and
      [run_exists], which lifts an invariant of the handlers to the event loop.
      [ServiceProps] uses it: whatever the environment answers, the keystore, the
      network, the time and the permission service return to their loop and every
      call they make has its reason in the messages received before (whose senders
      they do not check); which message changes the settings of the clock; what their
      missing checks allow; and that no application is ever updated.
      [AppProtocol] shows that what is encoded is decoded again.
    - [IdProps]: the identity service works for trusted processes only, within its
      limits, and answers those who asked ([identity_accountable]; [works_for] leads
      each call back to the request, over the answers of the servers it asked); the
      neural key
      it stores can be recovered with the password and one share, or with three
      shares ([neural_key_recoverable], under the laws [sharing] of the cipher and
      the secret sharing); one result of nine bytes stops three services; and the
      identity of an enrolment is made of public data.

    ** Conventions and bounds

    Unsigned integers are [Z] kept in range by explicit wrap-around, which is
    what a release build does (Cargo.toml sets no overflow checks in the release
    profile). [usize] has the width of the class [Target]: 32 bits on wasm32, 64
    on x86_64. A BTreeMap is a [gmap] iterated in ascending order of keys. A
    panic is [None]; an error is a value of [result]. Log lines are left out
    where no other part reads them.

    Fuel occurs in several places. In [utf8_valid] and in the lossy decoding the
    length of the input suffices ([utf8_valid_fuel]). [load_loop] of the block
    store advances by at least one sector per turn and has the number of sectors
    as fuel. [drain] of the file system runs [total_rank] steps, the sum of the
    stages the pending operations have left, and is proved to end with none
    pending. [serve] feeds storage results back; the theorem that uses it states
    the number of turns and proves the answer. [free_chain] has the size of the
    queue, the longest chain, and is proved to end. On x86_64 the interpreter is
    iterated once more than there is fuel for a time slice ([exec_ends]), a process
    gets 101 turns for its 100 system calls, serial input one turn per byte, and
    the main loop 10000; running out is the outcome [OutOfFuel], shown not to
    occur. Loops of the client library that wait for a message take the number of
    polls as an argument, and so does the event loop of the framework for its turns
    and for the messages of a turn; the theorems hold for all such numbers. The stages
    of the identity service have no fuel: each response starts one operation at most.

    Counters cannot wrap within the bounds of the run theorems: 2^32 - 1 events
    for the kernel core, [max_steps] = 2^29 - 2 steps (at most four per call)
    for the system, where a slot counter grows by at most eight per step and the
    supervisor picks process identifiers below 2^63. The theorems that speak of
    the whole commit log assume that it has not been trimmed, that is fewer than
    100000 commits; a replayable call leaves at most 32. The block store is
    treated on devices below 2^31 sectors, and its refinement as long as the
    sectors written fit, since compaction does not keep the values apart
    ([compact_exchanges_values]). Memory regions lie below 2^52, the physical
    address space. The liveness of the file system assumes storage request
    identifiers that are not reused while it runs.

    ** Not modelled

    Interrupt tables, APIC, PCI and VirtIO transports (hardware access) and the
    self-tests of the kernel's program; raw memory primitives and the allocator; the
    in-memory file system of the tests; the calculator and the desktop, which compute
    with floating-point numbers; the sessions and users of crates/zos-identity, which
    no program uses; the web front end, but for the mailbox; the creation of browser
    workers. HAL methods the kernel never calls are not in the class. Cryptography,
    JSON and the tables of Unicode are code of other crates and parameters here;
    diagnostic lines that no program reads are left out. *)
From Stdlib.Strings Require Export Byte.
From stdpp Require Export gmap strings list sorting pretty.

Declare Scope zos_scope.
Delimit Scope zos_scope with zos.
Open Scope Z_scope.

(** ** Machine integers

    [u8], [u32], [u64] and [usize] values are [Z]; arithmetic that can leave
    the range is written with the wrap-around of a release build
    (Cargo.toml sets no [overflow-checks] in [profile.release]). *)
Definition wrap_u8 (z : Z) : Z := z mod 2 ^ 8.
Definition wrap_u16 (z : Z) : Z := z mod 2 ^ 16.
Definition wrap_u32 (z : Z) : Z := z mod 2 ^ 32.
Definition wrap_u64 (z : Z) : Z := z mod 2 ^ 64.

(** Two's complement reading of a 64-bit pattern ([u64 as i64]). *)
Definition as_i64 (z : Z) : Z :=
  let w := wrap_u64 z in if w <? 2 ^ 63 then w else w - 2 ^ 64.

Definition u32_add (a b : Z) : Z := wrap_u32 (a + b).
Definition u64_add (a b : Z) : Z := wrap_u64 (a + b).
Definition u64_mul (a b : Z) : Z := wrap_u64 (a * b).

(** [saturating_sub] on an unsigned type. *)
Definition sat_sub (a b : Z) : Z := Z.max 0 (a - b).

(** The width of [usize]: 32 on the wasm32 target, 64 on x86_64. *)
Class Target : Type := { usize_bits : Z; usize_bits_range : 32 <= usize_bits <= 64 }.

Definition wasm32 : Target := {| usize_bits := 32; usize_bits_range := ltac:(lia) |}.

Definition x86_64 : Target := {| usize_bits := 64; usize_bits_range := ltac:(lia) |}.

Definition usize_add `{Target} (a b : Z) : Z := (a + b) mod 2 ^ usize_bits.

(** [len()] of a vector, slice or string. *)
Definition len {A : Type} (l : list A) : Z := Z.of_nat (length l).

Definition str_len (s : string) : Z := Z.of_nat (String.length s).

(** ** Results *)
Inductive result (T E : Type) : Type :=
| Ok (t : T)
| Err (e : E).
Arguments Ok {T E} t.
Arguments Err {T E} e.

(** [ok_or] of the standard library. *)
Definition ok_or {T E} (o : option T) (e : E) : result T E :=
  match o with Some t => Ok t | None => Err e end.

Definition map_err {T E F} (f : E -> F) (r : result T E) : result T F :=
  match r with Ok t => Ok t | Err e => Err (f e) end.

Definition result_map {T U E} (f : T -> U) (r : result T E) : result U E :=
  match r with Ok t => Ok (f t) | Err e => Err e end.

Definition is_err {T E} (r : result T E) : bool :=
  match r with Ok _ => false | Err _ => true end.

(** The [?] operator: continue on [Ok], return the error otherwise. *)
Notation "'try?' x ':=' c 'in' k" :=
  (match c with Ok x => k | Err e => Err e end)
  (at level 10, x binder, c at level 100, k at level 200) : zos_scope.

(** ** Bytes *)
#[export] Instance byte_eq_dec : EqDecision byte := Byte.byte_eq_dec.

Definition byte_of_Z (z : Z) : byte :=
  match Byte.of_N (Z.to_N (z mod 256)) with Some b => b | None => x00 end.

Definition Z_of_byte (b : byte) : Z := Z.of_N (Byte.to_N b).

(** [to_le_bytes] of an unsigned or two's complement integer of [n] bytes. *)
Fixpoint to_le_bytes (n : nat) (z : Z) : list byte :=
  match n with
  | O => []
  | S n' => byte_of_Z z :: to_le_bytes n' (z / 256)
  end.

Definition u16_to_le_bytes (z : Z) : list byte := to_le_bytes 2 z.
Definition u32_to_le_bytes (z : Z) : list byte := to_le_bytes 4 z.
Definition u64_to_le_bytes (z : Z) : list byte := to_le_bytes 8 z.

(** [from_le_bytes]. *)
Definition from_le_bytes (l : list byte) : Z :=
  foldr (fun b acc => Z_of_byte b + 256 * acc) 0 l.

(** [as_bytes] / [bytes()] of a string: strings are their UTF-8 bytes. *)
Definition str_bytes (s : string) : list byte := String.list_byte_of_string s.

(** ** Ordered maps

    [BTreeMap<K, V>] is a [gmap]; its iteration visits keys in ascending
    order. *)
Definition key_le {V : Type} (x y : Z * V) : Prop := x.1 <= y.1.

#[export] Instance key_le_dec {V : Type} (x y : Z * V) : Decision (key_le x y) :=
  Z_le_dec x.1 y.1.

Definition btree_iter {V : Type} (m : gmap Z V) : list (Z * V) :=
  merge_sort key_le (map_to_list m).

Definition btree_values {V : Type} (m : gmap Z V) : list V := (btree_iter m).*2.

Definition btree_keys {V : Type} (m : gmap Z V) : list Z := (btree_iter m).*1.

Definition contains_key {V : Type} (m : gmap Z V) (k : Z) : bool :=
  match m !! k with Some _ => true | None => false end.

(** [get_mut(k)] followed by an in-place update. *)
Definition btree_update {V : Type} (f : V -> V) (k : Z) (m : gmap Z V) : gmap Z V :=
  alter f k m.

Definition btree_len {V : Type} (m : gmap Z V) : Z := Z.of_nat (size m).

(** ** Tactics *)

(** Split every [match], [if] and [decide] of the goal or of the hypotheses. *)
Ltac step_cases :=
  repeat (case_match || case_decide || case_bool_decide); simplify_eq/=.

Ltac zeq := repeat match goal with
  | H : (_ =? _) = true |- _ => apply Z.eqb_eq in H
  | H : (_ =? _) = false |- _ => apply Z.eqb_neq in H
  | H : (_ <? _) = true |- _ => apply Z.ltb_lt in H
  | H : (_ <? _) = false |- _ => apply Z.ltb_ge in H
  | H : (_ <=? _) = true |- _ => apply Z.leb_le in H
  | H : (_ <=? _) = false |- _ => apply Z.leb_gt in H
  | H : (_ && _) = true |- _ => apply andb_true_iff in H as [? ?]
  | H : (_ || _) = false |- _ => apply orb_false_iff in H as [? ?]
  | H : negb _ = true |- _ => apply negb_true_iff in H
  | H : negb _ = false |- _ => apply negb_false_iff in H
  end.

Create HintDb zos discriminated.
Create HintDb zosrw.

(** ** Lemmas on machine integers *)
Lemma wrap_u32_small z : 0 <= z < 2 ^ 32 -> wrap_u32 z = z.
Proof. apply Z.mod_small. Qed.

Lemma wrap_u64_small z : 0 <= z < 2 ^ 64 -> wrap_u64 z = z.
Proof. apply Z.mod_small. Qed.

Lemma u32_add_small a b : 0 <= a + b < 2 ^ 32 -> u32_add a b = a + b.
Proof. apply wrap_u32_small. Qed.

Lemma u64_add_small a b : 0 <= a + b < 2 ^ 64 -> u64_add a b = a + b.
Proof. apply wrap_u64_small. Qed.

Lemma wrap_u64_range z : 0 <= wrap_u64 z < 2 ^ 64.
Proof. apply Z.mod_pos_bound. lia. Qed.

Lemma wrap_u32_range z : 0 <= wrap_u32 z < 2 ^ 32.
Proof. apply Z.mod_pos_bound. lia. Qed.

#[export] Hint Resolve wrap_u64_range wrap_u32_range : zos.

(** ** Lemmas on results *)
Lemma ok_or_Ok {T E} (o : option T) (e : E) t : ok_or o e = Ok t <-> o = Some t.
Proof. destruct o; simpl; naive_solver. Qed.

Lemma map_err_Ok {T E F} (f : E -> F) (r : result T E) t : map_err f r = Ok t <-> r = Ok t.
Proof. destruct r; simpl; naive_solver. Qed.

(** ** Lemmas on bytes *)
Lemma Z_of_byte_range b : 0 <= Z_of_byte b < 256.
Proof. unfold Z_of_byte. pose proof (Byte.to_N_bounded b). lia. Qed.

Lemma Z_of_byte_of_Z z : Z_of_byte (byte_of_Z z) = z mod 256.
Proof.
  unfold Z_of_byte, byte_of_Z.
  pose proof (Z.mod_pos_bound z 256 ltac:(lia)) as Hb.
  destruct (Byte.of_N _) as [b|] eqn:E.
  - apply Byte.to_of_N in E. rewrite E, Z2N.id; lia.
  - apply Byte.of_N_None_iff in E. lia.
Qed.

Lemma byte_of_Z_of_byte b : byte_of_Z (Z_of_byte b) = b.
Proof.
  unfold byte_of_Z. pose proof (Z_of_byte_range b).
  rewrite Z.mod_small by lia. unfold Z_of_byte.
  by rewrite N2Z.id, Byte.of_to_N.
Qed.

Lemma Z_of_byte_inj b1 b2 : Z_of_byte b1 = Z_of_byte b2 -> b1 = b2.
Proof. intros H. by rewrite <- (byte_of_Z_of_byte b1), H, byte_of_Z_of_byte. Qed.

Lemma length_to_le_bytes n z : length (to_le_bytes n z) = n.
Proof. revert z. induction n; intros; simpl; auto. Qed.

(** Encoding and decoding an [n]-byte integer. *)
Lemma from_to_le_bytes n z :
  from_le_bytes (to_le_bytes n z) = z mod 256 ^ Z.of_nat n.
Proof.
  revert z. induction n as [|n IH]; intros z.
  - simpl. by rewrite Z.mod_1_r.
  - cbn [to_le_bytes]. unfold from_le_bytes in *. cbn [foldr].
    rewrite IH, Z_of_byte_of_Z.
    rewrite Nat2Z.inj_succ, Z.pow_succ_r by lia.
    rewrite Z.rem_mul_r by lia. lia.
Qed.

Lemma from_le_bytes_range l : 0 <= from_le_bytes l < 256 ^ len l.
Proof.
  unfold len. induction l as [|b l IH]; [simpl; lia|]. cbn [length]. unfold from_le_bytes in *. cbn [foldr].
  pose proof (Z_of_byte_range b). rewrite Nat2Z.inj_succ, Z.pow_succ_r by lia. lia.
Qed.

Lemma to_le_bytes_inj n z1 z2 :
  0 <= z1 < 256 ^ Z.of_nat n -> 0 <= z2 < 256 ^ Z.of_nat n ->
  to_le_bytes n z1 = to_le_bytes n z2 -> z1 = z2.
Proof.
  intros H1 H2 H. apply (f_equal from_le_bytes) in H.
  rewrite !from_to_le_bytes, !Z.mod_small in H; lia.
Qed.

(** ** Lemmas on ordered maps *)
Section btree.
Context {V : Type}.
Implicit Types m : gmap Z V.

#[local] Instance key_le_trans : Transitive (@key_le V).
Proof. intros x y z. unfold key_le. lia. Qed.

#[local] Instance key_le_total : Total (@key_le V).
Proof. intros x y. unfold key_le. lia. Qed.

Lemma btree_iter_perm m : btree_iter m ≡ₚ map_to_list m.
Proof. apply merge_sort_Permutation. Qed.

Lemma btree_iter_sorted m : StronglySorted key_le (btree_iter m).
Proof. apply (StronglySorted_merge_sort _). Qed.

Lemma elem_of_btree_iter m k v : (k, v) ∈ btree_iter m <-> m !! k = Some v.
Proof. by rewrite btree_iter_perm, elem_of_map_to_list. Qed.

Lemma length_btree_iter m : length (btree_iter m) = size m.
Proof. by rewrite btree_iter_perm, length_map_to_list. Qed.

Lemma NoDup_btree_keys m : NoDup (btree_keys m).
Proof. unfold btree_keys. rewrite btree_iter_perm. apply NoDup_fst_map_to_list. Qed.

Lemma elem_of_btree_values m v : v ∈ btree_values m <-> exists k, m !! k = Some v.
Proof.
  unfold btree_values. rewrite list_elem_of_fmap. split.
  - intros ([k v'] & -> & H%elem_of_btree_iter). eauto.
  - intros [k H%elem_of_btree_iter]. by exists (k, v).
Qed.

Lemma elem_of_btree_keys m k : k ∈ btree_keys m <-> is_Some (m !! k).
Proof.
  unfold btree_keys. rewrite list_elem_of_fmap. split.
  - intros ([k' v'] & -> & H%elem_of_btree_iter). eauto.
  - intros [v H%elem_of_btree_iter]. by exists (k, v).
Qed.

(** Iteration is determined by membership: a sorted list with the same
    entries is the iteration. *)
Lemma btree_iter_unique m l :
  StronglySorted key_le l -> l ≡ₚ map_to_list m -> btree_iter m = l.
Proof.
  intros Hs Hp. eapply (StronglySorted_unique_strong key_le); eauto using btree_iter_sorted.
  - intros [k1 v1] [k2 v2] H1 H2 Hle Hge. unfold key_le in *. simpl in *.
    assert (k1 = k2) as -> by lia. rewrite Hp, elem_of_map_to_list in H2.
    apply elem_of_btree_iter in H1. by simplify_eq.
  - by rewrite btree_iter_perm.
Qed.

Lemma contains_key_true m k : contains_key m k = true <-> is_Some (m !! k).
Proof. unfold contains_key. destruct (m !! k); naive_solver. Qed.

Lemma contains_key_false m k : contains_key m k = false <-> m !! k = None.
Proof. unfold contains_key. destruct (m !! k); naive_solver. Qed.
End btree.

Lemma btree_iter_fmap {V W : Type} (f : V -> W) (m : gmap Z V) :
  btree_iter (f <$> m) = prod_map id f <$> btree_iter m.
Proof.
  apply btree_iter_unique.
  - pose proof (btree_iter_sorted m) as Hs.
    induction Hs as [|[k v] l Hl IH Hx]; simpl; constructor; auto.
    apply Forall_fmap. eapply Forall_impl; [exact Hx|]. by intros [].
  - rewrite btree_iter_perm. by rewrite map_to_list_fmap.
Qed.

Lemma lookup_insert_is_Some_or {V} (m : gmap Z V) k k' v :
  is_Some (<[k := v]> m !! k') <-> k' = k \/ is_Some (m !! k').
Proof.
  destruct (decide (k' = k)) as [->|Hne].
  - rewrite lookup_insert_eq. naive_solver.
  - rewrite lookup_insert_ne by done. naive_solver.
Qed.
