(* ===== verification/CoreTypes.v ===== *)
(** * Types of the pure kernel core (crates/zos-kernel-core/src/types.rs)

    Process, endpoint, message and permission data with the operations the
    source attaches to them. Newtypes [ProcessId], [EndpointId] and [CapSlot]
    are the integers they wrap. *)
From S2P Require Import Prelude.

Abbreviation ProcessId := Z (only parsing).
Abbreviation EndpointId := Z (only parsing).
Abbreviation CapSlot := Z (only parsing).

Inductive ProcessState : Type := Running | Blocked | Zombie.

#[export] Instance ProcessState_eq_dec : EqDecision ProcessState.
Proof. solve_decision. Defined.

(** Per-process resource tracking. *)
Record ProcessMetrics : Type := mk_ProcessMetrics {
  memory_size : Z;
  ipc_sent : Z;
  ipc_received : Z;
  ipc_bytes_sent : Z;
  ipc_bytes_received : Z;
  syscall_count : Z;
  last_active_ns : Z;
  start_time_ns : Z }.

(** [ProcessMetrics { start_time_ns: timestamp, ..Default::default() }]. *)
Definition ProcessMetrics_started (timestamp : Z) : ProcessMetrics :=
  mk_ProcessMetrics 0 0 0 0 0 0 0 timestamp.

(** Process descriptor. *)
Record Process : Type := mk_Process {
  proc_pid : ProcessId;
  proc_name : string;
  proc_state : ProcessState;
  proc_metrics : ProcessMetrics }.

(** [proc.state = st] and [proc.metrics = m]. *)
Definition set_proc_state (st : ProcessState) (p : Process) : Process :=
  mk_Process (proc_pid p) (proc_name p) st (proc_metrics p).
Definition set_proc_metrics (m : ProcessMetrics) (p : Process) : Process :=
  mk_Process (proc_pid p) (proc_name p) (proc_state p) m.

(** Per-endpoint tracking. *)
Record EndpointMetrics : Type := mk_EndpointMetrics {
  queue_depth : Z;
  total_messages : Z;
  total_bytes : Z;
  queue_high_water : Z }.

Definition EndpointMetrics_default : EndpointMetrics := mk_EndpointMetrics 0 0 0 0.

(** System-wide metrics. *)
Record SystemMetrics : Type := mk_SystemMetrics {
  process_count : Z;
  sys_total_memory : Z;
  endpoint_count : Z;
  sys_total_pending_messages : Z;
  total_ipc_messages : Z;
  uptime_ns : Z }.

(** ** Permissions *)
Record Permissions : Type := mk_Permissions { read : bool; write : bool; grant : bool }.

#[export] Instance Permissions_eq_dec : EqDecision Permissions.
Proof. solve_decision. Defined.

Definition full : Permissions := mk_Permissions true true true.
Definition read_only : Permissions := mk_Permissions true false false.
Definition write_only : Permissions := mk_Permissions false true false.
Definition no_permissions : Permissions := mk_Permissions false false false.

Definition to_byte (p : Permissions) : Z :=
  let b := 0 in
  let b := if read p then Z.lor b 0x01 else b in
  let b := if write p then Z.lor b 0x02 else b in
  let b := if grant p then Z.lor b 0x04 else b in
  b.

Definition from_byte (b : Z) : Permissions :=
  mk_Permissions (negb (Z.land b 0x01 =? 0))
                 (negb (Z.land b 0x02 =? 0))
                 (negb (Z.land b 0x04 =? 0)).

Definition is_subset_of (self other : Permissions) : bool :=
  (negb (read self) || read other) &&
  (negb (write self) || write other) &&
  (negb (grant self) || grant other).

(** ** Object types *)
Inductive ObjectType : Type :=
| OT_Endpoint | OT_Process | OT_Memory | OT_Irq | OT_IoPort | OT_Console.

#[export] Instance ObjectType_eq_dec : EqDecision ObjectType.
Proof. solve_decision. Defined.

(** [t as u8], from the [repr(u8)] discriminants. *)
Definition ObjectType_as_u8 (t : ObjectType) : Z :=
  match t with
  | OT_Endpoint => 1 | OT_Process => 2 | OT_Memory => 3
  | OT_Irq => 4 | OT_IoPort => 5 | OT_Console => 6
  end.

Definition from_u8 (v : Z) : option ObjectType :=
  match v with
  | 1 => Some OT_Endpoint
  | 2 => Some OT_Process
  | 3 => Some OT_Memory
  | 4 => Some OT_Irq
  | 5 => Some OT_IoPort
  | 6 => Some OT_Console
  | _ => None
  end.

(** ** IPC *)
Definition MAX_MESSAGE_SIZE : Z := 4096.
Definition MAX_CAPS_PER_MESSAGE : Z := 4.

(** A capability copied into a message. *)
Record TransferredCap : Type := mk_TransferredCap {
  tc_cap_id : Z;
  tc_object_type : ObjectType;
  tc_object_id : Z;
  tc_permissions : Permissions }.

Record Message : Type := mk_Message {
  msg_sender : ProcessId;
  msg_tag : Z;
  msg_data : list byte;
  msg_caps : list TransferredCap }.

Record Endpoint : Type := mk_Endpoint {
  ep_id : EndpointId;
  ep_owner : ProcessId;
  ep_pending_messages : list Message;
  ep_metrics : EndpointMetrics }.

Definition Endpoint_new (id : EndpointId) (owner : ProcessId) : Endpoint :=
  mk_Endpoint id owner [] EndpointMetrics_default.

Definition enqueue (msg : Message) (e : Endpoint) : Endpoint :=
  let data_len := len (msg_data msg) in
  let pending := ep_pending_messages e ++ [msg] in
  let m := ep_metrics e in
  let depth := len pending in
  mk_Endpoint (ep_id e) (ep_owner e) pending
    (mk_EndpointMetrics depth
       (u64_add (total_messages m) 1)
       (u64_add (total_bytes m) data_len)
       (if queue_high_water m <? depth then depth else queue_high_water m)).

Definition dequeue (e : Endpoint) : option Message * Endpoint :=
  let '(msg, rest) :=
    match ep_pending_messages e with
    | [] => (None, [])
    | m :: rest => (Some m, rest)
    end in
  let mt := ep_metrics e in
  (msg, mk_Endpoint (ep_id e) (ep_owner e) rest
          (mk_EndpointMetrics (len rest) (total_messages mt) (total_bytes mt)
             (queue_high_water mt))).

(** ** Data returned by syscalls *)
Record CapInfo : Type := mk_CapInfo {
  ci_id : Z;
  ci_object_type : Z;
  ci_object_id : Z;
  ci_permissions : Z;
  ci_generation : Z;
  ci_expires_at : Z }.

Record EndpointInfo : Type := mk_EndpointInfo {
  ei_id : EndpointId;
  ei_owner : ProcessId;
  ei_queue_depth : Z }.

Record MessageSummary : Type := mk_MessageSummary {
  ms_sender : ProcessId;
  ms_tag : Z;
  ms_data_size : Z;
  ms_cap_count : Z }.

Record EndpointDetail : Type := mk_EndpointDetail {
  ed_id : EndpointId;
  ed_owner : ProcessId;
  ed_pending_messages : list MessageSummary;
  ed_metrics : EndpointMetrics }.

(** ** Permissions form a bounded order under [is_subset_of] *)
Lemma is_subset_of_spec p q :
  is_subset_of p q = true <->
  (read p = true -> read q = true) /\
  (write p = true -> write q = true) /\
  (grant p = true -> grant q = true).
Proof.
  destruct p as [[] [] []], q as [[] [] []]; cbn; intuition congruence.
Qed.

Lemma is_subset_of_refl p : is_subset_of p p = true.
Proof. by destruct p as [[] [] []]. Qed.

Lemma is_subset_of_full p : is_subset_of p full = true.
Proof. by destruct p as [[] [] []]. Qed.

Lemma is_subset_of_trans p q r :
  is_subset_of p q = true -> is_subset_of q r = true -> is_subset_of p r = true.
Proof. rewrite !is_subset_of_spec. intuition. Qed.

#[export] Hint Resolve is_subset_of_refl is_subset_of_full : zos.

(** Only the three low bits of a permission byte are read. *)
Lemma from_byte_low_bits b : from_byte b = from_byte (Z.land b 7).
Proof.
  unfold from_byte. rewrite <- !Z.land_assoc. reflexivity.
Qed.

Lemma from_to_byte p : from_byte (to_byte p) = p.
Proof. by destruct p as [[] [] []]. Qed.

Lemma from_u8_as_u8 t : from_u8 (ObjectType_as_u8 t) = Some t.
Proof. by destruct t. Qed.

(** * Capability spaces and [axiom_check] of the pure kernel core
    (crates/zos-kernel-core/src/capability.rs) *)

(** A capability token. *)
Record Capability : Type := mk_Capability {
  cap_id : Z;
  cap_object_type : ObjectType;
  cap_object_id : Z;
  cap_permissions : Permissions;
  cap_generation : Z;
  cap_expires_at : Z }.

#[export] Instance Capability_eq_dec : EqDecision Capability.
Proof. solve_decision. Defined.

Definition is_expired (c : Capability) (current_time : Z) : bool :=
  negb (cap_expires_at c =? 0) && (cap_expires_at c <? current_time).

Definition has_permissions (c : Capability) (required : Permissions) : bool :=
  (negb (read required) || read (cap_permissions c)) &&
  (negb (write required) || write (cap_permissions c)) &&
  (negb (grant required) || grant (cap_permissions c)).

(** Per-process capability table. *)
Record CapabilitySpace : Type := mk_CapabilitySpace {
  slots : gmap CapSlot Capability;
  next_slot : CapSlot }.

Definition CapabilitySpace_new : CapabilitySpace := mk_CapabilitySpace ∅ 0.

Definition cs_insert (cap : Capability) (cs : CapabilitySpace) : CapSlot * CapabilitySpace :=
  let slot := next_slot cs in
  (slot, mk_CapabilitySpace (<[slot := cap]> (slots cs)) (u32_add (next_slot cs) 1)).

Definition cs_get (cs : CapabilitySpace) (slot : CapSlot) : option Capability :=
  slots cs !! slot.

Definition cs_remove (slot : CapSlot) (cs : CapabilitySpace)
  : option Capability * CapabilitySpace :=
  (slots cs !! slot, mk_CapabilitySpace (delete slot (slots cs)) (next_slot cs)).

Definition cs_list (cs : CapabilitySpace) : list (CapSlot * Capability) :=
  btree_iter (slots cs).

Definition cs_len (cs : CapabilitySpace) : Z := btree_len (slots cs).

Definition cs_is_empty (cs : CapabilitySpace) : bool := btree_len (slots cs) =? 0.

Definition cs_contains (cs : CapabilitySpace) (slot : CapSlot) : bool :=
  contains_key (slots cs) slot.

(** Errors of the capability check. *)
Inductive AxiomError : Type :=
| InvalidSlot | WrongType | InsufficientRights | Expired | ObjectNotFound.

#[export] Instance AxiomError_eq_dec : EqDecision AxiomError.
Proof. solve_decision. Defined.

(** The gatekeeper: does [slot] give the [required] authority now? *)
Definition axiom_check (cspace : CapabilitySpace) (slot : CapSlot)
    (required : Permissions) (expected_type : option ObjectType) (current_time : Z)
  : result Capability AxiomError :=
  match cs_get cspace slot with
  | None => Err InvalidSlot
  | Some cap =>
      if match expected_type with
         | Some expected => negb (bool_decide (cap_object_type cap = expected))
         | None => false
         end
      then Err WrongType
      else if negb (has_permissions cap required) then Err InsufficientRights
      else if is_expired cap current_time then Err Expired
      else Ok cap
  end.

(** ** Capability spaces as tables with an allocation pointer *)

(** Every occupied slot is below the allocation pointer. *)
Definition cs_wf (cs : CapabilitySpace) : Prop :=
  0 <= next_slot cs /\ forall slot c, slots cs !! slot = Some c -> 0 <= slot < next_slot cs.

Lemma cs_wf_new : cs_wf CapabilitySpace_new.
Proof. split; [done|]. intros slot c. simpl. by rewrite lookup_empty. Qed.

(** Below the 32-bit limit an insertion takes a free slot. *)
Lemma cs_insert_wf cs cap slot cs' :
  cs_wf cs -> next_slot cs < 2 ^ 32 - 1 -> cs_insert cap cs = (slot, cs') ->
  cs_wf cs' /\ slots cs !! slot = None /\ next_slot cs' = next_slot cs + 1.
Proof.
  intros [H0 Hlt] Hroom [= <- <-]. simpl.
  rewrite u32_add_small by lia. split_and!; try done.
  - split; simpl; [lia|]. intros s c [[<- _]|[_ Hs]]%lookup_insert_Some; [lia|].
    specialize (Hlt _ _ Hs). lia.
  - apply eq_None_not_Some. intros [c Hc]. specialize (Hlt _ _ Hc). lia.
Qed.

Lemma cs_remove_wf cs slot : cs_wf cs -> cs_wf (cs_remove slot cs).2.
Proof.
  intros [H0 Hlt]. split; simpl; [done|].
  intros s c [_ H]%lookup_delete_Some. eauto.
Qed.

#[export] Hint Resolve cs_wf_new cs_remove_wf : zos.

Lemma has_permissions_subset c p :
  has_permissions c p = is_subset_of p (cap_permissions c).
Proof. reflexivity. Qed.

(** What a successful check establishes, and the converse. *)
Lemma axiom_check_Ok cs slot req ty now cap :
  axiom_check cs slot req ty now = Ok cap <->
  slots cs !! slot = Some cap /\
  (forall t, ty = Some t -> cap_object_type cap = t) /\
  is_subset_of req (cap_permissions cap) = true /\
  (cap_expires_at cap = 0 \/ now <= cap_expires_at cap).
Proof.
  unfold axiom_check, cs_get. split.
  - intros H. destruct (slots cs !! slot) as [c|]; [|done].
    destruct (has_permissions c req) eqn:Hp; [|by destruct ty; try case_bool_decide].
    destruct (is_expired c now) eqn:Hx; [by destruct ty; try case_bool_decide|].
    rewrite <- has_permissions_subset.
    assert (cap_expires_at c = 0 \/ now <= cap_expires_at c).
    { unfold is_expired in Hx. apply andb_false_iff in Hx as [Hx|Hx]; zeq; lia. }
    destruct ty as [t|]; [case_bool_decide; [|done]|]; simpl in H; naive_solver.
  - intros (-> & Hty & Hp & Hx).
    rewrite <- has_permissions_subset in Hp.
    assert (is_expired cap now = false) as Hexp.
    { unfold is_expired. apply andb_false_iff.
      destruct Hx as [->|Hx]; [left; done|right; by apply Z.ltb_ge]. }
    rewrite Hp, Hexp. destruct ty as [t|]; [|done].
    by rewrite (bool_decide_eq_true_2 _ (Hty t eq_refl)).
Qed.
