(* ===== verification/CoreStep.v ===== *)
(** * Kernel state of the pure kernel core (crates/zos-kernel-core/src/state.rs)

    [KernelState] holds the process table, the capability spaces, the
    endpoints and the identifier counters. The mutating methods of the source
    ([&mut self]) return the new state beside their result. *)
From S2P Require Import Prelude CoreTypes.

Record KernelState : Type := mk_KernelState {
  processes : gmap ProcessId Process;
  cap_spaces : gmap ProcessId CapabilitySpace;
  endpoints : gmap EndpointId Endpoint;
  next_pid : Z;
  next_endpoint_id : Z;
  next_cap_id : Z;
  total_ipc_count : Z }.

Definition KernelState_new : KernelState := mk_KernelState ∅ ∅ ∅ 1 1 1 0.

(** Assignment to one field. *)
Definition set_processes (m : gmap ProcessId Process) (s : KernelState) : KernelState :=
  mk_KernelState m (cap_spaces s) (endpoints s) (next_pid s) (next_endpoint_id s)
    (next_cap_id s) (total_ipc_count s).
Definition set_cap_spaces (m : gmap ProcessId CapabilitySpace) (s : KernelState) : KernelState :=
  mk_KernelState (processes s) m (endpoints s) (next_pid s) (next_endpoint_id s)
    (next_cap_id s) (total_ipc_count s).
Definition set_endpoints (m : gmap EndpointId Endpoint) (s : KernelState) : KernelState :=
  mk_KernelState (processes s) (cap_spaces s) m (next_pid s) (next_endpoint_id s)
    (next_cap_id s) (total_ipc_count s).
Definition set_next_pid (n : Z) (s : KernelState) : KernelState :=
  mk_KernelState (processes s) (cap_spaces s) (endpoints s) n (next_endpoint_id s)
    (next_cap_id s) (total_ipc_count s).
Definition set_next_endpoint_id (n : Z) (s : KernelState) : KernelState :=
  mk_KernelState (processes s) (cap_spaces s) (endpoints s) (next_pid s) n
    (next_cap_id s) (total_ipc_count s).
Definition set_next_cap_id (n : Z) (s : KernelState) : KernelState :=
  mk_KernelState (processes s) (cap_spaces s) (endpoints s) (next_pid s)
    (next_endpoint_id s) n (total_ipc_count s).
Definition set_total_ipc_count (n : Z) (s : KernelState) : KernelState :=
  mk_KernelState (processes s) (cap_spaces s) (endpoints s) (next_pid s)
    (next_endpoint_id s) (next_cap_id s) n.

(** ** Identifier allocation *)
Definition alloc_pid (s : KernelState) : ProcessId * KernelState :=
  (next_pid s, set_next_pid (u64_add (next_pid s) 1) s).

Definition alloc_endpoint_id (s : KernelState) : EndpointId * KernelState :=
  (next_endpoint_id s, set_next_endpoint_id (u64_add (next_endpoint_id s) 1) s).

Definition alloc_cap_id (s : KernelState) : Z * KernelState :=
  (next_cap_id s, set_next_cap_id (u64_add (next_cap_id s) 1) s).

(** ** Read-only accessors *)
Definition get_process (s : KernelState) (pid : ProcessId) : option Process :=
  processes s !! pid.

Definition list_processes (s : KernelState) : list (ProcessId * Process) :=
  btree_iter (processes s).

Definition get_cap_space (s : KernelState) (pid : ProcessId) : option CapabilitySpace :=
  cap_spaces s !! pid.

Definition get_endpoint (s : KernelState) (id : EndpointId) : option Endpoint :=
  endpoints s !! id.

Definition list_endpoints (s : KernelState) : list EndpointInfo :=
  (fun e => mk_EndpointInfo (ep_id e) (ep_owner e) (len (ep_pending_messages e)))
    <$> btree_values (endpoints s).

Definition message_summary (m : Message) : MessageSummary :=
  mk_MessageSummary (msg_sender m) (msg_tag m) (len (msg_data m)) (len (msg_caps m)).

Definition get_endpoint_detail (s : KernelState) (id : EndpointId) : option EndpointDetail :=
  (fun e => mk_EndpointDetail (ep_id e) (ep_owner e)
              (message_summary <$> ep_pending_messages e) (ep_metrics e))
    <$> endpoints s !! id.

(** [sum()] over [usize]. *)
Definition usize_sum `{Target} (l : list Z) : Z := foldl usize_add 0 l.

Definition total_memory `{Target} (s : KernelState) : Z :=
  usize_sum ((fun p => memory_size (proc_metrics p)) <$> btree_values (processes s)).

Definition total_pending_messages `{Target} (s : KernelState) : Z :=
  usize_sum ((fun e => len (ep_pending_messages e)) <$> btree_values (endpoints s)).

Definition get_system_metrics `{Target} (s : KernelState) (uptime : Z) : SystemMetrics :=
  mk_SystemMetrics (btree_len (processes s)) (total_memory s) (btree_len (endpoints s))
    (total_pending_messages s) (total_ipc_count s) uptime.

(** ** State mutation helpers *)
Definition new_process (pid : ProcessId) (name : string) (timestamp : Z) : Process :=
  mk_Process pid name Running (ProcessMetrics_started timestamp).

Definition register_process (name : string) (timestamp : Z) (s : KernelState)
  : ProcessId * KernelState :=
  let '(pid, s) := alloc_pid s in
  let s := set_processes (<[pid := new_process pid name timestamp]> (processes s)) s in
  let s := set_cap_spaces (<[pid := CapabilitySpace_new]> (cap_spaces s)) s in
  (pid, s).

Definition register_process_with_pid (pid : ProcessId) (name : string) (timestamp : Z)
    (s : KernelState) : ProcessId * KernelState :=
  let s := if next_pid s <=? pid then set_next_pid (u64_add pid 1) s else s in
  let s := set_processes (<[pid := new_process pid name timestamp]> (processes s)) s in
  let s := set_cap_spaces (<[pid := CapabilitySpace_new]> (cap_spaces s)) s in
  (pid, s).

Definition kill_process (pid : ProcessId) (s : KernelState) : bool * KernelState :=
  match processes s !! pid with
  | Some _ => (true, set_processes (btree_update (set_proc_state Zombie) pid (processes s)) s)
  | None => (false, s)
  end.

(** [&&] is lazy: the capability space is removed only if the process existed. *)
Definition remove_process (pid : ProcessId) (s : KernelState) : bool * KernelState :=
  match processes s !! pid with
  | None => (false, s)
  | Some _ =>
      let s := set_processes (delete pid (processes s)) s in
      (contains_key (cap_spaces s) pid, set_cap_spaces (delete pid (cap_spaces s)) s)
  end.

Definition create_endpoint (owner : ProcessId) (s : KernelState) : EndpointId * KernelState :=
  let '(id, s) := alloc_endpoint_id s in
  (id, set_endpoints (<[id := Endpoint_new id owner]> (endpoints s)) s).

Definition remove_endpoint (id : EndpointId) (s : KernelState) : bool * KernelState :=
  (contains_key (endpoints s) id, set_endpoints (delete id (endpoints s)) s).

Definition process_exists (s : KernelState) (pid : ProcessId) : bool :=
  match processes s !! pid with
  | Some p => negb (bool_decide (proc_state p = Zombie))
  | None => false
  end.

Definition count_syscall (timestamp : Z) (p : Process) : Process :=
  let m := proc_metrics p in
  set_proc_metrics
    (mk_ProcessMetrics (memory_size m) (ipc_sent m) (ipc_received m) (ipc_bytes_sent m)
       (ipc_bytes_received m) (u64_add (syscall_count m) 1) timestamp (start_time_ns m)) p.

Definition update_syscall_metrics (pid : ProcessId) (timestamp : Z) (s : KernelState)
  : KernelState :=
  set_processes (btree_update (count_syscall timestamp) pid (processes s)) s.

(** ** Updates of one process keep the table's domain *)
Lemma lookup_btree_update {V} (f : V -> V) k k' (m : gmap Z V) v :
  btree_update f k m !! k' = Some v ->
  exists v0, m !! k' = Some v0 /\ (v = v0 \/ (k = k' /\ v = f v0)).
Proof.
  unfold btree_update. intros H. destruct (decide (k = k')) as [->|Hne].
  - rewrite lookup_alter_eq in H. apply fmap_Some in H as (v0 & ? & ->). eauto.
  - rewrite lookup_alter_ne in H by done. eauto.
Qed.

Lemma is_Some_btree_update {V} (f : V -> V) k k' (m : gmap Z V) :
  is_Some (btree_update f k m !! k') <-> is_Some (m !! k').
Proof. unfold btree_update. apply lookup_alter_is_Some. Qed.

Lemma btree_update_ne {V} (f : V -> V) k k' (m : gmap Z V) :
  k <> k' -> btree_update f k m !! k' = m !! k'.
Proof. intros. by apply lookup_alter_ne. Qed.

Lemma btree_update_eq {V} (f : V -> V) k (m : gmap Z V) :
  btree_update f k m !! k = f <$> m !! k.
Proof. apply lookup_alter_eq. Qed.

(** * The step function of the pure kernel core
    (crates/zos-kernel-core/src/step.rs)

    [step s from_pid syscall timestamp] is the result with its commits, and
    the state after the syscall. *)

Inductive Syscall : Type :=
| Debug (msg : string)
| GetTime
| Yield
| Exit (code : Z)
| Kill (target_pid : ProcessId)
| ListProcesses
| CreateEndpoint
| Send (endpoint_slot : CapSlot) (tag : Z) (data : list byte)
| Receive (endpoint_slot : CapSlot)
| SendWithCaps (endpoint_slot : CapSlot) (tag : Z) (data : list byte) (cap_slots : list CapSlot)
| Call (endpoint_slot : CapSlot) (tag : Z) (data : list byte)
| ListCaps
| CapGrant (from_slot : CapSlot) (to_pid : ProcessId) (permissions : Permissions)
| CapRevoke (slot : CapSlot)
| CapDelete (slot : CapSlot)
| CapInspect (slot : CapSlot)
| CapDerive (slot : CapSlot) (new_permissions : Permissions).

#[export] Instance Syscall_eq_dec : EqDecision Syscall.
Proof. solve_decision. Defined.

Inductive KernelError : Type :=
| ProcessNotFound | EndpointNotFound | InvalidCapability | PermissionDenied
| MessageTooLarge | TooManyCaps | InvalidArgument | ResourceExhausted.

Inductive SyscallResult : Type :=
| SR_Ok (v : Z)
| SR_Err (e : KernelError)
| SR_Message (m : Message)
| SR_WouldBlock
| SR_CapList (l : list (CapSlot * Capability))
| SR_CapInfo (i : CapInfo)
| SR_ProcessList (l : list (ProcessId * string * ProcessState)).

Definition KernelError_from (e : AxiomError) : KernelError :=
  match e with
  | InvalidSlot => InvalidCapability
  | WrongType => InvalidCapability
  | InsufficientRights => PermissionDenied
  | Expired => PermissionDenied
  | ObjectNotFound => InvalidCapability
  end.

Inductive CommitType : Type :=
| Genesis
| ProcessRegistered (pid : Z) (name : string)
| ProcessExited (pid : Z) (code : Z)
| ProcessKilled (pid : Z) (by_ : Z)
| EndpointCreated (id : Z) (owner : Z)
| EndpointDeleted (id : Z)
| IpcSent (from : Z) (endpoint : Z) (tag : Z) (size : Z)
| CapGranted (from_pid : Z) (to_pid : Z) (slot : Z) (object_id : Z)
| CapRevoked (pid : Z) (slot : Z)
| CapDeleted (pid : Z) (slot : Z)
| CapDerived (pid : Z) (from_slot : Z) (new_slot : Z).

Record Commit : Type := mk_Commit {
  c_id : list byte;
  c_prev_commit : list byte;
  c_seq : Z;
  c_timestamp : Z;
  c_commit_type : CommitType;
  c_caused_by : option Z }.

Definition zero32 : list byte := replicate 32 x00.

Definition Commit_new (ct : CommitType) (timestamp : Z) : Commit :=
  mk_Commit zero32 zero32 0 timestamp ct None.

Record StepResult : Type := mk_StepResult {
  sr_result : SyscallResult;
  sr_commits : list Commit }.

(** [StepResult { result: SyscallResult::Err(e), commits: vec![] }]. *)
Definition fail (e : KernelError) : StepResult := mk_StepResult (SR_Err e) [].

(** ** Syscall handlers *)
Definition step_exit (s : KernelState) (from_pid : ProcessId) (code : Z) (timestamp : Z)
  : StepResult * KernelState :=
  let s := set_processes (btree_update (set_proc_state Zombie) from_pid (processes s)) s in
  (mk_StepResult (SR_Ok (wrap_u64 code)) [Commit_new (ProcessExited from_pid code) timestamp], s).

Definition step_kill (s : KernelState) (from_pid target_pid : ProcessId) (timestamp : Z)
  : StepResult * KernelState :=
  if negb (contains_key (processes s) target_pid) then (fail ProcessNotFound, s)
  else
    let '(_, s) := kill_process target_pid s in
    (mk_StepResult (SR_Ok 0) [Commit_new (ProcessKilled target_pid from_pid) timestamp], s).

Definition step_list_processes (s : KernelState) : StepResult :=
  let procs := (fun kp => (kp.1, proc_name kp.2, proc_state kp.2)) <$> btree_iter (processes s) in
  mk_StepResult (SR_ProcessList procs) [].

(** [get_cap_space_mut(pid).map(|cs| cs.insert(cap)).unwrap_or(0)]. *)
Definition insert_cap_or_zero (pid : ProcessId) (cap : Capability) (s : KernelState)
  : CapSlot * KernelState :=
  match get_cap_space s pid with
  | Some cs =>
      let '(slot, cs') := cs_insert cap cs in
      (slot, set_cap_spaces (<[pid := cs']> (cap_spaces s)) s)
  | None => (0, s)
  end.

Definition step_create_endpoint (s : KernelState) (from_pid : ProcessId) (timestamp : Z)
  : StepResult * KernelState :=
  if negb (process_exists s from_pid) then (fail ProcessNotFound, s)
  else
    let '(endpoint_id, s) := alloc_endpoint_id s in
    let s := set_endpoints (<[endpoint_id := Endpoint_new endpoint_id from_pid]> (endpoints s)) s in
    let '(id, s) := alloc_cap_id s in
    let cap := mk_Capability id OT_Endpoint endpoint_id full 0 0 in
    let '(slot, s) := insert_cap_or_zero from_pid cap s in
    let result := Z.lor (wrap_u64 (Z.shiftl slot 32)) (Z.land endpoint_id 0xFFFFFFFF) in
    (mk_StepResult (SR_Ok result) [Commit_new (EndpointCreated endpoint_id from_pid) timestamp], s).

(** Sender bookkeeping of [step_send]. *)
Definition count_sent (data_size : Z) (p : Process) : Process :=
  let m := proc_metrics p in
  set_proc_metrics
    (mk_ProcessMetrics (memory_size m) (u64_add (ipc_sent m) 1) (ipc_received m)
       (u64_add (ipc_bytes_sent m) data_size) (ipc_bytes_received m) (syscall_count m)
       (last_active_ns m) (start_time_ns m)) p.

Definition step_send (s : KernelState) (from_pid : ProcessId) (endpoint_slot : CapSlot)
    (tag : Z) (data : list byte) (timestamp : Z) : StepResult * KernelState :=
  if MAX_MESSAGE_SIZE <? len data then (fail MessageTooLarge, s)
  else match get_cap_space s from_pid with
  | None => (fail ProcessNotFound, s)
  | Some cspace =>
  match axiom_check cspace endpoint_slot write_only (Some OT_Endpoint) timestamp with
  | Err e => (fail (KernelError_from e), s)
  | Ok cap =>
    let endpoint_id := cap_object_id cap in
    let data_size := len data in
    match get_endpoint s endpoint_id with
    | None => (fail EndpointNotFound, s)
    | Some endpoint =>
      let msg := mk_Message from_pid tag data [] in
      let s := set_endpoints (<[endpoint_id := enqueue msg endpoint]> (endpoints s)) s in
      let s := set_processes (btree_update (count_sent data_size) from_pid (processes s)) s in
      let s := set_total_ipc_count (u64_add (total_ipc_count s) 1) s in
      (mk_StepResult (SR_Ok 0) [Commit_new (IpcSent from_pid endpoint_id tag data_size) timestamp], s)
    end
  end
  end.

(** Receiver bookkeeping of [step_receive]. *)
Definition count_received (data_size : Z) (p : Process) : Process :=
  let m := proc_metrics p in
  set_proc_metrics
    (mk_ProcessMetrics (memory_size m) (ipc_sent m) (u64_add (ipc_received m) 1)
       (ipc_bytes_sent m) (u64_add (ipc_bytes_received m) data_size) (syscall_count m)
       (last_active_ns m) (start_time_ns m)) p.

Definition step_receive (s : KernelState) (from_pid : ProcessId) (endpoint_slot : CapSlot)
    (timestamp : Z) : StepResult * KernelState :=
  match get_cap_space s from_pid with
  | None => (fail ProcessNotFound, s)
  | Some cspace =>
  match axiom_check cspace endpoint_slot read_only (Some OT_Endpoint) timestamp with
  | Err e => (fail (KernelError_from e), s)
  | Ok cap =>
    let endpoint_id := cap_object_id cap in
    match get_endpoint s endpoint_id with
    | None => (fail EndpointNotFound, s)
    | Some endpoint =>
      let '(msg, endpoint') := dequeue endpoint in
      let s := set_endpoints (<[endpoint_id := endpoint']> (endpoints s)) s in
      match msg with
      | Some msg =>
          let data_size := len (msg_data msg) in
          let s := set_processes (btree_update (count_received data_size) from_pid (processes s)) s in
          (mk_StepResult (SR_Message msg) [], s)
      | None => (mk_StepResult SR_WouldBlock [], s)
      end
    end
  end
  end.

(** The loop that copies the capabilities named by [cap_slots]; [None] when a
    slot is empty. *)
Fixpoint collect_transferred (cspace : CapabilitySpace) (cap_slots : list CapSlot)
  : option (list TransferredCap) :=
  match cap_slots with
  | [] => Some []
  | slot :: rest =>
      match cs_get cspace slot with
      | None => None
      | Some cap =>
          match collect_transferred cspace rest with
          | None => None
          | Some l =>
              Some (mk_TransferredCap (cap_id cap) (cap_object_type cap) (cap_object_id cap)
                      (cap_permissions cap) :: l)
          end
      end
  end.

Definition step_send_with_caps (s : KernelState) (from_pid : ProcessId)
    (endpoint_slot : CapSlot) (tag : Z) (data : list byte) (cap_slots : list CapSlot)
    (timestamp : Z) : StepResult * KernelState :=
  if MAX_MESSAGE_SIZE <? len data then (fail MessageTooLarge, s)
  else if MAX_CAPS_PER_MESSAGE <? len cap_slots then (fail TooManyCaps, s)
  else match get_cap_space s from_pid with
  | None => (fail ProcessNotFound, s)
  | Some cspace =>
  match axiom_check cspace endpoint_slot write_only (Some OT_Endpoint) timestamp with
  | Err e => (fail (KernelError_from e), s)
  | Ok endpoint_cap =>
  match collect_transferred cspace cap_slots with
  | None => (fail InvalidCapability, s)
  | Some transferred_caps =>
    let endpoint_id := cap_object_id endpoint_cap in
    let data_size := len data in
    match get_endpoint s endpoint_id with
    | None => (fail EndpointNotFound, s)
    | Some endpoint =>
      let msg := mk_Message from_pid tag data transferred_caps in
      let s := set_endpoints (<[endpoint_id := enqueue msg endpoint]> (endpoints s)) s in
      let s := set_total_ipc_count (u64_add (total_ipc_count s) 1) s in
      (mk_StepResult (SR_Ok 0) [Commit_new (IpcSent from_pid endpoint_id tag data_size) timestamp], s)
    end
  end
  end
  end.

Definition step_call (s : KernelState) (from_pid : ProcessId) (endpoint_slot : CapSlot)
    (tag : Z) (data : list byte) (timestamp : Z) : StepResult * KernelState :=
  let '(send_result, s) := step_send s from_pid endpoint_slot tag data timestamp in
  match sr_result send_result with
  | SR_Ok _ => (mk_StepResult SR_WouldBlock (sr_commits send_result), s)
  | err => (mk_StepResult err (sr_commits send_result), s)
  end.

Definition step_list_caps (s : KernelState) (from_pid : ProcessId) : StepResult :=
  let caps := match get_cap_space s from_pid with Some cs => cs_list cs | None => [] end in
  mk_StepResult (SR_CapList caps) [].

Definition step_cap_grant (s : KernelState) (from_pid : ProcessId) (from_slot : CapSlot)
    (to_pid : ProcessId) (permissions : Permissions) (timestamp : Z)
  : StepResult * KernelState :=
  match get_cap_space s from_pid with
  | None => (fail ProcessNotFound, s)
  | Some cspace =>
  let grant_perms := mk_Permissions false false true in
  match axiom_check cspace from_slot grant_perms None timestamp with
  | Err e => (fail (KernelError_from e), s)
  | Ok source_cap =>
    if negb (process_exists s to_pid) then (fail ProcessNotFound, s)
    else if negb (is_subset_of permissions (cap_permissions source_cap))
    then (fail PermissionDenied, s)
    else
      let '(id, s) := alloc_cap_id s in
      let new_cap := mk_Capability id (cap_object_type source_cap) (cap_object_id source_cap)
                       permissions (u32_add (cap_generation source_cap) 1)
                       (cap_expires_at source_cap) in
      let '(new_slot, s) := insert_cap_or_zero to_pid new_cap s in
      (mk_StepResult (SR_Ok new_slot)
         [Commit_new (CapGranted from_pid to_pid new_slot (cap_object_id source_cap)) timestamp], s)
  end
  end.

(** [get_cap_space_mut(pid).and_then(|cs| cs.remove(slot))]. *)
Definition remove_cap (pid : ProcessId) (slot : CapSlot) (s : KernelState)
  : option Capability * KernelState :=
  match get_cap_space s pid with
  | Some cs =>
      let '(removed, cs') := cs_remove slot cs in
      (removed, set_cap_spaces (<[pid := cs']> (cap_spaces s)) s)
  | None => (None, s)
  end.

Definition step_cap_revoke (s : KernelState) (from_pid : ProcessId) (slot : CapSlot)
    (timestamp : Z) : StepResult * KernelState :=
  let '(removed, s) := remove_cap from_pid slot s in
  match removed with
  | Some _ => (mk_StepResult (SR_Ok 0) [Commit_new (CapRevoked from_pid slot) timestamp], s)
  | None => (fail InvalidCapability, s)
  end.

Definition step_cap_delete (s : KernelState) (from_pid : ProcessId) (slot : CapSlot)
    (timestamp : Z) : StepResult * KernelState :=
  let '(removed, s) := remove_cap from_pid slot s in
  match removed with
  | Some _ => (mk_StepResult (SR_Ok 0) [Commit_new (CapDeleted from_pid slot) timestamp], s)
  | None => (fail InvalidCapability, s)
  end.

Definition step_cap_inspect (s : KernelState) (from_pid : ProcessId) (slot : CapSlot)
  : StepResult :=
  match get_cap_space s from_pid with
  | None => fail ProcessNotFound
  | Some cspace =>
      match cs_get cspace slot with
      | Some cap =>
          mk_StepResult (SR_CapInfo (mk_CapInfo (cap_id cap) (ObjectType_as_u8 (cap_object_type cap))
            (cap_object_id cap) (to_byte (cap_permissions cap)) (cap_generation cap)
            (cap_expires_at cap))) []
      | None => fail InvalidCapability
      end
  end.

Definition step_cap_derive (s : KernelState) (from_pid : ProcessId) (slot : CapSlot)
    (new_permissions : Permissions) (timestamp : Z) : StepResult * KernelState :=
  match get_cap_space s from_pid with
  | None => (fail ProcessNotFound, s)
  | Some cspace =>
  match cs_get cspace slot with
  | None => (fail InvalidCapability, s)
  | Some source_cap =>
    if negb (is_subset_of new_permissions (cap_permissions source_cap))
    then (fail PermissionDenied, s)
    else
      let '(id, s) := alloc_cap_id s in
      let new_cap := mk_Capability id (cap_object_type source_cap) (cap_object_id source_cap)
                       new_permissions (u32_add (cap_generation source_cap) 1)
                       (cap_expires_at source_cap) in
      let '(new_slot, s) := insert_cap_or_zero from_pid new_cap s in
      (mk_StepResult (SR_Ok new_slot) [Commit_new (CapDerived from_pid slot new_slot) timestamp], s)
  end
  end.

(** ** Dispatch *)
Definition step (s : KernelState) (from_pid : ProcessId) (syscall : Syscall) (timestamp : Z)
  : StepResult * KernelState :=
  let s := update_syscall_metrics from_pid timestamp s in
  match syscall with
  | Debug _ => (mk_StepResult (SR_Ok 0) [], s)
  | GetTime => (mk_StepResult (SR_Ok timestamp) [], s)
  | Yield => (mk_StepResult (SR_Ok 0) [], s)
  | Exit code => step_exit s from_pid code timestamp
  | Kill target_pid => step_kill s from_pid target_pid timestamp
  | ListProcesses => (step_list_processes s, s)
  | CreateEndpoint => step_create_endpoint s from_pid timestamp
  | Send endpoint_slot tag data => step_send s from_pid endpoint_slot tag data timestamp
  | Receive endpoint_slot => step_receive s from_pid endpoint_slot timestamp
  | SendWithCaps endpoint_slot tag data cap_slots =>
      step_send_with_caps s from_pid endpoint_slot tag data cap_slots timestamp
  | Call endpoint_slot tag data => step_call s from_pid endpoint_slot tag data timestamp
  | ListCaps => (step_list_caps s from_pid, s)
  | CapGrant from_slot to_pid permissions =>
      step_cap_grant s from_pid from_slot to_pid permissions timestamp
  | CapRevoke slot => step_cap_revoke s from_pid slot timestamp
  | CapDelete slot => step_cap_delete s from_pid slot timestamp
  | CapInspect slot => (step_cap_inspect s from_pid slot, s)
  | CapDerive slot new_permissions => step_cap_derive s from_pid slot new_permissions timestamp
  end.

(** * Runtime invariant checker of the pure kernel core
    (crates/zos-kernel-core/src/invariants.rs)

    The executable checker returns the list of violations as the source does;
    [check_all_invariants_nil] characterises the states it accepts. *)

Record InvariantViolation : Type := mk_InvariantViolation {
  invariant : string;
  description : string }.

(** Invariant 1: every process has a capability space, and conversely. *)
Definition check_process_capability_consistency (s : KernelState) : list InvariantViolation :=
  flat_map (fun pid =>
    if negb (contains_key (cap_spaces s) pid) then
      [mk_InvariantViolation "process_capability_consistency"
         ("Process " +:+ pretty pid +:+ " exists but has no capability space")]
    else []) (btree_keys (processes s)) ++
  flat_map (fun pid =>
    if negb (contains_key (processes s) pid) then
      [mk_InvariantViolation "process_capability_consistency"
         ("Capability space exists for non-existent process " +:+ pretty pid)]
    else []) (btree_keys (cap_spaces s)).

(** Invariant 2: every endpoint's owner exists and is not a zombie. *)
Definition check_endpoint_ownership (s : KernelState) : list InvariantViolation :=
  flat_map (fun '(eid, endpoint) =>
    if negb (contains_key (processes s) (ep_owner endpoint)) then
      [mk_InvariantViolation "endpoint_ownership"
         ("Endpoint " +:+ pretty (eid : Z) +:+ " owned by non-existent process "
          +:+ pretty (ep_owner endpoint))]
    else
      match processes s !! ep_owner endpoint with
      | Some proc =>
          if bool_decide (proc_state proc = Zombie) then
            [mk_InvariantViolation "endpoint_ownership"
               ("Endpoint " +:+ pretty (eid : Z) +:+ " owned by zombie process "
                +:+ pretty (ep_owner endpoint))]
          else []
      | None => []
      end) (btree_iter (endpoints s)).

(** Invariant 3: endpoint and process capabilities reference existing objects. *)
Definition check_capability_object_validity (s : KernelState) : list InvariantViolation :=
  flat_map (fun '(pid, cspace) =>
    flat_map (fun '(slot, cap) =>
      match cap_object_type cap with
      | OT_Endpoint =>
          if negb (contains_key (endpoints s) (cap_object_id cap)) then
            [mk_InvariantViolation "capability_object_validity"
               ("Process " +:+ pretty (pid : Z) +:+ " slot " +:+ pretty (slot : Z)
                +:+ " references non-existent endpoint " +:+ pretty (cap_object_id cap))]
          else []
      | OT_Process =>
          if negb (contains_key (processes s) (cap_object_id cap)) then
            [mk_InvariantViolation "capability_object_validity"
               ("Process " +:+ pretty (pid : Z) +:+ " slot " +:+ pretty (slot : Z)
                +:+ " references non-existent process " +:+ pretty (cap_object_id cap))]
          else []
      | _ => []
      end) (btree_iter (slots cspace))) (btree_iter (cap_spaces s)).

(** Invariant 4: the counters exceed every identifier in use. *)
Definition check_id_monotonicity (s : KernelState) : list InvariantViolation :=
  flat_map (fun pid =>
    if next_pid s <=? pid then
      [mk_InvariantViolation "id_monotonicity"
         ("Process " +:+ pretty pid +:+ " exists but next_pid is " +:+ pretty (next_pid s))]
    else []) (btree_keys (processes s)) ++
  flat_map (fun eid =>
    if next_endpoint_id s <=? eid then
      [mk_InvariantViolation "id_monotonicity"
         ("Endpoint " +:+ pretty eid +:+ " exists but next_endpoint_id is "
          +:+ pretty (next_endpoint_id s))]
    else []) (btree_keys (endpoints s)) ++
  flat_map (fun cspace =>
    flat_map (fun cap =>
      if next_cap_id s <=? cap_id cap then
        [mk_InvariantViolation "id_monotonicity"
           ("Capability " +:+ pretty (cap_id cap) +:+ " exists but next_cap_id is "
            +:+ pretty (next_cap_id s))]
      else []) (btree_values (slots cspace))) (btree_values (cap_spaces s)).

Definition check_all_invariants (s : KernelState) : list InvariantViolation :=
  check_process_capability_consistency s ++ check_endpoint_ownership s ++
  check_capability_object_validity s ++ check_id_monotonicity s.

(** [assert_invariants] panics ([false]) on a violation. *)
Definition assert_invariants (s : KernelState) : bool :=
  match check_all_invariants s with [] => true | _ :: _ => false end.

(** ** The invariants as propositions *)

(** [holds s pid slot c]: process [pid] has capability [c] in [slot]. *)
Definition holds (s : KernelState) (pid : ProcessId) (slot : CapSlot) (c : Capability) : Prop :=
  exists cs, cap_spaces s !! pid = Some cs /\ slots cs !! slot = Some c.

Definition inv_consistency (s : KernelState) : Prop :=
  forall pid, is_Some (processes s !! pid) <-> is_Some (cap_spaces s !! pid).

Definition inv_owner_exists (s : KernelState) : Prop :=
  forall eid e, endpoints s !! eid = Some e -> is_Some (processes s !! ep_owner e).

Definition inv_owner_alive (s : KernelState) : Prop :=
  forall eid e p, endpoints s !! eid = Some e -> processes s !! ep_owner e = Some p ->
    proc_state p <> Zombie.

Definition inv_objects (s : KernelState) : Prop :=
  forall pid slot c, holds s pid slot c ->
    match cap_object_type c with
    | OT_Endpoint => is_Some (endpoints s !! cap_object_id c)
    | OT_Process => is_Some (processes s !! cap_object_id c)
    | _ => True
    end.

Definition inv_ids (s : KernelState) : Prop :=
  (forall pid, is_Some (processes s !! pid) -> pid < next_pid s) /\
  (forall eid, is_Some (endpoints s !! eid) -> eid < next_endpoint_id s) /\
  (forall pid slot c, holds s pid slot c -> cap_id c < next_cap_id s).

(** ** The checker decides the propositions *)
Lemma flat_map_nil {A B} (f : A -> list B) l :
  flat_map f l = [] <-> forall x, x ∈ l -> f x = [].
Proof.
  induction l as [|a l IH]; simpl.
  - split; [|done]. intros _ x H. by apply elem_of_nil in H.
  - rewrite app_nil, IH. setoid_rewrite elem_of_cons. naive_solver.
Qed.

Lemma check_consistency_nil s :
  check_process_capability_consistency s = [] <-> inv_consistency s.
Proof.
  unfold check_process_capability_consistency, inv_consistency.
  rewrite app_nil, !flat_map_nil. setoid_rewrite elem_of_btree_keys. split.
  - intros [H1 H2] pid. specialize (H1 pid). specialize (H2 pid).
    rewrite <- !contains_key_true in *.
    destruct (contains_key (cap_spaces s) pid), (contains_key (processes s) pid);
      simpl in *; naive_solver.
  - intros H. split; intros pid Hp; apply H in Hp; apply contains_key_true in Hp;
      by rewrite Hp.
Qed.

Lemma check_ownership_nil s :
  check_endpoint_ownership s = [] <-> inv_owner_exists s /\ inv_owner_alive s.
Proof.
  unfold check_endpoint_ownership. rewrite flat_map_nil. split.
  - intros H. assert (forall eid e, endpoints s !! eid = Some e ->
      exists p, processes s !! ep_owner e = Some p /\ proc_state p <> Zombie) as Ha.
    { intros eid e He. specialize (H (eid, e) (proj2 (elem_of_btree_iter _ _ _) He)).
      unfold contains_key in H. destruct (processes s !! ep_owner e) as [p|]; [|done].
      simpl in H. case_bool_decide; naive_solver. }
    split; [intros eid e (p & -> & _)%Ha; eauto|].
    intros eid e p He Hp. apply Ha in He as (p' & Hp' & ?). by simplify_eq.
  - intros [H1 H2] [eid e] He%elem_of_btree_iter. destruct (H1 _ _ He) as [p Hp].
    unfold contains_key. rewrite Hp. simpl.
    by rewrite bool_decide_eq_false_2 by eauto.
Qed.

Lemma holds_iter s pid slot c :
  holds s pid slot c <->
  exists cs, (pid, cs) ∈ btree_iter (cap_spaces s) /\ (slot, c) ∈ btree_iter (slots cs).
Proof. unfold holds. by setoid_rewrite elem_of_btree_iter. Qed.

Lemma check_objects_nil s : check_capability_object_validity s = [] <-> inv_objects s.
Proof.
  unfold check_capability_object_validity, inv_objects. rewrite flat_map_nil. split.
  - intros H pid slot c (cs & Hcs & Hc)%holds_iter.
    specialize (H _ Hcs). simpl in H. rewrite flat_map_nil in H. specialize (H _ Hc).
    simpl in H. unfold contains_key in H.
    destruct (cap_object_type c); try done;
      [destruct (endpoints s !! _)|destruct (processes s !! _)]; naive_solver.
  - intros H [pid cs] Hcs. apply flat_map_nil. intros [slot c] Hc.
    specialize (H pid slot c (proj2 (holds_iter _ _ _ _) (ex_intro _ cs (conj Hcs Hc)))).
    unfold contains_key.
    destruct (cap_object_type c); try done; destruct H as [? ->]; done.
Qed.

Lemma check_ids_nil s : check_id_monotonicity s = [] <-> inv_ids s.
Proof.
  unfold check_id_monotonicity, inv_ids. rewrite !app_nil, !flat_map_nil.
  setoid_rewrite elem_of_btree_keys.
  assert (forall (a b : Z) (v : InvariantViolation),
    (if a <=? b then [v] else []) = [] <-> b < a) as Hz.
  { intros a b v. destruct (Z.leb_spec a b); split; intros; try done; lia. }
  setoid_rewrite Hz. setoid_rewrite flat_map_nil. setoid_rewrite Hz.
  setoid_rewrite elem_of_btree_values. unfold holds. naive_solver.
Qed.

Lemma check_all_nil s :
  check_all_invariants s = [] <->
  inv_consistency s /\ inv_owner_exists s /\ inv_owner_alive s /\ inv_objects s /\ inv_ids s.
Proof.
  unfold check_all_invariants.
  rewrite !app_nil, check_consistency_nil, check_ownership_nil, check_objects_nil, check_ids_nil.
  tauto.
Qed.
