(* ===== verification/CoreSpec.v ===== *)
(** * Abstract specification of the kernel core and its refinement by [step]

    The abstract machine forgets metrics and keeps what a process can observe
    through authority: process states, capability spaces, endpoint queues and
    the identifier counters. Its transition relation has one rule per effect,
    with the authority the code asks for as premises. [step_refines_astep] shows
    that every syscall of crates/zos-kernel-core/src/step.rs is such a
    transition. The documented machine [dstep] keeps of these transitions those
    in which every capability the syscall names passes the check of
    [axiom_check], as the documentation of [step] demands. *)
From S2P Require Import Prelude CoreTypes CoreStep.

Record AState : Type := mk_AState {
  a_procs : gmap ProcessId (string * ProcessState);
  a_cspaces : gmap ProcessId CapabilitySpace;
  a_eps : gmap EndpointId (ProcessId * list Message);
  a_next_pid : Z;
  a_next_eid : Z;
  a_next_cap : Z }.

Definition abs_proc (p : Process) : string * ProcessState := (proc_name p, proc_state p).
Definition abs_ep (e : Endpoint) : ProcessId * list Message :=
  (ep_owner e, ep_pending_messages e).

Definition abs (s : KernelState) : AState :=
  mk_AState (abs_proc <$> processes s) (cap_spaces s) (abs_ep <$> endpoints s)
    (next_pid s) (next_endpoint_id s) (next_cap_id s).

(** ** Abstract operations *)
Definition a_kill (target : ProcessId) (a : AState) : AState :=
  mk_AState (alter (fun p => (p.1, Zombie)) target (a_procs a)) (a_cspaces a) (a_eps a)
    (a_next_pid a) (a_next_eid a) (a_next_cap a).

Definition a_set_queue (eid : EndpointId) (owner : ProcessId) (q : list Message) (a : AState)
  : AState :=
  mk_AState (a_procs a) (a_cspaces a) (<[eid := (owner, q)]> (a_eps a)) (a_next_pid a)
    (a_next_eid a) (a_next_cap a).

Definition a_insert_cap (pid : ProcessId) (cs : CapabilitySpace) (cap : Capability) (a : AState)
  : AState :=
  mk_AState (a_procs a) (<[pid := (cs_insert cap cs).2]> (a_cspaces a)) (a_eps a)
    (a_next_pid a) (a_next_eid a) (u64_add (a_next_cap a) 1).

Definition a_new_endpoint (owner : ProcessId) (cs : CapabilitySpace) (a : AState) : AState :=
  let eid := a_next_eid a in
  let cap := mk_Capability (a_next_cap a) OT_Endpoint eid full 0 0 in
  mk_AState (a_procs a) (<[owner := (cs_insert cap cs).2]> (a_cspaces a))
    (<[eid := (owner, [])]> (a_eps a)) (a_next_pid a) (u64_add eid 1) (u64_add (a_next_cap a) 1).

Definition a_drop_cap (pid : ProcessId) (cs : CapabilitySpace) (slot : CapSlot) (a : AState)
  : AState :=
  mk_AState (a_procs a) (<[pid := (cs_remove slot cs).2]> (a_cspaces a)) (a_eps a)
    (a_next_pid a) (a_next_eid a) (a_next_cap a).

(** [slot << 32 | endpoint_id], the value returned by [CreateEndpoint]. *)
Definition pack_slot_eid (slot : CapSlot) (eid : EndpointId) : Z :=
  Z.lor (wrap_u64 (Z.shiftl slot 32)) (Z.land eid 0xFFFFFFFF).

(** The copy of [cap] that a grant or a derivation inserts. *)
Definition attenuated (id : Z) (perms : Permissions) (cap : Capability) : Capability :=
  mk_Capability id (cap_object_type cap) (cap_object_id cap) perms
    (u32_add (cap_generation cap) 1) (cap_expires_at cap).

Definition transferred (cap : Capability) : TransferredCap :=
  mk_TransferredCap (cap_id cap) (cap_object_type cap) (cap_object_id cap) (cap_permissions cap).

(** Unexpired authority [perms] over [ty] through slot [slot] of [actor]. *)
Definition authorised (a : AState) (actor : ProcessId) (slot : CapSlot) (perms : Permissions)
    (ty : option ObjectType) (now : Z) (cap : Capability) : Prop :=
  exists cs, a_cspaces a !! actor = Some cs /\ slots cs !! slot = Some cap /\
    (forall t, ty = Some t -> cap_object_type cap = t) /\
    is_subset_of perms (cap_permissions cap) = true /\
    (cap_expires_at cap = 0 \/ now <= cap_expires_at cap).

Definition alive (a : AState) (pid : ProcessId) : Prop :=
  exists p, a_procs a !! pid = Some p /\ p.2 <> Zombie.

(** The answer of a read-only syscall; [None] for a syscall that is not one,
    or when there is nothing to inspect. *)
Definition a_query (actor : ProcessId) (now : Z) (a : AState) (sc : Syscall)
  : option SyscallResult :=
  match sc with
  | Debug _ | Yield => Some (SR_Ok 0)
  | GetTime => Some (SR_Ok now)
  | ListProcesses =>
      Some (SR_ProcessList
        ((fun kp => (kp.1, (kp.2).1, (kp.2).2)) <$> btree_iter (a_procs a)))
  | ListCaps => Some (SR_CapList (from_option (fun cs => btree_iter (slots cs)) [] (a_cspaces a !! actor)))
  | CapInspect slot =>
      cs ← a_cspaces a !! actor; cap ← slots cs !! slot;
      Some (SR_CapInfo (mk_CapInfo (cap_id cap) (ObjectType_as_u8 (cap_object_type cap))
        (cap_object_id cap) (to_byte (cap_permissions cap)) (cap_generation cap)
        (cap_expires_at cap)))
  | _ => None
  end.

(** ** The abstract transition relation

    The rules ask for what the handlers ask for: [A_kill], [A_derive],
    [A_drop], the inspection and the capabilities of a message involve no
    [axiom_check]. [dstep] below adds it. *)
Inductive astep (actor : ProcessId) (now : Z) (a : AState)
  : Syscall -> SyscallResult -> AState -> Prop :=
| A_fail sc e : astep actor now a sc (SR_Err e) a
| A_query sc r : a_query actor now a sc = Some r -> astep actor now a sc r a
| A_exit code : astep actor now a (Exit code) (SR_Ok (wrap_u64 code)) (a_kill actor a)
| A_kill target :
    is_Some (a_procs a !! target) ->
    astep actor now a (Kill target) (SR_Ok 0) (a_kill target a)
| A_create cs :
    alive a actor -> a_cspaces a !! actor = Some cs ->
    astep actor now a CreateEndpoint (SR_Ok (pack_slot_eid (next_slot cs) (a_next_eid a)))
      (a_new_endpoint actor cs a)
| A_send sc r slot tag data cap owner q :
    (sc = Send slot tag data /\ r = SR_Ok 0) \/ (sc = Call slot tag data /\ r = SR_WouldBlock) ->
    len data <= MAX_MESSAGE_SIZE ->
    authorised a actor slot write_only (Some OT_Endpoint) now cap ->
    a_eps a !! cap_object_id cap = Some (owner, q) ->
    astep actor now a sc r
      (a_set_queue (cap_object_id cap) owner (q ++ [mk_Message actor tag data []]) a)
| A_send_with_caps slot tag data cap_slots cs caps cap owner q :
    len data <= MAX_MESSAGE_SIZE -> len cap_slots <= MAX_CAPS_PER_MESSAGE ->
    authorised a actor slot write_only (Some OT_Endpoint) now cap ->
    a_cspaces a !! actor = Some cs ->
    Forall2 (fun sl c => slots cs !! sl = Some c) cap_slots caps ->
    a_eps a !! cap_object_id cap = Some (owner, q) ->
    astep actor now a (SendWithCaps slot tag data cap_slots) (SR_Ok 0)
      (a_set_queue (cap_object_id cap) owner
         (q ++ [mk_Message actor tag data (transferred <$> caps)]) a)
| A_receive slot cap owner m q :
    authorised a actor slot read_only (Some OT_Endpoint) now cap ->
    a_eps a !! cap_object_id cap = Some (owner, m :: q) ->
    astep actor now a (Receive slot) (SR_Message m) (a_set_queue (cap_object_id cap) owner q a)
| A_receive_empty slot cap owner :
    authorised a actor slot read_only (Some OT_Endpoint) now cap ->
    a_eps a !! cap_object_id cap = Some (owner, []) ->
    astep actor now a (Receive slot) SR_WouldBlock a
| A_grant slot to_pid perms cap cs :
    authorised a actor slot (mk_Permissions false false true) None now cap ->
    alive a to_pid -> is_subset_of perms (cap_permissions cap) = true ->
    a_cspaces a !! to_pid = Some cs ->
    astep actor now a (CapGrant slot to_pid perms) (SR_Ok (next_slot cs))
      (a_insert_cap to_pid cs (attenuated (a_next_cap a) perms cap) a)
| A_derive slot perms cap cs :
    a_cspaces a !! actor = Some cs -> slots cs !! slot = Some cap ->
    is_subset_of perms (cap_permissions cap) = true ->
    astep actor now a (CapDerive slot perms) (SR_Ok (next_slot cs))
      (a_insert_cap actor cs (attenuated (a_next_cap a) perms cap) a)
| A_drop sc slot cap cs :
    sc = CapRevoke slot \/ sc = CapDelete slot ->
    a_cspaces a !! actor = Some cs -> slots cs !! slot = Some cap ->
    astep actor now a sc (SR_Ok 0) (a_drop_cap actor cs slot a).

(** ** The documented machine

    "All capability operations go through axiom_check" (step.rs, [step]) and
    "all kernel operations call this before executing" (capability.rs,
    [axiom_check]): a syscall succeeds only when each capability it names is
    there and unexpired, and an operation on another process names one. *)
Definition no_permissions : Permissions := mk_Permissions false false false.

Definition named_slots (sc : Syscall) : list CapSlot :=
  match sc with
  | Send slot _ _ | Call slot _ _ | Receive slot | CapGrant slot _ _ | CapRevoke slot
  | CapDelete slot | CapInspect slot | CapDerive slot _ => [slot]
  | SendWithCaps slot _ _ cap_slots => slot :: cap_slots
  | _ => []
  end.

Definition through_axiom_check (actor : ProcessId) (now : Z) (a : AState) (sc : Syscall) : Prop :=
  (forall target, sc <> Kill target) /\
  Forall (fun slot => exists cap, authorised a actor slot no_permissions None now cap) (named_slots sc).

Definition is_error (r : SyscallResult) : bool :=
  match r with SR_Err _ => true | _ => false end.

Definition dstep (actor : ProcessId) (now : Z) (a : AState) (sc : Syscall) (r : SyscallResult)
    (a' : AState) : Prop :=
  astep actor now a sc r a' /\ (is_error r = false -> through_axiom_check actor now a sc).

(** The operations that [step] performs without the check: a kill, and the use
    of an expired capability by the handlers that read the slot directly. *)
Definition expired_slot (s : KernelState) (actor : ProcessId) (now : Z) (slot : CapSlot) : bool :=
  match cap_spaces s !! actor with
  | Some cs => match axiom_check cs slot no_permissions None now with Err Expired => true | _ => false end
  | None => false
  end.

Definition bypasses (s : KernelState) (actor : ProcessId) (now : Z) (sc : Syscall) : bool :=
  match sc with
  | Kill _ => true
  | CapRevoke slot | CapDelete slot | CapInspect slot | CapDerive slot _ =>
      expired_slot s actor now slot
  | SendWithCaps _ _ _ cap_slots => existsb (expired_slot s actor now) cap_slots
  | _ => false
  end.

(** ** Refinement *)
Lemma abs_metrics f pid s :
  (forall p, abs_proc (f p) = abs_proc p) ->
  abs (set_processes (btree_update f pid (processes s)) s) = abs s.
Proof.
  intros Hf. unfold abs; simpl. f_equal. apply map_eq. intros i.
  rewrite !lookup_fmap. unfold btree_update.
  destruct (decide (pid = i)) as [->|?]; [rewrite lookup_alter_eq|by rewrite lookup_alter_ne].
  destruct (processes s !! i); simpl; [by rewrite Hf|done].
Qed.

Lemma abs_kill pid s :
  abs (set_processes (btree_update (set_proc_state Zombie) pid (processes s)) s) = a_kill pid (abs s).
Proof.
  unfold abs, a_kill; simpl. f_equal. apply map_eq. intros i.
  rewrite !lookup_fmap. unfold btree_update.
  destruct (decide (pid = i)) as [->|?].
  - rewrite !lookup_alter_eq, lookup_fmap. by destruct (processes s !! i).
  - by rewrite !lookup_alter_ne, lookup_fmap.
Qed.

Lemma abs_set_endpoint eid e s :
  abs (set_endpoints (<[eid := e]> (endpoints s)) s) =
  a_set_queue eid (ep_owner e) (ep_pending_messages e) (abs s).
Proof. unfold abs, a_set_queue; simpl. by rewrite fmap_insert. Qed.

Lemma abs_set_total n s : abs (set_total_ipc_count n s) = abs s.
Proof. done. Qed.

Lemma abs_eps_lookup s eid e :
  endpoints s !! eid = Some e -> a_eps (abs s) !! eid = Some (ep_owner e, ep_pending_messages e).
Proof. intros H. simpl. by rewrite lookup_fmap, H. Qed.

Lemma authorised_check s actor cs slot perms ty now cap :
  cap_spaces s !! actor = Some cs -> axiom_check cs slot perms ty now = Ok cap ->
  authorised (abs s) actor slot perms ty now cap.
Proof. intros Hcs H%axiom_check_Ok. by exists cs. Qed.

Lemma alive_exists s pid : process_exists s pid = true -> alive (abs s) pid.
Proof.
  unfold process_exists, alive. destruct (processes s !! pid) as [p|] eqn:Hp; [|done].
  intros H%negb_true_iff%bool_decide_eq_false. exists (abs_proc p). simpl.
  by rewrite lookup_fmap, Hp.
Qed.

Lemma alive_cspace s pid :
  inv_consistency s -> process_exists s pid = true -> exists cs, cap_spaces s !! pid = Some cs.
Proof.
  intros Hinv H. apply Hinv. unfold process_exists in H.
  destruct (processes s !! pid); [eauto|done].
Qed.

Lemma collect_transferred_Some cs cap_slots l :
  collect_transferred cs cap_slots = Some l ->
  exists caps, Forall2 (fun sl c => slots cs !! sl = Some c) cap_slots caps /\ l = transferred <$> caps.
Proof.
  revert l. induction cap_slots as [|sl rest IH]; simpl; intros l H.
  - simplify_eq. exists []. split; [constructor|done].
  - unfold cs_get in H. destruct (slots cs !! sl) as [c|] eqn:Hc; [|done].
    destruct (collect_transferred cs rest) as [l'|]; [|done]. simplify_eq.
    destruct (IH _ eq_refl) as (caps & Hf & ->).
    exists (c :: caps). split; [by constructor|done].
Qed.

(** Removing an empty slot changes nothing. *)
Lemma remove_cap_None s actor slot :
  (remove_cap actor slot s).1 = None -> (remove_cap actor slot s).2 = s.
Proof.
  unfold remove_cap, get_cap_space. destruct (cap_spaces s !! actor) as [cs|] eqn:Hcs; [|done].
  simpl. intros Hs. rewrite delete_id by done. unfold set_cap_spaces.
  rewrite insert_id by (rewrite Hcs; by destruct cs). by destruct s.
Qed.

Section handlers.
Context (s : KernelState) (actor : ProcessId) (now : Z) (Hinv : inv_consistency s).

(** Close a branch that returns an error and leaves the state as it was. *)
Ltac failing := by (cbn [negb]; intros; simplify_eq; apply A_fail).

Lemma send_refines slot tag data r s' :
  step_send s actor slot tag data now = (r, s') ->
  astep actor now (abs s) (Send slot tag data) (sr_result r) (abs s') /\
  ((exists e, sr_result r = SR_Err e /\ abs s' = abs s) \/
   (sr_result r = SR_Ok 0 /\
    astep actor now (abs s) (Call slot tag data) SR_WouldBlock (abs s'))).
Proof.
  unfold step_send, get_cap_space, get_endpoint.
  destruct (Z.ltb_spec MAX_MESSAGE_SIZE (len data)).
  { intros; simplify_eq; split; [apply A_fail|simpl; eauto]. }
  destruct (cap_spaces s !! actor) as [cs|] eqn:Hcs.
  2:{ intros; simplify_eq; split; [apply A_fail|simpl; eauto]. }
  destruct (axiom_check cs slot _ _ _) as [cap|e] eqn:Hck.
  2:{ intros; simplify_eq; split; [apply A_fail|simpl; eauto]. }
  destruct (endpoints s !! cap_object_id cap) as [e|] eqn:He.
  2:{ intros; simplify_eq; split; [apply A_fail|simpl; eauto]. }
  intros; simplify_eq. rewrite abs_set_total.
  set (s1 := set_endpoints _ s). rewrite (abs_metrics (count_sent _) actor s1) by done.
  unfold s1. rewrite abs_set_endpoint. simpl.
  pose proof (authorised_check _ _ _ _ _ _ _ _ Hcs Hck) as Hauth.
  apply abs_eps_lookup in He.
  split; [|right; split; [done|]]; eapply A_send; eauto.
Qed.

Lemma call_refines slot tag data r s' :
  step_call s actor slot tag data now = (r, s') ->
  astep actor now (abs s) (Call slot tag data) (sr_result r) (abs s').
Proof.
  unfold step_call. destruct (step_send s actor slot tag data now) as [sr s1] eqn:E.
  apply send_refines in E as [_ [(e & Hr & Habs)|[Hr Hstep]]]; rewrite Hr;
    intros [= <- <-]; cbn [sr_result]; [rewrite Habs; apply A_fail|done].
Qed.

Lemma send_with_caps_refines slot tag data cap_slots r s' :
  step_send_with_caps s actor slot tag data cap_slots now = (r, s') ->
  astep actor now (abs s) (SendWithCaps slot tag data cap_slots) (sr_result r) (abs s').
Proof.
  unfold step_send_with_caps, get_cap_space, get_endpoint.
  destruct (Z.ltb_spec MAX_MESSAGE_SIZE (len data)); [failing|].
  destruct (Z.ltb_spec MAX_CAPS_PER_MESSAGE (len cap_slots)); [failing|].
  destruct (cap_spaces s !! actor) as [cs|] eqn:Hcs; [|failing].
  destruct (axiom_check cs slot _ _ _) as [cap|e] eqn:Hck; [|failing].
  destruct (collect_transferred cs cap_slots) as [tcs|] eqn:Htc; [|failing].
  destruct (endpoints s !! cap_object_id cap) as [e|] eqn:He; [|failing].
  intros; simplify_eq. rewrite abs_set_total, abs_set_endpoint. simpl.
  apply collect_transferred_Some in Htc as (caps & Hf & ->).
  eapply A_send_with_caps; eauto using authorised_check, abs_eps_lookup.
Qed.

Lemma receive_refines slot r s' :
  step_receive s actor slot now = (r, s') ->
  astep actor now (abs s) (Receive slot) (sr_result r) (abs s').
Proof.
  unfold step_receive, get_cap_space, get_endpoint.
  destruct (cap_spaces s !! actor) as [cs|] eqn:Hcs; [|failing].
  destruct (axiom_check cs slot _ _ _) as [cap|e] eqn:Hck; [|failing].
  destruct (endpoints s !! cap_object_id cap) as [e|] eqn:He; [|failing].
  pose proof (authorised_check _ _ _ _ _ _ _ _ Hcs Hck) as Hauth.
  apply abs_eps_lookup in He. unfold dequeue.
  destruct (ep_pending_messages e) as [|m q] eqn:Hq; intros; simplify_eq; simpl.
  - rewrite abs_set_endpoint. simpl.
    replace (a_set_queue _ _ _ _) with (abs s); [by eapply A_receive_empty|].
    unfold a_set_queue. rewrite insert_id by done. by destruct (abs s).
  - set (s1 := set_endpoints _ s).
    rewrite (abs_metrics (count_received _) actor s1) by done. unfold s1.
    rewrite abs_set_endpoint. by eapply A_receive.
Qed.

Lemma create_endpoint_refines r s' :
  step_create_endpoint s actor now = (r, s') ->
  astep actor now (abs s) CreateEndpoint (sr_result r) (abs s').
Proof.
  unfold step_create_endpoint.
  destruct (process_exists s actor) eqn:Hex; [|failing].
  destruct (alive_cspace _ _ Hinv Hex) as [cs Hcs].
  unfold insert_cap_or_zero, get_cap_space. simpl. rewrite Hcs. simpl.
  intros [= <- <-]. cbn [sr_result].
  match goal with |- astep _ _ _ _ _ ?a => assert (a = a_new_endpoint actor cs (abs s)) as -> end.
  { unfold a_new_endpoint, abs. simpl. by rewrite fmap_insert. }
  by apply A_create; [apply alive_exists|].
Qed.

Lemma insert_cap_abs pid cs cap :
  cap_spaces s !! pid = Some cs ->
  insert_cap_or_zero pid cap (set_next_cap_id (u64_add (next_cap_id s) 1) s) =
  (next_slot cs,
   mk_KernelState (processes s) (<[pid := (cs_insert cap cs).2]> (cap_spaces s)) (endpoints s)
     (next_pid s) (next_endpoint_id s) (u64_add (next_cap_id s) 1) (total_ipc_count s)).
Proof. intros H. unfold insert_cap_or_zero, get_cap_space. simpl. by rewrite H. Qed.

Lemma grant_refines slot to_pid perms r s' :
  step_cap_grant s actor slot to_pid perms now = (r, s') ->
  astep actor now (abs s) (CapGrant slot to_pid perms) (sr_result r) (abs s').
Proof.
  unfold step_cap_grant, get_cap_space.
  destruct (cap_spaces s !! actor) as [cs|] eqn:Hcs; [|failing].
  destruct (axiom_check cs slot _ _ _) as [cap|e] eqn:Hck; [|failing].
  destruct (process_exists s to_pid) eqn:Hex; [|failing]. simpl.
  destruct (is_subset_of perms _) eqn:Hsub; [|failing]. simpl.
  destruct (alive_cspace _ _ Hinv Hex) as [cs2 Hcs2].
  rewrite (insert_cap_abs _ _ _ Hcs2). intros; simplify_eq. simpl.
  eapply (A_grant _ _ (abs s)); eauto using authorised_check, alive_exists.
Qed.

Lemma derive_refines slot perms r s' :
  step_cap_derive s actor slot perms now = (r, s') ->
  astep actor now (abs s) (CapDerive slot perms) (sr_result r) (abs s').
Proof.
  unfold step_cap_derive, get_cap_space, cs_get.
  destruct (cap_spaces s !! actor) as [cs|] eqn:Hcs; [|failing].
  destruct (slots cs !! slot) as [cap|] eqn:Hc; [|failing].
  destruct (is_subset_of perms _) eqn:Hsub; [|failing]. simpl.
  rewrite (insert_cap_abs _ _ _ Hcs). intros; simplify_eq. simpl.
  eapply (A_derive _ _ (abs s)); eauto.
Qed.

Lemma remove_cap_Some slot cap :
  (remove_cap actor slot s).1 = Some cap ->
  exists cs, cap_spaces s !! actor = Some cs /\ slots cs !! slot = Some cap /\
    abs (remove_cap actor slot s).2 = a_drop_cap actor cs slot (abs s).
Proof.
  unfold remove_cap, get_cap_space. destruct (cap_spaces s !! actor) as [cs|] eqn:Hcs; [|done].
  simpl. eauto.
Qed.

Lemma drop_refines sc slot (ct : CommitType) r s' :
  sc = CapRevoke slot \/ sc = CapDelete slot ->
  (let '(removed, s1) := remove_cap actor slot s in
   match removed with
   | Some _ => (mk_StepResult (SR_Ok 0) [Commit_new ct now], s1)
   | None => (fail InvalidCapability, s1)
   end) = (r, s') ->
  astep actor now (abs s) sc (sr_result r) (abs s').
Proof.
  intros Hsc. destruct (remove_cap actor slot s) as [[cap|] s1] eqn:E.
  - destruct (remove_cap_Some slot cap) as (cs & ? & ? & Habs); [by rewrite E|].
    rewrite E in Habs. simpl in Habs. intros; simplify_eq. rewrite Habs. by eapply A_drop.
  - pose proof (remove_cap_None s actor slot) as Hn. rewrite E in Hn. simpl in Hn.
    rewrite (Hn eq_refl). failing.
Qed.

Lemma kill_refines target r s' :
  step_kill s actor target now = (r, s') ->
  astep actor now (abs s) (Kill target) (sr_result r) (abs s').
Proof.
  unfold step_kill. destruct (contains_key (processes s) target) eqn:Hk; [|failing].
  apply contains_key_true in Hk as [p Hp]. simpl. unfold kill_process. rewrite Hp.
  intros; simplify_eq. rewrite abs_kill. apply A_kill. simpl. by rewrite lookup_fmap, Hp.
Qed.

Lemma list_processes_query :
  a_query actor now (abs s) ListProcesses = Some (sr_result (step_list_processes s)).
Proof.
  simpl. rewrite btree_iter_fmap, <- list_fmap_compose. do 2 f_equal.
Qed.

Lemma inspect_refines slot :
  astep actor now (abs s) (CapInspect slot) (sr_result (step_cap_inspect s actor slot)) (abs s).
Proof.
  unfold step_cap_inspect, get_cap_space, cs_get.
  destruct (cap_spaces s !! actor) as [cs|] eqn:Hcs; [|apply A_fail].
  destruct (slots cs !! slot) as [cap|] eqn:Hc; [|apply A_fail].
  apply A_query. simpl. by rewrite Hcs; simpl; rewrite Hc.
Qed.
End handlers.

Lemma inv_consistency_metrics s pid now :
  inv_consistency s -> inv_consistency (update_syscall_metrics pid now s).
Proof. intros H p. simpl. by rewrite is_Some_btree_update. Qed.

Lemma step_refines_astep s actor sc now r s' :
  inv_consistency s -> step s actor sc now = (r, s') ->
  astep actor now (abs s) sc (sr_result r) (abs s').
Proof.
  intros Hinv. unfold step.
  rewrite <- (abs_metrics (count_syscall now) actor s) by done.
  fold (update_syscall_metrics actor now s).
  apply (inv_consistency_metrics _ actor now) in Hinv.
  set (s1 := update_syscall_metrics actor now s) in *.
  destruct sc; try (intros; simplify_eq; by apply A_query);
    eauto using kill_refines, create_endpoint_refines, receive_refines,
      send_with_caps_refines, call_refines, grant_refines, derive_refines.
  - unfold step_exit. intros; simplify_eq. rewrite abs_kill. apply A_exit.
  - intros; simplify_eq. apply A_query, list_processes_query.
  - intros H. by apply send_refines in H as [? _].
  - intros H. eapply drop_refines; [exact Hinv|by left|exact H].
  - intros H. eapply drop_refines; [exact Hinv|by right|exact H].
  - intros; simplify_eq. by apply inspect_refines.
Qed.

(** ** Completeness: what the abstract machine allows, the kernel does *)
Lemma authorised_unique a actor slot perms ty now c1 c2 :
  authorised a actor slot perms ty now c1 -> authorised a actor slot perms ty now c2 -> c1 = c2.
Proof. intros (cs1 & H1 & H2 & _) (cs2 & H3 & H4 & _). congruence. Qed.

Lemma Forall2_lookup_unique (m : gmap CapSlot Capability) sl l1 l2 :
  Forall2 (fun s c => m !! s = Some c) sl l1 -> Forall2 (fun s c => m !! s = Some c) sl l2 ->
  l1 = l2.
Proof.
  intros H. revert l2. induction H; inversion 1; simplify_eq; [done|]. f_equal; eauto.
Qed.

(** Apart from refusals, the abstract machine is deterministic. *)
Lemma astep_deterministic actor now a sc r1 r2 a1 a2 :
  astep actor now a sc r1 a1 -> astep actor now a sc r2 a2 ->
  is_error r1 = false -> is_error r2 = false -> r1 = r2 /\ a1 = a2.
Proof.
  intros H1 H2 E1 E2. destruct H1; try done; inversion H2; simplify_eq/=; try done;
    repeat match goal with
    | H : _ \/ _ |- _ => destruct H; destruct_and?; simplify_eq/=
    | H1 : authorised ?a ?p ?s ?q ?t ?n ?c1, H2 : authorised ?a ?p ?s ?q ?t ?n ?c2 |- _ =>
        pose proof (authorised_unique _ _ _ _ _ _ _ _ H1 H2); clear H2; simplify_eq/=
    end; try done.
  match goal with
  | H1 : Forall2 _ ?l ?c1, H2 : Forall2 _ ?l ?c2 |- _ =>
      by rewrite (Forall2_lookup_unique _ _ _ _ H1 H2)
  end.
Qed.

Lemma authorised_spec s actor slot perms ty now cap :
  authorised (abs s) actor slot perms ty now cap ->
  exists cs, cap_spaces s !! actor = Some cs /\ axiom_check cs slot perms ty now = Ok cap.
Proof. intros (cs & Hcs & H). exists cs. by rewrite axiom_check_Ok. Qed.

Lemma alive_spec s pid : alive (abs s) pid -> process_exists s pid = true.
Proof.
  intros (p & Hp & Hz). simpl in Hp. rewrite lookup_fmap in Hp.
  unfold process_exists. destruct (processes s !! pid); simplify_eq/=.
  apply negb_true_iff. by apply bool_decide_eq_false.
Qed.

Lemma collect_transferred_complete cs sl caps :
  Forall2 (fun s c => slots cs !! s = Some c) sl caps ->
  collect_transferred cs sl = Some (transferred <$> caps).
Proof. induction 1 as [|? ? ? ? H ? IH]; simpl; [done|]. unfold cs_get. by rewrite H, IH. Qed.

Lemma abs_eps_inv s eid o q :
  a_eps (abs s) !! eid = Some (o, q) ->
  exists e, endpoints s !! eid = Some e /\ ep_pending_messages e = q.
Proof.
  simpl. rewrite lookup_fmap. destruct (endpoints s !! eid) as [e|]; [|done].
  intros [= _ <-]. by exists e.
Qed.

(** Rewrite a handler's guards with what the abstract rule guarantees. *)
Ltac enabled :=
  repeat match goal with
  | H : authorised _ _ _ _ _ _ _ |- _ => apply authorised_spec in H as (? & ? & ?)
  | H : alive _ _ |- _ => apply alive_spec in H
  | H : a_eps (abs _) !! _ = Some _ |- _ => apply abs_eps_inv in H as (? & ? & ?)
  | H : Forall2 _ _ _ |- _ => apply collect_transferred_complete in H
  | H : len _ <= _ |- _ => apply Z.ltb_ge in H
  | H : _ \/ _ |- _ => destruct H; destruct_and?; simplify_eq/=
  end; simplify_eq/=.

(** The kernel never refuses a syscall that a rule of the abstract machine
    allows. *)
Lemma step_enabled s actor now sc r a' :
  astep actor now (abs s) sc r a' -> is_error r = false ->
  is_error (sr_result (step s actor sc now).1) = false.
Proof.
  rewrite <- (abs_metrics (count_syscall now) actor s) by done.
  fold (update_syscall_metrics actor now s). unfold step.
  generalize (update_syscall_metrics actor now s) as s1. clear s. intros s.
  intros H He. destruct H as [sc e|sc r Hq|code|tgt Ht|cs Ha Hcs
    |sc r slot tag data cap o q Hsc Hl Hau Hep
    |slot tag data csl cs caps cap o q Hl Hc Hau Hcs Hf Hep|slot cap o m q Hau Hep
    |slot cap o Hau Hep|slot tp perms cap cs Hau Ha Hs Hcs|slot perms cap cs Hcs Hc Hs
    |sc slot cap cs Hsc Hcs Hc]; try done.
  - destruct sc; try done. simpl in Hq. unfold step_cap_inspect, get_cap_space, cs_get. simpl.
    destruct (cap_spaces s !! actor) as [cs|]; [|done]. simpl in Hq.
    by destruct (slots cs !! slot).
  - simpl in Ht. rewrite lookup_fmap, fmap_is_Some in Ht. unfold step_kill.
    rewrite (proj2 (contains_key_true _ _) Ht). simpl. by destruct (kill_process tgt s).
  - apply alive_spec in Ha. unfold step_create_endpoint. rewrite Ha. simpl.
    by destruct (insert_cap_or_zero _ _ _).
  - enabled; unfold step_call, step_send, get_cap_space, get_endpoint; cbn [cap_spaces] in *;
      repeat match goal with H : _ = _ |- _ => rewrite H; clear H end; done.
  - enabled. unfold step_send_with_caps, get_cap_space, get_endpoint.
    repeat match goal with H : _ = _ |- _ => rewrite H; clear H end; done.
  - enabled. unfold step_receive, get_cap_space, get_endpoint, dequeue.
    repeat match goal with H : _ = _ |- _ => rewrite H; clear H end; done.
  - enabled. unfold step_receive, get_cap_space, get_endpoint, dequeue.
    repeat match goal with H : _ = _ |- _ => rewrite H; clear H end; done.
  - enabled. unfold step_cap_grant, get_cap_space.
    repeat match goal with H : _ = _ |- _ => rewrite H; clear H end; simpl.
    by destruct (insert_cap_or_zero _ _ _).
  - unfold step_cap_derive, get_cap_space, cs_get. simpl in Hcs. simpl. rewrite Hcs, Hc, Hs. simpl.
    by destruct (insert_cap_or_zero _ _ _).
  - destruct Hsc as [->| ->]; unfold step_cap_revoke, step_cap_delete, remove_cap, get_cap_space;
      simpl in *; by rewrite Hcs; simpl; rewrite Hc.
Qed.

(** ** What the documented machine has and has not *)
Lemma expired_slot_spec s actor now slot cs cap :
  cap_spaces s !! actor = Some cs -> slots cs !! slot = Some cap ->
  (expired_slot s actor now slot = false <->
   exists cap, authorised (abs s) actor slot no_permissions None now cap).
Proof.
  intros Hcs Hc. unfold expired_slot. rewrite Hcs. split.
  - destruct (axiom_check cs slot no_permissions None now) as [c|e] eqn:E.
    + intros _. exists c. by eapply authorised_check.
    + unfold axiom_check, cs_get in E. rewrite Hc in E. simpl in E.
      unfold has_permissions in E. simpl in E. destruct (is_expired cap now); by simplify_eq.
  - intros [c Ha]. apply authorised_spec in Ha as (cs' & Hcs' & Ha). simplify_eq. by rewrite Ha.
Qed.

Lemma authorised_weaken a actor slot perms ty now cap :
  authorised a actor slot perms ty now cap ->
  exists cap, authorised a actor slot no_permissions None now cap.
Proof. intros (cs & ? & ? & _ & _ & ?). by exists cap, cs. Qed.

Lemma named_iff s actor now slot cs cap P :
  cap_spaces s !! actor = Some cs -> slots cs !! slot = Some cap -> P ->
  (P /\ Forall (fun slot => exists cap, authorised (abs s) actor slot no_permissions None now cap) [slot] <->
   expired_slot s actor now slot = false).
Proof.
  intros Hcs Hc HP. rewrite (expired_slot_spec s actor now slot cs cap), Forall_singleton by done.
  naive_solver.
Qed.

Lemma transferred_iff s actor now cs sl caps :
  cap_spaces s !! actor = Some cs -> Forall2 (fun sl c => slots cs !! sl = Some c) sl caps ->
  (Forall (fun slot => exists cap, authorised (abs s) actor slot no_permissions None now cap) sl <->
   existsb (expired_slot s actor now) sl = false).
Proof.
  intros Hcs. induction 1 as [|slot cap sl caps Hc Hf IH]; [by split|]. simpl.
  rewrite Forall_cons, orb_false_iff, IH, <- (expired_slot_spec s actor now slot cs cap) by done. done.
Qed.

(** A success of the code is one of the documented machine exactly when it
    does not bypass the check. *)
Lemma documented_iff s actor now sc r a' :
  astep actor now (abs s) sc r a' -> is_error r = false ->
  (through_axiom_check actor now (abs s) sc <-> bypasses s actor now sc = false).
Proof.
  intros H He. unfold through_axiom_check.
  destruct H as [sc e|sc r Hq|code|tgt Ht|cs Ha Hcs
    |sc r slot tag data cap o q Hsc Hl Hau Hep
    |slot tag data csl cs caps cap o q Hl Hc Hau Hcs Hf Hep|slot cap o m q Hau Hep
    |slot cap o Hau Hep|slot tp perms cap cs Hau Ha Hs Hcs|slot perms cap cs Hcs Hc Hs
    |sc slot cap cs Hsc Hcs Hc]; try apply authorised_weaken in Hau; simpl in *; try done;
    try (split; [done|]; intros _; split; [done|]; by repeat constructor).
  - destruct sc; simpl in *; try done; try (split; [done|]; intros _; by split; [|constructor]).
    destruct (cap_spaces s !! actor) as [cs|] eqn:Hcs; [|done]. simpl in Hq.
    destruct (slots cs !! slot) as [cap|] eqn:Hc; [|done]. by eapply named_iff.
  - split; [|done]. intros [Hk _]. by destruct (Hk tgt).
  - destruct Hsc as [[-> _]|[-> _]]; simpl; (split; [done|]; intros _; split; [done|]; by constructor).
  - rewrite Forall_cons, <- (transferred_iff s actor now cs csl caps) by done. naive_solver.
  - by eapply named_iff.
  - destruct Hsc as [-> | ->]; simpl; by eapply named_iff.
Qed.
