(* ===== verification/CoreWf.v ===== *)
(** * Well-formedness of the abstract kernel and its preservation

    [awf] collects the structural invariants; [room] says that no identifier
    counter is about to wrap; [bounded n] bounds the counters after [n] events.
    Every rule of the abstract machine preserves [awf] while there is room. *)
From S2P Require Import Prelude CoreTypes CoreStep.
From S2P Require Import CoreSpec.

Definition a_holds (a : AState) (pid : ProcessId) (slot : CapSlot) (c : Capability) : Prop :=
  exists cs, a_cspaces a !! pid = Some cs /\ slots cs !! slot = Some c.

(** The object a capability names exists. *)
Definition object_valid (a : AState) (c : Capability) : Prop :=
  match cap_object_type c with
  | OT_Endpoint => is_Some (a_eps a !! cap_object_id c)
  | OT_Process => is_Some (a_procs a !! cap_object_id c)
  | _ => True
  end.

Record awf (a : AState) : Prop := mk_awf {
  awf_consistency : forall pid, is_Some (a_procs a !! pid) <-> is_Some (a_cspaces a !! pid);
  awf_owner : forall eid o q, a_eps a !! eid = Some (o, q) -> is_Some (a_procs a !! o);
  awf_objects : forall pid slot c, a_holds a pid slot c -> object_valid a c;
  awf_pids : forall pid, is_Some (a_procs a !! pid) -> pid < a_next_pid a;
  awf_eids : forall eid, is_Some (a_eps a !! eid) -> eid < a_next_eid a;
  awf_caps : forall pid slot c, a_holds a pid slot c -> cap_id c < a_next_cap a;
  awf_slots : forall pid cs, a_cspaces a !! pid = Some cs -> cs_wf cs;
  awf_counters : 0 <= a_next_pid a /\ 0 <= a_next_eid a /\ 0 <= a_next_cap a }.

(** No counter is at its maximum. *)
Record room (a : AState) : Prop := mk_room {
  room_pid : a_next_pid a < 2 ^ 64 - 1;
  room_eid : a_next_eid a < 2 ^ 64 - 1;
  room_cap : a_next_cap a < 2 ^ 64 - 1;
  room_slot : forall pid cs, a_cspaces a !! pid = Some cs -> next_slot cs < 2 ^ 32 - 1 }.

Record bounded (n : Z) (a : AState) : Prop := mk_bounded {
  bounded_pid : a_next_pid a <= n + 1;
  bounded_eid : a_next_eid a <= n + 1;
  bounded_cap : a_next_cap a <= n + 1;
  bounded_slot : forall pid cs, a_cspaces a !! pid = Some cs -> next_slot cs <= n }.

Lemma bounded_room n a : n < 2 ^ 32 - 1 -> bounded n a -> room a.
Proof.
  intros Hn [H1 H2 H3 H4]. split; try lia. intros pid cs Hcs. specialize (H4 _ _ Hcs). lia.
Qed.

Lemma bounded_mono n m a : n <= m -> bounded n a -> bounded m a.
Proof.
  intros Hn [H1 H2 H3 H4]. split; try lia. intros pid cs Hcs. specialize (H4 _ _ Hcs). lia.
Qed.

(** ** Effect of each abstract operation on capabilities *)
Lemma a_holds_insert a pid cs cap pid' slot c :
  a_cspaces a !! pid = Some cs ->
  a_holds (a_insert_cap pid cs cap a) pid' slot c ->
  (pid' = pid /\ slot = next_slot cs /\ c = cap) \/ a_holds a pid' slot c.
Proof.
  intros Hcs (cs' & H1 & H2). simpl in H1.
  apply lookup_insert_Some in H1 as [[<- <-]|[Hne H1]]; [|right; by exists cs'].
  simpl in H2. apply lookup_insert_Some in H2 as [[<- <-]|[Hne H2]]; [by left|].
  right. by exists cs.
Qed.

Lemma a_holds_insert_old a pid cs cap pid' slot c :
  awf a -> room a -> a_cspaces a !! pid = Some cs ->
  a_holds a pid' slot c -> a_holds (a_insert_cap pid cs cap a) pid' slot c.
Proof.
  intros Hwf Hroom Hcs (cs' & H1 & H2). destruct (decide (pid' = pid)) as [->|Hne].
  - simplify_eq. exists (cs_insert cap cs).2. simpl. rewrite lookup_insert_eq. split; [done|].
    destruct (cs_insert_wf cs cap _ _ (awf_slots _ Hwf _ _ Hcs) (room_slot _ Hroom _ _ Hcs) eq_refl)
      as (_ & Hfree & _).
    rewrite lookup_insert_ne; [done|]. intros <-. by rewrite Hfree in H2.
  - exists cs'. simpl. by rewrite lookup_insert_ne.
Qed.

Lemma a_holds_drop a pid cs slot0 pid' slot c :
  a_cspaces a !! pid = Some cs ->
  a_holds (a_drop_cap pid cs slot0 a) pid' slot c -> a_holds a pid' slot c.
Proof.
  intros Hcs (cs' & H1 & H2). simpl in H1.
  apply lookup_insert_Some in H1 as [[<- <-]|[Hne H1]]; [|by exists cs'].
  simpl in H2. apply lookup_delete_Some in H2 as [_ H2]. by exists cs.
Qed.

(** A freshly created endpoint comes with one new capability. *)
Lemma a_holds_new_endpoint a owner cs pid slot c :
  a_cspaces a !! owner = Some cs ->
  a_holds (a_new_endpoint owner cs a) pid slot c ->
  (pid = owner /\ c = mk_Capability (a_next_cap a) OT_Endpoint (a_next_eid a) full 0 0) \/
  a_holds a pid slot c.
Proof.
  intros Hcs H. eapply (a_holds_insert a) in H; [|exact Hcs]. naive_solver.
Qed.

(** ** Preservation, operation by operation *)
Lemma alter_is_Some {V} (f : V -> V) (m : gmap Z V) k k' :
  is_Some (alter f k m !! k') <-> is_Some (m !! k').
Proof. apply lookup_alter_is_Some. Qed.

Lemma a_kill_awf target a : awf a -> awf (a_kill target a).
Proof.
  intros [H1 H2 H3 H4 H5 H6 H7 H8]. split; simpl; try done.
  - intros pid. by rewrite alter_is_Some.
  - intros eid o q H. rewrite alter_is_Some. eauto.
  - intros pid slot c Hc. specialize (H3 pid slot c Hc). unfold object_valid in *. simpl.
    destruct (cap_object_type c); try done. by rewrite alter_is_Some.
  - intros pid. rewrite alter_is_Some. eauto.
Qed.

Lemma a_set_queue_awf eid o q q' a :
  a_eps a !! eid = Some (o, q) -> awf a -> awf (a_set_queue eid o q' a).
Proof.
  intros He [H1 H2 H3 H4 H5 H6 H7 H8]. split; simpl; try done.
  - intros eid' o' q''. rewrite lookup_insert_Some. naive_solver.
  - intros pid slot c Hc. specialize (H3 pid slot c Hc). unfold object_valid in *. simpl.
    destruct (cap_object_type c); try done. rewrite lookup_insert_is_Some_or. by right.
  - intros eid'. rewrite lookup_insert_is_Some_or. intros [->|?]; eauto.
Qed.

Lemma a_insert_cap_awf pid cs cap a :
  awf a -> room a -> a_cspaces a !! pid = Some cs ->
  cap_id cap = a_next_cap a -> object_valid a cap ->
  awf (a_insert_cap pid cs cap a).
Proof.
  intros Hwf Hroom Hcs Hid Hval. pose proof Hwf as [H1 H2 H3 H4 H5 H6 H7 H8].
  split; simpl; try done.
  - intros pid'. rewrite lookup_insert_is_Some_or, H1. naive_solver.
  - intros pid' slot c [(-> & -> & ->)|H]%a_holds_insert; try done; by apply (H3 pid' slot).
  - rewrite u64_add_small by (pose proof (room_cap _ Hroom); lia).
    intros pid' slot c [(-> & -> & ->)|H]%a_holds_insert; try done; [lia|].
    specialize (H6 _ _ _ H). lia.
  - intros pid' cs'. rewrite lookup_insert_Some. intros [[-> <-]|[_ H]]; [|eauto].
    by eapply (cs_insert_wf cs cap); [eauto|eapply (room_slot _ Hroom); eauto|].
  - split_and!; try tauto. apply wrap_u64_range.
Qed.

Lemma a_drop_cap_awf pid cs slot a :
  awf a -> a_cspaces a !! pid = Some cs -> awf (a_drop_cap pid cs slot a).
Proof.
  intros Hwf Hcs. pose proof Hwf as [H1 H2 H3 H4 H5 H6 H7 H8].
  split; simpl; try done.
  - intros pid'. rewrite lookup_insert_is_Some_or, H1. naive_solver.
  - intros pid' slot' c H%a_holds_drop; [|done]. by apply (H3 pid' slot').
  - intros pid' slot' c H%a_holds_drop; [|done]. eauto.
  - intros pid' cs'. rewrite lookup_insert_Some. intros [[-> <-]|[_ H]]; [|eauto].
    apply cs_remove_wf. eauto.
Qed.

Lemma a_new_endpoint_awf owner cs a :
  awf a -> room a -> a_cspaces a !! owner = Some cs -> awf (a_new_endpoint owner cs a).
Proof.
  intros Hwf Hroom Hcs. pose proof Hwf as [H1 H2 H3 H4 H5 H6 H7 H8].
  pose proof Hroom as [R1 R2 R3 R4]. split; simpl; try done.
  - intros pid'. rewrite lookup_insert_is_Some_or, H1. naive_solver.
  - intros eid o q. rewrite lookup_insert_Some. intros [[<- ?]|[_ H]]; [|eauto].
    simplify_eq. apply H1. eauto.
  - intros pid slot c [[-> ->]|H]%a_holds_new_endpoint; try done; unfold object_valid; simpl.
    + apply lookup_insert_is_Some_or. by left.
    + specialize (H3 _ _ _ H). unfold object_valid in H3.
      destruct (cap_object_type c); try done. apply lookup_insert_is_Some_or. by right.
  - rewrite u64_add_small by lia. intros eid. rewrite lookup_insert_is_Some_or.
    intros [->|H]; [lia|]. specialize (H5 _ H). lia.
  - rewrite u64_add_small by lia.
    intros pid slot c [[-> ->]|H]%a_holds_new_endpoint; try done; simpl; [lia|].
    specialize (H6 _ _ _ H). lia.
  - intros pid' cs'. rewrite lookup_insert_Some. intros [[-> <-]|[_ H]]; [|eauto].
    by eapply (cs_insert_wf cs); [eauto|eauto|].
  - split_and!; try tauto; apply wrap_u64_range.
Qed.

#[export] Hint Resolve a_kill_awf a_set_queue_awf a_insert_cap_awf a_drop_cap_awf
  a_new_endpoint_awf : zos.

Lemma attenuated_valid a id perms cap :
  object_valid a cap -> object_valid a (attenuated id perms cap).
Proof. done. Qed.

(** Every abstract transition preserves well-formedness. *)
Lemma astep_awf actor now a sc r a' :
  awf a -> room a -> astep actor now a sc r a' -> awf a'.
Proof.
  intros Hwf Hroom Hstep. destruct Hstep; eauto with zos.
  - destruct H as (cs' & Hcs' & Hc & _).
    apply a_insert_cap_awf; try done. apply attenuated_valid.
    apply (awf_objects _ Hwf actor slot). by exists cs'.
  - apply a_insert_cap_awf; try done. apply attenuated_valid.
    apply (awf_objects _ Hwf actor slot). by exists cs.
Qed.

(** Each transition advances every counter by at most one. *)
Lemma insert_bounded n (m : gmap Z CapabilitySpace) pid cs cap :
  m !! pid = Some cs -> 0 <= next_slot cs -> n < 2 ^ 32 - 1 ->
  (forall p c, m !! p = Some c -> next_slot c <= n) ->
  forall p c, <[pid := (cs_insert cap cs).2]> m !! p = Some c -> next_slot c <= n + 1.
Proof.
  intros Hcs H0 Hn Hb p c. rewrite lookup_insert_Some. pose proof (Hb _ _ Hcs).
  intros [[-> <-]|[_ H']]; [simpl; rewrite u32_add_small by lia; lia|].
  specialize (Hb _ _ H'). lia.
Qed.

Lemma astep_bounded n actor now a sc r a' :
  awf a -> n < 2 ^ 32 - 1 -> bounded n a -> astep actor now a sc r a' -> bounded (n + 1) a'.
Proof.
  intros Hwf Hn Hb Hstep. pose proof Hwf as [_ _ _ _ _ _ Hsl Hc0].
  assert (bounded (n + 1) a) as Hb' by (eapply bounded_mono; [|done]; lia).
  destruct Hb as [B1 B2 B3 B4], Hb' as [B1' B2' B3' B4'].
  destruct Hstep; try (split; simpl; done); split; simpl; try lia;
    try (rewrite u64_add_small by lia; lia);
    try (eapply insert_bounded; eauto; eapply proj1, Hsl; eauto).
  intros p c. rewrite lookup_insert_Some. intros [[-> <-]|[_ ?]]; simpl; eauto.
Qed.
