(* ===== verification/CoreRun.v ===== *)
(** * Runs of the kernel core

    A run is a sequence of events: process registrations (made by the
    supervisor) and syscalls. This file lifts the per-transition facts of
    [CoreWf] to runs: reachable states are well formed, delivery is first-in
    first-out, authority over existing objects never grows. *)
From S2P Require Import Prelude CoreTypes CoreStep.
From S2P Require Import CoreSpec CoreWf.

Inductive kevent : Type :=
| E_register (name : string) (now : Z)
| E_syscall (actor : ProcessId) (sc : Syscall) (now : Z).

Definition exec (s : KernelState) (ev : kevent) : KernelState :=
  match ev with
  | E_register name now => (register_process name now s).2
  | E_syscall actor sc now => (step s actor sc now).2
  end.

Definition run (s : KernelState) (evs : list kevent) : KernelState := foldl exec s evs.

(** The abstract event relation: an abstract transition or a registration. *)
Definition a_register (name : string) (a : AState) : AState :=
  mk_AState (<[a_next_pid a := (name, Running)]> (a_procs a))
    (<[a_next_pid a := CapabilitySpace_new]> (a_cspaces a)) (a_eps a)
    (u64_add (a_next_pid a) 1) (a_next_eid a) (a_next_cap a).

Inductive aevent (a : AState) : kevent -> AState -> Prop :=
| AE_register name now : aevent a (E_register name now) (a_register name a)
| AE_syscall actor sc now r a' :
    astep actor now a sc r a' -> aevent a (E_syscall actor sc now) a'.

Inductive aruns : AState -> list kevent -> AState -> Prop :=
| aruns_nil a : aruns a [] a
| aruns_cons a ev a1 evs a2 : aevent a ev a1 -> aruns a1 evs a2 -> aruns a (ev :: evs) a2.

Lemma abs_register name now s :
  abs (register_process name now s).2 = a_register name (abs s).
Proof. unfold abs, a_register, register_process. simpl. by rewrite fmap_insert. Qed.

Lemma awf_consistent s : awf (abs s) -> inv_consistency s.
Proof.
  intros [H _ _ _ _ _ _ _] pid. specialize (H pid). simpl in H.
  by rewrite lookup_fmap, fmap_is_Some in H.
Qed.

Lemma exec_refines s ev :
  inv_consistency s -> aevent (abs s) ev (abs (exec s ev)).
Proof.
  intros Hinv. destruct ev as [name now|actor sc now].
  - cbn [exec]. rewrite abs_register. constructor.
  - cbn [exec]. destruct (step s actor sc now) as [r s'] eqn:E.
    econstructor. by eapply step_refines_astep.
Qed.

(** ** Well-formedness along runs *)
Lemma a_register_awf name a : awf a -> room a -> awf (a_register name a).
Proof.
  intros Hwf Hroom. pose proof Hwf as [H1 H2 H3 H4 H5 H6 H7 H8].
  pose proof (room_pid _ Hroom).
  assert (a_procs a !! a_next_pid a = None) as Hfresh.
  { apply eq_None_not_Some. intros H9%H4. lia. }
  assert (forall pid slot c, a_holds (a_register name a) pid slot c -> a_holds a pid slot c) as Hh.
  { intros pid slot c (cs & Hcs & Hc). simpl in Hcs.
    apply lookup_insert_Some in Hcs as [[<- <-]|[_ Hcs]]; [simpl in Hc; by rewrite lookup_empty in Hc|].
    by exists cs. }
  split; simpl; try done.
  - intros pid. by rewrite !lookup_insert_is_Some_or, H1.
  - intros eid o q H9%H2. rewrite lookup_insert_is_Some_or. by right.
  - intros pid slot c H9%Hh%H3. unfold object_valid in *. simpl.
    destruct (cap_object_type c); try done. rewrite lookup_insert_is_Some_or. by right.
  - rewrite u64_add_small by lia. intros pid. rewrite lookup_insert_is_Some_or.
    intros [->|H9%H4]; lia.
  - intros pid slot c H9%Hh. eauto.
  - intros pid cs. rewrite lookup_insert_Some. intros [[_ <-]|[_ H9]]; eauto with zos.
  - split_and!; try tauto; apply wrap_u64_range.
Qed.

Lemma aevent_awf a ev a' : awf a -> room a -> aevent a ev a' -> awf a'.
Proof. intros Hwf Hroom []; [by apply a_register_awf|by eapply astep_awf]. Qed.

Lemma aevent_bounded n a ev a' :
  awf a -> n < 2 ^ 32 - 1 -> bounded n a -> aevent a ev a' -> bounded (n + 1) a'.
Proof.
  intros Hwf Hn Hb []; [|by eapply astep_bounded].
  pose proof (awf_counters _ Hwf).
  destruct Hb as [B1 B2 B3 B4]. split; simpl; try lia.
  - rewrite u64_add_small by lia. lia.
  - intros pid cs. rewrite lookup_insert_Some. intros [[_ <-]|[_ H']]; simpl; [lia|].
    specialize (B4 _ _ H'). lia.
Qed.

Lemma aruns_awf a evs a' n :
  awf a -> bounded n a -> n + len evs <= 2 ^ 32 - 1 -> aruns a evs a' ->
  awf a' /\ bounded (n + len evs) a'.
Proof.
  intros Hwf Hb Hn Hr. revert n Hb Hn.
  induction Hr as [a|a ev a1 evs a2 He Hr IH]; intros n Hb Hn; unfold len in *; simpl in *.
  - by rewrite Z.add_0_r.
  - assert (n < 2 ^ 32 - 1) as Hlt by lia.
    replace (n + Z.of_nat (S (length evs))) with (n + 1 + Z.of_nat (length evs)) by lia.
    apply IH; [|by eapply aevent_bounded|lia].
    eapply aevent_awf; [done|by eapply bounded_room|done].
Qed.

Lemma lookup_empty_is_Some {V : Type} (k : Z) : ~ is_Some ((∅ : gmap Z V) !! k).
Proof. rewrite lookup_empty. by intros [? ?]. Qed.

Lemma awf_new : awf (abs KernelState_new).
Proof.
  assert (forall pid slot c, ~ a_holds (abs KernelState_new) pid slot c) as Hno.
  { intros pid slot c (cs & Hcs & _). simpl in Hcs. by rewrite lookup_empty in Hcs. }
  split; simpl; rewrite ?fmap_empty; try done.
  all: try (intros *; by rewrite ?lookup_empty).
  all: try (intros ? ?; by edestruct lookup_empty_is_Some).
  all: intros pid slot c Hc; by edestruct Hno.
Qed.

Lemma bounded_new : bounded 0 (abs KernelState_new).
Proof. split; simpl; try lia. intros pid cs. by rewrite lookup_empty. Qed.

Lemma run_snoc s evs ev : run s (evs ++ [ev]) = exec (run s evs) ev.
Proof. unfold run. by rewrite foldl_app. Qed.

(** A run of the kernel from a well-formed state is a run of the abstract
    machine, as long as no counter can have wrapped. *)
Lemma run_aruns s evs n :
  awf (abs s) -> bounded n (abs s) -> n + len evs <= 2 ^ 32 - 1 ->
  aruns (abs s) evs (abs (run s evs)).
Proof.
  revert s n. induction evs as [|ev evs IH]; intros s n Hwf Hb Hn; [constructor|].
  unfold len in Hn. simpl in Hn.
  pose proof (exec_refines s ev (awf_consistent _ Hwf)) as He.
  econstructor; [exact He|]. change (run s (ev :: evs)) with (run (exec s ev) evs).
  apply (IH _ (n + 1)).
  - eapply aevent_awf; [done| |done]. eapply bounded_room; [|done]. lia.
  - eapply aevent_bounded; try done. lia.
  - unfold len. lia.
Qed.

Lemma reachable_awf evs :
  len evs <= 2 ^ 32 - 1 ->
  awf (abs (run KernelState_new evs)) /\ bounded (len evs) (abs (run KernelState_new evs)).
Proof.
  intros Hn. eapply (aruns_awf _ _ _ 0); eauto using awf_new, bounded_new, run_aruns.
Qed.

Lemma awf_inv s :
  awf (abs s) -> inv_consistency s /\ inv_owner_exists s /\ inv_objects s /\ inv_ids s.
Proof.
  intros Hwf. pose proof (awf_consistent _ Hwf) as Hc.
  destruct Hwf as [_ H2 H3 H4 H5 H6 _ _]. simpl in *.
  setoid_rewrite lookup_fmap in H2. setoid_rewrite lookup_fmap in H4.
  setoid_rewrite lookup_fmap in H5. setoid_rewrite fmap_is_Some in H2.
  setoid_rewrite fmap_is_Some in H4. setoid_rewrite fmap_is_Some in H5.
  split_and!; try done.
  - intros eid e He. apply (H2 eid (ep_owner e) (ep_pending_messages e)). by rewrite He.
  - intros pid slot c Hh. specialize (H3 pid slot c Hh). unfold object_valid in H3. simpl in H3.
    destruct (cap_object_type c); try done; by rewrite lookup_fmap, fmap_is_Some in H3.
Qed.

(** ** Processes stop only through [Exit] and [Kill] *)
Definition is_stop (ev : kevent) : bool :=
  match ev with
  | E_syscall _ (Exit _) _ | E_syscall _ (Kill _) _ => true
  | _ => false
  end.

Definition no_zombie (a : AState) : Prop :=
  forall pid p, a_procs a !! pid = Some p -> p.2 <> Zombie.

Lemma aevent_no_zombie a ev a' :
  is_stop ev = false -> aevent a ev a' -> no_zombie a -> no_zombie a'.
Proof.
  intros Hs He Hz. destruct He as [name now|actor sc now r a' Hstep].
  - intros pid p. simpl. rewrite lookup_insert_Some. intros [[_ <-]|[_ H]]; eauto.
  - by destruct Hstep.
Qed.

Lemma aruns_no_zombie a evs a' :
  Forall (fun ev => is_stop ev = false) evs -> aruns a evs a' -> no_zombie a -> no_zombie a'.
Proof.
  intros Hs Hr. induction Hr; [done|]. apply Forall_cons in Hs as [? ?].
  eauto using aevent_no_zombie.
Qed.

(** ** Delivery *)

(** What a receiver observes of a message besides capability records. *)
Definition payload (m : Message) : ProcessId * Z * list byte :=
  (msg_sender m, msg_tag m, msg_data m).

Definition queue (s : KernelState) (eid : EndpointId) : list Message :=
  match endpoints s !! eid with Some e => ep_pending_messages e | None => [] end.

Definition a_queue (a : AState) (eid : EndpointId) : list Message :=
  match a_eps a !! eid with Some oq => oq.2 | None => [] end.

(** The endpoint named by a slot. *)
Definition target (m : gmap ProcessId CapabilitySpace) (actor : ProcessId) (slot : CapSlot)
  : option EndpointId :=
  match m !! actor with
  | Some cs => cap_object_id <$> slots cs !! slot
  | None => None
  end.

(** Payloads a syscall with result [r] puts into, and takes out of, the queue
    of [eid]. *)
Definition sent_payload (m : gmap ProcessId CapabilitySpace) (actor : ProcessId) (sc : Syscall)
    (r : SyscallResult) (eid : EndpointId) : list (ProcessId * Z * list byte) :=
  match sc, r with
  | Send slot tag data, SR_Ok _ | SendWithCaps slot tag data _, SR_Ok _
  | Call slot tag data, SR_WouldBlock =>
      if bool_decide (target m actor slot = Some eid) then [(actor, tag, data)] else []
  | _, _ => []
  end.

Definition received_payload (m : gmap ProcessId CapabilitySpace) (actor : ProcessId)
    (sc : Syscall) (r : SyscallResult) (eid : EndpointId) : list (ProcessId * Z * list byte) :=
  match sc, r with
  | Receive slot, SR_Message msg =>
      if bool_decide (target m actor slot = Some eid) then [payload msg] else []
  | _, _ => []
  end.

Fixpoint sent (s : KernelState) (eid : EndpointId) (evs : list kevent)
  : list (ProcessId * Z * list byte) :=
  match evs with
  | [] => []
  | ev :: rest =>
      match ev with
      | E_syscall actor sc now =>
          sent_payload (cap_spaces s) actor sc (sr_result (step s actor sc now).1) eid
      | E_register _ _ => []
      end ++ sent (exec s ev) eid rest
  end.

Fixpoint received (s : KernelState) (eid : EndpointId) (evs : list kevent)
  : list (ProcessId * Z * list byte) :=
  match evs with
  | [] => []
  | ev :: rest =>
      match ev with
      | E_syscall actor sc now =>
          received_payload (cap_spaces s) actor sc (sr_result (step s actor sc now).1) eid
      | E_register _ _ => []
      end ++ received (exec s ev) eid rest
  end.

Lemma authorised_target a actor slot perms ty now cap :
  authorised a actor slot perms ty now cap ->
  target (a_cspaces a) actor slot = Some (cap_object_id cap).
Proof. intros (cs & Hcs & Hc & _). unfold target. by rewrite Hcs, Hc. Qed.

Lemma a_queue_set a eid owner q eid' :
  a_queue (a_set_queue eid owner q a) eid' = if decide (eid' = eid) then q else a_queue a eid'.
Proof.
  unfold a_queue. simpl. case_decide as H; [subst; by rewrite lookup_insert_eq|].
  by rewrite lookup_insert_ne.
Qed.

(** One transition appends what it sends and removes what it receives. *)
Lemma astep_delivery actor now a sc r a' eid :
  awf a -> astep actor now a sc r a' ->
  (payload <$> a_queue a eid) ++ sent_payload (a_cspaces a) actor sc r eid =
  received_payload (a_cspaces a) actor sc r eid ++ (payload <$> a_queue a' eid).
Proof.
  intros Hwf Hstep.
  destruct Hstep as [sc e|sc r Hq|code|tgt Ht|cs Ha Hcs|sc r slot tag data cap o q Hsc Hl Hau He
    |slot tag data csl cs caps cap o q Hl Hc Hau Hcs Hf He|slot cap o m q Hau He
    |slot cap o Hau He|slot tp perms cap cs Hau Ha Hs Hcs|slot perms cap cs Hcs Hc Hs
    |sc slot cap cs Hsc Hcs Hc].
  - destruct sc; simpl; by rewrite app_nil_r.
  - destruct sc; try done; simpl; by rewrite app_nil_r.
  - simpl. by rewrite app_nil_r.
  - simpl. by rewrite app_nil_r.
  - simpl. rewrite app_nil_r. unfold a_queue. simpl.
    destruct (decide (eid = a_next_eid a)) as [->|Hne].
    + rewrite lookup_insert_eq.
      destruct (a_eps a !! a_next_eid a) eqn:E; [|done].
      pose proof (awf_eids _ Hwf (a_next_eid a) ltac:(eauto)). lia.
    + by rewrite lookup_insert_ne.
  - apply authorised_target in Hau. rewrite a_queue_set.
    assert (sent_payload (a_cspaces a) actor sc r eid =
      if bool_decide (cap_object_id cap = eid) then [(actor, tag, data)] else []) as ->.
    { destruct Hsc as [[-> ->]|[-> ->]]; simpl; rewrite Hau;
        apply (f_equal (fun b : bool => if b then _ else _)), bool_decide_ext; naive_solver. }
    assert (received_payload (a_cspaces a) actor sc r eid = []) as ->
      by (destruct Hsc as [[-> ->]|[-> ->]]; done).
    case_bool_decide as Heq; case_decide; try congruence; [subst|by rewrite app_nil_r].
    unfold a_queue. rewrite He. simpl. by rewrite fmap_app.
  - apply authorised_target in Hau. rewrite a_queue_set. simpl. rewrite Hau.
    case_bool_decide as Heq; case_decide; simplify_eq; try congruence; [|by rewrite app_nil_r].
    unfold a_queue. rewrite He. simpl. by rewrite fmap_app.
  - apply authorised_target in Hau. rewrite a_queue_set. simpl. rewrite Hau, app_nil_r.
    case_bool_decide as Heq; case_decide; simplify_eq; try congruence; try done.
    unfold a_queue. by rewrite He.
  - simpl. by rewrite app_nil_r.
  - simpl. by rewrite app_nil_r.
  - simpl. by rewrite app_nil_r.
  - destruct Hsc as [->| ->]; simpl; by rewrite app_nil_r.
Qed.

Lemma queue_abs s eid : queue s eid = a_queue (abs s) eid.
Proof. unfold queue, a_queue. simpl. rewrite lookup_fmap. by destruct (endpoints s !! eid). Qed.

Lemma exec_delivery s ev eid :
  awf (abs s) ->
  (payload <$> queue s eid) ++ sent s eid [ev] =
  received s eid [ev] ++ (payload <$> queue (exec s ev) eid).
Proof.
  intros Hwf. rewrite !queue_abs. destruct ev as [name now|actor sc now]; simpl.
  - rewrite app_nil_r. done.
  - rewrite !app_nil_r. destruct (step s actor sc now) as [r s'] eqn:E. simpl.
    by eapply (astep_delivery _ now), step_refines_astep; [| |exact E]; eauto using awf_consistent.
Qed.

Lemma sent_cons s eid ev evs : sent s eid (ev :: evs) = sent s eid [ev] ++ sent (exec s ev) eid evs.
Proof. simpl. by rewrite app_nil_r. Qed.

Lemma received_cons s eid ev evs :
  received s eid (ev :: evs) = received s eid [ev] ++ received (exec s ev) eid evs.
Proof. simpl. by rewrite app_nil_r. Qed.

(** The same over a run. *)
Lemma run_delivery s evs n eid :
  awf (abs s) -> bounded n (abs s) -> n + len evs <= 2 ^ 32 - 1 ->
  (payload <$> queue s eid) ++ sent s eid evs =
  received s eid evs ++ (payload <$> queue (run s evs) eid).
Proof.
  revert s n. induction evs as [|ev evs IH]; intros s n Hwf Hb Hn.
  { simpl. by rewrite app_nil_r. }
  unfold len in Hn. simpl in Hn.
  pose proof (exec_refines s ev (awf_consistent _ Hwf)) as He.
  change (run s (ev :: evs)) with (run (exec s ev) evs).
  rewrite sent_cons, received_cons, app_assoc, exec_delivery by done.
  rewrite <- !app_assoc. f_equal. apply (IH _ (n + 1)).
  - eapply aevent_awf; [done| |done]. eapply bounded_room; [|done]. lia.
  - eapply aevent_bounded; try done. lia.
  - unfold len. lia.
Qed.

(** ** Authority *)

(** [c] gives no more than [c0]: same object, no further permission, no longer
    lifetime. *)
Definition derived_from (c0 c : Capability) : Prop :=
  cap_object_type c = cap_object_type c0 /\ cap_object_id c = cap_object_id c0 /\
  is_subset_of (cap_permissions c) (cap_permissions c0) = true /\
  cap_expires_at c = cap_expires_at c0.

Lemma derived_from_refl c : derived_from c c.
Proof. unfold derived_from. eauto with zos. Qed.

Lemma derived_from_trans c1 c2 c3 : derived_from c1 c2 -> derived_from c2 c3 -> derived_from c1 c3.
Proof.
  intros (H1 & H2 & H3 & H4) (H5 & H6 & H7 & H8). unfold derived_from.
  split_and!; try congruence. by eapply is_subset_of_trans.
Qed.

(** Every capability of [a'] comes from [a], or names an endpoint created since. *)
Definition no_amplification (a a' : AState) : Prop :=
  forall pid slot c, a_holds a' pid slot c ->
    (cap_object_type c = OT_Endpoint /\ a_next_eid a <= cap_object_id c) \/
    exists pid0 slot0 c0, a_holds a pid0 slot0 c0 /\ derived_from c0 c.

Lemma no_amplification_refl a : no_amplification a a.
Proof. intros pid slot c H. right. eauto using derived_from_refl. Qed.

Lemma no_amplification_trans a1 a2 a3 :
  a_next_eid a1 <= a_next_eid a2 ->
  no_amplification a1 a2 -> no_amplification a2 a3 -> no_amplification a1 a3.
Proof.
  intros Hle H12 H23 pid slot c Hc.
  destruct (H23 _ _ _ Hc) as [[Ht Hi]|(p & sl & c0 & Hc0 & Hd)]; [left; split; [done|lia]|].
  pose proof Hd as (Ht & Ho & _).
  destruct (H12 _ _ _ Hc0) as [[Ht' Hi]|(p' & sl' & c' & Hc' & Hd')].
  - left. rewrite Ht, Ho. done.
  - right. eauto 8 using derived_from_trans.
Qed.

Lemma attenuated_derived id perms c :
  is_subset_of perms (cap_permissions c) = true -> derived_from c (attenuated id perms c).
Proof. intros H. by unfold derived_from. Qed.

Lemma astep_no_amplification actor now a sc r a' :
  astep actor now a sc r a' -> no_amplification a a'.
Proof.
  intros Hstep. destruct Hstep; try exact (no_amplification_refl a); intros pid sl c Hc.
  - apply a_holds_new_endpoint in Hc as [[_ ->]|Hc]; [by left| |done].
    right. eauto using derived_from_refl.
  - right. apply a_holds_insert in Hc as [(_ & _ & ->)|Hc]; [| |done].
    + destruct H as (cs' & Hcs' & Hsl & _). exists actor, slot, cap.
      split; [by exists cs'|by apply attenuated_derived].
    + eauto using derived_from_refl.
  - right. apply a_holds_insert in Hc as [(_ & _ & ->)|Hc]; [| |done].
    + exists actor, slot, cap. split; [by exists cs|by apply attenuated_derived].
    + eauto using derived_from_refl.
  - right. apply a_holds_drop in Hc; [|done]. eauto using derived_from_refl.
Qed.

Lemma aevent_no_amplification a ev a' : aevent a ev a' -> no_amplification a a'.
Proof.
  intros []; [|by eapply astep_no_amplification].
  intros pid slot c (cs & Hcs & Hc). simpl in Hcs.
  apply lookup_insert_Some in Hcs as [[<- <-]|[_ Hcs]].
  - simpl in Hc. by rewrite lookup_empty in Hc.
  - right. exists pid, slot, c. split; [by exists cs|apply derived_from_refl].
Qed.

Lemma aevent_eid_mono a ev a' : awf a -> room a -> aevent a ev a' -> a_next_eid a <= a_next_eid a'.
Proof.
  intros Hwf Hroom []; simpl; [lia|]. destruct H; simpl; try lia.
  pose proof (room_eid _ Hroom). pose proof (awf_counters _ Hwf).
  rewrite u64_add_small; lia.
Qed.

Lemma aruns_no_amplification a evs a' n :
  awf a -> bounded n a -> n + len evs <= 2 ^ 32 - 1 -> aruns a evs a' ->
  no_amplification a a' /\ a_next_eid a <= a_next_eid a'.
Proof.
  intros Hwf Hb Hn Hr. revert n Hb Hn.
  induction Hr as [a|a ev a1 evs a2 He Hr IH]; intros n Hb Hn; unfold len in *; simpl in *.
  - split; [apply no_amplification_refl|lia].
  - assert (room a) as Hroom by (eapply bounded_room; [|done]; lia).
    destruct (IH (aevent_awf _ _ _ Hwf Hroom He) (n + 1)) as [IH1 IH2];
      [eapply aevent_bounded; try done; lia|lia|].
    pose proof (aevent_eid_mono _ _ _ Hwf Hroom He).
    split; [|lia]. eapply no_amplification_trans; [|by eapply aevent_no_amplification|done]. lia.
Qed.

Lemma run_app s evs1 evs2 : run s (evs1 ++ evs2) = run (run s evs1) evs2.
Proof. apply foldl_app. Qed.
