(* ===== verification/CoreProps.v ===== *)
(** * Theorems about the pure kernel core

    Correctness of crates/zos-kernel-core: exact refinement of the abstract
    machine, the capability check, the invariant checker, reachable states,
    delivery order, authority and integrity. The demonstration run below gives
    the concrete instances. *)
From S2P Require Import Prelude CoreTypes CoreStep.
From S2P Require Import CoreSpec CoreWf CoreRun.

(** A run with two processes, one endpoint, a grant and one message. *)
Definition demo_setup : list kevent :=
  [E_register "init" 0; E_register "app" 0; E_syscall 1 CreateEndpoint 5;
   E_syscall 1 (CapGrant 0 2 write_only) 6].

Definition demo_traffic : list kevent :=
  [E_syscall 2 (Send 0 7 [x01; x02]) 7; E_syscall 2 (Send 0 8 [x03]) 8;
   E_syscall 1 (Receive 0) 9].

Definition demo_state : KernelState := run KernelState_new demo_setup.

Lemma demo_consistent : inv_consistency demo_state.
Proof. apply check_consistency_nil. vm_compute. reflexivity. Defined.

(** ** Refused syscalls *)
Lemma step_error s actor sc now :
  is_error (sr_result (step s actor sc now).1) = true ->
  (step s actor sc now).2 = update_syscall_metrics actor now s /\
  sr_commits (step s actor sc now).1 = [].
Proof.
  unfold step. generalize (update_syscall_metrics actor now s) as s1. clear s. intros s.
  destruct sc; try done;
    unfold step_kill, step_create_endpoint, step_call, step_send, step_receive,
      step_send_with_caps, step_cap_grant, step_cap_revoke, step_cap_delete, step_cap_derive.
  all: try (unfold step_cap_inspect; repeat (case_match; simplify_eq/=; try done); fail).
  all: try (pose proof (remove_cap_None s actor slot) as Hn;
    destruct (remove_cap actor slot s) as [[c|] s'] eqn:E; [done|];
    simpl in *; by rewrite Hn).
Qed.

(** ** Refinement *)

(** C1: the kernel core does exactly what the documented capability machine
    prescribes. For every syscall that does not bypass the check (a kill, and
    the derivation, removal, inspection or sending of an expired capability,
    do), a non-error outcome is the unique outcome a rule of the machine allows
    with every named capability passing [axiom_check]; an error leaves the
    abstract state as it was and is returned only when no rule allows the
    syscall. *)
Theorem step_refinement s actor sc now res s' :
  inv_consistency s -> step s actor sc now = (res, s') -> bypasses s actor now sc = false ->
  (forall r a', is_error r = false ->
     dstep actor now (abs s) sc r a' <-> sr_result res = r /\ abs s' = a') /\
  (is_error (sr_result res) = true ->
     abs s' = abs s /\ forall r a', dstep actor now (abs s) sc r a' -> is_error r = true).
Proof.
  intros Hinv Hs Hb. pose proof (step_refines_astep _ _ _ _ _ _ Hinv Hs) as Hsound.
  pose proof (step_enabled s actor now sc) as Hen. pose proof (step_error s actor sc now) as Hf.
  rewrite Hs in Hen, Hf. simpl in Hen, Hf. split.
  - intros r a' Hr. split.
    + intros [H _]. eapply astep_deterministic; eauto.
    + intros [<- <-]. split; [done|]. intros He. by eapply documented_iff.
  - intros He. split.
    + destruct (Hf He) as [-> _]. by apply abs_metrics.
    + intros r a' [H _]. destruct (is_error r) eqn:E; [done|]. specialize (Hen _ _ H E). congruence.
Qed.

Lemma step_refinement_witness :
  dstep 2 7 (abs demo_state) (Send 0 7 [x01]) (SR_Ok 0)
    (abs (step demo_state 2 (Send 0 7 [x01]) 7).2).
Proof.
  eapply (proj1 (step_refinement demo_state 2 (Send 0 7 [x01]) 7 _ _ demo_consistent
    (surjective_pairing _) eq_refl) (SR_Ok 0) _ eq_refl).
  split; [vm_compute; reflexivity|reflexivity].
Defined.

(** C40: the documentation demands that every operation goes through
    [axiom_check]; a success of the kernel core is a step of the documented
    machine exactly when it is not a kill and not the derivation, removal,
    inspection or sending of an expired capability, and those do succeed: a
    kill of an existing process without any capability, and a derivation from
    an expired capability, whose copy is expired as well. *)
Theorem unchecked_operations s actor sc now res s' :
  inv_consistency s -> step s actor sc now = (res, s') ->
  (is_error (sr_result res) = false ->
     (dstep actor now (abs s) sc (sr_result res) (abs s') <-> bypasses s actor now sc = false)) /\
  (forall target, sc = Kill target -> is_Some (processes s !! target) ->
     sr_result res = SR_Ok 0 /\ abs s' = a_kill target (abs s)) /\
  (forall slot perms cs cap, sc = CapDerive slot perms ->
     cap_spaces s !! actor = Some cs -> slots cs !! slot = Some cap ->
     is_subset_of perms (cap_permissions cap) = true ->
     sr_result res = SR_Ok (next_slot cs) /\
     abs s' = a_insert_cap actor cs (attenuated (next_cap_id s) perms cap) (abs s)).
Proof.
  intros Hinv Hs. pose proof (step_refines_astep _ _ _ _ _ _ Hinv Hs) as Hsound.
  pose proof (step_enabled s actor now sc) as Hen. rewrite Hs in Hen. simpl in Hen.
  assert (Hdet : forall r a', astep actor now (abs s) sc r a' -> is_error r = false ->
    sr_result res = r /\ abs s' = a') by eauto using astep_deterministic.
  split_and!.
  - intros He. rewrite <- documented_iff by done. unfold dstep. naive_solver.
  - intros target -> Ht. apply Hdet; [|done]. apply A_kill. simpl. by rewrite lookup_fmap, fmap_is_Some.
  - intros slot perms cs cap -> Hcs Hc Hp. apply Hdet; [|done]. by apply (A_derive _ _ (abs s)).
Qed.

(** A capability that expired at time 5, derived at time 7. *)
Definition expired_state : KernelState :=
  set_cap_spaces (<[2 := (cs_insert (mk_Capability 9 OT_Endpoint 1 full 0 5) CapabilitySpace_new).2]>
    (cap_spaces demo_state)) demo_state.

Lemma expired_consistent : inv_consistency expired_state.
Proof. apply check_consistency_nil. vm_compute. reflexivity. Defined.

Lemma unchecked_operations_witness :
  bypasses expired_state 2 7 (CapDerive 0 write_only) = true /\
  sr_result (step expired_state 2 (CapDerive 0 write_only) 7).1 = SR_Ok 1.
Proof.
  split; [reflexivity|].
  pose proof (proj2 (proj2 (unchecked_operations expired_state 2 (CapDerive 0 write_only) 7 _ _
    expired_consistent (surjective_pairing _)))) as H.
  exact (proj1 (H 0 write_only _ _ eq_refl eq_refl eq_refl eq_refl)).
Defined.

(** A refused syscall changes nothing but the caller's syscall counter and
    activity time, and records no commit. *)
Theorem step_error_no_effect s actor sc now e :
  sr_result (step s actor sc now).1 = SR_Err e ->
  (step s actor sc now).2 = update_syscall_metrics actor now s /\
  sr_commits (step s actor sc now).1 = [].
Proof. intros H. apply step_error. by rewrite H. Qed.

Lemma step_error_no_effect_witness :
  (step demo_state 2 (Receive 0) 7).2 = update_syscall_metrics 2 7 demo_state.
Proof. apply (step_error_no_effect demo_state 2 (Receive 0) 7 PermissionDenied). reflexivity. Defined.

(** ** The capability check *)

(** [axiom_check] succeeds exactly when the slot holds a capability of the
    expected type, with the required permissions, that has not expired; its
    errors have the precedence slot, type, permissions, expiry. *)
Theorem axiom_check_spec cs slot req ty now :
  match axiom_check cs slot req ty now with
  | Ok cap => slots cs !! slot = Some cap /\ (forall t, ty = Some t -> cap_object_type cap = t) /\
      is_subset_of req (cap_permissions cap) = true /\
      (cap_expires_at cap = 0 \/ now <= cap_expires_at cap)
  | Err InvalidSlot => slots cs !! slot = None
  | Err WrongType => exists cap t, slots cs !! slot = Some cap /\ ty = Some t /\
      cap_object_type cap <> t
  | Err InsufficientRights => exists cap, slots cs !! slot = Some cap /\
      (forall t, ty = Some t -> cap_object_type cap = t) /\
      is_subset_of req (cap_permissions cap) = false
  | Err Expired => exists cap, slots cs !! slot = Some cap /\
      (forall t, ty = Some t -> cap_object_type cap = t) /\
      is_subset_of req (cap_permissions cap) = true /\
      cap_expires_at cap <> 0 /\ cap_expires_at cap < now
  | Err ObjectNotFound => False
  end.
Proof.
  destruct (axiom_check cs slot req ty now) as [cap|e] eqn:E; [by apply axiom_check_Ok|].
  unfold axiom_check, cs_get in E. destruct (slots cs !! slot) as [c|] eqn:Hc; [|by simplify_eq].
  destruct ty as [t|]; [case_bool_decide|]; simpl in E.
  2:{ simplify_eq. eauto. }
  all: destruct (has_permissions c req) eqn:Hp; simpl in E;
    [destruct (is_expired c now) eqn:Hx|]; simplify_eq; rewrite has_permissions_subset in Hp.
  all: exists c; split_and!; try done; try (intros; congruence).
  all: unfold is_expired in Hx; zeq; lia.
Qed.

(** ** Invariants *)

(** The runtime checker of invariants.rs accepts exactly the states that
    satisfy the invariants: processes and capability spaces coincide, every
    endpoint has a living owner, endpoint and process capabilities name
    existing objects, and the counters exceed every identifier. *)
Theorem check_all_invariants_spec s :
  check_all_invariants s = [] <->
  inv_consistency s /\ inv_owner_exists s /\ inv_owner_alive s /\ inv_objects s /\ inv_ids s.
Proof. apply check_all_nil. Qed.

Lemma no_zombie_owner_alive s : no_zombie (abs s) -> inv_owner_alive s.
Proof.
  intros Hz eid e p _ Hp. apply (Hz (ep_owner e) (abs_proc p)).
  simpl. by rewrite lookup_fmap, Hp.
Qed.

(** C35: in every state reached from boot by at most 2^32 - 1 registrations and
    syscalls, with any callers, arguments and times, all invariants but the
    liveness of endpoint owners hold; if no process has exited or been killed,
    the checker reports no violation at all. *)
Theorem reachable_invariants evs :
  len evs <= 2 ^ 32 - 1 ->
  let s := run KernelState_new evs in
  inv_consistency s /\ inv_owner_exists s /\ inv_objects s /\ inv_ids s /\
  (Forall (fun ev => is_stop ev = false) evs -> assert_invariants s = true).
Proof.
  intros Hn s. destruct (reachable_awf _ Hn) as [Hwf _].
  destruct (awf_inv _ Hwf) as (H1 & H2 & H3 & H4). split_and!; try done.
  intros Hs. unfold assert_invariants. rewrite (proj2 (check_all_nil s)); [done|].
  split_and!; try done. apply no_zombie_owner_alive.
  eapply aruns_no_zombie; [done|by apply (run_aruns _ _ 0); eauto using awf_new, bounded_new|].
  intros pid p. simpl. by rewrite fmap_empty, lookup_empty.
Qed.

Lemma reachable_invariants_witness :
  inv_objects demo_state /\ assert_invariants demo_state = true.
Proof.
  destruct (reachable_invariants demo_setup) as (_ & _ & H & _ & Ha); [vm_compute; discriminate|].
  split; [exact H|]. apply Ha. repeat constructor.
Defined.

(** When the owner of an endpoint exits, the state reached violates the
    checker's endpoint-ownership invariant: [Exit] leaves the endpoint behind. *)
Theorem exit_violates_ownership s actor code now eid e p :
  endpoints s !! eid = Some e -> ep_owner e = actor -> processes s !! actor = Some p ->
  assert_invariants (step s actor (Exit code) now).2 = false.
Proof.
  intros He Ho Hp. set (s' := (step s actor (Exit code) now).2).
  assert (check_all_invariants s' <> []) as Hne.
  { rewrite check_all_nil. intros (_ & _ & Hal & _). revert Hal.
    unfold inv_owner_alive. intros Hal.
    apply (Hal eid e (set_proc_state Zombie (count_syscall now p))); [done| |done].
    unfold s'. simpl. by rewrite Ho, !btree_update_eq, Hp. }
  unfold assert_invariants. by destruct (check_all_invariants s').
Qed.

Lemma exit_violates_ownership_witness :
  assert_invariants (step demo_state 1 (Exit 0) 9).2 = false.
Proof.
  eapply (exit_violates_ownership demo_state 1 0 9 1); vm_compute; reflexivity.
Defined.

(** ** Delivery *)

(** First-in first-out, loss-free and duplication-free delivery. From any
    state reached from boot, over any further run, the payloads pending at an
    endpoint followed by those sent to it are the payloads received from it
    followed by those still pending. *)
Theorem run_fifo evs1 evs2 eid :
  len evs1 + len evs2 <= 2 ^ 32 - 1 ->
  let s := run KernelState_new evs1 in
  (payload <$> queue s eid) ++ sent s eid evs2 =
  received s eid evs2 ++ (payload <$> queue (run s evs2) eid).
Proof.
  intros Hn s. assert (len evs1 <= 2 ^ 32 - 1) as Hn1 by (unfold len in *; lia).
  destruct (reachable_awf _ Hn1) as [Hwf Hb]. eapply run_delivery; eauto.
Qed.

Lemma run_fifo_witness :
  sent demo_state 1 demo_traffic = [(2, 7, [x01; x02]); (2, 8, [x03])] /\
  [(2, 7, [x01; x02]); (2, 8, [x03])] =
  received demo_state 1 demo_traffic ++ (payload <$> queue (run demo_state demo_traffic) 1).
Proof.
  pose proof (run_fifo demo_setup demo_traffic 1 ltac:(vm_compute; discriminate)) as H.
  split; [vm_compute; reflexivity|]. etransitivity; [|exact H]. vm_compute. reflexivity.
Defined.

(** ** Authority *)

(** Authority is never amplified. After any further run, every capability
    any process holds either names an endpoint created during that run, or is
    an attenuation of a capability some process held before: same object,
    subset of its permissions, same expiry. *)
Theorem run_no_amplification evs1 evs2 pid slot c :
  len evs1 + len evs2 <= 2 ^ 32 - 1 ->
  holds (run KernelState_new (evs1 ++ evs2)) pid slot c ->
  (cap_object_type c = OT_Endpoint /\
   next_endpoint_id (run KernelState_new evs1) <= cap_object_id c) \/
  exists pid0 slot0 c0, holds (run KernelState_new evs1) pid0 slot0 c0 /\ derived_from c0 c.
Proof.
  intros Hn Hh. assert (len evs1 <= 2 ^ 32 - 1) as Hn1 by (unfold len in *; lia).
  destruct (reachable_awf _ Hn1) as [Hwf Hb]. rewrite run_app in Hh.
  destruct (aruns_no_amplification _ evs2 _ _ Hwf Hb Hn (run_aruns _ _ _ Hwf Hb Hn)) as [Ha _].
  destruct (Ha pid slot c Hh) as [?|(p0 & sl0 & c0 & H0 & Hd)]; [by left|right].
  exists p0, sl0, c0. by split.
Qed.

Lemma run_no_amplification_witness :
  exists pid0 slot0 c0, holds demo_state pid0 slot0 c0 /\
    derived_from c0 (mk_Capability 2 OT_Endpoint 1 write_only 1 0).
Proof.
  destruct (run_no_amplification demo_setup demo_traffic 2 0
    (mk_Capability 2 OT_Endpoint 1 write_only 1 0)) as [[_ H]|H].
  - vm_compute. discriminate.
  - eexists. split; vm_compute; reflexivity.
  - exfalso. vm_compute in H. by apply H.
  - exact H.
Defined.

(** What a syscall of [actor] may do to other processes and to queues. *)
Record integrity (actor : ProcessId) (now : Z) (sc : Syscall) (s s' : KernelState) : Prop := {
  integrity_caps : forall pid cs, pid <> actor -> cap_spaces s !! pid = Some cs ->
    cap_spaces s' !! pid = Some cs \/
    exists slot perms cap,
      sc = CapGrant slot pid perms /\
      authorised (abs s) actor slot (mk_Permissions false false true) None now cap /\
      is_subset_of perms (cap_permissions cap) = true /\
      cap_spaces s' !! pid = Some (cs_insert (attenuated (next_cap_id s) perms cap) cs).2;
  integrity_procs : forall pid p, pid <> actor -> processes s !! pid = Some p ->
    processes s' !! pid = Some p \/ sc = Kill pid;
  integrity_queues : forall eid e, endpoints s !! eid = Some e ->
    exists e', endpoints s' !! eid = Some e' /\ ep_owner e' = ep_owner e /\
      (ep_pending_messages e' = ep_pending_messages e \/
       (exists slot cap m, authorised (abs s) actor slot write_only (Some OT_Endpoint) now cap /\
          cap_object_id cap = eid /\ msg_sender m = actor /\
          ep_pending_messages e' = ep_pending_messages e ++ [m]) \/
       (exists slot cap m, authorised (abs s) actor slot read_only (Some OT_Endpoint) now cap /\
          cap_object_id cap = eid /\ ep_pending_messages e = m :: ep_pending_messages e')) }.

Lemma step_other_processes s actor sc now pid :
  pid <> actor -> sc <> Kill pid ->
  processes (step s actor sc now).2 !! pid = processes s !! pid.
Proof.
  intros Hne Hk.
  assert (processes (update_syscall_metrics actor now s) !! pid = processes s !! pid) as <-
    by (apply btree_update_ne; done).
  unfold step. generalize (update_syscall_metrics actor now s) as s1. clear s. intros s.
  destruct sc; try done;
    unfold step_kill, step_create_endpoint, step_call, step_send, step_receive,
      step_send_with_caps, step_cap_grant, step_cap_revoke, step_cap_delete, step_cap_derive,
      insert_cap_or_zero, remove_cap, kill_process;
    repeat (case_match; simplify_eq/=; try done); try (by apply btree_update_ne).
  apply btree_update_ne. intros ->. done.
Qed.

Lemma abs_ep_lookup s eid o q :
  a_eps (abs s) !! eid = Some (o, q) ->
  exists e, endpoints s !! eid = Some e /\ ep_owner e = o /\ ep_pending_messages e = q.
Proof.
  simpl. rewrite lookup_fmap. destruct (endpoints s !! eid) as [e|]; [|done].
  intros [= <- <-]. by exists e.
Qed.

Lemma astep_integrity_caps actor now a sc r a' pid cs :
  astep actor now a sc r a' -> pid <> actor -> a_cspaces a !! pid = Some cs ->
  a_cspaces a' !! pid = Some cs \/
  exists slot perms cap,
    sc = CapGrant slot pid perms /\
    authorised a actor slot (mk_Permissions false false true) None now cap /\
    is_subset_of perms (cap_permissions cap) = true /\
    a_cspaces a' !! pid = Some (cs_insert (attenuated (a_next_cap a) perms cap) cs).2.
Proof.
  intros Hs Hne Hcs. destruct Hs; simpl; try (by left);
    try (left; by rewrite lookup_insert_ne).
  destruct (decide (pid = to_pid)) as [->|]; [|left; by rewrite lookup_insert_ne].
  right. simplify_eq. exists slot, perms, cap. by rewrite lookup_insert_eq.
Qed.

Lemma astep_integrity_queues actor now a sc r a' eid o q :
  astep actor now a sc r a' -> a_eps a !! eid = Some (o, q) -> eid <> a_next_eid a ->
  exists q', a_eps a' !! eid = Some (o, q') /\
    (q' = q \/
     (exists slot cap m, authorised a actor slot write_only (Some OT_Endpoint) now cap /\
        cap_object_id cap = eid /\ msg_sender m = actor /\ q' = q ++ [m]) \/
     (exists slot cap m, authorised a actor slot read_only (Some OT_Endpoint) now cap /\
        cap_object_id cap = eid /\ q = m :: q')).
Proof.
  intros Hs He Hne. destruct Hs; simpl; try (exists q; by eauto).
  1: rewrite lookup_insert_ne by done; eauto.
  all: destruct (decide (cap_object_id cap = eid)) as [<-|?];
    [rewrite lookup_insert_eq; simplify_eq; eexists; split; [done|]
    |rewrite lookup_insert_ne by done; eauto].
  - right; left. exists slot, cap. eexists. split_and!; [done|done| |reflexivity]; done.
  - right; left. exists slot, cap. eexists. split_and!; [done|done| |reflexivity]; done.
  - right; right. exists slot, cap. eexists. by split_and!.
Qed.

(** C36: integrity. A syscall changes another process's capability space only
    by an authorised, attenuating grant to it; changes another process's entry
    only as a kill of it; and changes an endpoint's queue only by appending
    one message of the caller under write authority or by removing the head
    under read authority. *)
Theorem step_integrity s actor sc now :
  inv_consistency s -> inv_ids s -> integrity actor now sc s (step s actor sc now).2.
Proof.
  intros Hinv Hids. destruct (step s actor sc now) as [r s'] eqn:E. simpl.
  pose proof (step_refines_astep _ _ _ _ _ _ Hinv E) as Hs. split.
  - intros pid cs Hne Hcs. by eapply astep_integrity_caps in Hs.
  - intros pid p Hne Hp. destruct (decide (sc = Kill pid)) as [?|Hk]; [by right|left].
    rewrite <- Hp, <- (step_other_processes s actor sc now pid) by done. by rewrite E.
  - intros eid e He. assert (eid <> next_endpoint_id s) as Hlt.
    { destruct Hids as (_ & H & _). specialize (H eid). rewrite He in H.
      specialize (H ltac:(eauto)). lia. }
    apply abs_eps_lookup in He.
    destruct (astep_integrity_queues _ _ _ _ _ _ _ _ _ Hs He Hlt) as (q' & Hq & H).
    apply abs_ep_lookup in Hq as (e' & He' & Ho & <-). eauto.
Qed.

Lemma step_integrity_witness :
  integrity 2 7 (Send 0 7 [x01]) demo_state (step demo_state 2 (Send 0 7 [x01]) 7).2.
Proof.
  apply step_integrity; [exact demo_consistent|].
  apply check_ids_nil. vm_compute. reflexivity.
Defined.

Lemma astep_create actor now a v a' :
  astep actor now a CreateEndpoint (SR_Ok v) a' ->
  exists cs, a_cspaces a !! actor = Some cs /\ v = pack_slot_eid (next_slot cs) (a_next_eid a) /\
    a' = a_new_endpoint actor cs a.
Proof. inversion 1; naive_solver. Qed.

Lemma pack_slot_eid_inv slot eid :
  0 <= slot < 2 ^ 32 -> 0 <= eid < 2 ^ 32 ->
  Z.shiftr (pack_slot_eid slot eid) 32 = slot /\
  Z.land (pack_slot_eid slot eid) 0xFFFFFFFF = eid.
Proof.
  intros Hs He. unfold pack_slot_eid. rewrite Z.shiftl_mul_pow2 by lia.
  rewrite wrap_u64_small by lia. change 0xFFFFFFFF with (Z.ones 32).
  rewrite !Z.land_ones by lia. rewrite (Z.mod_small eid) by lia.
  rewrite <- Z.shiftl_mul_pow2 by lia. split.
  - rewrite Z.shiftr_lor, Z.shiftr_shiftl_l by lia. simpl. rewrite Z.shiftr_div_pow2 by lia.
    rewrite Z.div_small by lia. apply Z.lor_0_r.
  - rewrite <- Z.land_ones, Z.land_lor_distr_l, !Z.land_ones by lia.
    rewrite Z.shiftl_mul_pow2, Z.mod_mul by lia. simpl. by apply Z.mod_small.
Qed.

(** the value returned by a successful [CreateEndpoint] packs the slot and
    the endpoint identifier without loss: a reached state's slot is the high
    word, its endpoint identifier the low word, and the slot then holds a full
    capability for that endpoint, whose queue is empty. *)
Theorem create_endpoint_result evs actor now v :
  len evs < 2 ^ 32 - 1 ->
  let s := run KernelState_new evs in
  sr_result (step s actor CreateEndpoint now).1 = SR_Ok v ->
  let slot := Z.shiftr v 32 in
  let eid := Z.land v 0xFFFFFFFF in
  let s' := (step s actor CreateEndpoint now).2 in
  holds s' actor slot (mk_Capability (next_cap_id s) OT_Endpoint eid full 0 0) /\
  eid = next_endpoint_id s /\ queue s' eid = [].
Proof.
  intros Hn s Hv. destruct (reachable_awf evs) as [Hwf Hb]; [lia|]. fold s in Hwf, Hb.
  destruct (step s actor CreateEndpoint now) as [res s'] eqn:E. cbn [fst snd] in Hv |- *. cbv zeta.
  pose proof (step_refines_astep _ _ _ _ _ _ (awf_consistent _ Hwf) E) as Hs. rewrite Hv in Hs.
  apply astep_create in Hs as (cs & Hcs & -> & Ha).
  pose proof (awf_slots _ Hwf _ _ Hcs) as [Hsl0 _].
  pose proof (bounded_slot _ _ Hb _ _ Hcs). pose proof (bounded_eid _ _ Hb).
  pose proof (awf_counters _ Hwf) as (_ & He0 & _).
  destruct (pack_slot_eid_inv (next_slot cs) (a_next_eid (abs s))) as [-> ->]; [lia|lia|].
  split_and!; [|done|].
  - apply (f_equal a_cspaces) in Ha. simpl in Ha. unfold holds. rewrite Ha.
    eexists. rewrite lookup_insert_eq. split; [done|]. simpl. by rewrite lookup_insert_eq.
  - rewrite queue_abs. unfold a_queue. rewrite Ha. simpl. by rewrite lookup_insert_eq.
Qed.

Lemma create_endpoint_result_witness :
  holds (step demo_state 2 CreateEndpoint 9).2 2 1 (mk_Capability 3 OT_Endpoint 2 full 0 0).
Proof.
  refine (proj1 (create_endpoint_result demo_setup 2 9 0x100000002 _ _)); vm_compute; reflexivity.
Defined.
