(* ===== verification/AxiomTypes.v ===== *)
(** * Common types of the Axiom layer (crates/zos-axiom/src/types.rs)

    The serializable permissions and object types that commits carry and that
    the kernel's capabilities use. Process, event, endpoint and slot
    identifiers are integers; a [CommitId] is an array of 32 bytes. *)
From S2P Require Import Prelude.

Abbreviation ProcessId := Z (only parsing).
Abbreviation EventId := Z (only parsing).
Abbreviation CommitId := (list byte) (only parsing).
Abbreviation CapSlot := Z (only parsing).
Abbreviation EndpointId := Z (only parsing).

Record Permissions : Type := mk_Permissions { read : bool; write : bool; grant : bool }.

#[export] Instance Permissions_eq_dec : EqDecision Permissions.
Proof. solve_decision. Defined.

Definition full : Permissions := mk_Permissions true true true.
Definition read_only : Permissions := mk_Permissions true false false.
Definition write_only : Permissions := mk_Permissions false true false.

Definition to_byte (p : Permissions) : Z :=
  let b := 0 in
  let b := if read p then Z.lor b 0x01 else b in
  let b := if write p then Z.lor b 0x02 else b in
  let b := if grant p then Z.lor b 0x04 else b in
  b.

Definition from_byte (b : Z) : Permissions :=
  mk_Permissions (negb (Z.land b 0x01 =? 0))
                 (negb (Z.land b 0x02 =? 0))
                 (negb (Z.land b 0x04 =? 0)).

Inductive ObjectType : Type :=
| OT_Endpoint | OT_Process | OT_Memory | OT_Irq | OT_IoPort | OT_Console.

#[export] Instance ObjectType_eq_dec : EqDecision ObjectType.
Proof. solve_decision. Defined.

(** [t as u8], from the [repr(u8)] discriminants. *)
Definition ObjectType_as_u8 (t : ObjectType) : Z :=
  match t with
  | OT_Endpoint => 1 | OT_Process => 2 | OT_Memory => 3
  | OT_Irq => 4 | OT_IoPort => 5 | OT_Console => 6
  end.

Definition from_u8 (v : Z) : option ObjectType :=
  match v with
  | 1 => Some OT_Endpoint
  | 2 => Some OT_Process
  | 3 => Some OT_Memory
  | 4 => Some OT_Irq
  | 5 => Some OT_IoPort
  | 6 => Some OT_Console
  | _ => None
  end.

(** [p] gives no more than [q]. *)
Definition perm_le (p q : Permissions) : Prop :=
  (read p = true -> read q = true) /\ (write p = true -> write q = true) /\
  (grant p = true -> grant q = true).

#[export] Instance perm_le_preorder : PreOrder perm_le.
Proof. split; [intros p|intros p q r]; unfold perm_le; tauto. Qed.

Lemma perm_le_full p : perm_le p full.
Proof. done. Qed.

Lemma ax_from_to_byte p : from_byte (to_byte p) = p.
Proof. by destruct p as [[] [] []]. Qed.

Lemma ax_from_u8_as_u8 t : from_u8 (ObjectType_as_u8 t) = Some t.
Proof. by destruct t. Qed.

Lemma to_byte_range p : 0 <= to_byte p < 8.
Proof. by destruct p as [[] [] []]. Qed.

(** * Capability verification of the Axiom layer
    (crates/zos-axiom/src/capability.rs)

    The kernel proper uses these capability spaces and this [axiom_check]. *)

Record Capability : Type := mk_Capability {
  cap_id : Z;
  cap_object_type : ObjectType;
  cap_object_id : Z;
  cap_permissions : Permissions;
  cap_generation : Z;
  cap_expires_at : Z }.

#[export] Instance Capability_eq_dec : EqDecision Capability.
Proof. solve_decision. Defined.

Definition is_expired (c : Capability) (current_time : Z) : bool :=
  negb (cap_expires_at c =? 0) && (cap_expires_at c <? current_time).

Record CapabilitySpace : Type := mk_CapabilitySpace {
  slots : gmap CapSlot Capability;
  next_slot : CapSlot }.

Definition CapabilitySpace_new : CapabilitySpace := mk_CapabilitySpace ∅ 0.

Definition cs_insert (cap : Capability) (cs : CapabilitySpace) : CapSlot * CapabilitySpace :=
  let slot := next_slot cs in
  (slot, mk_CapabilitySpace (<[slot := cap]> (slots cs)) (u32_add (next_slot cs) 1)).

Definition cs_get (cs : CapabilitySpace) (slot : CapSlot) : option Capability :=
  slots cs !! slot.

Definition cs_remove (slot : CapSlot) (cs : CapabilitySpace)
  : option Capability * CapabilitySpace :=
  (slots cs !! slot, mk_CapabilitySpace (delete slot (slots cs)) (next_slot cs)).

Definition cs_list (cs : CapabilitySpace) : list (CapSlot * Capability) := btree_iter (slots cs).

Definition cs_len (cs : CapabilitySpace) : Z := btree_len (slots cs).

Definition cs_is_empty (cs : CapabilitySpace) : bool := btree_len (slots cs) =? 0.

Inductive AxiomError : Type :=
| InvalidSlot | WrongType | InsufficientRights | Expired | ObjectNotFound.

#[export] Instance AxiomError_eq_dec : EqDecision AxiomError.
Proof. solve_decision. Defined.

Definition axiom_check (cspace : CapabilitySpace) (slot : CapSlot)
    (required : Permissions) (expected_type : option ObjectType) (current_time : Z)
  : result Capability AxiomError :=
  match cs_get cspace slot with
  | None => Err InvalidSlot
  | Some cap =>
      if match expected_type with
         | Some expected => negb (bool_decide (cap_object_type cap = expected))
         | None => false
         end
      then Err WrongType
      else if (read required && negb (read (cap_permissions cap)))
           || (write required && negb (write (cap_permissions cap)))
           || (grant required && negb (grant (cap_permissions cap)))
      then Err InsufficientRights
      else if is_expired cap current_time then Err Expired
      else Ok cap
  end.

Lemma is_expired_false c now :
  is_expired c now = false <-> cap_expires_at c = 0 \/ now <= cap_expires_at c.
Proof.
  unfold is_expired. rewrite andb_false_iff, negb_false_iff, Z.eqb_eq, Z.ltb_ge. done.
Qed.

Lemma insufficient_false required p :
  (read required && negb (read p)) || (write required && negb (write p))
    || (grant required && negb (grant p)) = false <-> perm_le required p.
Proof.
  destruct required as [[] [] []], p as [[] [] []]; unfold perm_le; cbn; intuition congruence.
Qed.

Lemma ax_axiom_check_Ok cs slot req ty now cap :
  axiom_check cs slot req ty now = Ok cap <->
  slots cs !! slot = Some cap /\ (forall t, ty = Some t -> cap_object_type cap = t) /\
  perm_le req (cap_permissions cap) /\ (cap_expires_at cap = 0 \/ now <= cap_expires_at cap).
Proof.
  rewrite <- is_expired_false, <- insufficient_false. unfold axiom_check, cs_get. split.
  - intros H. destruct (slots cs !! slot) as [c|]; [|done].
    destruct ty as [t|]; [case_bool_decide; [|done]|]; simpl in H;
      destruct (_ || _) eqn:Hp; try done; destruct (is_expired c now) eqn:Hx; naive_solver.
  - intros (-> & Hty & -> & ->). destruct ty as [t|]; [|done].
    by rewrite (bool_decide_eq_true_2 _ (Hty t eq_refl)).
Qed.

(** Every occupied slot is below the allocation pointer. *)
Definition cs_wf (cs : CapabilitySpace) : Prop :=
  0 <= next_slot cs /\ forall slot c, slots cs !! slot = Some c -> 0 <= slot < next_slot cs.

Lemma ax_cs_wf_new : cs_wf CapabilitySpace_new.
Proof. split; [done|]. intros slot c. simpl. by rewrite lookup_empty. Qed.

Lemma ax_cs_insert_wf cs cap :
  cs_wf cs -> next_slot cs < 2 ^ 32 - 1 ->
  cs_wf (cs_insert cap cs).2 /\ slots cs !! next_slot cs = None /\
  next_slot (cs_insert cap cs).2 = next_slot cs + 1.
Proof.
  intros [H0 Hlt] Hroom. simpl. rewrite u32_add_small by lia. split_and!; try done.
  - split; simpl; [lia|].
    intros s c [[<- _]|[_ Hs]]%lookup_insert_Some; [lia|]. specialize (Hlt _ _ Hs). lia.
  - apply eq_None_not_Some. intros [c Hc]. specialize (Hlt _ _ Hc). lia.
Qed.

Lemma ax_cs_remove_wf cs slot : cs_wf cs -> cs_wf (cs_remove slot cs).2.
Proof. intros [H0 Hlt]. split; simpl; [done|]. intros s c [_ H]%lookup_delete_Some. eauto. Qed.

#[export] Hint Resolve ax_cs_wf_new ax_cs_remove_wf : zos.
