(* ===== verification/CommitLog.v ===== *)
(** * System event log (crates/zos-axiom/src/syslog.rs)

    An append-only audit log bounded to the last [MAX_SYSLOG_EVENTS] events.
    [log_view] relates it to the unbounded history it is a suffix of. *)
From S2P Require Import Prelude AxiomTypes.

(** [[u32; 4]]. *)
Abbreviation args4 := (Z * Z * Z * Z)%type (only parsing).

Inductive SysEventType : Type :=
| Request (syscall_num : Z) (args : args4)
| Response (request_id : EventId) (res : Z).

Record SysEvent : Type := mk_SysEvent {
  ev_id : EventId;
  ev_sender : ProcessId;
  ev_timestamp : Z;
  ev_event_type : SysEventType }.

Definition MAX_SYSLOG_EVENTS : Z := 10000.

Record SysLog : Type := mk_SysLog {
  events : list SysEvent;
  next_id : EventId }.

Definition SysLog_new : SysLog := mk_SysLog [] 0.

(** [events.drain(0..len - MAX)] when the log is too long. *)
Definition syslog_trim_if_needed (l : SysLog) : SysLog :=
  if MAX_SYSLOG_EVENTS <? len (events l) then
    let drain_count := len (events l) - MAX_SYSLOG_EVENTS in
    mk_SysLog (drop (Z.to_nat drain_count) (events l)) (next_id l)
  else l.

Definition log_request (sender : ProcessId) (syscall_num : Z) (args : args4) (timestamp : Z)
    (l : SysLog) : EventId * SysLog :=
  let id := next_id l in
  let l := mk_SysLog (events l ++ [mk_SysEvent id sender timestamp (Request syscall_num args)])
             (u64_add (next_id l) 1) in
  (id, syslog_trim_if_needed l).

Definition log_response (sender : ProcessId) (request_id : EventId) (res : Z) (timestamp : Z)
    (l : SysLog) : SysLog :=
  let id := next_id l in
  let l := mk_SysLog (events l ++ [mk_SysEvent id sender timestamp (Response request_id res)])
             (u64_add (next_id l) 1) in
  syslog_trim_if_needed l.

Definition syslog_get_range (l : SysLog) (start_id end_id : EventId) : list SysEvent :=
  List.filter (fun e => (start_id <=? ev_id e) && (ev_id e <? end_id)) (events l).

Definition syslog_get_recent (l : SysLog) (count : Z) : list SysEvent :=
  take (Z.to_nat count) (reverse (events l)).

Definition syslog_len (l : SysLog) : Z := len (events l).

Definition syslog_is_empty (l : SysLog) : bool := len (events l) =? 0.

(** ** The log as a window on the full history *)

(** The last [n] elements. *)
Definition last_n {A : Type} (n : Z) (h : list A) : list A := drop (Z.to_nat (len h - n)) h.

Lemma last_n_snoc {A} n (h : list A) x :
  0 < n -> last_n n (last_n n h ++ [x]) = last_n n (h ++ [x]).
Proof.
  intros Hn. unfold last_n, len. rewrite !length_app, length_drop. simpl.
  destruct (decide (Z.of_nat (length h) <= n)) as [Hle|Hgt].
  - rewrite (Z2Nat.nonpos (Z.of_nat (length h) - n)) by lia. simpl. rewrite Nat.sub_0_r. done.
  - rewrite <- (drop_app_le h [x]) by lia.
    rewrite drop_drop. f_equal. lia.
Qed.

Lemma last_n_short {A} n (h : list A) : len h <= n -> last_n n h = h.
Proof. intros H. unfold last_n. rewrite Z2Nat.nonpos by lia. done. Qed.

Lemma len_last_n {A} n (h : list A) : 0 <= n -> len (last_n n h) = Z.min n (len h).
Proof. intros Hn. unfold last_n, len. rewrite length_drop. lia. Qed.

(** [l] shows the end of the history [h], whose events are numbered from 0. *)
Record log_view (h : list SysEvent) (l : SysLog) : Prop := mk_log_view {
  view_events : events l = last_n MAX_SYSLOG_EVENTS h;
  view_next : next_id l = len h;
  view_ids : forall i e, h !! i = Some e -> ev_id e = Z.of_nat i }.

Lemma trim_last_n es n :
  syslog_trim_if_needed (mk_SysLog es n) = mk_SysLog (last_n MAX_SYSLOG_EVENTS es) n.
Proof.
  unfold syslog_trim_if_needed. simpl. destruct (Z.ltb_spec MAX_SYSLOG_EVENTS (len es)); [done|].
  by rewrite last_n_short.
Qed.

Lemma log_view_new : log_view [] SysLog_new.
Proof. split; [done|done|]. intros i e. by rewrite lookup_nil. Qed.

(** Appending an event with the next identifier extends the history. *)
Lemma log_view_push h l sender ts ty :
  log_view h l -> len h < 2 ^ 64 - 1 ->
  log_view (h ++ [mk_SysEvent (len h) sender ts ty])
    (syslog_trim_if_needed
       (mk_SysLog (events l ++ [mk_SysEvent (next_id l) sender ts ty]) (u64_add (next_id l) 1))).
Proof.
  intros [He Hn Hi] Hb. rewrite trim_last_n, He, Hn. split; simpl.
  - by rewrite last_n_snoc.
  - rewrite u64_add_small; unfold len in *; rewrite ?length_app; simpl; lia.
  - intros i e [H|[? H]]%lookup_app_Some; [eauto|].
    apply list_lookup_singleton_Some in H as [Hi0 <-]. simpl. unfold len. lia.
Qed.

(** A request and its response extend the history by two events. *)
Lemma log_view_frame h l sender num args ts res :
  log_view h l -> len h < 2 ^ 64 - 2 ->
  (log_request sender num args ts l).1 = len h /\
  log_view (h ++ [mk_SysEvent (len h) sender ts (Request num args);
                  mk_SysEvent (len h + 1) sender ts (Response (len h) res)])
    (log_response sender (len h) res ts (log_request sender num args ts l).2).
Proof.
  intros Hv Hn. split; [apply Hv|].
  pose proof (log_view_push h l sender ts (Request num args) Hv ltac:(lia)) as Hv1.
  pose proof (log_view_push _ _ sender ts (Response (len h) res) Hv1) as Hv2.
  rewrite <- app_assoc in Hv2. unfold len in *. rewrite length_app in Hv2. simpl length in Hv2.
  rewrite Nat2Z.inj_add in Hv2. apply Hv2. lia.
Qed.

(** * Commit log with its hash chain (crates/zos-axiom/src/commitlog.rs)

    Commits carry the FNV-1a hash of their contents and the hash of their
    predecessor. The file defines the log, the hash of [compute_hash] and the
    verification of the chain, and shows how the hash reacts to a change. *)

Inductive CommitType : Type :=
| Genesis
| ProcessCreated (pid parent : ProcessId) (name : string)
| ProcessExited (pid : ProcessId) (code : Z)
| ProcessFaulted (pid : ProcessId) (reason : Z) (description : string)
| CapInserted (pid : ProcessId) (slot : CapSlot) (cap_id object_type object_id perms : Z)
| CapRemoved (pid : ProcessId) (slot : CapSlot)
| CapGranted (from_pid to_pid : ProcessId) (from_slot to_slot : CapSlot) (new_cap_id : Z)
    (perms : Permissions)
| EndpointCreated (id : EndpointId) (owner : ProcessId)
| EndpointDestroyed (id : EndpointId)
| MessageSent (from_pid : ProcessId) (to_endpoint : EndpointId) (tag size : Z).

#[export] Instance CommitType_eq_dec : EqDecision CommitType.
Proof. solve_decision. Defined.

Record Commit : Type := mk_Commit {
  c_id : CommitId;
  c_prev_commit : CommitId;
  c_seq : Z;
  c_timestamp : Z;
  c_commit_type : CommitType;
  c_caused_by : option EventId }.

Definition MAX_COMMITLOG_ENTRIES : Z := 100000.

Record CommitLog : Type := mk_CommitLog {
  commits : list Commit;
  next_seq : Z;
  last_hash : CommitId }.

Definition zero32 : CommitId := replicate 32 x00.

(** ** FNV-1a *)
Definition FNV_OFFSET : Z := 0xcbf29ce484222325.
Definition FNV_PRIME : Z := 0x100000001b3.

(** [hash ^= byte as u64; hash = hash.wrapping_mul(FNV_PRIME)]. *)
Definition fnv_u8 (hash : Z) (b : Z) : Z := u64_mul (Z.lxor hash b) FNV_PRIME.

(** The loop over the bytes of a value. *)
Definition fnv_bytes (hash : Z) (bytes : list byte) : Z :=
  foldl (fun h b => fnv_u8 h (Z_of_byte b)) hash bytes.

(** The discriminant byte. *)
Definition type_byte (ct : CommitType) : Z :=
  match ct with
  | Genesis => 0
  | ProcessCreated _ _ _ => 1
  | ProcessExited _ _ => 2
  | ProcessFaulted _ _ _ => 3
  | CapInserted _ _ _ _ _ _ => 4
  | CapRemoved _ _ => 5
  | CapGranted _ _ _ _ _ _ => 6
  | EndpointCreated _ _ => 7
  | EndpointDestroyed _ => 8
  | MessageSent _ _ _ _ => 9
  end.

(** Hash of the type-specific data. *)
Definition hash_type_data (hash : Z) (ct : CommitType) : Z :=
  match ct with
  | Genesis => hash
  | ProcessCreated pid parent name =>
      let hash := fnv_bytes hash (u64_to_le_bytes pid) in
      let hash := fnv_bytes hash (u64_to_le_bytes parent) in
      fnv_bytes hash (str_bytes name)
  | ProcessExited pid code =>
      let hash := fnv_bytes hash (u64_to_le_bytes pid) in
      fnv_bytes hash (u32_to_le_bytes code)
  | CapInserted pid slot cap_id object_type object_id perms =>
      let hash := fnv_bytes hash (u64_to_le_bytes pid) in
      let hash := fnv_bytes hash (u32_to_le_bytes slot) in
      let hash := fnv_bytes hash (u64_to_le_bytes cap_id) in
      let hash := fnv_u8 hash object_type in
      let hash := fnv_bytes hash (u64_to_le_bytes object_id) in
      fnv_u8 hash perms
  | CapRemoved pid slot =>
      let hash := fnv_bytes hash (u64_to_le_bytes pid) in
      fnv_bytes hash (u32_to_le_bytes slot)
  | CapGranted from_pid to_pid from_slot to_slot new_cap_id perms =>
      let hash := fnv_bytes hash (u64_to_le_bytes from_pid) in
      let hash := fnv_bytes hash (u64_to_le_bytes to_pid) in
      let hash := fnv_bytes hash (u32_to_le_bytes from_slot) in
      let hash := fnv_bytes hash (u32_to_le_bytes to_slot) in
      let hash := fnv_bytes hash (u64_to_le_bytes new_cap_id) in
      fnv_u8 hash (to_byte perms)
  | EndpointCreated id owner =>
      let hash := fnv_bytes hash (u64_to_le_bytes id) in
      fnv_bytes hash (u64_to_le_bytes owner)
  | EndpointDestroyed id => fnv_bytes hash (u64_to_le_bytes id)
  | ProcessFaulted pid reason description =>
      let hash := fnv_bytes hash (u64_to_le_bytes pid) in
      let hash := fnv_bytes hash (u32_to_le_bytes reason) in
      fnv_bytes hash (str_bytes description)
  | MessageSent from_pid to_endpoint tag size =>
      let hash := fnv_bytes hash (u64_to_le_bytes from_pid) in
      let hash := fnv_bytes hash (u64_to_le_bytes to_endpoint) in
      let hash := fnv_bytes hash (u32_to_le_bytes tag) in
      fnv_bytes hash (u64_to_le_bytes size)
  end.

(** The [chunks_mut(8)] loop that fills [n] chunks. *)
Fixpoint expand_chunks (n : nat) (h : Z) : list byte :=
  match n with
  | O => []
  | S n' => u64_to_le_bytes h ++ expand_chunks n' (u64_mul h FNV_PRIME)
  end.

Definition compute_hash (commit : Commit) : CommitId :=
  let hash := FNV_OFFSET in
  let hash := fnv_bytes hash (c_prev_commit commit) in
  let hash := fnv_bytes hash (u64_to_le_bytes (c_seq commit)) in
  let hash := fnv_bytes hash (u64_to_le_bytes (c_timestamp commit)) in
  let hash := fnv_u8 hash (type_byte (c_commit_type commit)) in
  let hash := hash_type_data hash (c_commit_type commit) in
  expand_chunks 4 hash.

(** ** Operations *)
Definition set_c_id (id : CommitId) (c : Commit) : Commit :=
  mk_Commit id (c_prev_commit c) (c_seq c) (c_timestamp c) (c_commit_type c) (c_caused_by c).

Definition CommitLog_new (timestamp : Z) : CommitLog :=
  let genesis := mk_Commit zero32 zero32 0 timestamp Genesis None in
  let id := compute_hash genesis in
  mk_CommitLog [set_c_id id genesis] 1 id.

Definition commitlog_trim_if_needed (l : CommitLog) : CommitLog :=
  if MAX_COMMITLOG_ENTRIES <? len (commits l) then
    let drain_count := len (commits l) - MAX_COMMITLOG_ENTRIES in
    mk_CommitLog (drop (Z.to_nat drain_count) (commits l)) (next_seq l) (last_hash l)
  else l.

Definition append (commit_type : CommitType) (caused_by : option EventId) (timestamp : Z)
    (l : CommitLog) : CommitId * CommitLog :=
  let commit := mk_Commit zero32 (last_hash l) (next_seq l) timestamp commit_type caused_by in
  let id := compute_hash commit in
  let commit := set_c_id id commit in
  (id, commitlog_trim_if_needed
         (mk_CommitLog (commits l ++ [commit]) (u64_add (next_seq l) 1) id)).

Definition commitlog_get_range (l : CommitLog) (start_seq end_seq : Z) : list Commit :=
  List.filter (fun c => (start_seq <=? c_seq c) && (c_seq c <? end_seq)) (commits l).

Definition commitlog_get_recent (l : CommitLog) (count : Z) : list Commit :=
  take (Z.to_nat count) (reverse (commits l)).

Definition head (l : CommitLog) : CommitId := last_hash l.

Definition current_seq (l : CommitLog) : Z := sat_sub (next_seq l) 1.

Definition commitlog_len (l : CommitLog) : Z := len (commits l).

Definition commitlog_is_empty (l : CommitLog) : bool := len (commits l) =? 0.

(** The loop of [verify_integrity]: [None] for [return false], otherwise the
    final [expected_prev]. *)
Fixpoint verify_chain (expected_prev : CommitId) (cs : list Commit) : option CommitId :=
  match cs with
  | [] => Some expected_prev
  | commit :: rest =>
      if negb (bool_decide (c_prev_commit commit = expected_prev)) then None
      else if negb (bool_decide (compute_hash commit = c_id commit)) then None
      else verify_chain (c_id commit) rest
  end.

Definition verify_integrity (l : CommitLog) : bool :=
  match commits l with
  | [] => true
  | _ :: _ =>
      match verify_chain zero32 (commits l) with
      | None => false
      | Some expected_prev => bool_decide (expected_prev = last_hash l)
      end
  end.

(** ** The hash is a function of a byte string *)
Definition commit_type_bytes (ct : CommitType) : list byte :=
  match ct with
  | Genesis => []
  | ProcessCreated pid parent name =>
      u64_to_le_bytes pid ++ u64_to_le_bytes parent ++ str_bytes name
  | ProcessExited pid code => u64_to_le_bytes pid ++ u32_to_le_bytes code
  | ProcessFaulted pid reason d => u64_to_le_bytes pid ++ u32_to_le_bytes reason ++ str_bytes d
  | CapInserted pid slot cid ot oid perms =>
      u64_to_le_bytes pid ++ u32_to_le_bytes slot ++ u64_to_le_bytes cid ++ [byte_of_Z ot] ++
      u64_to_le_bytes oid ++ [byte_of_Z perms]
  | CapRemoved pid slot => u64_to_le_bytes pid ++ u32_to_le_bytes slot
  | CapGranted f t fs ts cid perms =>
      u64_to_le_bytes f ++ u64_to_le_bytes t ++ u32_to_le_bytes fs ++ u32_to_le_bytes ts ++
      u64_to_le_bytes cid ++ [byte_of_Z (to_byte perms)]
  | EndpointCreated id owner => u64_to_le_bytes id ++ u64_to_le_bytes owner
  | EndpointDestroyed id => u64_to_le_bytes id
  | MessageSent f e tag size =>
      u64_to_le_bytes f ++ u64_to_le_bytes e ++ u32_to_le_bytes tag ++ u64_to_le_bytes size
  end.

Definition commit_bytes (c : Commit) : list byte :=
  c_prev_commit c ++ u64_to_le_bytes (c_seq c) ++ u64_to_le_bytes (c_timestamp c) ++
  [byte_of_Z (type_byte (c_commit_type c))] ++ commit_type_bytes (c_commit_type c).

(** The [u8] fields of a commit are bytes. *)
Definition commit_type_ok (ct : CommitType) : Prop :=
  match ct with
  | CapInserted _ _ _ ot _ perms => 0 <= ot < 256 /\ 0 <= perms < 256
  | _ => True
  end.

Lemma fnv_bytes_app h l1 l2 : fnv_bytes h (l1 ++ l2) = fnv_bytes (fnv_bytes h l1) l2.
Proof. apply foldl_app. Qed.

Lemma fnv_bytes_single h z : 0 <= z < 256 -> fnv_bytes h [byte_of_Z z] = fnv_u8 h z.
Proof. intros H. unfold fnv_bytes. simpl. by rewrite Z_of_byte_of_Z, Z.mod_small. Qed.

Lemma type_byte_range ct : 0 <= type_byte ct < 256.
Proof. by destruct ct. Qed.

Lemma hash_type_data_bytes h ct :
  commit_type_ok ct -> hash_type_data h ct = fnv_bytes h (commit_type_bytes ct).
Proof.
  destruct ct; cbn [hash_type_data commit_type_bytes commit_type_ok]; intros Hok;
    rewrite ?fnv_bytes_app; try done.
  - by rewrite (fnv_bytes_single _ object_type), (fnv_bytes_single _ perms) by tauto.
  - pose proof (to_byte_range perms). by rewrite fnv_bytes_single by lia.
Qed.

Lemma compute_hash_bytes c :
  commit_type_ok (c_commit_type c) ->
  compute_hash c = expand_chunks 4 (fnv_bytes FNV_OFFSET (commit_bytes c)).
Proof.
  intros Hok. unfold compute_hash, commit_bytes.
  rewrite hash_type_data_bytes by done.
  by rewrite !fnv_bytes_app, fnv_bytes_single by apply type_byte_range.
Qed.

(** ** Sensitivity of the hash: both steps of FNV-1a are invertible *)
Definition FNV_INV : Z := 14886173955864302971.

Lemma fnv_prime_inv : (FNV_PRIME * FNV_INV) mod 2 ^ 64 = 1.
Proof. vm_compute. reflexivity. Qed.

Lemma u64_mul_prime_inv x : 0 <= x < 2 ^ 64 -> u64_mul (u64_mul x FNV_PRIME) FNV_INV = x.
Proof.
  intros Hx. unfold u64_mul, wrap_u64. rewrite Zmult_mod_idemp_l, <- Z.mul_assoc.
  rewrite <- Zmult_mod_idemp_r, fnv_prime_inv, Z.mul_1_r. by apply Z.mod_small.
Qed.

Lemma lxor_range a b : 0 <= a < 2 ^ 64 -> 0 <= b < 2 ^ 64 -> 0 <= Z.lxor a b < 2 ^ 64.
Proof.
  intros Ha Hb. assert (0 <= Z.lxor a b) as H0 by (apply Z.lxor_nonneg; lia).
  split; [done|]. apply Z.bounded_iff_bits_nonneg; [lia|done|]. intros l Hl.
  rewrite Z.lxor_spec, (proj1 (Z.bounded_iff_bits_nonneg 64 a ltac:(lia) ltac:(lia))) by lia.
  by rewrite (proj1 (Z.bounded_iff_bits_nonneg 64 b ltac:(lia) ltac:(lia))) by lia.
Qed.

Lemma fnv_u8_range h b : 0 <= fnv_u8 h b < 2 ^ 64.
Proof. apply wrap_u64_range. Qed.

Lemma fnv_u8_lxor_inj x y :
  0 <= x < 2 ^ 64 -> 0 <= y < 2 ^ 64 -> u64_mul x FNV_PRIME = u64_mul y FNV_PRIME -> x = y.
Proof. intros Hx Hy H. rewrite <- (u64_mul_prime_inv x), H by done. by apply u64_mul_prime_inv. Qed.

Lemma lxor_cancel a b c : Z.lxor a b = Z.lxor a c -> b = c.
Proof.
  intros H. rewrite <- (Z.lxor_0_l b), <- (Z.lxor_0_l c), <- (Z.lxor_nilpotent a).
  by rewrite !Z.lxor_assoc, H.
Qed.

Lemma fnv_u8_inj_byte h b1 b2 :
  0 <= h < 2 ^ 64 -> fnv_u8 h (Z_of_byte b1) = fnv_u8 h (Z_of_byte b2) -> b1 = b2.
Proof.
  intros Hh H. pose proof (Z_of_byte_range b1). pose proof (Z_of_byte_range b2).
  apply Z_of_byte_inj, (lxor_cancel h), fnv_u8_lxor_inj; try apply lxor_range; try lia; done.
Qed.

Lemma fnv_u8_inj_state h1 h2 b :
  0 <= h1 < 2 ^ 64 -> 0 <= h2 < 2 ^ 64 ->
  fnv_u8 h1 (Z_of_byte b) = fnv_u8 h2 (Z_of_byte b) -> h1 = h2.
Proof.
  intros H1 H2 H. pose proof (Z_of_byte_range b).
  apply (lxor_cancel (Z_of_byte b)). rewrite !(Z.lxor_comm (Z_of_byte b)).
  apply fnv_u8_lxor_inj; try apply lxor_range; try lia; done.
Qed.

Lemma fnv_bytes_range h l : 0 <= h < 2 ^ 64 -> 0 <= fnv_bytes h l < 2 ^ 64.
Proof.
  revert h. induction l as [|b l IH]; intros h Hh; [done|].
  apply IH. apply fnv_u8_range.
Qed.

Lemma fnv_bytes_inj_state l h1 h2 :
  0 <= h1 < 2 ^ 64 -> 0 <= h2 < 2 ^ 64 -> fnv_bytes h1 l = fnv_bytes h2 l -> h1 = h2.
Proof.
  revert h1 h2. induction l as [|b l IH]; intros h1 h2 H1 H2 H; [done|].
  apply (fnv_u8_inj_state _ _ b); [done|done|].
  apply IH; [apply fnv_u8_range|apply fnv_u8_range|exact H].
Qed.

(** Replacing one byte always changes the hash. *)
Lemma fnv_bytes_one_byte h l1 b1 b2 l2 :
  0 <= h < 2 ^ 64 -> b1 <> b2 -> fnv_bytes h (l1 ++ b1 :: l2) <> fnv_bytes h (l1 ++ b2 :: l2).
Proof.
  intros Hh Hb H. rewrite !fnv_bytes_app in H. simpl in H.
  pose proof (fnv_bytes_range h l1 Hh).
  apply fnv_bytes_inj_state in H; try apply fnv_u8_range.
  apply fnv_u8_inj_byte in H; done.
Qed.

Lemma expand_chunks_inj n h1 h2 :
  0 <= h1 < 2 ^ 64 -> 0 <= h2 < 2 ^ 64 ->
  expand_chunks (S n) h1 = expand_chunks (S n) h2 -> h1 = h2.
Proof.
  intros H1 H2 H. cbn [expand_chunks] in H. apply app_inj_1 in H as [H _].
  - by apply (to_le_bytes_inj 8) in H.
  - unfold u64_to_le_bytes. by rewrite !length_to_le_bytes.
Qed.

Lemma compute_hash_one_byte c c' x y b b' :
  commit_type_ok (c_commit_type c) -> commit_type_ok (c_commit_type c') ->
  commit_bytes c = x ++ b :: y -> commit_bytes c' = x ++ b' :: y -> b <> b' ->
  compute_hash c' <> compute_hash c.
Proof.
  intros Hok Hok' Hc Hc' Hb H. rewrite !compute_hash_bytes, Hc, Hc' in H by done.
  apply expand_chunks_inj in H; try (by apply fnv_bytes_range).
  by apply fnv_bytes_one_byte in H.
Qed.

(** ** The chain *)
Lemma verify_chain_app e cs1 cs2 :
  verify_chain e (cs1 ++ cs2) = p ← verify_chain e cs1; verify_chain p cs2.
Proof.
  revert e. induction cs1 as [|c cs1 IH]; intros e; simpl; [done|].
  by repeat case_bool_decide; simpl.
Qed.

Lemma verify_chain_cons e c cs p :
  verify_chain e (c :: cs) = Some p <->
  c_prev_commit c = e /\ compute_hash c = c_id c /\ verify_chain (c_id c) cs = Some p.
Proof. simpl. repeat case_bool_decide; simpl; naive_solver. Qed.

Lemma verify_integrity_chain l :
  commits l <> [] ->
  verify_integrity l = true <-> verify_chain zero32 (commits l) = Some (last_hash l).
Proof.
  unfold verify_integrity. destruct (commits l) as [|c cs]; [done|]. intros _.
  destruct (verify_chain zero32 (c :: cs)) as [p|]; [|done].
  rewrite bool_decide_eq_true. naive_solver.
Qed.

Lemma commitlog_trim_last_n cs n h :
  commitlog_trim_if_needed (mk_CommitLog cs n h) =
  mk_CommitLog (last_n MAX_COMMITLOG_ENTRIES cs) n h.
Proof.
  unfold commitlog_trim_if_needed. simpl.
  destruct (Z.ltb_spec MAX_COMMITLOG_ENTRIES (len cs)); [done|]. by rewrite last_n_short.
Qed.

(** The commit [append] adds. *)
Definition appended (l : CommitLog) (ct : CommitType) (caused_by : option EventId) (ts : Z)
  : Commit :=
  let c := mk_Commit zero32 (last_hash l) (next_seq l) ts ct caused_by in
  set_c_id (compute_hash c) c.

Lemma append_commits l ct cb ts :
  commits (append ct cb ts l).2 = last_n MAX_COMMITLOG_ENTRIES (commits l ++ [appended l ct cb ts]).
Proof. unfold append. by rewrite commitlog_trim_last_n. Qed.

Lemma append_last_hash l ct cb ts :
  last_hash (append ct cb ts l).2 = c_id (appended l ct cb ts).
Proof. unfold append. by rewrite commitlog_trim_last_n. Qed.

Lemma append_next_seq l ct cb ts : next_seq (append ct cb ts l).2 = u64_add (next_seq l) 1.
Proof. unfold append. by rewrite commitlog_trim_last_n. Qed.

Lemma verify_chain_append l ct cb ts :
  verify_chain zero32 (commits l) = Some (last_hash l) ->
  verify_chain zero32 (commits l ++ [appended l ct cb ts]) = Some (c_id (appended l ct cb ts)).
Proof.
  intros H. rewrite verify_chain_app, H. simpl. by rewrite !bool_decide_eq_true_2.
Qed.

(** An untrimmed append keeps the chain intact. *)
Lemma append_integrity l ct cb ts :
  len (commits l) < MAX_COMMITLOG_ENTRIES -> commits l <> [] -> verify_integrity l = true ->
  verify_integrity (append ct cb ts l).2 = true /\
  commits (append ct cb ts l).2 = commits l ++ [appended l ct cb ts].
Proof.
  intros Hlen Hne Hv. apply verify_integrity_chain in Hv; [|done].
  assert (commits (append ct cb ts l).2 = commits l ++ [appended l ct cb ts]) as Hc.
  { rewrite append_commits. apply last_n_short. unfold len in *. rewrite length_app. simpl. lia. }
  split; [|done]. apply verify_integrity_chain; rewrite Hc; [by destruct (commits l)|].
  rewrite append_last_hash. by apply verify_chain_append.
Qed.

(** ** Whole histories *)
Abbreviation entry := (CommitType * option EventId * Z)%type (only parsing).

Definition appends (ops : list entry) (l : CommitLog) : CommitLog :=
  foldl (fun l '(ct, cb, ts) => (append ct cb ts l).2) l ops.

Definition entry_of (c : Commit) : entry := (c_commit_type c, c_caused_by c, c_timestamp c).

(** [l] holds exactly the entries [es], in order, in an intact chain. *)
Record commit_history (es : list entry) (l : CommitLog) : Prop := mk_commit_history {
  hist_nonempty : commits l <> [];
  hist_entries : entry_of <$> commits l = es;
  hist_seq : forall i c, commits l !! i = Some c -> c_seq c = Z.of_nat i;
  hist_next : next_seq l = len (commits l);
  hist_integrity : verify_integrity l = true }.

Lemma commit_history_new ts : commit_history [(Genesis, None, ts)] (CommitLog_new ts).
Proof.
  split; try done.
  - intros [|i] c; simpl; [by intros [= <-]|by rewrite lookup_nil].
  - apply verify_integrity_chain; [done|]. apply verify_chain_cons. done.
Qed.

Lemma commit_history_append es l ct cb ts :
  commit_history es l -> len es < MAX_COMMITLOG_ENTRIES ->
  commit_history (es ++ [(ct, cb, ts)]) (append ct cb ts l).2.
Proof.
  intros [Hne He Hs Hn Hv] Hl.
  assert (len (commits l) < MAX_COMMITLOG_ENTRIES) as Hl'
    by (rewrite <- He in Hl; unfold len in *; by rewrite length_fmap in Hl).
  destruct (append_integrity l ct cb ts Hl' Hne Hv) as [Hv' Hc].
  split; rewrite ?Hc; try done.
  - by destruct (commits l).
  - by rewrite fmap_app, He.
  - intros i c [H|[? H]]%lookup_app_Some; [eauto|].
    apply list_lookup_singleton_Some in H as [Hi <-]. simpl. rewrite Hn. unfold len. lia.
  - rewrite append_next_seq, Hn. unfold MAX_COMMITLOG_ENTRIES, len in *.
    rewrite length_app. cbn [length]. rewrite u64_add_small; lia.
Qed.

Lemma commit_history_appends es ops l :
  commit_history es l -> len es + len ops <= MAX_COMMITLOG_ENTRIES ->
  commit_history (es ++ ops) (appends ops l).
Proof.
  revert es l. induction ops as [|[[ct cb] ts] ops IH]; intros es l H Hl; unfold len in *; simpl in *.
  - by rewrite app_nil_r.
  - rewrite (cons_middle (ct, cb, ts)), app_assoc. apply IH.
    + apply commit_history_append; [done|]. unfold len. lia.
    + rewrite length_app. simpl. lia.
Qed.
