(* ===== verification/Gateway.v ===== *)
(** * Axiom gateway (crates/zos-axiom/src/gateway.rs)

    The gateway owns the audit log and the commit log and frames every syscall
    with a request and a response event. *)
From S2P Require Import Prelude AxiomTypes CommitLog.

Record AxiomGateway : Type := mk_AxiomGateway {
  syslog : SysLog;
  commitlog : CommitLog }.

Definition AxiomGateway_new (timestamp : Z) : AxiomGateway :=
  mk_AxiomGateway SysLog_new (CommitLog_new timestamp).

(** [commit_types.into_iter().map(|ct| commitlog.append(ct, Some(request_id), timestamp))]. *)
Fixpoint append_all (cts : list CommitType) (request_id : EventId) (timestamp : Z)
    (l : CommitLog) : list CommitId * CommitLog :=
  match cts with
  | [] => ([], l)
  | ct :: rest =>
      let '(id, l) := append ct (Some request_id) timestamp l in
      let '(ids, l) := append_all rest request_id timestamp l in
      (id :: ids, l)
  end.

(** [syscall] with a kernel function that captures a state of type [K]. *)
Definition syscall {K : Type} (sender : ProcessId) (syscall_num : Z) (args : args4)
    (timestamp : Z) (kernel_fn : K -> Z -> args4 -> (Z * list CommitType) * K)
    (g : AxiomGateway) (k : K) : (Z * list CommitId) * AxiomGateway * K :=
  let '(request_id, sl) := log_request sender syscall_num args timestamp (syslog g) in
  let '((res, commit_types), k) := kernel_fn k syscall_num args in
  let '(commit_ids, cl) := append_all commit_types request_id timestamp (commitlog g) in
  let sl := log_response sender request_id res timestamp sl in
  ((res, commit_ids), mk_AxiomGateway sl cl, k).

Definition append_internal_commit (commit_type : CommitType) (timestamp : Z) (g : AxiomGateway)
  : CommitId * AxiomGateway :=
  let '(id, cl) := append commit_type None timestamp (commitlog g) in
  (id, mk_AxiomGateway (syslog g) cl).

Definition gateway_verify_integrity (g : AxiomGateway) : bool := verify_integrity (commitlog g).

Record GatewayState : Type := mk_GatewayState {
  gs_syslog_len : Z;
  gs_syslog_next_id : Z;
  gs_commitlog_len : Z;
  gs_commitlog_seq : Z;
  gs_commitlog_head : CommitId }.

Definition state_summary (g : AxiomGateway) : GatewayState :=
  mk_GatewayState (syslog_len (syslog g)) (next_id (syslog g)) (commitlog_len (commitlog g))
    (current_seq (commitlog g)) (head (commitlog g)).

(** ** The gateway against its two histories *)
Record gateway_view (audit : list SysEvent) (es : list entry) (g : AxiomGateway) : Prop := {
  gv_syslog : log_view audit (syslog g);
  gv_commits : commit_history es (commitlog g) }.

Lemma append_all_appends cts rid ts l :
  (append_all cts rid ts l).2 = appends ((fun ct => (ct, Some rid, ts)) <$> cts) l.
Proof.
  revert l. induction cts as [|ct cts IH]; intros l; [done|]. cbn [append_all fmap list_fmap].
  unfold appends. cbn [foldl]. destruct (append ct (Some rid) ts l) as [id l1] eqn:E.
  specialize (IH l1). destruct (append_all cts rid ts l1). simpl in *. done.
Qed.

Lemma length_append_all cts rid ts l : length (append_all cts rid ts l).1 = length cts.
Proof.
  revert l. induction cts as [|ct cts IH]; intros l; [done|]. cbn [append_all].
  destruct (append ct (Some rid) ts l) as [id l1]. specialize (IH l1).
  destruct (append_all cts rid ts l1). simpl in *. by rewrite IH.
Qed.

Lemma gateway_view_new ts : gateway_view [] [(Genesis, None, ts)] (AxiomGateway_new ts).
Proof. split; [apply log_view_new|apply commit_history_new]. Qed.

Section syscall_view.
Context {K : Type} (kernel_fn : K -> Z -> args4 -> (Z * list CommitType) * K).

(** One framed syscall extends the audit history by its request and its
    response and the commit history by the kernel function's commits. *)
Lemma syscall_view audit es g k sender num args ts :
  let out := kernel_fn k num args in
  let rid := len audit in
  gateway_view audit es g -> len audit < 2 ^ 64 - 2 ->
  len es + len out.1.2 <= MAX_COMMITLOG_ENTRIES ->
  exists ids g',
    syscall sender num args ts kernel_fn g k = ((out.1.1, ids), g', out.2) /\
    length ids = length out.1.2 /\
    gateway_view
      (audit ++ [mk_SysEvent rid sender ts (Request num args);
                 mk_SysEvent (rid + 1) sender ts (Response rid out.1.1)])
      (es ++ ((fun ct => (ct, Some rid, ts)) <$> out.1.2)) g'.
Proof.
  intros out rid [Hs Hc] Hn Hlen. unfold syscall.
  destruct (log_view_frame audit (syslog g) sender num args ts out.1.1 Hs Hn) as [Hid Hs'].
  destruct (log_request sender num args ts (syslog g)) as [id sl]. simpl in Hid, Hs'. subst id.
  fold out. destruct out as [[res cts] k'] eqn:Hout. simpl in *.
  pose proof (append_all_appends cts rid ts (commitlog g)) as Ha.
  pose proof (length_append_all cts rid ts (commitlog g)) as Hl.
  fold rid. destruct (append_all cts rid ts (commitlog g)) as [ids cl]. simpl in Ha, Hl. subst cl.
  eexists ids, _. split_and!; [done|done|]. split; simpl; [done|].
  apply commit_history_appends; [done|]. unfold len in *. by rewrite length_fmap.
Qed.
End syscall_view.

(** * Deterministic replay (crates/zos-axiom/src/replay.rs)

    The [Replayable] trait is a type class whose methods thread the replayed
    state; an error leaves the state its method left. *)

Inductive ReplayError : Type :=
| InvalidCommit (msg : string)
| RE_ProcessNotFound (pid : ProcessId)
| RE_EndpointNotFound (id : EndpointId)
| CapabilityError (msg : string)
| HashMismatch (expected actual : list byte)
| UnknownObjectType (t : Z).

(** [&mut self -> ReplayResult<()>]. *)
Abbreviation ReplayM R := (R -> result unit ReplayError * R) (only parsing).

Class Replayable (R : Type) : Type := {
  replay_genesis : ReplayM R;
  replay_create_process : ProcessId -> ProcessId -> string -> ReplayM R;
  replay_exit_process : ProcessId -> Z -> ReplayM R;
  replay_process_faulted : ProcessId -> Z -> string -> ReplayM R;
  replay_insert_capability : ProcessId -> CapSlot -> Z -> Z -> Z -> Z -> ReplayM R;
  replay_remove_capability : ProcessId -> CapSlot -> ReplayM R;
  replay_cap_granted :
    ProcessId -> ProcessId -> CapSlot -> CapSlot -> Z -> Permissions -> ReplayM R;
  replay_create_endpoint : EndpointId -> ProcessId -> ReplayM R;
  replay_destroy_endpoint : EndpointId -> ReplayM R;
  replay_message_sent : ProcessId -> EndpointId -> Z -> Z -> ReplayM R;
  state_hash : R -> list byte }.

Section replay.
Context {R : Type} `{Replayable R}.

Definition apply_commit (commit : Commit) : ReplayM R :=
  match c_commit_type commit with
  | Genesis => replay_genesis
  | ProcessCreated pid parent name => replay_create_process pid parent name
  | ProcessExited pid code => replay_exit_process pid code
  | ProcessFaulted pid reason description => replay_process_faulted pid reason description
  | CapInserted pid slot cap_id object_type object_id perms =>
      replay_insert_capability pid slot cap_id object_type object_id perms
  | CapRemoved pid slot => replay_remove_capability pid slot
  | CapGranted from_pid to_pid from_slot to_slot new_cap_id perms =>
      replay_cap_granted from_pid to_pid from_slot to_slot new_cap_id perms
  | EndpointCreated id owner => replay_create_endpoint id owner
  | EndpointDestroyed id => replay_destroy_endpoint id
  | MessageSent from_pid to_endpoint tag size => replay_message_sent from_pid to_endpoint tag size
  end.

Fixpoint replay (commits : list Commit) (state : R) : result unit ReplayError * R :=
  match commits with
  | [] => (Ok tt, state)
  | commit :: rest =>
      match apply_commit commit state with
      | (Ok _, state) => replay rest state
      | (Err e, state) => (Err e, state)
      end
  end.

Definition replay_and_verify (commits : list Commit) (expected_hash : list byte) (state : R)
  : result unit ReplayError * R :=
  match replay commits state with
  | (Err e, state) => (Err e, state)
  | (Ok _, state) =>
      let actual_hash := state_hash state in
      if negb (bool_decide (actual_hash = expected_hash))
      then (Err (HashMismatch expected_hash actual_hash), state)
      else (Ok tt, state)
  end.

Lemma replay_app cs1 cs2 s :
  replay (cs1 ++ cs2) s =
  match replay cs1 s with (Ok _, s1) => replay cs2 s1 | (Err e, s1) => (Err e, s1) end.
Proof.
  revert s. induction cs1 as [|c cs1 IH]; intros s; simpl; [done|].
  destruct (apply_commit c s) as [[u|e] s1]; [apply IH|done].
Qed.

(** Replaying depends on the commit types only. *)
Lemma replay_types cs1 cs2 s :
  c_commit_type <$> cs1 = c_commit_type <$> cs2 -> replay cs1 s = replay cs2 s.
Proof.
  revert cs2 s. induction cs1 as [|c1 cs1 IH]; intros [|c2 cs2] s Heq; try done.
  simpl in Heq. injection Heq as Hc Hrest. simpl. unfold apply_commit. rewrite Hc.
  destruct (match c_commit_type c2 with Genesis => _ | _ => _ end s) as [[u|e] s1]; [|done].
  by apply IH.
Qed.
End replay.

(** ** The state hasher *)
Record StateHasher : Type := mk_StateHasher { sh_hash : Z }.

Definition StateHasher_new : StateHasher := mk_StateHasher FNV_OFFSET.

Definition write_u8 (v : Z) (h : StateHasher) : StateHasher :=
  mk_StateHasher (u64_mul (Z.lxor (sh_hash h) v) FNV_PRIME).

Definition write_all (bytes : list byte) (h : StateHasher) : StateHasher :=
  foldl (fun h b => write_u8 (Z_of_byte b) h) h bytes.

Definition write_u32 (v : Z) (h : StateHasher) : StateHasher := write_all (u32_to_le_bytes v) h.

Definition write_u64 (v : Z) (h : StateHasher) : StateHasher := write_all (u64_to_le_bytes v) h.

Definition write_str (s : string) (h : StateHasher) : StateHasher :=
  write_all (str_bytes s) (write_u64 (str_len s) h).

Definition write_bytes (bytes : list byte) (h : StateHasher) : StateHasher :=
  write_all bytes (write_u64 (len bytes) h).

Definition finalize (h : StateHasher) : list byte := expand_chunks 4 (sh_hash h).

Lemma write_all_fnv bytes h : sh_hash (write_all bytes h) = fnv_bytes (sh_hash h) bytes.
Proof.
  revert h. induction bytes as [|b l IH]; intros h; [done|].
  exact (IH (write_u8 (Z_of_byte b) h)).
Qed.

Lemma length_expand_chunks n h : length (expand_chunks n h) = (8 * n)%nat.
Proof.
  revert h. induction n as [|n IH]; intros h; [done|]. cbn [expand_chunks].
  rewrite length_app, IH. unfold u64_to_le_bytes. rewrite length_to_le_bytes. lia.
Qed.
