(* ===== verification/AxiomProps.v ===== *)
(** * Theorems about the Axiom layer

    The audit trail, the commit chain and its limits, tamper detection, and
    the agreement of the Axiom capability check with the one of the pure
    kernel core. *)
From S2P Require Import Prelude AxiomTypes CommitLog Gateway.
From S2P Require Import CoreTypes.

(** ** Audit trail *)

(** A request made through the gateway. *)
Record request : Type := mk_request {
  rq_sender : ProcessId; rq_num : Z; rq_args : args4; rq_time : Z }.

Section gateway_runs.
Context {K : Type} (kernel_fn : K -> Z -> args4 -> (Z * list CommitType) * K).

(** The gateway and the kernel after a sequence of requests. *)
Definition serve (rqs : list request) (g : AxiomGateway) (k : K) : AxiomGateway * K :=
  foldl (fun '(g, k) rq =>
    let '(_, g, k) := syscall (rq_sender rq) (rq_num rq) (rq_args rq) (rq_time rq) kernel_fn g k in
    (g, k)) (g, k) rqs.

(** The events and commits these requests should leave, numbered from [n]. *)
Fixpoint trail (n : Z) (rqs : list request) (k : K) : list SysEvent * list entry :=
  match rqs with
  | [] => ([], [])
  | rq :: rest =>
      let '((res, cts), k) := kernel_fn k (rq_num rq) (rq_args rq) in
      let '(evs, es) := trail (n + 2) rest k in
      (mk_SysEvent n (rq_sender rq) (rq_time rq) (Request (rq_num rq) (rq_args rq)) ::
       mk_SysEvent (n + 1) (rq_sender rq) (rq_time rq) (Response n res) :: evs,
       ((fun ct => (ct, Some n, rq_time rq)) <$> cts) ++ es)
  end.

Lemma serve_view rqs audit es g k :
  gateway_view audit es g ->
  len audit + 2 * len rqs < 2 ^ 64 ->
  len es + len (trail (len audit) rqs k).2 <= MAX_COMMITLOG_ENTRIES ->
  gateway_view (audit ++ (trail (len audit) rqs k).1) (es ++ (trail (len audit) rqs k).2)
    (serve rqs g k).1.
Proof.
  revert audit es g k. induction rqs as [|rq rqs IH]; intros audit es g k Hv Hn Hl.
  { simpl. by rewrite !app_nil_r. }
  unfold serve. cbn [foldl trail] in *.
  destruct (kernel_fn k (rq_num rq) (rq_args rq)) as [[res cts] k'] eqn:Hk.
  destruct (trail (len audit + 2) rqs k') as [evs es'] eqn:Ht. cbn [snd fst] in *.
  assert (len (cts : list CommitType) + len es + len es' <= MAX_COMMITLOG_ENTRIES) as Hl'.
  { unfold len in *. rewrite length_app, length_fmap in Hl. lia. }
  destruct (syscall_view kernel_fn audit es g k (rq_sender rq) (rq_num rq) (rq_args rq) (rq_time rq))
    as (ids & g' & Hs & _ & Hv'); [done|unfold len in *; simpl in *; lia| |].
  { rewrite Hk. simpl. unfold len in *. lia. }
  rewrite Hk in Hs, Hv'. cbn [snd fst] in Hs, Hv'. rewrite Hs.
  assert (len (audit ++ [mk_SysEvent (len audit) (rq_sender rq) (rq_time rq)
    (Request (rq_num rq) (rq_args rq)); mk_SysEvent (len audit + 1) (rq_sender rq) (rq_time rq)
    (Response (len audit) res)]) = len audit + 2) as Hlen
    by (unfold len; rewrite length_app; simpl; lia).
  specialize (IH _ _ g' k' Hv'). rewrite Hlen, Ht in IH. cbn [snd fst] in IH.
  rewrite <- !app_assoc in IH. apply IH.
  - unfold len in *. simpl in Hn. lia.
  - unfold len in *. rewrite length_app, length_fmap. lia.
Qed.
End gateway_runs.

(** The audit trail is complete. After any sequence of syscalls served by
    the gateway from boot, with any kernel function, the audit log is the last
    10000 events of the trail in which every syscall has, in order, its
    request and a response naming that request; the commit log is the genesis
    followed by every commit the kernel produced, in order and attributed to
    its request, in an intact hash chain. *)
Theorem gateway_audit {K : Type} (kernel_fn : K -> Z -> args4 -> (Z * list CommitType) * K)
    (rqs : list request) (k : K) (boot : Z) :
  2 * len rqs < 2 ^ 64 ->
  1 + len (trail kernel_fn 0 rqs k).2 <= MAX_COMMITLOG_ENTRIES ->
  let g := (serve kernel_fn rqs (AxiomGateway_new boot) k).1 in
  events (syslog g) = last_n MAX_SYSLOG_EVENTS (trail kernel_fn 0 rqs k).1 /\
  entry_of <$> commits (commitlog g) = (Genesis, None, boot) :: (trail kernel_fn 0 rqs k).2 /\
  gateway_verify_integrity g = true.
Proof.
  intros Hn Hl g. destruct (serve_view kernel_fn rqs _ _ _ k (gateway_view_new boot)) as [Hs Hc];
    [exact Hn|exact Hl|].
  split_and!; [apply Hs|apply Hc|apply Hc].
Qed.

Lemma gateway_audit_witness :
  let kfn := fun (k num : Z) (_ : args4) => ((num, [EndpointCreated k 1]), k + 1) in
  let g := (serve kfn [mk_request 1 7 (0, 0, 0, 0) 5] (AxiomGateway_new 3) 9).1 in
  events (syslog g) =
    [mk_SysEvent 0 1 5 (Request 7 (0, 0, 0, 0)); mk_SysEvent 1 1 5 (Response 0 7)] /\
  entry_of <$> commits (commitlog g) = [(Genesis, None, 3); (EndpointCreated 9 1, Some 0, 5)].
Proof.
  intros kfn g.
  destruct (gateway_audit kfn [mk_request 1 7 (0, 0, 0, 0) 5] 9 3) as (H1 & H2 & _);
    [vm_compute; reflexivity|vm_compute; discriminate|].
  split; [exact H1|exact H2].
Defined.

(** ** The commit chain *)

(** A commit log with room verifies. Starting from genesis, any sequence
    of fewer than 100000 appends gives a log whose hash chain verifies, whose
    entries are the genesis and the appended ones in order, and whose sequence
    numbers are the positions. *)
Theorem commitlog_faithful ts ops :
  len ops < MAX_COMMITLOG_ENTRIES ->
  let l := appends ops (CommitLog_new ts) in
  verify_integrity l = true /\ entry_of <$> commits l = (Genesis, None, ts) :: ops /\
  (forall i c, commits l !! i = Some c -> c_seq c = Z.of_nat i) /\
  current_seq l = len ops.
Proof.
  intros Hl l. destruct (commit_history_appends _ ops _ (commit_history_new ts)) as [_ He Hs Hn Hv].
  { unfold len in *. simpl. lia. }
  split_and!; try done. unfold current_seq, sat_sub. fold l in Hn, He. rewrite Hn.
  apply (f_equal length) in He. rewrite length_fmap in He. unfold len. rewrite He. simpl. lia.
Qed.

Lemma commitlog_faithful_witness :
  verify_integrity (appends [(EndpointCreated 1 2, Some 0, 5); (CapRemoved 1 0, None, 6)]
    (CommitLog_new 0)) = true.
Proof.
  apply (commitlog_faithful 0 [(EndpointCreated 1 2, Some 0, 5); (CapRemoved 1 0, None, 6)]).
  vm_compute. reflexivity.
Defined.

Lemma last_n_tail {A} n (x : A) h y :
  len (x :: h) = n -> last_n n ((x :: h) ++ [y]) = h ++ [y].
Proof.
  intros H. unfold last_n, len in *. rewrite length_app. simpl length in *.
  replace (Z.to_nat _) with 1%nat by lia. done.
Qed.

(** The append that overflows the log breaks its own verification. When a
    verified log is full, the next append drops its first commit, after which
    the chain no longer starts from the zero hash: verification fails although
    nothing was tampered with. *)
Theorem trim_breaks_integrity l c cs ct cb ts :
  commits l = c :: cs -> cs <> [] -> len (commits l) = MAX_COMMITLOG_ENTRIES ->
  verify_integrity l = true -> c_id c <> zero32 ->
  verify_integrity (append ct cb ts l).2 = false.
Proof.
  intros Hc Hne Hl Hv Hid. apply verify_integrity_chain in Hv; [|by rewrite Hc].
  rewrite Hc in Hv. apply verify_chain_cons in Hv as (_ & _ & Hv).
  apply not_true_iff_false. intros Hv'.
  assert (commits (append ct cb ts l).2 = cs ++ [appended l ct cb ts]) as Hcs.
  { rewrite append_commits, Hc. apply last_n_tail. by rewrite <- Hc. }
  apply verify_integrity_chain in Hv'; [|rewrite Hcs; by destruct cs].
  rewrite Hcs in Hv'. destruct cs as [|c1 cs]; [done|].
  apply verify_chain_cons in Hv' as (H1 & _). apply verify_chain_cons in Hv as (H2 & _).
  congruence.
Qed.

(** A log filled by [n] equal appends. *)
Lemma full_log n :
  Z.of_nat n = 99999 ->
  let l := appends (replicate n (EndpointDestroyed 1, None, 0)) (CommitLog_new 0) in
  len (commits l) = MAX_COMMITLOG_ENTRIES /\ verify_integrity l = true /\
  exists c cs, commits l = c :: cs /\ cs <> [] /\ c_id c <> zero32.
Proof.
  intros Hn l. destruct (commit_history_appends _ (replicate n
    (EndpointDestroyed 1, None, 0)) _ (commit_history_new 0)) as [_ He Hs _ Hv].
  { unfold len, MAX_COMMITLOG_ENTRIES. rewrite length_replicate. simpl length. lia. }
  fold l in He, Hs, Hv. clearbody l. split_and!; [|done|].
  - apply (f_equal length) in He. rewrite length_fmap, length_app, length_replicate in He.
    unfold len. rewrite He. unfold MAX_COMMITLOG_ENTRIES. simpl length. lia.
  - destruct l as [cms nx lh]. simpl in He, Hs, Hv |- *. destruct cms as [|c cs]; [done|].
    exists c, cs. apply verify_integrity_chain in Hv; [|done].
    apply verify_chain_cons in Hv as (Hp & Hid & _). specialize (Hs 0%nat c eq_refl).
    simpl in He. injection He as H1 H2 H3 H4. split_and!; [done| |].
    + intros ->. apply (f_equal length) in H4. rewrite length_replicate in H4. simpl in H4. lia.
    + rewrite <- Hid. destruct c as [i p sq t ty cb]; simpl in *; subst. vm_compute. discriminate.
Qed.

Lemma trim_breaks_integrity_witness :
  verify_integrity (append (EndpointDestroyed 1) None 0
    (appends (replicate (Z.to_nat 99999) (EndpointDestroyed 1, None, 0)) (CommitLog_new 0))).2 = false.
Proof.
  destruct (full_log (Z.to_nat 99999) ltac:(lia)) as (Hl & Hv & c & cs & Hc & Hne & Hid).
  exact (trim_breaks_integrity _ c cs _ _ _ Hc Hne Hl Hv Hid).
Defined.

(** ** Tampering *)
Lemma verify_chain_bad e pre c post :
  compute_hash c <> c_id c -> verify_chain e (pre ++ c :: post) = None.
Proof.
  intros H. rewrite verify_chain_app. destruct (verify_chain e pre) as [p|]; [|done]. simpl.
  case_bool_decide; simpl; [|done]. by rewrite bool_decide_eq_false_2.
Qed.

(** C37: a one-byte change to any recorded commit of a verified log is always
    detected, whatever FNV collisions exist: if a commit is replaced by one
    with the same identifier whose hashed bytes differ in exactly one byte,
    verification fails. *)
Theorem tamper_detected l pre c c' post x b b' y :
  verify_integrity l = true -> commits l = pre ++ c :: post -> c_id c' = c_id c ->
  commit_type_ok (c_commit_type c) -> commit_type_ok (c_commit_type c') ->
  commit_bytes c = x ++ b :: y -> commit_bytes c' = x ++ b' :: y -> b <> b' ->
  verify_integrity (mk_CommitLog (pre ++ c' :: post) (next_seq l) (last_hash l)) = false.
Proof.
  intros Hv Hc Hid Hok Hok' Hb Hb' Hne.
  apply verify_integrity_chain in Hv; [|rewrite Hc; by destruct pre].
  rewrite Hc, verify_chain_app in Hv.
  destruct (verify_chain zero32 pre) as [p|]; [|done]. cbn [mbind option_bind] in Hv.
  apply verify_chain_cons in Hv as (_ & Hh & _).
  pose proof (compute_hash_one_byte _ _ _ _ _ _ Hok Hok' Hb Hb' Hne) as Hd.
  apply not_true_iff_false. intros Hv'.
  apply verify_integrity_chain in Hv'; [|by destruct pre].
  simpl in Hv'. rewrite verify_chain_bad in Hv'; [done|congruence].
Qed.

(** The log of the example: a grant of read permission, forged into full. *)
Definition tamper_log : CommitLog :=
  appends [(CapInserted 2 0 7 1 5 1, None, 4)] (CommitLog_new 0).

Definition nth_commit (i : nat) : Commit :=
  nth i (commits tamper_log) (mk_Commit [] [] 0 0 Genesis None).

Definition forged : Commit :=
  mk_Commit (c_id (nth_commit 1)) (c_prev_commit (nth_commit 1)) 1 4 (CapInserted 2 0 7 1 5 7) None.

Lemma tamper_detected_witness :
  verify_integrity
    (mk_CommitLog [nth_commit 0; forged] (next_seq tamper_log) (last_hash tamper_log)) = false.
Proof.
  apply (tamper_detected tamper_log [nth_commit 0] (nth_commit 1) forged []
    (take 78 (commit_bytes forged)) x01 x07 []); try (vm_compute; reflexivity).
  - vm_compute. repeat split; discriminate.
  - vm_compute. repeat split; discriminate.
  - discriminate.
Defined.

(** ** Agreement with the pure kernel core *)
Definition perms_of_core (p : CoreTypes.Permissions) : AxiomTypes.Permissions :=
  AxiomTypes.mk_Permissions (CoreTypes.read p) (CoreTypes.write p) (CoreTypes.grant p).

Definition type_of_core (t : CoreTypes.ObjectType) : AxiomTypes.ObjectType :=
  match t with
  | CoreTypes.OT_Endpoint => AxiomTypes.OT_Endpoint
  | CoreTypes.OT_Process => AxiomTypes.OT_Process
  | CoreTypes.OT_Memory => AxiomTypes.OT_Memory
  | CoreTypes.OT_Irq => AxiomTypes.OT_Irq
  | CoreTypes.OT_IoPort => AxiomTypes.OT_IoPort
  | CoreTypes.OT_Console => AxiomTypes.OT_Console
  end.

Definition cap_of_core (c : CoreTypes.Capability) : AxiomTypes.Capability :=
  AxiomTypes.mk_Capability (CoreTypes.cap_id c)
    (type_of_core (CoreTypes.cap_object_type c)) (CoreTypes.cap_object_id c)
    (perms_of_core (CoreTypes.cap_permissions c)) (CoreTypes.cap_generation c)
    (CoreTypes.cap_expires_at c).

Definition cspace_of_core (cs : CoreTypes.CapabilitySpace) : AxiomTypes.CapabilitySpace :=
  AxiomTypes.mk_CapabilitySpace (cap_of_core <$> CoreTypes.slots cs)
    (CoreTypes.next_slot cs).

Definition error_of_core (e : CoreTypes.AxiomError) : AxiomTypes.AxiomError :=
  match e with
  | CoreTypes.InvalidSlot => AxiomTypes.InvalidSlot
  | CoreTypes.WrongType => AxiomTypes.WrongType
  | CoreTypes.InsufficientRights => AxiomTypes.InsufficientRights
  | CoreTypes.Expired => AxiomTypes.Expired
  | CoreTypes.ObjectNotFound => AxiomTypes.ObjectNotFound
  end.

Lemma type_of_core_eq t1 t2 :
  bool_decide (type_of_core t1 = type_of_core t2) = bool_decide (t1 = t2).
Proof. by destruct t1, t2. Qed.

(** The two gatekeepers agree. The capability spaces and the
    [axiom_check] of zos-axiom, which the kernel runs, and those of
    zos-kernel-core, which carry the formal model, commute with the evident
    translation: insertion, removal and every outcome of the check. *)
Theorem axiom_check_equiv cs slot req ty now cap :
  AxiomTypes.axiom_check (cspace_of_core cs) slot (perms_of_core req)
    (type_of_core <$> ty) now =
    match CoreTypes.axiom_check cs slot req ty now with
    | Ok c => Ok (cap_of_core c)
    | Err e => Err (error_of_core e)
    end /\
  AxiomTypes.cs_insert (cap_of_core cap) (cspace_of_core cs) =
    prod_map id cspace_of_core (CoreTypes.cs_insert cap cs) /\
  AxiomTypes.cs_remove slot (cspace_of_core cs) =
    prod_map (fmap cap_of_core) cspace_of_core (CoreTypes.cs_remove slot cs).
Proof.
  split_and!.
  - unfold AxiomTypes.axiom_check, CoreTypes.axiom_check, AxiomTypes.cs_get,
      CoreTypes.cs_get. simpl. rewrite lookup_fmap.
    destruct (CoreTypes.slots cs !! slot) as [c|]; [simpl|done].
    replace (match type_of_core <$> ty with Some _ => _ | None => _ end)
      with (match ty with
            | Some t => negb (bool_decide (CoreTypes.cap_object_type c = t))
            | None => false
            end) by (destruct ty; simpl; by rewrite ?type_of_core_eq).
    destruct (match ty with Some _ => _ | None => _ end); [done|].
    unfold has_permissions. destruct req as [[] [] []], (CoreTypes.cap_permissions c) as [[] [] []];
      try done; simpl; change (AxiomTypes.is_expired (cap_of_core c) now) with
        (CoreTypes.is_expired c now); by destruct (CoreTypes.is_expired c now).
  - unfold AxiomTypes.cs_insert, cspace_of_core. simpl. by rewrite fmap_insert.
  - unfold AxiomTypes.cs_remove, cspace_of_core. simpl. by rewrite lookup_fmap, fmap_delete.
Qed.
