(* ===== verification/StrLib.v ===== *)
(** * UTF-8 validation

    [core::str::from_utf8] of the standard library, which the syscall
    dispatcher applies to the names and keys it receives. A byte sequence is
    accepted when it is a concatenation of well-formed sequences (Unicode
    table 3-7); the string keeps the same bytes. *)
From S2P Require Import Prelude.

Definition in_range (lo hi : Z) (b : byte) : bool := (lo <=? Z_of_byte b) && (Z_of_byte b <=? hi).

Definition is_cont (b : byte) : bool := in_range 0x80 0xBF b.

(** Length of the well-formed sequence at the head, [0] if there is none. *)
Definition utf8_width (l : list byte) : nat :=
  match l with
  | [] => 0
  | b0 :: t0 =>
    if in_range 0x00 0x7F b0 then 1
    else match t0 with
    | [] => 0
    | b1 :: t1 =>
      if in_range 0xC2 0xDF b0 then (if is_cont b1 then 2 else 0)
      else match t1 with
      | [] => 0
      | b2 :: t2 =>
        if (in_range 0xE0 0xE0 b0 && in_range 0xA0 0xBF b1)
           || (in_range 0xE1 0xEC b0 && is_cont b1)
           || (in_range 0xED 0xED b0 && in_range 0x80 0x9F b1)
           || (in_range 0xEE 0xEF b0 && is_cont b1)
        then (if is_cont b2 then 3 else 0)
        else match t2 with
        | [] => 0
        | b3 :: _ =>
          if (in_range 0xF0 0xF0 b0 && in_range 0x90 0xBF b1)
             || (in_range 0xF1 0xF3 b0 && is_cont b1)
             || (in_range 0xF4 0xF4 b0 && in_range 0x80 0x8F b1)
          then (if is_cont b2 && is_cont b3 then 4 else 0)
          else 0
        end
      end
    end
  end%nat.

(** [fuel] bounds the number of sequences; the length of the input suffices. *)
Fixpoint utf8_valid (fuel : nat) (l : list byte) : bool :=
  match l with
  | [] => true
  | _ :: _ =>
      match fuel, utf8_width l with
      | S fuel', S w => utf8_valid fuel' (drop (S w) l)
      | _, _ => false
      end
  end.

Definition from_utf8 (l : list byte) : option string :=
  if utf8_valid (length l) l then Some (String.string_of_list_byte l) else None.

(** More fuel than the length changes nothing. *)
Lemma utf8_valid_fuel f1 f2 l :
  (length l <= f1)%nat -> (length l <= f2)%nat -> utf8_valid f1 l = utf8_valid f2 l.
Proof.
  revert f2 l. induction f1 as [|f1 IH]; intros f2 [|b l] H1 H2; try (by destruct f2);
    simpl in H1; [lia|].
  destruct f2 as [|f2]; simpl in H2; [lia|]. cbn [utf8_valid].
  destruct (utf8_width (b :: l)); [done|]. apply IH; simpl; rewrite length_drop; lia.
Qed.

Lemma utf8_valid_ascii l :
  Forall (fun b => in_range 0x00 0x7F b = true) l -> utf8_valid (length l) l = true.
Proof.
  induction 1 as [|b l Hb Hl IH]; [done|]. cbn [length utf8_valid].
  assert (utf8_width (b :: l) = 1%nat) as -> by (simpl; by rewrite Hb). done.
Qed.

Lemma from_utf8_bytes l s : from_utf8 l = Some s -> str_bytes s = l.
Proof.
  unfold from_utf8. destruct (utf8_valid _ l); [|done]. intros [= <-].
  apply String.list_byte_of_string_of_list_byte.
Qed.

(** * Strings of the standard library

    Operations of [str] and of string-keyed [BTreeMap] that the file system,
    the services and the block store use. A string is the list of its UTF-8
    bytes; every delimiter the code searches for is an ASCII character, so byte
    positions and character boundaries agree. *)
From Stdlib Require Export Ascii.

(** ** Searching and splitting *)
Fixpoint starts_with (p s : string) : bool :=
  match p, s with
  | EmptyString, _ => true
  | String a p', String b s' => Ascii.eqb a b && starts_with p' s'
  | String _ _, EmptyString => false
  end.

Fixpoint str_contains_char (c : ascii) (s : string) : bool :=
  match s with
  | EmptyString => false
  | String a s' => Ascii.eqb a c || str_contains_char c s'
  end.

(** [contains(&str)]. *)
Fixpoint str_contains (p s : string) : bool :=
  starts_with p s ||
  match s with
  | EmptyString => false
  | String _ s' => str_contains p s'
  end.

Fixpoint ends_with_char (c : ascii) (s : string) : bool :=
  match s with
  | EmptyString => false
  | String a EmptyString => Ascii.eqb a c
  | String _ s' => ends_with_char c s'
  end.

(** [split(c)]: never empty, the pieces between the delimiters. *)
Fixpoint split_char (c : ascii) (s : string) : list string :=
  match s with
  | EmptyString => [""%string]
  | String a s' =>
      if Ascii.eqb a c then ""%string :: split_char c s'
      else match split_char c s' with
           | [] => [String a ""]
           | w :: ws => String a w :: ws
           end
  end.

(** [rsplit(c).next()]: the piece after the last delimiter. *)
Definition rsplit_next (c : ascii) (s : string) : string :=
  from_option id ""%string (last (split_char c s)).

(** [rfind(c)]: the position of the last occurrence. *)
Fixpoint rfind (c : ascii) (s : string) : option nat :=
  match s with
  | EmptyString => None
  | String a s' =>
      match rfind c s' with
      | Some n => Some (S n)
      | None => if Ascii.eqb a c then Some 0%nat else None
      end
  end.

(** [&s[..n]] and [&s[n..]]. *)
Fixpoint str_take (n : nat) (s : string) : string :=
  match n, s with
  | S n', String a s' => String a (str_take n' s')
  | _, _ => ""%string
  end.

Fixpoint str_drop (n : nat) (s : string) : string :=
  match n, s with
  | S n', String _ s' => str_drop n' s'
  | _, _ => s
  end.

(** [s.as_bytes()[n]] compared with a character; [None] is the panic. *)
Fixpoint str_get (n : nat) (s : string) : option ascii :=
  match s with
  | EmptyString => None
  | String a s' => match n with O => Some a | S n' => str_get n' s' end
  end.

(** [join]: a piece after each delimiter. *)
Fixpoint join_char (c : ascii) (l : list string) : string :=
  match l with
  | [] => ""%string
  | [w] => w
  | w :: ws => (w +:+ String c (join_char c ws))
  end.

Lemma str_app_nil_r s : s +:+ ""%string = s.
Proof. induction s as [|a s IH]; [done|]. change (String a (s +:+ ""%string) = String a s). by rewrite IH. Qed.

(** ** Numbers

    [u128::from_str_radix] and [parse::<u128>] accept a sign, at least one
    digit, and reject a value of 2^128 or more. *)
Definition digit_value (a : ascii) : option Z :=
  let n := Z.of_N (Ascii.N_of_ascii a) in
  if (48 <=? n) && (n <=? 57) then Some (n - 48)
  else if (97 <=? n) && (n <=? 122) then Some (n - 87)
  else if (65 <=? n) && (n <=? 90) then Some (n - 55)
  else None.

Fixpoint parse_digits (radix : Z) (acc : Z) (s : string) : option Z :=
  match s with
  | EmptyString => Some acc
  | String a s' =>
      match digit_value a with
      | Some d =>
          if d <? radix then
            let acc' := acc * radix + d in
            if acc' <? 2 ^ 128 then parse_digits radix acc' s' else None
          else None
      | None => None
      end
  end.

Definition u128_from_str_radix (radix : Z) (s : string) : option Z :=
  match s with
  | EmptyString => None
  | String a s' =>
      if Ascii.eqb a "+" then (if String.eqb s' "" then None else parse_digits radix 0 s')
      else parse_digits radix 0 s
  end.

(** ** Ordered maps with string keys *)
Definition skey_le {V : Type} (x y : string * V) : Prop := String.le x.1 y.1.

#[export] Instance skey_le_dec {V : Type} (x y : string * V) : Decision (skey_le x y) :=
  String.le_dec x.1 y.1.

Definition sbtree_iter {V : Type} (m : gmap string V) : list (string * V) :=
  merge_sort skey_le (map_to_list m).

Definition sbtree_keys {V : Type} (m : gmap string V) : list string := (sbtree_iter m).*1.

Section sbtree.
Context {V : Type}.
Implicit Types m : gmap string V.

#[local] Instance skey_le_trans : Transitive (@skey_le V).
Proof. intros x y z. unfold skey_le. apply transitivity. Qed.

#[local] Instance skey_le_total : Total (@skey_le V).
Proof. intros x y. unfold skey_le. apply total, _. Qed.

Lemma sbtree_iter_perm m : sbtree_iter m ≡ₚ map_to_list m.
Proof. apply merge_sort_Permutation. Qed.

Lemma sbtree_keys_sorted m : StronglySorted String.le (sbtree_keys m).
Proof.
  unfold sbtree_keys. apply (StronglySorted_fmap fst skey_le); [done|].
  apply (StronglySorted_merge_sort _).
Qed.

Lemma elem_of_sbtree_keys m k : k ∈ sbtree_keys m <-> k ∈ dom m.
Proof.
  unfold sbtree_keys. rewrite sbtree_iter_perm, elem_of_dom, list_elem_of_fmap. split.
  - intros ([k' v] & -> & H%elem_of_map_to_list). by eexists.
  - intros [v H]. exists (k, v). by rewrite elem_of_map_to_list.
Qed.

Lemma NoDup_sbtree_keys m : NoDup (sbtree_keys m).
Proof. unfold sbtree_keys. rewrite sbtree_iter_perm. apply NoDup_fst_map_to_list. Qed.
End sbtree.

(** The keys in order depend on the domain only. *)
Lemma sbtree_keys_dom {V W} (m1 : gmap string V) (m2 : gmap string W) :
  dom m1 = dom m2 -> sbtree_keys m1 = sbtree_keys m2.
Proof.
  intros Hd. apply (StronglySorted_unique String.le); auto using sbtree_keys_sorted.
  apply NoDup_Permutation; auto using NoDup_sbtree_keys. intros k. by rewrite !elem_of_sbtree_keys, Hd.
Qed.

(** ** Formatting *)
Definition hex_digit (n : Z) : ascii :=
  Ascii.ascii_of_N (Z.to_N (if n <? 10 then 48 + n else 87 + n)).

(** [{:02x}] of a byte and [{:08x}] of a [u32]. *)
Definition hex_byte (b : byte) : string :=
  String (hex_digit (Z_of_byte b / 16)) (String (hex_digit (Z_of_byte b mod 16)) "").

Definition hex_bytes (l : list byte) : string := foldr (fun b s => hex_byte b +:+ s) "" l.

Definition hex_u32 (z : Z) : string := hex_bytes (reverse (u32_to_le_bytes z)).

(** [String::from_utf8_lossy]: each maximal invalid sequence becomes U+FFFD. *)
Definition utf8_invalid_len (l : list byte) : nat :=
  match l with
  | b0 :: b1 :: t =>
      let second_ok :=
        (in_range 0xE0 0xE0 b0 && in_range 0xA0 0xBF b1) || (in_range 0xE1 0xEC b0 && is_cont b1)
        || (in_range 0xED 0xED b0 && in_range 0x80 0x9F b1) || (in_range 0xEE 0xEF b0 && is_cont b1)
        || (in_range 0xF0 0xF0 b0 && in_range 0x90 0xBF b1) || (in_range 0xF1 0xF3 b0 && is_cont b1)
        || (in_range 0xF4 0xF4 b0 && in_range 0x80 0x8F b1) in
      if second_ok then
        match t with
        | b2 :: _ => if in_range 0xF0 0xF4 b0 && is_cont b2 then 3 else 2
        | [] => 2
        end
      else 1
  | _ => 1
  end%nat.

Fixpoint utf8_lossy (fuel : nat) (l : list byte) : list byte :=
  match fuel, l with
  | S fuel', _ :: _ =>
      match utf8_width l with
      | S w => take (S w) l ++ utf8_lossy fuel' (drop (S w) l)
      | O => [xef; xbf; xbd] ++ utf8_lossy fuel' (drop (utf8_invalid_len l) l)
      end
  | _, _ => []
  end%list.

Definition from_utf8_lossy (l : list byte) : string := String.string_of_list_byte (utf8_lossy (length l) l).
