(* ===== verification/Hal.v ===== *)
(** * System call ABI constants (crates/zos-ipc/src/lib.rs)

    The syscall numbers, well-known process identifiers and error codes that
    the kernel and user processes share. *)
From S2P Require Import Prelude.

(** Module [syscall]. *)
Definition SYS_DEBUG : Z := 0x01.
Definition SYS_YIELD : Z := 0x02.
Definition SYS_EXIT : Z := 0x03.
Definition SYS_TIME : Z := 0x04.
Definition SYS_RANDOM : Z := 0x05.
Definition SYS_WALLCLOCK : Z := 0x06.
Definition SYS_CONSOLE_WRITE : Z := 0x07.
Definition SYS_CREATE_ENDPOINT : Z := 0x11.
Definition SYS_DELETE_ENDPOINT : Z := 0x12.
Definition SYS_KILL : Z := 0x13.
Definition SYS_REGISTER_PROCESS : Z := 0x14.
Definition SYS_CREATE_ENDPOINT_FOR : Z := 0x15.
Definition SYS_LOAD_BINARY : Z := 0x16.
Definition SYS_SPAWN_PROCESS : Z := 0x17.
Definition SYS_CAP_GRANT : Z := 0x30.
Definition SYS_CAP_REVOKE : Z := 0x31.
Definition SYS_CAP_DELETE : Z := 0x32.
Definition SYS_CAP_INSPECT : Z := 0x33.
Definition SYS_CAP_DERIVE : Z := 0x34.
Definition SYS_CAP_LIST : Z := 0x35.
Definition SYS_SEND : Z := 0x40.
Definition SYS_RECV : Z := 0x41.
Definition SYS_CALL : Z := 0x42.
Definition SYS_REPLY : Z := 0x43.
Definition SYS_SEND_CAP : Z := 0x44.
Definition SYS_PS : Z := 0x50.
Definition SYS_STORAGE_READ : Z := 0x70.
Definition SYS_STORAGE_WRITE : Z := 0x71.
Definition SYS_STORAGE_DELETE : Z := 0x72.
Definition SYS_STORAGE_LIST : Z := 0x73.
Definition SYS_STORAGE_EXISTS : Z := 0x74.
Definition SYS_STORAGE_BATCH_WRITE : Z := 0x79.
Definition SYS_KEYSTORE_READ : Z := 0x80.
Definition SYS_KEYSTORE_WRITE : Z := 0x81.
Definition SYS_KEYSTORE_DELETE : Z := 0x82.
Definition SYS_KEYSTORE_LIST : Z := 0x83.
Definition SYS_KEYSTORE_EXISTS : Z := 0x84.
Definition SYS_NETWORK_FETCH : Z := 0x90.

(** Module [pid]. *)
Definition SUPERVISOR : Z := 0.
Definition INIT : Z := 1.

(** Module [syscall_error]. *)
Definition INVALID_UTF8 : Z := -1.
Definition NOT_FOUND : Z := -2.
Definition NOT_SUPPORTED : Z := -3.
Definition PERMISSION_DENIED : Z := -4.
Definition INVALID_ARGUMENT : Z := -5.
Definition SPAWN_FAILED : Z := -6.

(** * Hardware abstraction layer (crates/zos-hal/src/lib.rs)

    The part of the [HAL] trait the kernel calls. The trait's methods take
    [&self] and platforms use interior mutability, so each method threads the
    platform's state [H]. [TestHal] is the platform of the source's own tests. *)

Inductive HalError : Type :=
| OutOfMemory | ProcessSpawnFailed | HE_ProcessNotFound | InvalidMessage | NotSupported
| IoError | HE_InvalidArgument | StorageError | HE_ResourceExhausted | NotFound | InvalidBinary.

#[export] Instance HalError_eq_dec : EqDecision HalError.
Proof. solve_decision. Defined.

(** A method that may fail. *)
Abbreviation HalM H T := (H -> result T HalError * H) (only parsing).

Class HAL (H : Type) : Type := {
  ProcessHandle : Type;
  hal_spawn_process : string -> list byte -> HalM H ProcessHandle;
  hal_spawn_process_with_pid : Z -> string -> list byte -> HalM H ProcessHandle;
  now_nanos : H -> Z * H;
  wallclock_ms : H -> Z * H;
  debug_write : string -> H -> H;
  storage_read_async : Z -> string -> HalM H Z;
  storage_write_async : Z -> string -> list byte -> HalM H Z;
  storage_delete_async : Z -> string -> HalM H Z;
  storage_list_async : Z -> string -> HalM H Z;
  storage_exists_async : Z -> string -> HalM H Z;
  keystore_read_async : Z -> string -> HalM H Z;
  keystore_write_async : Z -> string -> list byte -> HalM H Z;
  keystore_delete_async : Z -> string -> HalM H Z;
  keystore_list_async : Z -> string -> HalM H Z;
  keystore_exists_async : Z -> string -> HalM H Z;
  network_fetch_async : Z -> list byte -> HalM H Z;
  load_binary : string -> HalM H (list byte) }.

(** The trait's default methods. *)
Definition not_supported {H T : Type} : HalM H T := fun h => (Err NotSupported, h).

Definition default_spawn_process_with_pid {H P : Type}
    (spawn_process : string -> list byte -> HalM H P) (pid : Z) (name : string)
    (binary : list byte) : HalM H P :=
  spawn_process name binary.

Record NumericProcessHandle : Type := mk_NumericProcessHandle { handle_id : Z }.

Record TestHal : Type := mk_TestHal { time : Z }.

Definition TestHal_new : TestHal := mk_TestHal 0.

Definition test_spawn_process (_name : string) (_binary : list byte)
  : HalM TestHal NumericProcessHandle :=
  fun h => (Ok (mk_NumericProcessHandle 1), h).

#[export] Instance HAL_TestHal : HAL TestHal := {|
  ProcessHandle := NumericProcessHandle;
  hal_spawn_process := test_spawn_process;
  hal_spawn_process_with_pid := default_spawn_process_with_pid test_spawn_process;
  now_nanos := fun h => (time h, h);
  wallclock_ms := fun h => (1737504000000, h);
  debug_write := fun _ h => h;
  storage_read_async := fun _ _ => not_supported;
  storage_write_async := fun _ _ _ => not_supported;
  storage_delete_async := fun _ _ => not_supported;
  storage_list_async := fun _ _ => not_supported;
  storage_exists_async := fun _ _ => not_supported;
  keystore_read_async := fun _ _ => not_supported;
  keystore_write_async := fun _ _ _ => not_supported;
  keystore_delete_async := fun _ _ => not_supported;
  keystore_list_async := fun _ _ => not_supported;
  keystore_exists_async := fun _ _ => not_supported;
  network_fetch_async := fun _ _ => not_supported;
  load_binary := fun _ => not_supported |}.
