(* ===== verification/KernelState.v ===== *)
(** * Types of the kernel (crates/zos-kernel/src: types.rs, ipc.rs, error.rs, syscall.rs)

    Capabilities, permissions and object types are those of the Axiom layer. *)
From S2P Require Import Prelude AxiomTypes Hal.

(** ** error.rs *)
Inductive KernelError : Type :=
| ProcessNotFound | EndpointNotFound | InvalidCapability | PermissionDenied | WouldBlock
| KE_Hal (e : HalError).

(** ** types.rs *)
Inductive ProcessState : Type := Running | Blocked | Zombie.

#[export] Instance ProcessState_eq_dec : EqDecision ProcessState.
Proof. solve_decision. Defined.

Record ProcessMetrics : Type := mk_ProcessMetrics {
  memory_size : Z;
  ipc_sent : Z;
  ipc_received : Z;
  ipc_bytes_sent : Z;
  ipc_bytes_received : Z;
  syscall_count : Z;
  last_active_ns : Z;
  start_time_ns : Z }.

Definition ProcessMetrics_default : ProcessMetrics := mk_ProcessMetrics 0 0 0 0 0 0 0 0.

Record Process : Type := mk_Process {
  proc_pid : ProcessId;
  proc_name : string;
  proc_state : ProcessState;
  proc_metrics : ProcessMetrics }.

Definition set_proc_state (st : ProcessState) (p : Process) : Process :=
  mk_Process (proc_pid p) (proc_name p) st (proc_metrics p).
Definition set_proc_metrics (m : ProcessMetrics) (p : Process) : Process :=
  mk_Process (proc_pid p) (proc_name p) (proc_state p) m.

Record EndpointMetrics : Type := mk_EndpointMetrics {
  queue_depth : Z;
  total_messages : Z;
  total_bytes : Z;
  queue_high_water : Z }.

Definition EndpointMetrics_default : EndpointMetrics := mk_EndpointMetrics 0 0 0 0.

Record SystemMetrics : Type := mk_SystemMetrics {
  process_count : Z;
  sm_total_memory : Z;
  endpoint_count : Z;
  sm_total_pending_messages : Z;
  total_ipc_messages : Z;
  uptime_ns : Z }.

(** ** ipc.rs *)
Definition MAX_CAPS_PER_MESSAGE : Z := 8.
Definition MAX_MESSAGE_SIZE : Z := 16384.

(** A capability moved by a message. *)
Record TransferredCap : Type := mk_TransferredCap {
  tc_capability : Capability;
  tc_receiver_slot : option CapSlot }.

Record Message : Type := mk_Message {
  msg_from : ProcessId;
  msg_tag : Z;
  msg_data : list byte;
  msg_transferred_caps : list TransferredCap }.

Record Endpoint : Type := mk_Endpoint {
  ep_id : EndpointId;
  ep_owner : ProcessId;
  ep_pending_messages : list Message;
  ep_metrics : EndpointMetrics }.

Record MessageSummary : Type := mk_MessageSummary {
  ms_from : ProcessId;
  ms_tag : Z;
  ms_size : Z }.

Record EndpointDetail : Type := mk_EndpointDetail {
  ed_id : EndpointId;
  ed_owner : ProcessId;
  ed_queue_depth : Z;
  ed_metrics : EndpointMetrics;
  ed_queued_messages : list MessageSummary }.

Record EndpointInfo : Type := mk_EndpointInfo {
  ei_id : EndpointId;
  ei_owner : ProcessId;
  ei_queue_depth : Z }.

(** ** syscall.rs *)
Inductive Syscall : Type :=
| Debug (msg : string)
| CreateEndpoint
| Send (endpoint_slot : CapSlot) (tag : Z) (data : list byte)
| Receive (endpoint_slot : CapSlot)
| ListCaps
| ListProcesses
| Exit (code : Z)
| GetTime
| Yield
| CapGrant (from_slot : CapSlot) (to_pid : ProcessId) (permissions : Permissions)
| CapRevoke (slot : CapSlot)
| CapDelete (slot : CapSlot)
| CapInspect (slot : CapSlot)
| CapDerive (slot : CapSlot) (new_permissions : Permissions)
| SendWithCaps (endpoint_slot : CapSlot) (tag : Z) (data : list byte) (cap_slots : list CapSlot)
| Call (endpoint_slot : CapSlot) (tag : Z) (data : list byte)
| Kill (target_pid : ProcessId).

Record CapInfo : Type := mk_CapInfo {
  ci_id : Z;
  ci_object_type : ObjectType;
  ci_object_id : Z;
  ci_permissions : Permissions;
  ci_generation : Z;
  ci_expires_at : Z }.

Definition CapInfo_from (cap : Capability) : CapInfo :=
  mk_CapInfo (cap_id cap) (cap_object_type cap) (cap_object_id cap) (cap_permissions cap)
    (cap_generation cap) (cap_expires_at cap).

Record RevokeNotification : Type := mk_RevokeNotification {
  rn_pid : ProcessId;
  rn_slot : CapSlot;
  rn_object_type : Z;
  rn_object_id : Z;
  rn_reason : Z }.

Definition RevokeNotification_empty : RevokeNotification := mk_RevokeNotification 0 0 0 0 0.

Definition RevokeNotification_is_valid (n : RevokeNotification) : bool :=
  negb (rn_object_type n =? 0).

Inductive SyscallResult : Type :=
| SR_Ok (v : Z)
| SR_Err (e : KernelError)
| SR_Message (m : Message)
| SR_MessageWithCaps (m : Message) (installed : list CapSlot)
| SR_WouldBlock
| SR_CapInfo (i : CapInfo)
| SR_CapList (l : list (CapSlot * Capability))
| SR_ProcessList (l : list (ProcessId * string * ProcessState)).

(** * Kernel state (crates/zos-kernel/src/core/mod.rs)

    [KernelCore<H>] with its accessors and memory accounting. The platform
    state is the field [hal]; debug output goes through it. *)
From S2P Require Import CommitLog.

Record KernelCore (H : Type) : Type := mk_KernelCore {
  hal : H;
  processes : gmap ProcessId Process;
  cap_spaces : gmap ProcessId CapabilitySpace;
  endpoints : gmap EndpointId Endpoint;
  next_pid : Z;
  next_endpoint_id : Z;
  next_cap_id : Z;
  total_ipc_count : Z }.
Arguments mk_KernelCore {H}.
Arguments hal {H}.
Arguments processes {H}.
Arguments cap_spaces {H}.
Arguments endpoints {H}.
Arguments next_pid {H}.
Arguments next_endpoint_id {H}.
Arguments next_cap_id {H}.
Arguments total_ipc_count {H}.

(** A commit as the kernel emits it: identifier, predecessor and sequence
    number are filled by the commit log. *)
Definition new_commit (timestamp : Z) (ct : CommitType) : Commit :=
  mk_Commit zero32 zero32 0 timestamp ct None.

Definition map_axiom_error (e : AxiomError) : KernelError :=
  match e with
  | InvalidSlot => InvalidCapability
  | WrongType => InvalidCapability
  | InsufficientRights => PermissionDenied
  | Expired => PermissionDenied
  | ObjectNotFound => InvalidCapability
  end.

Section core.
Context {H : Type} `{HAL H} `{Target}.
Implicit Types k : KernelCore H.

Definition KernelCore_new (h : H) : KernelCore H := mk_KernelCore h ∅ ∅ ∅ 1 1 1 0.

(** Assignment to one field. *)
Definition set_hal (h : H) k : KernelCore H :=
  mk_KernelCore h (processes k) (cap_spaces k) (endpoints k) (next_pid k) (next_endpoint_id k)
    (next_cap_id k) (total_ipc_count k).
Definition set_processes (m : gmap ProcessId Process) k : KernelCore H :=
  mk_KernelCore (hal k) m (cap_spaces k) (endpoints k) (next_pid k) (next_endpoint_id k)
    (next_cap_id k) (total_ipc_count k).
Definition set_cap_spaces (m : gmap ProcessId CapabilitySpace) k : KernelCore H :=
  mk_KernelCore (hal k) (processes k) m (endpoints k) (next_pid k) (next_endpoint_id k)
    (next_cap_id k) (total_ipc_count k).
Definition set_endpoints (m : gmap EndpointId Endpoint) k : KernelCore H :=
  mk_KernelCore (hal k) (processes k) (cap_spaces k) m (next_pid k) (next_endpoint_id k)
    (next_cap_id k) (total_ipc_count k).
Definition set_next_pid (n : Z) k : KernelCore H :=
  mk_KernelCore (hal k) (processes k) (cap_spaces k) (endpoints k) n (next_endpoint_id k)
    (next_cap_id k) (total_ipc_count k).
Definition set_next_endpoint_id (n : Z) k : KernelCore H :=
  mk_KernelCore (hal k) (processes k) (cap_spaces k) (endpoints k) (next_pid k) n
    (next_cap_id k) (total_ipc_count k).
Definition set_next_cap_id (n : Z) k : KernelCore H :=
  mk_KernelCore (hal k) (processes k) (cap_spaces k) (endpoints k) (next_pid k)
    (next_endpoint_id k) n (total_ipc_count k).
Definition set_total_ipc_count (n : Z) k : KernelCore H :=
  mk_KernelCore (hal k) (processes k) (cap_spaces k) (endpoints k) (next_pid k)
    (next_endpoint_id k) (next_cap_id k) n.

(** [self.hal.debug_write(msg)]. *)
Definition debug (msg : string) k : KernelCore H := set_hal (debug_write msg (hal k)) k.

(** The method [next_cap_id]. *)
Definition alloc_cap_id k : Z * KernelCore H :=
  (next_cap_id k, set_next_cap_id (u64_add (next_cap_id k) 1) k).

(** [cap_spaces.get_mut(&pid)] followed by [insert(cap)]; [None] when the
    process has no capability space. *)
Definition insert_cap (pid : ProcessId) (cap : Capability) k : option (CapSlot * KernelCore H) :=
  match cap_spaces k !! pid with
  | Some cspace =>
      let '(slot, cspace') := cs_insert cap cspace in
      Some (slot, set_cap_spaces (<[pid := cspace']> (cap_spaces k)) k)
  | None => None
  end.

(** ** Read-only accessors *)
Definition get_process k (pid : ProcessId) : option Process := processes k !! pid.

Definition list_processes k : list (ProcessId * Process) := btree_iter (processes k).

Definition get_cap_space k (pid : ProcessId) : option CapabilitySpace := cap_spaces k !! pid.

(** [sum()] over [usize]. *)
Definition usize_sum (l : list Z) : Z := foldl usize_add 0 l.

Definition total_memory k : Z :=
  usize_sum ((fun p => memory_size (proc_metrics p)) <$> btree_values (processes k)).

Definition total_pending_messages k : Z :=
  usize_sum ((fun e => len (ep_pending_messages e)) <$> btree_values (endpoints k)).

Definition get_system_metrics k (uptime : Z) : SystemMetrics :=
  mk_SystemMetrics (btree_len (processes k)) (total_memory k) (btree_len (endpoints k))
    (total_pending_messages k) (total_ipc_count k) uptime.

(** ** Memory accounting *)
Definition set_memory_size (n : Z) (p : Process) : Process :=
  let m := proc_metrics p in
  set_proc_metrics (mk_ProcessMetrics n (ipc_sent m) (ipc_received m) (ipc_bytes_sent m)
    (ipc_bytes_received m) (syscall_count m) (last_active_ns m) (start_time_ns m)) p.

Definition allocate_memory (pid : ProcessId) (bytes : Z) k : result Z KernelError * KernelCore H :=
  match processes k !! pid with
  | None => (Err ProcessNotFound, k)
  | Some proc =>
      let size := usize_add (memory_size (proc_metrics proc)) bytes in
      let k := set_processes (<[pid := set_memory_size size proc]> (processes k)) k in
      let k := debug ("[kernel] PID " +:+ pretty pid +:+ " allocated " +:+ pretty bytes
                      +:+ " bytes (total: " +:+ pretty size +:+ " bytes)") k in
      (Ok size, k)
  end.

Definition free_memory (pid : ProcessId) (bytes : Z) k : result Z KernelError * KernelCore H :=
  match processes k !! pid with
  | None => (Err ProcessNotFound, k)
  | Some proc =>
      let size := sat_sub (memory_size (proc_metrics proc)) bytes in
      let k := set_processes (<[pid := set_memory_size size proc]> (processes k)) k in
      let k := debug ("[kernel] PID " +:+ pretty pid +:+ " freed " +:+ pretty bytes
                      +:+ " bytes (total: " +:+ pretty size +:+ " bytes)") k in
      (Ok size, k)
  end.

Definition update_process_memory (pid : ProcessId) (new_size : Z) k : KernelCore H :=
  set_processes (btree_update (set_memory_size new_size) pid (processes k)) k.
End core.
