(* ===== verification/KernelIpc.v ===== *)
(** * Capability and endpoint operations of the kernel
    (crates/zos-kernel/src/core: capability.rs, endpoint.rs)

    Each operation returns its result with the commits that describe the
    mutation, and the kernel after it. *)
From S2P Require Import Prelude AxiomTypes CommitLog Hal KernelState.

Definition attenuate_permissions (source requested : Permissions) : Permissions :=
  mk_Permissions (read source && read requested) (write source && write requested)
    (grant source && grant requested).

Definition create_cap_removed_commit (pid : ProcessId) (slot : CapSlot) (timestamp : Z) : Commit :=
  new_commit timestamp (CapRemoved pid slot).

(** [Permissions { read: false, write: false, grant: true }]. *)
Definition grant_perms : Permissions := mk_Permissions false false true.

(** [Permissions::default()]. *)
Definition no_perms : Permissions := mk_Permissions false false false.

(** [CapInserted] for [cap] in [slot] of [pid]. *)
Definition cap_inserted (pid : ProcessId) (slot : CapSlot) (cap : Capability) : CommitType :=
  CapInserted pid slot (cap_id cap) (ObjectType_as_u8 (cap_object_type cap)) (cap_object_id cap)
    (to_byte (cap_permissions cap)).

Section cap.
Context {H : Type} `{HAL H}.
Implicit Types k : KernelCore H.

(** ** Validation helpers *)
Definition validate_grant_source k (from_pid : ProcessId) (from_slot : CapSlot) (timestamp : Z)
  : result Capability KernelError :=
  match cap_spaces k !! from_pid with
  | None => Err ProcessNotFound
  | Some cspace => map_err map_axiom_error (axiom_check cspace from_slot grant_perms None timestamp)
  end.

Definition validate_revoke_permission k (pid : ProcessId) (slot : CapSlot) (timestamp : Z)
  : result Z KernelError :=
  match cap_spaces k !! pid with
  | None => Err ProcessNotFound
  | Some cspace =>
      map_err map_axiom_error
        (result_map cap_id (axiom_check cspace slot grant_perms None timestamp))
  end.

Definition validate_derive_source k (pid : ProcessId) (slot : CapSlot) (timestamp : Z)
  : result Capability KernelError :=
  match cap_spaces k !! pid with
  | None => Err ProcessNotFound
  | Some cspace => map_err map_axiom_error (axiom_check cspace slot no_perms None timestamp)
  end.

Definition create_derived_cap (to_pid : ProcessId) (source_cap : Capability)
    (new_perms : Permissions) (timestamp : Z) k
  : result (CapSlot * list Commit) KernelError * KernelCore H :=
  let '(new_cap_id, k) := alloc_cap_id k in
  let new_cap := mk_Capability new_cap_id (cap_object_type source_cap) (cap_object_id source_cap)
                   new_perms (cap_generation source_cap) (cap_expires_at source_cap) in
  match insert_cap to_pid new_cap k with
  | None => (Err ProcessNotFound, k)
  | Some (to_slot, k) =>
      let commit := new_commit timestamp (CapInserted to_pid to_slot new_cap_id
        (ObjectType_as_u8 (cap_object_type source_cap)) (cap_object_id source_cap)
        (to_byte new_perms)) in
      (Ok (to_slot, [commit]), k)
  end.

(** ** Operations *)
Definition grant_capability (from_pid : ProcessId) (from_slot : CapSlot) (to_pid : ProcessId)
    (new_perms : Permissions) (timestamp : Z) k
  : (result CapSlot KernelError * list Commit) * KernelCore H :=
  match validate_grant_source k from_pid from_slot timestamp with
  | Err e => ((Err e, []), k)
  | Ok source_cap =>
      let granted_perms := attenuate_permissions (cap_permissions source_cap) new_perms in
      match create_derived_cap to_pid source_cap granted_perms timestamp k with
      | (Err e, k) => ((Err e, []), k)
      | (Ok (to_slot, cap_commits), k) =>
          let new_cap_id :=
            match last cap_commits with
            | Some c => match c_commit_type c with CapInserted _ _ cap_id _ _ _ => cap_id | _ => 0 end
            | None => 0
            end in
          let commit := new_commit timestamp
            (CapGranted from_pid to_pid from_slot to_slot new_cap_id
               (mk_Permissions (read granted_perms) (write granted_perms) (grant granted_perms))) in
          ((Ok to_slot, commit :: cap_commits), k)
      end
  end.

Definition grant_capability_to_endpoint (owner_pid : ProcessId) (endpoint_id : EndpointId)
    (to_pid : ProcessId) (perms : Permissions) (timestamp : Z) k
  : (result CapSlot KernelError * list Commit) * KernelCore H :=
  match endpoints k !! endpoint_id with
  | None => ((Err EndpointNotFound, []), k)
  | Some endpoint =>
      if negb (ep_owner endpoint =? owner_pid) then ((Err PermissionDenied, []), k)
      else
        let '(new_cap_id, k) := alloc_cap_id k in
        let new_cap := mk_Capability new_cap_id OT_Endpoint endpoint_id perms 0 0 in
        match insert_cap to_pid new_cap k with
        | None => ((Err ProcessNotFound, []), k)
        | Some (to_slot, k) =>
            let commit := new_commit timestamp
              (CapInserted to_pid to_slot new_cap_id (ObjectType_as_u8 OT_Endpoint) endpoint_id
                 (to_byte perms)) in
            let k := debug ("[kernel] Granted endpoint " +:+ pretty endpoint_id
              +:+ " capability to PID " +:+ pretty to_pid +:+ " at slot " +:+ pretty to_slot) k in
            ((Ok to_slot, [commit]), k)
        end
  end.

(** [cap_spaces.get_mut(&pid)] followed by [remove(slot)]. *)
Definition remove_cap (pid : ProcessId) (slot : CapSlot) k : option (KernelCore H) :=
  match cap_spaces k !! pid with
  | Some cspace =>
      Some (set_cap_spaces (<[pid := (cs_remove slot cspace).2]> (cap_spaces k)) k)
  | None => None
  end.

Definition revoke_capability (pid : ProcessId) (slot : CapSlot) (timestamp : Z) k
  : (result unit KernelError * list Commit) * KernelCore H :=
  match validate_revoke_permission k pid slot timestamp with
  | Err e => ((Err e, []), k)
  | Ok cap_id =>
      let commits := [create_cap_removed_commit pid slot timestamp] in
      match remove_cap pid slot k with
      | None => ((Err ProcessNotFound, commits), k)
      | Some k =>
          let k := debug ("[kernel] PID " +:+ pretty pid +:+ " revoked capability "
            +:+ pretty cap_id +:+ " (slot " +:+ pretty slot +:+ ")") k in
          ((Ok tt, commits), k)
      end
  end.

Definition delete_capability (pid : ProcessId) (slot : CapSlot) (timestamp : Z) k
  : (result unit KernelError * list Commit) * KernelCore H :=
  match cap_spaces k !! pid with
  | None => ((Err ProcessNotFound, []), k)
  | Some cspace =>
  match cs_get cspace slot with
  | None => ((Err InvalidCapability, []), k)
  | Some cap =>
      let commits := [create_cap_removed_commit pid slot timestamp] in
      match remove_cap pid slot k with
      | None => ((Err ProcessNotFound, commits), k)
      | Some k =>
          let k := debug ("[kernel] PID " +:+ pretty pid +:+ " deleted capability "
            +:+ pretty (cap_id cap) +:+ " (slot " +:+ pretty slot +:+ ")") k in
          ((Ok tt, commits), k)
      end
  end
  end.

Definition derive_capability (pid : ProcessId) (slot : CapSlot) (new_perms : Permissions)
    (timestamp : Z) k : (result CapSlot KernelError * list Commit) * KernelCore H :=
  match validate_derive_source k pid slot timestamp with
  | Err e => ((Err e, []), k)
  | Ok source_cap =>
      let derived_perms := attenuate_permissions (cap_permissions source_cap) new_perms in
      match create_derived_cap pid source_cap derived_perms timestamp k with
      | (Err e, k) => ((Err e, []), k)
      | (Ok (new_slot, cap_commits), k) => ((Ok new_slot, cap_commits), k)
      end
  end.

(** ** endpoint.rs *)
Definition grant_owner_endpoint_cap (owner : ProcessId) (endpoint_id : EndpointId)
    (timestamp : Z) k : result (CapSlot * list Commit) KernelError * KernelCore H :=
  let '(cap_id, k) := alloc_cap_id k in
  let perms := full in
  let cap := mk_Capability cap_id OT_Endpoint endpoint_id perms 0 0 in
  match insert_cap owner cap k with
  | None => (Err ProcessNotFound, k)
  | Some (slot, k) =>
      let commit := new_commit timestamp
        (CapInserted owner slot cap_id (ObjectType_as_u8 OT_Endpoint) endpoint_id (to_byte perms)) in
      (Ok (slot, [commit]), k)
  end.

Definition create_endpoint (owner : ProcessId) (timestamp : Z) k
  : (result (EndpointId * CapSlot) KernelError * list Commit) * KernelCore H :=
  if negb (contains_key (processes k) owner) then ((Err ProcessNotFound, []), k)
  else
    let id := next_endpoint_id k in
    let k := set_next_endpoint_id (u64_add (next_endpoint_id k) 1) k in
    let endpoint := mk_Endpoint id owner [] EndpointMetrics_default in
    let k := set_endpoints (<[id := endpoint]> (endpoints k)) k in
    match grant_owner_endpoint_cap owner id timestamp k with
    | (Err e, k) => ((Err e, []), set_endpoints (delete id (endpoints k)) k)
    | (Ok (slot, cap_commits), k) =>
        let commits := new_commit timestamp (EndpointCreated id owner) :: cap_commits in
        let k := debug ("[kernel] Created endpoint " +:+ pretty id +:+ " for PID "
          +:+ pretty owner +:+ ", cap slot " +:+ pretty slot) k in
        ((Ok (id, slot), commits), k)
    end.

Definition list_endpoints k : list EndpointInfo :=
  (fun '(id, ep) => mk_EndpointInfo id (ep_owner ep) (len (ep_pending_messages ep)))
    <$> btree_iter (endpoints k).

Definition get_endpoint k (id : EndpointId) : option Endpoint := endpoints k !! id.

Definition get_endpoint_detail k (id : EndpointId) : option EndpointDetail :=
  (fun ep =>
     let queued := (fun m => mk_MessageSummary (msg_from m) (msg_tag m) (len (msg_data m)))
                     <$> take 10 (ep_pending_messages ep) in
     mk_EndpointDetail id (ep_owner ep) (len (ep_pending_messages ep)) (ep_metrics ep) queued)
    <$> endpoints k !! id.
End cap.

(** * Inter-process communication of the kernel (crates/zos-kernel/src/core/ipc.rs) *)

Definition validate_message_limits (data_len cap_count : Z) : result unit KernelError :=
  if MAX_MESSAGE_SIZE <? data_len then Err PermissionDenied
  else if MAX_CAPS_PER_MESSAGE <? cap_count then Err PermissionDenied
  else Ok tt.

(** The loop of [remove_and_transfer_caps] over the sender's capability space. *)
Fixpoint transfer_loop (from_pid : ProcessId) (cap_slots : list CapSlot) (timestamp : Z)
    (cspace : CapabilitySpace) : list TransferredCap * list Commit * CapabilitySpace :=
  match cap_slots with
  | [] => ([], [], cspace)
  | slot :: rest =>
      match cs_remove slot cspace with
      | (Some cap, cspace) =>
          let '(caps, commits, cspace) := transfer_loop from_pid rest timestamp cspace in
          (mk_TransferredCap cap None :: caps,
           new_commit timestamp (CapRemoved from_pid slot) :: commits, cspace)
      | (None, cspace) => transfer_loop from_pid rest timestamp cspace
      end
  end.

(** The loop of [install_transferred_caps] over the receiver's capability space. *)
Fixpoint install_loop (pid : ProcessId) (caps : list TransferredCap) (timestamp : Z)
    (cspace : CapabilitySpace) : list CapSlot * list Commit * CapabilitySpace :=
  match caps with
  | [] => ([], [], cspace)
  | tcap :: rest =>
      let '(slot, cspace) := cs_insert (tc_capability tcap) cspace in
      let '(slots, commits, cspace) := install_loop pid rest timestamp cspace in
      (slot :: slots,
       new_commit timestamp (cap_inserted pid slot (tc_capability tcap)) :: commits, cspace)
  end.

(** [pending_messages.push_back]. *)
Definition push_message (message : Message) (e : Endpoint) : Endpoint :=
  mk_Endpoint (ep_id e) (ep_owner e) (ep_pending_messages e ++ [message]) (ep_metrics e).

(** Endpoint part of [update_send_metrics]. *)
Definition count_enqueued (data_len : Z) (e : Endpoint) : Endpoint :=
  let m := ep_metrics e in
  let depth := len (ep_pending_messages e) in
  mk_Endpoint (ep_id e) (ep_owner e) (ep_pending_messages e)
    (mk_EndpointMetrics depth (u64_add (total_messages m) 1) (u64_add (total_bytes m) data_len)
       (if queue_high_water m <? depth then depth else queue_high_water m)).

(** Sender part of [update_send_metrics]. *)
Definition count_sent (data_len timestamp : Z) (p : Process) : Process :=
  let m := proc_metrics p in
  set_proc_metrics (mk_ProcessMetrics (memory_size m) (u64_add (ipc_sent m) 1) (ipc_received m)
    (u64_add (ipc_bytes_sent m) data_len) (ipc_bytes_received m) (syscall_count m) timestamp
    (start_time_ns m)) p.

(** Receiver part of [ipc_receive]. *)
Definition count_received (data_len timestamp : Z) (p : Process) : Process :=
  let m := proc_metrics p in
  set_proc_metrics (mk_ProcessMetrics (memory_size m) (ipc_sent m) (u64_add (ipc_received m) 1)
    (ipc_bytes_sent m) (u64_add (ipc_bytes_received m) data_len) (syscall_count m) timestamp
    (start_time_ns m)) p.

Section ipc.
Context {H : Type} `{HAL H}.
Implicit Types k : KernelCore H.

(** ** Validation *)
Definition validate_send_cap k (from_pid : ProcessId) (endpoint_slot : CapSlot) (timestamp : Z)
  : result EndpointId KernelError :=
  match cap_spaces k !! from_pid with
  | None => Err ProcessNotFound
  | Some cspace =>
      result_map cap_object_id (map_err map_axiom_error
        (axiom_check cspace endpoint_slot write_only (Some OT_Endpoint) timestamp))
  end.

Definition validate_send_cap_basic k (from_pid : ProcessId) (endpoint_slot : CapSlot)
  : result EndpointId KernelError :=
  match cap_spaces k !! from_pid with
  | None => Err ProcessNotFound
  | Some cspace =>
  match cs_get cspace endpoint_slot with
  | None => Err InvalidCapability
  | Some cap =>
      if negb (bool_decide (cap_object_type cap = OT_Endpoint)) || negb (write (cap_permissions cap))
      then Err PermissionDenied
      else Ok (cap_object_id cap)
  end
  end.

Definition validate_receive_cap k (pid : ProcessId) (endpoint_slot : CapSlot) (timestamp : Z)
  : result EndpointId KernelError :=
  match cap_spaces k !! pid with
  | None => Err ProcessNotFound
  | Some cspace =>
      result_map cap_object_id (map_err map_axiom_error
        (axiom_check cspace endpoint_slot read_only (Some OT_Endpoint) timestamp))
  end.

Definition validate_caps_exist k (pid : ProcessId) (cap_slots : list CapSlot)
  : result unit KernelError :=
  match cap_spaces k !! pid with
  | None => Err ProcessNotFound
  | Some cspace =>
      if forallb (fun slot => match cs_get cspace slot with Some _ => true | None => false end)
           cap_slots
      then Ok tt else Err InvalidCapability
  end.

(** ** Helpers that mutate *)
Definition remove_and_transfer_caps (from_pid : ProcessId) (cap_slots : list CapSlot)
    (timestamp : Z) k : result (list TransferredCap * list Commit) KernelError * KernelCore H :=
  match cap_spaces k !! from_pid with
  | None => (Err ProcessNotFound, k)
  | Some sender_cspace =>
      let '(caps, commits, cspace) := transfer_loop from_pid cap_slots timestamp sender_cspace in
      (Ok (caps, commits), set_cap_spaces (<[from_pid := cspace]> (cap_spaces k)) k)
  end.

Definition install_transferred_caps (pid : ProcessId) (caps : list TransferredCap)
    (timestamp : Z) k : result (list CapSlot * list Commit) KernelError * KernelCore H :=
  match cap_spaces k !! pid with
  | None => (Err ProcessNotFound, k)
  | Some receiver_cspace =>
      let '(slots, commits, cspace) := install_loop pid caps timestamp receiver_cspace in
      (Ok (slots, commits), set_cap_spaces (<[pid := cspace]> (cap_spaces k)) k)
  end.

Definition queue_message (endpoint_id : EndpointId) (message : Message) k
  : result unit KernelError * KernelCore H :=
  match endpoints k !! endpoint_id with
  | None => (Err EndpointNotFound, k)
  | Some endpoint =>
      (Ok tt, set_endpoints (<[endpoint_id := push_message message endpoint]> (endpoints k)) k)
  end.

Definition update_send_metrics (from_pid : ProcessId) (endpoint_id : EndpointId)
    (data_len timestamp : Z) k : KernelCore H :=
  let k := set_endpoints (btree_update (count_enqueued data_len) endpoint_id (endpoints k)) k in
  let k := set_processes (btree_update (count_sent data_len timestamp) from_pid (processes k)) k in
  set_total_ipc_count (u64_add (total_ipc_count k) 1) k.

(** ** Operations *)
Definition ipc_send (from_pid : ProcessId) (endpoint_slot : CapSlot) (tag : Z)
    (data : list byte) (timestamp : Z) k
  : (result unit KernelError * option Commit) * KernelCore H :=
  match validate_send_cap k from_pid endpoint_slot timestamp with
  | Err e => ((Err e, None), k)
  | Ok endpoint_id =>
      let data_len := len data in
      let message := mk_Message from_pid tag data [] in
      match queue_message endpoint_id message k with
      | (Err e, k) => ((Err e, None), k)
      | (Ok _, k) =>
          let k := update_send_metrics from_pid endpoint_id data_len timestamp k in
          let commit := new_commit timestamp (MessageSent from_pid endpoint_id tag data_len) in
          ((Ok tt, Some commit), k)
      end
  end.

Definition ipc_send_with_caps (from_pid : ProcessId) (endpoint_slot : CapSlot) (tag : Z)
    (data : list byte) (cap_slots : list CapSlot) (timestamp : Z) k
  : (result unit KernelError * list Commit) * KernelCore H :=
  match validate_message_limits (len data) (len cap_slots) with
  | Err e => ((Err e, []), k)
  | Ok _ =>
  match validate_send_cap_basic k from_pid endpoint_slot with
  | Err e => ((Err e, []), k)
  | Ok endpoint_id =>
  if negb (contains_key (endpoints k) endpoint_id) then ((Err EndpointNotFound, []), k)
  else match validate_caps_exist k from_pid cap_slots with
  | Err e => ((Err e, []), k)
  | Ok _ =>
  match remove_and_transfer_caps from_pid cap_slots timestamp k with
  | (Err e, k) => ((Err e, []), k)
  | (Ok (transferred_caps, commits), k) =>
      let data_len := len data in
      let message := mk_Message from_pid tag data transferred_caps in
      match queue_message endpoint_id message k with
      | (Err e, k) => ((Err e, commits), k)
      | (Ok _, k) =>
          let k := update_send_metrics from_pid endpoint_id data_len timestamp k in
          ((Ok tt, commits), k)
      end
  end
  end
  end
  end.

Definition ipc_receive (pid : ProcessId) (endpoint_slot : CapSlot) (timestamp : Z) k
  : result (option Message) KernelError * KernelCore H :=
  match validate_receive_cap k pid endpoint_slot timestamp with
  | Err e => (Err e, k)
  | Ok endpoint_id =>
  match endpoints k !! endpoint_id with
  | None => (Err EndpointNotFound, k)
  | Some endpoint =>
      match ep_pending_messages endpoint with
      | [] => (Ok None, k)
      | m :: rest =>
          let mt := ep_metrics endpoint in
          let endpoint := mk_Endpoint (ep_id endpoint) (ep_owner endpoint) rest
            (mk_EndpointMetrics (len rest) (total_messages mt) (total_bytes mt)
               (queue_high_water mt)) in
          let k := set_endpoints (<[endpoint_id := endpoint]> (endpoints k)) k in
          let k := set_processes
            (btree_update (count_received (len (msg_data m)) timestamp) pid (processes k)) k in
          (Ok (Some m), k)
      end
  end
  end.

Definition ipc_receive_with_caps (pid : ProcessId) (endpoint_slot : CapSlot) (timestamp : Z) k
  : (result (option (Message * list CapSlot)) KernelError * list Commit) * KernelCore H :=
  match ipc_receive pid endpoint_slot timestamp k with
  | (Err e, k) => ((Err e, []), k)
  | (Ok None, k) => ((Ok None, []), k)
  | (Ok (Some message), k) =>
      match msg_transferred_caps message with
      | [] => ((Ok (Some (message, [])), []), k)
      | _ :: _ =>
          match install_transferred_caps pid (msg_transferred_caps message) timestamp k with
          | (Err e, k) => ((Err e, []), k)
          | (Ok (installed_slots, commits), k) =>
              ((Ok (Some (message, installed_slots)), commits), k)
          end
      end
  end.

Definition ipc_has_message k (pid : ProcessId) (endpoint_slot : CapSlot) (timestamp : Z)
  : result bool KernelError :=
  match validate_receive_cap k pid endpoint_slot timestamp with
  | Err e => Err e
  | Ok endpoint_id =>
      match endpoints k !! endpoint_id with
      | None => Err EndpointNotFound
      | Some endpoint =>
          Ok (match ep_pending_messages endpoint with [] => false | _ :: _ => true end)
      end
  end.
End ipc.
