(* ===== verification/KernelSyscall.v ===== *)
(** * Process lifecycle of the kernel (crates/zos-kernel/src/core/process.rs) *)
From S2P Require Import Prelude AxiomTypes CommitLog Hal KernelState.

Definition create_process_entry (pid : ProcessId) (name : string) (timestamp : Z) : Process :=
  mk_Process pid name Running (mk_ProcessMetrics 65536 0 0 0 0 0 timestamp timestamp).

Definition create_process_commit (pid : ProcessId) (parent : Z) (name : string) (timestamp : Z)
  : Commit :=
  new_commit timestamp (ProcessCreated pid parent name).

Section process.
Context {H : Type} `{HAL H}.
Implicit Types k : KernelCore H.

Definition registered_msg (name : string) (pid : ProcessId) : string :=
  "[kernel] Registered process: " +:+ name +:+ " (PID " +:+ pretty pid +:+ ")".

Definition register_process_with_parent (name : string) (parent : ProcessId) (timestamp : Z) k
  : (ProcessId * list Commit) * KernelCore H :=
  let pid := next_pid k in
  let k := set_next_pid (u64_add (next_pid k) 1) k in
  let process := create_process_entry pid name timestamp in
  let k := set_processes (<[pid := process]> (processes k)) k in
  let k := set_cap_spaces (<[pid := CapabilitySpace_new]> (cap_spaces k)) k in
  let k := debug (registered_msg name pid) k in
  ((pid, [create_process_commit pid parent name timestamp]), k).

Definition register_process (name : string) (timestamp : Z) k
  : (ProcessId * list Commit) * KernelCore H :=
  register_process_with_parent name 0 timestamp k.

Definition register_process_with_pid (pid : ProcessId) (name : string) (timestamp : Z) k
  : (ProcessId * list Commit) * KernelCore H :=
  if contains_key (processes k) pid then
    ((pid, []), debug ("[kernel] Process " +:+ name +:+ " (PID " +:+ pretty pid
                       +:+ ") already exists") k)
  else
    let k := if next_pid k <=? pid then set_next_pid (u64_add pid 1) k else k in
    let process := mk_Process pid name Running (mk_ProcessMetrics 0 0 0 0 0 0 timestamp timestamp) in
    let k := set_processes (<[pid := process]> (processes k)) k in
    let k := set_cap_spaces (<[pid := CapabilitySpace_new]> (cap_spaces k)) k in
    let k := debug (registered_msg name pid) k in
    ((pid, [create_process_commit pid 0 name timestamp]), k).

Definition has_kill_permission k (caller target : ProcessId) : bool :=
  match cap_spaces k !! caller with
  | None => false
  | Some cspace =>
      existsb (fun cap =>
        bool_decide (cap_object_type cap = OT_Process) && (cap_object_id cap =? target)
        && write (cap_permissions cap)) (btree_values (slots cspace))
  end.

(** The [filter_map] over the owned endpoints, removing each in turn. *)
Fixpoint destroy_endpoints (eids : list EndpointId) (timestamp : Z)
    (eps : gmap EndpointId Endpoint) : list Commit * gmap EndpointId Endpoint :=
  match eids with
  | [] => ([], eps)
  | eid :: rest =>
      let '(commits, eps') := destroy_endpoints rest timestamp (delete eid eps) in
      (match eps !! eid with
       | Some _ => new_commit timestamp (EndpointDestroyed eid) :: commits
       | None => commits
       end, eps')
  end.

Definition cleanup_process_endpoints (pid : ProcessId) (timestamp : Z) k
  : list Commit * KernelCore H :=
  let owned_endpoints :=
    (List.filter (fun '(_, ep) => ep_owner ep =? pid) (btree_iter (endpoints k))).*1 in
  let '(commits, eps) := destroy_endpoints owned_endpoints timestamp (endpoints k) in
  (commits, set_endpoints eps k).

Definition kill_process (pid : ProcessId) (timestamp : Z) k : list Commit * KernelCore H :=
  let '(commits, k) :=
    match processes k !! pid with
    | Some proc =>
        let k := set_processes (delete pid (processes k)) k in
        let k := debug ("[kernel] Killed process: " +:+ proc_name proc +:+ " (PID "
          +:+ pretty pid +:+ ")") k in
        ([new_commit timestamp (ProcessExited pid (-1))], k)
    | None => ([], k)
    end in
  let k := set_cap_spaces (delete pid (cap_spaces k)) k in
  let '(more, k) := cleanup_process_endpoints pid timestamp k in
  (commits ++ more, k).

Definition kill_process_with_cap_check (caller target_pid : ProcessId) (timestamp : Z) k
  : (result unit KernelError * list Commit) * KernelCore H :=
  if negb (contains_key (processes k) target_pid) then ((Err ProcessNotFound, []), k)
  else if caller =? 1 then
    let k := debug ("[kernel] Init (PID 1) killing process PID " +:+ pretty target_pid
      +:+ " (implicit permission)") k in
    let '(commits, k) := kill_process target_pid timestamp k in
    ((Ok tt, commits), k)
  else if negb (has_kill_permission k caller target_pid) then
    let k := debug ("[kernel] Kill denied: PID " +:+ pretty caller
      +:+ " lacks Process capability for PID " +:+ pretty target_pid) k in
    ((Err PermissionDenied, []), k)
  else
    let k := debug ("[kernel] PID " +:+ pretty caller +:+ " killing process PID "
      +:+ pretty target_pid +:+ " (capability verified)") k in
    let '(commits, k) := kill_process target_pid timestamp k in
    ((Ok tt, commits), k).

Definition fault_process (pid : ProcessId) (reason : Z) (description : string) (timestamp : Z) k
  : list Commit * KernelCore H :=
  let '(commits, k) :=
    if contains_key (processes k) pid then
      let k := debug ("[kernel] Process " +:+ pretty pid +:+ " faulted: " +:+ description
        +:+ " (reason " +:+ pretty reason +:+ ")") k in
      ([new_commit timestamp (ProcessFaulted pid reason description)], k)
    else ([], k) in
  let '(more, k) := kill_process pid timestamp k in
  (commits ++ more, k).
End process.

(** * Typed syscall dispatch of the kernel (crates/zos-kernel/src/core/syscall.rs) *)
From S2P Require Import KernelIpc.

Definition count_syscall (timestamp : Z) (p : Process) : Process :=
  let m := proc_metrics p in
  set_proc_metrics (mk_ProcessMetrics (memory_size m) (ipc_sent m) (ipc_received m)
    (ipc_bytes_sent m) (ipc_bytes_received m) (u64_add (syscall_count m) 1) timestamp
    (start_time_ns m)) p.

(** [Ok(()) => SyscallResult::Ok(0), Err(e) => SyscallResult::Err(e)]. *)
Definition unit_result (r : result unit KernelError) : SyscallResult :=
  match r with Ok _ => SR_Ok 0 | Err e => SR_Err e end.

(** [Ok(new_slot) => SyscallResult::Ok(new_slot as u64), ...]. *)
Definition slot_result (r : result CapSlot KernelError) : SyscallResult :=
  match r with Ok new_slot => SR_Ok new_slot | Err e => SR_Err e end.

Section syscall.
Context {H : Type} `{HAL H}.
Implicit Types k : KernelCore H.

Definition update_syscall_metrics (from_pid : ProcessId) (timestamp : Z) k : KernelCore H :=
  set_processes (btree_update (count_syscall timestamp) from_pid (processes k)) k.

Definition handle_debug (from_pid : ProcessId) (msg : string) k
  : (SyscallResult * list Commit) * KernelCore H :=
  ((SR_Ok 0, []), debug ("[PID " +:+ pretty from_pid +:+ "] " +:+ msg) k).

Definition handle_create_endpoint (from_pid : ProcessId) (timestamp : Z) k
  : (SyscallResult * list Commit) * KernelCore H :=
  let '((r, commits), k) := create_endpoint from_pid timestamp k in
  let syscall_result :=
    match r with
    | Ok (eid, slot) => SR_Ok (Z.lor (wrap_u64 (Z.shiftl slot 32)) (Z.land eid 0xFFFFFFFF))
    | Err e => SR_Err e
    end in
  ((syscall_result, commits), k).

Definition handle_send (from_pid : ProcessId) (endpoint_slot tag : Z) (data : list byte)
    (timestamp : Z) k : (SyscallResult * list Commit) * KernelCore H :=
  let '((r, commit), k) := ipc_send from_pid endpoint_slot tag data timestamp k in
  ((unit_result r, option_list commit), k).

Definition handle_receive (from_pid : ProcessId) (endpoint_slot timestamp : Z) k
  : (SyscallResult * list Commit) * KernelCore H :=
  let '(r, k) := ipc_receive from_pid endpoint_slot timestamp k in
  let syscall_result :=
    match r with
    | Ok (Some msg) => SR_Message msg
    | Ok None => SR_WouldBlock
    | Err e => SR_Err e
    end in
  ((syscall_result, []), k).

Definition handle_send_with_caps (from_pid : ProcessId) (endpoint_slot tag : Z)
    (data : list byte) (cap_slots : list CapSlot) (timestamp : Z) k
  : (SyscallResult * list Commit) * KernelCore H :=
  let '((r, commits), k) := ipc_send_with_caps from_pid endpoint_slot tag data cap_slots timestamp k in
  ((unit_result r, commits), k).

Definition handle_call (from_pid : ProcessId) (endpoint_slot tag : Z) (data : list byte)
    (timestamp : Z) k : (SyscallResult * list Commit) * KernelCore H :=
  let '((r, commit), k) := ipc_send from_pid endpoint_slot tag data timestamp k in
  ((match r with Ok _ => SR_WouldBlock | Err e => SR_Err e end, option_list commit), k).

Definition handle_list_caps (from_pid : ProcessId) k : SyscallResult * list Commit :=
  (SR_CapList (match cap_spaces k !! from_pid with Some cs => cs_list cs | None => [] end), []).

Definition handle_cap_grant (from_pid : ProcessId) (from_slot : CapSlot) (to_pid : ProcessId)
    (permissions : Permissions) (timestamp : Z) k
  : (SyscallResult * list Commit) * KernelCore H :=
  let '((r, commits), k) := grant_capability from_pid from_slot to_pid permissions timestamp k in
  ((slot_result r, commits), k).

Definition handle_cap_revoke (from_pid : ProcessId) (slot : CapSlot) (timestamp : Z) k
  : (SyscallResult * list Commit) * KernelCore H :=
  let '((r, commits), k) := revoke_capability from_pid slot timestamp k in
  ((unit_result r, commits), k).

Definition handle_cap_delete (from_pid : ProcessId) (slot : CapSlot) (timestamp : Z) k
  : (SyscallResult * list Commit) * KernelCore H :=
  let '((r, commits), k) := delete_capability from_pid slot timestamp k in
  ((unit_result r, commits), k).

Definition handle_cap_inspect (from_pid : ProcessId) (slot : CapSlot) k
  : SyscallResult * list Commit :=
  (match cap_spaces k !! from_pid with
   | Some cspace =>
       match cs_get cspace slot with
       | Some cap => SR_CapInfo (CapInfo_from cap)
       | None => SR_Err InvalidCapability
       end
   | None => SR_Err ProcessNotFound
   end, []).

Definition handle_cap_derive (from_pid : ProcessId) (slot : CapSlot)
    (new_permissions : Permissions) (timestamp : Z) k
  : (SyscallResult * list Commit) * KernelCore H :=
  let '((r, commits), k) := derive_capability from_pid slot new_permissions timestamp k in
  ((slot_result r, commits), k).

Definition handle_list_processes k : SyscallResult * list Commit :=
  (SR_ProcessList ((fun kp => (kp.1, proc_name kp.2, proc_state kp.2)) <$> btree_iter (processes k)),
   []).

Definition handle_exit (from_pid : ProcessId) (code timestamp : Z) k
  : (SyscallResult * list Commit) * KernelCore H :=
  let k := set_processes (btree_update (set_proc_state Zombie) from_pid (processes k)) k in
  ((SR_Ok (wrap_u64 code), [new_commit timestamp (ProcessExited from_pid code)]), k).

Definition handle_kill (from_pid target_pid : ProcessId) (timestamp : Z) k
  : (SyscallResult * list Commit) * KernelCore H :=
  let '((r, commits), k) := kill_process_with_cap_check from_pid target_pid timestamp k in
  ((unit_result r, commits), k).

Definition handle_syscall (from_pid : ProcessId) (syscall : Syscall) (timestamp : Z) k
  : (SyscallResult * list Commit) * KernelCore H :=
  let k := update_syscall_metrics from_pid timestamp k in
  match syscall with
  | Debug msg => handle_debug from_pid msg k
  | CreateEndpoint => handle_create_endpoint from_pid timestamp k
  | Send endpoint_slot tag data => handle_send from_pid endpoint_slot tag data timestamp k
  | Receive endpoint_slot => handle_receive from_pid endpoint_slot timestamp k
  | SendWithCaps endpoint_slot tag data cap_slots =>
      handle_send_with_caps from_pid endpoint_slot tag data cap_slots timestamp k
  | Call endpoint_slot tag data => handle_call from_pid endpoint_slot tag data timestamp k
  | ListCaps => (handle_list_caps from_pid k, k)
  | CapGrant from_slot to_pid permissions =>
      handle_cap_grant from_pid from_slot to_pid permissions timestamp k
  | CapRevoke slot => handle_cap_revoke from_pid slot timestamp k
  | CapDelete slot => handle_cap_delete from_pid slot timestamp k
  | CapInspect slot => (handle_cap_inspect from_pid slot k, k)
  | CapDerive slot new_permissions => handle_cap_derive from_pid slot new_permissions timestamp k
  | ListProcesses => (handle_list_processes k, k)
  | Exit code => handle_exit from_pid code timestamp k
  | Kill target_pid => handle_kill from_pid target_pid timestamp k
  | GetTime => ((SR_Ok timestamp, []), k)
  | Yield => ((SR_Ok 0, []), k)
  end.
End syscall.
