(* ===== verification/System.v ===== *)
(** * Numeric syscall dispatch (crates/zos-kernel/src/system: mod.rs, lifecycle.rs, metrics.rs)

    The functions that turn a syscall number, four words and a byte payload
    into kernel operations. A function that can panic returns an [option],
    [None] standing for the panic; only the parsing of length-prefixed payloads
    can, through an out-of-order slice. *)
From S2P Require Import Prelude AxiomTypes CommitLog StrLib Hal.
From S2P Require Import KernelState KernelIpc KernelSyscall.

(** [args[0]], [args[1]], [args[2]]. *)
Definition arg0 (args : args4) : Z := let '(a, _, _, _) := args in a.
Definition arg1 (args : args4) : Z := let '(_, b, _, _) := args in b.
Definition arg2 (args : args4) : Z := let '(_, _, c, _) := args in c.

(** [commits.into_iter().map(|c| c.commit_type).collect()]. *)
Definition commit_types (commits : list Commit) : list CommitType := c_commit_type <$> commits.

(** Result code, commits and response bytes. *)
Abbreviation Response3 := (Z * list CommitType * list byte)%type (only parsing).

(** A number split into the low or the high 32-bit word, selected by [args[0]]. *)
Definition select_word (args : args4) (n : Z) : Z :=
  if arg0 args =? 0 then Z.land n 0xFFFFFFFF else Z.land (Z.shiftr n 32) 0xFFFFFFFF.

(** [&data[lo..hi]]; [None] when the slice panics. *)
Definition slice (data : list byte) (lo hi : Z) : option (list byte) :=
  if (hi <? lo) || (len data <? hi) then None
  else Some (take (Z.to_nat (hi - lo)) (drop (Z.to_nat lo) data)).

(** The outcome of splitting [[n: u32 LE][n bytes][rest]]. *)
Inductive prefixed : Type :=
| P_short
| P_bad_utf8
| P_ok (key : string) (rest : list byte).

(** The common parse of length-prefixed payloads; [None] when it panics. *)
Definition parse_prefixed `{Target} (data : list byte) : option prefixed :=
  if len data <? 4 then Some P_short
  else
    let key_len := from_le_bytes (take 4 data) in
    if len data <? usize_add 4 key_len then Some P_short
    else
      match slice data 4 (usize_add 4 key_len) with
      | None => None
      | Some key_bytes =>
          match from_utf8 key_bytes with
          | None => Some P_bad_utf8
          | Some key =>
              match slice data (usize_add 4 key_len) (len data) with
              | None => None
              | Some value => Some (P_ok key value)
              end
          end
      end.

(** The serialization of a received message. *)
Definition serialize_ipc_message (msg : Message) : list byte :=
  let num_caps := wrap_u8 (len (msg_transferred_caps msg)) in
  u32_to_le_bytes (wrap_u32 (msg_from msg)) ++ u32_to_le_bytes (msg_tag msg) ++
  [byte_of_Z num_caps] ++
  mjoin ((fun cap => u32_to_le_bytes (default 0 (tc_receiver_slot cap)))
           <$> msg_transferred_caps msg) ++
  msg_data msg.

Section dispatch.
Context {H : Type} `{HAL H} `{Target}.
Implicit Types k : KernelCore H.

(** A call of a HAL method through [core.hal()]. *)
Definition with_hal {T : Type} (f : H -> T * H) k : T * KernelCore H :=
  let '(r, h) := f (hal k) in (r, set_hal h k).

(** [Ok(request_id) => (request_id as i64, vec![]), Err(_) => (-1, vec![])]. *)
Definition async_result (r : result Z HalError) : Z * list CommitType :=
  match r with Ok request_id => (request_id, []) | Err _ => (-1, []) end.

(** A storage or keystore request whose payload is a key. *)
Definition key_request (f : string -> HalM H Z) (data : list byte) k
  : (Z * list CommitType) * KernelCore H :=
  match from_utf8 data with
  | None => ((-1, []), k)
  | Some key => let '(r, k) := with_hal (f key) k in (async_result r, k)
  end.

(** A storage or keystore request whose payload is a key and a value. *)
Definition key_value_request (f : string -> list byte -> HalM H Z) (data : list byte) k
  : option ((Z * list CommitType) * KernelCore H) :=
  match parse_prefixed data with
  | None => None
  | Some P_short => Some ((-1, []), k)
  | Some P_bad_utf8 => Some ((-1, []), k)
  | Some (P_ok key value) =>
      let '(r, k) := with_hal (f key value) k in Some (async_result r, k)
  end.

Definition execute_storage_read (sender : ProcessId) (data : list byte) k :=
  key_request (storage_read_async sender) data k.
Definition execute_storage_write (sender : ProcessId) (data : list byte) k :=
  key_value_request (storage_write_async sender) data k.
Definition execute_storage_delete (sender : ProcessId) (data : list byte) k :=
  key_request (storage_delete_async sender) data k.
Definition execute_storage_list (sender : ProcessId) (data : list byte) k :=
  key_request (storage_list_async sender) data k.
Definition execute_storage_exists (sender : ProcessId) (data : list byte) k :=
  key_request (storage_exists_async sender) data k.

Definition execute_storage_syscall (syscall_num : Z) (sender : ProcessId) (data : list byte) k
  : option ((Z * list CommitType) * KernelCore H) :=
  match syscall_num with
  | 0x70 => Some (execute_storage_read sender data k)
  | 0x71 => execute_storage_write sender data k
  | 0x72 => Some (execute_storage_delete sender data k)
  | 0x73 => Some (execute_storage_list sender data k)
  | 0x74 => Some (execute_storage_exists sender data k)
  | _ => Some ((-1, []), k)
  end.

Definition execute_keystore_read (sender : ProcessId) (data : list byte) k :=
  key_request (keystore_read_async sender) data k.
Definition execute_keystore_write (sender : ProcessId) (data : list byte) k :=
  key_value_request (keystore_write_async sender) data k.
Definition execute_keystore_delete (sender : ProcessId) (data : list byte) k :=
  key_request (keystore_delete_async sender) data k.
Definition execute_keystore_list (sender : ProcessId) (data : list byte) k :=
  key_request (keystore_list_async sender) data k.
Definition execute_keystore_exists (sender : ProcessId) (data : list byte) k :=
  key_request (keystore_exists_async sender) data k.

Definition execute_keystore_syscall (syscall_num : Z) (sender : ProcessId) (data : list byte) k
  : option ((Z * list CommitType) * KernelCore H) :=
  match syscall_num with
  | 0x80 => Some (execute_keystore_read sender data k)
  | 0x81 => execute_keystore_write sender data k
  | 0x82 => Some (execute_keystore_delete sender data k)
  | 0x83 => Some (execute_keystore_list sender data k)
  | 0x84 => Some (execute_keystore_exists sender data k)
  | _ => Some ((-1, []), k)
  end.

Definition execute_network_syscall (sender : ProcessId) (data : list byte) k
  : (Z * list CommitType) * KernelCore H :=
  let '(r, k) := with_hal (network_fetch_async sender data) k in (async_result r, k).

Definition execute_basic_syscall (syscall_num : Z) (sender : ProcessId) (args : args4) k
  : (Z * list CommitType) * KernelCore H :=
  match syscall_num with
  | 0x00 => ((0, []), k)
  | 0x01 => ((0, []), k)
  | 0x02 => let '(nanos, k) := with_hal now_nanos k in ((select_word args nanos, []), k)
  | 0x03 => ((as_i64 sender, []), k)
  | 0x04 => ((0, []), k)
  | 0x05 => ((0, []), k)
  | 0x06 => let '(millis, k) := with_hal wallclock_ms k in ((select_word args millis, []), k)
  | 0x07 => ((0, []), k)
  | _ => ((-1, []), k)
  end.

(** ** lifecycle.rs *)
Definition execute_exit (sender : ProcessId) (timestamp : Z) k
  : (Z * list CommitType) * KernelCore H :=
  let '(commits, k) := kill_process sender timestamp k in ((0, commit_types commits), k).

Definition execute_kill_with_cap (sender : ProcessId) (args : args4) (timestamp : Z) k
  : (Z * list CommitType) * KernelCore H :=
  let target_pid := arg0 args in
  match kill_process_with_cap_check sender target_pid timestamp k with
  | ((Ok _, commits), k) => ((0, commit_types commits), k)
  | ((Err _, _), k) => ((-1, []), k)
  end.

Definition execute_register_process (sender : ProcessId) (data : list byte) (timestamp : Z) k
  : (Z * list CommitType) * KernelCore H :=
  if negb (sender =? 1) then ((-1, []), k)
  else
    let name := default "unknown" (from_utf8 data) in
    let '((pid, commits), k) := register_process name timestamp k in
    ((as_i64 pid, commit_types commits), k).

Definition execute_create_endpoint_for (sender : ProcessId) (args : args4) (timestamp : Z) k
  : (Z * list CommitType) * KernelCore H :=
  if negb (sender =? 1) then ((-1, []), k)
  else
    let target_pid := arg0 args in
    let '((r, commits), k) := create_endpoint target_pid timestamp k in
    let cts := commit_types commits in
    match r with
    | Ok (eid, _owner_slot) =>
        let init_pid := 1 in
        let '(id, k) := alloc_cap_id k in
        let cap := mk_Capability id OT_Endpoint eid full 0 0 in
        match insert_cap init_pid cap k with
        | None => ((-1, cts), k)
        | Some (init_slot, k) =>
            let packed := Z.lor (as_i64 (Z.shiftl init_slot 32)) (Z.land (as_i64 eid) 0xFFFFFFFF) in
            ((packed, cts), k)
        end
    | Err _ => ((-1, cts), k)
    end.

Definition execute_load_binary (sender : ProcessId) (data : list byte) k
  : Response3 * KernelCore H :=
  if negb (sender =? INIT) then ((PERMISSION_DENIED, [], []), k)
  else match from_utf8 data with
  | None => ((INVALID_UTF8, [], []), k)
  | Some name =>
      let '(r, k) := with_hal (load_binary name) k in
      match r with
      | Ok binary => ((as_i64 (len binary), [], binary), k)
      | Err NotFound => ((NOT_FOUND, [], []), k)
      | Err NotSupported => ((NOT_SUPPORTED, [], []), k)
      | Err _ => ((NOT_FOUND, [], []), k)
      end
  end.

Definition execute_spawn_process (sender : ProcessId) (data : list byte) (timestamp : Z) k
  : option ((Z * list CommitType) * KernelCore H) :=
  if negb (sender =? INIT) then Some ((PERMISSION_DENIED, []), k)
  else match parse_prefixed data with
  | None => None
  | Some P_short => Some ((INVALID_ARGUMENT, []), k)
  | Some P_bad_utf8 => Some ((INVALID_UTF8, []), k)
  | Some (P_ok name binary) =>
      match binary with
      | [] => Some ((INVALID_ARGUMENT, []), k)
      | _ :: _ =>
          let '((pid, commits), k) := register_process name timestamp k in
          let '(r, k) := with_hal (hal_spawn_process_with_pid pid name binary) k in
          match r with
          | Ok _ => Some ((as_i64 pid, commit_types commits), k)
          | Err _ => Some ((SPAWN_FAILED, commit_types commits), k)
          end
      end
  end.

(** ** mod.rs *)
Definition with_no_data (r : (Z * list CommitType) * KernelCore H) : Response3 * KernelCore H :=
  let '((res, c), k) := r in ((res, c, []), k).

Definition execute_process_syscall (syscall_num : Z) (sender : ProcessId) (args : args4)
    (data : list byte) (timestamp : Z) k : option (Response3 * KernelCore H) :=
  if syscall_num =? 0x11 then Some (with_no_data (execute_exit sender timestamp k))
  else if syscall_num =? 0x12 then Some ((0, [], []), k)
  else if syscall_num =? 0x13 then Some (with_no_data (execute_kill_with_cap sender args timestamp k))
  else if syscall_num =? 0x14 then Some (with_no_data (execute_register_process sender data timestamp k))
  else if syscall_num =? 0x15 then Some (with_no_data (execute_create_endpoint_for sender args timestamp k))
  else if syscall_num =? 0x16 then Some (execute_load_binary sender data k)
  else if syscall_num =? 0x17 then with_no_data <$> execute_spawn_process sender data timestamp k
  else Some ((-1, [], []), k).

Definition execute_capability_syscall (syscall_num : Z) (sender : ProcessId) (args : args4)
    (timestamp : Z) k : (Z * list CommitType) * KernelCore H :=
  if syscall_num =? 0x30 then
      let from_slot := arg0 args in
      let to_pid := arg1 args in
      let perms := from_byte (wrap_u8 (arg2 args)) in
      match grant_capability sender from_slot to_pid perms timestamp k with
      | ((Ok new_slot, commits), k) => ((new_slot, commit_types commits), k)
      | ((Err _, _), k) => ((-1, []), k)
      end
  else if syscall_num =? 0x31 then
      let target_pid := arg0 args in
      let slot := arg1 args in
      match delete_capability target_pid slot timestamp k with
      | ((Ok _, commits), k) => ((0, commit_types commits), k)
      | ((Err _, _), k) => ((-1, []), k)
      end
  else if syscall_num =? 0x35 then
      let '((r, commits), k) := create_endpoint sender timestamp k in
      match r with
      | Ok (eid, _slot) => ((as_i64 eid, commit_types commits), k)
      | Err _ => ((-1, commit_types commits), k)
      end
  else ((-1, []), k).

Definition execute_ipc_syscall (syscall_num : Z) (sender : ProcessId) (args : args4)
    (data : list byte) (timestamp : Z) k : Response3 * KernelCore H :=
  if syscall_num =? 0x40 then
      let slot := arg0 args in
      let tag := arg1 args in
      let '((r, commit), k) := ipc_send sender slot tag data timestamp k in
      let cts := commit_types (option_list commit) in
      match r with
      | Ok _ => ((0, cts, []), k)
      | Err _ => ((-1, cts, []), k)
      end
  else if syscall_num =? 0x41 then
      let slot := arg0 args in
      match ipc_receive sender slot timestamp k with
      | (Ok (Some msg), k) => ((1, [], serialize_ipc_message msg), k)
      | (Ok None, k) => ((0, [], []), k)
      | (Err _, k) => ((-1, [], []), k)
      end
  else ((-1, [], []), k).

Definition in_span (lo hi n : Z) : bool := (lo <=? n) && (n <=? hi).

Definition execute_syscall_kernel_fn (syscall_num : Z) (sender : ProcessId) (args : args4)
    (data : list byte) (timestamp : Z) k : option (Response3 * KernelCore H) :=
  if in_span 0x00 0x07 syscall_num then
    Some (with_no_data (execute_basic_syscall syscall_num sender args k))
  else if in_span 0x11 0x17 syscall_num then
    execute_process_syscall syscall_num sender args data timestamp k
  else if (syscall_num =? 0x30) || (syscall_num =? 0x31) || (syscall_num =? 0x35) then
    Some (with_no_data (execute_capability_syscall syscall_num sender args timestamp k))
  else if (syscall_num =? 0x40) || (syscall_num =? 0x41) then
    Some (execute_ipc_syscall syscall_num sender args data timestamp k)
  else if syscall_num =? 0x50 then Some ((0, [], []), k)
  else if in_span 0x70 0x74 syscall_num then
    with_no_data <$> execute_storage_syscall syscall_num sender data k
  else if in_span 0x80 0x84 syscall_num then
    with_no_data <$> execute_keystore_syscall syscall_num sender data k
  else if syscall_num =? 0x90 then Some (with_no_data (execute_network_syscall sender data k))
  else Some ((-1, [], []), k).

(** ** metrics.rs *)
Definition default_rich_result (res : Z) : SyscallResult * list byte * list CommitType :=
  if 0 <=? res then (SR_Ok (wrap_u64 res), [], [])
  else (SR_Err PermissionDenied, [], []).

Definition format_caps_list (sender : ProcessId) (res timestamp : Z) k
  : (SyscallResult * list byte * list CommitType) * KernelCore H :=
  let '((rich_result, _), k) := handle_syscall sender ListCaps timestamp k in
  match rich_result with
  | SR_CapList caps =>
      let bytes := u32_to_le_bytes (wrap_u32 (len caps)) ++
        mjoin ((fun sc : CapSlot * Capability =>
          u32_to_le_bytes sc.1 ++ [byte_of_Z (ObjectType_as_u8 (cap_object_type sc.2))] ++
          u64_to_le_bytes (cap_object_id sc.2)) <$> caps) in
      ((rich_result, bytes, []), k)
  | _ => ((SR_Ok (wrap_u64 res), [], []), k)
  end.

Definition format_process_list (sender : ProcessId) (res timestamp : Z) k
  : (SyscallResult * list byte * list CommitType) * KernelCore H :=
  let '((rich_result, _), k) := handle_syscall sender ListProcesses timestamp k in
  match rich_result with
  | SR_ProcessList procs =>
      let bytes := u32_to_le_bytes (wrap_u32 (len procs)) ++
        mjoin ((fun '(proc_pid, name, _) =>
          u32_to_le_bytes (wrap_u32 proc_pid) ++ u16_to_le_bytes (wrap_u16 (str_len name)) ++
          str_bytes name) <$> procs) in
      ((rich_result, bytes, []), k)
  | _ => ((SR_Ok (wrap_u64 res), [], []), k)
  end.

Definition format_receive_result (sender : ProcessId) (args : args4) (res timestamp : Z) k
  : (SyscallResult * list byte * list CommitType) * KernelCore H :=
  if res =? 1 then
    let slot := arg0 args in
    let '((recv_result, commits), k) := ipc_receive_with_caps sender slot timestamp k in
    let cts := commit_types commits in
    match recv_result with
    | Ok (Some (msg, installed_slots)) =>
        let msg_bytes := u32_to_le_bytes (wrap_u32 (msg_from msg)) ++
          u32_to_le_bytes (msg_tag msg) ++ [byte_of_Z (wrap_u8 (len installed_slots))] ++
          mjoin (u32_to_le_bytes <$> installed_slots) ++ msg_data msg in
        ((SR_Message msg, msg_bytes, cts), k)
    | _ => ((SR_Ok (wrap_u64 res), [], cts), k)
    end
  else if res =? 0 then ((SR_WouldBlock, [], []), k)
  else ((SR_Err PermissionDenied, [], []), k).

Definition get_syscall_rich_result (sender : ProcessId) (syscall_num : Z) (args : args4)
    (res timestamp : Z) k : (SyscallResult * list byte * list CommitType) * KernelCore H :=
  if syscall_num =? 0x35 then format_caps_list sender res timestamp k
  else if syscall_num =? 0x50 then format_process_list sender res timestamp k
  else if syscall_num =? 0x41 then format_receive_result sender args res timestamp k
  else (default_rich_result res, k).
End dispatch.

(** * The system: Axiom and kernel combined (crates/zos-kernel/src/system/mod.rs)

    [System<H>] logs each syscall, executes it, records its commits and logs
    the response; its other methods wrap one kernel operation each and record
    its commits. *)
From S2P Require Import Gateway.

Record System (H : Type) : Type := mk_System {
  axiom : AxiomGateway;
  kernel : KernelCore H;
  boot_time : Z }.
Arguments mk_System {H}.
Arguments axiom {H}.
Arguments kernel {H}.
Arguments boot_time {H}.

Section system.
Context {H : Type} `{HAL H} `{Target}.
Implicit Types s : System H.

Definition System_new (h : H) : System H :=
  let '(bt, h) := now_nanos h in
  mk_System (AxiomGateway_new bt) (KernelCore_new h) bt.

Definition set_axiom (a : AxiomGateway) s : System H := mk_System a (kernel s) (boot_time s).
Definition set_kernel (k : KernelCore H) s : System H := mk_System (axiom s) k (boot_time s).

(** Mutation of the audit log through [axiom.syslog_mut()]. *)
Definition set_syslog (l : SysLog) s : System H :=
  set_axiom (mk_AxiomGateway l (commitlog (axiom s))) s.

Definition uptime_nanos s : Z * System H :=
  let '(now, k) := with_hal now_nanos (kernel s) in
  (sat_sub now (boot_time s), set_kernel k s).

(** [for ct in cts { axiom.append_internal_commit(ct, timestamp) }]. *)
Definition append_commit_types (cts : list CommitType) (timestamp : Z) s : System H :=
  set_axiom (foldl (fun a ct => (append_internal_commit ct timestamp a).2) (axiom s) cts) s.

Definition record_commits (commits : list Commit) (timestamp : Z) s : System H :=
  append_commit_types (commit_types commits) timestamp s.

Definition process_syscall (sender : ProcessId) (syscall_num : Z) (args : args4)
    (data : list byte) s : option ((Z * SyscallResult * list byte) * System H) :=
  let '(timestamp, s) := uptime_nanos s in
  let '(req_id, sl) := log_request sender syscall_num args timestamp (syslog (axiom s)) in
  let s := set_syslog sl s in
  match execute_syscall_kernel_fn syscall_num sender args data timestamp (kernel s) with
  | None => None
  | Some ((res, cts, kernel_response_data), k) =>
      let s := set_kernel k s in
      let s := append_commit_types cts timestamp s in
      let '((rich_result, metrics_response_data, additional_commits), k) :=
        get_syscall_rich_result sender syscall_num args res timestamp (kernel s) in
      let s := set_kernel k s in
      let s := append_commit_types additional_commits timestamp s in
      let s := set_syslog (log_response sender req_id res timestamp (syslog (axiom s))) s in
      let response_data :=
        match kernel_response_data with
        | _ :: _ => kernel_response_data
        | [] => metrics_response_data
        end in
      Some ((res, rich_result, response_data), s)
  end.

(** The pattern of the wrapper methods: read the clock, run one kernel
    operation, record its commits. *)
Definition recorded {T : Type} (op : Z -> KernelCore H -> (T * list Commit) * KernelCore H) s
  : T * System H :=
  let '(timestamp, s) := uptime_nanos s in
  let '((r, commits), k) := op timestamp (kernel s) in
  (r, record_commits commits timestamp (set_kernel k s)).

(** ** Process management *)
Definition sys_register_process (name : string) s : ProcessId * System H :=
  recorded (register_process name) s.

Definition sys_register_process_with_pid (pid : ProcessId) (name : string) s
  : ProcessId * System H :=
  recorded (register_process_with_pid pid name) s.

Definition sys_kill_process (pid : ProcessId) s : System H :=
  (recorded (fun t k => let '(commits, k) := kill_process pid t k in ((tt, commits), k)) s).2.

Definition sys_fault_process (pid : ProcessId) (reason : Z) (description : string) s : System H :=
  (recorded (fun t k =>
     let '(commits, k) := fault_process pid reason description t k in ((tt, commits), k)) s).2.

(** ** Endpoints and capabilities *)
Definition sys_create_endpoint (owner : ProcessId) s
  : result (EndpointId * CapSlot) KernelError * System H :=
  recorded (create_endpoint owner) s.

Definition sys_grant_capability (from_pid : ProcessId) (from_slot : CapSlot) (to_pid : ProcessId)
    (perms : Permissions) s : result CapSlot KernelError * System H :=
  recorded (grant_capability from_pid from_slot to_pid perms) s.

Definition sys_grant_capability_to_endpoint (owner_pid : ProcessId) (endpoint_id : EndpointId)
    (to_pid : ProcessId) (perms : Permissions) s : result CapSlot KernelError * System H :=
  recorded (grant_capability_to_endpoint owner_pid endpoint_id to_pid perms) s.

Definition sys_revoke_capability (pid : ProcessId) (slot : CapSlot) s
  : result unit KernelError * System H :=
  recorded (revoke_capability pid slot) s.

Definition sys_delete_capability (pid : ProcessId) (slot : CapSlot) s
  : result unit KernelError * System H :=
  recorded (delete_capability pid slot) s.

Definition delete_capability_with_notification (pid : ProcessId) (slot : CapSlot) (reason : Z) s
  : result RevokeNotification KernelError * System H :=
  let cap_info :=
    match get_cap_space (kernel s) pid with
    | Some cs => (fun cap => (ObjectType_as_u8 (cap_object_type cap), cap_object_id cap))
                   <$> cs_get cs slot
    | None => None
    end in
  match sys_delete_capability pid slot s with
  | (Err e, s) => (Err e, s)
  | (Ok _, s) =>
      match cap_info with
      | Some (object_type, object_id) =>
          (Ok (mk_RevokeNotification pid slot object_type object_id reason), s)
      | None => (Ok RevokeNotification_empty, s)
      end
  end.

Definition sys_derive_capability (pid : ProcessId) (slot : CapSlot) (new_perms : Permissions) s
  : result CapSlot KernelError * System H :=
  recorded (derive_capability pid slot new_perms) s.

(** ** Messages *)
Definition inject_to_init (tag : Z) (data : list byte) s : result unit KernelError * System H :=
  let '(timestamp, s) := uptime_nanos s in
  let init_pid := 1 in
  match List.find (fun e => ei_owner e =? init_pid) (list_endpoints (kernel s)) with
  | None => (Err EndpointNotFound, s)
  | Some e =>
      let init_endpoint := ei_id e in
      let message := mk_Message 0 tag data [] in
      match endpoints (kernel s) !! init_endpoint with
      | None => (Err EndpointNotFound, s)
      | Some endpoint =>
          let k := set_endpoints (<[init_endpoint := push_message message endpoint]>
                     (endpoints (kernel s))) (kernel s) in
          let s := set_kernel k s in
          (Ok tt, append_commit_types [MessageSent 0 init_endpoint tag (len data)] timestamp s)
      end
  end.

Definition sys_ipc_send (from_pid : ProcessId) (endpoint_slot tag : Z) (data : list byte) s
  : result unit KernelError * System H :=
  recorded (fun t k =>
    let '((r, commit), k) := ipc_send from_pid endpoint_slot tag data t k in
    ((r, option_list commit), k)) s.

Definition sys_ipc_send_with_caps (from_pid : ProcessId) (endpoint_slot tag : Z)
    (data : list byte) (cap_slots : list CapSlot) s : result unit KernelError * System H :=
  recorded (ipc_send_with_caps from_pid endpoint_slot tag data cap_slots) s.

Definition sys_ipc_receive (pid : ProcessId) (endpoint_slot : CapSlot) s
  : result (option Message) KernelError * System H :=
  let '(timestamp, s) := uptime_nanos s in
  let '(r, k) := ipc_receive pid endpoint_slot timestamp (kernel s) in
  (r, set_kernel k s).

Definition sys_ipc_receive_with_caps (pid : ProcessId) (endpoint_slot : CapSlot) s
  : result (option (Message * list CapSlot)) KernelError * System H :=
  recorded (ipc_receive_with_caps pid endpoint_slot) s.

Definition sys_handle_syscall (pid : ProcessId) (syscall : Syscall) s
  : SyscallResult * System H :=
  recorded (handle_syscall pid syscall) s.

(** ** Memory and metrics *)
Definition sys_allocate_memory (pid : ProcessId) (bytes : Z) s : result Z KernelError * System H :=
  let '(r, k) := allocate_memory pid bytes (kernel s) in (r, set_kernel k s).

Definition sys_free_memory (pid : ProcessId) (bytes : Z) s : result Z KernelError * System H :=
  let '(r, k) := free_memory pid bytes (kernel s) in (r, set_kernel k s).

Definition sys_update_process_memory (pid : ProcessId) (new_size : Z) s : System H :=
  set_kernel (update_process_memory pid new_size (kernel s)) s.

Definition sys_get_system_metrics s : SystemMetrics * System H :=
  let '(uptime, s) := uptime_nanos s in (get_system_metrics (kernel s) uptime, s).

(** [System::new_for_replay()], on the platform's default state. *)
Definition System_new_for_replay (default_hal : H) : System H :=
  mk_System (AxiomGateway_new 0) (KernelCore_new default_hal) 0.
End system.

(** * Length-prefixed payloads

    Properties of the parser shared by the storage, keystore and spawn
    syscalls: it inverts the encoding, and it panics only where [4 + key_len]
    overflows [usize]. *)

(** [[n: u32 LE][n bytes][rest]]. *)
Definition encode_prefixed (key value : list byte) : list byte :=
  u32_to_le_bytes (len key) ++ key ++ value.

Lemma slice_app (l1 l2 l3 : list byte) lo hi :
  lo = len l1 -> hi = len l1 + len l2 -> slice (l1 ++ l2 ++ l3) lo hi = Some l2.
Proof.
  intros -> ->. unfold slice, len. rewrite !length_app.
  destruct (Z.ltb_spec (Z.of_nat (length l1) + Z.of_nat (length l2)) (Z.of_nat (length l1))); [lia|].
  destruct (Z.ltb_spec (Z.of_nat (length l1 + (length l2 + length l3)))
    (Z.of_nat (length l1) + Z.of_nat (length l2))); [lia|]. simpl. f_equal.
  rewrite Nat2Z.id, drop_app_length.
  replace (Z.to_nat _) with (length l2) by lia. apply take_app_length.
Qed.

Section payload.
Context `{Target}.

Lemma usize_add_small a b : 0 <= a + b < 2 ^ usize_bits -> usize_add a b = a + b.
Proof. apply Z.mod_small. Qed.

Lemma parse_encode key kb value :
  from_utf8 kb = Some key -> len kb < 2 ^ 32 -> 4 + len kb + len value < 2 ^ usize_bits ->
  parse_prefixed (encode_prefixed kb value) = Some (P_ok key value).
Proof.
  intros Hk Hn Hu. unfold parse_prefixed, encode_prefixed.
  set (p := u32_to_le_bytes (len kb)).
  assert (length p = 4%nat) as Hp by apply length_to_le_bytes.
  assert (len (p ++ kb ++ value) = 4 + len kb + len value) as Hlen
    by (unfold len; rewrite !length_app, Hp; lia).
  assert (0 <= len kb /\ 0 <= len value) as [? ?] by (unfold len; lia).
  rewrite Hlen. destruct (Z.ltb_spec (4 + len kb + len value) 4); [lia|].
  assert (from_le_bytes (take 4 (p ++ kb ++ value)) = len kb) as ->.
  { rewrite take_app_length' by done. unfold p, u32_to_le_bytes. rewrite from_to_le_bytes.
    apply Z.mod_small. change (256 ^ Z.of_nat 4) with (2 ^ 32). lia. }
  rewrite usize_add_small by lia. destruct (Z.ltb_spec (4 + len kb + len value) (4 + len kb)); [lia|].
  rewrite (slice_app p kb value); [|unfold len; lia|unfold len; lia]. rewrite Hk.
  pose proof (slice_app (p ++ kb) value [] (4 + len kb) (4 + len kb + len value)) as Hs.
  rewrite app_nil_r, <- app_assoc in Hs. rewrite Hs; [done| |]; unfold len; rewrite length_app; lia.
Qed.

(** Where [usize] is wider than the length prefix, parsing never panics. *)
Lemma parse_total data : 32 < usize_bits -> parse_prefixed data <> None.
Proof.
  intros Hw. unfold parse_prefixed. destruct (Z.ltb_spec (len data) 4); [done|].
  pose proof (from_le_bytes_range (take 4 data)) as Hr.
  set (n := from_le_bytes (take 4 data)) in *.
  assert (256 ^ len (take 4 data) <= 2 ^ 32) as Hle.
  { change (2 ^ 32) with (256 ^ 4). apply Z.pow_le_mono_r; [lia|]. unfold len. rewrite length_take. lia. }
  assert (2 ^ 33 <= 2 ^ usize_bits) as Hb by (apply Z.pow_le_mono_r; lia).
  rewrite usize_add_small by lia. destruct (Z.ltb_spec (len data) (4 + n)); [done|].
  unfold slice. destruct (Z.ltb_spec (4 + n) 4); [lia|]. destruct (Z.ltb_spec (len data) (4 + n)); [lia|].
  simpl. destruct (from_utf8 _); [|done].
  destruct (Z.ltb_spec (len data) (4 + n)); [lia|]. by rewrite Z.ltb_irrefl.
Qed.

(** Where [usize] has 32 bits, a prefix near 2^32 makes the slice run backwards. *)
Lemma parse_overflow data rest :
  usize_bits = 32 -> data = [xff; xff; xff; xff] ++ rest -> parse_prefixed data = None.
Proof.
  intros Hw ->. unfold parse_prefixed.
  assert (4 <= len ([xff; xff; xff; xff] ++ rest)) as Hl by (unfold len; simpl; lia).
  destruct (Z.ltb_spec (len ([xff; xff; xff; xff] ++ rest)) 4); [lia|].
  assert (usize_add 4 (from_le_bytes (take 4 ([xff; xff; xff; xff] ++ rest))) = 3) as ->.
  { unfold usize_add. rewrite Hw. reflexivity. }
  destruct (Z.ltb_spec (len ([xff; xff; xff; xff] ++ rest)) 3); [lia|]. done.
Qed.
End payload.

Section panic.
Context {H : Type} `{HAL H} `{Target}.
Implicit Types k : KernelCore H.

Lemma key_value_total f data k : 32 < usize_bits -> key_value_request f data k <> None.
Proof.
  intros Hw Hn. unfold key_value_request in Hn. pose proof (parse_total data Hw).
  destruct (parse_prefixed data) as [[| |key v]|]; try done. by destruct (with_hal _ k).
Qed.

Lemma spawn_total sender data ts k : 32 < usize_bits -> execute_spawn_process sender data ts k <> None.
Proof.
  intros Hw. unfold execute_spawn_process. destruct (negb _); [done|]. pose proof (parse_total data Hw).
  destruct (parse_prefixed data) as [[| |name b]|]; try done. destruct b; [done|].
  destruct (register_process _ _ _) as [[pid c] k1]. by destruct (with_hal _ k1) as [[?|?] ?].
Qed.

Lemma kernel_fn_total num sender args data ts k :
  32 < usize_bits -> execute_syscall_kernel_fn num sender args data ts k <> None.
Proof.
  intros Hw. unfold execute_syscall_kernel_fn, execute_process_syscall.
  repeat (case_match; try done); rewrite fmap_None.
  - by apply spawn_total.
  - unfold execute_storage_syscall, execute_storage_write. repeat (case_match; try done).
    by apply key_value_total.
  - unfold execute_keystore_syscall, execute_keystore_write. repeat (case_match; try done).
    by apply key_value_total.
Qed.
End panic.
