(* ===== verification/KernelReplay.v ===== *)
(** * Replay of commits into a system (crates/zos-kernel/src/replay.rs)

    [System<H>] implements [Replayable]: each method applies one kind of
    commit to the kernel state. [state_hash] hashes the process table, the
    capability spaces and the endpoints. *)
From S2P Require Import Prelude AxiomTypes CommitLog Gateway.
From S2P Require Import Hal KernelState System.

Definition map_object_type (object_type : Z) : result ObjectType ReplayError :=
  match object_type with
  | 1 => Ok OT_Endpoint
  | 2 => Ok OT_Process
  | 3 => Ok OT_Memory
  | 4 => Ok OT_Irq
  | 5 => Ok OT_IoPort
  | 6 => Ok OT_Console
  | _ => Err (UnknownObjectType object_type)
  end.

Definition process_state_to_u8 (st : ProcessState) : Z :=
  match st with Running => 0 | Blocked => 1 | Zombie => 2 end.

Section replay.
Context {H : Type}.
Implicit Types k : KernelCore H.

Definition kr_create_process (pid parent : ProcessId) (name : string) k
  : result unit ReplayError * KernelCore H :=
  let process := mk_Process pid name Running ProcessMetrics_default in
  let k := set_processes (<[pid := process]> (processes k)) k in
  let k := set_cap_spaces (<[pid := CapabilitySpace_new]> (cap_spaces k)) k in
  let k := if next_pid k <=? pid then set_next_pid (u64_add pid 1) k else k in
  (Ok tt, k).

(** [ProcessExited] and [ProcessFaulted] both mark the process as a zombie. *)
Definition kr_exit_process (pid : ProcessId) (_code : Z) k
  : result unit ReplayError * KernelCore H :=
  match processes k !! pid with
  | None => (Err (RE_ProcessNotFound pid), k)
  | Some process =>
      (Ok tt, set_processes (<[pid := set_proc_state Zombie process]> (processes k)) k)
  end.

Definition kr_process_faulted (pid : ProcessId) (_reason : Z) (_description : string) k
  : result unit ReplayError * KernelCore H :=
  match processes k !! pid with
  | None => (Err (RE_ProcessNotFound pid), k)
  | Some process =>
      (Ok tt, set_processes (<[pid := set_proc_state Zombie process]> (processes k)) k)
  end.

Definition kr_insert_capability (pid : ProcessId) (slot : CapSlot) (cid object_type object_id perms : Z)
    k : result unit ReplayError * KernelCore H :=
  match map_object_type object_type with
  | Err e => (Err e, k)
  | Ok obj_type =>
      let cap := mk_Capability cid obj_type object_id (from_byte perms) 0 0 in
      match cap_spaces k !! pid with
      | None => (Err (RE_ProcessNotFound pid), k)
      | Some cspace =>
          let cspace := mk_CapabilitySpace (<[slot := cap]> (slots cspace))
            (if next_slot cspace <=? slot then u32_add slot 1 else next_slot cspace) in
          let k := set_cap_spaces (<[pid := cspace]> (cap_spaces k)) k in
          let k := if next_cap_id k <=? cid then set_next_cap_id (u64_add cid 1) k else k in
          (Ok tt, k)
      end
  end.

Definition kr_remove_capability (pid : ProcessId) (slot : CapSlot) k
  : result unit ReplayError * KernelCore H :=
  match cap_spaces k !! pid with
  | None => (Err (RE_ProcessNotFound pid), k)
  | Some cspace =>
      let cspace := mk_CapabilitySpace (delete slot (slots cspace)) (next_slot cspace) in
      (Ok tt, set_cap_spaces (<[pid := cspace]> (cap_spaces k)) k)
  end.

Definition kr_cap_granted (new_cap_id : Z) k : result unit ReplayError * KernelCore H :=
  (Ok tt, if next_cap_id k <=? new_cap_id then set_next_cap_id (u64_add new_cap_id 1) k else k).

Definition kr_create_endpoint (id : EndpointId) (owner : ProcessId) k
  : result unit ReplayError * KernelCore H :=
  if negb (contains_key (processes k) owner) then (Err (RE_ProcessNotFound owner), k)
  else
    let endpoint := mk_Endpoint id owner [] EndpointMetrics_default in
    let k := set_endpoints (<[id := endpoint]> (endpoints k)) k in
    let k := if next_endpoint_id k <=? id then set_next_endpoint_id (u64_add id 1) k else k in
    (Ok tt, k).

Definition kr_destroy_endpoint (id : EndpointId) k : result unit ReplayError * KernelCore H :=
  (Ok tt, set_endpoints (delete id (endpoints k)) k).

(** The three loops of [state_hash]. *)
Definition hash_processes k (h : StateHasher) : StateHasher :=
  let h := write_u64 (btree_len (processes k)) h in
  foldl (fun h '(pid, proc) =>
    write_u8 (process_state_to_u8 (proc_state proc)) (write_str (proc_name proc) (write_u64 pid h)))
    h (btree_iter (processes k)).

Definition hash_capability (h : StateHasher) (sc : CapSlot * Capability) : StateHasher :=
  let '(slot, cap) := sc in
  let h := write_u32 slot h in
  let h := write_u64 (cap_id cap) h in
  let h := write_u8 (ObjectType_as_u8 (cap_object_type cap)) h in
  let h := write_u64 (cap_object_id cap) h in
  let h := write_u8 (to_byte (cap_permissions cap)) h in
  let h := write_u32 (cap_generation cap) h in
  write_u64 (cap_expires_at cap) h.

Definition hash_cap_spaces k (h : StateHasher) : StateHasher :=
  let h := write_u64 (btree_len (cap_spaces k)) h in
  foldl (fun h '(pid, cspace) =>
    foldl hash_capability (write_u64 (btree_len (slots cspace)) (write_u64 pid h))
      (btree_iter (slots cspace)))
    h (btree_iter (cap_spaces k)).

Definition hash_endpoints k (h : StateHasher) : StateHasher :=
  let h := write_u64 (btree_len (endpoints k)) h in
  foldl (fun h '(id, ep) => write_u64 (ep_owner ep) (write_u64 id h)) h (btree_iter (endpoints k)).

Definition kernel_state_hash k : list byte :=
  finalize (hash_endpoints k (hash_cap_spaces k (hash_processes k StateHasher_new))).

(** A kernel method lifted to the system. *)
Definition on_kernel (f : KernelCore H -> result unit ReplayError * KernelCore H) (s : System H)
  : result unit ReplayError * System H :=
  let '(r, k) := f (kernel s) in (r, set_kernel k s).

#[export] Instance Replayable_System : Replayable (System H) := {|
  replay_genesis := fun s => (Ok tt, s);
  replay_create_process := fun pid parent name => on_kernel (kr_create_process pid parent name);
  replay_exit_process := fun pid code => on_kernel (kr_exit_process pid code);
  replay_process_faulted := fun pid reason d => on_kernel (kr_process_faulted pid reason d);
  replay_insert_capability := fun pid slot cid ot oid perms =>
    on_kernel (kr_insert_capability pid slot cid ot oid perms);
  replay_remove_capability := fun pid slot => on_kernel (kr_remove_capability pid slot);
  replay_cap_granted := fun _ _ _ _ new_cap_id _ => on_kernel (kr_cap_granted new_cap_id);
  replay_create_endpoint := fun id owner => on_kernel (kr_create_endpoint id owner);
  replay_destroy_endpoint := fun id => on_kernel (kr_destroy_endpoint id);
  replay_message_sent := fun _ _ _ _ s => (Ok tt, s);
  state_hash := fun s => kernel_state_hash (kernel s) |}.
End replay.
