(* ===== verification/KernelSpec.v ===== *)
(** * Labelled transition system of the kernel

    The abstract kernel [KA] keeps process names and states, capability
    spaces, endpoint owners with their queues, and the identifier counters.
    Its steps are labelled with the commits that record them. [micro] has the
    steps whose commits carry the whole change; [lossy] has the ones that do
    not (a kill removes what replay keeps, the capability given to Init by
    [execute_create_endpoint_for] has no commit, the exit of an absent process
    has a commit without a process); [granting] has the supervisor's grants in
    the name of an endpoint's owner. The files that follow show that every
    kernel operation is a trace of such steps labelled with its own commits. *)
From S2P Require Import Prelude AxiomTypes CommitLog Hal KernelState.
From S2P Require Import KernelIpc KernelSyscall.

Record KA : Type := mk_KA {
  ka_procs : gmap ProcessId (string * ProcessState);
  ka_caps : gmap ProcessId CapabilitySpace;
  ka_eps : gmap EndpointId (ProcessId * list Message);
  ka_npid : Z;
  ka_neid : Z;
  ka_ncap : Z }.

Definition abs_proc (p : Process) : string * ProcessState := (proc_name p, proc_state p).
Definition abs_ep (e : Endpoint) : ProcessId * list Message := (ep_owner e, ep_pending_messages e).

Definition kabs {H : Type} (k : KernelCore H) : KA :=
  mk_KA (abs_proc <$> processes k) (cap_spaces k) (abs_ep <$> endpoints k) (next_pid k)
    (next_endpoint_id k) (next_cap_id k).

(** ** Abstract operations *)
Definition ka_new_proc (pid : ProcessId) (name : string) (npid : Z) (a : KA) : KA :=
  mk_KA (<[pid := (name, Running)]> (ka_procs a)) (<[pid := CapabilitySpace_new]> (ka_caps a))
    (ka_eps a) npid (ka_neid a) (ka_ncap a).

Definition ka_zombie (pid : ProcessId) (a : KA) : KA :=
  mk_KA (alter (fun p => (p.1, Zombie)) pid (ka_procs a)) (ka_caps a) (ka_eps a) (ka_npid a)
    (ka_neid a) (ka_ncap a).

Definition ka_new_endpoint (owner : ProcessId) (a : KA) : KA :=
  mk_KA (ka_procs a) (ka_caps a) (<[ka_neid a := (owner, [])]> (ka_eps a)) (ka_npid a)
    (u64_add (ka_neid a) 1) (ka_ncap a).

Definition ka_set_cspace (pid : ProcessId) (cs : CapabilitySpace) (a : KA) : KA :=
  mk_KA (ka_procs a) (<[pid := cs]> (ka_caps a)) (ka_eps a) (ka_npid a) (ka_neid a) (ka_ncap a).

Definition ka_bump_cap (a : KA) : KA :=
  mk_KA (ka_procs a) (ka_caps a) (ka_eps a) (ka_npid a) (ka_neid a) (u64_add (ka_ncap a) 1).

Definition ka_set_ep (eid : EndpointId) (o : ProcessId) (q : list Message) (a : KA) : KA :=
  mk_KA (ka_procs a) (ka_caps a) (<[eid := (o, q)]> (ka_eps a)) (ka_npid a) (ka_neid a) (ka_ncap a).

Definition ka_kill (pid : ProcessId) (a : KA) : KA :=
  mk_KA (delete pid (ka_procs a)) (delete pid (ka_caps a))
    (filter (fun e : EndpointId * (ProcessId * list Message) => e.2.1 <> pid) (ka_eps a))
    (ka_npid a) (ka_neid a) (ka_ncap a).

(** ** Authority *)

(** [c] is held in a slot, or travels in a queued message. *)
Definition ka_held (a : KA) (c : Capability) : Prop :=
  (exists pid cs slot, ka_caps a !! pid = Some cs /\ slots cs !! slot = Some c) \/
  (exists eid o q m tc, ka_eps a !! eid = Some (o, q) /\ m ∈ q /\
     tc ∈ msg_transferred_caps m /\ tc_capability tc = c).

(** [c] gives no more than [c0]. *)
Definition attenuates (c0 c : Capability) : Prop :=
  cap_object_type c = cap_object_type c0 /\ cap_object_id c = cap_object_id c0 /\
  perm_le (cap_permissions c) (cap_permissions c0) /\
  cap_generation c = cap_generation c0 /\ cap_expires_at c = cap_expires_at c0.

(** [c] is a capability for a live endpoint, given in the name of its owner. *)
Definition from_owner (a : KA) (c : Capability) : Prop :=
  cap_object_type c = OT_Endpoint /\ is_Some (ka_eps a !! cap_object_id c) /\
  cap_generation c = 0 /\ cap_expires_at c = 0.

Definition justified (a : KA) (c : Capability) : Prop :=
  exists c0, ka_held a c0 /\ attenuates c0 c.

(** Creation of an endpoint with the full capability of its owner. *)
Definition endpoint_cap (id : Z) (eid : EndpointId) : Capability :=
  mk_Capability id OT_Endpoint eid full 0 0.

Definition ka_create (owner : ProcessId) (cs : CapabilitySpace) (a : KA) : KA :=
  ka_bump_cap (ka_set_cspace owner (cs_insert (endpoint_cap (ka_ncap a) (ka_neid a)) cs).2
    (ka_new_endpoint owner a)).

Definition create_commits (owner : ProcessId) (cs : CapabilitySpace) (a : KA) : list CommitType :=
  [EndpointCreated (ka_neid a) owner;
   cap_inserted owner (next_slot cs) (endpoint_cap (ka_ncap a) (ka_neid a))].

(** The allocation pointer after a process [pid] is created. *)
Definition pid_step (a : KA) (pid npid : Z) : Prop :=
  (pid = ka_npid a /\ npid = u64_add (ka_npid a) 1) \/
  (0 <= pid < 2 ^ 63 /\ npid = if ka_npid a <=? pid then u64_add pid 1 else ka_npid a).

(** ** Steps whose commits carry the change *)
Inductive micro (a : KA) : list CommitType -> KA -> Prop :=
| M_proc pid parent name npid :
    ka_procs a !! pid = None -> pid_step a pid npid ->
    micro a [ProcessCreated pid parent name] (ka_new_proc pid name npid a)
| M_exit pid code :
    is_Some (ka_procs a !! pid) -> micro a [ProcessExited pid code] (ka_zombie pid a)
| M_create owner cs :
    is_Some (ka_procs a !! owner) -> ka_caps a !! owner = Some cs ->
    micro a (create_commits owner cs a) (ka_create owner cs a)
| M_burn_cap : micro a [] (ka_bump_cap a)
| M_insert pid cs cap :
    ka_caps a !! pid = Some cs -> cap_id cap = ka_ncap a -> justified a cap ->
    micro a [cap_inserted pid (next_slot cs) cap]
      (ka_bump_cap (ka_set_cspace pid (cs_insert cap cs).2 a))
| M_granted f t fs ts perms : micro a [CapGranted f t fs ts (ka_ncap a) perms] a
| M_remove pid cs slot :
    ka_caps a !! pid = Some cs -> is_Some (slots cs !! slot) ->
    micro a [CapRemoved pid slot] (ka_set_cspace pid (cs_remove slot cs).2 a)
| M_push eid o q m from :
    ka_eps a !! eid = Some (o, q) -> msg_transferred_caps m = [] ->
    micro a [MessageSent from eid (msg_tag m) (len (msg_data m))] (ka_set_ep eid o (q ++ [m]) a)
| M_transfer pid cs eid o q sl ts caps cms cs' m :
    ka_caps a !! pid = Some cs -> ka_eps a !! eid = Some (o, q) ->
    transfer_loop pid sl ts cs = (caps, cms, cs') -> msg_transferred_caps m = caps ->
    len caps <= MAX_CAPS_PER_MESSAGE ->
    micro a (c_commit_type <$> cms) (ka_set_ep eid o (q ++ [m]) (ka_set_cspace pid cs' a))
| M_pop eid o m q :
    ka_eps a !! eid = Some (o, m :: q) -> micro a [] (ka_set_ep eid o q a)
| M_install pid cs eid o m q ts sls cms cs' :
    ka_caps a !! pid = Some cs -> ka_eps a !! eid = Some (o, m :: q) ->
    install_loop pid (msg_transferred_caps m) ts cs = (sls, cms, cs') ->
    micro a (c_commit_type <$> cms) (ka_set_cspace pid cs' (ka_set_ep eid o q a)).

(** The endpoints of [pid], in ascending order. *)
Definition owned (pid : ProcessId) (a : KA) : list EndpointId :=
  (List.filter (fun e => e.2.1 =? pid) (btree_iter (ka_eps a))).*1.

(** ** Steps whose commits do not carry the change *)
Inductive lossy (a : KA) : list CommitType -> KA -> Prop :=
| L_kill pid pre :
    pre = [] \/ (exists r d, pre = [ProcessFaulted pid r d]) ->
    is_Some (ka_procs a !! pid) ->
    lossy a (pre ++ ProcessExited pid (-1) :: (EndpointDestroyed <$> owned pid a)) (ka_kill pid a)
| L_create_for owner cs cs1 :
    is_Some (ka_procs a !! owner) -> ka_caps a !! owner = Some cs ->
    ka_caps (ka_create owner cs a) !! 1 = Some cs1 ->
    lossy a (create_commits owner cs a)
      (ka_bump_cap (ka_set_cspace 1
         (cs_insert (endpoint_cap (ka_ncap (ka_create owner cs a)) (ka_neid a)) cs1).2
         (ka_create owner cs a)))
| L_exit_absent pid code :
    ka_procs a !! pid = None -> lossy a [ProcessExited pid code] a.

(** ** Grants in the name of an endpoint's owner, made by the supervisor *)
Inductive granting (a : KA) : list CommitType -> KA -> Prop :=
| G_grant pid cs cap :
    ka_caps a !! pid = Some cs -> cap_id cap = ka_ncap a -> from_owner a cap ->
    granting a [cap_inserted pid (next_slot cs) cap]
      (ka_bump_cap (ka_set_cspace pid (cs_insert cap cs).2 a)).

(** Steps of system calls, steps that replay reproduces, and all steps. *)
Definition mstep (a : KA) (l : list CommitType) (a' : KA) : Prop := micro a l a' \/ lossy a l a'.

Definition rstep (a : KA) (l : list CommitType) (a' : KA) : Prop := micro a l a' \/ granting a l a'.

Definition kstep (a : KA) (l : list CommitType) (a' : KA) : Prop :=
  mstep a l a' \/ granting a l a'.

(** ** Traces *)
Inductive trace (R : KA -> list CommitType -> KA -> Prop) : KA -> list (list CommitType) -> KA -> Prop :=
| tr_nil a : trace R a [] a
| tr_cons a l a1 ls a2 : R a l a1 -> trace R a1 ls a2 -> trace R a (l :: ls) a2.

Lemma trace_app R a ls1 a1 ls2 a2 :
  trace R a ls1 a1 -> trace R a1 ls2 a2 -> trace R a (ls1 ++ ls2) a2.
Proof. induction 1; [done|]. intros. econstructor; eauto. Qed.

Lemma trace_one (R : KA -> list CommitType -> KA -> Prop) a l a' : R a l a' -> trace R a [l] a'.
Proof. intros. econstructor; [done|constructor]. Qed.

Lemma trace_mono (R S : KA -> list CommitType -> KA -> Prop) a ls a' :
  (forall x l y, R x l y -> S x l y) -> trace R a ls a' -> trace S a ls a'.
Proof. induction 2; econstructor; eauto. Qed.

(** [performs R n a cts a']: at most [n] steps of [R] lead from [a] to [a']
    and leave the commits [cts]. *)
Definition performs (R : KA -> list CommitType -> KA -> Prop) (n : nat) (a : KA)
    (cts : list CommitType) (a' : KA) : Prop :=
  exists ls, trace R a ls a' /\ mjoin ls = cts /\ (length ls <= n)%nat.

Lemma performs_nil R n a : performs R n a [] a.
Proof. exists []. split_and!; [constructor|done|simpl; lia]. Qed.

Lemma performs_one (R : KA -> list CommitType -> KA -> Prop) n a l a' :
  R a l a' -> performs R (S n) a l a'.
Proof. intros. exists [l]. split_and!; [by apply trace_one|simpl; apply app_nil_r|simpl; lia]. Qed.

Lemma performs_app R n1 n2 a c1 a1 c2 a2 :
  performs R n1 a c1 a1 -> performs R n2 a1 c2 a2 -> performs R (n1 + n2) a (c1 ++ c2) a2.
Proof.
  intros (l1 & T1 & <- & ?) (l2 & T2 & <- & ?). exists (l1 ++ l2).
  split_and!; [by eapply trace_app|apply join_app|rewrite length_app; lia].
Qed.

Lemma performs_weaken R n m a cts a' :
  (n <= m)%nat -> performs R n a cts a' -> performs R m a cts a'.
Proof. intros ? (l & ? & ? & ?). exists l. split_and!; [done|done|lia]. Qed.

Lemma performs_mono (R S : KA -> list CommitType -> KA -> Prop) n a cts a' :
  (forall x l y, R x l y -> S x l y) -> performs R n a cts a' -> performs S n a cts a'.
Proof. intros HRS (l & ? & ? & ?). exists l. split_and!; [by eapply trace_mono|done|done]. Qed.

Lemma micro_mstep a l a' : micro a l a' -> mstep a l a'.
Proof. by left. Qed.

Lemma micro_rstep a l a' : micro a l a' -> rstep a l a'.
Proof. by left. Qed.

Lemma mstep_kstep a l a' : mstep a l a' -> kstep a l a'.
Proof. by left. Qed.

Lemma rstep_kstep a l a' : rstep a l a' -> kstep a l a'.
Proof. intros [?|?]; [left; by left|by right]. Qed.

#[export] Hint Resolve performs_nil performs_one micro_mstep micro_rstep mstep_kstep rstep_kstep : zos.
