(* ===== verification/KernelRefine.v ===== *)
(** * Every kernel operation is a trace of labelled steps

    For each operation of crates/zos-kernel/src/core, the commits it returns
    are the labels of a trace from the state before to the state after. *)
From S2P Require Import Prelude AxiomTypes CommitLog Hal KernelState.
From S2P Require Import KernelIpc KernelSyscall.
From S2P Require Import System KernelSpec.

(** Processes and capability spaces coincide, endpoint owners exist, and the
    next process identifier is fresh. *)
Record kcons (a : KA) : Prop := mk_kcons {
  kc_consistent : forall pid, is_Some (ka_procs a !! pid) <-> is_Some (ka_caps a !! pid);
  kc_owner : forall eid o q, ka_eps a !! eid = Some (o, q) -> is_Some (ka_procs a !! o);
  kc_pids : forall pid, is_Some (ka_procs a !! pid) -> pid < ka_npid a }.

Section refine.
Context {H : Type} `{HAL H}.
Implicit Types k : KernelCore H.

(** Close a branch that changes nothing and commits nothing. *)
Ltac idle := cbn [negb]; intros; simplify_eq; eauto with zos.

(** ** The abstraction ignores metrics and debug output *)
Lemma kabs_metrics f pid k :
  (forall p, abs_proc (f p) = abs_proc p) ->
  kabs (set_processes (btree_update f pid (processes k)) k) = kabs k.
Proof.
  intros Hf. unfold kabs; simpl. f_equal. apply map_eq. intros i.
  rewrite !lookup_fmap. unfold btree_update.
  destruct (decide (pid = i)) as [->|?]; [rewrite lookup_alter_eq|by rewrite lookup_alter_ne].
  destruct (processes k !! i); simpl; [by rewrite Hf|done].
Qed.

Lemma kabs_ep_metrics f eid k :
  (forall e, abs_ep (f e) = abs_ep e) ->
  kabs (set_endpoints (btree_update f eid (endpoints k)) k) = kabs k.
Proof.
  intros Hf. unfold kabs; simpl. f_equal. apply map_eq. intros i.
  rewrite !lookup_fmap. unfold btree_update.
  destruct (decide (eid = i)) as [->|?]; [rewrite lookup_alter_eq|by rewrite lookup_alter_ne].
  destruct (endpoints k !! i); simpl; [by rewrite Hf|done].
Qed.

Lemma kabs_debug msg k : kabs (debug msg k) = kabs k.
Proof. done. Qed.

Lemma kabs_set_endpoint eid e k :
  kabs (set_endpoints (<[eid := e]> (endpoints k)) k) =
  ka_set_ep eid (ep_owner e) (ep_pending_messages e) (kabs k).
Proof. unfold kabs, ka_set_ep; simpl. by rewrite fmap_insert. Qed.

Lemma kabs_set_cspace pid cs k :
  kabs (set_cap_spaces (<[pid := cs]> (cap_spaces k)) k) = ka_set_cspace pid cs (kabs k).
Proof. done. Qed.

Lemma kabs_update_send_metrics from eid n ts k : kabs (update_send_metrics from eid n ts k) = kabs k.
Proof.
  unfold update_send_metrics.
  set (k1 := set_endpoints _ k). set (k2 := set_processes _ k1).
  transitivity (kabs k2); [done|]. unfold k2.
  rewrite kabs_metrics by done. unfold k1. by apply kabs_ep_metrics.
Qed.

Lemma kabs_eps_lookup k eid e :
  endpoints k !! eid = Some e -> ka_eps (kabs k) !! eid = Some (ep_owner e, ep_pending_messages e).
Proof. intros He. simpl. by rewrite lookup_fmap, He. Qed.

Lemma kabs_procs_Some k pid : is_Some (ka_procs (kabs k) !! pid) <-> is_Some (processes k !! pid).
Proof. simpl. by rewrite lookup_fmap, fmap_is_Some. Qed.

Lemma insert_cap_Some pid cap k slot k' :
  insert_cap pid cap k = Some (slot, k') ->
  exists cs, cap_spaces k !! pid = Some cs /\ slot = next_slot cs /\
    kabs k' = ka_set_cspace pid (cs_insert cap cs).2 (kabs k).
Proof.
  unfold insert_cap. destruct (cap_spaces k !! pid) as [cs|]; [|done].
  intros [= <- <-]. eauto.
Qed.

Lemma insert_cap_is_Some pid cap k :
  is_Some (cap_spaces k !! pid) -> exists slot k', insert_cap pid cap k = Some (slot, k').
Proof. intros [cs Hcs]. unfold insert_cap. rewrite Hcs. simpl. eauto. Qed.

Lemma held_slot k pid cs slot c :
  cap_spaces k !! pid = Some cs -> slots cs !! slot = Some c -> ka_held (kabs k) c.
Proof. intros. left. by exists pid, cs, slot. Qed.

Lemma attenuate_le p q : perm_le (attenuate_permissions p q) p.
Proof. unfold perm_le, attenuate_permissions. simpl. rewrite !andb_true_iff. tauto. Qed.

(** ** Capabilities *)
Lemma create_derived_cap_step to src perms ts k :
  ka_held (kabs k) src -> perm_le perms (cap_permissions src) ->
  match create_derived_cap to src perms ts k with
  | (Ok (slot, cms), k') =>
      exists c, cms = [c] /\ micro (kabs k) [c_commit_type c] (kabs k') /\
        exists ot oid ps, c_commit_type c = CapInserted to slot (next_cap_id k) ot oid ps
  | (Err _, k') => micro (kabs k) [] (kabs k')
  end.
Proof.
  intros Hh Hle. unfold create_derived_cap. simpl.
  destruct (insert_cap to _ _) as [[slot k']|] eqn:E; [|apply M_burn_cap].
  apply insert_cap_Some in E as (cs & Hcs & -> & Hk'). eexists. split_and!; [done| |eauto].
  rewrite Hk'. cbn [new_commit c_commit_type].
  eapply (M_insert (kabs k) to cs (mk_Capability _ _ _ _ _ _)); [done|done|].
  exists src. split; [done|]. by split_and!.
Qed.

Lemma grant_capability_performs f fs t perms ts k r cms k' :
  grant_capability f fs t perms ts k = ((r, cms), k') ->
  performs micro 2 (kabs k) (commit_types cms) (kabs k').
Proof.
  unfold grant_capability, validate_grant_source.
  destruct (cap_spaces k !! f) as [cs|] eqn:Hcs; [|idle].
  destruct (axiom_check cs fs _ _ _) as [src|e] eqn:Hck; simpl; [|idle].
  apply ax_axiom_check_Ok in Hck as (Hs & _).
  pose proof (create_derived_cap_step t src _ ts k (held_slot _ _ _ _ _ Hcs Hs)
    (attenuate_le (cap_permissions src) perms)) as Hd.
  destruct (create_derived_cap _ _ _ _ _) as [[[slot cms']|e] k1]; intros; simplify_eq.
  - destruct Hd as (c & -> & Hm & ot & oid & ps & Hc). simpl. rewrite Hc.
    eapply (performs_app _ 1 1 _ [_] (kabs k) [_]); apply performs_one; [|by rewrite Hc in Hm].
    apply (M_granted (kabs k)).
  - by apply performs_one.
Qed.

Lemma derive_capability_performs pid slot perms ts k r cms k' :
  derive_capability pid slot perms ts k = ((r, cms), k') ->
  performs micro 1 (kabs k) (commit_types cms) (kabs k').
Proof.
  unfold derive_capability, validate_derive_source.
  destruct (cap_spaces k !! pid) as [cs|] eqn:Hcs; [|idle].
  destruct (axiom_check cs slot _ _ _) as [src|e] eqn:Hck; simpl; [|idle].
  apply ax_axiom_check_Ok in Hck as (Hs & _).
  pose proof (create_derived_cap_step pid src _ ts k (held_slot _ _ _ _ _ Hcs Hs)
    (attenuate_le (cap_permissions src) perms)) as Hd.
  destruct (create_derived_cap _ _ _ _ _) as [[[sl cms']|e] k1]; intros; simplify_eq.
  - destruct Hd as (c & -> & Hm & _). by apply performs_one.
  - by apply performs_one.
Qed.

Lemma grant_to_endpoint_performs o eid t perms ts k r cms k' :
  grant_capability_to_endpoint o eid t perms ts k = ((r, cms), k') ->
  performs rstep 1 (kabs k) (commit_types cms) (kabs k').
Proof.
  unfold grant_capability_to_endpoint.
  destruct (endpoints k !! eid) as [e|] eqn:He; [|idle].
  destruct (negb _); [idle|]. simpl.
  destruct (insert_cap t _ _) as [[slot k1]|] eqn:E; intros; simplify_eq.
  - apply insert_cap_Some in E as (cs & Hcs & -> & Hk'). apply performs_one.
    rewrite kabs_debug, Hk'.
    right. apply (G_grant (kabs k) t cs (mk_Capability (next_cap_id k) OT_Endpoint eid perms 0 0));
      [done|done|].
    split_and!; try done. simpl. by rewrite lookup_fmap, He.
  - apply performs_one. left. apply M_burn_cap.
Qed.

Lemma remove_cap_performs pid cs slot cap ts k k' :
  cap_spaces k !! pid = Some cs -> slots cs !! slot = Some cap -> remove_cap pid slot k = Some k' ->
  performs micro 1 (kabs k) (commit_types [create_cap_removed_commit pid slot ts]) (kabs k').
Proof.
  intros Hcs Hc. unfold remove_cap. rewrite Hcs. intros [= <-].
  apply performs_one. apply (M_remove (kabs k)); eauto.
Qed.

Lemma delete_capability_performs pid slot ts k r cms k' :
  delete_capability pid slot ts k = ((r, cms), k') ->
  performs micro 1 (kabs k) (commit_types cms) (kabs k').
Proof.
  unfold delete_capability, cs_get.
  destruct (cap_spaces k !! pid) as [cs|] eqn:Hcs; [|idle].
  destruct (slots cs !! slot) as [cap|] eqn:Hc; [|idle].
  destruct (remove_cap pid slot k) as [k1|] eqn:E.
  - intros; simplify_eq. rewrite kabs_debug. by eapply remove_cap_performs.
  - unfold remove_cap in E. by rewrite Hcs in E.
Qed.

Lemma revoke_capability_performs pid slot ts k r cms k' :
  revoke_capability pid slot ts k = ((r, cms), k') ->
  performs micro 1 (kabs k) (commit_types cms) (kabs k').
Proof.
  unfold revoke_capability, validate_revoke_permission.
  destruct (cap_spaces k !! pid) as [cs|] eqn:Hcs; [|idle].
  destruct (axiom_check cs slot _ _ _) as [c|e] eqn:Hck; simpl; [|idle].
  apply ax_axiom_check_Ok in Hck as (Hs & _).
  destruct (remove_cap pid slot k) as [k1|] eqn:E.
  - intros; simplify_eq. rewrite kabs_debug. by eapply remove_cap_performs.
  - unfold remove_cap in E. by rewrite Hcs in E.
Qed.

(** ** Endpoints *)
Lemma create_endpoint_cases owner ts k r cms k' :
  kcons (kabs k) -> create_endpoint owner ts k = ((r, cms), k') ->
  (cms = [] /\ k' = k /\ r = Err ProcessNotFound) \/
  (exists cs, is_Some (ka_procs (kabs k) !! owner) /\ ka_caps (kabs k) !! owner = Some cs /\
     commit_types cms = create_commits owner cs (kabs k) /\ kabs k' = ka_create owner cs (kabs k) /\
     r = Ok (next_endpoint_id k, next_slot cs)).
Proof.
  intros Hcons. unfold create_endpoint.
  destruct (contains_key (processes k) owner) eqn:Hk; simpl; [|intros; simplify_eq; by left].
  apply contains_key_true in Hk.
  assert (is_Some (cap_spaces k !! owner)) as Hcs
    by (apply (kc_consistent _ Hcons); by apply kabs_procs_Some).
  unfold grant_owner_endpoint_cap. simpl.
  match goal with |- context [insert_cap owner ?c ?k0] =>
    destruct (insert_cap_is_Some owner c k0 Hcs) as (slot & k1 & E) end.
  rewrite E. intros; simplify_eq. right.
  apply insert_cap_Some in E as (cs & Hcs' & -> & Hk'). exists cs.
  split_and!; [by apply kabs_procs_Some|done|done| |done].
  rewrite kabs_debug, Hk'. unfold kabs, ka_create, ka_new_endpoint; simpl. by rewrite fmap_insert.
Qed.

Lemma create_endpoint_performs owner ts k r cms k' :
  kcons (kabs k) -> create_endpoint owner ts k = ((r, cms), k') ->
  performs micro 1 (kabs k) (commit_types cms) (kabs k').
Proof.
  intros Hcons Hc. apply create_endpoint_cases in Hc
    as [(-> & -> & _)|(cs & Hp & Hcs & -> & -> & _)]; [apply performs_nil| |done].
  by apply performs_one, M_create.
Qed.

(** ** Messages *)
Lemma queue_message_abs eid m k k' r :
  queue_message eid m k = (r, k') ->
  (exists e, r = Err e /\ k' = k /\ endpoints k !! eid = None) \/
  (exists o q, r = Ok tt /\ ka_eps (kabs k) !! eid = Some (o, q) /\
     kabs k' = ka_set_ep eid o (q ++ [m]) (kabs k)).
Proof.
  unfold queue_message. destruct (endpoints k !! eid) as [e|] eqn:He; intros; simplify_eq; [|eauto].
  right. apply kabs_eps_lookup in He. rewrite kabs_set_endpoint. eauto.
Qed.

Lemma ipc_send_performs f sl tag data ts k r c k' :
  ipc_send f sl tag data ts k = ((r, c), k') ->
  performs micro 1 (kabs k) (commit_types (option_list c)) (kabs k').
Proof.
  unfold ipc_send. destruct (validate_send_cap k f sl ts) as [eid|e]; [|idle].
  destruct (queue_message eid _ k) as [r1 k1] eqn:E.
  apply queue_message_abs in E as [(e & -> & -> & _)|(o & q & -> & He & Hk)];
    intros; simplify_eq; [eauto with zos|].
  rewrite kabs_update_send_metrics, Hk. apply performs_one.
  by apply (M_push (kabs k) eid o q (mk_Message f tag data [])).
Qed.

Lemma length_transfer_loop pid sl ts cs caps cms cs' :
  transfer_loop pid sl ts cs = (caps, cms, cs') -> (length caps <= length sl)%nat.
Proof.
  revert cs caps cms cs'. induction sl as [|s sl IH]; intros cs caps cms cs'; simpl.
  - by intros [= <- _ _].
  - destruct (slots cs !! s) as [c|] eqn:Hc.
    + destruct (transfer_loop pid sl ts _) as [[caps1 cms1] cs1] eqn:E. intros [= <- _ _].
      apply IH in E. simpl. lia.
    + intros E%IH. lia.
Qed.

Lemma ipc_send_with_caps_performs f sl tag data csl ts k r cms k' :
  ipc_send_with_caps f sl tag data csl ts k = ((r, cms), k') ->
  performs micro 1 (kabs k) (commit_types cms) (kabs k').
Proof.
  unfold ipc_send_with_caps, validate_message_limits.
  destruct (Z.ltb_spec MAX_MESSAGE_SIZE (len data)); [idle|].
  destruct (Z.ltb_spec MAX_CAPS_PER_MESSAGE (len csl)); [idle|].
  destruct (validate_send_cap_basic k f sl) as [eid|e]; [|idle].
  destruct (contains_key (endpoints k) eid) eqn:Hep; [|idle].
  destruct (validate_caps_exist k f csl) as [u|e]; [|idle].
  unfold remove_and_transfer_caps.
  destruct (cap_spaces k !! f) as [cs|] eqn:Hcs; [|idle].
  destruct (transfer_loop f csl ts cs) as [[caps cms'] cs'] eqn:E. cbn [negb].
  destruct (queue_message eid _ _) as [r1 k1] eqn:Eq.
  apply contains_key_true in Hep as [e He].
  apply queue_message_abs in Eq as [(e' & _ & _ & Hn)|(o & q & -> & He' & Hk)];
    [simpl in Hn; congruence|].
  intros; simplify_eq.
  rewrite kabs_update_send_metrics, Hk. apply performs_one.
  eapply (M_transfer (kabs k) f cs eid o q csl ts caps); [done|done|exact E|done|].
  apply length_transfer_loop in E. unfold len in *. lia.
Qed.

Lemma ipc_receive_cases pid sl ts k r k' :
  ipc_receive pid sl ts k = (r, k') ->
  (kabs k' = kabs k /\ (forall m, r <> Ok (Some m))) \/
  (exists eid o m q, r = Ok (Some m) /\ ka_eps (kabs k) !! eid = Some (o, m :: q) /\
     kabs k' = ka_set_ep eid o q (kabs k) /\
     exists cs, cap_spaces k !! pid = Some cs /\ cap_spaces k' = cap_spaces k).
Proof.
  unfold ipc_receive, validate_receive_cap.
  destruct (cap_spaces k !! pid) as [cs|] eqn:Hcs; [|intros; simplify_eq; by left].
  destruct (axiom_check cs sl _ _ _) as [cap|e]; simpl; [|intros; simplify_eq; by left].
  destruct (endpoints k !! cap_object_id cap) as [e|] eqn:He; [|intros; simplify_eq; by left].
  apply kabs_eps_lookup in He.
  destruct (ep_pending_messages e) as [|m q] eqn:Hq; intros; simplify_eq; [by left|].
  right. exists (cap_object_id cap), (ep_owner e), m, q. split_and!; [done|done| |eauto].
  set (k1 := set_endpoints _ k). rewrite (kabs_metrics (count_received _ _) pid k1) by done.
  unfold k1. by rewrite kabs_set_endpoint.
Qed.

Lemma ipc_receive_performs pid sl ts k r k' :
  ipc_receive pid sl ts k = (r, k') -> performs micro 1 (kabs k) [] (kabs k').
Proof.
  intros [[-> _]|(eid & o & m & q & -> & He & -> & _)]%ipc_receive_cases; [eauto with zos|].
  apply performs_one. by eapply M_pop.
Qed.

Lemma ipc_receive_with_caps_performs pid sl ts k r cms k' :
  ipc_receive_with_caps pid sl ts k = ((r, cms), k') ->
  performs micro 1 (kabs k) (commit_types cms) (kabs k').
Proof.
  unfold ipc_receive_with_caps. destruct (ipc_receive pid sl ts k) as [r1 k1] eqn:E.
  pose proof (ipc_receive_performs _ _ _ _ _ _ E) as Hp.
  apply ipc_receive_cases in E as [[Hk Hr]|(eid & o & m & q & -> & He & Hk & cs & Hcs & Hcs1)].
  { destruct r1 as [[m|]|e]; intros; simplify_eq; [by edestruct Hr|exact Hp|exact Hp]. }
  destruct (msg_transferred_caps m) as [|tc tcs] eqn:Htc; [intros; simplify_eq; exact Hp|].
  assert (cap_spaces k1 !! pid = Some cs) as Hcs' by (by rewrite Hcs1).
  unfold install_transferred_caps. rewrite Hcs'.
  destruct (install_loop pid (tc :: tcs) ts cs) as [[sls cms'] cs'] eqn:El. intros; simplify_eq.
  apply performs_one. rewrite kabs_set_cspace.
  rewrite Hk. eapply (M_install (kabs k)); [done|done|by rewrite Htc].
Qed.

(** ** Processes *)
Lemma register_performs name parent ts k :
  kcons (kabs k) ->
  performs micro 1 (kabs k) (commit_types (register_process_with_parent name parent ts k).1.2)
    (kabs (register_process_with_parent name parent ts k).2).
Proof.
  intros Hc. apply performs_one. unfold register_process_with_parent. simpl.
  match goal with |- micro _ _ ?a =>
    assert (a = ka_new_proc (next_pid k) name (u64_add (next_pid k) 1) (kabs k)) as ->
      by (unfold kabs, ka_new_proc; simpl; by rewrite fmap_insert) end.
  apply (M_proc (kabs k)); [|by left].
  apply eq_None_not_Some. intros Hp%(kc_pids _ Hc). simpl in Hp. lia.
Qed.

Lemma register_with_pid_performs pid name ts k :
  0 <= pid < 2 ^ 63 ->
  performs micro 1 (kabs k) (commit_types (register_process_with_pid pid name ts k).1.2)
    (kabs (register_process_with_pid pid name ts k).2).
Proof.
  intros Hpid. unfold register_process_with_pid.
  destruct (contains_key (processes k) pid) eqn:Hk; [simpl; eauto with zos|].
  apply contains_key_false in Hk. apply performs_one.
  set (np := if next_pid k <=? pid then u64_add pid 1 else next_pid k).
  match goal with |- micro _ _ ?a => assert (a = ka_new_proc pid name np (kabs k)) as -> end.
  { unfold np, kabs, ka_new_proc. by destruct (next_pid k <=? pid); simpl; rewrite fmap_insert. }
  apply (M_proc (kabs k)); [simpl; by rewrite lookup_fmap, Hk|by right].
Qed.

Lemma destroy_endpoints_spec eids ts eps cms eps' :
  NoDup eids -> (forall i, i ∈ eids -> is_Some (eps !! i)) ->
  destroy_endpoints eids ts eps = (cms, eps') ->
  commit_types cms = EndpointDestroyed <$> eids /\
  forall i, eps' !! i = if bool_decide (i ∈ eids) then None else eps !! i.
Proof.
  revert eps cms eps'. induction eids as [|eid eids IH]; intros eps cms eps' Hnd Hin; simpl.
  - intros [= <- <-]. split; [done|]. done.
  - apply NoDup_cons in Hnd as [Hni Hnd].
    destruct (destroy_endpoints eids ts (delete eid eps)) as [cms1 eps1] eqn:E.
    destruct (Hin eid) as [e He]; [by left|]. rewrite He. intros [= <- <-].
    apply IH in E as [Hc Hl]; [|done|].
    + simpl. rewrite Hc. split; [done|]. intros i. rewrite Hl.
      destruct (decide (i = eid)) as [->|Hne].
      * rewrite lookup_delete_eq, (bool_decide_eq_true_2 (eid ∈ eid :: eids)) by (by left).
        by case_bool_decide.
      * rewrite lookup_delete_ne by done. repeat case_bool_decide; try done; set_solver.
    + intros i Hi. rewrite lookup_delete_ne by set_solver. apply Hin. by right.
Qed.

Lemma filter_fmap_owner pid (l : list (EndpointId * Endpoint)) :
  (List.filter (fun e => e.2.1 =? pid) (prod_map id abs_ep <$> l)).*1 =
  (List.filter (fun '(_, ep) => ep_owner ep =? pid) l).*1.
Proof.
  induction l as [|[i e] l IH]; simpl; [done|]. destruct (ep_owner e =? pid); simpl; [f_equal|]; apply IH.
Qed.

Lemma owned_kabs pid k :
  owned pid (kabs k) =
  (List.filter (fun '(_, ep) => ep_owner ep =? pid) (btree_iter (endpoints k))).*1.
Proof. unfold owned. simpl. rewrite btree_iter_fmap. apply filter_fmap_owner. Qed.

Lemma elem_of_owned a pid eid :
  eid ∈ owned pid a <-> exists q, ka_eps a !! eid = Some (pid, q).
Proof.
  unfold owned. rewrite list_elem_of_fmap. split.
  - intros ([i [o q]] & -> & Hi). apply list_elem_of_In, filter_In in Hi as [Hi Ho]. simpl in *. zeq.
    apply list_elem_of_In, elem_of_btree_iter in Hi. subst. eauto.
  - intros [q Hq]. exists (eid, (pid, q)). split; [done|]. apply list_elem_of_In, filter_In.
    split; [|simpl; apply Z.eqb_refl]. by apply list_elem_of_In, elem_of_btree_iter.
Qed.

Lemma NoDup_filter_keys {V} (f : Z * V -> bool) (l : list (Z * V)) :
  NoDup l.*1 -> NoDup (List.filter f l).*1.
Proof.
  induction l as [|[i v] l IH]; simpl; [done|]. intros [Hni Hnd]%NoDup_cons.
  destruct (f (i, v)); [|auto]. simpl. apply NoDup_cons. split; [|auto].
  intros (x & Hx & Hin)%list_elem_of_fmap. apply list_elem_of_In, filter_In in Hin as [Hin _].
  apply Hni. apply list_elem_of_fmap. exists x. split; [done|by apply list_elem_of_In].
Qed.

Lemma kill_process_spec pid ts k cms k' :
  kill_process pid ts k = (cms, k') ->
  kabs k' = ka_kill pid (kabs k) /\
  commit_types cms =
    (if contains_key (processes k) pid then [ProcessExited pid (-1)] else []) ++
    (EndpointDestroyed <$> owned pid (kabs k)).
Proof.
  unfold kill_process, cleanup_process_endpoints.
  set (k1 := match processes k !! pid with Some _ => _ | None => _ end).
  assert (k1.2 = k1.2 /\ endpoints k1.2 = endpoints k /\ cap_spaces k1.2 = cap_spaces k /\
    processes k1.2 = delete pid (processes k) /\ next_pid k1.2 = next_pid k /\
    next_endpoint_id k1.2 = next_endpoint_id k /\ next_cap_id k1.2 = next_cap_id k /\
    commit_types k1.1 = if contains_key (processes k) pid then [ProcessExited pid (-1)] else [])
    as (_ & He & Hcs & Hp & Hn1 & Hn2 & Hn3 & Hc).
  { unfold k1, contains_key. destruct (processes k !! pid) as [p|] eqn:E; simpl; [done|].
    by rewrite delete_id by done. }
  destruct k1 as [c1 k1]. simpl in *. rewrite He, <- owned_kabs.
  destruct (destroy_endpoints (owned pid (kabs k)) ts (endpoints k)) as [c2 eps'] eqn:E.
  apply destroy_endpoints_spec in E as [Hc2 Hl].
  2:{ unfold owned. apply NoDup_filter_keys, NoDup_btree_keys. }
  2:{ intros i [q Hq]%elem_of_owned. simpl in Hq. rewrite lookup_fmap in Hq.
      by destruct (endpoints k !! i). }
  intros [= <- <-]. split; [|unfold commit_types in *; by rewrite fmap_app, Hc, Hc2].
  unfold kabs, ka_kill. simpl. rewrite Hp, Hcs, Hn1, Hn2, Hn3, fmap_delete. f_equal.
  apply map_eq. intros i. rewrite lookup_fmap, Hl.
  case_bool_decide as Hi.
  - apply elem_of_owned in Hi as [q Hq]. symmetry. apply map_lookup_filter_None. right.
    intros x Hx. simpl in Hq. rewrite Hx in Hq. simplify_eq. simpl. tauto.
  - destruct (endpoints k !! i) as [e|] eqn:He'; simpl; symmetry.
    + apply map_lookup_filter_Some. rewrite lookup_fmap, He'. simpl. split; [done|].
      intros Ho. apply Hi, elem_of_owned. exists (ep_pending_messages e).
      simpl. rewrite lookup_fmap, He'. simpl. unfold abs_ep. by rewrite Ho.
    + apply map_lookup_filter_None. left. by rewrite lookup_fmap, He'.
Qed.

(** Killing an absent process changes nothing in a consistent state. *)
Lemma ka_kill_absent pid a : kcons a -> ka_procs a !! pid = None -> ka_kill pid a = a.
Proof.
  intros Hc Hn. destruct a as [ps cs es np ne nc]. unfold ka_kill. simpl in *.
  assert (cs !! pid = None) as Hcs.
  { apply eq_None_not_Some. intros Hx. apply (kc_consistent _ Hc) in Hx. simpl in Hx.
    rewrite Hn in Hx. by destruct Hx. }
  rewrite !delete_id by done. f_equal. apply map_filter_id. intros i [o q] Hi. simpl. intros ->.
  apply (kc_owner _ Hc) in Hi. simpl in Hi. rewrite Hn in Hi. by destruct Hi.
Qed.

Lemma kill_performs pid pre ts k cms k' :
  kcons (kabs k) -> pre = [] \/ (exists r d, pre = [ProcessFaulted pid r d]) ->
  is_Some (processes k !! pid) -> kill_process pid ts k = (cms, k') ->
  performs mstep 1 (kabs k) (pre ++ commit_types cms) (kabs k').
Proof.
  intros Hc Hpre Hp Hk. apply kill_process_spec in Hk as [-> ->].
  rewrite (proj2 (contains_key_true _ _) Hp). apply performs_one. right.
  apply L_kill; [done|by apply kabs_procs_Some].
Qed.

Lemma kill_absent_performs pid ts k cms k' :
  kcons (kabs k) -> processes k !! pid = None -> kill_process pid ts k = (cms, k') ->
  kabs k' = kabs k /\ commit_types cms = [].
Proof.
  intros Hc Hn Hk. apply kill_process_spec in Hk as [-> ->].
  assert (ka_procs (kabs k) !! pid = None) as Hn' by (simpl; by rewrite lookup_fmap, Hn).
  split; [by apply ka_kill_absent|].
  rewrite (proj2 (contains_key_false _ _) Hn). simpl.
  destruct (owned pid (kabs k)) as [|e l] eqn:E; [done|].
  assert (e ∈ owned pid (kabs k)) as [q Hq]%elem_of_owned by (rewrite E; by left).
  apply (kc_owner _ Hc) in Hq. rewrite Hn' in Hq. by destruct Hq.
Qed.

Lemma kill_process_performs pid ts k cms k' :
  kcons (kabs k) -> kill_process pid ts k = (cms, k') ->
  performs mstep 1 (kabs k) (commit_types cms) (kabs k').
Proof.
  intros Hc Hk. destruct (processes k !! pid) as [p|] eqn:Hp.
  - eapply (kill_performs pid []); eauto.
  - apply kill_absent_performs in Hk as [-> ->]; eauto with zos.
Qed.

Lemma fault_process_performs pid reason d ts k cms k' :
  kcons (kabs k) -> fault_process pid reason d ts k = (cms, k') ->
  performs mstep 1 (kabs k) (commit_types cms) (kabs k').
Proof.
  intros Hc. unfold fault_process. destruct (contains_key (processes k) pid) eqn:E.
  - destruct (kill_process pid ts _) as [more k1] eqn:Ek. intros [= <- <-].
    apply (kill_performs pid [ProcessFaulted pid reason d]) in Ek;
      [exact Ek|exact Hc|right; eauto|by apply contains_key_true in E].
  - destruct (kill_process pid ts k) as [more k1] eqn:Ek. intros [= <- <-].
    by apply kill_process_performs in Ek.
Qed.

Lemma kill_with_cap_check_performs caller t ts k r cms k' :
  kcons (kabs k) -> kill_process_with_cap_check caller t ts k = ((r, cms), k') ->
  performs mstep 1 (kabs k) (commit_types cms) (kabs k').
Proof.
  intros Hc. unfold kill_process_with_cap_check.
  destruct (contains_key (processes k) t); [|idle]. cbn [negb].
  destruct (caller =? 1).
  { destruct (kill_process t ts _) as [cms1 k1] eqn:E. intros [= <- <- <-].
    by apply kill_process_performs in E. }
  destruct (has_kill_permission k caller t); [|idle]. cbn [negb].
  destruct (kill_process t ts _) as [cms1 k1] eqn:E. intros [= <- <- <-].
  by apply kill_process_performs in E.
Qed.

(** ** Typed syscalls *)

(** The syscalls whose commits do not carry their whole effect. *)
Definition loses_information (k : KernelCore H) (pid : ProcessId) (sc : Syscall) : bool :=
  match sc with
  | Kill _ => true
  | Exit _ => negb (contains_key (processes k) pid)
  | _ => false
  end.

Lemma kabs_zombie pid k :
  kabs (set_processes (btree_update (set_proc_state Zombie) pid (processes k)) k) =
  ka_zombie pid (kabs k).
Proof.
  unfold kabs, ka_zombie; simpl. f_equal. apply map_eq. intros i.
  rewrite !lookup_fmap. unfold btree_update. destruct (decide (pid = i)) as [->|?].
  - rewrite !lookup_alter_eq, lookup_fmap. by destruct (processes k !! i).
  - by rewrite !lookup_alter_ne, lookup_fmap.
Qed.

Lemma handle_syscall_micro pid sc ts k r cms k' :
  kcons (kabs k) -> loses_information k pid sc = false ->
  handle_syscall pid sc ts k = ((r, cms), k') ->
  performs micro 2 (kabs k) (commit_types cms) (kabs k').
Proof.
  intros Hc Hl. unfold handle_syscall.
  assert (contains_key (processes k) pid =
    contains_key (processes (update_syscall_metrics pid ts k)) pid) as Hck.
  { unfold contains_key. simpl. unfold btree_update. rewrite lookup_alter_eq.
    by destruct (processes k !! pid). }
  unfold loses_information in Hl. rewrite Hck in Hl.
  revert Hc Hl. rewrite <- (kabs_metrics (count_syscall ts) pid k) by done.
  fold (update_syscall_metrics pid ts k).
  generalize (update_syscall_metrics pid ts k) as k1. clear k Hck. intros k Hc Hl.
  unfold handle_list_caps, handle_list_processes, handle_cap_inspect, handle_exit.
  destruct sc; try done; try (by idle);
    unfold handle_create_endpoint, handle_send, handle_receive, handle_cap_grant,
      handle_cap_revoke, handle_cap_delete, handle_cap_derive, handle_send_with_caps, handle_call.
  - intros [= <- <- <-]. apply performs_nil.
  - destruct (create_endpoint pid ts k) as [[r1 c1] k1] eqn:E. intros [= <- <- <-].
    apply create_endpoint_performs in E; [|done]. eapply performs_weaken; [|exact E]. lia.
  - destruct (ipc_send _ _ _ _ _ k) as [[r1 c1] k1] eqn:E. intros [= <- <- <-].
    eapply performs_weaken; [|by eapply ipc_send_performs]. lia.
  - destruct (ipc_receive _ _ _ k) as [r1 k1] eqn:E. intros [= <- <- <-].
    eapply performs_weaken; [|by eapply ipc_receive_performs]. lia.
  - intros [= <- <- <-]. rewrite kabs_zombie. apply performs_one, M_exit.
    apply negb_false_iff, contains_key_true in Hl. by apply kabs_procs_Some.
  - destruct (grant_capability _ _ _ _ _ k) as [[r1 c1] k1] eqn:E. intros [= <- <- <-].
    by eapply grant_capability_performs.
  - destruct (revoke_capability _ _ _ k) as [[r1 c1] k1] eqn:E. intros [= <- <- <-].
    eapply performs_weaken; [|by eapply revoke_capability_performs]. lia.
  - destruct (delete_capability _ _ _ k) as [[r1 c1] k1] eqn:E. intros [= <- <- <-].
    eapply performs_weaken; [|by eapply delete_capability_performs]. lia.
  - destruct (derive_capability _ _ _ _ k) as [[r1 c1] k1] eqn:E. intros [= <- <- <-].
    eapply performs_weaken; [|by eapply derive_capability_performs]. lia.
  - destruct (ipc_send_with_caps _ _ _ _ _ _ k) as [[r1 c1] k1] eqn:E. intros [= <- <- <-].
    eapply performs_weaken; [|by eapply ipc_send_with_caps_performs]. lia.
  - destruct (ipc_send _ _ _ _ _ k) as [[r1 c1] k1] eqn:E. intros [= <- <- <-].
    eapply performs_weaken; [|by eapply ipc_send_performs]. lia.
Qed.

Lemma handle_syscall_mstep pid sc ts k r cms k' :
  kcons (kabs k) -> handle_syscall pid sc ts k = ((r, cms), k') ->
  performs mstep 2 (kabs k) (commit_types cms) (kabs k').
Proof.
  intros Hc Hs. destruct (loses_information k pid sc) eqn:Hl.
  2:{ eapply performs_mono; [apply micro_mstep|by eapply handle_syscall_micro]. }
  unfold handle_syscall in Hs. revert Hc Hs.
  rewrite <- (kabs_metrics (count_syscall ts) pid k) by done.
  fold (update_syscall_metrics pid ts k). intros Hc Hs. destruct sc; try done; simpl in Hl.
  - apply negb_true_iff, contains_key_false in Hl.
    assert (ka_procs (kabs (update_syscall_metrics pid ts k)) !! pid = None) as Hn.
    { simpl. unfold btree_update. by rewrite lookup_fmap, lookup_alter_eq, Hl. }
    revert Hs Hn. generalize (update_syscall_metrics pid ts k) as k1. clear k Hl Hc.
    intros k Hs Hn. unfold handle_exit in Hs. injection Hs as <- <- <-. rewrite kabs_zombie.
    apply performs_one. right.
    replace (ka_zombie pid _) with (kabs k); [by apply L_exit_absent|].
    destruct (kabs k) as [ps cs es np ne nc]. unfold ka_zombie. simpl in *. f_equal.
    apply map_eq. intros i. destruct (decide (pid = i)) as [<-|?];
      [by rewrite lookup_alter_eq, Hn|by rewrite lookup_alter_ne].
  - unfold handle_kill in Hs. destruct (kill_process_with_cap_check _ _ _ _) as [[r1 c1] k1] eqn:E.
    injection Hs as <- <- <-. eapply performs_weaken; [|by eapply kill_with_cap_check_performs]. lia.
Qed.
End refine.
