(* ===== verification/SystemRefine.v ===== *)
(** * The syscall dispatcher refines the labelled transition system

    Every path through the numeric dispatcher of
    crates/zos-kernel/src/system, formatting included, is a trace of the
    kernel's labelled steps, and the commits it records are the labels. *)
From S2P Require Import Prelude AxiomTypes CommitLog Gateway StrLib Hal.
From S2P Require Import KernelState KernelIpc KernelSyscall.
From S2P Require Import System KernelSpec KernelRefine.

Section refine.
Context {H : Type} `{HAL H} `{Target}.
Implicit Types k : KernelCore H.

Lemma with_hal_abs {T} (f : H -> T * H) k r k' : with_hal f k = (r, k') -> kabs k' = kabs k.
Proof. unfold with_hal. destruct (f (hal k)). by intros [= _ <-]. Qed.

(** A computation that only touches the platform. *)
Definition quiet {T} (r : (T * list CommitType) * KernelCore H) (k : KernelCore H) : Prop :=
  r.1.2 = [] /\ kabs r.2 = kabs k.

Lemma key_request_quiet f data k : quiet (key_request f data k) k.
Proof.
  unfold key_request. destruct (from_utf8 data) as [key|]; [|done].
  destruct (with_hal (f key) k) as [r k'] eqn:E. apply with_hal_abs in E. by destruct r.
Qed.

Lemma key_value_request_quiet f data k r :
  key_value_request f data k = Some r -> quiet r k.
Proof.
  unfold key_value_request. destruct (parse_prefixed data) as [[| |key v]|]; try (by intros [= <-]).
  destruct (with_hal (f key v) k) as [r' k'] eqn:E. apply with_hal_abs in E.
  intros [= <-]. by destruct r'.
Qed.

Lemma storage_quiet num sender data k r :
  execute_storage_syscall num sender data k = Some r -> quiet r k.
Proof.
  unfold execute_storage_syscall.
  assert (forall r' : (Z * list CommitType) * KernelCore H, r' = ((-1, []), k) -> quiet r' k) as Hd
    by (by intros ? ->).
  repeat case_match; intros E; simplify_eq; try (by apply Hd); try apply key_request_quiet.
  by eapply key_value_request_quiet.
Qed.

Lemma keystore_quiet num sender data k r :
  execute_keystore_syscall num sender data k = Some r -> quiet r k.
Proof.
  unfold execute_keystore_syscall.
  assert (forall r' : (Z * list CommitType) * KernelCore H, r' = ((-1, []), k) -> quiet r' k) as Hd
    by (by intros ? ->).
  repeat case_match; intros E; simplify_eq; try (by apply Hd); try apply key_request_quiet.
  by eapply key_value_request_quiet.
Qed.

Lemma network_quiet sender data k : quiet (execute_network_syscall sender data k) k.
Proof.
  unfold execute_network_syscall. destruct (with_hal _ k) as [r k'] eqn:E.
  apply with_hal_abs in E. by destruct r.
Qed.

Lemma basic_quiet num sender args k : quiet (execute_basic_syscall num sender args k) k.
Proof.
  unfold execute_basic_syscall.
  repeat (case_match; try done);
    match goal with E : with_hal _ _ = _ |- _ => by apply with_hal_abs in E end.
Qed.

Lemma load_binary_quiet sender data k :
  (execute_load_binary sender data k).1.1.2 = [] /\ kabs (execute_load_binary sender data k).2 = kabs k.
Proof.
  unfold execute_load_binary. destruct (negb _); [done|]. destruct (from_utf8 data) as [name|]; [|done].
  destruct (with_hal (load_binary name) k) as [r k'] eqn:E. apply with_hal_abs in E.
  destruct r as [b|[]]; done.
Qed.

(** ** Capability, message and process syscalls *)
Lemma lift_micro n m (k k' : KernelCore H) cts :
  (n <= m)%nat -> performs micro n (kabs k) cts (kabs k') -> performs micro m (kabs k) cts (kabs k').
Proof. apply performs_weaken. Qed.

(** The steps a syscall number makes: exit, kill and the creation of an
    endpoint for another process leave commits that do not carry the change. *)
Definition lossy_syscall (num : Z) : bool := (num =? 0x11) || (num =? 0x13) || (num =? 0x15).

Definition syscall_step (num : Z) : KA -> list CommitType -> KA -> Prop :=
  if lossy_syscall num then mstep else micro.

Lemma lift_syscall num n m a cts a' :
  (n <= m)%nat -> performs micro n a cts a' -> performs (syscall_step num) m a cts a'.
Proof.
  intros Hn Hp. eapply performs_weaken; [exact Hn|]. eapply performs_mono; [|exact Hp].
  unfold syscall_step. destruct (lossy_syscall num); [apply micro_mstep|done].
Qed.

Lemma lossy_performs num n m a cts a' :
  lossy_syscall num = true -> (n <= m)%nat -> performs mstep n a cts a' ->
  performs (syscall_step num) m a cts a'.
Proof. unfold syscall_step. intros ->. apply performs_weaken. Qed.

(** A refused operation records nothing. *)
Lemma grant_Err f fs t perms ts k e cms k' :
  grant_capability f fs t perms ts k = ((Err e, cms), k') -> cms = [].
Proof.
  unfold grant_capability. destruct (validate_grant_source k f fs ts); [|by intros [= _ <- _]].
  destruct (create_derived_cap _ _ _ _ _) as [[[sl c]|e'] k1]; [done|by intros [= _ <- _]].
Qed.

Lemma delete_Err pid slot ts k e cms k' :
  delete_capability pid slot ts k = ((Err e, cms), k') -> cms = [].
Proof.
  unfold delete_capability. destruct (cap_spaces k !! pid) as [cs|] eqn:Hcs; [|by intros [= _ <- _]].
  destruct (cs_get cs slot); [|by intros [= _ <- _]].
  unfold remove_cap. by rewrite Hcs.
Qed.

Lemma kill_Err caller t ts k e cms k' :
  kill_process_with_cap_check caller t ts k = ((Err e, cms), k') -> cms = [].
Proof.
  unfold kill_process_with_cap_check. destruct (contains_key _ t); [|by intros [= _ <- _]].
  cbn [negb]. destruct (caller =? 1); [by destruct (kill_process _ _ _)|].
  destruct (has_kill_permission _ _ _); [by cbn [negb]; destruct (kill_process _ _ _)|by intros [= _ <- _]].
Qed.

Lemma capability_syscall_performs num sender args ts k :
  kcons (kabs k) ->
  performs micro 2 (kabs k) (execute_capability_syscall num sender args ts k).1.2
    (kabs (execute_capability_syscall num sender args ts k).2).
Proof.
  intros Hc. unfold execute_capability_syscall.
  destruct (num =? 0x30); [|destruct (num =? 0x31); [|destruct (num =? 0x35); [|apply performs_nil]]].
  - destruct (grant_capability _ _ _ _ _ k) as [[[sl|e] cms] k'] eqn:E;
      pose proof (grant_capability_performs _ _ _ _ _ _ _ _ _ E) as Hp.
    + by apply (lift_micro 2).
    + apply grant_Err in E as ->. by apply (lift_micro 2).
  - destruct (delete_capability _ _ _ k) as [[[u|e] cms] k'] eqn:E;
      pose proof (delete_capability_performs _ _ _ _ _ _ _ E) as Hp.
    + apply (lift_micro 1); [lia|done].
    + apply delete_Err in E as ->. apply (lift_micro 1); [lia|done].
  - destruct (create_endpoint sender ts k) as [[r cms] k'] eqn:E.
    apply create_endpoint_performs in E; [|done].
    destruct r as [[eid sl]|e]; (apply (lift_micro 1); [lia|done]).
Qed.

Lemma ipc_syscall_performs num sender args data ts k :
  performs micro 1 (kabs k) (execute_ipc_syscall num sender args data ts k).1.1.2
    (kabs (execute_ipc_syscall num sender args data ts k).2).
Proof.
  unfold execute_ipc_syscall.
  destruct (num =? 0x40); [|destruct (num =? 0x41); [|apply performs_nil]].
  - destruct (ipc_send _ _ _ _ _ k) as [[r c] k'] eqn:E. apply ipc_send_performs in E.
    destruct r; by apply (lift_micro 1).
  - destruct (ipc_receive _ _ _ k) as [[[m|]|e] k'] eqn:E; apply ipc_receive_performs in E;
      by apply (lift_micro 1).
Qed.

Lemma register_process_performs name ts k pid cms k' :
  kcons (kabs k) -> register_process name ts k = ((pid, cms), k') ->
  performs micro 1 (kabs k) (commit_types cms) (kabs k').
Proof.
  intros Hc Hr. pose proof (register_performs name 0 ts k Hc) as Hp.
  unfold register_process in Hr. rewrite Hr in Hp. by apply (lift_micro 1).
Qed.

Lemma create_endpoint_for_performs sender args ts k :
  kcons (kabs k) ->
  performs mstep 2 (kabs k) (execute_create_endpoint_for sender args ts k).1.2
    (kabs (execute_create_endpoint_for sender args ts k).2).
Proof.
  intros Hc. unfold execute_create_endpoint_for.
  destruct (negb _); [apply performs_nil|].
  destruct (create_endpoint (arg0 args) ts k) as [[r cms] k1] eqn:E.
  apply create_endpoint_cases in E
    as [(-> & -> & ->)|(cs & Hp & Hcs & Hcm & Hk & ->)]; [apply performs_nil| |done]. simpl.
  destruct (insert_cap 1 _ _) as [[slot k2]|] eqn:Ei; simpl; rewrite Hcm.
  - apply insert_cap_Some in Ei as (cs1 & Hcs1 & -> & Hk2). apply performs_one. right.
    assert (ka_caps (kabs k1) !! 1 = Some cs1) as Hcs1' by done.
    assert (next_cap_id k1 = ka_ncap (kabs k1)) as Hnc by done.
    change (kabs (set_next_cap_id (u64_add (next_cap_id k1) 1) k1)) with (ka_bump_cap (kabs k1)) in Hk2.
    rewrite Hk2, Hnc. clear Hk2 Hcs1 Hnc. rewrite Hk in *. by apply (L_create_for (kabs k) (arg0 args) cs cs1).
  - rewrite <- (app_nil_r (create_commits _ _ _)).
    eapply (performs_app _ 1 1); apply performs_one; left; [by apply M_create|].
    change (kabs (set_next_cap_id (u64_add (next_cap_id k1) 1) k1)) with (ka_bump_cap (kabs k1)).
    rewrite Hk. apply M_burn_cap.
Qed.

Lemma spawn_process_performs sender data ts k r :
  kcons (kabs k) -> execute_spawn_process sender data ts k = Some r ->
  performs micro 1 (kabs k) r.1.2 (kabs r.2).
Proof.
  intros Hc. unfold execute_spawn_process.
  destruct (negb _); [intros [= <-]; apply performs_nil|].
  destruct (parse_prefixed data) as [[| |name b]|]; try done; try (intros [= <-]; apply performs_nil).
  destruct b as [|b0 b]; [intros [= <-]; apply performs_nil|].
  destruct (register_process name ts k) as [[pid cms] k1] eqn:E.
  destruct (with_hal _ k1) as [r1 k2] eqn:Eh. apply with_hal_abs in Eh.
  apply register_process_performs in E; [|done].
  destruct r1; intros [= <-]; simpl; by rewrite Eh.
Qed.

Lemma process_syscall_performs num sender args data ts k r :
  kcons (kabs k) -> execute_process_syscall num sender args data ts k = Some r ->
  performs (syscall_step num) 3 (kabs k) r.1.1.2 (kabs r.2).
Proof.
  intros Hc. unfold execute_process_syscall.
  assert (forall x : (Z * list CommitType) * KernelCore H,
    performs (syscall_step num) 3 (kabs k) x.1.2 (kabs x.2) ->
    performs (syscall_step num) 3 (kabs k) (with_no_data x).1.1.2 (kabs (with_no_data x).2)) as Hw.
  { by intros [[? ?] ?]. }
  assert ((num =? 0x11) = true \/ (num =? 0x13) = true \/ (num =? 0x15) = true -> lossy_syscall num = true) as Hl.
  { unfold lossy_syscall. intros [E|[E|E] ]; rewrite E, ?orb_true_r; done. }
  destruct (num =? 0x11).
  { intros [= <-]. apply Hw. unfold execute_exit. destruct (kill_process sender ts k) as [c k1] eqn:E.
    apply kill_process_performs in E; [|done]. eapply lossy_performs; [auto| |exact E]. lia. }
  destruct (num =? 0x12); [intros [= <-]; apply performs_nil|].
  destruct (num =? 0x13).
  { intros [= <-]. apply Hw. unfold execute_kill_with_cap.
    destruct (kill_process_with_cap_check _ _ ts k) as [[[u|e] c] k1] eqn:E.
    - apply kill_with_cap_check_performs in E; [|done]. eapply lossy_performs; [auto| |exact E]. lia.
    - pose proof (kill_Err _ _ _ _ _ _ _ E) as ->.
      apply kill_with_cap_check_performs in E; [|done]. eapply lossy_performs; [auto| |exact E]. lia. }
  destruct (num =? 0x14).
  { intros [= <-]. apply Hw. unfold execute_register_process.
    destruct (negb _); [apply performs_nil|].
    destruct (register_process _ ts k) as [[pid c] k1] eqn:E.
    apply register_process_performs in E; [|done]. eapply lift_syscall; [|exact E]. lia. }
  destruct (num =? 0x15).
  { intros [= <-]. apply Hw. eapply lossy_performs; [auto| |by apply create_endpoint_for_performs]. lia. }
  destruct (num =? 0x16).
  { intros [= <-]. destruct (load_binary_quiet sender data k) as [-> ->]. apply performs_nil. }
  destruct (num =? 0x17); [|intros [= <-]; apply performs_nil].
  intros (r' & E & ->)%fmap_Some. apply Hw.
  apply spawn_process_performs in E; [|done]. eapply lift_syscall; [|exact E]. lia.
Qed.

Lemma quiet_performs R n (x : (Z * list CommitType) * KernelCore H) k :
  quiet x k -> performs R n (kabs k) (with_no_data x).1.1.2 (kabs (with_no_data x).2).
Proof. destruct x as [[r c] k']. unfold quiet. simpl. intros [-> ->]. apply performs_nil. Qed.

Lemma kernel_fn_performs num sender args data ts k r :
  kcons (kabs k) -> execute_syscall_kernel_fn num sender args data ts k = Some r ->
  performs (syscall_step num) 3 (kabs k) r.1.1.2 (kabs r.2).
Proof.
  intros Hc. unfold execute_syscall_kernel_fn.
  destruct (in_span _ _ num); [intros [= <-]; apply quiet_performs, basic_quiet|].
  destruct (in_span _ _ num); [by apply process_syscall_performs|].
  destruct (_ || _).
  { intros [= <-]. pose proof (capability_syscall_performs num sender args ts k Hc) as Hp.
    destruct (execute_capability_syscall _ _ _ _ _) as [[? ?] ?].
    eapply lift_syscall; [|exact Hp]. lia. }
  destruct (_ || _).
  { intros [= <-]. eapply lift_syscall; [|apply ipc_syscall_performs]. lia. }
  destruct (num =? 0x50); [intros [= <-]; apply performs_nil|].
  destruct (in_span _ _ num).
  { intros (x & E%storage_quiet & ->)%fmap_Some. by apply quiet_performs. }
  destruct (in_span _ _ num).
  { intros (x & E%keystore_quiet & ->)%fmap_Some. by apply quiet_performs. }
  destruct (num =? 0x90); intros [= <-]; [apply quiet_performs, network_quiet|apply performs_nil].
Qed.

(** ** Formatting *)
Lemma rich_result_performs sender num args res ts k :
  performs micro 1 (kabs k) (get_syscall_rich_result sender num args res ts k).1.2
    (kabs (get_syscall_rich_result sender num args res ts k).2).
Proof.
  unfold get_syscall_rich_result.
  assert (kabs (update_syscall_metrics sender ts k) = kabs k) as Hk by (by apply kabs_metrics).
  destruct (num =? 0x35).
  { unfold format_caps_list, handle_syscall, handle_list_caps. cbn [fst snd]. rewrite Hk. apply performs_nil. }
  destruct (num =? 0x50).
  { unfold format_process_list, handle_syscall, handle_list_processes. cbn [fst snd]. rewrite Hk. apply performs_nil. }
  destruct (num =? 0x41); [|unfold default_rich_result; destruct (0 <=? res); apply performs_nil].
  unfold format_receive_result. destruct (res =? 1).
  - destruct (ipc_receive_with_caps _ _ _ _) as [[r cms] k1] eqn:E.
    apply ipc_receive_with_caps_performs in E.
    destruct r as [[[m sls]|]|e]; by apply (lift_micro 1).
  - destruct (res =? 0); apply performs_nil.
Qed.
End refine.
