(* ===== verification/KernelWf.v ===== *)
(** * Well-formedness of the kernel along its labelled steps

    [kwf] collects the structural invariants, [kroom] says that no counter is
    about to wrap, [kbounded n] bounds the counters after [n] steps. *)
From S2P Require Import Prelude AxiomTypes CommitLog Hal KernelState.
From S2P Require Import KernelIpc KernelSyscall KernelSpec KernelRefine.

(** What is true of every capability, in a slot or in a message: it never
    expires, it is of the only generation, its identifier has been allocated,
    and if it names an endpoint, that endpoint has been allocated. *)
Record cap_ok (a : KA) (c : Capability) : Prop := mk_cap_ok {
  co_generation : cap_generation c = 0;
  co_expires : cap_expires_at c = 0;
  co_id : cap_id c < ka_ncap a;
  co_object : cap_object_type c = OT_Endpoint -> cap_object_id c < ka_neid a }.

Record kwf (a : KA) : Prop := mk_kwf {
  kw_cons : kcons a;
  kw_eids : forall eid, is_Some (ka_eps a !! eid) -> eid < ka_neid a;
  kw_caps : forall c, ka_held a c -> cap_ok a c;
  kw_slots : forall pid cs, ka_caps a !! pid = Some cs -> cs_wf cs;
  kw_msgs : forall eid o q m, ka_eps a !! eid = Some (o, q) -> m ∈ q ->
    len (msg_transferred_caps m) <= MAX_CAPS_PER_MESSAGE;
  kw_counters : 0 <= ka_npid a /\ 0 <= ka_neid a /\ 0 <= ka_ncap a }.

Record kroom (a : KA) : Prop := mk_kroom {
  kr_pid : ka_npid a < 2 ^ 64 - 1;
  kr_eid : ka_neid a < 2 ^ 64 - 1;
  kr_cap : ka_ncap a < 2 ^ 64 - 2;
  kr_slot : forall pid cs, ka_caps a !! pid = Some cs -> next_slot cs < 2 ^ 32 - 8 }.

Record kbounded (n : Z) (a : KA) : Prop := mk_kbounded {
  kb_pid : ka_npid a <= 2 ^ 63 + n;
  kb_eid : ka_neid a <= n + 1;
  kb_cap : ka_ncap a <= 2 * n + 1;
  kb_slot : forall pid cs, ka_caps a !! pid = Some cs -> next_slot cs <= 8 * n }.

(** The number of steps for which the counters cannot wrap. *)
Definition max_steps : Z := 2 ^ 29 - 2.

Lemma kbounded_room n a : n <= max_steps -> kbounded n a -> kroom a.
Proof.
  unfold max_steps. intros Hn [H1 H2 H3 H4]. split; try lia.
  intros pid cs Hcs. specialize (H4 _ _ Hcs). lia.
Qed.

Lemma kbounded_mono n m a : n <= m -> kbounded n a -> kbounded m a.
Proof. intros Hn [H1 H2 H3 H4]. split; try lia. intros pid cs Hcs. specialize (H4 _ _ Hcs). lia. Qed.

Lemma cap_ok_mono a a' c :
  ka_ncap a <= ka_ncap a' -> ka_neid a <= ka_neid a' -> cap_ok a c -> cap_ok a' c.
Proof. intros Hn He [H1 H2 H3 H4]. split; try done; [lia|]. intros Ht. specialize (H4 Ht). lia. Qed.

(** ** Held capabilities after an update *)
Lemma held_set_cspace pid cs a c :
  ka_held (ka_set_cspace pid cs a) c -> (exists slot, slots cs !! slot = Some c) \/ ka_held a c.
Proof.
  intros [(p & cs' & slot & Hcs & Hc)|Hq]; [|by right; right].
  simpl in Hcs. apply lookup_insert_Some in Hcs as [[_ <-]|[_ Hcs]]; [by left; exists slot|].
  right; left. by exists p, cs', slot.
Qed.

Lemma held_set_ep eid o q a c :
  ka_held (ka_set_ep eid o q a) c ->
  (exists m tc, m ∈ q /\ tc ∈ msg_transferred_caps m /\ tc_capability tc = c) \/ ka_held a c.
Proof.
  intros [Hs|(e & o' & q' & m & tc & He & Hm & Ht & Hc)]; [by right; left|].
  simpl in He. apply lookup_insert_Some in He as [[_ [= _ <-]]|[_ He]]; [by left; exists m, tc|].
  right; right. by exists e, o', q', m, tc.
Qed.

Lemma held_bump a c : ka_held (ka_bump_cap a) c -> ka_held a c.
Proof. done. Qed.

Lemma held_in_slot a pid cs slot c :
  ka_caps a !! pid = Some cs -> slots cs !! slot = Some c -> ka_held a c.
Proof. intros. left. by exists pid, cs, slot. Qed.

Lemma held_in_msg a eid o q m tc :
  ka_eps a !! eid = Some (o, q) -> m ∈ q -> tc ∈ msg_transferred_caps m -> ka_held a (tc_capability tc).
Proof. intros. right. by exists eid, o, q, m, tc. Qed.

Lemma held_new_proc pid name npid a c : ka_held (ka_new_proc pid name npid a) c -> ka_held a c.
Proof.
  intros [(p & cs & slot & Hcs & Hc)|Hq]; [|by right]. simpl in Hcs.
  apply lookup_insert_Some in Hcs as [[_ <-]|[_ Hcs]]; [simpl in Hc; by rewrite lookup_empty in Hc|].
  by eapply held_in_slot.
Qed.

Lemma held_new_endpoint owner a c : ka_held (ka_new_endpoint owner a) c -> ka_held a c.
Proof.
  intros [Hc|(e & o & q & m & tc & He & Hm & Ht & <-)]; [by left|].
  simpl in He. apply lookup_insert_Some in He as [[_ [= _ <-]]|[_ He]]; [by apply elem_of_nil in Hm|].
  by eapply held_in_msg.
Qed.

Lemma kill_eps pid a eid o q :
  ka_eps (ka_kill pid a) !! eid = Some (o, q) <-> ka_eps a !! eid = Some (o, q) /\ o <> pid.
Proof. simpl. by rewrite map_lookup_filter_Some. Qed.

Lemma held_kill pid a c : ka_held (ka_kill pid a) c -> ka_held a c.
Proof.
  intros [(p & cs & slot & Hcs & Hc)|(e & o & q & m & tc & Hq & Hm & Ht & <-)].
  - simpl in Hcs. apply lookup_delete_Some in Hcs as [_ Hcs]. by eapply held_in_slot.
  - apply kill_eps in Hq as [Hq _]. by eapply held_in_msg.
Qed.

Lemma held_insert pid cs cap a c :
  ka_caps a !! pid = Some cs -> ka_held (ka_set_cspace pid (cs_insert cap cs).2 a) c ->
  c = cap \/ ka_held a c.
Proof.
  intros Hcs [[slot Hc]|Hc]%held_set_cspace; [|by right]. simpl in Hc.
  apply lookup_insert_Some in Hc as [[_ <-]|[_ Hc]]; [by left|right]. by eapply held_in_slot.
Qed.

(** ** The two loops *)
Lemma transfer_loop_spec pid sl ts cs caps cms cs' :
  transfer_loop pid sl ts cs = (caps, cms, cs') ->
  next_slot cs' = next_slot cs /\
  (forall slot c, slots cs' !! slot = Some c -> slots cs !! slot = Some c) /\
  (forall tc, tc ∈ caps -> exists slot, slots cs !! slot = Some (tc_capability tc)).
Proof.
  revert cs caps cms cs'. induction sl as [|s sl IH]; intros cs caps cms cs'; simpl.
  - intros [= <- _ <-]. split_and!; [done|done|]. intros tc Htc. by apply elem_of_nil in Htc.
  - destruct (slots cs !! s) as [c|] eqn:Hc.
    + destruct (transfer_loop pid sl ts _) as [[caps1 cms1] cs1] eqn:E. intros [= <- _ <-].
      apply IH in E as (Hn & Hs & Ht). simpl in *. split_and!; [done| |].
      * intros slot c' Hc'. apply Hs in Hc'. by apply lookup_delete_Some in Hc' as [_ ?].
      * intros tc [->|Htc]%elem_of_cons; [by exists s|].
        destruct (Ht _ Htc) as [slot Hsl]. exists slot. by apply lookup_delete_Some in Hsl as [_ ?].
    + intros E. apply IH in E as (Hn & Hs & Ht). simpl in *. split_and!; [done| |].
      * intros slot c' Hc'. apply Hs in Hc'. by apply lookup_delete_Some in Hc' as [_ ?].
      * intros tc Htc. destruct (Ht _ Htc) as [slot Hsl]. exists slot.
        by apply lookup_delete_Some in Hsl as [_ ?].
Qed.

Lemma transfer_loop_wf pid sl ts cs caps cms cs' :
  transfer_loop pid sl ts cs = (caps, cms, cs') -> cs_wf cs -> cs_wf cs'.
Proof.
  intros (Hn & Hs & _)%transfer_loop_spec [H0 Hlt]. split; rewrite Hn; [done|]. eauto.
Qed.

Lemma install_loop_caps pid caps ts cs sls cms cs' slot c :
  install_loop pid caps ts cs = (sls, cms, cs') -> slots cs' !! slot = Some c ->
  slots cs !! slot = Some c \/ exists tc, tc ∈ caps /\ tc_capability tc = c.
Proof.
  revert cs sls cms cs'. induction caps as [|tc caps IH]; intros cs sls cms cs' E Hc; simpl in E.
  - injection E as _ _ <-. by left.
  - destruct (install_loop pid caps ts _) as [[sls1 cms1] cs1] eqn:E1. injection E as _ _ <-.
    destruct (IH _ _ _ _ E1 Hc) as [Hc'|(tc' & Ht & <-)].
    + simpl in Hc'. apply lookup_insert_Some in Hc' as [[_ <-]|[_ Hc']]; [|by left].
      right. exists tc. split; [by left|done].
    + right. exists tc'. split; [by right|done].
Qed.

Lemma install_loop_spec pid caps ts cs sls cms cs' :
  install_loop pid caps ts cs = (sls, cms, cs') -> cs_wf cs ->
  next_slot cs + len caps < 2 ^ 32 ->
  cs_wf cs' /\ next_slot cs' = next_slot cs + len caps.
Proof.
  revert cs sls cms cs'. induction caps as [|tc caps IH]; intros cs sls cms cs' E Hwf Hn; simpl in E.
  - injection E as _ _ <-. unfold len. simpl. split; [done|lia].
  - destruct (install_loop pid caps ts _) as [[sls1 cms1] cs1] eqn:E1. injection E as _ _ <-.
    unfold len in *. simpl length in *.
    destruct (ax_cs_insert_wf cs (tc_capability tc) Hwf ltac:(lia)) as (Hwf1 & _ & Hn1).
    apply (IH _ _ _ _) in E1 as (Hwf2 & Hn2); [|done|simpl in Hn1; simpl; lia].
    simpl in *. split; [done|lia].
Qed.

(** ** Preservation by each abstract operation *)
Lemma ka_new_proc_kwf pid name npid a :
  kwf a -> kroom a -> ka_procs a !! pid = None -> pid_step a pid npid -> kwf (ka_new_proc pid name npid a).
Proof.
  intros Hwf Hroom Hfresh Hstep. pose proof Hwf as [[C1 C2 C3] W2 W3 W4 W5 (W6 & W7 & W8)].
  pose proof (kr_pid _ Hroom).
  assert (ka_npid a <= npid /\ pid < npid) as [Hle Hlt].
  { destruct Hstep as [[-> ->]|[Hp ->]]; [rewrite u64_add_small; lia|].
    destruct (Z.leb_spec (ka_npid a) pid); [rewrite u64_add_small|]; lia. }
  split; simpl; try done.
  - split; simpl.
    + intros p. by rewrite !lookup_insert_is_Some_or, C1.
    + intros eid o q He. apply lookup_insert_is_Some_or. right. eauto.
    + intros p. rewrite lookup_insert_is_Some_or. intros [->|Hp]; [done|]. specialize (C3 _ Hp). lia.
  - intros c Hc%held_new_proc. apply (cap_ok_mono a); simpl; [lia|lia|]. eauto.
  - intros p cs. rewrite lookup_insert_Some. intros [[_ <-]|[_ Hp]]; eauto with zos.
  - lia.
Qed.

Lemma ka_zombie_kwf pid a : kwf a -> kwf (ka_zombie pid a).
Proof.
  intros [[C1 C2 C3] W2 W3 W4 W5 W6]. split; simpl; try done.
  - split; simpl.
    + intros p. rewrite lookup_alter_is_Some. apply C1.
    + intros eid o q He. rewrite lookup_alter_is_Some. eauto.
    + intros p. rewrite lookup_alter_is_Some. eauto.
  - intros c Hc. apply (cap_ok_mono a); simpl; [lia|lia|]. by apply W3.
Qed.

Lemma ka_new_endpoint_kwf owner a :
  kwf a -> kroom a -> is_Some (ka_procs a !! owner) -> kwf (ka_new_endpoint owner a).
Proof.
  intros Hwf Hroom Ho. pose proof Hwf as [[C1 C2 C3] W2 W3 W4 W5 (W6 & W7 & W8)].
  pose proof (kr_eid _ Hroom).
  split; simpl; rewrite ?u64_add_small by lia; try done.
  - split; simpl; try done. intros eid o q. rewrite lookup_insert_Some.
    intros [[_ [= <- _]]|[_ He]]; eauto.
  - intros eid. rewrite lookup_insert_is_Some_or. intros [->|He]; [lia|]. specialize (W2 _ He). lia.
  - intros c Hc%held_new_endpoint.
    apply (cap_ok_mono a); simpl; [lia|rewrite u64_add_small; lia|]. by apply W3.
  - intros eid o q m. rewrite lookup_insert_Some. intros [[_ [= _ <-]]|[_ He]] Hm; [by apply elem_of_nil in Hm|].
    eauto.
  - lia.
Qed.

Lemma ka_bump_cap_kwf a : kwf a -> ka_ncap a < 2 ^ 64 - 1 -> kwf (ka_bump_cap a).
Proof.
  intros Hwf Hroom. pose proof Hwf as [[C1 C2 C3] W2 W3 W4 W5 (W6 & W7 & W8)].
  split; simpl; rewrite ?u64_add_small by lia; try done; [|lia].
  intros c Hc. apply (cap_ok_mono a); simpl; [rewrite u64_add_small; lia|lia|]. by apply W3.
Qed.

(** Replacing a capability space by one whose capabilities were held. *)
Lemma ka_set_cspace_kwf pid cs cs' a :
  kwf a -> ka_caps a !! pid = Some cs -> cs_wf cs' ->
  (forall slot c, slots cs' !! slot = Some c -> cap_ok a c) -> kwf (ka_set_cspace pid cs' a).
Proof.
  intros [[C1 C2 C3] W2 W3 W4 W5 W6] Hcs Hcs' Hok. split; simpl; try done.
  - split; simpl; try done. intros p. rewrite lookup_insert_is_Some_or, C1. naive_solver.
  - intros c [[slot Hc]|Hc]%held_set_cspace; apply (cap_ok_mono a); simpl; try lia; eauto.
  - intros p cs1. rewrite lookup_insert_Some. intros [[_ <-]|[_ Hp]]; eauto.
Qed.

(** Replacing a queue by one whose messages were queued or carry held
    capabilities. *)
Lemma ka_set_ep_kwf eid o q q' a :
  kwf a -> ka_eps a !! eid = Some (o, q) ->
  (forall m, m ∈ q' -> len (msg_transferred_caps m) <= MAX_CAPS_PER_MESSAGE /\
     forall tc, tc ∈ msg_transferred_caps m -> cap_ok a (tc_capability tc)) ->
  kwf (ka_set_ep eid o q' a).
Proof.
  intros [[C1 C2 C3] W2 W3 W4 W5 W6] He Hq. split; simpl; try done.
  - split; simpl; try done. intros e o' q1. rewrite lookup_insert_Some.
    intros [[_ [= <- _]]|[_ He']]; eauto.
  - intros e. rewrite lookup_insert_is_Some_or. intros [->|He']; eauto.
  - intros c [(m & tc & Hm & Ht & <-)|Hc]%held_set_ep; apply (cap_ok_mono a); simpl; try lia; [|eauto].
    by apply (Hq m).
  - intros e o' q1 m. rewrite lookup_insert_Some. intros [[_ [= _ <-]]|[_ He']] Hm; [by apply Hq|eauto].
Qed.

Lemma queue_ok a eid o q m :
  kwf a -> ka_eps a !! eid = Some (o, q) -> m ∈ q ->
  len (msg_transferred_caps m) <= MAX_CAPS_PER_MESSAGE /\
  forall tc, tc ∈ msg_transferred_caps m -> cap_ok a (tc_capability tc).
Proof.
  intros Hwf He Hm. split; [by eapply (kw_msgs _ Hwf)|].
  intros tc Ht. apply (kw_caps _ Hwf). by eapply held_in_msg.
Qed.

Lemma justified_ok a c :
  kwf a -> justified a c -> cap_generation c = 0 /\ cap_expires_at c = 0 /\
  (cap_object_type c = OT_Endpoint -> cap_object_id c < ka_neid a).
Proof.
  intros Hwf (c0 & Hc0 & A1 & A2 & _ & A4 & A5).
  apply (kw_caps _ Hwf) in Hc0 as [G1 G2 G3 G4]. rewrite A1, A2, A4, A5. done.
Qed.

Lemma from_owner_ok a c :
  kwf a -> from_owner a c -> cap_generation c = 0 /\ cap_expires_at c = 0 /\
  (cap_object_type c = OT_Endpoint -> cap_object_id c < ka_neid a).
Proof.
  intros Hwf (Ht & Hs & Hg & Hx). split_and!; try done. intros _. by apply (kw_eids _ Hwf).
Qed.

Lemma insert_bump_kwf pid cs cap a :
  kwf a -> ka_ncap a < 2 ^ 64 - 1 -> ka_caps a !! pid = Some cs -> next_slot cs < 2 ^ 32 - 1 ->
  cap_id cap = ka_ncap a ->
  cap_generation cap = 0 /\ cap_expires_at cap = 0 /\
    (cap_object_type cap = OT_Endpoint -> cap_object_id cap < ka_neid a) ->
  kwf (ka_bump_cap (ka_set_cspace pid (cs_insert cap cs).2 a)).
Proof.
  intros Hwf Hroom Hcs Hns Hid (J1 & J2 & J3).
  pose proof (kw_counters _ Hwf).
  change (ka_bump_cap (ka_set_cspace pid ?x a)) with (ka_set_cspace pid x (ka_bump_cap a)).
  apply (ka_set_cspace_kwf pid cs); [by apply ka_bump_cap_kwf|done| |].
  - apply ax_cs_insert_wf; [by eapply (kw_slots _ Hwf)|done].
  - intros slot c. simpl. rewrite lookup_insert_Some. intros [[_ <-]|[_ Hc]].
    + split; simpl; try done. rewrite u64_add_small; lia.
    + apply (cap_ok_mono a); simpl; [rewrite u64_add_small; lia|lia|].
      apply (kw_caps _ Hwf). by eapply held_in_slot.
Qed.

Lemma insert_room_kwf pid cs cap a :
  kwf a -> kroom a -> ka_caps a !! pid = Some cs -> cap_id cap = ka_ncap a ->
  justified a cap \/ from_owner a cap ->
  kwf (ka_bump_cap (ka_set_cspace pid (cs_insert cap cs).2 a)).
Proof.
  intros Hwf Hroom Hcs Hid Hj. apply insert_bump_kwf; try done.
  - pose proof (kr_cap _ Hroom). lia.
  - pose proof (kr_slot _ Hroom _ _ Hcs). lia.
  - destruct Hj; [by apply justified_ok|by apply from_owner_ok].
Qed.

Lemma ka_create_kwf owner cs a :
  kwf a -> kroom a -> is_Some (ka_procs a !! owner) -> ka_caps a !! owner = Some cs ->
  kwf (ka_create owner cs a).
Proof.
  intros Hwf Hroom Ho Hcs. pose proof (kw_counters _ Hwf). pose proof (kr_eid _ Hroom).
  apply insert_bump_kwf; simpl; try done.
  - by apply ka_new_endpoint_kwf.
  - pose proof (kr_cap _ Hroom). lia.
  - pose proof (kr_slot _ Hroom _ _ Hcs). lia.
  - split_and!; try done. intros _. rewrite u64_add_small; lia.
Qed.

Lemma ka_kill_kwf pid a : kwf a -> kwf (ka_kill pid a).
Proof.
  intros [[C1 C2 C3] W2 W3 W4 W5 W6].
  pose proof (kill_eps pid a) as He. split; simpl; try done.
  - split; simpl.
    + intros p. by rewrite !lookup_delete_is_Some, C1.
    + intros eid o q Hq. apply He in Hq as [Hq Hne]. rewrite lookup_delete_is_Some. split; [done|eauto].
    + intros p [_ Hp]%lookup_delete_is_Some. eauto.
  - intros eid [[o q] Hq]. apply He in Hq as [Hq _]. eauto.
  - intros c Hc%held_kill. apply (cap_ok_mono a); simpl; [lia|lia|]. by apply W3.
  - intros p cs [_ Hp]%lookup_delete_Some. eauto.
  - intros eid o q m Hq. apply He in Hq as [Hq _]. eauto.
Qed.

(** Every step preserves well-formedness. *)
Lemma micro_kwf a l a' : kwf a -> kroom a -> micro a l a' -> kwf a'.
Proof.
  intros Hwf Hroom Hm. destruct Hm as
    [pid parent name npid Hf Hs|pid code Hp|owner cs Ho Hcs| |pid cs cap Hcs Hid Hj|f t fs ts perms
    |pid cs slot Hcs Hsl|eid o q m from He Hm|pid cs eid o q sl ts caps cms cs' m Hcs He Ht Hmc Hlen
    |eid o m q He|pid cs eid o m q ts sls cms cs' Hcs He Hi].
  - by apply ka_new_proc_kwf.
  - by apply ka_zombie_kwf.
  - by apply ka_create_kwf.
  - apply ka_bump_cap_kwf; [done|pose proof (kr_cap _ Hroom); lia].
  - apply insert_room_kwf; eauto.
  - done.
  - eapply ka_set_cspace_kwf; [done|done|apply ax_cs_remove_wf; by eapply (kw_slots _ Hwf)|].
    intros s c Hc. simpl in Hc. apply lookup_delete_Some in Hc as [_ Hc].
    apply (kw_caps _ Hwf). by eapply held_in_slot.
  - eapply ka_set_ep_kwf; [done|done|]. intros m' [Hm'|Hm'%list_elem_of_singleton]%elem_of_app; [|subst m'].
    + by eapply queue_ok.
    + rewrite Hm. split; [done|]. intros tc Htc. by apply elem_of_nil in Htc.
  - pose proof (transfer_loop_spec _ _ _ _ _ _ _ Ht) as (_ & Hs & Hc).
    assert (cs_wf cs') as Hcs' by (eapply transfer_loop_wf; [done|by eapply (kw_slots _ Hwf)]).
    assert (kwf (ka_set_cspace pid cs' a)) as Hwf'.
    { eapply ka_set_cspace_kwf; [done|done|done|].
      intros s c Hsc. apply (kw_caps _ Hwf). eapply held_in_slot; eauto. }
    eapply ka_set_ep_kwf; [done|done|]. intros m' [Hm'|Hm'%list_elem_of_singleton]%elem_of_app; [|subst m'].
    + by eapply queue_ok.
    + rewrite Hmc. split; [done|]. intros tc Htc. destruct (Hc _ Htc) as [s Hsl].
      apply (cap_ok_mono a); simpl; [lia|lia|]. apply (kw_caps _ Hwf). by eapply held_in_slot.
  - eapply ka_set_ep_kwf; [done|done|]. intros m' Hm'. eapply queue_ok; [done|done|by right].
  - assert (kwf (ka_set_ep eid o q a)) as Hwf'.
    { eapply ka_set_ep_kwf; [done|done|]. intros m' Hm'. eapply queue_ok; [done|done|by right]. }
    destruct (queue_ok _ _ _ _ m Hwf He ltac:(by left)) as [Hlen Hok].
    pose proof (fun slot c => install_loop_caps _ _ _ _ _ _ _ slot c Hi) as Hs.
    apply install_loop_spec in Hi as (Hcs' & _); [|by eapply (kw_slots _ Hwf)|].
    2:{ pose proof (kr_slot _ Hroom _ _ Hcs). unfold MAX_CAPS_PER_MESSAGE in Hlen. lia. }
    eapply (ka_set_cspace_kwf pid cs); [done|done|done|].
    intros slot c [Hc|(tc & Htc & <-)]%Hs; apply (cap_ok_mono a); simpl; try lia; [|by apply Hok].
    apply (kw_caps _ Hwf). by eapply held_in_slot.
Qed.

Lemma next_slot_insert pid cs cap a p cs' :
  ka_caps (ka_set_cspace pid (cs_insert cap cs).2 a) !! p = Some cs' ->
  0 <= next_slot cs < 2 ^ 32 - 1 ->
  next_slot cs' = next_slot cs + 1 \/ ka_caps a !! p = Some cs'.
Proof.
  simpl. rewrite lookup_insert_Some. intros [[_ <-]|[_ Hp]] Hn; [left|by right].
  simpl. rewrite u32_add_small; lia.
Qed.

Lemma lossy_kwf a l a' : kwf a -> kroom a -> lossy a l a' -> kwf a'.
Proof.
  intros Hwf Hroom Hl. destruct Hl as [pid pre Hpre Hp|owner cs cs1 Ho Hcs Hcs1|pid code Hp].
  - by apply ka_kill_kwf.
  - pose proof (ka_create_kwf _ _ _ Hwf Hroom Ho Hcs) as Hwf'.
    pose proof (kr_slot _ Hroom _ _ Hcs). pose proof (kw_counters _ Hwf).
    pose proof (kw_slots _ Hwf _ _ Hcs) as [Hn0 _].
    pose proof (kr_cap _ Hroom). pose proof (kr_eid _ Hroom).
    apply insert_bump_kwf; try done; simpl.
    + rewrite u64_add_small; lia.
    + apply next_slot_insert in Hcs1 as [->|Hcs1]; [lia| |lia].
      pose proof (kr_slot _ Hroom _ _ Hcs1). lia.
    + split_and!; try done. intros _. rewrite u64_add_small; lia.
  - done.
Qed.

Lemma kstep_kwf a l a' : kwf a -> kroom a -> kstep a l a' -> kwf a'.
Proof.
  intros Hwf Hroom [[Hm|Hl]|Hg]; [by eapply micro_kwf|by eapply lossy_kwf|].
  destruct Hg. apply insert_room_kwf; eauto.
Qed.

(** ** Counting steps *)
Lemma insert_kbounded n m (caps : gmap ProcessId CapabilitySpace) pid cs' :
  (forall p cs, caps !! p = Some cs -> next_slot cs <= 8 * n) -> n <= m -> next_slot cs' <= 8 * m ->
  forall p cs, <[pid := cs']> caps !! p = Some cs -> next_slot cs <= 8 * m.
Proof.
  intros Hb Hn Hs p cs. rewrite lookup_insert_Some. intros [[_ <-]|[_ Hp]]; [done|].
  specialize (Hb _ _ Hp). lia.
Qed.

Lemma micro_kbounded n a l a' :
  kwf a -> n <= max_steps -> kbounded n a -> micro a l a' -> kbounded (n + 1) a'.
Proof.
  intros Hwf Hn Hb Hm. pose proof (kbounded_room _ _ Hn Hb) as Hroom.
  pose proof Hb as [B1 B2 B3 B4]. pose proof (kw_counters _ Hwf) as (P1 & P2 & P3).
  assert (kbounded (n + 1) a) as Hb' by (eapply kbounded_mono; [|done]; lia).
  destruct Hb' as [B1' B2' B3' B4'].
  pose proof (kr_pid _ Hroom). pose proof (kr_eid _ Hroom). pose proof (kr_cap _ Hroom).
  destruct Hm as
    [pid parent name npid Hf Hs|pid code Hp|owner cs Ho Hcs| |pid cs cap Hcs Hid Hj|f t fs ts perms
    |pid cs slot Hcs Hsl|eid o q m from He Hm|pid cs eid o q sl ts caps cms cs' m Hcs He Ht Hmc Hlen
    |eid o m q He|pid cs eid o m q ts sls cms cs' Hcs He Hi]; split; simpl; try done.
  - destruct Hs as [[-> ->]|[Hp ->]]; [rewrite u64_add_small; lia|].
    destruct (Z.leb_spec (ka_npid a) pid); [rewrite u64_add_small|]; lia.
  - apply (insert_kbounded n); [done|lia|simpl; lia].
  - rewrite u64_add_small; lia.
  - rewrite u64_add_small; lia.
  - apply (insert_kbounded n); [done|lia|].
    pose proof (kw_slots _ Hwf _ _ Hcs) as [? _]. specialize (B4 _ _ Hcs).
    unfold max_steps in Hn. simpl. rewrite u32_add_small; lia.
  - rewrite u64_add_small; lia.
  - rewrite u64_add_small; lia.
  - apply (insert_kbounded n); [done|lia|].
    pose proof (kw_slots _ Hwf _ _ Hcs) as [? _]. specialize (B4 _ _ Hcs).
    unfold max_steps in Hn. simpl. rewrite u32_add_small; lia.
  - apply (insert_kbounded n); [done|lia|]. specialize (B4 _ _ Hcs). simpl. lia.
  - apply (insert_kbounded n); [done|lia|]. apply transfer_loop_spec in Ht as (-> & _).
    specialize (B4 _ _ Hcs). lia.
  - apply (insert_kbounded n); [done|lia|].
    pose proof (kw_msgs _ Hwf _ _ _ m He ltac:(by left)) as Hlen.
    pose proof (kw_slots _ Hwf _ _ Hcs) as Hcswf. specialize (B4 _ _ Hcs).
    unfold max_steps, MAX_CAPS_PER_MESSAGE in *.
    apply install_loop_spec in Hi as (_ & ->); [lia|done|lia].
Qed.

Lemma lossy_kbounded n a l a' :
  kwf a -> n <= max_steps -> kbounded n a -> lossy a l a' -> kbounded (n + 1) a'.
Proof.
  intros Hwf Hn Hb Hl. pose proof (kbounded_room _ _ Hn Hb) as Hroom.
  pose proof Hb as [B1 B2 B3 B4]. pose proof (kw_counters _ Hwf) as (P1 & P2 & P3).
  assert (kbounded (n + 1) a) as Hb' by (eapply kbounded_mono; [|done]; lia).
  pose proof (kr_eid _ Hroom). pose proof (kr_cap _ Hroom).
  destruct Hl as [pid pre Hpre Hp|owner cs cs1 Ho Hcs Hcs1|pid code Hp]; [| |done].
  - destruct Hb' as [B1' B2' B3' B4']. split; simpl; try done.
    intros p cs [_ Hcs]%lookup_delete_Some. eauto.
  - pose proof (kw_slots _ Hwf _ _ Hcs) as [Hs0 _]. pose proof (B4 _ _ Hcs) as Hs1.
    unfold max_steps in Hn. split; simpl; rewrite ?u64_add_small by (rewrite ?u64_add_small; lia); try lia.
    apply next_slot_insert in Hcs1 as Hcs1'; [|lia].
    assert (0 <= next_slot cs1 <= 8 * n + 1) as Hcs1b.
    { destruct Hcs1' as [->|Hc]; [lia|]. pose proof (B4 _ _ Hc).
      pose proof (kw_slots _ Hwf _ _ Hc) as [? _]. lia. }
    apply (insert_kbounded (n + 1)); [|lia|simpl; rewrite u32_add_small; lia].
    apply (insert_kbounded n); [done|lia|simpl; rewrite u32_add_small; lia].
Qed.

Lemma kstep_kbounded n a l a' :
  kwf a -> n <= max_steps -> kbounded n a -> kstep a l a' -> kbounded (n + 1) a'.
Proof.
  intros Hwf Hn Hb [[Hm|Hl]|Hg]; [by eapply micro_kbounded|by eapply lossy_kbounded|].
  pose proof (kbounded_room _ _ Hn Hb) as Hroom. pose proof (kr_cap _ Hroom).
  pose proof (kw_counters _ Hwf) as (P1 & P2 & P3).
  destruct Hg as [pid cs cap Hcs Hid Ho], Hb as [B1 B2 B3 B4]. split; simpl; try lia.
  - rewrite u64_add_small; lia.
  - apply (insert_kbounded n); [done|lia|].
    pose proof (kw_slots _ Hwf _ _ Hcs) as [? _]. specialize (B4 _ _ Hcs).
    unfold max_steps in Hn. simpl. rewrite u32_add_small; lia.
Qed.

(** Along a trace. *)
Lemma trace_kwf a ls a' n :
  trace kstep a ls a' -> kwf a -> kbounded n a -> n + len ls <= max_steps + 1 ->
  kwf a' /\ kbounded (n + len ls) a'.
Proof.
  intros Ht. revert n. induction Ht as [a|a l a1 ls a2 Hs Ht IH]; intros n Hwf Hb Hn; unfold len in *.
  - simpl. by rewrite Z.add_0_r.
  - simpl in Hn. assert (n <= max_steps) as Hn' by lia.
    pose proof (kbounded_room _ _ Hn' Hb) as Hroom.
    replace (n + Z.of_nat (length (l :: ls))) with (n + 1 + Z.of_nat (length ls)) by (simpl; lia).
    apply IH; [by eapply kstep_kwf|by eapply kstep_kbounded|lia].
Qed.

Lemma performs_kwf m a cts a' n :
  performs kstep m a cts a' -> kwf a -> kbounded n a -> n + Z.of_nat m <= max_steps + 1 ->
  kwf a' /\ kbounded (n + Z.of_nat m) a'.
Proof.
  intros (ls & Ht & _ & Hm) Hwf Hb Hn.
  destruct (trace_kwf _ _ _ n Ht Hwf Hb) as [Hwf' Hb']; [unfold len; lia|].
  split; [done|]. eapply kbounded_mono; [|done]. unfold len. lia.
Qed.
