(* ===== verification/KernelFun.v ===== *)
(** * Authority along the kernel's steps

    The steps of system calls never amplify authority: a capability held
    afterwards, in a slot or in a queued message, attenuates one held before
    or names an endpoint created in between. *)
From S2P Require Import Prelude AxiomTypes CommitLog Hal KernelState.
From S2P Require Import KernelIpc KernelSyscall KernelSpec KernelRefine.
From S2P Require Import KernelWf.

Lemma attenuates_refl c : attenuates c c.
Proof. by repeat split. Qed.

Lemma attenuates_trans c1 c2 c3 : attenuates c1 c2 -> attenuates c2 c3 -> attenuates c1 c3.
Proof.
  intros (A1 & A2 & A3 & A4 & A5) (B1 & B2 & B3 & B4 & B5).
  refine (conj _ (conj _ (conj _ (conj _ _)))); try congruence. by etrans.
Qed.

#[export] Instance attenuates_preorder : PreOrder attenuates.
Proof. split; [exact attenuates_refl|exact attenuates_trans]. Qed.

(** Authority that comes from [a]: attenuated from a capability held in [a],
    or over an endpoint not yet allocated in [a]. *)
Definition authorised (a : KA) (c : Capability) : Prop :=
  justified a c \/ (cap_object_type c = OT_Endpoint /\ ka_neid a <= cap_object_id c).

Lemma authorised_held a c : ka_held a c -> authorised a c.
Proof. intros Hc. left. exists c. split; [done|apply attenuates_refl]. Qed.

Lemma micro_authorised a l a' c :
  micro a l a' -> ka_held a' c -> authorised a c.
Proof.
  intros Hm Hc. destruct Hm as
    [pid parent name npid Hf Hs|pid code Hp|owner cs Ho Hcs| |pid cs cap Hcs Hid Hj|f t fs ts perms
    |pid cs slot Hcs Hsl|eid o q m from He Hm|pid cs eid o q sl ts caps cms cs' m Hcs He Ht Hmc Hlen
    |eid o m q He|pid cs eid o m q ts sls cms cs' Hcs He Hi].
  - apply authorised_held. by eapply held_new_proc.
  - by apply authorised_held.
  - apply held_bump, (held_insert owner cs) in Hc as [->|Hc%held_new_endpoint];
      [by right|by apply authorised_held|done].
  - by apply authorised_held.
  - apply held_bump, (held_insert pid cs) in Hc as [->|Hc]; [by left|by apply authorised_held|done].
  - by apply authorised_held.
  - apply authorised_held. apply held_set_cspace in Hc as [[s Hc]|Hc]; [|done].
    simpl in Hc. apply lookup_delete_Some in Hc as [_ Hc]. by eapply held_in_slot.
  - apply authorised_held. apply held_set_ep in Hc as [(m' & tc & Hq & Htc & <-)|Hc]; [|done].
    apply elem_of_app in Hq as [Hq|Hq%list_elem_of_singleton]; [by eapply held_in_msg|].
    subst m'. rewrite Hm in Htc. by apply elem_of_nil in Htc.
  - apply authorised_held. apply transfer_loop_spec in Ht as (_ & Hs & Hcaps).
    apply held_set_ep in Hc as [(m' & tc & Hq & Htc & <-)|[[s Hc]|Hc]%held_set_cspace]; [| |done].
    + apply elem_of_app in Hq as [Hq|Hq%list_elem_of_singleton]; [by eapply held_in_msg|].
      subst m'. rewrite Hmc in Htc. destruct (Hcaps _ Htc) as [s Hs']. by eapply held_in_slot.
    + apply Hs in Hc. by eapply held_in_slot.
  - apply authorised_held. apply held_set_ep in Hc as [(m' & tc & Hq & Htc & <-)|Hc]; [|done].
    eapply held_in_msg; [done|by right|done].
  - apply authorised_held. apply held_set_cspace in Hc as [[s Hc]|Hc].
    + eapply install_loop_caps in Hc as [Hc|(tc & Htc & <-)]; [by eapply held_in_slot| |exact Hi].
      eapply held_in_msg; [done|by left|done].
    + apply held_set_ep in Hc as [(m' & tc & Hq & Htc & <-)|Hc]; [|done].
      eapply held_in_msg; [done|by right|done].
Qed.

Lemma mstep_authorised a l a' c : mstep a l a' -> ka_held a' c -> authorised a c.
Proof.
  intros [Hm|Hl] Hc; [by eapply micro_authorised|].
  destruct Hl as [pid pre Hpre Hp|owner cs cs1 Ho Hcs Hcs1|pid code Hp].
  - apply authorised_held. by eapply held_kill.
  - apply held_bump, (held_insert 1 cs1) in Hc as [->|Hc]; [by right| |done].
    apply (micro_authorised a (create_commits owner cs a) (ka_create owner cs a)); [by constructor|done].
  - by apply authorised_held.
Qed.

(** Endpoint identifiers are never reused. *)
Lemma micro_neid a l a' : kwf a -> kroom a -> micro a l a' -> ka_neid a <= ka_neid a'.
Proof.
  intros Hwf Hroom Hm. pose proof (kw_counters _ Hwf). pose proof (kr_eid _ Hroom).
  destruct Hm; simpl; try lia. rewrite u64_add_small; lia.
Qed.

Lemma mstep_neid a l a' : kwf a -> kroom a -> mstep a l a' -> ka_neid a <= ka_neid a'.
Proof.
  intros Hwf Hroom [Hm|Hl]; [by eapply micro_neid|]. pose proof (kw_counters _ Hwf).
  pose proof (kr_eid _ Hroom). destruct Hl; simpl; try lia. rewrite u64_add_small; lia.
Qed.

Lemma authorised_trans a a' c :
  (forall c', ka_held a' c' -> authorised a c') -> ka_neid a <= ka_neid a' ->
  authorised a' c -> authorised a c.
Proof.
  intros Hh Hn [(c0 & Hc0 & Hat)|[Ht Hle]]; [|right; split; [done|lia]].
  pose proof Hat as (A1 & A2 & _). destruct (Hh c0 Hc0) as [(c1 & Hc1 & Hat1)|[Ht Hle]].
  - left. exists c1. split; [done|]. by eapply attenuates_trans.
  - right. rewrite A1, A2. done.
Qed.

Lemma trace_authorised a ls a' c n :
  trace mstep a ls a' -> kwf a -> kbounded n a -> n + len ls <= max_steps + 1 ->
  ka_held a' c -> authorised a c.
Proof.
  intros Ht. revert n. induction Ht as [a|a l a1 ls a2 Hs Ht IH]; intros n Hwf Hb Hn Hc.
  - by apply authorised_held.
  - unfold len in *. simpl in Hn. assert (n <= max_steps) as Hn' by lia.
    pose proof (kbounded_room _ _ Hn' Hb) as Hroom.
    assert (authorised a1 c) as Ha1.
    { apply (IH (n + 1)); try done; [by eapply kstep_kwf; [| |apply mstep_kstep]
        |by eapply kstep_kbounded; [| | |apply mstep_kstep]|lia]. }
    apply (authorised_trans a a1); [|by eapply mstep_neid|done].
    intros c' Hc'. by eapply mstep_authorised.
Qed.

Lemma performs_authorised m a cts a' c n :
  performs mstep m a cts a' -> kwf a -> kbounded n a -> n + Z.of_nat m <= max_steps + 1 ->
  ka_held a' c -> authorised a c.
Proof.
  intros (ls & Ht & _ & Hm) Hwf Hb Hn. eapply (trace_authorised _ _ _ _ n); try done. unfold len. lia.
Qed.

(** * Functional behaviour of message transfer and kill

    Exact results of the loops that move capabilities, and of the operations
    built on them. *)

(** [cl] are the capabilities in the slots [sl]. *)
Definition caps_at (cs : CapabilitySpace) (sl : list CapSlot) (cl : list Capability) : Prop :=
  Forall2 (fun s c => slots cs !! s = Some c) sl cl.

Lemma caps_at_delete cs s sl cl :
  s ∉ sl -> caps_at cs sl cl -> caps_at (mk_CapabilitySpace (delete s (slots cs)) (next_slot cs)) sl cl.
Proof.
  intros Hs Hc. induction Hc as [|s' c sl cl Hc Hcs IH]; constructor.
  - simpl. rewrite lookup_delete_ne; [done|]. intros ->. apply Hs. by left.
  - apply IH. intros Hx. apply Hs. by right.
Qed.

Lemma transfer_loop_exact pid sl ts cs cl :
  NoDup sl -> caps_at cs sl cl ->
  exists cs', transfer_loop pid sl ts cs =
    ((fun c => mk_TransferredCap c None) <$> cl, (fun s => new_commit ts (CapRemoved pid s)) <$> sl, cs') /\
    next_slot cs' = next_slot cs /\
    forall i, slots cs' !! i = if bool_decide (i ∈ sl) then None else slots cs !! i.
Proof.
  intros Hnd Hc. revert cs cl Hc. induction Hnd as [|s sl Hs Hnd IH]; intros cs cl Hc.
  - inversion Hc; subst. by exists cs.
  - inversion Hc as [|? c ? cl' Hsc Hrest]; subst. simpl. rewrite Hsc.
    destruct (IH _ _ (caps_at_delete _ _ _ _ Hs Hrest)) as (cs' & E & Hn & Hl).
    simpl in *. rewrite E. exists cs'. split_and!; [done|done|]. intros i. rewrite Hl.
    destruct (decide (i = s)) as [->|Hne].
    + rewrite lookup_delete_eq. rewrite (bool_decide_eq_true_2 (s ∈ s :: sl)) by (by left).
      by case_bool_decide.
    + rewrite lookup_delete_ne by done. destruct (decide (i ∈ sl)).
      * rewrite !bool_decide_eq_true_2; [done|by right|done].
      * rewrite !bool_decide_eq_false_2; [done| |done].
        intros [?|?]%elem_of_cons; done.
Qed.

Lemma install_loop_exact pid caps ts cs :
  cs_wf cs -> next_slot cs + len caps < 2 ^ 32 ->
  exists sls cms cs', install_loop pid caps ts cs = (sls, cms, cs') /\
    sls = seqZ (next_slot cs) (len caps) /\
    Forall2 (fun i tc => slots cs' !! i = Some (tc_capability tc)) sls caps /\
    forall i, i < next_slot cs -> slots cs' !! i = slots cs !! i.
Proof.
  revert cs. induction caps as [|tc caps IH]; intros cs Hwf Hn; unfold len in *; simpl length in *.
  - by exists [], [], cs.
  - destruct (ax_cs_insert_wf cs (tc_capability tc) Hwf ltac:(lia)) as (Hwf1 & _ & Hn1).
    destruct (IH _ Hwf1 ltac:(lia)) as (sls & cms & cs' & E & Hs & Hf & Hi).
    exists (next_slot cs :: sls).
    eexists (new_commit ts (cap_inserted pid (next_slot cs) (tc_capability tc)) :: cms), cs'.
    rewrite Hn1 in Hs, Hi. split_and!.
    + simpl in *. by rewrite E.
    + rewrite Hs, (seqZ_cons (next_slot cs)) by lia. do 2 f_equal; lia.
    + constructor; [|done]. rewrite Hi by lia. simpl. by rewrite lookup_insert_eq.
    + intros i Hlt. rewrite Hi by lia. simpl. rewrite lookup_insert_ne; [done|lia].
Qed.

Section fun_.
Context {H : Type} `{HAL H}.
Implicit Types k : KernelCore H.

Lemma cap_spaces_update_send_metrics from eid n ts k :
  cap_spaces (update_send_metrics from eid n ts k) = cap_spaces k.
Proof. done. Qed.

(** What sending with capabilities does when every check passes. *)
Lemma send_with_caps_exact p slot tag data sl ts k cs cl eid e :
  validate_message_limits (len data) (len sl) = Ok tt ->
  validate_send_cap_basic k p slot = Ok eid -> endpoints k !! eid = Some e ->
  cap_spaces k !! p = Some cs -> NoDup sl -> caps_at cs sl cl ->
  exists k' cs' e', ipc_send_with_caps p slot tag data sl ts k =
      ((Ok tt, (fun s => new_commit ts (CapRemoved p s)) <$> sl), k') /\
    cap_spaces k' = <[p := cs']> (cap_spaces k) /\
    (forall i, slots cs' !! i = if bool_decide (i ∈ sl) then None else slots cs !! i) /\
    endpoints k' !! eid = Some e' /\ ep_owner e' = ep_owner e /\
    ep_pending_messages e' = ep_pending_messages e ++
      [mk_Message p tag data ((fun c => mk_TransferredCap c None) <$> cl)].
Proof.
  intros Hlim Hval He Hcs Hnd Hc. unfold ipc_send_with_caps. rewrite Hlim, Hval.
  unfold contains_key. rewrite He. simpl negb. cbv iota. unfold validate_caps_exist. rewrite Hcs.
  assert (forallb (fun slot => match cs_get cs slot with Some _ => true | None => false end) sl = true) as ->.
  { apply forallb_forall. intros s Hs%list_elem_of_In. apply list_elem_of_lookup in Hs as [i Hi].
    destruct (Forall2_lookup_l _ _ _ _ _ Hc Hi) as (c & _ & Hs). unfold cs_get. by rewrite Hs. }
  unfold remove_and_transfer_caps. rewrite Hcs.
  destruct (transfer_loop_exact p sl ts cs cl Hnd Hc) as (cs' & E & Hn & Hl). rewrite E.
  unfold queue_message. simpl endpoints. rewrite He.
  eexists _, cs', _. split; [reflexivity|]. rewrite cap_spaces_update_send_metrics.
  split_and!; [done|done|simpl; unfold btree_update; by rewrite lookup_alter_eq, lookup_insert_eq|done|done].
Qed.

(** What receiving does when a message is pending. *)
Lemma receive_exact p slot ts k eid e m q :
  validate_receive_cap k p slot ts = Ok eid -> endpoints k !! eid = Some e ->
  ep_pending_messages e = m :: q ->
  exists k' e', ipc_receive p slot ts k = (Ok (Some m), k') /\ cap_spaces k' = cap_spaces k /\
    endpoints k' !! eid = Some e' /\ ep_pending_messages e' = q.
Proof.
  intros Hval He Hq. unfold ipc_receive. rewrite Hval, He, Hq.
  eexists _, _. split; [reflexivity|]. split_and!; [done|simpl; by rewrite lookup_insert_eq|done].
Qed.

Lemma receive_with_caps_exact p slot ts k cs eid e m q :
  validate_receive_cap k p slot ts = Ok eid -> endpoints k !! eid = Some e ->
  ep_pending_messages e = m :: q -> cap_spaces k !! p = Some cs -> cs_wf cs ->
  next_slot cs + len (msg_transferred_caps m) < 2 ^ 32 ->
  exists sls cms cs' k' e', ipc_receive_with_caps p slot ts k = ((Ok (Some (m, sls)), cms), k') /\
    sls = seqZ (next_slot cs) (len (msg_transferred_caps m)) /\
    cap_spaces k' = <[p := cs']> (cap_spaces k) /\
    Forall2 (fun i tc => slots cs' !! i = Some (tc_capability tc)) sls (msg_transferred_caps m) /\
    (forall i, i < next_slot cs -> slots cs' !! i = slots cs !! i) /\
    endpoints k' !! eid = Some e' /\ ep_pending_messages e' = q.
Proof.
  intros Hval He Hq Hcs Hwf Hn. unfold ipc_receive_with_caps.
  destruct (receive_exact _ _ _ _ _ _ _ _ Hval He Hq) as (k1 & e1 & -> & Hc1 & He1 & Hq1).
  destruct (install_loop_exact p (msg_transferred_caps m) ts cs Hwf Hn)
    as (sls & cms & cs' & E & Hs & Hf & Hi).
  rewrite <- Hc1 in Hcs. rewrite <- Hc1.
  destruct (msg_transferred_caps m) as [|tc caps] eqn:Ecaps.
  - injection E as <- <- <-. exists [], [], cs, k1, e1. split; [reflexivity|].
    split_and!; try done. by rewrite insert_id.
  - unfold install_transferred_caps. rewrite Hcs, E.
    eexists sls, cms, cs', _, e1. split; [reflexivity|]. by split_and!.
Qed.

(** Deleting a capability that exists. *)
Lemma delete_exact pid slot ts k cs c :
  cap_spaces k !! pid = Some cs -> slots cs !! slot = Some c ->
  exists k', delete_capability pid slot ts k = ((Ok tt, [create_cap_removed_commit pid slot ts]), k') /\
    cap_spaces k' = <[pid := (cs_remove slot cs).2]> (cap_spaces k).
Proof.
  intros Hcs Hc. unfold delete_capability, remove_cap, cs_get. rewrite Hcs, Hc.
  by eexists.
Qed.

(** The permission a process needs to kill another one. *)
Definition may_kill k (caller target : ProcessId) : Prop :=
  caller = 1 \/ exists cs slot c, cap_spaces k !! caller = Some cs /\ slots cs !! slot = Some c /\
    cap_object_type c = OT_Process /\ cap_object_id c = target /\ write (cap_permissions c) = true.

Lemma has_kill_permission_true k caller target :
  has_kill_permission k caller target = true <->
  exists cs slot c, cap_spaces k !! caller = Some cs /\ slots cs !! slot = Some c /\
    cap_object_type c = OT_Process /\ cap_object_id c = target /\ write (cap_permissions c) = true.
Proof.
  unfold has_kill_permission. destruct (cap_spaces k !! caller) as [cs|]; [|naive_solver].
  rewrite existsb_exists. split.
  - intros (c & Hc%list_elem_of_In & Hp). apply elem_of_btree_values in Hc as [slot Hc].
    zeq. exists cs, slot, c. split_and!; try done. by eapply bool_decide_eq_true_1.
  - intros (cs' & slot & c & [= <-] & Hc & Ht & Hid & Hw). exists c. split.
    + apply list_elem_of_In, elem_of_btree_values. by exists slot.
    + rewrite bool_decide_eq_true_2 by done. rewrite (proj2 (Z.eqb_eq _ _) Hid), Hw. done.
Qed.
End fun_.
