(* ===== verification/SystemRun.v ===== *)
(** * Runs of the whole system

    A run is a sequence of calls of the methods of [System], by the supervisor
    and by processes. Every call makes a bounded number of steps of the
    labelled transition system of [KernelSpec] and appends to the commit log
    exactly the labels of these steps. *)
From S2P Require Import Prelude AxiomTypes CommitLog Gateway.
From S2P Require Import Hal KernelState KernelIpc KernelSyscall.
From S2P Require Import System KernelReplay KernelSpec.
From S2P Require Import KernelRefine SystemRefine KernelWf.

Inductive sevent : Type :=
| S_register (name : string)
| S_register_pid (pid : ProcessId) (name : string)
| S_kill (pid : ProcessId)
| S_fault (pid : ProcessId) (reason : Z) (description : string)
| S_create_endpoint (owner : ProcessId)
| S_grant (from_pid : ProcessId) (from_slot : CapSlot) (to_pid : ProcessId) (perms : Permissions)
| S_grant_to_endpoint (owner : ProcessId) (eid : EndpointId) (to_pid : ProcessId) (perms : Permissions)
| S_revoke (pid : ProcessId) (slot : CapSlot)
| S_delete (pid : ProcessId) (slot : CapSlot)
| S_delete_notify (pid : ProcessId) (slot : CapSlot) (reason : Z)
| S_derive (pid : ProcessId) (slot : CapSlot) (perms : Permissions)
| S_inject (tag : Z) (data : list byte)
| S_send (pid : ProcessId) (slot : CapSlot) (tag : Z) (data : list byte)
| S_send_caps (pid : ProcessId) (slot : CapSlot) (tag : Z) (data : list byte) (cap_slots : list CapSlot)
| S_receive (pid : ProcessId) (slot : CapSlot)
| S_receive_caps (pid : ProcessId) (slot : CapSlot)
| S_handle (pid : ProcessId) (sc : Syscall)
| S_syscall (sender : ProcessId) (num : Z) (args : args4) (data : list byte)
| S_allocate (pid : ProcessId) (bytes : Z)
| S_free (pid : ProcessId) (bytes : Z)
| S_resize (pid : ProcessId) (size : Z).

Section run.
Context {H : Type} `{HAL H} `{Target}.
Implicit Types s r : System H.

(** [None] stands for a panic. *)
Definition sys_exec (s : System H) (ev : sevent) : option (System H) :=
  match ev with
  | S_register name => Some (sys_register_process name s).2
  | S_register_pid pid name => Some (sys_register_process_with_pid pid name s).2
  | S_kill pid => Some (sys_kill_process pid s)
  | S_fault pid reason d => Some (sys_fault_process pid reason d s)
  | S_create_endpoint owner => Some (sys_create_endpoint owner s).2
  | S_grant f fs t perms => Some (sys_grant_capability f fs t perms s).2
  | S_grant_to_endpoint o eid t perms => Some (sys_grant_capability_to_endpoint o eid t perms s).2
  | S_revoke pid slot => Some (sys_revoke_capability pid slot s).2
  | S_delete pid slot => Some (sys_delete_capability pid slot s).2
  | S_delete_notify pid slot reason => Some (delete_capability_with_notification pid slot reason s).2
  | S_derive pid slot perms => Some (sys_derive_capability pid slot perms s).2
  | S_inject tag data => Some (inject_to_init tag data s).2
  | S_send pid slot tag data => Some (sys_ipc_send pid slot tag data s).2
  | S_send_caps pid slot tag data cs => Some (sys_ipc_send_with_caps pid slot tag data cs s).2
  | S_receive pid slot => Some (sys_ipc_receive pid slot s).2
  | S_receive_caps pid slot => Some (sys_ipc_receive_with_caps pid slot s).2
  | S_handle pid sc => Some (sys_handle_syscall pid sc s).2
  | S_syscall sender num args data => snd <$> process_syscall sender num args data s
  | S_allocate pid bytes => Some (sys_allocate_memory pid bytes s).2
  | S_free pid bytes => Some (sys_free_memory pid bytes s).2
  | S_resize pid size => Some (sys_update_process_memory pid size s)
  end.

Fixpoint sys_run (s : System H) (evs : list sevent) : option (System H) :=
  match evs with
  | [] => Some s
  | ev :: rest => s1 ← sys_exec s ev; sys_run s1 rest
  end.

Lemma sys_run_app s evs1 evs2 : sys_run s (evs1 ++ evs2) = s1 ← sys_run s evs1; sys_run s1 evs2.
Proof.
  revert s. induction evs1 as [|ev evs1 IH]; intros s; [done|]. simpl.
  destruct (sys_exec s ev); simpl; [apply IH|done].
Qed.

(** The supervisor picks process identifiers below 2^63. *)
Definition event_ok (ev : sevent) : Prop :=
  match ev with S_register_pid pid _ => 0 <= pid < 2 ^ 63 | _ => True end.

(** Calls whose commits may not carry the whole change. *)
Definition event_lossy (s : System H) (ev : sevent) : bool :=
  match ev with
  | S_kill _ | S_fault _ _ _ => true
  | S_handle pid sc => loses_information (kernel s) pid sc
  | S_syscall _ num _ _ => lossy_syscall num
  | _ => false
  end.

(** Grants the supervisor makes in the name of an endpoint's owner. *)
Definition event_grants (ev : sevent) : bool :=
  match ev with S_grant_to_endpoint _ _ _ _ => true | _ => false end.

Definition event_step (s : System H) (ev : sevent) : KA -> list CommitType -> KA -> Prop :=
  if event_lossy s ev then mstep else if event_grants ev then rstep else micro.

(** ** The effect of a call *)
Record effect (R : KA -> list CommitType -> KA -> Prop) (n : nat) (s s' : System H)
    (es : list entry) : Prop := mk_effect {
  eff_steps : performs R n (kabs (kernel s)) es.*1.*1 (kabs (kernel s'));
  eff_log : commitlog (axiom s') = appends es (commitlog (axiom s)) }.

Definition stamped (ts : Z) (cts : list CommitType) : list entry := (fun ct => (ct, None, ts)) <$> cts.

Lemma stamped_types ts cts : (stamped ts cts).*1.*1 = cts.
Proof. unfold stamped. rewrite <- !list_fmap_compose. by apply list_fmap_id. Qed.

Lemma appends_app es1 es2 l : appends (es1 ++ es2) l = appends es2 (appends es1 l).
Proof. apply foldl_app. Qed.

Lemma append_commit_types_kernel cts ts s : kernel (append_commit_types cts ts s) = kernel s.
Proof. done. Qed.

Lemma append_commit_types_log cts ts s :
  commitlog (axiom (append_commit_types cts ts s)) = appends (stamped ts cts) (commitlog (axiom s)) /\
  syslog (axiom (append_commit_types cts ts s)) = syslog (axiom s).
Proof.
  unfold append_commit_types, set_axiom. cbn [axiom]. generalize (axiom s) as g.
  induction cts as [|ct cts IH]; intros g; [done|]. cbn [foldl].
  destruct (IH (append_internal_commit ct ts g).2) as [E1 E2]. rewrite E1, E2. done.
Qed.

Lemma uptime_kabs s t s1 :
  uptime_nanos s = (t, s1) -> kabs (kernel s1) = kabs (kernel s) /\ axiom s1 = axiom s.
Proof.
  unfold uptime_nanos. destruct (with_hal now_nanos (kernel s)) as [now k] eqn:E.
  intros [= _ <-]. by apply with_hal_abs in E.
Qed.

Lemma uptime_maps s t s1 :
  uptime_nanos s = (t, s1) -> processes (kernel s1) = processes (kernel s) /\
  cap_spaces (kernel s1) = cap_spaces (kernel s) /\ endpoints (kernel s1) = endpoints (kernel s).
Proof.
  unfold uptime_nanos, with_hal. destruct (now_nanos (hal (kernel s))). by intros [= _ <-].
Qed.

Lemma effect_quiet R n s s' :
  kabs (kernel s') = kabs (kernel s) -> axiom s' = axiom s -> effect R n s s' [].
Proof. intros Hk Ha. split; simpl; [rewrite Hk; apply performs_nil|by rewrite Ha]. Qed.

Lemma recorded_exact {T} (op : Z -> KernelCore H -> (T * list Commit) * KernelCore H) s t s1 x cms k' :
  uptime_nanos s = (t, s1) -> op t (kernel s1) = ((x, cms), k') ->
  kernel (recorded op s).2 = k' /\
  commitlog (axiom (recorded op s).2) = appends (stamped t (commit_types cms)) (commitlog (axiom s)).
Proof.
  intros Eu E. destruct (uptime_kabs _ _ _ Eu) as [_ Ha]. unfold recorded. rewrite Eu, E.
  unfold record_commits. cbn [snd]. split; [by rewrite append_commit_types_kernel|].
  rewrite (proj1 (append_commit_types_log _ _ _)). cbn [set_kernel axiom]. by rewrite Ha.
Qed.

Lemma recorded_effect {T} R n (op : Z -> KernelCore H -> (T * list Commit) * KernelCore H) s :
  (forall t k x cms k', op t k = ((x, cms), k') -> kabs k = kabs (kernel s) ->
     performs R n (kabs k) (commit_types cms) (kabs k')) ->
  exists es, effect R n s (recorded op s).2 es.
Proof.
  intros Hop. destruct (uptime_nanos s) as [t s1] eqn:Eu.
  destruct (uptime_kabs _ _ _ Eu) as [Hk Ha].
  destruct (op t (kernel s1)) as [[x cms] k'] eqn:E. specialize (Hop _ _ _ _ _ E Hk).
  destruct (recorded_exact op s t s1 x cms k' Eu E) as [E1 E2].
  exists (stamped t (commit_types cms)). split; [|done].
  by rewrite stamped_types, E1, <- Hk.
Qed.

(** ** Every call has the effect of its class *)
Lemma inject_effect tag data s : exists es, effect micro 1 s (inject_to_init tag data s).2 es.
Proof.
  unfold inject_to_init. destruct (uptime_nanos s) as [t s1] eqn:Eu.
  destruct (uptime_kabs _ _ _ Eu) as [Hk Ha].
  destruct (List.find _ _) as [e|]; [|by exists []; apply effect_quiet].
  destruct (endpoints (kernel s1) !! ei_id e) as [ep|] eqn:He; [|by exists []; apply effect_quiet].
  exists (stamped t [MessageSent 0 (ei_id e) tag (len data)]). split.
  - rewrite stamped_types. cbn [snd]. rewrite append_commit_types_kernel. cbn [set_kernel kernel].
    rewrite kabs_set_endpoint, Hk. apply kabs_eps_lookup in He. rewrite Hk in He.
    apply performs_one. by apply (M_push (kabs (kernel s)) _ _ _ (mk_Message 0 tag data []) 0).
  - cbn [snd]. rewrite (proj1 (append_commit_types_log _ _ _)). cbn [set_kernel axiom]. by rewrite Ha.
Qed.

Lemma receive_effect pid slot s : exists es, effect micro 1 s (sys_ipc_receive pid slot s).2 es.
Proof.
  unfold sys_ipc_receive. destruct (uptime_nanos s) as [t s1] eqn:Eu.
  destruct (uptime_kabs _ _ _ Eu) as [Hk Ha].
  destruct (ipc_receive pid slot t (kernel s1)) as [r k] eqn:E. apply ipc_receive_performs in E.
  exists []. split; simpl; [by rewrite <- Hk|by rewrite Ha].
Qed.

Lemma memory_quiet pid size p s :
  processes (kernel s) !! pid = Some p ->
  kabs (set_processes (<[pid := set_memory_size size p]> (processes (kernel s))) (kernel s)) =
  kabs (kernel s).
Proof.
  intros Hp. unfold kabs. simpl. f_equal. rewrite fmap_insert. apply insert_id.
  by rewrite lookup_fmap, Hp.
Qed.

Lemma set_kernel_effect R n s k : kabs k = kabs (kernel s) -> exists es, effect R n s (set_kernel k s) es.
Proof. intros Hk. exists []. by apply effect_quiet. Qed.

(** The phases of a numeric syscall that does not panic. *)
Lemma process_syscall_exact sender num args data s t s1 res cts d k rich md more k2 :
  uptime_nanos s = (t, s1) ->
  execute_syscall_kernel_fn num sender args data t (kernel s1) = Some ((res, cts, d), k) ->
  get_syscall_rich_result sender num args res t k = ((rich, md, more), k2) ->
  exists s', process_syscall sender num args data s =
      Some ((res, rich, match d with _ :: _ => d | [] => md end), s') /\
    kernel s' = k2 /\
    commitlog (axiom s') = appends (stamped t (cts ++ more)) (commitlog (axiom s)) /\
    syslog (axiom s') =
      log_response sender (log_request sender num args t (syslog (axiom s))).1 res t
        (log_request sender num args t (syslog (axiom s))).2.
Proof.
  intros Eu Ek Er. destruct (uptime_kabs _ _ _ Eu) as [_ Ha]. unfold process_syscall. rewrite Eu, Ha.
  destruct (log_request _ _ _ _ _) as [rid sl]. cbn [set_syslog set_axiom kernel].
  rewrite Ek. rewrite append_commit_types_kernel. cbn [set_kernel kernel]. rewrite Er.
  eexists. split; [reflexivity|]. refine (conj _ (conj _ _)); [done| |].
  - transitivity (commitlog (axiom (append_commit_types more t (set_kernel k2
      (append_commit_types cts t (set_kernel k (set_syslog sl s1))))))); [reflexivity|].
    rewrite (proj1 (append_commit_types_log _ _ _)). cbn [set_kernel axiom].
    rewrite (proj1 (append_commit_types_log _ _ _)). unfold stamped. rewrite fmap_app, appends_app.
    simpl. by rewrite Ha.
  - transitivity (log_response sender rid res t
      (syslog (axiom (append_commit_types more t (set_kernel k2
        (append_commit_types cts t (set_kernel k (set_syslog sl s1)))))))); [reflexivity|].
    rewrite (proj2 (append_commit_types_log _ _ _)). cbn [set_kernel axiom].
    by rewrite (proj2 (append_commit_types_log _ _ _)).
Qed.

Lemma process_syscall_cases sender num args data s out s' :
  kcons (kabs (kernel s)) -> process_syscall sender num args data s = Some (out, s') ->
  exists ts cts,
    performs (syscall_step num) 4 (kabs (kernel s)) cts (kabs (kernel s')) /\
    commitlog (axiom s') = appends (stamped ts cts) (commitlog (axiom s)) /\
    syslog (axiom s') =
      log_response sender (log_request sender num args ts (syslog (axiom s))).1 out.1.1 ts
        (log_request sender num args ts (syslog (axiom s))).2.
Proof.
  intros Hc E. destruct (uptime_nanos s) as [t s1] eqn:Eu.
  destruct (uptime_kabs _ _ _ Eu) as [Hk _].
  destruct (execute_syscall_kernel_fn num sender args data t (kernel s1)) as [[[[res cts] d] k]|] eqn:Ek.
  2:{ unfold process_syscall in E. rewrite Eu in E. destruct (log_request _ _ _ _ _) as [rid sl].
      cbn [set_syslog set_axiom kernel] in E. by rewrite Ek in E. }
  pose proof (rich_result_performs sender num args res t k) as Hr.
  destruct (get_syscall_rich_result sender num args res t k) as [[[rich md] more] k2] eqn:Er.
  destruct (process_syscall_exact _ _ _ _ _ _ _ _ _ _ _ _ _ _ _ Eu Ek Er) as (s2 & E2 & Hk2 & Hl & Hs).
  rewrite E2 in E. injection E as <- <-. exists t, (cts ++ more). split_and!; [|done|done].
  apply kernel_fn_performs in Ek; [|by rewrite Hk]. cbn [fst snd] in Ek, Hr. rewrite Hk2, <- Hk.
  eapply (performs_app _ 3 1); [exact Ek|]. by apply (lift_syscall _ 1).
Qed.

Lemma effect_mono (R S : KA -> list CommitType -> KA -> Prop) n m s s' es :
  (forall x l y, R x l y -> S x l y) -> (n <= m)%nat -> effect R n s s' es -> effect S m s s' es.
Proof.
  intros HRS Hn [Hp Hl]. split; [|done]. eapply performs_weaken; [exact Hn|]. by eapply performs_mono.
Qed.

Lemma recorded_micro {T} n (op : Z -> KernelCore H -> (T * list Commit) * KernelCore H) s :
  (n <= 4)%nat ->
  (forall t k x cms k', op t k = ((x, cms), k') -> kabs k = kabs (kernel s) ->
     performs micro n (kabs k) (commit_types cms) (kabs k')) ->
  exists es, effect micro 4 s (recorded op s).2 es.
Proof.
  intros Hn Hop. destruct (recorded_effect micro n op s Hop) as [es He]. exists es.
  by eapply effect_mono; [|exact Hn|exact He].
Qed.

Lemma delete_notify_state pid slot reason s :
  (delete_capability_with_notification pid slot reason s).2 = (sys_delete_capability pid slot s).2.
Proof.
  unfold delete_capability_with_notification.
  destruct (sys_delete_capability pid slot s) as [[u|e] s']; [|done]. by repeat case_match.
Qed.

(** A wrapper whose kernel operation performs [micro] steps. *)
Tactic Notation "by_recorded" constr(n) uconstr(lem) :=
  intros [= <-]; apply (recorded_micro n); [lia|]; intros ? k x cms k' E Hk;
  first [by apply lem in E | apply lem in E; [done|by rewrite Hk]].

Lemma kill_effect pid s :
  kcons (kabs (kernel s)) -> exists es, effect mstep 4 s (sys_kill_process pid s) es.
Proof.
  intros Hc. unfold sys_kill_process. apply recorded_effect. intros t k x cms k' E Hk.
  destruct (kill_process pid t k) as [c k1] eqn:Ek. injection E as _ <- <-.
  apply kill_process_performs in Ek; [|by rewrite Hk]. eapply performs_weaken; [|exact Ek]. lia.
Qed.

Lemma fault_effect pid reason d s :
  kcons (kabs (kernel s)) -> exists es, effect mstep 4 s (sys_fault_process pid reason d s) es.
Proof.
  intros Hc. unfold sys_fault_process. apply recorded_effect. intros t k x cms k' E Hk.
  destruct (fault_process pid reason d t k) as [c k1] eqn:Ek. injection E as _ <- <-.
  apply fault_process_performs in Ek; [|by rewrite Hk]. eapply performs_weaken; [|exact Ek]. lia.
Qed.

Lemma handle_effect pid sc s :
  kcons (kabs (kernel s)) ->
  exists es, effect (if loses_information (kernel s) pid sc then mstep else micro) 4 s
    (sys_handle_syscall pid sc s).2 es.
Proof.
  intros Hc. unfold sys_handle_syscall. destruct (loses_information (kernel s) pid sc) eqn:El.
  - apply recorded_effect. intros t k x cms k' E Hk.
    apply handle_syscall_mstep in E; [|by rewrite Hk]. eapply performs_weaken; [|exact E]. lia.
  - apply (recorded_micro 2); [lia|]. intros t k x cms k' E Hk.
    eapply handle_syscall_micro; [by rewrite Hk| |exact E].
    rewrite <- El. destruct sc; try done. cbn [loses_information]. f_equal.
    apply eq_iff_eq_true. rewrite !contains_key_true, <- !kabs_procs_Some. by rewrite Hk.
Qed.

Lemma memory_effect pid bytes s :
  (exists es, effect micro 4 s (sys_allocate_memory pid bytes s).2 es) /\
  (exists es, effect micro 4 s (sys_free_memory pid bytes s).2 es) /\
  (exists es, effect micro 4 s (sys_update_process_memory pid bytes s) es).
Proof.
  unfold sys_allocate_memory, allocate_memory, sys_free_memory, free_memory. split_and!.
  - destruct (processes (kernel s) !! pid) as [p|] eqn:Hp; apply set_kernel_effect; [|done].
    cbn [snd]. rewrite kabs_debug. by apply memory_quiet.
  - destruct (processes (kernel s) !! pid) as [p|] eqn:Hp; apply set_kernel_effect; [|done].
    cbn [snd]. rewrite kabs_debug. by apply memory_quiet.
  - apply set_kernel_effect. by apply kabs_metrics.
Qed.

Lemma exec_effect s ev s' :
  kcons (kabs (kernel s)) -> event_ok ev -> sys_exec s ev = Some s' ->
  exists es, effect (event_step s ev) 4 s s' es.
Proof.
  intros Hc Hok. unfold event_step.
  destruct ev as [name|pid name|pid|pid reason d|owner|f fs t perms|o eid t perms|pid slot|pid slot
    |pid slot reason|pid slot perms|tag data|pid slot tag data|pid slot tag data cs|pid slot|pid slot
    |pid sc|sender num args data|pid bytes|pid bytes|pid size]; cbn [event_lossy event_grants sys_exec].
  - by_recorded 1%nat register_process_performs.
  - intros [= <-]. apply (recorded_micro 1); [lia|]. intros t k x cms k' E Hk.
    pose proof (register_with_pid_performs pid name t k Hok) as Hp. by rewrite E in Hp.
  - intros [= <-]. by apply kill_effect.
  - intros [= <-]. by apply fault_effect.
  - by_recorded 1%nat create_endpoint_performs.
  - by_recorded 2%nat grant_capability_performs.
  - intros [= <-]. apply recorded_effect. intros ? k x cms k' E Hk.
    apply grant_to_endpoint_performs in E. eapply performs_weaken; [|exact E]. lia.
  - by_recorded 1%nat revoke_capability_performs.
  - by_recorded 1%nat delete_capability_performs.
  - rewrite delete_notify_state. by_recorded 1%nat delete_capability_performs.
  - by_recorded 1%nat derive_capability_performs.
  - intros [= <-]. destruct (inject_effect tag data s) as [es He]. exists es.
    eapply effect_mono; [| |exact He]; [done|lia].
  - intros [= <-]. apply (recorded_micro 1); [lia|]. intros ? k x cms k' E Hk.
    destruct (ipc_send pid slot tag data t k) as [[r c] k1] eqn:Es. injection E as _ <- <-.
    by apply ipc_send_performs in Es.
  - by_recorded 1%nat ipc_send_with_caps_performs.
  - intros [= <-]. destruct (receive_effect pid slot s) as [es He]. exists es.
    eapply effect_mono; [| |exact He]; [done|lia].
  - by_recorded 1%nat ipc_receive_with_caps_performs.
  - intros [= <-]. by apply handle_effect.
  - intros ([out s1] & E & ->)%fmap_Some. apply process_syscall_cases in E as (ts & cts & Hp & Hl & _); [|done].
    exists (stamped ts cts). split; [|done]. by rewrite stamped_types.
  - intros [= <-]. by apply memory_effect.
  - intros [= <-]. by apply memory_effect.
  - intros [= <-]. by apply memory_effect.
Qed.

Lemma event_step_kstep s ev a l a' : event_step s ev a l a' -> kstep a l a'.
Proof.
  unfold event_step. destruct (event_lossy s ev); [apply mstep_kstep|].
  destruct (event_grants ev); [apply rstep_kstep|]. intros. by apply rstep_kstep, micro_rstep.
Qed.

(** A condition on every call of a run, in the state it is made in. *)
Fixpoint run_all (P : System H -> sevent -> bool) (s : System H) (evs : list sevent) : bool :=
  match evs with
  | [] => true
  | ev :: rest =>
      P s ev && match sys_exec s ev with Some s1 => run_all P s1 rest | None => true end
  end.

Lemma run_all_static (f : sevent -> bool) s evs :
  forallb f evs = true -> run_all (fun _ ev => f ev) s evs = true.
Proof.
  revert s. induction evs as [|ev evs IH]; intros s Hf; [done|]. simpl in *.
  apply andb_true_iff in Hf as [-> Hf]. destruct (sys_exec s ev); [by apply IH|done].
Qed.

(** Runs of calls within a class [R] of steps. *)
Lemma run_effect (P : System H -> sevent -> bool) (R : KA -> list CommitType -> KA -> Prop) :
  (forall s ev a l a', P s ev = true -> event_step s ev a l a' -> R a l a') ->
  forall evs s s' n, run_all P s evs = true -> Forall event_ok evs -> sys_run s evs = Some s' ->
  kwf (kabs (kernel s)) -> kbounded n (kabs (kernel s)) -> n + 4 * len evs <= max_steps + 1 ->
  kwf (kabs (kernel s')) /\ kbounded (n + 4 * len evs) (kabs (kernel s')) /\
  exists es, effect R (4 * length evs) s s' es.
Proof.
  intros HPR. induction evs as [|ev evs IH]; intros s s' n HP Hok Hrun Hwf Hb Hn.
  - injection Hrun as <-. unfold len. simpl. rewrite Z.add_0_r. split_and!; [done|done|].
    exists []. by apply effect_quiet.
  - unfold len in *. simpl length in *. simpl in Hrun, HP.
    apply bind_Some in Hrun as (s1 & E & Hrun). rewrite E in HP. apply andb_true_iff in HP as [HP HPs].
    inversion Hok as [|? ? Hok1 Hok2]; subst.
    destruct (exec_effect s ev s1 (kw_cons _ Hwf) Hok1 E) as [es1 He1].
    assert (effect kstep 4 s s1 es1) as Hk1.
    { eapply effect_mono; [|reflexivity|exact He1]. intros x l y. apply event_step_kstep. }
    destruct (performs_kwf 4 _ _ _ n (eff_steps _ _ _ _ _ Hk1) Hwf Hb) as [Hwf1 Hb1]; [lia|].
    destruct (IH s1 s' (n + 4) HPs Hok2 Hrun Hwf1) as (Hwf' & Hb' & es2 & He2); [done|lia|].
    split_and!; [done|by eapply kbounded_mono; [|exact Hb']; lia|].
    exists (es1 ++ es2). split.
    + rewrite !fmap_app. replace (4 * S (length evs))%nat with (4 + 4 * length evs)%nat by lia.
      eapply performs_app; [|exact (eff_steps _ _ _ _ _ He2)].
      eapply performs_mono; [|exact (eff_steps _ _ _ _ _ He1)]. eauto.
    + rewrite appends_app, (eff_log _ _ _ _ _ He2), (eff_log _ _ _ _ _ He1). done.
Qed.

(** ** The initial system *)
Lemma KernelCore_new_kwf (h : H) :
  kwf (kabs (KernelCore_new h)) /\ kbounded 0 (kabs (KernelCore_new h)).
Proof.
  assert (ka_procs (kabs (KernelCore_new h)) = ∅) as Hp by apply fmap_empty.
  assert (ka_eps (kabs (KernelCore_new h)) = ∅) as He by apply fmap_empty.
  assert (ka_caps (kabs (KernelCore_new h)) = ∅) as Hc by done.
  assert (forall c, ~ ka_held (kabs (KernelCore_new h)) c) as Hh.
  { intros c [(p & cs & sl & E & _)|(e & o & q & m & tc & E & _)];
      [by rewrite Hc, lookup_empty in E|by rewrite He, lookup_empty in E]. }
  assert (forall {V} (i : Z) (x : V), (∅ : gmap Z V) !! i <> Some x) as Hn
    by (intros ???; by rewrite lookup_empty).
  split; split; rewrite ?Hp, ?He, ?Hc; simpl; try lia.
  - split; rewrite ?Hp, ?He, ?Hc.
    + intros pid. split; intros [x E]; by apply Hn in E.
    + intros ??? E. by apply Hn in E.
    + intros ? [? E]. by apply Hn in E.
  - intros ? [? E]. by apply Hn in E.
  - intros c Hx. by destruct (Hh c).
  - intros ?? E. by apply Hn in E.
  - intros ???? E. by apply Hn in E.
  - intros ?? E. by apply Hn in E.
Qed.

Lemma System_new_kwf (h : H) :
  kwf (kabs (kernel (System_new h))) /\ kbounded 0 (kabs (kernel (System_new h))).
Proof. unfold System_new. destruct (now_nanos h) as [bt h']. apply KernelCore_new_kwf. Qed.

Lemma run_kwf evs h s :
  Forall event_ok evs -> sys_run (System_new h) evs = Some s -> 4 * len evs <= max_steps + 1 ->
  kwf (kabs (kernel s)) /\ kbounded (4 * len evs) (kabs (kernel s)).
Proof.
  intros Hok Hrun Hn. destruct (System_new_kwf h) as [Hwf Hb].
  destruct (run_effect (fun _ _ => true) kstep) with (evs := evs) (s := System_new h) (s' := s) (n := 0)
    as (Hwf' & Hb' & _); try done.
  - intros s0 ev a l a' _. apply event_step_kstep.
  - apply (run_all_static (fun _ => true)). by apply forallb_forall.
Qed.
End run.

(** * Traces of the system

    What a client of [System] does to it: calls of its methods, interleaved with
    arbitrary changes of the platform's state. Well-formedness of the kernel is
    kept along a trace. *)

Local Open Scope Z_scope.

Section trace.
Context {H : Type} `{HAL H} `{Target}.

Inductive strace : System H -> list sevent -> System H -> Prop :=
| ST_nil s : strace s [] s
| ST_hal s h evs s' : strace (set_kernel (set_hal h (kernel s)) s) evs s' -> strace s evs s'
| ST_ev s ev s1 evs s' : sys_exec s ev = Some s1 -> strace s1 evs s' -> strace s (ev :: evs) s'.

Lemma strace_app s evs1 s1 evs2 s2 : strace s evs1 s1 -> strace s1 evs2 s2 -> strace s (evs1 ++ evs2) s2.
Proof. induction 1; intros; [done|eapply ST_hal; eauto|eapply ST_ev; eauto]. Qed.

Lemma strace_uptime s : strace s [] (uptime_nanos s).2.
Proof.
  unfold uptime_nanos, System.with_hal. destruct (now_nanos (hal (kernel s))) as [now h]. eapply ST_hal, ST_nil.
Qed.

(** Well-formedness along a trace. *)
Lemma strace_kwf s evs s' :
  strace s evs s' -> forall n, Forall event_ok evs -> kwf (kabs (kernel s)) -> kbounded n (kabs (kernel s)) ->
  n + 4 * len evs <= max_steps + 1 -> kwf (kabs (kernel s')) /\ kbounded (n + 4 * len evs) (kabs (kernel s')).
Proof.
  induction 1 as [s|s h evs s' _ IH|s ev s1 evs s' E _ IH]; intros n Hok Hwf Hb Hn.
  - unfold len. simpl. by rewrite Z.add_0_r.
  - by apply IH.
  - unfold len in *. simpl length in *. inversion Hok as [|? ? Hok1 Hok2]; subst.
    destruct (exec_effect s ev s1 (kw_cons _ Hwf) Hok1 E) as [es He].
    assert (effect kstep 4 s s1 es) as Hk
      by (eapply effect_mono; [|reflexivity|exact He]; intros x l y; apply event_step_kstep).
    destruct (performs_kwf 4 _ _ _ n (eff_steps _ _ _ _ _ Hk) Hwf Hb) as [Hwf1 Hb1]; [lia|].
    destruct (IH (n + 4) Hok2 Hwf1 Hb1) as [? Hb']; [lia|]. split; [done|].
    eapply kbounded_mono; [|exact Hb']. lia.
Qed.
End trace.
