(* ===== verification/SystemReplay.v ===== *)
(** * Replaying commits simulates the steps they label

    [sim a r] relates an abstract kernel to a system under replay: same
    process names and states, same capability spaces, same endpoint owners;
    queues, metrics and counters are not replayed. Every step of [rstep] is
    matched by the replay of its label, and related states hash alike. *)
From S2P Require Import Prelude AxiomTypes CommitLog Gateway.
From S2P Require Import Hal KernelState KernelIpc System KernelReplay.
From S2P Require Import KernelSpec KernelRefine KernelWf.

Section sim.
Context {H : Type}.
Implicit Types r s : System H.

Record sim (a : KA) (r : System H) : Prop := mk_sim {
  sim_procs : abs_proc <$> processes (kernel r) = ka_procs a;
  sim_caps : cap_spaces (kernel r) = ka_caps a;
  sim_eps : ep_owner <$> endpoints (kernel r) = fst <$> ka_eps a }.

(** Replay of a list of commit types. *)
Definition replay_cts (l : list CommitType) (r : System H) : result unit ReplayError * System H :=
  replay (new_commit 0 <$> l) r.

Lemma replay_cts_app l1 l2 r r1 :
  replay_cts l1 r = (Ok tt, r1) -> replay_cts (l1 ++ l2) r = replay_cts l2 r1.
Proof. intros H1. unfold replay_cts in *. by rewrite fmap_app, replay_app, H1. Qed.

Lemma replay_commits cs r : replay cs r = replay_cts (c_commit_type <$> cs) r.
Proof. apply replay_types. rewrite <- list_fmap_compose. symmetry. by apply list_fmap_id. Qed.

Lemma sim_proc_Some a r pid : sim a r -> is_Some (ka_procs a !! pid) -> is_Some (processes (kernel r) !! pid).
Proof. intros [<- _ _]. by rewrite lookup_fmap, fmap_is_Some. Qed.

(** ** One commit at a time *)
Lemma replay_cts_kernel ct f r k' :
  (forall s, apply_commit (new_commit 0 ct) s = on_kernel f s) -> f (kernel r) = (Ok tt, k') ->
  replay_cts [ct] r = (Ok tt, set_kernel k' r).
Proof. intros E1 E2. unfold replay_cts. simpl. rewrite E1. unfold on_kernel. by rewrite E2. Qed.

Ltac replay_kernel := eexists; split; [eapply replay_cts_kernel; [reflexivity|]|].

Lemma sim_new_proc a r pid parent name npid :
  sim a r -> exists r', replay_cts [ProcessCreated pid parent name] r = (Ok tt, r') /\
    sim (ka_new_proc pid name npid a) r'.
Proof.
  intros [S1 S2 S3]. replay_kernel; [reflexivity|].
  split; cbv zeta; case_match; simpl; rewrite ?fmap_insert, ?S1, ?S2; done.
Qed.

Lemma sim_zombie a r pid code :
  sim a r -> is_Some (ka_procs a !! pid) ->
  exists r', replay_cts [ProcessExited pid code] r = (Ok tt, r') /\ sim (ka_zombie pid a) r'.
Proof.
  intros Hsim Hp. pose proof (sim_proc_Some _ _ _ Hsim Hp) as [p Hp']. destruct Hsim as [S1 S2 S3].
  replay_kernel; [unfold kr_exit_process; rewrite Hp'; reflexivity|]. split; simpl; [|done|done].
  rewrite fmap_insert, <- S1. apply map_eq. intros i. destruct (decide (pid = i)) as [<-|Hne].
  - by rewrite lookup_insert_eq, lookup_alter_eq, lookup_fmap, Hp'.
  - by rewrite lookup_insert_ne, lookup_alter_ne.
Qed.

Lemma map_object_type_as_u8 t : map_object_type (ObjectType_as_u8 t) = Ok t.
Proof. by destruct t. Qed.

Lemma sim_insert a r pid cs cap :
  sim a r -> ka_caps a !! pid = Some cs ->
  cap_generation cap = 0 -> cap_expires_at cap = 0 ->
  exists r', replay_cts [cap_inserted pid (next_slot cs) cap] r = (Ok tt, r') /\
    sim (ka_set_cspace pid (cs_insert cap cs).2 a) r'.
Proof.
  intros [S1 S2 S3] Hcs Hg Hx.
  replay_kernel; [unfold kr_insert_capability; rewrite map_object_type_as_u8, S2, Hcs; reflexivity|].
  assert (mk_Capability (cap_id cap) (cap_object_type cap) (cap_object_id cap)
    (from_byte (to_byte (cap_permissions cap))) 0 0 = cap) as ->.
  { rewrite ax_from_to_byte. destruct cap; simpl in *. by subst. }
  rewrite Z.leb_refl. split; cbv zeta; case_match; simpl; rewrite ?S2; done.
Qed.

Lemma sim_remove a r pid cs slot :
  sim a r -> ka_caps a !! pid = Some cs ->
  exists r', replay_cts [CapRemoved pid slot] r = (Ok tt, r') /\
    sim (ka_set_cspace pid (cs_remove slot cs).2 a) r'.
Proof.
  intros [S1 S2 S3] Hcs.
  replay_kernel; [unfold kr_remove_capability; rewrite S2, Hcs; reflexivity|].
  split; simpl; by rewrite ?S2.
Qed.

Lemma sim_granted a r f t fs ts id perms :
  sim a r -> exists r', replay_cts [CapGranted f t fs ts id perms] r = (Ok tt, r') /\ sim a r'.
Proof.
  intros [S1 S2 S3]. replay_kernel; [reflexivity|]. split; case_match; done.
Qed.

Lemma sim_new_endpoint a r owner :
  sim a r -> is_Some (ka_procs a !! owner) ->
  exists r', replay_cts [EndpointCreated (ka_neid a) owner] r = (Ok tt, r') /\
    sim (ka_new_endpoint owner a) r'.
Proof.
  intros Hsim Hp. pose proof (sim_proc_Some _ _ _ Hsim Hp) as Hp'. destruct Hsim as [S1 S2 S3].
  replay_kernel;
    [unfold kr_create_endpoint; rewrite (proj2 (contains_key_true _ _) Hp'); reflexivity|].
  split; cbv zeta; case_match; simpl; rewrite ?fmap_insert, ?S3; done.
Qed.

(** Changing a queue or a counter does not matter. *)
Lemma sim_set_ep a r eid o q q' :
  ka_eps a !! eid = Some (o, q) -> sim a r -> sim (ka_set_ep eid o q' a) r.
Proof.
  intros He [S1 S2 S3]. split; simpl; try done. rewrite fmap_insert, S3. simpl.
  symmetry. apply insert_id. by rewrite lookup_fmap, He.
Qed.

Lemma sim_bump a r : sim a r -> sim (ka_bump_cap a) r.
Proof. by intros [S1 S2 S3]. Qed.

Lemma ka_set_cspace_twice pid cs1 cs2 a :
  ka_set_cspace pid cs2 (ka_set_cspace pid cs1 a) = ka_set_cspace pid cs2 a.
Proof. unfold ka_set_cspace. simpl. by rewrite insert_insert_eq. Qed.

Lemma ka_set_cspace_id pid cs a : ka_caps a !! pid = Some cs -> ka_set_cspace pid cs a = a.
Proof. intros Hcs. unfold ka_set_cspace. rewrite insert_id by done. by destruct a. Qed.

Lemma sim_transfer pid sl ts cs caps cms cs' a r :
  transfer_loop pid sl ts cs = (caps, cms, cs') -> sim a r -> ka_caps a !! pid = Some cs ->
  exists r', replay_cts (c_commit_type <$> cms) r = (Ok tt, r') /\ sim (ka_set_cspace pid cs' a) r'.
Proof.
  revert cs caps cms cs' a r. induction sl as [|s sl IH]; intros cs caps cms cs' a r E Hs Hcs; simpl in E.
  - injection E as _ <- <-. exists r. by rewrite ka_set_cspace_id.
  - destruct (slots cs !! s) as [c|] eqn:Hc.
    + destruct (transfer_loop pid sl ts _) as [[caps1 cms1] cs1] eqn:E1. injection E as _ <- <-.
      destruct (sim_remove a r pid cs s Hs Hcs) as (r1 & R1 & S1).
      destruct (IH _ _ _ _ _ _ E1 S1) as (r2 & R2 & S2); [simpl; by rewrite lookup_insert_eq|].
      rewrite ka_set_cspace_twice in S2. exists r2. split; [|done].
      change (c_commit_type <$> ?c :: ?l) with ([c_commit_type c] ++ (c_commit_type <$> l)).
      by rewrite (replay_cts_app _ _ _ _ R1).
    + apply (IH _ _ _ _ _ _ E Hs). rewrite Hcs. f_equal. destruct cs as [m n]. simpl in *.
      by rewrite delete_id.
Qed.

Lemma sim_install pid caps ts cs sls cms cs' a r :
  install_loop pid caps ts cs = (sls, cms, cs') -> sim a r -> ka_caps a !! pid = Some cs ->
  (forall tc, tc ∈ caps -> cap_generation (tc_capability tc) = 0 /\ cap_expires_at (tc_capability tc) = 0) ->
  exists r', replay_cts (c_commit_type <$> cms) r = (Ok tt, r') /\ sim (ka_set_cspace pid cs' a) r'.
Proof.
  revert cs sls cms cs' a r. induction caps as [|tc caps IH]; intros cs sls cms cs' a r E Hs Hcs Hg; simpl in E.
  - injection E as _ <- <-. exists r. by rewrite ka_set_cspace_id.
  - destruct (install_loop pid caps ts _) as [[sls1 cms1] cs1] eqn:E1. injection E as _ <- <-.
    destruct (Hg tc ltac:(by left)) as [Hg1 Hg2].
    destruct (sim_insert a r pid cs (tc_capability tc) Hs Hcs Hg1 Hg2) as (r1 & R1 & S1).
    destruct (IH _ _ _ _ _ _ E1 S1) as (r2 & R2 & S2);
      [simpl; by rewrite lookup_insert_eq|intros tc' Ht; apply Hg; by right|].
    rewrite ka_set_cspace_twice in S2. exists r2. split; [|done].
    change (c_commit_type <$> ?c :: ?l) with ([c_commit_type c] ++ (c_commit_type <$> l)).
    by rewrite (replay_cts_app _ _ _ _ R1).
Qed.

(** ** Steps *)
Lemma rstep_sim a l a' r :
  kwf a -> rstep a l a' -> sim a r -> exists r', replay_cts l r = (Ok tt, r') /\ sim a' r'.
Proof.
  intros Hwf [Hm|Hg] Hs.
  2:{ destruct Hg as [pid cs cap Hcs Hid Ho]. destruct (from_owner_ok _ _ Hwf Ho) as (G1 & G2 & _).
      destruct (sim_insert a r pid cs cap Hs Hcs G1 G2) as (r' & R & S'). exists r'.
      split; [done|by apply sim_bump]. }
  destruct Hm as
    [pid parent name npid Hf Hst|pid code Hp|owner cs Ho Hcs| |pid cs cap Hcs Hid Hj|f t fs ts perms
    |pid cs slot Hcs Hsl|eid o q m from He Hm|pid cs eid o q sl ts caps cms cs' m Hcs He Ht Hmc Hlen
    |eid o m q He|pid cs eid o m q ts sls cms cs' Hcs He Hi].
  - by apply sim_new_proc.
  - by apply sim_zombie.
  - destruct (sim_new_endpoint a r owner Hs Ho) as (r1 & R1 & S1).
    destruct (sim_insert _ r1 owner cs (endpoint_cap (ka_ncap a) (ka_neid a)) S1 Hcs eq_refl eq_refl)
      as (r2 & R2 & S2).
    exists r2. split; [|by apply sim_bump]. unfold create_commits.
    change [?x; ?y] with ([x] ++ [y]). by rewrite (replay_cts_app _ _ _ _ R1).
  - exists r. split; [done|by apply sim_bump].
  - destruct (justified_ok _ _ Hwf Hj) as (G1 & G2 & _).
    destruct (sim_insert a r pid cs cap Hs Hcs G1 G2) as (r' & R & S'). exists r'.
    split; [done|by apply sim_bump].
  - by apply sim_granted.
  - by apply sim_remove.
  - exists r. split; [done|by eapply sim_set_ep].
  - destruct (sim_transfer _ _ _ _ _ _ _ _ _ Ht Hs Hcs) as (r' & R & S'). exists r'.
    split; [done|]. by eapply sim_set_ep.
  - exists r. split; [done|by eapply sim_set_ep].
  - eapply (sim_install _ _ _ _ _ _ _ (ka_set_ep eid o q a)) in Hi; [done|by eapply sim_set_ep|done|].
    intros tc Htc. destruct (queue_ok _ _ _ _ m Hwf He ltac:(by left)) as [_ Hok].
    destruct (Hok _ Htc). done.
Qed.

Lemma performs_sim m a cts a' r n :
  performs rstep m a cts a' -> kwf a -> kbounded n a -> n + Z.of_nat m <= max_steps + 1 -> sim a r ->
  exists r', replay_cts cts r = (Ok tt, r') /\ sim a' r'.
Proof.
  intros (ls & Ht & <- & Hm). revert n r Hm. revert m.
  induction Ht as [a|a l a1 ls a2 Hs Ht IH]; intros m n r Hm Hwf Hb Hn Hsim; simpl in *; [by exists r|].
  destruct (rstep_sim _ _ _ _ Hwf Hs Hsim) as (r1 & R1 & S1).
  assert (n <= max_steps) as Hn' by lia.
  destruct (IH (m - 1)%nat (n + 1) r1) as (r2 & R2 & S2); try lia; try done.
  - eapply kstep_kwf; [done|by eapply kbounded_room|by apply rstep_kstep].
  - eapply kstep_kbounded; [done|done|done|by apply rstep_kstep].
  - exists r2. split; [|done]. by rewrite (replay_cts_app _ _ _ _ R1).
Qed.

(** ** What the state hash reads *)

(** Kernels with the same processes, capability spaces and endpoint owners. *)
Definition visible_eq (k1 k2 : KernelCore H) : Prop :=
  abs_proc <$> processes k1 = abs_proc <$> processes k2 /\ cap_spaces k1 = cap_spaces k2 /\
  ep_owner <$> endpoints k1 = ep_owner <$> endpoints k2.

#[global] Instance visible_eq_equivalence : Equivalence visible_eq.
Proof.
  split.
  - by intros k.
  - intros k1 k2 (E1 & E2 & E3). by repeat split.
  - intros k1 k2 k3 (E1 & E2 & E3) (F1 & F2 & F3). repeat split; by etrans.
Qed.

Lemma foldl_btree_fmap {V W A} (g : V -> W) (f : A -> Z * W -> A) h (m : gmap Z V) :
  foldl f h (btree_iter (g <$> m)) = foldl (fun a kv => f a (kv.1, g kv.2)) h (btree_iter m).
Proof.
  rewrite btree_iter_fmap. revert h. induction (btree_iter m) as [|[k v] l IH]; intros h; [done|].
  apply IH.
Qed.

Lemma foldl_ext {A B} (f g : A -> B -> A) a l :
  (forall x y, f x y = g x y) -> foldl f a l = foldl g a l.
Proof. intros Hfg. revert a. induction l as [|b l IH]; intros a; simpl; [done|]. by rewrite Hfg. Qed.

Lemma btree_len_fmap {V W} (g : V -> W) (m : gmap Z V) : btree_len (g <$> m) = btree_len m.
Proof. unfold btree_len. by rewrite map_size_fmap. Qed.

Lemma hash_processes_visible (k : KernelCore H) h :
  hash_processes k h =
  foldl (fun h (kv : Z * (string * ProcessState)) =>
    write_u8 (process_state_to_u8 kv.2.2) (write_str kv.2.1 (write_u64 kv.1 h)))
    (write_u64 (btree_len (abs_proc <$> processes k)) h) (btree_iter (abs_proc <$> processes k)).
Proof.
  unfold hash_processes. rewrite foldl_btree_fmap, btree_len_fmap. apply foldl_ext. by intros x [p v].
Qed.

Lemma hash_endpoints_visible (k : KernelCore H) h :
  hash_endpoints k h =
  foldl (fun h (kv : Z * ProcessId) => write_u64 kv.2 (write_u64 kv.1 h))
    (write_u64 (btree_len (ep_owner <$> endpoints k)) h) (btree_iter (ep_owner <$> endpoints k)).
Proof.
  unfold hash_endpoints. rewrite foldl_btree_fmap, btree_len_fmap. apply foldl_ext. by intros x [p v].
Qed.

#[global] Instance kernel_state_hash_proper : Proper (visible_eq ==> eq) (@kernel_state_hash H).
Proof.
  intros k1 k2 (E1 & E2 & E3). unfold kernel_state_hash.
  rewrite !hash_endpoints_visible, !hash_processes_visible. unfold hash_cap_spaces.
  by rewrite E1, E2, E3.
Qed.

Lemma sim_visible (k : KernelCore H) r : sim (kabs k) r -> visible_eq (kernel r) k.
Proof.
  intros [S1 S2 S3]. repeat split; [done|done|]. rewrite S3. simpl.
  rewrite <- map_fmap_compose. by apply map_fmap_ext.
Qed.

Lemma sim_new (h h0 : H) : sim (kabs (KernelCore_new h)) (System_new_for_replay h0).
Proof. split; simpl; by rewrite ?fmap_empty. Qed.

(** ** How many commits a step leaves *)
Lemma transfer_loop_commits pid sl ts cs caps cms cs' :
  transfer_loop pid sl ts cs = (caps, cms, cs') -> length cms = length caps.
Proof.
  revert cs caps cms cs'. induction sl as [|s sl IH]; intros cs caps cms cs' E; simpl in E.
  - by injection E as <- <- _.
  - destruct (slots cs !! s) as [c|].
    + destruct (transfer_loop pid sl ts _) as [[caps1 cms1] cs1] eqn:E1. injection E as <- <- _.
      simpl. f_equal. by eapply IH.
    + by eapply IH.
Qed.

Lemma install_loop_commits pid caps ts cs sls cms cs' :
  install_loop pid caps ts cs = (sls, cms, cs') -> length cms = length caps.
Proof.
  revert cs sls cms cs'. induction caps as [|tc caps IH]; intros cs sls cms cs' E; simpl in E.
  - by injection E as _ <- _.
  - destruct (install_loop pid caps ts _) as [[sls1 cms1] cs1] eqn:E1. injection E as _ <- _.
    simpl. f_equal. by eapply IH.
Qed.

Lemma rstep_commits a l a' : kwf a -> rstep a l a' -> (length l <= 8)%nat.
Proof.
  intros Hwf [Hm|Hg]; [|destruct Hg; simpl; lia]. destruct Hm as
    [| | | | | | | |pid cs eid o q sl ts caps cms cs' m Hcs He Ht Hmc Hlen|
     |pid cs eid o m q ts sls cms cs' Hcs He Hi]; simpl; try lia; rewrite length_fmap.
  - apply transfer_loop_commits in Ht. unfold len, MAX_CAPS_PER_MESSAGE in *. lia.
  - apply install_loop_commits in Hi. pose proof (kw_msgs _ Hwf _ _ _ m He ltac:(by left)) as Hlen.
    unfold len, MAX_CAPS_PER_MESSAGE in *. lia.
Qed.

Lemma performs_rstep_commits m a cts a' n :
  performs rstep m a cts a' -> kwf a -> kbounded n a -> n + Z.of_nat m <= max_steps + 1 ->
  (length cts <= 8 * m)%nat.
Proof.
  intros (ls & Ht & <- & Hm). revert n m Hm.
  induction Ht as [a|a l a1 ls a2 Hs Ht IH]; intros n m Hm Hwf Hb Hn; simpl in *; [lia|].
  rewrite length_app. pose proof (rstep_commits _ _ _ Hwf Hs).
  assert (n <= max_steps) as Hn' by lia.
  assert (length (mjoin ls) <= 8 * (m - 1))%nat; [|lia].
  apply (IH (n + 1)); try lia.
  - eapply kstep_kwf; [done|by eapply kbounded_room|by apply rstep_kstep].
  - eapply kstep_kbounded; [done|done|done|by apply rstep_kstep].
Qed.
End sim.

(** * Replaying the commit log of a run

    The commit log of a run from boot is a complete history while it is
    within its capacity; replaying it on a fresh system follows the run as
    long as the run makes replayable calls only. *)
From S2P Require Import KernelSyscall.
From S2P Require Import SystemRefine SystemRun.

Section replay.
Context {H : Type} `{HAL H} `{Target}.
Implicit Types s r : System H.

(** Every call of the run leaves commits that carry the whole change. *)
Definition replayable_run (s : System H) (evs : list sevent) : bool :=
  run_all (fun s ev => negb (event_lossy s ev)) s evs.

Lemma event_step_rstep s ev a l a' :
  negb (event_lossy s ev) = true -> event_step s ev a l a' -> rstep a l a'.
Proof.
  unfold event_step. destruct (event_lossy s ev); [done|]. intros _.
  destruct (event_grants ev); [done|apply micro_rstep].
Qed.

(** The history of a commit log that started at boot. *)
Lemma boot_history (h : H) es s :
  commitlog (axiom s) = appends es (commitlog (axiom (System_new h))) ->
  len es < MAX_COMMITLOG_ENTRIES ->
  exists bt, commit_history ((Genesis, None, bt) :: es) (commitlog (axiom s)).
Proof.
  intros -> Hn. unfold System_new. destruct (now_nanos h) as [bt h']. exists bt.
  apply (commit_history_appends [(Genesis, None, bt)]); [apply commit_history_new|].
  unfold len in *. simpl. lia.
Qed.

Lemma history_types es l : commit_history es l -> c_commit_type <$> commits l = es.*1.*1.
Proof.
  intros Hh. rewrite <- (hist_entries _ _ Hh), <- !list_fmap_compose. by apply list_fmap_ext.
Qed.

Lemma replay_history bt es l (r : System H) :
  commit_history ((Genesis, None, bt) :: es) l -> replay (commits l) r = replay_cts es.*1.*1 r.
Proof. intros Hh. rewrite replay_commits, (history_types _ _ Hh). done. Qed.

(** What a replayable run leaves in the log. *)
Lemma replayable_run_effect evs (h : H) s :
  Forall event_ok evs -> replayable_run (System_new h) evs = true ->
  sys_run (System_new h) evs = Some s -> 32 * len evs < MAX_COMMITLOG_ENTRIES ->
  kwf (kabs (kernel s)) /\ exists es, effect rstep (4 * length evs) (System_new h) s es /\
    len es <= 32 * len evs.
Proof.
  intros Hok Hrep Hrun Hn. destruct (System_new_kwf h) as [Hwf Hb].
  assert (0 + 4 * len evs <= max_steps + 1) as Hsteps.
  { unfold max_steps, MAX_COMMITLOG_ENTRIES in *. lia. }
  destruct (run_effect _ rstep event_step_rstep evs _ _ 0 Hrep Hok Hrun Hwf Hb Hsteps)
    as (Hwf' & _ & es & He). split; [done|]. exists es. split; [done|].
  pose proof (performs_rstep_commits _ _ _ _ 0 (eff_steps _ _ _ _ _ He) Hwf Hb) as Hl.
  unfold len in *. rewrite !length_fmap in Hl. lia.
Qed.

Lemma run_replays evs (h h0 : H) s :
  Forall event_ok evs -> replayable_run (System_new h) evs = true ->
  sys_run (System_new h) evs = Some s -> 32 * len evs < MAX_COMMITLOG_ENTRIES ->
  exists es bt r, commit_history ((Genesis, None, bt) :: es) (commitlog (axiom s)) /\
    len es <= 32 * len evs /\
    replay_cts es.*1.*1 (System_new_for_replay h0) = (Ok tt, r) /\ sim (kabs (kernel s)) r.
Proof.
  intros Hok Hrep Hrun Hn.
  destruct (replayable_run_effect evs h s Hok Hrep Hrun Hn) as (_ & es & He & Hes).
  destruct (boot_history h es s (eff_log _ _ _ _ _ He) ltac:(lia)) as [bt Hh].
  destruct (System_new_kwf h) as [Hwf Hb].
  destruct (performs_sim _ _ _ _ (System_new_for_replay h0) 0 (eff_steps _ _ _ _ _ He) Hwf Hb)
    as (r & R & S').
  - unfold max_steps, MAX_COMMITLOG_ENTRIES, len in *. lia.
  - unfold System_new. destruct (now_nanos h). apply sim_new.
  - by exists es, bt, r.
Qed.

(** ** Replay of a kill *)
Lemma replay_destroy eids r :
  exists r', replay_cts (EndpointDestroyed <$> eids) r = (Ok tt, r') /\
    processes (kernel r') = processes (kernel r) /\ cap_spaces (kernel r') = cap_spaces (kernel r).
Proof.
  revert r. induction eids as [|e eids IH]; intros r; [by exists r|].
  destruct (IH (set_kernel (set_endpoints (delete e (endpoints (kernel r))) (kernel r)) r))
    as (r' & R & P1 & P2).
  exists r'. split; [|done]. change (EndpointDestroyed <$> e :: eids) with
    ([EndpointDestroyed e] ++ (EndpointDestroyed <$> eids)).
  erewrite replay_cts_app; [exact R|]. by eapply replay_cts_kernel.
Qed.

(** The replay of a kill keeps the process, as a zombie, and its capabilities. *)
Lemma replay_kill a r pid l :
  sim a r -> is_Some (ka_procs a !! pid) ->
  exists r' p, replay_cts (ProcessExited pid (-1) :: (EndpointDestroyed <$> l)) r = (Ok tt, r') /\
    processes (kernel r') !! pid = Some p /\ proc_state p = Zombie /\
    cap_spaces (kernel r') = ka_caps a.
Proof.
  intros Hs Hp. destruct (sim_zombie a r pid (-1) Hs Hp) as (r1 & R1 & [S1 S2 _]).
  destruct (replay_destroy l r1) as (r2 & R2 & P1 & P2).
  assert (exists p, processes (kernel r1) !! pid = Some p /\ proc_state p = Zombie) as (p & Hp1 & Hz).
  { assert ((abs_proc <$> processes (kernel r1)) !! pid = (fun p => (p.1, Zombie)) <$> ka_procs a !! pid)
      as E by (rewrite S1; simpl; apply lookup_alter_eq).
    destruct Hp as [[nm st] Hp]. rewrite Hp, lookup_fmap in E. simpl in E.
    apply fmap_Some in E as (p & Hp1 & E). exists p. split; [done|]. unfold abs_proc in E. by simplify_eq. }
  exists r2, p. rewrite P1, P2, S2. split_and!; try done.
  change (ProcessExited pid (-1) :: ?x) with ([ProcessExited pid (-1)] ++ x).
  by rewrite (replay_cts_app _ _ _ _ R1).
Qed.

(** What a kill leaves in the kernel and in the log. *)
Lemma sys_kill_exact pid s :
  is_Some (processes (kernel s) !! pid) ->
  kabs (kernel (sys_kill_process pid s)) = ka_kill pid (kabs (kernel s)) /\
  exists t, commitlog (axiom (sys_kill_process pid s)) =
    appends (stamped t (ProcessExited pid (-1) :: (EndpointDestroyed <$> owned pid (kabs (kernel s)))))
      (commitlog (axiom s)).
Proof.
  intros Hp. destruct (uptime_nanos s) as [t s1] eqn:Eu. destruct (uptime_kabs _ _ _ Eu) as [Hk Ha].
  destruct (kill_process pid t (kernel s1)) as [cms k'] eqn:E.
  destruct (kill_process_spec _ _ _ _ _ E) as [E1 E2].
  assert (contains_key (processes (kernel s1)) pid = true) as Hc.
  { apply contains_key_true, kabs_procs_Some. rewrite Hk. by apply kabs_procs_Some. }
  rewrite Hc, Hk in E2. rewrite Hk in E1. unfold sys_kill_process.
  destruct (recorded_exact (fun t k => let '(commits, k) := kill_process pid t k in ((tt, commits), k))
    s t s1 tt cms k' Eu) as [F1 F2]; [by rewrite E|].
  rewrite F1, F2, E2. split; [done|]. by exists t.
Qed.
End replay.
