(* ===== verification/HalRel.v ===== *)
(** * What the kernel does to its platform

    The kernel reaches the platform only through the methods of the HAL: a
    relation on platform states that contains these methods holds between the
    platforms before and after every system call. *)
From S2P Require Import Prelude StrLib AxiomTypes CommitLog Hal KernelState.
From S2P Require Import KernelIpc KernelSyscall System SystemRun.

Local Open Scope Z_scope.

(** ** Kernel operations *)

(** The kernel [k'] uses the same platform as [k]. *)
Notation same_hal k' k := (hal k' = hal k).

(** Operations that only consult the platform's log. *)
Ltac same_hal_tac := intros; repeat (case_match; simplify_eq/=; try done).

Section kernel_ops.
Context {H : Type} `{HAL H}.
Implicit Types k : KernelCore H.

Lemma sh_insert_cap pid cap k slot k' : insert_cap pid cap k = Some (slot, k') -> same_hal k' k.
Proof. unfold insert_cap. same_hal_tac. Qed.

Lemma sh_create_derived to src perms ts k : same_hal (create_derived_cap to src perms ts k).2 k.
Proof.
  unfold create_derived_cap. simpl. destruct (insert_cap _ _ _) as [[slot k']|] eqn:E; [|done].
  by apply sh_insert_cap in E.
Qed.

Lemma sh_grant f fs t perms ts k : same_hal (grant_capability f fs t perms ts k).2 k.
Proof.
  unfold grant_capability. destruct (validate_grant_source k f fs ts) as [c|]; [|done].
  pose proof (sh_create_derived t c (attenuate_permissions (cap_permissions c) perms) ts k) as E.
  by destruct (create_derived_cap _ _ _ _ k) as [[[slot cms]|] k'].
Qed.

Lemma sh_queue eid m k : same_hal (queue_message eid m k).2 k.
Proof. unfold queue_message. same_hal_tac. Qed.

Lemma sh_send f sl tag data ts k : same_hal (ipc_send f sl tag data ts k).2 k.
Proof.
  unfold ipc_send. destruct (validate_send_cap k f sl ts) as [eid|]; [|done].
  pose proof (sh_queue eid (mk_Message f tag data []) k) as E. by destruct (queue_message _ _ k) as [[[]|] k'].
Qed.

Lemma sh_receive pid sl ts k : same_hal (ipc_receive pid sl ts k).2 k.
Proof. unfold ipc_receive. same_hal_tac. Qed.

Lemma sh_receive_caps pid sl ts k : same_hal (ipc_receive_with_caps pid sl ts k).2 k.
Proof.
  unfold ipc_receive_with_caps. pose proof (sh_receive pid sl ts k) as E.
  destruct (ipc_receive pid sl ts k) as [[[m|]|] k']; simpl in *; try done.
  unfold install_transferred_caps. same_hal_tac.
Qed.

End kernel_ops.

(** ** Relations between states of the platform *)

(** A preorder on the states of a platform that contains the methods the kernel
    calls. *)
Class HalRel {H : Type} `{HAL H} (R : H -> H -> Prop) : Prop := {
  hr_refl h : R h h;
  hr_trans h1 h2 h3 : R h1 h2 -> R h2 h3 -> R h1 h3;
  hr_now h : R h (now_nanos h).2;
  hr_wallclock h : R h (wallclock_ms h).2;
  hr_spawn pid name binary h : R h (hal_spawn_process_with_pid pid name binary h).2;
  hr_debug msg h : R h (debug_write msg h);
  hr_load name h : R h (load_binary name h).2;
  hr_storage_read pid key h : R h (storage_read_async pid key h).2;
  hr_storage_write pid key value h : R h (storage_write_async pid key value h).2;
  hr_storage_delete pid key h : R h (storage_delete_async pid key h).2;
  hr_storage_list pid key h : R h (storage_list_async pid key h).2;
  hr_storage_exists pid key h : R h (storage_exists_async pid key h).2;
  hr_keystore_read pid key h : R h (keystore_read_async pid key h).2;
  hr_keystore_write pid key value h : R h (keystore_write_async pid key value h).2;
  hr_keystore_delete pid key h : R h (keystore_delete_async pid key h).2;
  hr_keystore_list pid key h : R h (keystore_list_async pid key h).2;
  hr_keystore_exists pid key h : R h (keystore_exists_async pid key h).2;
  hr_network pid request h : R h (network_fetch_async pid request h).2 }.

(** The relation contains the method at hand. *)
Ltac hal_method :=
  first [apply hr_storage_read | apply hr_storage_write | apply hr_storage_delete | apply hr_storage_list
        | apply hr_storage_exists | apply hr_keystore_read | apply hr_keystore_write | apply hr_keystore_delete
        | apply hr_keystore_list | apply hr_keystore_exists | apply hr_network].

(** ** System calls *)
Section syscalls.
Context {H : Type} `{HAL H} `{Target} (R : H -> H -> Prop) `{!HalRel R}.
Implicit Types k : KernelCore H.

(** The platforms of two kernels are related. *)
Definition kk k k' : Prop := R (hal k) (hal k').

Lemma kk_same k k' : same_hal k' k -> kk k k'.
Proof. intros E. unfold kk. rewrite E. apply hr_refl. Qed.

Lemma kk_refl k : kk k k.
Proof. by apply kk_same. Qed.

Lemma kk_trans k1 k2 k3 : kk k1 k2 -> kk k2 k3 -> kk k1 k3.
Proof. unfold kk. apply hr_trans. Qed.

Lemma kk_debug msg k1 k : kk k1 k -> kk k1 (debug msg k).
Proof. unfold kk. intros E. eapply hr_trans; [exact E|]. apply hr_debug. Qed.

Lemma kk_insert_cap pid cap k slot k' : insert_cap pid cap k = Some (slot, k') -> kk k k'.
Proof. intros E. apply kk_same. by eapply sh_insert_cap. Qed.

Lemma kk_grant_to o eid t perms ts k : kk k (grant_capability_to_endpoint o eid t perms ts k).2.
Proof.
  unfold grant_capability_to_endpoint. destruct (endpoints k !! eid); [|by apply kk_same].
  destruct (negb _); [by apply kk_same|]. simpl.
  destruct (insert_cap _ _ _) as [[slot k']|] eqn:E; [|by apply kk_same]. apply kk_debug. by apply kk_insert_cap in E.
Qed.

Lemma kk_delete pid slot ts k : kk k (delete_capability pid slot ts k).2.
Proof.
  unfold delete_capability, remove_cap. repeat (case_match; simplify_eq/=; try by apply kk_same).
  all: apply kk_debug; by apply kk_same.
Qed.

Lemma kk_create o ts k : kk k (create_endpoint o ts k).2.
Proof.
  unfold create_endpoint. destruct (negb _); [by apply kk_same|]. unfold grant_owner_endpoint_cap. simpl.
  destruct (insert_cap _ _ _) as [[slot k']|] eqn:E; [|by apply kk_same]. apply kk_debug.
  by apply kk_insert_cap in E.
Qed.

Lemma kk_register name ts k : kk k (register_process name ts k).2.
Proof. unfold kk. apply hr_debug. Qed.

Lemma kk_register_pid pid name ts k : kk k (register_process_with_pid pid name ts k).2.
Proof. unfold register_process_with_pid. repeat case_match; unfold kk; apply hr_debug. Qed.

Lemma kk_kill pid ts k : kk k (kill_process pid ts k).2.
Proof.
  unfold kill_process, cleanup_process_endpoints. repeat (case_match; simplify_eq/=; try by apply kk_same).
  all: unfold kk; apply hr_debug.
Qed.

Lemma kk_kill_check caller pid ts k : kk k (kill_process_with_cap_check caller pid ts k).2.
Proof.
  unfold kill_process_with_cap_check. destruct (negb _); [by apply kk_same|].
  assert (forall msg, kk k (kill_process pid ts (debug msg k)).2) as E
    by (intros msg; apply (kk_trans _ (debug msg k)); [unfold kk; apply hr_debug|apply kk_kill]).
  destruct (caller =? 1).
  - match goal with |- context [debug ?msg k] => specialize (E msg); by destruct (kill_process pid ts (debug msg k)) end.
  - destruct (negb _); [apply kk_debug; by apply kk_same|].
    match goal with |- context [debug ?msg k] => specialize (E msg); by destruct (kill_process pid ts (debug msg k)) end.
Qed.

Lemma kk_with_hal {T} (f : H -> T * H) k :
  (forall h, R h (f h).2) -> kk k (System.with_hal f k).2.
Proof. intros Hf. unfold System.with_hal. specialize (Hf (hal k)). by destruct (f (hal k)). Qed.

Lemma kk_uptime (s : System H) : kk (kernel s) (kernel (uptime_nanos s).2).
Proof.
  unfold uptime_nanos. pose proof (kk_with_hal now_nanos (kernel s) hr_now) as E. by destruct (System.with_hal _ _).
Qed.

Lemma kk_recorded {T} (op : Z -> KernelCore H -> (T * list Commit) * KernelCore H) (s : System H) :
  (forall t k, kk k (op t k).2) -> kk (kernel s) (kernel (recorded op s).2).
Proof.
  intros Hop. unfold recorded. pose proof (kk_uptime s) as E. destruct (uptime_nanos s) as [t s1]. simpl in E.
  specialize (Hop t (kernel s1)). destruct (op t (kernel s1)) as [[x cms] k']. unfold record_commits. cbn [snd].
  rewrite append_commit_types_kernel. cbn [set_kernel kernel]. by eapply kk_trans.
Qed.

Lemma kk_key_request f data k : (forall key h, R h (f key h).2) -> kk k (key_request f data k).2.
Proof.
  intros Hf. unfold key_request. destruct (from_utf8 data) as [key|]; [|apply kk_refl].
  pose proof (kk_with_hal (f key) k (Hf key)) as E. by destruct (System.with_hal _ k).
Qed.

Lemma kk_key_value f data k r :
  (forall key value h, R h (f key value h).2) -> key_value_request f data k = Some r -> kk k r.2.
Proof.
  intros Hf. unfold key_value_request. destruct (parse_prefixed data) as [[| |key value]|]; [intros [= <-]; apply kk_refl..| |done].
  pose proof (kk_with_hal (f key value) k (Hf key value)) as E. destruct (System.with_hal _ k). by intros [= <-].
Qed.

Lemma kk_basic num sender args k : kk k (execute_basic_syscall num sender args k).2.
Proof.
  unfold execute_basic_syscall.
  pose proof (kk_with_hal now_nanos k hr_now) as E1.
  pose proof (kk_with_hal wallclock_ms k hr_wallclock) as E2.
  destruct (System.with_hal now_nanos k) as [x1 k1]. destruct (System.with_hal wallclock_ms k) as [x2 k2].
  repeat (case_match; try done); apply kk_refl.
Qed.

Lemma kk_storage num sender data k r : execute_storage_syscall num sender data k = Some r -> kk k r.2.
Proof.
  unfold execute_storage_syscall.
  repeat case_match; intros E; simplify_eq; try apply kk_refl;
    first [eapply kk_key_value; [|exact E] | apply kk_key_request]; intros; hal_method.
Qed.

Lemma kk_keystore num sender data k r : execute_keystore_syscall num sender data k = Some r -> kk k r.2.
Proof.
  unfold execute_keystore_syscall.
  repeat case_match; intros E; simplify_eq; try apply kk_refl;
    first [eapply kk_key_value; [|exact E] | apply kk_key_request]; intros; hal_method.
Qed.

Lemma kk_spawn_process sender data ts k r : execute_spawn_process sender data ts k = Some r -> kk k r.2.
Proof.
  unfold execute_spawn_process. destruct (negb _); [intros [= <-]; apply kk_refl|].
  destruct (parse_prefixed data) as [[| |name [|b binary]]|]; try (intros [= <-]; apply kk_refl).
  pose proof (kk_register name ts k) as E. destruct (register_process name ts k) as [[pid cms] k1]. simpl in E.
  pose proof (kk_with_hal (hal_spawn_process_with_pid pid name (b :: binary)) k1) as E1.
  destruct (System.with_hal _ k1) as [x k2]. simpl in E1. intros Hr.
  assert (r.2 = k2) as -> by (destruct x; by injection Hr as <-). eapply kk_trans; [exact E|]. apply E1.
  intros h. apply hr_spawn.
Qed.

Lemma kk_process num sender args data ts k r :
  execute_process_syscall num sender args data ts k = Some r -> kk k r.2.
Proof.
  unfold execute_process_syscall.
  repeat match goal with |- (if ?b then _ else _) = _ -> _ => destruct b end; try (intros [= <-]).
  - unfold execute_exit. pose proof (kk_kill sender ts k) as E. by destruct (kill_process sender ts k).
  - apply kk_refl.
  - unfold execute_kill_with_cap. pose proof (kk_kill_check sender (arg0 args) ts k) as E.
    by destruct (kill_process_with_cap_check _ _ _ _) as [[[] cms] k'].
  - unfold execute_register_process. destruct (negb _); [apply kk_refl|].
    pose proof (kk_register (default "unknown"%string (from_utf8 data)) ts k) as E.
    by destruct (register_process _ ts k) as [[pid cms] k'].
  - unfold execute_create_endpoint_for. destruct (negb _); [apply kk_refl|].
    pose proof (kk_create (arg0 args) ts k) as E. destruct (create_endpoint _ ts k) as [[[[eid sl]|] cms] k']; [|done].
    simpl. destruct (insert_cap _ _ _) as [[slot k2]|] eqn:E2; [|done].
    apply kk_insert_cap in E2. eapply kk_trans; [exact E|]. exact E2.
  - unfold execute_load_binary. destruct (negb _); [apply kk_refl|]. destruct (from_utf8 data) as [name|]; [|apply kk_refl].
    pose proof (kk_with_hal (load_binary name) k (hr_load name)) as E. destruct (System.with_hal _ k) as [[|[]] k']; exact E.
  - intros E. destruct (execute_spawn_process sender data ts k) as [[[x cms] k']|] eqn:E1; [|done].
    injection E as <-. by apply kk_spawn_process in E1.
  - apply kk_refl.
Qed.

Lemma kk_capability num sender args ts k : kk k (execute_capability_syscall num sender args ts k).2.
Proof.
  unfold execute_capability_syscall. destruct (num =? 0x30); [|destruct (num =? 0x31); [|destruct (num =? 0x35)]].
  - pose proof (sh_grant sender (arg0 args) (arg1 args) (from_byte (wrap_u8 (arg2 args))) ts k) as E.
    destruct (grant_capability _ _ _ _ _ k) as [[[] cms] k']; by apply kk_same.
  - pose proof (kk_delete (arg0 args) (arg1 args) ts k) as E.
    by destruct (delete_capability _ _ _ k) as [[[] cms] k'].
  - pose proof (kk_create sender ts k) as E. by destruct (create_endpoint sender ts k) as [[[[]|] cms] k'].
  - apply kk_refl.
Qed.

Lemma kk_ipc num sender args data ts k : kk k (execute_ipc_syscall num sender args data ts k).2.
Proof.
  unfold execute_ipc_syscall. destruct (num =? 0x40); [|destruct (num =? 0x41)].
  - pose proof (sh_send sender (arg0 args) (arg1 args) data ts k) as E.
    destruct (ipc_send _ _ _ _ _ k) as [[[] cm] k']; by apply kk_same.
  - pose proof (sh_receive sender (arg0 args) ts k) as E. destruct (ipc_receive _ _ _ k) as [[[m|]|] k']; by apply kk_same.
  - apply kk_refl.
Qed.

Lemma kk_kernel_fn num sender args data ts k r :
  execute_syscall_kernel_fn num sender args data ts k = Some r -> kk k r.2.
Proof.
  unfold execute_syscall_kernel_fn.
  repeat match goal with |- (if ?b then _ else _) = _ -> _ => destruct b end; try (intros [= <-]).
  - pose proof (kk_basic num sender args k) as E. by destruct (execute_basic_syscall _ _ _ k) as [[] ?].
  - apply kk_process.
  - pose proof (kk_capability num sender args ts k) as E. by destruct (execute_capability_syscall _ _ _ _ k) as [[] ?].
  - apply kk_ipc.
  - apply kk_refl.
  - intros E. destruct (execute_storage_syscall _ _ _ k) as [[[] k']|] eqn:E1; [|done]. injection E as <-. by apply kk_storage in E1.
  - intros E. destruct (execute_keystore_syscall _ _ _ k) as [[[] k']|] eqn:E1; [|done]. injection E as <-. by apply kk_keystore in E1.
  - unfold execute_network_syscall. pose proof (kk_with_hal (network_fetch_async sender data) k) as E.
    destruct (System.with_hal _ k) as [x k']. simpl in *. unfold async_result. destruct x; apply E; intros; hal_method.
  - apply kk_refl.
Qed.

Lemma kk_rich sender num args res ts k : kk k (get_syscall_rich_result sender num args res ts k).2.
Proof.
  unfold get_syscall_rich_result.
  destruct (num =? 0x35); [unfold format_caps_list; simpl; by apply kk_same|].
  destruct (num =? 0x50); [unfold format_process_list; simpl; by apply kk_same|].
  destruct (num =? 0x41); [|apply kk_refl]. unfold format_receive_result.
  destruct (res =? 1); [|destruct (res =? 0); apply kk_refl].
  pose proof (sh_receive_caps sender (arg0 args) ts k) as E.
  destruct (ipc_receive_with_caps _ _ _ k) as [[[[[m sls]|]|] cms] k']; by apply kk_same.
Qed.

Lemma kk_syscall sender num args data (s : System H) out s' :
  process_syscall sender num args data s = Some (out, s') -> kk (kernel s) (kernel s').
Proof.
  intros E. pose proof (kk_uptime s) as Hu. destruct (uptime_nanos s) as [t s1] eqn:Eu. simpl in Hu.
  destruct (execute_syscall_kernel_fn num sender args data t (kernel s1)) as [[[[res cts] d] k]|] eqn:Ek.
  2:{ unfold process_syscall in E. rewrite Eu in E. destruct (log_request _ _ _ _ _) as [rid sl].
      cbn [set_syslog set_axiom kernel] in E. by rewrite Ek in E. }
  pose proof (kk_rich sender num args res t k) as Hr.
  destruct (get_syscall_rich_result sender num args res t k) as [[[rich md] more] k2] eqn:Er.
  destruct (process_syscall_exact _ _ _ _ _ _ _ _ _ _ _ _ _ _ _ Eu Ek Er) as (s2 & E2 & Hk2 & _).
  rewrite E2 in E. injection E as _ <-. rewrite Hk2. apply kk_kernel_fn in Ek. simpl in Ek, Hr.
  eapply kk_trans; [exact Hu|]. by eapply kk_trans.
Qed.
End syscalls.
