(* ===== verification/SystemProps.v ===== *)
(** * Theorems about the kernel and the system

    Reachable states, authority, replay, the audit trail, capability transfer,
    kill, and the behaviour of particular syscall numbers. The demonstration
    run on the test platform gives the concrete instances. *)
From S2P Require Import Prelude AxiomTypes CommitLog Gateway.
From S2P Require Import StrLib Hal KernelState KernelIpc.
From S2P Require Import KernelSyscall System KernelReplay.
From S2P Require Import KernelSpec KernelRefine SystemRefine KernelWf KernelFun.
From S2P Require Import SystemReplay SystemRun.

Section theorems.
Context {H : Type} `{HAL H} `{Target}.
Implicit Types s r : System H.
Implicit Types k : KernelCore H.

(** C2: in every state the system reaches from boot, processes and capability
    spaces correspond, the owner of every endpoint is in the process table,
    process, endpoint and capability identifiers lie below their counters, every
    capability (in a slot or in a queued message) never expires and names an
    endpoint that has been allocated if it names one, slots lie below the
    allocation pointer and no message carries more than eight capabilities. *)
Theorem system_invariants evs (h : H) s :
  Forall event_ok evs -> sys_run (System_new h) evs = Some s -> 4 * len evs <= max_steps ->
  kwf (kabs (kernel s)).
Proof. intros Hok Hrun Hn. eapply run_kwf; [exact Hok|exact Hrun|lia]. Qed.

(** C4: system calls never amplify authority. Whatever the processes call after
    the system has reached [s1], every capability held afterwards, in a slot or
    in flight, attenuates one held in [s1] or is for an endpoint created since;
    only the supervisor's grants in the name of an owner are excluded. *)
Theorem system_no_amplification evs1 evs2 (h : H) s1 s2 c :
  Forall event_ok (evs1 ++ evs2) -> sys_run (System_new h) evs1 = Some s1 ->
  sys_run s1 evs2 = Some s2 -> forallb (fun ev => negb (event_grants ev)) evs2 = true ->
  4 * len (evs1 ++ evs2) <= max_steps ->
  ka_held (kabs (kernel s2)) c -> authorised (kabs (kernel s1)) c.
Proof.
  intros Hok Hr1 Hr2 Hg Hn Hc. apply Forall_app in Hok as [Hok1 Hok2].
  unfold len in Hn. rewrite length_app, Nat2Z.inj_add in Hn.
  destruct (run_kwf evs1 h s1 Hok1 Hr1 ltac:(unfold len; lia)) as [Hwf Hb].
  destruct (run_effect (fun _ ev => negb (event_grants ev)) mstep) with (evs := evs2) (s := s1)
    (s' := s2) (n := 4 * len evs1) as (_ & _ & es & He); try done.
  - intros s0 ev a l a'. unfold event_step. destruct (event_lossy s0 ev); [done|].
    destruct (event_grants ev); [done|]. intros _. apply micro_mstep.
  - by apply run_all_static.
  - unfold len. lia.
  - eapply (performs_authorised _ _ _ _ c (4 * len evs1) (eff_steps _ _ _ _ _ He)); try done.
    unfold len. lia.
Qed.

(** C3: replaying the commit log of a run of replayable calls on a fresh
    system succeeds and rebuilds the live state: the same processes with their
    states, the same capabilities in the same slots, the same endpoints and
    owners, and so the same state hash. *)
Theorem replay_faithful evs (h h0 : H) s :
  Forall event_ok evs -> replayable_run (System_new h) evs = true ->
  sys_run (System_new h) evs = Some s -> 32 * len evs < MAX_COMMITLOG_ENTRIES ->
  exists r, replay_and_verify (commits (commitlog (axiom s))) (state_hash s) (System_new_for_replay h0)
      = (Ok tt, r) /\ visible_eq (kernel r) (kernel s).
Proof.
  intros Hok Hrep Hrun Hn.
  destruct (run_replays evs h h0 s Hok Hrep Hrun Hn) as (es & bt & r & Hh & _ & R & S').
  apply sim_visible in S' as Hv. exists r. split; [|done]. unfold replay_and_verify.
  rewrite (replay_history _ _ _ _ Hh), R.
  assert (state_hash r = state_hash s) as Hhash by (simpl; by rewrite Hv).
  by rewrite bool_decide_eq_true_2.
Qed.

(** The exception to faithful replay. After a kill the live kernel has no
    trace of the process; replaying the log succeeds but leaves the process as a
    zombie that still holds all its capabilities. *)
Theorem replay_kill_diverges evs (h h0 : H) s pid :
  Forall event_ok evs -> replayable_run (System_new h) evs = true ->
  sys_run (System_new h) evs = Some s -> is_Some (processes (kernel s) !! pid) ->
  32 * len evs + len (owned pid (kabs (kernel s))) + 2 <= MAX_COMMITLOG_ENTRIES ->
  let s' := sys_kill_process pid s in
  processes (kernel s') !! pid = None /\ cap_spaces (kernel s') !! pid = None /\
  exists r p cs, replay (commits (commitlog (axiom s'))) (System_new_for_replay h0) = (Ok tt, r) /\
    processes (kernel r) !! pid = Some p /\ proc_state p = Zombie /\
    cap_spaces (kernel r) !! pid = Some cs /\ cap_spaces (kernel s) !! pid = Some cs.
Proof.
  intros Hok Hrep Hrun Hp Hn s'. unfold len in Hn.
  assert (32 * len evs < MAX_COMMITLOG_ENTRIES) as Hn' by (unfold len; lia).
  destruct (run_replays evs h h0 s Hok Hrep Hrun Hn') as (es & bt & r & Hh & Hes & R & S').
  destruct (run_kwf evs h s Hok Hrun) as [Hwf _];
    [unfold max_steps, MAX_COMMITLOG_ENTRIES in *; lia|].
  destruct (sys_kill_exact pid s Hp) as [Hk [t Hlog]]. fold s' in Hk, Hlog.
  assert (ka_procs (kabs (kernel s')) !! pid = None) as Hnone by (rewrite Hk; apply lookup_delete_eq).
  assert (ka_caps (kabs (kernel s')) !! pid = None) as Hcnone by (rewrite Hk; apply lookup_delete_eq).
  split_and!; [|done|].
  { apply eq_None_not_Some. rewrite <- kabs_procs_Some, Hnone. by intros [? ?]. }
  destruct (replay_kill _ r pid (owned pid (kabs (kernel s))) S') as (r' & p & R' & Hp' & Hz & Hc);
    [by apply kabs_procs_Some|].
  destruct (proj1 (kc_consistent _ (kw_cons _ Hwf) pid) (proj2 (kabs_procs_Some _ _) Hp)) as [cs Hcs].
  exists r', p, cs. rewrite Hc. split_and!; try done.
  erewrite (replay_history bt (es ++ stamped t (ProcessExited pid (-1) ::
    (EndpointDestroyed <$> owned pid (kabs (kernel s)))))).
  - rewrite !fmap_app, stamped_types. erewrite replay_cts_app by exact R. exact R'.
  - rewrite Hlog. apply (commit_history_appends ((Genesis, None, bt) :: es)); [done|]. unfold len, stamped in *.
    rewrite length_fmap. simpl length. rewrite length_fmap. lia.
Qed.

(** C5: every numeric syscall is audited. It leaves exactly one request and one
    response event with the caller's identity, the arguments and the result, and
    the commits it appends describe the steps the kernel made, in an intact
    chain. *)
Theorem syscall_audited audit es sender num args data s out s' :
  kcons (kabs (kernel s)) -> gateway_view audit es (axiom s) -> len audit < 2 ^ 64 - 2 ->
  process_syscall sender num args data s = Some (out, s') ->
  exists ts cts,
    performs mstep 4 (kabs (kernel s)) cts (kabs (kernel s')) /\
    log_view (audit ++ [mk_SysEvent (len audit) sender ts (Request num args);
                        mk_SysEvent (len audit + 1) sender ts (Response (len audit) out.1.1)])
      (syslog (axiom s')) /\
    (len es + len cts <= MAX_COMMITLOG_ENTRIES ->
       commit_history (es ++ stamped ts cts) (commitlog (axiom s'))).
Proof.
  intros Hc [Hv Hh] Hn E. apply process_syscall_cases in E as (ts & cts & Hp & Hl & Hs); [|done].
  exists ts, cts. split_and!.
  - eapply performs_mono; [|exact Hp]. unfold syscall_step. destruct (lossy_syscall num); [done|].
    apply micro_mstep.
  - destruct (log_view_frame audit (syslog (axiom s)) sender num args ts out.1.1 Hv Hn) as [Hid Hv'].
    by rewrite Hs, Hid.
  - intros Hlen. rewrite Hl. apply commit_history_appends; [done|]. unfold len, stamped in *.
    by rewrite length_fmap.
Qed.

(** Who may kill. A kill request succeeds exactly when the target exists
    and the caller is Init or holds a writable capability for that process; it
    then removes the target, its capabilities and its endpoints and nothing
    else. A refused request changes nothing and records nothing. *)
Theorem kill_authority caller target ts k :
  match kill_process_with_cap_check caller target ts k with
  | ((Ok _, cms), k') =>
      is_Some (processes k !! target) /\ may_kill k caller target /\
      kabs k' = ka_kill target (kabs k) /\
      commit_types cms = ProcessExited target (-1) :: (EndpointDestroyed <$> owned target (kabs k))
  | ((Err e, cms), k') =>
      kabs k' = kabs k /\ cms = [] /\
      ((e = ProcessNotFound /\ processes k !! target = None) \/
       (e = PermissionDenied /\ is_Some (processes k !! target) /\ ~ may_kill k caller target))
  end.
Proof.
  unfold kill_process_with_cap_check.
  destruct (contains_key (processes k) target) eqn:Hc; cbn [negb].
  2:{ split_and!; [done|done|]. left. split; [done|]. by apply contains_key_false. }
  assert (forall msg (P : Prop), P -> match (let '(commits, k') := kill_process target ts (debug msg k) in
      ((@Ok unit KernelError tt, commits), k')) with
    | ((Ok _, cms), k') => is_Some (processes k !! target) /\ P /\ kabs k' = ka_kill target (kabs k) /\
        commit_types cms = ProcessExited target (-1) :: (EndpointDestroyed <$> owned target (kabs k))
    | ((Err _, _), _) => False end) as Hkill.
  { intros msg P HP. destruct (kill_process target ts (debug msg k)) as [cms k'] eqn:E.
    apply kill_process_spec in E as [E1 E2]. rewrite kabs_debug in E1, E2.
    change (processes (debug msg k)) with (processes k) in E2. rewrite Hc in E2.
    split_and!; [by apply contains_key_true|done|done|done]. }
  destruct (Z.eqb_spec caller 1) as [->|Hne].
  - specialize (Hkill ("[kernel] Init (PID 1) killing process PID " +:+ pretty target
      +:+ " (implicit permission)") (may_kill k 1 target) ltac:(by left)).
    by destruct (kill_process _ _ _).
  - destruct (has_kill_permission k caller target) eqn:Hp; cbn [negb].
    + specialize (Hkill ("[kernel] PID " +:+ pretty caller +:+ " killing process PID "
        +:+ pretty target +:+ " (capability verified)") (may_kill k caller target)).
      destruct (kill_process _ _ _). apply Hkill. right. by apply has_kill_permission_true.
    + split_and!; [done|done|]. right. split_and!; [done|by apply contains_key_true|].
      intros [?|Hm%has_kill_permission_true]; [done|congruence].
Qed.

(** C26: capabilities sent in a message move. After the message is sent and
    received, each listed capability is in a fresh slot of the receiver, in the
    order of the list, and in no listed slot of the sender; the sender's other
    slots and the receiver's old slots are as before, and the receiver gets the
    sender's identity, tag and data. *)
Theorem transfer_moves k p1 p2 slot1 slot2 tag data sl cl ts1 ts2 cs1 cs2 eid e :
  p1 <> p2 -> cap_spaces k !! p1 = Some cs1 -> cap_spaces k !! p2 = Some cs2 -> cs_wf cs2 ->
  next_slot cs2 + MAX_CAPS_PER_MESSAGE < 2 ^ 32 ->
  validate_message_limits (len data) (len sl) = Ok tt ->
  validate_send_cap_basic k p1 slot1 = Ok eid -> validate_receive_cap k p2 slot2 ts2 = Ok eid ->
  endpoints k !! eid = Some e -> ep_pending_messages e = [] -> NoDup sl -> caps_at cs1 sl cl ->
  exists cms1 k1 m cms2 k2 cs1' cs2',
    ipc_send_with_caps p1 slot1 tag data sl ts1 k = ((Ok tt, cms1), k1) /\
    ipc_receive_with_caps p2 slot2 ts2 k1 =
      ((Ok (Some (m, seqZ (next_slot cs2) (len sl))), cms2), k2) /\
    msg_from m = p1 /\ msg_tag m = tag /\ msg_data m = data /\
    cap_spaces k2 = <[p2 := cs2']> (<[p1 := cs1']> (cap_spaces k)) /\
    (forall i, slots cs1' !! i = if bool_decide (i ∈ sl) then None else slots cs1 !! i) /\
    caps_at cs2' (seqZ (next_slot cs2) (len sl)) cl /\
    (forall i, i < next_slot cs2 -> slots cs2' !! i = slots cs2 !! i).
Proof.
  intros Hne Hcs1 Hcs2 Hwf Hroom Hlim Hsend Hrecv He Hq Hnd Hcl.
  destruct (send_with_caps_exact p1 slot1 tag data sl ts1 k cs1 cl eid e)
    as (k1 & cs1' & e' & E1 & Hc1 & Hs1 & He1 & _ & Hq1); try done.
  rewrite Hq in Hq1. simpl in Hq1. set (m := mk_Message p1 tag data _) in Hq1.
  assert (len (msg_transferred_caps m) = len sl) as Hlen.
  { unfold len. simpl. rewrite length_fmap. by rewrite (Forall2_length _ _ _ Hcl). }
  assert (len sl <= MAX_CAPS_PER_MESSAGE) as Hmax.
  { unfold validate_message_limits in Hlim. destruct (_ <? _); [done|].
    destruct (Z.ltb_spec MAX_CAPS_PER_MESSAGE (len sl)); [done|lia]. }
  assert (cap_spaces k1 !! p2 = Some cs2) as Hcs2' by (rewrite Hc1, lookup_insert_ne; done).
  destruct (receive_with_caps_exact p2 slot2 ts2 k1 cs2 eid e' m [])
    as (sls & cms & cs2' & k2 & e2 & E2 & Hsls & Hc2 & Hf & Hold & _); try done.
  { unfold validate_receive_cap in *. rewrite Hcs2 in Hrecv. by rewrite Hcs2'. }
  { lia. }
  rewrite Hlen in Hsls. subst sls. eexists _, k1, m, cms, k2, cs1', cs2'.
  split_and!; try done; [by rewrite Hc2, Hc1|].
  simpl in Hf. by rewrite Forall2_fmap_r in Hf.
Qed.

(** One [SYS_RECV] takes two messages off the queue. With two messages
    pending, the caller is handed the second one as the typed result, the bytes
    of the first one as the payload, and any capabilities the first one carried
    are installed nowhere. *)
Theorem recv_takes_two sender slot a1 a2 a3 data s eid e m1 m2 q :
  validate_receive_cap (kernel s) sender slot (uptime_nanos s).1 = Ok eid ->
  endpoints (kernel s) !! eid = Some e -> ep_pending_messages e = m1 :: m2 :: q ->
  msg_transferred_caps m2 = [] ->
  exists s', process_syscall sender SYS_RECV (slot, a1, a2, a3) data s =
      Some ((1, SR_Message m2, serialize_ipc_message m1), s') /\
    ep_pending_messages <$> endpoints (kernel s') !! eid = Some q /\
    cap_spaces (kernel s') = cap_spaces (kernel s).
Proof.
  intros Hval He Hq Hm2. destruct (uptime_nanos s) as [t s1] eqn:Eu.
  destruct (uptime_maps _ _ _ Eu) as (_ & Hc & Hep). cbn [fst] in Hval.
  destruct (receive_exact sender slot t (kernel s1) eid e m1 (m2 :: q)) as (k1 & e1 & E1 & Hc1 & He1 & Hq1);
    [unfold validate_receive_cap in *; by rewrite Hc|by rewrite Hep|done|].
  destruct (receive_exact sender slot t k1 eid e1 m2 q) as (k2 & e2 & E2 & Hc2 & He2 & Hq2);
    [unfold validate_receive_cap in *; by rewrite Hc1, Hc|done|done|].
  destruct (process_syscall_exact sender SYS_RECV (slot, a1, a2, a3) data s t s1 1 []
    (serialize_ipc_message m1) k1 (SR_Message m2)
    (u32_to_le_bytes (wrap_u32 (msg_from m2)) ++ u32_to_le_bytes (msg_tag m2) ++ [byte_of_Z 0] ++
       [] ++ msg_data m2) [] k2 Eu) as (s' & E & Hk & _).
  - unfold execute_syscall_kernel_fn, execute_ipc_syscall. simpl. by rewrite E1.
  - unfold get_syscall_rich_result, format_receive_result, ipc_receive_with_caps. simpl.
    by rewrite E2, Hm2.
  - exists s'. rewrite E, Hk. split; [done|]. by rewrite He2, Hc2, Hc1, Hc, <- Hq2.
Qed.

(** [SYS_CAP_REVOKE] is not guarded. Any caller, whatever capabilities it
    holds and even if it does not exist, deletes any capability of any process. *)
Theorem revoke_needs_no_authority sender target slot a2 a3 data s cs c :
  cap_spaces (kernel s) !! target = Some cs -> slots cs !! slot = Some c ->
  exists s', process_syscall sender SYS_CAP_REVOKE (target, slot, a2, a3) data s =
      Some ((0, SR_Ok 0, []), s') /\
    cap_spaces (kernel s') =
      <[target := mk_CapabilitySpace (delete slot (slots cs)) (next_slot cs)]> (cap_spaces (kernel s)).
Proof.
  intros Hcs Hc. destruct (uptime_nanos s) as [t s1] eqn:Eu.
  destruct (uptime_maps _ _ _ Eu) as (_ & Hcap & _).
  rewrite <- Hcap in Hcs.
  destruct (delete_exact target slot t (kernel s1) cs c Hcs Hc) as (k1 & E1 & Hc1).
  destruct (process_syscall_exact sender SYS_CAP_REVOKE (target, slot, a2, a3) data s t s1 0
    [CapRemoved target slot] [] k1 (SR_Ok 0) [] [] k1 Eu) as (s' & E & Hk & _); [|done|].
  - unfold execute_syscall_kernel_fn, execute_capability_syscall. simpl. by rewrite E1.
  - exists s'. rewrite E, Hk, Hc1, Hcap. done.
Qed.

(** The numbers of the shared ABI and of the dispatcher differ. A process
    that issues [SYS_CREATE_ENDPOINT] is killed, with its capabilities and
    endpoints, and is told that the call succeeded. *)
Theorem create_endpoint_number_kills sender args data s :
  exists s' t cts, process_syscall sender SYS_CREATE_ENDPOINT args data s = Some ((0, SR_Ok 0, []), s') /\
    kabs (kernel s') = ka_kill sender (kabs (kernel s)) /\
    commitlog (axiom s') = appends (stamped t cts) (commitlog (axiom s)) /\
    (is_Some (processes (kernel s) !! sender) ->
     cts = ProcessExited sender (-1) :: (EndpointDestroyed <$> owned sender (kabs (kernel s)))).
Proof.
  destruct (uptime_nanos s) as [t s1] eqn:Eu. destruct (uptime_kabs _ _ _ Eu) as [Hk _].
  destruct (uptime_maps _ _ _ Eu) as (Hp & _).
  destruct (kill_process sender t (kernel s1)) as [cms k1] eqn:E1.
  destruct (kill_process_spec _ _ _ _ _ E1) as [Hk1 Hcms].
  destruct (process_syscall_exact sender SYS_CREATE_ENDPOINT args data s t s1 0 (commit_types cms) [] k1
    (SR_Ok 0) [] [] k1 Eu) as (s' & E & Hk' & Hl & _); [|done|].
  - unfold execute_syscall_kernel_fn, execute_process_syscall, execute_exit. simpl. by rewrite E1.
  - exists s', t, (commit_types cms). rewrite E, Hk', Hk1, Hk. split_and!; [done|done| |].
    + by rewrite Hl, app_nil_r.
    + intros Hs. rewrite Hcms, Hk, Hp, (proj2 (contains_key_true _ _) Hs). done.
Qed.

(** Granting. A grant succeeds exactly when the source slot holds an
    unexpired capability with grant permission and the receiver exists; the
    receiver then gets, in its next slot, a capability for the same object whose
    permissions are the intersection of the source's and the requested ones, and
    nothing else changes. A refused grant changes no process, capability or
    endpoint and records nothing. *)
Theorem grant_attenuates f fs t perms ts k :
  match grant_capability f fs t perms ts k with
  | ((Ok slot, _), k') => exists cs c tcs,
      cap_spaces k !! f = Some cs /\ slots cs !! fs = Some c /\ grant (cap_permissions c) = true /\
      (cap_expires_at c = 0 \/ ts <= cap_expires_at c) /\ cap_spaces k !! t = Some tcs /\
      slot = next_slot tcs /\
      kabs k' = ka_bump_cap (ka_set_cspace t (cs_insert (mk_Capability (next_cap_id k)
        (cap_object_type c) (cap_object_id c) (attenuate_permissions (cap_permissions c) perms)
        (cap_generation c) (cap_expires_at c)) tcs).2 (kabs k))
  | ((Err _, cms), k') => cms = [] /\ (kabs k' = kabs k \/ kabs k' = ka_bump_cap (kabs k)) /\
      (forall cs c, cap_spaces k !! f = Some cs -> slots cs !! fs = Some c ->
         grant (cap_permissions c) = true -> (cap_expires_at c = 0 \/ ts <= cap_expires_at c) ->
         cap_spaces k !! t = None)
  end.
Proof.
  unfold grant_capability, validate_grant_source. destruct (cap_spaces k !! f) as [cs|] eqn:Hcs;
    [|by split_and!; [|left|]].
  destruct (axiom_check cs fs grant_perms None ts) as [c|e] eqn:Hck; simpl.
  - apply ax_axiom_check_Ok in Hck as (Hs & _ & [_ [_ Hg]] & Hx). unfold create_derived_cap. simpl.
    destruct (insert_cap t _ _) as [[slot k']|] eqn:E.
    + apply insert_cap_Some in E as (tcs & Ht & -> & Hk). exists cs, c, tcs.
      split_and!; try done. by apply Hg.
    + split_and!; [done|by right|]. intros _ _ _ _ _ _. unfold insert_cap in E. simpl in E.
      by destruct (cap_spaces k !! t).
  - split_and!; [done|by left|]. intros ? c [= <-] Hs Hg Hx.
    assert (axiom_check cs fs grant_perms None ts = Ok c) as Hok; [|congruence].
    by apply ax_axiom_check_Ok.
Qed.

(** The storage-write syscall hands the platform exactly the key and the
    value of a well-formed payload. *)
Theorem storage_write_decodes sender kb key value k :
  from_utf8 kb = Some key -> len kb < 2 ^ 32 -> 4 + len kb + len value < 2 ^ usize_bits ->
  execute_storage_write sender (encode_prefixed kb value) k =
    Some (let '(r, k') := with_hal (storage_write_async sender key value) k in (async_result r, k')).
Proof.
  intros Hk Hn Hu. unfold execute_storage_write, key_value_request.
  rewrite (parse_encode key) by done. by destruct (with_hal _ k).
Qed.

(** Only a 32-bit [usize] lets a syscall panic. *)
Lemma process_syscall_total sender num args data s :
  32 < usize_bits -> process_syscall sender num args data s <> None.
Proof.
  intros Hw. destruct (uptime_nanos s) as [t s1] eqn:Eu.
  destruct (execute_syscall_kernel_fn num sender args data t (kernel s1)) as [[[[res cts] d] k]|] eqn:Ek;
    [|by apply kernel_fn_total in Ek].
  destruct (get_syscall_rich_result sender num args res t k) as [[[rich md] more] k2] eqn:Er.
  destruct (process_syscall_exact _ _ _ _ _ _ _ _ _ _ _ _ _ _ _ Eu Ek Er) as (s2 & E2 & _).
  by rewrite E2.
Qed.

(** C38: where [usize] is wider than 32 bits no syscall makes the kernel panic,
    whatever its number, arguments and payload. *)
Theorem syscall_never_panics sender num args data s :
  32 < usize_bits -> process_syscall sender num args data s <> None.
Proof. apply process_syscall_total. Qed.

(** Where [usize] has 32 bits, as on the wasm32 target, any process makes
    the kernel panic with a storage write whose length prefix is 2^32 - 1. *)
Theorem storage_write_panics sender args rest s :
  usize_bits = 32 ->
  process_syscall sender SYS_STORAGE_WRITE args ([xff; xff; xff; xff] ++ rest) s = None.
Proof.
  intros Hw. unfold process_syscall. destruct (uptime_nanos s) as [t s1].
  destruct (log_request _ _ _ _ _) as [rid sl]. cbn [set_syslog set_axiom kernel].
  unfold execute_syscall_kernel_fn, execute_storage_syscall, execute_storage_write, key_value_request.
  rewrite (parse_overflow _ rest) by done. reflexivity.
Qed.
End theorems.

(** ** Concrete instances *)
#[local] Existing Instance x86_64.

(** Two processes, an endpoint of the first that the second may write, and a
    message that carries a capability. *)
Definition boot_events : list sevent :=
  [S_register "init"; S_register "app"; S_create_endpoint 1; S_grant 1 0 2 write_only;
   S_create_endpoint 2; S_send_caps 2 0 9 [x01; x02] [1]].

Definition run_test (evs : list sevent) : System TestHal :=
  default (System_new TestHal_new) (sys_run (System_new TestHal_new) evs).

Definition booted : System TestHal := run_test boot_events.

Lemma boot_events_ok : Forall event_ok boot_events.
Proof. repeat constructor. Defined.

Lemma boot_runs : sys_run (System_new TestHal_new) boot_events = Some booted.
Proof. vm_compute. reflexivity. Defined.

Lemma system_invariants_witness : kwf (kabs (kernel booted)).
Proof.
  apply (system_invariants boot_events TestHal_new booted boot_events_ok boot_runs).
  vm_compute. discriminate.
Defined.

Definition after_receive : list sevent := [S_receive_caps 1 0].

Lemma system_no_amplification_witness : authorised (kabs (kernel booted)) (endpoint_cap 3 2).
Proof.
  apply (system_no_amplification boot_events after_receive TestHal_new booted
    (run_test (boot_events ++ after_receive))).
  - repeat constructor.
  - exact boot_runs.
  - vm_compute. reflexivity.
  - reflexivity.
  - vm_compute. discriminate.
  - left. eexists 1, _, 1. split; vm_compute; reflexivity.
Defined.

Lemma replay_faithful_witness :
  exists r, replay_and_verify (commits (commitlog (axiom booted))) (state_hash booted)
    (System_new_for_replay TestHal_new) = (Ok tt, r) /\ visible_eq (kernel r) (kernel booted).
Proof.
  apply (replay_faithful boot_events TestHal_new TestHal_new booted boot_events_ok).
  - vm_compute. reflexivity.
  - exact boot_runs.
  - vm_compute. reflexivity.
Defined.

Lemma replay_kill_diverges_witness :
  processes (kernel (sys_kill_process 2 booted)) !! 2 = None /\
  exists r p, replay (commits (commitlog (axiom (sys_kill_process 2 booted))))
    (System_new_for_replay TestHal_new) = (Ok tt, r) /\ processes (kernel r) !! 2 = Some p.
Proof.
  destruct (replay_kill_diverges boot_events TestHal_new TestHal_new booted 2 boot_events_ok)
    as (H1 & _ & r & p & cs & H2 & H3 & _).
  - vm_compute. reflexivity.
  - exact boot_runs.
  - vm_compute. eexists. reflexivity.
  - vm_compute. discriminate.
  - split; [exact H1|]. exists r, p. split; [exact H2|exact H3].
Defined.

Lemma syscall_audited_witness :
  match process_syscall 1 SYS_PS (0, 0, 0, 0) [] (System_new TestHal_new) with
  | Some (out, s') => exists ts, log_view
      [mk_SysEvent 0 1 ts (Request SYS_PS (0, 0, 0, 0)); mk_SysEvent 1 1 ts (Response 0 out.1.1)]
      (syslog (axiom s'))
  | None => False
  end.
Proof.
  destruct (process_syscall 1 SYS_PS (0, 0, 0, 0) [] (System_new TestHal_new)) as [[out s']|] eqn:E.
  - destruct (syscall_audited [] [(Genesis, None, 0)] 1 SYS_PS (0, 0, 0, 0) []
      (System_new TestHal_new) out s') as (ts & cts & _ & Hl & _).
    + apply kw_cons; exact (proj1 (System_new_kwf TestHal_new)).
    + exact (gateway_view_new 0).
    + vm_compute. reflexivity.
    + exact E.
    + exists ts. exact Hl.
  - vm_compute in E. discriminate.
Defined.

(** The same system before the message is sent. *)
Definition idle_events : list sevent := take 5 boot_events.
Definition idle : System TestHal := run_test idle_events.

Lemma idle_kwf : kwf (kabs (kernel idle)).
Proof.
  refine (proj1 (run_kwf idle_events TestHal_new idle _ _ _)).
  - repeat constructor.
  - vm_compute. reflexivity.
  - vm_compute. discriminate.
Qed.

Definition cspace_of (s : System TestHal) (pid : ProcessId) : CapabilitySpace :=
  default CapabilitySpace_new (cap_spaces (kernel s) !! pid).

Lemma transfer_moves_witness :
  exists cms1 k1 m cms2 k2 cs2',
    ipc_send_with_caps 2 0 9 [x01] [1] 0 (kernel idle) = ((Ok tt, cms1), k1) /\
    ipc_receive_with_caps 1 0 0 k1 =
      ((Ok (Some (m, seqZ (next_slot (cspace_of idle 1)) (len [1]))), cms2), k2) /\
    caps_at cs2' (seqZ (next_slot (cspace_of idle 1)) (len [1])) [endpoint_cap 3 2].
Proof.
  destruct (transfer_moves (kernel idle) 2 1 0 0 9 [x01] [1] [endpoint_cap 3 2] 0 0 (cspace_of idle 2)
    (cspace_of idle 1) 1 (default (mk_Endpoint 0 0 [] EndpointMetrics_default) (endpoints (kernel idle) !! 1)))
    as (cms1 & k1 & m & cms2 & k2 & cs1' & cs2' & E1 & E2 & _ & _ & _ & _ & _ & Hc & _).
  - discriminate.
  - vm_compute. reflexivity.
  - vm_compute. reflexivity.
  - apply (kw_slots _ idle_kwf 1). vm_compute. reflexivity.
  - vm_compute. reflexivity.
  - reflexivity.
  - vm_compute. reflexivity.
  - vm_compute. reflexivity.
  - vm_compute. reflexivity.
  - vm_compute. reflexivity.
  - repeat constructor. apply not_elem_of_nil.
  - constructor; [vm_compute; reflexivity|constructor].
  - exists cms1, k1, m, cms2, k2, cs2'. exact (conj E1 (conj E2 Hc)).
Defined.

(** Two messages are pending at Init's endpoint, the first one with a capability. *)
Definition pending : System TestHal := run_test (boot_events ++ [S_send 2 0 10 [x03]]).

Lemma recv_takes_two_witness :
  exists m1 m2 s', process_syscall 1 SYS_RECV (0, 0, 0, 0) [] pending =
      Some ((1, SR_Message m2, serialize_ipc_message m1), s') /\
    len (msg_transferred_caps m1) = 1 /\ cap_spaces (kernel s') = cap_spaces (kernel pending).
Proof.
  destruct (recv_takes_two 1 0 0 0 0 [] pending 1
    (default (mk_Endpoint 0 0 [] EndpointMetrics_default) (endpoints (kernel pending) !! 1))
    (mk_Message 2 9 [x01; x02] [mk_TransferredCap (endpoint_cap 3 2) None]) (mk_Message 2 10 [x03] []) [])
    as (s' & E & _ & Hc).
  - vm_compute. reflexivity.
  - vm_compute. reflexivity.
  - vm_compute. reflexivity.
  - reflexivity.
  - eexists _, _, s'. refine (conj E (conj _ Hc)). reflexivity.
Defined.

(** Process 7 does not exist. *)
Lemma revoke_needs_no_authority_witness :
  exists s', process_syscall 7 SYS_CAP_REVOKE (1, 0, 0, 0) [] booted = Some ((0, SR_Ok 0, []), s') /\
    processes (kernel booted) !! 7 = None.
Proof.
  destruct (revoke_needs_no_authority 7 1 0 0 0 [] booted (cspace_of booted 1) (endpoint_cap 1 1))
    as (s' & E & _).
  - vm_compute. reflexivity.
  - vm_compute. reflexivity.
  - exists s'. split; [exact E|vm_compute; reflexivity].
Defined.

Lemma storage_write_decodes_witness :
  execute_storage_write 1 (encode_prefixed [x6b] [x01; x02]) (kernel idle) =
    Some ((-1, []), kernel idle).
Proof.
  rewrite (storage_write_decodes 1 [x6b] "k" [x01; x02]).
  - vm_compute. reflexivity.
  - reflexivity.
  - reflexivity.
  - reflexivity.
Defined.

Lemma syscall_never_panics_witness :
  process_syscall 1 SYS_STORAGE_WRITE (0, 0, 0, 0) [xff; xff; xff; xff] idle <> None.
Proof. apply syscall_never_panics. reflexivity. Defined.

Lemma storage_write_panics_witness :
  process_syscall (H := TestHal) (H1 := wasm32) 2 SYS_STORAGE_WRITE (0, 0, 0, 0) [xff; xff; xff; xff]
    (System_new TestHal_new) = None.
Proof. apply (storage_write_panics (H1 := wasm32) 2 (0, 0, 0, 0) []). reflexivity. Defined.
