(* ===== verification/BlockStorage.v ===== *)
(** * Block storage (crates/zos-hal/src/x86_64/storage.rs, virtio/blk_pci.rs)

    A key-value store on a block device: sector 0 holds a checksummed
    superblock, the following sectors a log of entries, and an index from keys
    to sectors is kept in memory and rebuilt at start. The VirtIO queue and the
    device behind it are the class [VirtioBlock]; the driver's checks and its
    mapping of completions to errors are modelled. Values of [u32] fields are
    written little-endian, as the target does. Progress lines on the serial port are
    left out. *)
From S2P Require Import Prelude StrLib.

(** ** Driver *)
Inductive VirtioError : Type :=
| VE_DeviceNotFound | VE_InvalidMagic | VE_UnsupportedVersion | VE_QueueNotAvailable
| VE_QueueAlreadyUsed | VE_OutOfMemory | VE_ConfigFailed | VE_FeatureNegotiationFailed
| VE_IoError | VE_Timeout | VE_BufferTooSmall | VE_InvalidArgument.

Inductive BlockStatus : Type := BS_Ok | BS_IoErr | BS_Unsupported.

#[export] Instance VirtioError_eq_dec : EqDecision VirtioError.
Proof. solve_decision. Defined.

(** A request is put on the queue and its completion awaited: the result is the
    status byte, with the bytes the device has put in the buffer of a read, or
    an error of the queue or a timeout. *)
Class VirtioBlock (D : Type) : Type := {
  submit_in : Z -> Z -> D -> result (BlockStatus * list byte) VirtioError * D;
  submit_out : Z -> list byte -> D -> result BlockStatus VirtioError * D;
  submit_flush : D -> result BlockStatus VirtioError * D }.

Definition SECTOR_SIZE : Z := 512.

Record VirtioBlkPci (D : Type) : Type := mk_VirtioBlkPci { transport : D; capacity : Z }.
Arguments mk_VirtioBlkPci {D}.
Arguments transport {D}.
Arguments capacity {D}.

(** The global [Mutex<Option<VirtioBlkPci>>]. *)
Abbreviation Blk D := (option (VirtioBlkPci D)) (only parsing).

Definition wait_for_completion (status : BlockStatus) : result unit VirtioError :=
  match status with
  | BS_Ok => Ok tt
  | BS_IoErr => Err VE_IoError
  | BS_Unsupported => Err VE_InvalidArgument
  end.

(** The argument checks of [read_async] and [write_async]. *)
Definition bad_request (cap sector n : Z) : bool :=
  (cap <=? sector) || negb (n mod SECTOR_SIZE =? 0) || (n =? 0).

Section driver.
Context {D : Type} `{VirtioBlock D}.

Definition blk_is_initialized (b : Blk D) : bool :=
  match b with Some _ => true | None => false end.

(** [read_sectors(sector, buffer)] with a buffer of [n] bytes. *)
Definition read_sectors (sector n : Z) (b : Blk D) : result (list byte) VirtioError * Blk D :=
  match b with
  | None => (Err VE_DeviceNotFound, b)
  | Some dev =>
      if bad_request (capacity dev) sector n then (Err VE_InvalidArgument, b)
      else
        let '(r, t) := submit_in sector n (transport dev) in
        (match r with
         | Err e => Err e
         | Ok (status, data) => result_map (fun _ => data) (wait_for_completion status)
         end, Some (mk_VirtioBlkPci t (capacity dev)))
  end.

Definition write_sectors (sector : Z) (buffer : list byte) (b : Blk D)
  : result unit VirtioError * Blk D :=
  match b with
  | None => (Err VE_DeviceNotFound, b)
  | Some dev =>
      if bad_request (capacity dev) sector (len buffer) then (Err VE_InvalidArgument, b)
      else
        let '(r, t) := submit_out sector buffer (transport dev) in
        (match r with Err e => Err e | Ok status => wait_for_completion status end,
         Some (mk_VirtioBlkPci t (capacity dev)))
  end.

Definition flush_device (b : Blk D) : result unit VirtioError * Blk D :=
  match b with
  | None => (Err VE_DeviceNotFound, b)
  | Some dev =>
      let '(r, t) := submit_flush (transport dev) in
      (match r with Err e => Err e | Ok status => wait_for_completion status end,
       Some (mk_VirtioBlkPci t (capacity dev)))
  end.

Definition capacity_bytes (b : Blk D) : option Z :=
  (fun dev => u64_mul (capacity dev) SECTOR_SIZE) <$> b.
End driver.

(** ** On-disk structures *)
Definition SUPERBLOCK_MAGIC : Z := 0x5A4F5300.
Definition ENTRY_MAGIC : Z := 0x5A4F5345.
Definition STORAGE_VERSION : Z := 1.
Definition FLAG_VALID : Z := 1.
Definition FLAG_DELETED : Z := 0.
Definition MAX_KEY_LEN : Z := 256.
Definition MAX_VALUE_LEN : Z := 64 * 1024.
Definition ENTRY_HEADER_SIZE : Z := 16.

Record Superblock : Type := mk_Superblock {
  sb_magic : Z;
  sb_version : Z;
  sb_entry_count : Z;
  sb_next_free_sector : Z;
  sb_reserved : list Z;
  sb_checksum : Z }.

Definition zero_reserved : list Z := replicate 123 0.

(** The bytes the checksum covers: all but the last field. *)
Definition sb_body (sb : Superblock) : list byte :=
  u32_to_le_bytes (sb_magic sb) ++ u32_to_le_bytes (sb_version sb)
  ++ u32_to_le_bytes (sb_entry_count sb) ++ u32_to_le_bytes (sb_next_free_sector sb)
  ++ mjoin (map u32_to_le_bytes (sb_reserved sb)).

Definition byte_sum (l : list byte) : Z :=
  fold_left (fun sum b => u32_add sum (Z_of_byte b)) l 0.

Definition update_checksum (sb : Superblock) : Superblock :=
  mk_Superblock (sb_magic sb) (sb_version sb) (sb_entry_count sb) (sb_next_free_sector sb)
    (sb_reserved sb) (byte_sum (sb_body sb)).

Definition Superblock_new : Superblock :=
  update_checksum (mk_Superblock SUPERBLOCK_MAGIC STORAGE_VERSION 0 1 zero_reserved 0).

Definition verify_checksum (sb : Superblock) : bool := byte_sum (sb_body sb) =? sb_checksum sb.

Definition sb_is_valid (sb : Superblock) : bool :=
  (sb_magic sb =? SUPERBLOCK_MAGIC) && (sb_version sb =? STORAGE_VERSION) && verify_checksum sb.

Definition sb_to_bytes (sb : Superblock) : list byte := sb_body sb ++ u32_to_le_bytes (sb_checksum sb).

(** The [i]-th 32-bit word of a buffer. *)
Definition word_at (i : nat) (l : list byte) : Z := from_le_bytes (take 4 (drop (4 * i) l)).

Definition sb_from_bytes (l : list byte) : Superblock :=
  mk_Superblock (word_at 0 l) (word_at 1 l) (word_at 2 l) (word_at 3 l)
    (map (fun i => word_at (4 + i) l) (seq 0 123)) (word_at 127 l).

Record EntryHeader : Type := mk_EntryHeader {
  eh_magic : Z;
  eh_flags : Z;
  eh_key_len : Z;
  eh_value_len : Z }.

Definition EntryHeader_new (key_len value_len : Z) : EntryHeader :=
  mk_EntryHeader ENTRY_MAGIC FLAG_VALID key_len value_len.

Definition eh_is_valid (h : EntryHeader) : bool :=
  (eh_magic h =? ENTRY_MAGIC) && (eh_flags h =? FLAG_VALID).

Definition total_size (h : EntryHeader) : Z := ENTRY_HEADER_SIZE + eh_key_len h + eh_value_len h.

Definition sectors_needed (h : EntryHeader) : Z :=
  wrap_u32 ((total_size h + SECTOR_SIZE - 1) / SECTOR_SIZE).

(** Reading and writing the header in place at the start of a buffer. *)
Definition header_bytes (h : EntryHeader) : list byte :=
  u32_to_le_bytes (eh_magic h) ++ u32_to_le_bytes (eh_flags h)
  ++ u32_to_le_bytes (eh_key_len h) ++ u32_to_le_bytes (eh_value_len h).

Definition read_header (l : list byte) : EntryHeader :=
  mk_EntryHeader (word_at 0 l) (word_at 1 l) (word_at 2 l) (word_at 3 l).

Definition write_header (h : EntryHeader) (l : list byte) : list byte :=
  header_bytes h ++ drop 16 l.

(** [buffer[lo..lo + n].copy_from_slice(src)] with [n] the length of [src]. *)
Definition copy_at (lo : Z) (src buffer : list byte) : list byte :=
  take (Z.to_nat lo) buffer ++ src ++ drop (Z.to_nat lo + length src) buffer.

(** [buffer[lo..hi]], within bounds at every use. *)
Definition sub_slice (lo hi : Z) (l : list byte) : list byte :=
  take (Z.to_nat (hi - lo)) (drop (Z.to_nat lo) l).

Record IndexEntry : Type := mk_IndexEntry { ie_sector : Z; ie_num_sectors : Z; ie_value_len : Z }.

#[export] Instance IndexEntry_eq_dec : EqDecision IndexEntry.
Proof. solve_decision. Defined.

Record BlockStorage : Type := mk_BlockStorage {
  bs_index : gmap string IndexEntry;
  bs_superblock : Superblock;
  bs_initialized : bool }.

Definition BlockStorage_new : BlockStorage :=
  mk_BlockStorage ∅ (mk_Superblock 0 0 0 1 zero_reserved 0) false.

Definition set_index (i : gmap string IndexEntry) (s : BlockStorage) : BlockStorage :=
  mk_BlockStorage i (bs_superblock s) (bs_initialized s).

Definition set_superblock (sb : Superblock) (s : BlockStorage) : BlockStorage :=
  mk_BlockStorage (bs_index s) sb (bs_initialized s).

Definition set_counts (entry_count next_free : Z) (sb : Superblock) : Superblock :=
  mk_Superblock (sb_magic sb) (sb_version sb) entry_count next_free (sb_reserved sb) (sb_checksum sb).

(** ** Operations

    A method on [&mut self] that uses the global device and may fail: the state
    reached is kept on errors. *)
Section storage.
Context {D : Type} `{VirtioBlock D}.

Definition IO (T : Type) : Type :=
  BlockStorage * Blk D -> result T VirtioError * (BlockStorage * Blk D).

Definition io_ret {T} (x : T) : IO T := fun s => (Ok x, s).

Definition io_err {T} (e : VirtioError) : IO T := fun s => (Err e, s).

Definition io_bind {T U} (c : IO T) (k : T -> IO U) : IO U :=
  fun s => match c s with (Ok x, s') => k x s' | (Err e, s') => (Err e, s') end.

Definition io_get : IO BlockStorage := fun s => (Ok s.1, s).

Definition io_modify (f : BlockStorage -> BlockStorage) : IO unit :=
  fun s => (Ok tt, (f s.1, s.2)).

(** A call of the driver. *)
Definition io_dev {T} (f : Blk D -> result T VirtioError * Blk D) : IO T :=
  fun s => let '(r, b) := f s.2 in (r, (s.1, b)).

Definition io_is_initialized : IO bool := fun s => (Ok (blk_is_initialized s.2), s).

Definition io_capacity : IO Z :=
  fun s => (ok_or (capacity_bytes s.2) VE_DeviceNotFound, s).

Notation "'let!' x := c 'in' k" := (io_bind c (fun x => k))
  (at level 10, x binder, c at level 99, k at level 200).

Notation "c ;;; k" := (io_bind c (fun _ => k)) (at level 100, right associativity).

Definition write_superblock : IO unit :=
  io_modify (fun s => set_superblock (update_checksum (bs_superblock s)) s) ;;;
  let! s := io_get in
  io_dev (write_sectors 0 (sb_to_bytes (bs_superblock s))) ;;;
  io_dev flush_device.

(** The bytes of the key of the entry whose first sector is [sector_buf]. *)
Definition load_key (sector : Z) (header : EntryHeader) (sector_buf : list byte) : IO (list byte) :=
  let key_end := ENTRY_HEADER_SIZE + eh_key_len header in
  if key_end <=? SECTOR_SIZE then io_ret (sub_slice ENTRY_HEADER_SIZE key_end sector_buf)
  else
    let total_bytes := sectors_needed header * SECTOR_SIZE in
    let! entry_buf := io_dev (read_sectors sector total_bytes) in
    io_ret (sub_slice ENTRY_HEADER_SIZE (Z.min key_end total_bytes) entry_buf).

(** The scan of [load_index]; each entry takes a sector or more, so the number of
    sectors suffices as fuel. *)
Fixpoint load_loop (fuel : nat) (sector max_sector : Z) : IO unit :=
  match fuel with
  | O => io_ret tt
  | S fuel' =>
      if max_sector <=? sector then io_ret tt
      else
        let! sector_buf := io_dev (read_sectors sector SECTOR_SIZE) in
        let header := read_header sector_buf in
        if negb (eh_magic header =? ENTRY_MAGIC) then io_ret tt
        else
          let entry_sectors := sectors_needed header in
          (if eh_is_valid header then
             let! key_slice := load_key sector header sector_buf in
             match from_utf8 key_slice with
             | Some key =>
                 io_modify (fun s => set_index
                   (<[key := mk_IndexEntry (wrap_u32 sector) entry_sectors (eh_value_len header)]>
                      (bs_index s)) s)
             | None => io_ret tt
             end
           else io_ret tt) ;;;
          load_loop fuel' (sector + entry_sectors) max_sector
  end.

Definition load_index : IO unit :=
  io_modify (set_index ∅) ;;;
  let! s := io_get in
  let max_sector := sb_next_free_sector (bs_superblock s) in
  load_loop (Z.to_nat max_sector) 1 max_sector.

Definition set_initialized (s : BlockStorage) : BlockStorage :=
  mk_BlockStorage (bs_index s) (bs_superblock s) true.

(** [init]: [true] if the store was newly formatted. *)
Definition init : IO bool :=
  let! ready := io_is_initialized in
  if negb ready then io_err VE_DeviceNotFound
  else
    let! sector_buf := io_dev (read_sectors 0 SECTOR_SIZE) in
    let sb := sb_from_bytes sector_buf in
    if sb_is_valid sb then
      io_modify (set_superblock sb) ;;; load_index ;;; io_modify set_initialized ;;; io_ret false
    else
      io_modify (set_superblock Superblock_new) ;;; write_superblock ;;;
      io_modify (set_index ∅) ;;; io_modify set_initialized ;;; io_ret true.

Definition bs_exists (key : string) (s : BlockStorage) : bool :=
  bool_decide (is_Some (bs_index s !! key)).

Definition bs_read (key : string) : IO (option (list byte)) :=
  let! s := io_get in
  match bs_index s !! key with
  | None => io_ret None
  | Some entry =>
      let! buffer := io_dev (read_sectors (ie_sector entry) (ie_num_sectors entry * SECTOR_SIZE)) in
      let header := read_header buffer in
      if negb (eh_is_valid header) then io_ret None
      else
        let value_start := ENTRY_HEADER_SIZE + eh_key_len header in
        let value_end := value_start + eh_value_len header in
        if value_end <=? len buffer then io_ret (Some (sub_slice value_start value_end buffer))
        else io_err VE_IoError
  end.

Definition bs_delete (key : string) : IO bool :=
  let! s := io_get in
  match bs_index s !! key with
  | None => io_ret false
  | Some entry =>
      io_modify (fun s => set_index (delete key (bs_index s)) s) ;;;
      let! sector_buf := io_dev (read_sectors (ie_sector entry) SECTOR_SIZE) in
      let h := read_header sector_buf in
      let header := mk_EntryHeader (eh_magic h) FLAG_DELETED (eh_key_len h) (eh_value_len h) in
      io_dev (write_sectors (ie_sector entry) (write_header header sector_buf)) ;;;
      io_modify (fun s =>
        let sb := bs_superblock s in
        set_superblock (set_counts (sat_sub (sb_entry_count sb) 1) (sb_next_free_sector sb) sb) s) ;;;
      write_superblock ;;;
      io_ret true
  end.

(** The loop of [compact]: every entry of the index, in key order, is copied to
    the next free sector. *)
Fixpoint compact_loop (entries : list (string * IndexEntry)) (max_sectors next_sector : Z)
    (new_index : gmap string IndexEntry) : IO (Z * gmap string IndexEntry) :=
  match entries with
  | [] => io_ret (next_sector, new_index)
  | (key, entry) :: rest =>
      let! buffer := io_dev (read_sectors (ie_sector entry) (ie_num_sectors entry * SECTOR_SIZE)) in
      if negb (eh_is_valid (read_header buffer)) then compact_loop rest max_sectors next_sector new_index
      else if max_sectors <? u32_add next_sector (ie_num_sectors entry) then io_err VE_OutOfMemory
      else
        io_dev (write_sectors next_sector buffer) ;;;
        compact_loop rest max_sectors (u32_add next_sector (ie_num_sectors entry))
          (<[key := mk_IndexEntry next_sector (ie_num_sectors entry) (ie_value_len entry)]> new_index)
  end.

Definition compact : IO unit :=
  let! s := io_get in
  if negb (bs_initialized s) then io_err VE_InvalidArgument
  else
    let! cap := io_capacity in
    let max_sectors := wrap_u32 (cap / SECTOR_SIZE) in
    let! p := compact_loop (sbtree_iter (bs_index s)) max_sectors 1 ∅ in
    io_modify (fun s =>
      set_superblock (set_counts (wrap_u32 (Z.of_nat (size p.2))) p.1 (bs_superblock s))
        (set_index p.2 s)) ;;;
    write_superblock.

(** [next_free_sector + entry_sectors > max_sectors]. *)
Definition no_room (entry_sectors max_sectors : Z) (s : BlockStorage) : bool :=
  max_sectors <? u32_add (sb_next_free_sector (bs_superblock s)) entry_sectors.

Definition entry_buffer (header : EntryHeader) (key : string) (value : list byte) : list byte :=
  let buffer := replicate (Z.to_nat (sectors_needed header * SECTOR_SIZE)) x00 in
  let buffer := write_header header buffer in
  let buffer := copy_at ENTRY_HEADER_SIZE (str_bytes key) buffer in
  copy_at (ENTRY_HEADER_SIZE + str_len key) value buffer.

Definition bs_write (key : string) (value : list byte) : IO unit :=
  if (MAX_KEY_LEN <? str_len key) || (MAX_VALUE_LEN <? len value) then io_err VE_InvalidArgument
  else
    let! s := io_get in
    (if bs_exists key s then bs_delete key ;;; io_ret tt else io_ret tt) ;;;
    let header := EntryHeader_new (wrap_u32 (str_len key)) (wrap_u32 (len value)) in
    let entry_sectors := sectors_needed header in
    let! cap := io_capacity in
    let max_sectors := wrap_u32 (cap / SECTOR_SIZE) in
    let! s := io_get in
    (if no_room entry_sectors max_sectors s then
       compact ;;;
       let! s := io_get in
       if no_room entry_sectors max_sectors s then io_err VE_OutOfMemory else io_ret tt
     else io_ret tt) ;;;
    let! s := io_get in
    let sector := sb_next_free_sector (bs_superblock s) in
    io_dev (write_sectors sector (entry_buffer header key value)) ;;;
    io_modify (fun s =>
      let sb := bs_superblock s in
      set_superblock
        (set_counts (u32_add (sb_entry_count sb) 1) (u32_add (sb_next_free_sector sb) entry_sectors) sb)
        (set_index (<[key := mk_IndexEntry sector entry_sectors (wrap_u32 (len value))]> (bs_index s)) s)) ;;;
    write_superblock.

Definition bs_list (prefix : string) (s : BlockStorage) : list string :=
  filter (fun k => starts_with prefix k) (sbtree_keys (bs_index s)).

Definition bs_count (s : BlockStorage) : Z := Z.of_nat (size (bs_index s)).

Definition bs_clear : IO unit :=
  io_modify (fun s => set_index ∅ (set_superblock Superblock_new s)) ;;;
  write_superblock.
End storage.
