(* ===== verification/BlockLog.v ===== *)
(** * Disks, log layout and a crash logic for the block store

    What the block store relies on from a block device (each sector is written
    entirely or not at all), the layout of the entry log on the sectors, and the
    judgement [exec], which follows a computation through success, error and
    power failure. *)
From S2P Require Import Prelude StrLib BlockStorage.

Abbreviation sectors_t := (Z -> list byte) (only parsing).

(** The bytes of [n] sectors from [s]. *)
Definition read_region (f : sectors_t) (s : Z) (n : nat) : list byte :=
  mjoin (map (fun i => f (s + Z.of_nat i)) (seq 0 n)).

(** Sector [i] of a buffer. *)
Definition chunk (i : Z) (buf : list byte) : list byte := take 512 (drop (Z.to_nat (512 * i)) buf).

Definition in_run (s : Z) (n : nat) (t : Z) : Prop := s <= t < s + Z.of_nat n.

#[export] Instance in_run_dec s n t : Decision (in_run s n t).
Proof. unfold in_run. apply _. Defined.

(** Laws of a block device: a completed request has done its work, a failed one
    has written some of its sectors, and a healthy device completes requests
    within its capacity. *)
Class DiskLaws (D : Type) `{VirtioBlock D} : Type := {
  disk : D -> Z -> list byte;
  healthy : Z -> D -> Prop;
  disk_len : forall d t, length (disk d t) = 512%nat;
  in_law : forall s (n : nat) d r d',
    submit_in s (Z.of_nat n * SECTOR_SIZE) d = (r, d') ->
    (forall t, disk d' t = disk d t) /\
    (forall data, r = Ok (BS_Ok, data) -> data = read_region (disk d) s n);
  out_law : forall s (n : nat) buf d r d',
    length buf = (512 * n)%nat -> submit_out s buf d = (r, d') ->
    (forall t, disk d' t = disk d t \/ in_run s n t /\ disk d' t = chunk (t - s) buf) /\
    (r = Ok BS_Ok -> forall t, in_run s n t -> disk d' t = chunk (t - s) buf);
  flush_law : forall d r d', submit_flush d = (r, d') -> forall t, disk d' t = disk d t;
  healthy_in : forall cap s (n : nat) d r d',
    healthy cap d -> 0 <= s -> s + Z.of_nat n <= cap ->
    submit_in s (Z.of_nat n * SECTOR_SIZE) d = (r, d') ->
    healthy cap d' /\ exists data, r = Ok (BS_Ok, data);
  healthy_out : forall cap s (n : nat) buf d r d',
    healthy cap d -> 0 <= s -> s + Z.of_nat n <= cap -> length buf = (512 * n)%nat ->
    submit_out s buf d = (r, d') -> healthy cap d' /\ r = Ok BS_Ok;
  healthy_flush : forall cap d r d',
    healthy cap d -> submit_flush d = (r, d') -> healthy cap d' /\ r = Ok BS_Ok }.

(** ** A disk in memory that can lose power

    [rd_budget] counts the sectors that can still be written; when it runs out
    the request fails and later sectors keep their contents. *)
Record RamDisk : Type := mk_RamDisk {
  rd_sectors : gmap Z (list byte);
  rd_capacity : Z;
  rd_budget : option nat }.

Definition blank_sector : list byte := replicate 512 x00.

Definition rd_sector (d : RamDisk) (t : Z) : list byte :=
  match rd_sectors d !! t with
  | Some l => if decide (length l = 512%nat) then l else blank_sector
  | None => blank_sector
  end.

Fixpoint rd_store (s : Z) (n : nat) (buf : list byte) (m : gmap Z (list byte)) : gmap Z (list byte) :=
  match n with
  | O => m
  | S n' => <[s := take 512 buf]> (rd_store (s + 1) n' (drop 512 buf) m)
  end.

Definition rd_write_count (n : nat) (budget : option nat) : nat :=
  match budget with Some k => Nat.min k n | None => n end.

#[export] Instance RamDisk_VirtioBlock : VirtioBlock RamDisk := {|
  submit_in := fun s n d =>
    if rd_capacity d <? s + n / 512 then (Ok (BS_IoErr, []), d)
    else (Ok (BS_Ok, read_region (rd_sector d) s (Z.to_nat (n / 512))), d);
  submit_out := fun s buf d =>
    let n := Z.to_nat (len buf / 512) in
    if rd_capacity d <? s + Z.of_nat n then (Ok BS_IoErr, d)
    else
      let k := rd_write_count n (rd_budget d) in
      (Ok (if (k <? n)%nat then BS_IoErr else BS_Ok),
       mk_RamDisk (rd_store s k buf (rd_sectors d)) (rd_capacity d)
         ((fun b => (b - k)%nat) <$> rd_budget d));
  submit_flush := fun d => (Ok BS_Ok, d) |}.

(** ** Lemmas on regions *)
Lemma read_region_S f s n : read_region f s (S n) = f s ++ read_region f (s + 1) n.
Proof.
  unfold read_region. simpl. rewrite Z.add_0_r. f_equal. f_equal.
  rewrite <- seq_shift, map_map. apply map_ext. intros i. f_equal. lia.
Qed.

Lemma read_region_ext f g s n :
  (forall t, in_run s n t -> f t = g t) -> read_region f s n = read_region g s n.
Proof.
  revert s. induction n as [|n IH]; intros s Hfg; [done|]. rewrite !read_region_S. f_equal.
  - apply Hfg. unfold in_run. lia.
  - apply IH. intros t Ht. apply Hfg. unfold in_run in *. lia.
Qed.

Lemma length_read_region f s n :
  (forall t, length (f t) = 512%nat) -> length (read_region f s n) = (512 * n)%nat.
Proof.
  intros Hf. revert s. induction n as [|n IH]; intros s; [done|].
  rewrite read_region_S, length_app, Hf, IH. lia.
Qed.

(** Reading back a buffer stored sector by sector. *)
Lemma read_region_chunks f s n buf :
  length buf = (512 * n)%nat -> (forall t, in_run s n t -> f t = chunk (t - s) buf) ->
  read_region f s n = buf.
Proof.
  revert s buf. induction n as [|n IH]; intros s buf Hl Hf.
  { symmetry. apply nil_length_inv. lia. }
  rewrite read_region_S. rewrite (IH (s + 1) (drop 512 buf)).
  - rewrite (Hf s) by (unfold in_run; lia). unfold chunk.
    replace (512 * (s - s)) with 0 by lia. by rewrite drop_0, take_drop.
  - rewrite length_drop. lia.
  - intros t Ht. rewrite Hf by (unfold in_run in *; lia). unfold chunk. rewrite drop_drop.
    do 2 f_equal. unfold in_run in Ht. lia.
Qed.

Lemma rd_store_lookup s n buf m t :
  rd_store s n buf m !! t
  = if decide (in_run s n t) then Some (chunk (t - s) buf) else m !! t.
Proof.
  revert s buf. induction n as [|n IH]; intros s buf; simpl.
  { case_decide; [unfold in_run in *; lia|done]. }
  destruct (decide (t = s)) as [->|Hne].
  - rewrite lookup_insert_eq. rewrite decide_True by (unfold in_run; lia).
    unfold chunk. replace (512 * (s - s)) with 0 by lia. by rewrite drop_0.
  - rewrite lookup_insert_ne by done. rewrite IH. unfold in_run, chunk.
    repeat case_decide; try lia; [|done]. do 2 f_equal. rewrite drop_drop. f_equal. lia.
Qed.

Lemma length_rd_sector d t : length (rd_sector d t) = 512%nat.
Proof. unfold rd_sector. repeat case_match; auto; apply length_replicate. Qed.

Lemma length_chunk i n buf :
  length buf = (512 * n)%nat -> 0 <= i < Z.of_nat n -> length (chunk i buf) = 512%nat.
Proof. intros Hl Hi. unfold chunk. rewrite length_take, length_drop. lia. Qed.

Lemma rd_sector_store d s n k buf bud t :
  length buf = (512 * n)%nat -> (k <= n)%nat ->
  rd_sector (mk_RamDisk (rd_store s k buf (rd_sectors d)) (rd_capacity d) bud) t
  = if decide (in_run s k t) then chunk (t - s) buf else rd_sector d t.
Proof.
  intros Hl Hk. unfold rd_sector at 1. simpl. rewrite rd_store_lookup. case_decide as Ht; [|done].
  rewrite decide_True; [done|]. apply (length_chunk _ n); [done|]. unfold in_run in Ht. lia.
Qed.

Lemma len_div_512 {A} (buf : list A) n : length buf = (512 * n)%nat -> Z.to_nat (len buf / 512) = n.
Proof.
  intros Hl. unfold len. rewrite Hl. replace (Z.of_nat (512 * n)) with (Z.of_nat n * 512) by lia.
  rewrite Z.div_mul by lia. lia.
Qed.

#[export] Program Instance RamDisk_DiskLaws : DiskLaws RamDisk := {|
  disk := rd_sector;
  healthy := fun cap d => rd_capacity d = cap /\ rd_budget d = None;
  disk_len := length_rd_sector |}.
Next Obligation.
  intros s n d r d' E. unfold submit_in in E. simpl in E. unfold SECTOR_SIZE in E. rewrite Z.div_mul in E by lia.
  destruct (_ <? _); simplify_eq; split; [done| |done|].
  - intros data Hd. done.
  - intros data Hd. rewrite Nat2Z.id in Hd. by simplify_eq.
Qed.
Next Obligation.
  intros s n buf d r d' Hl E. unfold submit_out in E. simpl in E. rewrite (len_div_512 buf n) in E by done.
  destruct (_ <? _); simplify_eq; [split; [by left|done]|].
  assert (rd_write_count n (rd_budget d) <= n)%nat as Hk by (unfold rd_write_count; case_match; lia).
  split.
  - intros t. rewrite (rd_sector_store d s n) by done. case_decide as Ht; [right|by left].
    split; [unfold in_run in *; lia|done].
  - intros Hr t Ht. rewrite (rd_sector_store d s n) by done.
    destruct (Nat.ltb_spec (rd_write_count n (rd_budget d)) n); [done|].
    rewrite decide_True; [done|]. unfold in_run in *. lia.
Qed.
Next Obligation. intros d r d' E t. unfold submit_flush in E. simpl in E. by simplify_eq. Qed.
Next Obligation.
  intros cap s n d r d' [Hc Hb] Hs Hn E. unfold submit_in in E. simpl in E. unfold SECTOR_SIZE in E.
  rewrite Z.div_mul in E by lia. destruct (Z.ltb_spec (rd_capacity d) (s + Z.of_nat n)); [lia|].
  simplify_eq. eauto.
Qed.
Next Obligation.
  intros cap s n buf d r d' [Hc Hb] Hs Hn Hl E. unfold submit_out in E. simpl in E.
  rewrite (len_div_512 buf n) in E by done.
  destruct (Z.ltb_spec (rd_capacity d) (s + Z.of_nat n)); [lia|]. rewrite Hb in E. simpl in E.
  rewrite Nat.ltb_irrefl in E. by simplify_eq.
Qed.
Next Obligation.
  intros cap d r d' Hh E. unfold submit_flush in E. simpl in E. by simplify_eq.
Qed.

(** * The entry log of the block store

    Entries as values, their encoding on sectors, the index a scan of the log
    yields, and the map the log stands for. *)

Record LogEntry : Type := mk_LogEntry {
  le_valid : bool;
  le_key : string;
  le_value : list byte }.

Definition le_header (e : LogEntry) : EntryHeader :=
  mk_EntryHeader ENTRY_MAGIC (if le_valid e then FLAG_VALID else FLAG_DELETED)
    (str_len (le_key e)) (len (le_value e)).

Definition nsec (e : LogEntry) : Z := sectors_needed (le_header e).

Definition payload (e : LogEntry) : list byte := str_bytes (le_key e) ++ le_value e.

Definition encode_entry (e : LogEntry) : list byte :=
  header_bytes (le_header e) ++ payload e
  ++ replicate (Z.to_nat (nsec e * SECTOR_SIZE - total_size (le_header e))) x00.

Definition entry_ok (e : LogEntry) : Prop :=
  str_len (le_key e) <= MAX_KEY_LEN /\ len (le_value e) <= MAX_VALUE_LEN /\
  from_utf8 (str_bytes (le_key e)) = Some (le_key e).

Definition invalidate (e : LogEntry) : LogEntry := mk_LogEntry false (le_key e) (le_value e).

Definition log_sectors (log : list LogEntry) : Z := foldr (fun e n => nsec e + n) 0 log.

(** Entry after entry from sector [s]. *)
Fixpoint on_disk (f : sectors_t) (s : Z) (log : list LogEntry) : Prop :=
  match log with
  | [] => True
  | e :: log' => read_region f s (Z.to_nat (nsec e)) = encode_entry e /\ on_disk f (s + nsec e) log'
  end.

Definition index_entry (s : Z) (e : LogEntry) : IndexEntry := mk_IndexEntry s (nsec e) (len (le_value e)).

Fixpoint index_of (s : Z) (log : list LogEntry) (idx : gmap string IndexEntry) : gmap string IndexEntry :=
  match log with
  | [] => idx
  | e :: log' =>
      index_of (s + nsec e) log' (if le_valid e then <[le_key e := index_entry s e]> idx else idx)
  end.

(** The map a log stands for. *)
Fixpoint contents (log : list LogEntry) : gmap string (list byte) :=
  match log with
  | [] => ∅
  | e :: log' => if le_valid e then <[le_key e := le_value e]> (contents log') else contents log'
  end.

Definition live_keys (log : list LogEntry) : list string :=
  le_key <$> filter (fun e => le_valid e = true) log.

(** A key has at most one valid entry. *)
Definition good_log (log : list LogEntry) : Prop := Forall entry_ok log /\ NoDup (live_keys log).

(** Marking the entry of a key as deleted. *)
Definition drop_key (k : string) (log : list LogEntry) : list LogEntry :=
  map (fun e => if bool_decide (le_key e = k) then invalidate e else e) log.

(** ** Sizes *)
Lemma length_str_bytes s : length (str_bytes s) = String.length s.
Proof. unfold str_bytes. induction s; simpl; auto. Qed.

Lemma str_len_bytes s : str_len s = len (str_bytes s).
Proof. unfold str_len, len. by rewrite length_str_bytes. Qed.

Lemma length_header_bytes h : length (header_bytes h) = 16%nat.
Proof. reflexivity. Qed.

Lemma total_size_payload e : total_size (le_header e) = 16 + len (payload e).
Proof.
  unfold total_size, payload, ENTRY_HEADER_SIZE. simpl. rewrite str_len_bytes.
  unfold len. rewrite length_app. lia.
Qed.

Lemma nsec_bounds e :
  entry_ok e -> 1 <= nsec e <= 129 /\ total_size (le_header e) <= nsec e * SECTOR_SIZE.
Proof.
  intros (Hk & Hv & _). unfold nsec, sectors_needed, SECTOR_SIZE.
  assert (total_size (le_header e) = 16 + str_len (le_key e) + len (le_value e)) as -> by done.
  unfold MAX_KEY_LEN, MAX_VALUE_LEN, str_len, len in *.
  set (n := Z.of_nat (String.length _)) in *. set (m := Z.of_nat (length _)) in *.
  assert (0 <= n /\ 0 <= m) as [? ?] by lia.
  assert (1 <= (16 + n + m + 512 - 1) / 512 <= 129) as Hb.
  { split; [apply Z.div_le_lower_bound; lia|apply Z.lt_succ_r, Z.div_lt_upper_bound; lia]. }
  rewrite wrap_u32_small by lia. split; [done|].
  pose proof (Z.mod_pos_bound (16 + n + m + 512 - 1) 512 ltac:(lia)).
  pose proof (Z.div_mod (16 + n + m + 512 - 1) 512 ltac:(lia)). lia.
Qed.

Lemma length_encode e : entry_ok e -> length (encode_entry e) = (512 * Z.to_nat (nsec e))%nat.
Proof.
  intros He. destruct (nsec_bounds e He) as [Hn Ht]. pose proof (total_size_payload e) as Hp.
  unfold encode_entry. rewrite !length_app, length_replicate, length_header_bytes.
  unfold SECTOR_SIZE, len in *. lia.
Qed.

Lemma entry_ok_invalidate e : entry_ok e -> entry_ok (invalidate e).
Proof. done. Qed.

Lemma nsec_invalidate e : nsec (invalidate e) = nsec e.
Proof. done. Qed.

(** ** Headers *)
Lemma word_at_app n z (l1 l2 l : list byte) :
  l = l1 ++ u32_to_le_bytes z ++ l2 -> length l1 = (4 * n)%nat -> 0 <= z < 2 ^ 32 ->
  word_at n l = z.
Proof.
  intros -> Hl Hz. unfold word_at. rewrite drop_app_length' by done.
  rewrite take_app_length' by (symmetry; apply length_to_le_bytes).
  unfold u32_to_le_bytes. rewrite from_to_le_bytes. by apply Z.mod_small.
Qed.

Definition header_wf (h : EntryHeader) : Prop :=
  0 <= eh_magic h < 2 ^ 32 /\ 0 <= eh_flags h < 2 ^ 32 /\
  0 <= eh_key_len h < 2 ^ 32 /\ 0 <= eh_value_len h < 2 ^ 32.

Lemma read_header_app h l : header_wf h -> read_header (header_bytes h ++ l) = h.
Proof.
  intros (Hm & Hf & Hk & Hv). unfold read_header, header_bytes. rewrite <- !app_assoc.
  set (m := u32_to_le_bytes (eh_magic h)). set (f := u32_to_le_bytes (eh_flags h)).
  set (k := u32_to_le_bytes (eh_key_len h)). set (v := u32_to_le_bytes (eh_value_len h)).
  rewrite (word_at_app 0 (eh_magic h) [] (f ++ k ++ v ++ l)) by done.
  rewrite (word_at_app 1 (eh_flags h) m (k ++ v ++ l)) by done.
  rewrite (word_at_app 2 (eh_key_len h) (m ++ f) (v ++ l)) by (rewrite <- ?app_assoc; done).
  rewrite (word_at_app 3 (eh_value_len h) (m ++ f ++ k) l) by (rewrite <- ?app_assoc; done).
  by destruct h.
Qed.

Lemma le_header_wf e : entry_ok e -> header_wf (le_header e).
Proof.
  intros (Hk & Hv & _). unfold header_wf, le_header, ENTRY_MAGIC, FLAG_VALID, FLAG_DELETED,
    MAX_KEY_LEN, MAX_VALUE_LEN, str_len, len in *. simpl. case_match; lia.
Qed.

Lemma read_header_encode e : entry_ok e -> read_header (encode_entry e) = le_header e.
Proof. intros He. apply read_header_app. by apply le_header_wf. Qed.

Definition padding (e : LogEntry) : list byte :=
  replicate (Z.to_nat (nsec e * SECTOR_SIZE - total_size (le_header e))) x00.

(** The first sector of an entry holds its header. *)
Lemma first_sector_encode e :
  take 512 (encode_entry e) = header_bytes (le_header e) ++ take 496 (payload e ++ padding e).
Proof. apply (take_app_ge (header_bytes (le_header e))). rewrite length_header_bytes. lia. Qed.

Lemma read_header_first e : entry_ok e -> read_header (take 512 (encode_entry e)) = le_header e.
Proof. intros He. rewrite first_sector_encode. apply read_header_app. by apply le_header_wf. Qed.

Definition deleted_header (h : EntryHeader) : EntryHeader :=
  mk_EntryHeader (eh_magic h) FLAG_DELETED (eh_key_len h) (eh_value_len h).

(** Marking the first sector as deleted gives the first sector of the deleted entry. *)
Lemma write_header_first e :
  write_header (deleted_header (le_header e)) (take 512 (encode_entry e))
  = take 512 (encode_entry (invalidate e)).
Proof. unfold write_header. rewrite !first_sector_encode. by rewrite drop_app_length' by done. Qed.

(** The rest of the sectors is unchanged. *)
Lemma drop_encode_invalidate e : drop 512 (encode_entry (invalidate e)) = drop 512 (encode_entry e).
Proof.
  unfold encode_entry. rewrite !drop_app_ge by (rewrite length_header_bytes; lia). done.
Qed.

Lemma sub_slice_app (l1 l2 l3 : list byte) lo hi :
  lo = len l1 -> hi = len l1 + len l2 -> sub_slice lo hi (l1 ++ l2 ++ l3) = l2.
Proof.
  intros -> ->. unfold sub_slice, len. rewrite Nat2Z.id, drop_app_length.
  replace (Z.to_nat _) with (length l2) by lia. apply take_app_length.
Qed.

(** The value and the key, as [read] and [load_index] extract them. *)
Lemma value_slice e :
  let vs := ENTRY_HEADER_SIZE + str_len (le_key e) in
  sub_slice vs (vs + len (le_value e)) (encode_entry e) = le_value e.
Proof.
  intros vs. unfold encode_entry, payload. rewrite <- (app_assoc (str_bytes _)).
  rewrite (app_assoc (header_bytes _)). apply sub_slice_app;
    unfold vs, ENTRY_HEADER_SIZE, len; rewrite length_app, length_header_bytes, length_str_bytes;
    unfold str_len; lia.
Qed.

Lemma key_slice_of (l : list byte) e :
  sub_slice ENTRY_HEADER_SIZE (ENTRY_HEADER_SIZE + str_len (le_key e))
    (header_bytes (le_header e) ++ str_bytes (le_key e) ++ l) = str_bytes (le_key e).
Proof.
  apply sub_slice_app; unfold ENTRY_HEADER_SIZE, len; rewrite length_header_bytes; [lia|].
  rewrite length_str_bytes. unfold str_len. lia.
Qed.

Lemma key_in_first e :
  entry_ok e ->
  sub_slice ENTRY_HEADER_SIZE (ENTRY_HEADER_SIZE + str_len (le_key e)) (take 512 (encode_entry e))
  = str_bytes (le_key e).
Proof.
  intros (Hk & _ & _). unfold MAX_KEY_LEN, str_len in Hk. rewrite first_sector_encode.
  unfold payload. rewrite <- (app_assoc (str_bytes _)).
  rewrite take_app_ge by (rewrite length_str_bytes; lia). apply key_slice_of.
Qed.

(** The buffer [write] builds is the encoding of the entry. *)
Lemma copy_at_app (l1 l2 src : list byte) lo :
  lo = len l1 -> (length src <= length l2)%nat ->
  copy_at lo src (l1 ++ l2) = (l1 ++ src) ++ drop (length src) l2.
Proof.
  intros -> Hs. unfold copy_at, len. rewrite Nat2Z.id, take_app_length.
  rewrite drop_app_ge by lia. rewrite <- app_assoc. do 3 f_equal. lia.
Qed.

Lemma entry_buffer_encode k v :
  entry_ok (mk_LogEntry true k v) ->
  entry_buffer (EntryHeader_new (str_len k) (len v)) k v = encode_entry (mk_LogEntry true k v).
Proof.
  intros He. set (e := mk_LogEntry true k v) in *. destruct (nsec_bounds e He) as [Hn Ht].
  pose proof (total_size_payload e) as Hp. unfold payload, len in Hp. rewrite length_app in Hp.
  rewrite length_str_bytes in Hp. simpl in Hp.
  unfold entry_buffer. change (EntryHeader_new (str_len k) (len v)) with (le_header e).
  fold (nsec e). unfold write_header. rewrite drop_replicate.
  rewrite copy_at_app; [|done|rewrite length_replicate, length_str_bytes; unfold SECTOR_SIZE in *; lia].
  rewrite drop_replicate, length_str_bytes.
  rewrite copy_at_app.
  - rewrite drop_replicate. unfold encode_entry, payload. rewrite <- !app_assoc. do 4 f_equal. simpl.
    unfold SECTOR_SIZE in *. lia.
  - unfold ENTRY_HEADER_SIZE, str_len, len. rewrite length_app, length_header_bytes, length_str_bytes. lia.
  - rewrite length_replicate. unfold SECTOR_SIZE in *. lia.
Qed.

(** ** Logs *)
Lemma log_sectors_app l1 l2 : log_sectors (l1 ++ l2) = log_sectors l1 + log_sectors l2.
Proof. induction l1 as [|e l1 IH]; simpl; lia. Qed.

Lemma log_sectors_nonneg log : Forall entry_ok log -> 0 <= log_sectors log.
Proof.
  induction 1 as [|e log He Hl IH]; simpl; [lia|]. destruct (nsec_bounds e He). lia.
Qed.

Lemma on_disk_app f s l1 l2 :
  on_disk f s (l1 ++ l2) <-> on_disk f s l1 /\ on_disk f (s + log_sectors l1) l2.
Proof.
  revert s. induction l1 as [|e l1 IH]; intros s; simpl.
  - rewrite Z.add_0_r. naive_solver.
  - rewrite IH, Z.add_assoc. naive_solver.
Qed.

Lemma on_disk_ext f g s log :
  Forall entry_ok log -> (forall t, s <= t < s + log_sectors log -> g t = f t) ->
  on_disk f s log -> on_disk g s log.
Proof.
  intros Hok. revert s. induction Hok as [|e log He Hl IH]; intros s Hfg; simpl in *; [done|].
  destruct (nsec_bounds e He) as [Hn _]. pose proof (log_sectors_nonneg log Hl).
  intros [Hr Ho]. split.
  - rewrite <- Hr. apply read_region_ext. intros t Ht. apply Hfg. unfold in_run in Ht. lia.
  - apply IH; [|done]. intros t Ht. apply Hfg. lia.
Qed.

Lemma index_of_app s l1 l2 idx :
  index_of s (l1 ++ l2) idx = index_of (s + log_sectors l1) l2 (index_of s l1 idx).
Proof.
  revert s idx. induction l1 as [|e l1 IH]; intros s idx; simpl; [by rewrite Z.add_0_r|].
  by rewrite IH, Z.add_assoc.
Qed.

Lemma live_keys_cons e log :
  live_keys (e :: log) = if le_valid e then le_key e :: live_keys log else live_keys log.
Proof. unfold live_keys. rewrite filter_cons. by destruct (le_valid e). Qed.

Lemma live_keys_app l1 l2 : live_keys (l1 ++ l2) = live_keys l1 ++ live_keys l2.
Proof. unfold live_keys. by rewrite filter_app, fmap_app. Qed.

Lemma elem_of_live_keys k log :
  k ∈ live_keys log <-> exists l1 e l2, log = l1 ++ e :: l2 /\ le_valid e = true /\ le_key e = k.
Proof.
  unfold live_keys. rewrite list_elem_of_fmap. split.
  - intros (e & -> & [Hv Hin]%list_elem_of_filter). apply list_elem_of_split in Hin as (l1 & l2 & ->).
    eauto 6.
  - intros (l1 & e & l2 & -> & Hv & <-). exists e. split; [done|]. apply list_elem_of_filter.
    split; [done|]. rewrite elem_of_app, elem_of_cons. auto.
Qed.

(** Where an index entry comes from. *)
Lemma index_of_lookup s log idx k ie :
  index_of s log idx !! k = Some ie ->
  idx !! k = Some ie \/
  exists l1 e l2, log = l1 ++ e :: l2 /\ le_valid e = true /\ le_key e = k /\
    ie = index_entry (s + log_sectors l1) e.
Proof.
  revert s idx. induction log as [|e log IH]; intros s idx H; simpl in *; [by left|].
  destruct (IH _ _ H) as [H1|(l1 & e' & l2 & -> & Hv & Hk & ->)].
  - destruct (le_valid e) eqn:Hv; [|by left]. destruct (decide (le_key e = k)) as [<-|Hne].
    + rewrite lookup_insert_eq in H1. simplify_eq. right. exists [], e, log. simpl.
      by rewrite Z.add_0_r.
    + rewrite lookup_insert_ne in H1 by done. by left.
  - right. exists (e :: l1), e', l2. simpl. rewrite Z.add_assoc. auto.
Qed.

Lemma index_of_keys s log idx k :
  is_Some (index_of s log idx !! k) <-> is_Some (idx !! k) \/ k ∈ live_keys log.
Proof.
  revert s idx. induction log as [|e log IH]; intros s idx; simpl; rewrite ?live_keys_cons.
  - rewrite elem_of_nil. naive_solver.
  - rewrite IH. destruct (le_valid e); [|done]. rewrite elem_of_cons, lookup_insert_is_Some'. intuition auto.
Qed.

Lemma contents_keys log k : is_Some (contents log !! k) <-> k ∈ live_keys log.
Proof.
  induction log as [|e log IH]; simpl; rewrite ?live_keys_cons.
  - rewrite lookup_empty, elem_of_nil, is_Some_alt. done.
  - destruct (le_valid e); [|done]. rewrite elem_of_cons, lookup_insert_is_Some', IH. intuition auto.
Qed.

Lemma contents_not_live log k : k ∉ live_keys log -> contents log !! k = None.
Proof. intros Hk. apply eq_None_not_Some. by rewrite contents_keys. Qed.

Lemma contents_at l1 e l2 :
  NoDup (live_keys (l1 ++ e :: l2)) -> le_valid e = true ->
  contents (l1 ++ e :: l2) !! le_key e = Some (le_value e).
Proof.
  intros Hnd Hv. induction l1 as [|e1 l1 IH]; simpl in *.
  - rewrite Hv. apply lookup_insert_eq.
  - rewrite live_keys_cons in Hnd. destruct (le_valid e1); [|by apply IH].
    apply NoDup_cons in Hnd as [Hnin Hnd]. rewrite lookup_insert_ne; [by apply IH|].
    intros Heq. apply Hnin. rewrite live_keys_app, live_keys_cons, Hv, Heq. set_solver.
Qed.

Lemma contents_snoc log k v :
  k ∉ live_keys log -> contents (log ++ [mk_LogEntry true k v]) = <[k := v]> (contents log).
Proof.
  induction log as [|e log IH]; intros Hk; simpl; [done|]. rewrite live_keys_cons in Hk.
  destruct (le_valid e); [|by apply IH]. apply not_elem_of_cons in Hk as [Hne Hk].
  by rewrite IH, insert_insert_ne by done.
Qed.

(** ** Deletion *)
Lemma index_of_drop_key s k log idx :
  index_of s (drop_key k log) (delete k idx) = delete k (index_of s log idx).
Proof.
  revert s idx. induction log as [|e log IH]; intros s idx; simpl; [done|].
  case_bool_decide as Hk; simpl; rewrite ?nsec_invalidate.
  - destruct (le_valid e); [|apply IH]. rewrite <- IH. by rewrite Hk, delete_insert_eq.
  - destruct (le_valid e); [|apply IH]. rewrite <- IH. by rewrite delete_insert_ne by done.
Qed.

Lemma contents_drop_key k log : contents (drop_key k log) = delete k (contents log).
Proof.
  induction log as [|e log IH]; simpl; [by rewrite delete_empty|].
  case_bool_decide as Hk; simpl.
  - destruct (le_valid e); rewrite IH; [|done]. by rewrite Hk, delete_insert_eq.
  - destruct (le_valid e); rewrite IH; [|done]. by rewrite delete_insert_ne by done.
Qed.

Lemma live_keys_drop_key k log : live_keys (drop_key k log) = filter (.≠ k) (live_keys log).
Proof.
  induction log as [|e log IH]; simpl; [done|].
  rewrite !live_keys_cons. case_bool_decide as Hk; simpl; rewrite IH; destruct (le_valid e); try done.
  - rewrite filter_cons. by rewrite decide_False by naive_solver.
  - rewrite filter_cons. by rewrite decide_True by done.
Qed.

Lemma not_live_drop_key k log : k ∉ live_keys (drop_key k log).
Proof. rewrite live_keys_drop_key, list_elem_of_filter. naive_solver. Qed.

Lemma log_sectors_drop_key k log : log_sectors (drop_key k log) = log_sectors log.
Proof. induction log as [|e log IH]; simpl; [done|]. case_bool_decide; simpl; rewrite IH; done. Qed.

Lemma drop_key_not_live k log : k ∉ live_keys log -> drop_key k log = log.
Proof.
  induction log as [|e log IH]; intros Hk; simpl; [done|]. rewrite live_keys_cons in Hk.
  case_bool_decide as He.
  - destruct e as [[] k' v]; simpl in *; [set_solver|]. unfold invalidate. simpl. by rewrite IH.
  - rewrite IH; [done|]. destruct (le_valid e); set_solver.
Qed.

Lemma drop_key_at l1 e l2 :
  NoDup (live_keys (l1 ++ e :: l2)) -> le_valid e = true ->
  drop_key (le_key e) (l1 ++ e :: l2) = l1 ++ invalidate e :: l2.
Proof.
  intros Hnd Hv. rewrite live_keys_app, live_keys_cons, Hv in Hnd.
  apply NoDup_app in Hnd as (_ & Hdis & [Hnin _]%NoDup_cons).
  unfold drop_key. rewrite map_app. simpl. fold (drop_key (le_key e) l1). fold (drop_key (le_key e) l2).
  rewrite bool_decide_eq_true_2 by done.
  rewrite !drop_key_not_live; [done|done|]. intros Hin. apply (Hdis _ Hin). set_solver.
Qed.

Lemma good_drop_key k log : good_log log -> good_log (drop_key k log).
Proof.
  intros [Hok Hnd]. split.
  - apply Forall_map. eapply Forall_impl; [exact Hok|]. intros e He. simpl. by case_bool_decide.
  - rewrite live_keys_drop_key. by apply NoDup_filter.
Qed.

Lemma good_snoc log k v :
  good_log log -> k ∉ live_keys log -> entry_ok (mk_LogEntry true k v) ->
  good_log (log ++ [mk_LogEntry true k v]).
Proof.
  intros [Hok Hnd] Hk He. split; [by apply Forall_app; auto|].
  rewrite live_keys_app. apply NoDup_app. split; [done|]. split; [set_solver|]. apply NoDup_singleton.
Qed.

(** The index and the contents have the same keys. *)
Lemma index_contents_dom log : dom (index_of 1 log ∅) = dom (contents log).
Proof.
  apply set_eq. intros k. rewrite !elem_of_dom, index_of_keys, contents_keys, lookup_empty, is_Some_alt.
  naive_solver.
Qed.
