(* ===== verification/BlockOps.v ===== *)
(** * Crash logic and specifications of the block store's operations

    [exec c st b Q C]: running [c] from the state [st] and the device [b], which
    may fail at any request, ends with sectors that satisfy the crash condition
    [C]; a successful run satisfies the postcondition [Q]; on a healthy device
    the run succeeds. The operations are specified with the log they leave on
    disk, for success and for power failure. *)
From S2P Require Import Prelude StrLib BlockStorage BlockLog.

(** ** Superblocks *)
Definition u32_range (z : Z) : Prop := 0 <= z < 2 ^ 32.

Definition sb_words (sb : Superblock) : list Z :=
  [sb_magic sb; sb_version sb; sb_entry_count sb; sb_next_free_sector sb]
  ++ sb_reserved sb ++ [sb_checksum sb].

Definition sb_wf (sb : Superblock) : Prop := Forall u32_range (sb_words sb) /\ length (sb_reserved sb) = 123%nat.

Lemma words_cons w ws :
  mjoin (map u32_to_le_bytes (w :: ws)) = u32_to_le_bytes w ++ mjoin (map u32_to_le_bytes ws).
Proof. done. Qed.

Lemma length_words ws : length (mjoin (map u32_to_le_bytes ws)) = (4 * length ws)%nat.
Proof.
  induction ws as [|w ws IH]; [done|]. rewrite words_cons, length_app, IH.
  unfold u32_to_le_bytes. rewrite length_to_le_bytes. simpl. lia.
Qed.

Lemma word_at_words i ws :
  Forall u32_range ws -> (i < length ws)%nat ->
  word_at i (mjoin (map u32_to_le_bytes ws)) = ws !!! i.
Proof.
  intros Hr Hi. destruct (lookup_lt_is_Some_2 ws i Hi) as [w Hw].
  rewrite (list_lookup_total_correct _ _ _ Hw).
  assert (ws = take i ws ++ w :: drop (S i) ws) as E by (symmetry; by apply take_drop_middle).
  eapply Forall_lookup_1 in Hr; [|exact Hw].
  apply (word_at_app _ _ (mjoin (map u32_to_le_bytes (take i ws)))
           (mjoin (map u32_to_le_bytes (drop (S i) ws)))); [|rewrite length_words, length_take; lia|done].
  rewrite E at 1. by rewrite map_app, join_app.
Qed.

Lemma sb_to_bytes_words sb : sb_to_bytes sb = mjoin (map u32_to_le_bytes (sb_words sb)).
Proof.
  unfold sb_to_bytes, sb_body, sb_words. rewrite !map_app, !join_app, !words_cons.
  change (mjoin (map u32_to_le_bytes [])) with (@nil byte). by rewrite !app_nil_r, <- !app_assoc.
Qed.

Lemma map_lookup_seq (l r : list Z) : map (fun i => (l ++ r) !!! i) (seq 0 (length l)) = l.
Proof.
  induction l as [|x l IH]; [done|]. simpl. f_equal. rewrite <- seq_shift, map_map. exact IH.
Qed.

Lemma sb_from_to_bytes sb : sb_wf sb -> sb_from_bytes (sb_to_bytes sb) = sb.
Proof.
  intros [Hr Hl]. rewrite sb_to_bytes_words. unfold sb_from_bytes.
  assert (forall i, (i < 128)%nat ->
    word_at i (mjoin (map u32_to_le_bytes (sb_words sb))) = sb_words sb !!! i) as Hw.
  { intros i Hi. apply word_at_words; [done|]. unfold sb_words. rewrite !length_app, Hl. simpl. lia. }
  rewrite !Hw by lia.
  rewrite (map_ext_in _ (fun i => (sb_reserved sb ++ [sb_checksum sb]) !!! i)).
  - rewrite <- Hl, map_lookup_seq. unfold sb_words. simpl.
    change (127 - 4)%nat with 123%nat. destruct sb. simpl in *. f_equal.
    rewrite lookup_total_app_r by lia. by rewrite Hl.
  - intros i Hi%in_seq. rewrite Hw by lia. done.
Qed.

Lemma length_sb_to_bytes sb : sb_wf sb -> length (sb_to_bytes sb) = 512%nat.
Proof.
  intros [_ Hl]. rewrite sb_to_bytes_words, length_words. unfold sb_words.
  rewrite !length_app, Hl. done.
Qed.

Lemma byte_sum_range l : u32_range (byte_sum l).
Proof.
  unfold byte_sum, u32_range. destruct l as [|b l] using rev_ind; [done|].
  rewrite fold_left_app. apply wrap_u32_range.
Qed.

Lemma sb_wf_update sb : sb_wf sb -> sb_wf (update_checksum sb).
Proof.
  intros [Hr Hl]. split; [|done]. unfold sb_words in *. apply Forall_app in Hr as [H1 H2].
  apply Forall_app in H2 as [H2 H3]. apply Forall_app. split; [done|]. apply Forall_app. split; [done|].
  apply Forall_singleton, byte_sum_range.
Qed.

Lemma sb_wf_counts sb n m : sb_wf sb -> u32_range n -> u32_range m -> sb_wf (set_counts n m sb).
Proof.
  intros [Hr Hl] Hn Hm. split; [|done]. unfold sb_words in *. simpl in *.
  inversion Hr as [|? ? H1 Hr1]; subst. inversion Hr1 as [|? ? H2 Hr2]; subst.
  inversion Hr2 as [|? ? H3 Hr3]; subst. inversion Hr3; subst.
  by repeat (apply Forall_cons; split; [done|]).
Qed.

Lemma Superblock_new_wf : sb_wf Superblock_new.
Proof.
  apply sb_wf_update. split; [|done]. unfold sb_words, u32_range, zero_reserved. simpl.
  repeat (constructor; [done|]). apply Forall_nil_2.
Qed.

(** A superblock for a log of [n] sectors. *)
Definition sb_good (sb : Superblock) (n : Z) : Prop :=
  sb_wf sb /\ sb_magic sb = SUPERBLOCK_MAGIC /\ sb_version sb = STORAGE_VERSION /\
  sb_next_free_sector sb = 1 + n.

Lemma sb_valid_update sb n : sb_good sb n -> sb_is_valid (update_checksum sb) = true.
Proof.
  intros (_ & Hm & Hv & _). unfold sb_is_valid, verify_checksum. simpl. rewrite Hm, Hv.
  by rewrite !Z.eqb_refl.
Qed.

Lemma sb_good_update sb n : sb_good sb n -> sb_good (update_checksum sb) n.
Proof. intros (Hw & Hm & Hv & Hn). split; [by apply sb_wf_update|done]. Qed.

Lemma sb_good_new : sb_good Superblock_new 0.
Proof. split; [apply Superblock_new_wf|done]. Qed.

(** ** The logic *)
Section logic.
Context {D : Type} `{DiskLaws D} (cap : Z).
Implicit Types (b : Blk D) (st : BlockStorage).

Definition dsk b : sectors_t :=
  match b with Some dev => disk (transport dev) | None => fun _ => blank_sector end.

Definition dev_ok b : Prop := exists dev, b = Some dev /\ capacity dev = cap.

Definition healthy_blk b : Prop :=
  exists dev, b = Some dev /\ capacity dev = cap /\ healthy cap (transport dev).

Definition same (f g : sectors_t) : Prop := forall t, g t = f t.

Definition exec {T} (c : IO (D := D) T) st b (Q : T -> BlockStorage -> sectors_t -> Prop)
    (C : sectors_t -> Prop) : Prop :=
  forall r st' b', dev_ok b -> c (st, b) = (r, (st', b')) ->
    dev_ok b' /\ C (dsk b') /\ (healthy_blk b -> healthy_blk b' /\ exists x, r = Ok x) /\
    (forall x, r = Ok x -> Q x st' (dsk b')).

Lemma exec_bind {T U} (c : IO T) (k : T -> IO U) st b Q' Q C :
  exec c st b Q' C -> (forall x st1 b1, Q' x st1 (dsk b1) -> exec (k x) st1 b1 Q C) ->
  exec (io_bind c k) st b Q C.
Proof.
  intros Hc Hk r st' b' Hd E. unfold io_bind in E.
  destruct (c (st, b)) as [[x|e] [st1 b1]] eqn:Ec.
  - destruct (Hc _ _ _ Hd Ec) as (Hd1 & _ & Hh & HQ).
    destruct (Hk x st1 b1 (HQ x eq_refl) _ _ _ Hd1 E) as (? & ? & Hh' & ?).
    split; [done|]. split; [done|]. split; [|done]. intros Hb. by apply Hh', Hh.
  - simplify_eq. destruct (Hc _ _ _ Hd Ec) as (Hd1 & HC & Hh & _). split; [done|]. split; [done|].
    split; [|done]. intros Hb. destruct (Hh Hb) as [_ [? ?]]. done.
Qed.

Lemma exec_ret {T} (x : T) st b (Q : T -> BlockStorage -> sectors_t -> Prop) (C : sectors_t -> Prop) :
  Q x st (dsk b) -> C (dsk b) -> exec (io_ret x) st b Q C.
Proof. intros HQ HC r st' b' Hd E. unfold io_ret in E. simplify_eq. naive_solver. Qed.

Lemma exec_get st b (C : sectors_t -> Prop) :
  C (dsk b) -> exec io_get st b (fun x st' f => x = st /\ st' = st /\ f = dsk b) C.
Proof. intros HC r st' b' Hd E. unfold io_get in E. simplify_eq/=. naive_solver. Qed.

Lemma exec_modify g st b (C : sectors_t -> Prop) :
  C (dsk b) -> exec (io_modify g) st b (fun _ st' f => st' = g st /\ f = dsk b) C.
Proof. intros HC r st' b' Hd E. unfold io_modify in E. simplify_eq/=. naive_solver. Qed.

Lemma exec_weaken {T} (c : IO T) st b (Q Q' : T -> BlockStorage -> sectors_t -> Prop)
    (C C' : sectors_t -> Prop) :
  exec c st b Q' C' -> (forall x st' f, Q' x st' f -> Q x st' f) -> (forall f, C' f -> C f) ->
  exec c st b Q C.
Proof.
  intros Hc HQ HC r st' b' Hd E. destruct (Hc _ _ _ Hd E) as (? & ? & ? & ?). eauto 10.
Qed.

Lemma bad_request_false s n : 0 <= s -> (0 < n)%nat -> s + Z.of_nat n <= cap ->
  bad_request cap s (Z.of_nat n * SECTOR_SIZE) = false.
Proof.
  intros Hs Hn Hc. unfold bad_request, SECTOR_SIZE. rewrite Z.mod_mul by lia.
  destruct (Z.leb_spec cap s); [lia|]. destruct (Z.eqb_spec (Z.of_nat n * 512) 0); [lia|]. done.
Qed.

Lemma exec_read s n (m : Z) st b (C : sectors_t -> Prop) :
  0 <= s -> (0 < n)%nat -> s + Z.of_nat n <= cap -> m = Z.of_nat n * SECTOR_SIZE ->
  (forall f, same (dsk b) f -> C f) ->
  exec (io_dev (read_sectors s m)) st b
    (fun data st' f => st' = st /\ data = read_region (dsk b) s n /\ same (dsk b) f) C.
Proof.
  intros Hs Hn Hc -> HC r st' b' (dev & -> & Hcap) E. unfold io_dev, read_sectors in E. simpl in E.
  rewrite Hcap, bad_request_false in E by done.
  destruct (submit_in _ _ _) as [r0 t] eqn:Es. simplify_eq.
  destruct (in_law _ _ _ _ _ Es) as [Hsame Hdata].
  split; [by eexists|]. split; [by apply HC|]. split.
  - intros (dev' & ? & _ & Hh). simplify_eq.
    destruct (healthy_in _ _ _ _ _ _ Hh Hs Hc Es) as [Hh' [data ->]]. split; [by eexists|]. by eexists.
  - intros x Hx. split; [done|]. split; [|done].
    destruct r0 as [[[] data]|e]; simpl in Hx; simplify_eq. by apply Hdata.
Qed.

Lemma exec_write s n buf st b (C : sectors_t -> Prop) :
  0 <= s -> (0 < n)%nat -> s + Z.of_nat n <= cap -> length buf = (512 * n)%nat ->
  (forall f, (forall t, f t = dsk b t \/ in_run s n t /\ f t = chunk (t - s) buf) -> C f) ->
  exec (io_dev (write_sectors s buf)) st b
    (fun _ st' f => st' = st /\ (forall t, in_run s n t -> f t = chunk (t - s) buf) /\
       (forall t, ~ in_run s n t -> f t = dsk b t)) C.
Proof.
  intros Hs Hn Hc Hl HC r st' b' (dev & -> & Hcap) E. unfold io_dev, write_sectors in E. simpl in E.
  assert (len buf = Z.of_nat n * SECTOR_SIZE) as Hlen by (unfold len, SECTOR_SIZE; lia).
  rewrite Hcap, Hlen, bad_request_false in E by done.
  destruct (submit_out _ _ _) as [r0 t] eqn:Es. simplify_eq.
  destruct (out_law _ _ _ _ _ _ Hl Es) as [Hor Hall].
  split; [by eexists|]. split; [by apply HC|]. split.
  - intros (dev' & ? & _ & Hh). simplify_eq.
    destruct (healthy_out _ _ _ _ _ _ _ Hh Hs Hc Hl Es) as [Hh' ->]. split; [by eexists|]. by eexists.
  - intros x Hx. split; [done|]. split.
    + destruct r0 as [[]|e]; simpl in Hx; simplify_eq. by apply Hall.
    + intros u Hu. simpl. destruct (Hor u) as [?|[? _]]; done.
Qed.

Lemma exec_flush st b (C : sectors_t -> Prop) :
  (forall f, same (dsk b) f -> C f) ->
  exec (io_dev flush_device) st b (fun _ st' f => st' = st /\ same (dsk b) f) C.
Proof.
  intros HC r st' b' (dev & -> & Hcap) E. unfold io_dev, flush_device in E. simpl in E.
  destruct (submit_flush _) as [r0 t] eqn:Es. simplify_eq. pose proof (flush_law _ _ _ Es) as Hsame.
  split; [by eexists|]. split; [by apply HC|]. split; [|done].
  intros (dev' & ? & _ & Hh). simplify_eq. destruct (healthy_flush _ _ _ _ Hh Es) as [Hh' ->].
  split; [by eexists|]. by eexists.
Qed.

Lemma exec_capacity st b (C : sectors_t -> Prop) :
  0 <= cap < 2 ^ 32 -> C (dsk b) ->
  exec io_capacity st b (fun x st' f => x = cap * SECTOR_SIZE /\ st' = st /\ f = dsk b) C.
Proof.
  intros Hc HC r st' b' (dev & -> & Hcap) E. unfold io_capacity, SECTOR_SIZE in *. simpl in E. simplify_eq.
  split; [by eexists|]. split; [done|]. split; [by eauto|]. intros x Hx. simplify_eq.
  split; [|done]. unfold u64_mul, SECTOR_SIZE. apply wrap_u64_small. lia.
Qed.

Lemma exec_is_initialized st b (C : sectors_t -> Prop) :
  C (dsk b) -> exec io_is_initialized st b (fun x st' f => x = true /\ st' = st /\ f = dsk b) C.
Proof.
  intros HC r st' b' (dev & -> & Hcap) E. unfold io_is_initialized in E. simplify_eq/=.
  split; [by eexists|]. split; [done|]. split; [by eauto|]. intros x Hx. by simplify_eq.
Qed.
End logic.

(** * Specifications of the block store's operations

    Each operation of [BlockStorage] against the log it leaves on disk, on
    success and at every point where the power may fail. *)

Section ops.
Context {D : Type} {VB : VirtioBlock D} {DL : DiskLaws D} (cap : Z) (Hcap : 1 <= cap < 2 ^ 31).
Implicit Types (b : Blk D) (st : BlockStorage) (f : sectors_t) (log : list LogEntry).

(** Sectors from which the log can be recovered. *)
Definition recoverable f log : Prop :=
  (exists sb, sb_good sb (log_sectors log) /\ f 0 = sb_to_bytes (update_checksum sb)) /\
  on_disk f 1 log /\ good_log log /\ 1 + log_sectors log <= cap.

(** The state of an initialised store. *)
Definition store_inv st f log : Prop :=
  bs_index st = index_of 1 log ∅ /\ bs_initialized st = true /\
  sb_good (bs_superblock st) (log_sectors log) /\
  f 0 = sb_to_bytes (update_checksum (bs_superblock st)) /\
  on_disk f 1 log /\ good_log log /\ 1 + log_sectors log <= cap.

Lemma store_inv_recoverable st f log : store_inv st f log -> recoverable f log.
Proof. intros (_ & _ & Hg & H0 & Hd & Hl & Hc). split; [by eexists|done]. Qed.

Lemma store_inv_intro st f log :
  recoverable f log -> bs_index st = index_of 1 log ∅ -> bs_initialized st = true ->
  sb_good (bs_superblock st) (log_sectors log) ->
  f 0 = sb_to_bytes (update_checksum (bs_superblock st)) -> store_inv st f log.
Proof. intros (_ & Hd & Hl & Hc) Hi Hin Hg Hf. by repeat (split; [done|]). Qed.

Lemma recoverable_ext f g log :
  (forall t, 0 <= t < 1 + log_sectors log -> g t = f t) -> recoverable f log -> recoverable g log.
Proof.
  intros Hfg ((sb & Hg & H0) & Hd & Hl & Hc). pose proof (log_sectors_nonneg log (proj1 Hl)).
  split; [exists sb; split; [done|]; rewrite <- H0; apply Hfg; lia|].
  split; [|done]. eapply on_disk_ext; [apply Hl| |exact Hd]. intros t Ht. apply Hfg. lia.
Qed.

Lemma recoverable_same f g log : same f g -> recoverable f log -> recoverable g log.
Proof. intros Hs. apply recoverable_ext. auto. Qed.

Lemma store_inv_same st f g log : same f g -> store_inv st f log -> store_inv st g log.
Proof.
  intros Hs (Hi & Hin & Hg & H0 & Hd & Hl & Hc). split; [done|]. split; [done|]. split; [done|].
  split; [by rewrite Hs|]. split; [|done]. eapply on_disk_ext; [apply Hl| |exact Hd]. auto.
Qed.

(** Another superblock for the same log. *)
Lemma recoverable_superblock f g sb log :
  recoverable f log -> sb_good sb (log_sectors log) ->
  (forall t, t <> 0 -> g t = f t) -> (g 0 = f 0 \/ g 0 = sb_to_bytes (update_checksum sb)) ->
  recoverable g log.
Proof.
  intros Hr Hg Ht [H0|H0].
  - eapply recoverable_ext; [|exact Hr]. intros t _. destruct (decide (t = 0)) as [->|]; auto.
  - destruct Hr as (_ & Hd & Hl & Hc). split; [by eexists|]. split; [|done].
    eapply on_disk_ext; [apply Hl| |exact Hd]. intros t ?. apply Ht. lia.
Qed.

(** Sectors beyond the log do not matter. *)
Lemma recoverable_beyond f g log :
  recoverable f log -> (forall t, t < 1 + log_sectors log -> g t = f t) -> recoverable g log.
Proof. intros Hr Ht. eapply recoverable_ext; [|exact Hr]. intros t ?. apply Ht. lia. Qed.

Lemma chunk_whole l : length l = 512%nat -> chunk 0 l = l.
Proof. intros Hl. unfold chunk. rewrite drop_0. apply take_ge. lia. Qed.

(** ** Writing the superblock *)
Lemma update_checksum_idem sb : update_checksum (update_checksum sb) = update_checksum sb.
Proof. done. Qed.

Lemma exec_write_superblock st b (C : sectors_t -> Prop) :
  sb_wf (bs_superblock st) ->
  (forall f, (forall t, t <> 0 -> f t = dsk b t) ->
     (f 0 = dsk b 0 \/ f 0 = sb_to_bytes (update_checksum (bs_superblock st))) -> C f) ->
  exec cap write_superblock st b
    (fun _ st' f => st' = set_superblock (update_checksum (bs_superblock st)) st /\
       f 0 = sb_to_bytes (update_checksum (bs_superblock st)) /\ (forall t, t <> 0 -> f t = dsk b t)) C.
Proof.
  intros Hwf HC. set (sb := update_checksum (bs_superblock st)) in *.
  assert (length (sb_to_bytes sb) = 512%nat) as Hl by by apply length_sb_to_bytes, sb_wf_update.
  assert (forall t, in_run 0 1 t <-> t = 0) as Hrun by (unfold in_run; lia).
  eapply exec_bind; [apply exec_modify; apply HC; auto|]. intros _ st1 b1 [-> E1].
  eapply exec_bind; [apply exec_get; rewrite E1; apply HC; auto|]. intros ? st2 b2 (-> & -> & E2).
  rewrite E1 in E2. eapply exec_bind.
  - apply (exec_write cap 0 1); [lia|lia|lia|done|]. rewrite E2. intros f Hf. apply HC.
    + intros t Ht. destruct (Hf t) as [?|[?%Hrun _]]; done.
    + destruct (Hf 0) as [?|[_ ->]]; [by left|]. right. by apply chunk_whole.
  - rewrite E2. intros [] st3 b3 (-> & H0 & Hne). simpl in H0.
    assert (dsk b3 0 = sb_to_bytes sb) as H00.
    { rewrite (H0 0) by (unfold in_run; lia). by apply chunk_whole. }
    assert (forall t, t <> 0 -> dsk b3 t = dsk b t) as Ht by (intros t ?; apply Hne; rewrite Hrun; done).
    eapply exec_weaken; [apply exec_flush|..].
    + intros f Hf. apply HC; [intros t Ht'|right]; rewrite Hf; auto.
    + intros ? ? f [-> Hf]. split; [done|]. split; [by rewrite Hf|]. intros t ?. rewrite Hf. auto.
    + done.
Qed.

(** ** Reading *)
Lemma store_inv_entry st f log k ie :
  store_inv st f log -> bs_index st !! k = Some ie ->
  exists l1 e l2, log = l1 ++ e :: l2 /\ le_valid e = true /\ le_key e = k /\ entry_ok e /\
    ie = index_entry (1 + log_sectors l1) e /\
    read_region f (1 + log_sectors l1) (Z.to_nat (nsec e)) = encode_entry e /\
    0 < 1 + log_sectors l1 /\ 1 + log_sectors l1 + nsec e <= cap.
Proof.
  intros (Hi & _ & _ & _ & Hd & [Hok Hnd] & Hc) Hie. rewrite Hi in Hie.
  apply index_of_lookup in Hie as [Hie|(l1 & e & l2 & -> & Hv & Hk & ->)]; [by rewrite lookup_empty in Hie|].
  exists l1, e, l2. apply on_disk_app in Hd as [_ [Hr _]].
  apply Forall_app in Hok as [Hok1 [He Hok2]%Forall_cons].
  rewrite log_sectors_app in Hc. simpl in Hc.
  pose proof (log_sectors_nonneg _ Hok1). pose proof (log_sectors_nonneg _ Hok2).
  repeat split; auto; try apply He; lia.
Qed.

Lemma store_inv_missing st f log k :
  store_inv st f log -> bs_index st !! k = None -> k ∉ live_keys log.
Proof.
  intros (Hi & _) Hk Hin. rewrite Hi in Hk. apply eq_None_not_Some in Hk. apply Hk.
  apply index_of_keys. by right.
Qed.

Lemma exec_bs_read k st b log :
  store_inv st (dsk b) log ->
  exec cap (bs_read k) st b
    (fun x st' f => x = contents log !! k /\ st' = st /\ same (dsk b) f) (fun f => same (dsk b) f).
Proof.
  intros Hinv. assert (same (dsk b) (dsk b)) as Hrefl by (intros t; done).
  eapply exec_bind; [by apply exec_get|]. intros ? st1 b1 (-> & -> & E1).
  destruct (bs_index st !! k) as [ie|] eqn:Hk.
  - destruct (store_inv_entry _ _ _ _ _ Hinv Hk) as (l1 & e & l2 & -> & Hv & Hke & He & -> & Hr & H1 & H2).
    destruct (nsec_bounds e He) as [Hn Htot]. rewrite <- E1 in *. eapply exec_bind.
    + apply (exec_read cap _ (Z.to_nat (nsec e))); simpl; [lia|lia|lia|rewrite Z2Nat.id; lia|done].
    + intros data st2 b2 (-> & -> & Hs). cbv zeta. cbn [ie_sector index_entry] in *.
      rewrite Hr, read_header_encode by done.
      assert (eh_is_valid (le_header e) = true) as -> by (unfold eh_is_valid; simpl; by rewrite Hv).
      assert (len (encode_entry e) = nsec e * SECTOR_SIZE) as Hlen.
      { unfold len. rewrite length_encode by done. unfold SECTOR_SIZE. lia. }
      cbn [negb le_header eh_key_len eh_value_len]. rewrite Hlen.
      unfold total_size in Htot. simpl in Htot.
      destruct (Z.leb_spec (ENTRY_HEADER_SIZE + str_len (le_key e) + len (le_value e))
        (nsec e * SECTOR_SIZE)); [|lia].
      rewrite (value_slice e). apply exec_ret; [|done]. split; [|done]. subst k. symmetry.
      apply contents_at; [apply Hinv|done].
  - apply exec_ret; [|by rewrite E1]. split; [|by rewrite E1]. symmetry.
    eapply contents_not_live, store_inv_missing; done.
Qed.

(** ** Deleting *)
Lemma dsk_len b t : length (dsk b t) = 512%nat.
Proof. destruct b; [apply disk_len|done]. Qed.

Lemma on_disk_delete f g l1 e l2 s :
  (forall t, length (f t) = 512%nat) -> Forall entry_ok (l1 ++ e :: l2) -> on_disk f s (l1 ++ e :: l2) ->
  (forall t, t <> s + log_sectors l1 -> g t = f t) ->
  g (s + log_sectors l1) = take 512 (encode_entry (invalidate e)) ->
  on_disk g s (l1 ++ invalidate e :: l2).
Proof.
  intros Hlen [Hok1 [He Hok2]%Forall_cons]%Forall_app [Hd1 [Hr Hd2]]%on_disk_app Ht Hg.
  destruct (nsec_bounds e He) as [Hn _]. apply on_disk_app. split.
  { eapply on_disk_ext; [done| |exact Hd1]. intros t ?. apply Ht. lia. }
  set (p := s + log_sectors l1) in *. split.
  - rewrite nsec_invalidate. replace (Z.to_nat (nsec e)) with (S (Z.to_nat (nsec e - 1))) in * by lia.
    rewrite read_region_S in *. rewrite Hg.
    rewrite (read_region_ext g f) by (intros t ?; apply Ht; unfold in_run in *; lia).
    rewrite <- (take_drop 512 (encode_entry (invalidate e))) at 2. f_equal.
    rewrite drop_encode_invalidate, <- Hr. by rewrite drop_app_length'.
  - rewrite nsec_invalidate. eapply on_disk_ext; [done| |exact Hd2]. intros t ?. apply Ht. lia.
Qed.

(** The disk after the header sector of the entry of [k] has been rewritten. *)
Lemma recoverable_delete st f g l1 e l2 :
  (forall t, length (f t) = 512%nat) -> store_inv st f (l1 ++ e :: l2) -> le_valid e = true ->
  (forall t, t <> 1 + log_sectors l1 -> g t = f t) ->
  g (1 + log_sectors l1) = take 512 (encode_entry (invalidate e)) ->
  recoverable g (drop_key (le_key e) (l1 ++ e :: l2)).
Proof.
  intros Hlen (Hi & Hin & Hsb & H0 & Hd & Hl & Hc) Hv Ht Hg.
  pose proof (log_sectors_nonneg l1 (proj1 (proj1 (Forall_app _ _ _) (proj1 Hl)))) as Hp.
  split; [|split; [|split; [by apply good_drop_key|by rewrite log_sectors_drop_key]]].
  - rewrite log_sectors_drop_key. exists (bs_superblock st). split; [done|]. rewrite <- H0. apply Ht. lia.
  - rewrite drop_key_at by (done || apply Hl). eapply on_disk_delete; [done|apply Hl|done|done|done].
Qed.

Lemma sat_sub_range z : u32_range z -> u32_range (sat_sub z 1).
Proof. unfold u32_range, sat_sub. lia. Qed.

Lemma sb_good_count sb n m : sb_good sb n -> u32_range m ->
  sb_good (set_counts m (sb_next_free_sector sb) sb) n.
Proof.
  intros (Hw & Hm & Hv & Hn) Hr. split; [|done]. apply sb_wf_counts; [done|done|].
  destruct Hw as [Hw _]. unfold sb_words in Hw. simpl in Hw.
  do 3 (apply Forall_cons in Hw as [_ Hw]). by apply Forall_cons in Hw as [? _].
Qed.

Lemma sb_entry_count_range sb : sb_wf sb -> u32_range (sb_entry_count sb).
Proof.
  intros [Hw _]. unfold sb_words in Hw. simpl in Hw.
  do 2 (apply Forall_cons in Hw as [_ Hw]). by apply Forall_cons in Hw as [? _].
Qed.

(** The superblock is rewritten after a deletion. *)
Lemma exec_delete_commit k st b log log0 :
  bs_index st = delete k (index_of 1 log ∅) -> bs_initialized st = true ->
  sb_good (bs_superblock st) (log_sectors log) -> recoverable (dsk b) (drop_key k log) ->
  is_Some (contents log !! k) ->
  exec cap (io_bind (io_modify (fun s =>
      let sb := bs_superblock s in
      set_superblock (set_counts (sat_sub (sb_entry_count sb) 1) (sb_next_free_sector sb) sb) s))
    (fun _ => io_bind write_superblock (fun _ => io_ret true))) st b
    (fun x st' f => x = bool_decide (is_Some (contents log !! k)) /\ store_inv st' f (drop_key k log))
    (fun f => recoverable f log0 \/ recoverable f (drop_key k log)).
Proof.
  intros Hidx Hinit Hsb Hrec Hlive.
  eapply exec_bind; [apply exec_modify; by right|]. intros _ st1 b1 [-> E1]. cbv zeta.
  set (sb := set_counts _ _ _).
  assert (sb_good sb (log_sectors (drop_key k log))) as Hg.
  { rewrite log_sectors_drop_key. apply sb_good_count; [done|]. apply sat_sub_range, sb_entry_count_range, Hsb. }
  eapply exec_bind; [apply exec_write_superblock; [apply Hg|]|].
  - rewrite E1. intros f Ht Hf. right. eapply recoverable_superblock; done.
  - rewrite E1. intros _ st2 b2 (-> & Hf0 & Ht). cbn [bs_superblock set_superblock] in *.
    assert (recoverable (dsk b2) (drop_key k log)) as Hr2.
    { eapply recoverable_superblock; [exact Hrec|exact Hg|done|by right]. }
    apply exec_ret; [|by right]. split; [by rewrite bool_decide_eq_true_2|].
    apply store_inv_intro; [done| |done|by apply sb_good_update|done].
    simpl. rewrite Hidx. pose proof (index_of_drop_key 1 k log ∅) as Hi. by rewrite delete_empty in Hi.
Qed.

(** Rewriting the header of the entry at sector [p], then continuing. *)
Lemma exec_mark_deleted {T} (K : IO T) e p st b Q (C : sectors_t -> Prop) :
  entry_ok e -> 0 < p -> p + 1 <= cap -> dsk b p = take 512 (encode_entry e) ->
  (forall f, (forall t, t <> p -> f t = dsk b t) ->
     f p = dsk b p \/ f p = take 512 (encode_entry (invalidate e)) -> C f) ->
  (forall b', (forall t, t <> p -> dsk b' t = dsk b t) ->
     dsk b' p = take 512 (encode_entry (invalidate e)) -> exec cap K st b' Q C) ->
  exec cap (io_bind (io_dev (read_sectors p SECTOR_SIZE)) (fun sector_buf =>
    let h := read_header sector_buf in
    let header := mk_EntryHeader (eh_magic h) FLAG_DELETED (eh_key_len h) (eh_value_len h) in
    io_bind (io_dev (write_sectors p (write_header header sector_buf))) (fun _ => K))) st b Q C.
Proof.
  intros He Hp Hpc Hd HC HK.
  assert (forall t, in_run p 1 t <-> t = p) as Hrun by (unfold in_run; lia).
  assert (length (take 512 (encode_entry (invalidate e))) = 512%nat) as Hlen.
  { rewrite length_take, length_encode by done. rewrite nsec_invalidate. destruct (nsec_bounds e He). lia. }
  eapply exec_bind; [apply (exec_read cap p 1); [lia|lia|lia|done|]; intros f Hf; apply HC; auto|].
  intros data st1 b1 (-> & -> & Hs). cbv zeta. rewrite read_region_S. unfold read_region. simpl mjoin.
  rewrite app_nil_r, Hd, read_header_first by done.
  change (mk_EntryHeader _ _ _ _) with (deleted_header (le_header e)). rewrite write_header_first.
  eapply exec_bind; [apply (exec_write cap p 1); [lia|lia|lia|done|]|].
  - intros f Hf. apply HC.
    + intros t Ht. destruct (Hf t) as [->|[?%Hrun _]]; [apply Hs|done].
    + destruct (Hf p) as [->|[_ ->]]; [left; apply Hs|right]. rewrite Z.sub_diag. by apply chunk_whole.
  - intros [] st2 b2 (-> & Hin & Hout). apply HK.
    + intros t Ht. rewrite Hout by (rewrite Hrun; done). apply Hs.
    + rewrite Hin by (rewrite Hrun; done). rewrite Z.sub_diag. by apply chunk_whole.
Qed.

Lemma exec_bs_delete k st b log :
  store_inv st (dsk b) log ->
  exec cap (bs_delete k) st b
    (fun x st' f => x = bool_decide (is_Some (contents log !! k)) /\ store_inv st' f (drop_key k log))
    (fun f => recoverable f log \/ recoverable f (drop_key k log)).
Proof.
  intros Hinv. pose proof (store_inv_recoverable _ _ _ Hinv) as Hrec.
  eapply exec_bind; [apply exec_get; by left|]. intros ? st1 b1 (-> & -> & E1).
  destruct (bs_index st !! k) as [ie|] eqn:Hk.
  2: { pose proof (store_inv_missing _ _ _ _ Hinv Hk) as Hm. rewrite drop_key_not_live by done.
    apply exec_ret; rewrite E1; [|by left]. split; [|done]. symmetry. apply bool_decide_eq_false_2.
    by rewrite contents_keys. }
  destruct (store_inv_entry _ _ _ _ _ Hinv Hk) as (l1 & e & l2 & -> & Hv & <- & He & -> & Hr & H1 & H2).
  destruct (nsec_bounds e He) as [Hn _]. cbn [ie_sector index_entry] in *.
  eapply exec_bind; [apply exec_modify; rewrite E1; by left|]. intros _ st2 b2 [-> E2]. rewrite E1 in E2.
  assert (forall f, (forall t, t <> 1 + log_sectors l1 -> f t = dsk b t) ->
    f (1 + log_sectors l1) = take 512 (encode_entry (invalidate e)) ->
    recoverable f (drop_key (le_key e) (l1 ++ e :: l2))) as Hdel
    by (intros f Ht Hf; eapply recoverable_delete; eauto using dsk_len).
  eapply exec_mark_deleted; [exact He|lia|lia| | |].
  - rewrite E2, <- Hr. replace (Z.to_nat (nsec e)) with (S (Z.to_nat (nsec e - 1))) by lia.
    rewrite read_region_S. by rewrite take_app_length' by (by rewrite dsk_len).
  - rewrite E2. intros f Ht [Hf|Hf]; [left|right; by apply Hdel].
    eapply recoverable_same; [|exact Hrec]. intros t.
    destruct (decide (t = 1 + log_sectors l1)) as [->|]; auto.
  - rewrite E2. intros b3 Ht Hf. destruct Hinv as (Hi & Hin & Hsb & _ & _ & [_ Hnd] & _).
    apply exec_delete_commit; [by rewrite <- Hi|done|done|by apply Hdel|].
    rewrite (contents_at l1 e l2) by done. by eexists.
Qed.
(** ** Writing *)
Lemma sb_next_free_range n : 0 <= n -> 1 + n <= cap -> u32_range (1 + n).
Proof. unfold u32_range. lia. Qed.

(** An entry written behind the log. *)
Lemma recoverable_snoc f g log e sb :
  recoverable f log -> good_log (log ++ [e]) -> 1 + log_sectors (log ++ [e]) <= cap ->
  (forall t, t < 1 + log_sectors log -> t <> 0 -> g t = f t) ->
  read_region g (1 + log_sectors log) (Z.to_nat (nsec e)) = encode_entry e ->
  sb_good sb (log_sectors (log ++ [e])) -> g 0 = sb_to_bytes (update_checksum sb) ->
  recoverable g (log ++ [e]).
Proof.
  intros (_ & Hd & Hl & _) Hgl Hc Ht Hr Hsb Hg. split; [by eexists|]. split; [|done].
  apply on_disk_app. split; [|by split].
  eapply on_disk_ext; [apply Hl| |exact Hd]. intros t ?. apply Ht; lia.
Qed.

(** The entry is written, then the superblock that includes it. *)
Lemma exec_append k v st b log (C : sectors_t -> Prop) :
  let e := mk_LogEntry true k v in
  let sector := 1 + log_sectors log in
  store_inv st (dsk b) log -> k ∉ live_keys log -> entry_ok e -> 1 + log_sectors log + nsec e <= cap ->
  (forall f, recoverable f log -> C f) -> (forall f, recoverable f (log ++ [e]) -> C f) ->
  exec cap
    (io_bind (io_dev (write_sectors sector (encode_entry e))) (fun _ =>
     io_bind (io_modify (fun s =>
      let sb := bs_superblock s in
      set_superblock
        (set_counts (u32_add (sb_entry_count sb) 1) (u32_add (sb_next_free_sector sb) (nsec e)) sb)
        (set_index (<[k := mk_IndexEntry sector (nsec e) (len v)]> (bs_index s)) s)))
     (fun _ => write_superblock))) st b
    (fun _ st' f => store_inv st' f (log ++ [e])) C.
Proof.
  intros e sector Hinv Hk He Hc HC1 HC2. pose proof (store_inv_recoverable _ _ _ Hinv) as Hrec.
  destruct Hinv as (Hi & Hin & Hsb & Hf0 & Hd & Hl & Hcl). destruct (nsec_bounds e He) as [Hn _].
  pose proof (log_sectors_nonneg log (proj1 Hl)) as Hnn.
  assert (log_sectors (log ++ [e]) = log_sectors log + nsec e) as Hls by (rewrite log_sectors_app; simpl; lia).
  pose proof (good_snoc log k v Hl Hk He) as Hgl.
  eapply exec_bind; [apply (exec_write cap sector (Z.to_nat (nsec e))); [lia|lia|lia|by apply length_encode|]|].
  { intros f Hf. apply HC1. eapply recoverable_beyond; [exact Hrec|]. intros t Ht.
    destruct (Hf t) as [->|[Hr _]]; [done|]. unfold in_run, sector in Hr. lia. }
  intros [] st1 b1 (-> & Hnew & Hold).
  assert (recoverable (dsk b1) log) as Hrec1.
  { eapply recoverable_beyond; [exact Hrec|]. intros t Ht. apply Hold. unfold in_run, sector. lia. }
  eapply exec_bind; [apply exec_modify; by apply HC1|]. intros _ st2 b2 [-> E2]. cbv zeta.
  set (sb := set_counts _ _ _). assert (sb_good sb (log_sectors (log ++ [e]))) as Hg.
  { destruct Hsb as (Hw & Hm & Hv & Hnf). unfold sb. rewrite Hnf, (u32_add_small (1 + _)) by lia.
    split; [apply sb_wf_counts; [done|apply wrap_u32_range|unfold u32_range; lia]|].
    split; [done|]. split; [done|]. simpl. lia. }
  assert (forall f, (forall t, t <> 0 -> f t = dsk b1 t) -> f 0 = sb_to_bytes (update_checksum sb) ->
    recoverable f (log ++ [e])) as Hsn.
  { intros f Ht Hf. eapply (recoverable_snoc (dsk b)); [exact Hrec|exact Hgl|lia| | |exact Hg|exact Hf].
    - intros t ? ?. rewrite Ht by done. apply Hold. unfold in_run, sector. lia.
    - apply read_region_chunks; [by apply length_encode|]. intros t Hr. rewrite Ht by (unfold in_run in Hr; lia).
      by apply Hnew. }
  eapply exec_weaken; [apply exec_write_superblock; [apply Hg|]|..].
  - rewrite E2. intros f Ht [Hf|Hf]; [apply HC1|apply HC2; by apply Hsn].
    eapply recoverable_same; [|exact Hrec1]. intros t. destruct (decide (t = 0)) as [->|]; auto.
  - rewrite E2. intros _ st' f (-> & Hf & Ht). cbn [bs_superblock set_superblock set_index] in *.
    apply store_inv_intro; [by apply Hsn| |done|by apply sb_good_update|done].
    simpl. rewrite Hi, index_of_app. done.
  - intros f Hf. exact Hf.
Qed.
Lemma max_sectors_cap : wrap_u32 (cap * SECTOR_SIZE / SECTOR_SIZE) = cap.
Proof. unfold SECTOR_SIZE. rewrite Z.div_mul by lia. apply wrap_u32_small. lia. Qed.

(** What a crash during the write of [k] can leave. *)
Definition write_crash log k v f : Prop :=
  recoverable f log \/ recoverable f (drop_key k log) \/
  recoverable f (drop_key k log ++ [mk_LogEntry true k v]).

(** The first step of [write]: an existing entry is deleted. *)
Lemma exec_drop_existing k v st b log :
  store_inv st (dsk b) log ->
  exec cap (if bs_exists k st then io_bind (bs_delete k) (fun _ => io_ret tt) else io_ret tt) st b
    (fun _ st' f => store_inv st' f (drop_key k log)) (write_crash log k v).
Proof.
  intros Hinv. unfold bs_exists. case_bool_decide as Hk.
  - eapply exec_bind; [eapply exec_weaken; [by apply exec_bs_delete| |]|].
    + intros x st' f Hs. exact Hs.
    + unfold write_crash. intros f [Hf|Hf]; auto.
    + intros x st2 b2 [_ Hs]. apply exec_ret; [done|]. right. left. by eapply store_inv_recoverable.
  - apply exec_ret; [|left; by eapply store_inv_recoverable]. rewrite drop_key_not_live; [done|].
    eapply store_inv_missing; [done|]. by apply eq_None_not_Some.
Qed.

Lemma store_inv_room st f log n :
  store_inv st f log -> 0 <= n -> 1 + log_sectors log + n <= cap -> no_room n cap st = false.
Proof.
  intros (_ & _ & (_ & _ & _ & Hnf) & _ & _ & [Hok _] & _) Hn Hc. pose proof (log_sectors_nonneg _ Hok).
  unfold no_room. rewrite Hnf, u32_add_small by lia. apply Z.ltb_ge. lia.
Qed.

Lemma exec_bs_write k v st b log :
  let e := mk_LogEntry true k v in
  store_inv st (dsk b) log -> entry_ok e -> 1 + log_sectors log + nsec e <= cap ->
  exec cap (bs_write k v) st b (fun _ st' f => store_inv st' f (drop_key k log ++ [e]))
    (write_crash log k v).
Proof.
  intros e Hinv He Hc. pose proof (store_inv_recoverable _ _ _ Hinv) as Hrec.
  destruct (nsec_bounds e He) as [Hn _]. pose proof He as (Hkl & Hvl & _). cbn [le_key le_value e] in Hkl, Hvl.
  unfold bs_write. destruct (Z.ltb_spec MAX_KEY_LEN (str_len k)); [lia|].
  destruct (Z.ltb_spec MAX_VALUE_LEN (len v)); [lia|]. cbn [orb].
  eapply exec_bind; [apply exec_get; by left|]. intros ? st1 b1 (-> & -> & E1).
  eapply exec_bind; [apply exec_drop_existing; by rewrite E1|].
  intros [] st2 b2 Hinv2. pose proof (store_inv_recoverable _ _ _ Hinv2) as Hrec2. cbv zeta.
  assert (wrap_u32 (str_len k) = str_len k /\ wrap_u32 (len v) = len v) as [-> ->].
  { unfold MAX_KEY_LEN, MAX_VALUE_LEN, str_len, len in *. split; apply wrap_u32_small; lia. }
  assert (write_crash log k v (dsk b2)) as HC by (right; by left).
  eapply exec_bind; [apply exec_capacity; [lia|done]|]. intros ? st3 b3 (-> & -> & E3).
  rewrite max_sectors_cap. eapply exec_bind; [apply exec_get; by rewrite E3|].
  intros ? st4 b4 (-> & -> & E4). rewrite E3 in E4. change (sectors_needed _) with (nsec e).
  rewrite (store_inv_room st2 (dsk b2) (drop_key k log)) by (rewrite ?log_sectors_drop_key; done || lia).
  eapply exec_bind.
  { apply (exec_ret cap tt st2 b4 (fun _ st f => st = st2 /\ f = dsk b2)); [done|by rewrite E4]. }
  intros [] st5 b5 [-> E5]. eapply exec_bind; [apply exec_get; by rewrite E5|].
  intros ? st6 b6 (-> & -> & E6). rewrite E5 in E6. cbv zeta.
  rewrite (proj2 (proj2 (proj2 (proj1 (proj2 (proj2 Hinv2)))))). rewrite entry_buffer_encode by done.
  apply exec_append; [by rewrite E6|apply not_live_drop_key|done|by rewrite log_sectors_drop_key| |];
    intros f Hf; right; auto.
Qed.

(** ** Clearing *)
Lemma recoverable_new f : f 0 = sb_to_bytes Superblock_new -> recoverable f [].
Proof.
  intros Hf. split; [exists Superblock_new; split; [apply sb_good_new|done]|].
  split; [done|]. split; [|simpl; lia]. split; [constructor|apply NoDup_nil_2].
Qed.

Lemma exec_bs_clear st b log :
  store_inv st (dsk b) log ->
  exec cap bs_clear st b (fun _ st' f => store_inv st' f [])
    (fun f => recoverable f log \/ recoverable f []).
Proof.
  intros Hinv. pose proof (store_inv_recoverable _ _ _ Hinv) as Hrec.
  eapply exec_bind; [apply exec_modify; by left|]. intros _ st1 b1 [-> E1].
  eapply exec_weaken; [apply (exec_write_superblock _ _ (fun f => recoverable f log \/ recoverable f []));
    [apply Superblock_new_wf|]|..].
  - rewrite E1. intros f Ht [Hf|Hf]; [left|right; by apply recoverable_new].
    eapply recoverable_same; [|exact Hrec]. intros t. destruct (decide (t = 0)) as [->|]; auto.
  - intros _ st' f (-> & Hf & _). apply store_inv_intro; [by apply recoverable_new|done|apply Hinv| |done].
    apply sb_good_new.
  - done.
Qed.

(** ** Starting *)
Lemma exec_load_key s e st b (C : sectors_t -> Prop) :
  entry_ok e -> C (dsk b) ->
  exec cap (load_key s (le_header e) (take 512 (encode_entry e))) st b
    (fun x st' f => x = str_bytes (le_key e) /\ st' = st /\ f = dsk b) C.
Proof.
  intros He HC. unfold load_key. cbn [le_header eh_key_len].
  pose proof He as (Hk & _ & _). unfold MAX_KEY_LEN in Hk.
  destruct (Z.leb_spec (ENTRY_HEADER_SIZE + str_len (le_key e)) SECTOR_SIZE) as [_|Hbad];
    [|unfold ENTRY_HEADER_SIZE, SECTOR_SIZE in Hbad; lia].
  apply exec_ret; [|done]. by rewrite key_in_first.
Qed.

Lemma le_header_valid e : eh_is_valid (le_header e) = le_valid e.
Proof. unfold eh_is_valid. cbn [le_header eh_magic eh_flags]. rewrite Z.eqb_refl. by destruct (le_valid e). Qed.

(** One round of the scan indexes a valid entry. *)
Lemma exec_load_entry s e st b (C : sectors_t -> Prop) :
  entry_ok e -> 0 < s < cap -> C (dsk b) ->
  exec cap
    (if eh_is_valid (le_header e) then
       io_bind (load_key s (le_header e) (take 512 (encode_entry e))) (fun key_slice =>
       match from_utf8 key_slice with
       | Some key => io_modify (fun s0 => set_index
           (<[key := mk_IndexEntry (wrap_u32 s) (nsec e) (eh_value_len (le_header e))]> (bs_index s0)) s0)
       | None => io_ret tt
       end)
     else io_ret tt) st b
    (fun _ st' f => st' = set_index
       (if le_valid e then <[le_key e := index_entry s e]> (bs_index st) else bs_index st) st /\ f = dsk b) C.
Proof.
  intros He Hs HC. rewrite le_header_valid. destruct (le_valid e) eqn:Hv.
  - eapply exec_bind; [by apply exec_load_key|]. intros ? st1 b1 (-> & -> & E1).
    destruct He as (_ & _ & ->). eapply exec_weaken; [apply (exec_modify cap _ st b1 C); by rewrite E1| |done].
    intros _ st' f [-> ->]. split; [|by rewrite E1]. by rewrite wrap_u32_small by lia.
  - apply exec_ret; [|done]. split; [by destruct st|done].
Qed.

Lemma exec_load_loop fuel s max log st b (C : sectors_t -> Prop) :
  Forall entry_ok log -> (length log <= fuel)%nat -> 0 < s -> s + log_sectors log = max -> max <= cap ->
  on_disk (dsk b) s log -> (forall f, same (dsk b) f -> C f) ->
  exec cap (load_loop fuel s max) st b
    (fun _ st' f => st' = set_index (index_of s log (bs_index st)) st /\ same (dsk b) f) C.
Proof.
  intros Hok. revert fuel s st b. induction Hok as [|e log He Hok IH]; intros fuel s st b Hfuel Hs Hmax Hc Hd HC.
  - simpl in Hmax. assert (set_index (bs_index st) st = st) as Hst by by destruct st.
    destruct fuel; simpl; [|destruct (Z.leb_spec max s); [|lia]];
      (apply exec_ret; [rewrite Hst; split; [done|by intros ?]|apply HC; by intros ?]).
  - simpl in Hfuel, Hmax, Hd. destruct fuel as [|fuel]; [lia|]. destruct (nsec_bounds e He) as [Hn _].
    pose proof (log_sectors_nonneg log Hok) as Hnn. destruct Hd as [Hr Hd]. cbn [load_loop].
    destruct (Z.leb_spec max s); [lia|].
    eapply exec_bind; [apply (exec_read cap s 1); [lia|lia|lia|done|done]|].
    intros data st1 b1 (-> & -> & Hs1). cbv zeta.
    assert (read_region (dsk b) s 1 = take 512 (encode_entry e)) as ->.
    { rewrite <- Hr. replace (Z.to_nat (nsec e)) with (S (Z.to_nat (nsec e - 1))) by lia.
      rewrite !read_region_S. unfold read_region at 1. simpl mjoin. rewrite app_nil_r.
      by rewrite take_app_length' by (by rewrite dsk_len). }
    rewrite read_header_first by done. rewrite Z.eqb_refl. cbn [negb]. fold (nsec e).
    eapply exec_bind; [apply exec_load_entry; [done|lia|by apply HC]|]. intros [] st2 b2 [-> E2].
    eapply exec_weaken; [apply IH; [lia|lia|lia|done| |]|..].
    + rewrite E2. eapply on_disk_ext; [exact Hok| |exact Hd]. intros t _. apply Hs1.
    + rewrite E2. intros f Hf. apply HC. intros t. by rewrite Hf, Hs1.
    + rewrite E2. intros _ st' f [-> Hf]. split; [done|]. intros t. by rewrite Hf, Hs1.
    + done.
Qed.

Lemma log_length log : Forall entry_ok log -> Z.of_nat (length log) <= log_sectors log.
Proof.
  induction 1 as [|e log He Hok IH]; simpl; [lia|]. destruct (nsec_bounds e He). lia.
Qed.

Lemma exec_load_index st b log (C : sectors_t -> Prop) :
  sb_good (bs_superblock st) (log_sectors log) -> on_disk (dsk b) 1 log -> good_log log ->
  1 + log_sectors log <= cap -> (forall f, same (dsk b) f -> C f) ->
  exec cap load_index st b
    (fun _ st' f => st' = set_index (index_of 1 log ∅) st /\ same (dsk b) f) C.
Proof.
  intros (_ & _ & _ & Hnf) Hd [Hok _] Hc HC. assert (C (dsk b)) as HC0 by (apply HC; by intros t).
  eapply exec_bind; [by apply exec_modify|]. intros _ st1 b1 [-> E1].
  eapply exec_bind; [apply exec_get; by rewrite E1|]. intros ? st2 b2 (-> & -> & E2). rewrite E1 in E2.
  pose proof (log_length log Hok). cbv zeta. cbn [bs_superblock set_index].
  eapply exec_weaken; [apply (exec_load_loop _ _ _ log _ _ C); [done|lia|lia|lia|lia|by rewrite E2|by rewrite E2]| |done].
  intros _ st' f [-> Hf]. by rewrite E2 in Hf.
Qed.

(** Starting on a disk that holds a log recovers it. *)
Lemma exec_init st b log :
  recoverable (dsk b) log ->
  exec cap init st b (fun x st' f => x = false /\ store_inv st' f log) (fun f => recoverable f log).
Proof.
  intros Hrec. assert (forall f, same (dsk b) f -> recoverable f log) as HC
    by (intros f Hf; by eapply recoverable_same).
  pose proof Hrec as ((sb & Hg & H0) & Hd & Hl & Hc).
  eapply exec_bind; [by apply exec_is_initialized|]. intros ? st0 b0 (-> & -> & E0). cbn [negb].
  eapply exec_bind; [apply (exec_read cap 0 1); [lia|lia|lia|done|by rewrite E0]|].
  intros data st1 b1 (-> & -> & Hs1). rewrite E0 in Hs1. rewrite read_region_S. unfold read_region. simpl mjoin.
  rewrite app_nil_r, E0, H0, sb_from_to_bytes by apply sb_wf_update, Hg. cbv zeta.
  rewrite (sb_valid_update _ _ Hg).
  eapply exec_bind; [apply exec_modify; by apply HC|]. intros _ st2 b2 [-> E2].
  eapply exec_bind; [apply (exec_load_index _ _ log); [by apply sb_good_update| |done|done|]|].
  { rewrite E2. eapply on_disk_ext; [apply Hl| |exact Hd]. intros t _. apply Hs1. }
  { rewrite E2. intros f Hf. apply HC. intros t. by rewrite Hf. }
  rewrite E2. intros [] st3 b3 [-> Hs3].
  assert (recoverable (dsk b3) log) as Hr3 by (apply HC; intros t; by rewrite Hs3).
  eapply exec_bind; [by apply exec_modify|]. intros _ st4 b4 [-> E4].
  apply exec_ret; rewrite E4; [|done]. split; [done|].
  apply store_inv_intro; [done|done|done|by apply sb_good_update|]. by rewrite Hs3, Hs1.
Qed.

(** A disk without a valid superblock is formatted. *)
Lemma exec_init_blank st b :
  sb_is_valid (sb_from_bytes (dsk b 0)) = false ->
  exec cap init st b (fun x st' f => x = true /\ store_inv st' f []) (fun _ => True).
Proof.
  intros Hv. eapply exec_bind; [by apply exec_is_initialized|]. intros ? st0 b0 (-> & -> & E0). cbn [negb].
  eapply exec_bind; [by apply (exec_read cap 0 1); [lia|lia|lia|done|]|].
  intros data st1 b1 (-> & -> & Hs1). rewrite read_region_S. unfold read_region. simpl mjoin.
  rewrite app_nil_r, E0. cbv zeta. rewrite Hv.
  eapply exec_bind; [by apply exec_modify|]. intros _ st2 b2 [-> E2].
  eapply exec_bind; [apply exec_write_superblock; [apply Superblock_new_wf|done]|].
  intros [] st3 b3 (-> & Hf & _). cbn [bs_superblock set_superblock] in *.
  eapply exec_bind; [by apply exec_modify|]. intros _ st4 b4 [-> E4].
  eapply exec_bind; [by apply exec_modify|]. intros _ st5 b5 [-> E5].
  apply exec_ret; [|done]. split; [done|]. rewrite E5, E4.
  apply store_inv_intro; [by apply recoverable_new|done|done|apply sb_good_new|done].
Qed.
End ops.

(** ** The scan of the log terminates on every disk *)
Lemma word_at_range i l : 0 <= word_at i l < 2 ^ 32.
Proof.
  unfold word_at. pose proof (from_le_bytes_range (take 4 (drop (4 * i) l))) as Hr.
  assert (256 ^ len (take 4 (drop (4 * i) l)) <= 256 ^ 4) as Hle.
  { apply Z.pow_le_mono_r; [lia|]. unfold len. rewrite length_take. lia. }
  change (256 ^ 4) with (2 ^ 32) in Hle. lia.
Qed.

Lemma sectors_needed_pos l : 1 <= sectors_needed (read_header l).
Proof.
  unfold sectors_needed, total_size, read_header, ENTRY_HEADER_SIZE, SECTOR_SIZE. simpl.
  pose proof (word_at_range 2 l). pose proof (word_at_range 3 l).
  assert (1 <= (16 + word_at 2 l + word_at 3 l + 512 - 1) / 512 < 2 ^ 32).
  { split; [apply Z.div_le_lower_bound; lia|apply Z.div_lt_upper_bound; lia]. }
  rewrite wrap_u32_small; lia.
Qed.

(** More fuel than sectors changes nothing: [load_index] never stops for lack of it. *)
Lemma load_loop_fuel {D} {VB : VirtioBlock D} f1 f2 sector max (st : BlockStorage * Blk D) :
  max - sector <= Z.of_nat f1 -> max - sector <= Z.of_nat f2 ->
  load_loop f1 sector max st = load_loop f2 sector max st.
Proof.
  revert f2 sector st. induction f1 as [|f1 IH]; intros f2 sector st H1 H2.
  - destruct f2; simpl; [done|]. by destruct (Z.leb_spec max sector); [|lia].
  - destruct f2 as [|f2]; simpl; [by destruct (Z.leb_spec max sector); [|lia]|].
    destruct (Z.leb_spec max sector); [done|]. unfold io_bind at 1 4.
    destruct (io_dev (read_sectors sector SECTOR_SIZE) st) as [[l|e] st1]; [|done]. cbv zeta.
    destruct (negb _); [done|]. pose proof (sectors_needed_pos l).
    unfold io_bind at 1 3. destruct (if eh_is_valid _ then _ else _) as [[[]|e] st2]; [|done].
    apply IH; lia.
Qed.
