(* ===== verification/BlockProps.v ===== *)
(** * Properties of the block store

    The store refines a map, across restarts; a power failure during any
    operation leaves a store that restarts as the map before, after or, for an
    overwrite, without the key; compaction exchanges values. *)
From S2P Require Import Prelude StrLib BlockStorage BlockLog BlockOps.

(** ** Commands on the store *)
Inductive StoreCmd : Type :=
| SC_Read (key : string)
| SC_Write (key : string) (value : list byte)
| SC_Delete (key : string)
| SC_Exists (key : string)
| SC_List (prefix : string)
| SC_Count
| SC_Clear
| SC_Restart.

Inductive StoreOut : Type :=
| SO_Value (v : option (list byte))
| SO_Done
| SO_Bool (b : bool)
| SO_Keys (l : list string)
| SO_Count (n : Z).

(** What a command does to a map. A restart reports that the disk was not
    formatted. *)
Definition spec_cmd (c : StoreCmd) (m : gmap string (list byte))
  : result StoreOut VirtioError * gmap string (list byte) :=
  match c with
  | SC_Read k => (Ok (SO_Value (m !! k)), m)
  | SC_Write k v =>
      if (MAX_KEY_LEN <? str_len k) || (MAX_VALUE_LEN <? len v) then (Err VE_InvalidArgument, m)
      else (Ok SO_Done, <[k := v]> m)
  | SC_Delete k => (Ok (SO_Bool (bool_decide (is_Some (m !! k)))), delete k m)
  | SC_Exists k => (Ok (SO_Bool (bool_decide (is_Some (m !! k)))), m)
  | SC_List p => (Ok (SO_Keys (filter (fun k => starts_with p k) (sbtree_keys m))), m)
  | SC_Count => (Ok (SO_Count (Z.of_nat (size m))), m)
  | SC_Clear => (Ok SO_Done, ∅)
  | SC_Restart => (Ok (SO_Bool false), m)
  end.

(** The maps a power failure during a command can leave. *)
Definition crash_states (c : StoreCmd) (m : gmap string (list byte)) : list (gmap string (list byte)) :=
  match c with
  | SC_Write k v => [m; delete k m; <[k := v]> m]
  | SC_Delete k => [m; delete k m]
  | SC_Clear => [m; ∅]
  | _ => [m]
  end.

Fixpoint run_cmds {S : Type} (f : StoreCmd -> S -> result StoreOut VirtioError * S)
    (cs : list StoreCmd) (s : S) : list (result StoreOut VirtioError) * S :=
  match cs with
  | [] => ([], s)
  | c :: cs' =>
      let '(r, s1) := f c s in
      let '(rs, s2) := run_cmds f cs' s1 in (r :: rs, s2)
  end.

Section cmds.
Context {D : Type} {VB : VirtioBlock D}.

Definition io_map {T U} (f : T -> U) (c : IO (D := D) T) : IO U := io_bind c (fun x => io_ret (f x)).

(** A restart begins with an empty [BlockStorage] in memory. *)
Definition restart : IO (D := D) bool := fun s => init (BlockStorage_new, s.2).

Definition store_cmd (c : StoreCmd) : IO (D := D) StoreOut :=
  match c with
  | SC_Read k => io_map SO_Value (bs_read k)
  | SC_Write k v => io_map (fun _ => SO_Done) (bs_write k v)
  | SC_Delete k => io_map SO_Bool (bs_delete k)
  | SC_Exists k => io_map (fun s => SO_Bool (bs_exists k s)) io_get
  | SC_List p => io_map (fun s => SO_Keys (bs_list p s)) io_get
  | SC_Count => io_map (fun s => SO_Count (bs_count s)) io_get
  | SC_Clear => io_map (fun _ => SO_Done) bs_clear
  | SC_Restart => io_map SO_Bool restart
  end.
End cmds.

(** Keys are strings, so valid UTF-8. *)
Definition cmd_ok (c : StoreCmd) : Prop :=
  match c with SC_Write k _ => from_utf8 (str_bytes k) = Some k | _ => True end.

Definition too_large (k : string) (v : list byte) : bool :=
  (MAX_KEY_LEN <? str_len k) || (MAX_VALUE_LEN <? len v).

Definition cmd_sectors (c : StoreCmd) : Z :=
  match c with
  | SC_Write k v => if too_large k v then 0 else nsec (mk_LogEntry true k v)
  | _ => 0
  end.

Definition total_sectors (cs : list StoreCmd) : Z := foldr (fun c n => cmd_sectors c + n) 0 cs.

(** ** One command *)
Section steps.
Context {D : Type} {VB : VirtioBlock D} {DL : DiskLaws D} (cap : Z) (Hcap : 1 <= cap < 2 ^ 31).
Implicit Types (b : Blk D) (st : BlockStorage) (m : gmap string (list byte)).

(** A store on disk that stands for the map [m], with [n] sectors in use. *)
Definition stands_for st (f : sectors_t) m (n : Z) : Prop :=
  exists log, store_inv cap st f log /\ contents log = m /\ log_sectors log <= n.

Definition recovers_to (f : sectors_t) m (n : Z) : Prop :=
  exists log, recoverable cap f log /\ contents log = m /\ log_sectors log <= n.

Lemma exec_map {T U} (g : T -> U) (c : IO T) st b Q C :
  exec cap c st b Q C -> (forall x st' f, Q x st' f -> C f) ->
  exec cap (io_map g c) st b (fun y st' f => exists x, y = g x /\ Q x st' f) C.
Proof.
  intros Hc HQ. eapply exec_bind; [exact Hc|]. intros x st1 b1 HQ1. apply exec_ret; [|by eapply HQ]. eauto.
Qed.

Lemma exec_restart st b Q C :
  exec cap init BlockStorage_new b Q C -> exec cap restart st b Q C.
Proof. intros He r st' b' Hd E. by apply (He r st' b' Hd). Qed.

Definition crash_to c m n (f : sectors_t) : Prop :=
  exists m', m' ∈ crash_states c m /\ recovers_to f m' n.

Definition cmd_post c m n (y : StoreOut) st' (f : sectors_t) : Prop :=
  (spec_cmd c m).1 = Ok y /\ stands_for st' f (spec_cmd c m).2 n.

Lemma crash_intro c m n f log :
  recoverable cap f log -> log_sectors log <= n -> contents log ∈ crash_states c m -> crash_to c m n f.
Proof. intros Hr Hn Hm. exists (contents log). split; [done|]. by exists log. Qed.

Lemma stands_recovers st f m n : stands_for st f m n -> recovers_to f m n.
Proof. intros (log & Hi & Hm & Hn). exists log. eauto using store_inv_recoverable. Qed.

Lemma spec_in_crash c m : (spec_cmd c m).2 ∈ crash_states c m.
Proof. destruct c; simpl; try case_match; simpl; set_solver. Qed.

Lemma post_crash c m n y st f : cmd_post c m n y st f -> crash_to c m n f.
Proof. intros [_ Hs]. eexists. split; [apply spec_in_crash|]. by eapply stands_recovers. Qed.

(** Commands that only look at the index. *)
Lemma exec_pure c m n log st b (g : BlockStorage -> StoreOut) :
  store_inv cap st (dsk b) log -> contents log = m -> log_sectors log <= n ->
  spec_cmd c m = (Ok (g st), m) -> exec cap (io_map g io_get) st b (cmd_post c m n) (crash_to c m n).
Proof.
  intros Hinv Hm Hn Hs. assert (cmd_post c m n (g st) st (dsk b)) as Hpost.
  { split; rewrite Hs; [done|]. by exists log. }
  pose proof (post_crash _ _ _ _ _ _ Hpost) as HC.
  eapply exec_bind; [by apply exec_get|]. intros ? st1 b1 (-> & -> & E1).
  apply exec_ret; by rewrite E1.
Qed.

Lemma store_index_dom st f log : store_inv cap st f log -> dom (bs_index st) = dom (contents log).
Proof. intros (-> & _). apply index_contents_dom. Qed.

Lemma store_exists st f log k :
  store_inv cap st f log -> bs_exists k st = bool_decide (is_Some (contents log !! k)).
Proof.
  intros Hinv. apply bool_decide_ext. by rewrite <- !elem_of_dom, (store_index_dom _ _ _ Hinv).
Qed.

Lemma log_sectors_snoc log e : log_sectors (log ++ [e]) = log_sectors log + nsec e.
Proof. rewrite log_sectors_app. simpl. lia. Qed.

Lemma exec_write_cmd k v st b log n :
  store_inv cap st (dsk b) log -> log_sectors log <= n -> cmd_ok (SC_Write k v) -> too_large k v = false ->
  1 + n + nsec (mk_LogEntry true k v) <= cap ->
  let c := SC_Write k v in let m := contents log in let n' := n + cmd_sectors c in
  exec cap (store_cmd c) st b (cmd_post c m n') (crash_to c m n').
Proof.
  intros Hinv Hn Hutf Hlarge Hc c m n'.
  assert (entry_ok (mk_LogEntry true k v)) as He.
  { unfold too_large in Hlarge. zeq. by split_and!. }
  destruct (nsec_bounds _ He) as [Hns _].
  assert (n' = n + nsec (mk_LogEntry true k v)) as Hn' by (unfold n', c; simpl; by rewrite Hlarge).
  assert (contents (drop_key k log ++ [mk_LogEntry true k v]) = <[k := v]> m) as Hcont.
  { rewrite contents_snoc by apply not_live_drop_key. rewrite contents_drop_key. apply insert_delete_eq. }
  eapply exec_weaken; [apply exec_map; [apply (exec_bs_write cap Hcap k v _ _ log); [done|done|lia]|]| |].
  - intros x st' f Hs. right. right. eapply store_inv_recoverable; exact Hs.
  - intros y st' f (x & -> & Hs). unfold cmd_post, c, spec_cmd. fold (too_large k v). rewrite Hlarge.
    split; [done|]. eexists. split; [exact Hs|]. split; [done|].
    rewrite log_sectors_snoc, log_sectors_drop_key. lia.
  - intros f [Hf|[Hf|Hf]]; eapply crash_intro; try exact Hf; simpl;
      rewrite ?log_sectors_snoc, ?log_sectors_drop_key, ?contents_drop_key, ?Hcont; try lia;
      unfold m; set_solver.
Qed.

(** Every command, on any device: what it returns and what a failure leaves. *)
Lemma exec_cmd c st b m n :
  stands_for st (dsk b) m n -> cmd_ok c -> 1 + n + cmd_sectors c <= cap ->
  match c with SC_Write k v => too_large k v = false | _ => True end ->
  exec cap (store_cmd c) st b (cmd_post c m (n + cmd_sectors c)) (crash_to c m (n + cmd_sectors c)).
Proof.
  intros (log & Hinv & <- & Hn) Hok Hc Hl. pose proof (store_inv_recoverable _ _ _ _ Hinv) as Hrec.
  destruct c as [k|k v|k|k|p| | |]; cbn [cmd_sectors store_cmd] in *; rewrite ?Z.add_0_r in *.
  - eapply exec_weaken; [apply exec_map; [by apply (exec_bs_read cap k _ _ log)|by intros x st' f (_ & _ & ?)]| |].
    + intros y st' f (x & -> & -> & -> & Hs). split; [done|]. exists log. split; [|done].
      by eapply store_inv_same.
    + intros f Hf. eapply (crash_intro _ _ _ _ log); [by eapply recoverable_same|done|]. simpl. set_solver.
  - rewrite Hl in Hc. eapply exec_write_cmd; done.
  - eapply exec_weaken; [apply exec_map; [by apply (exec_bs_delete cap Hcap k _ _ log)|]| |].
    + intros x st' f [_ Hs]. right. eapply store_inv_recoverable; exact Hs.
    + intros y st' f (x & -> & -> & Hs). split; [done|]. exists (drop_key k log).
      rewrite contents_drop_key, log_sectors_drop_key. done.
    + intros f [Hf|Hf]; eapply crash_intro; try exact Hf; rewrite ?log_sectors_drop_key; try done; simpl;
        rewrite ?contents_drop_key; set_solver.
  - eapply exec_pure; [done|done|done|]. simpl. by rewrite (store_exists _ _ _ _ Hinv).
  - eapply exec_pure; [done|done|done|]. simpl. unfold bs_list.
    by rewrite (sbtree_keys_dom _ _ (store_index_dom _ _ _ Hinv)).
  - eapply exec_pure; [done|done|done|]. simpl. unfold bs_count.
    by rewrite <- !size_dom, (store_index_dom _ _ _ Hinv).
  - pose proof (log_sectors_nonneg log (proj1 (proj1 (proj2 (proj2 Hrec))))) as Hnn.
    eapply exec_weaken; [apply exec_map; [by apply (exec_bs_clear cap Hcap _ _ log)|]| |].
    + intros x st' f Hs. right. eapply store_inv_recoverable; exact Hs.
    + intros y st' f (x & -> & Hs). split; [done|]. exists []. simpl. split; [done|]. split; [done|lia].
    + intros f [Hf|Hf]; eapply crash_intro; try exact Hf; simpl; try lia; set_solver.
  - eapply exec_weaken; [apply exec_map; [apply exec_restart; by apply (exec_init cap Hcap _ _ log)|]| |].
    + intros x st' f [_ Hs]. eapply store_inv_recoverable; exact Hs.
    + intros y st' f (x & -> & -> & Hs). split; [done|]. by exists log.
    + intros f Hf. eapply crash_intro; [exact Hf|done|]. simpl. set_solver.
Qed.

Lemma write_too_large k v s :
  too_large k v = true -> store_cmd (D := D) (SC_Write k v) s = (Err VE_InvalidArgument, s).
Proof. intros Hl. simpl. unfold io_map, io_bind, bs_write. fold (too_large k v). by rewrite Hl. Qed.

Lemma healthy_dev_ok b : healthy_blk cap b -> dev_ok cap b.
Proof. intros (dev & -> & Hc & _). by eexists. Qed.

(** ** Runs on a healthy device *)
Lemma cmd_sectors_nonneg c : cmd_ok c -> 0 <= cmd_sectors c.
Proof.
  destruct c as [|k v| | | | | |]; simpl; try lia. intros Hu. destruct (too_large k v) eqn:Hl; [lia|].
  unfold too_large in Hl. zeq. assert (entry_ok (mk_LogEntry true k v)) as He by by split_and!.
  destruct (nsec_bounds _ He). lia.
Qed.

Lemma total_sectors_nonneg cs : Forall cmd_ok cs -> 0 <= total_sectors cs.
Proof.
  induction 1 as [|c cs Hc Hcs IH]; simpl; [lia|]. pose proof (cmd_sectors_nonneg c Hc). lia.
Qed.

(** A command on a healthy device does what the map does. *)
Lemma cmd_refines c st b m n r st' b' :
  healthy_blk cap b -> stands_for st (dsk b) m n -> cmd_ok c -> 1 + n + cmd_sectors c <= cap ->
  store_cmd c (st, b) = (r, (st', b')) ->
  r = (spec_cmd c m).1 /\ healthy_blk cap b' /\ stands_for st' (dsk b') (spec_cmd c m).2 (n + cmd_sectors c).
Proof.
  intros Hh Hs Hok Hc E.
  destruct (match c with SC_Write k v => too_large k v | _ => false end) eqn:Hl.
  - destruct c as [|k v| | | | | |]; try done. rewrite write_too_large in E by done. simplify_eq.
    simpl. fold (too_large k v). rewrite Hl. by rewrite Z.add_0_r.
  - edestruct (exec_cmd c st b m n Hs Hok Hc) as (_ & _ & Hhealthy & Hpost);
      [by destruct c|by apply healthy_dev_ok|exact E|].
    destruct (Hhealthy Hh) as [Hh' [x ->]]. destruct (Hpost x eq_refl) as [Hr Hst]. by rewrite Hr.
Qed.

Lemma run_refines cs st b m n rs st' b' :
  healthy_blk cap b -> stands_for st (dsk b) m n -> Forall cmd_ok cs -> 1 + n + total_sectors cs <= cap ->
  run_cmds store_cmd cs (st, b) = (rs, (st', b')) ->
  rs = (run_cmds spec_cmd cs m).1 /\ healthy_blk cap b' /\
  stands_for st' (dsk b') (run_cmds spec_cmd cs m).2 (n + total_sectors cs).
Proof.
  revert st b m n rs. induction cs as [|c cs IH]; intros st b m n rs Hh Hs Hok Hc E; simpl in *.
  { simplify_eq. by rewrite Z.add_0_r. }
  apply Forall_cons in Hok as [Hokc Hok]. pose proof (total_sectors_nonneg cs Hok) as Hnn.
  destruct (store_cmd c (st, b)) as [r [st1 b1]] eqn:E1.
  destruct (run_cmds store_cmd cs (st1, b1)) as [rs1 s2] eqn:E2. simplify_eq.
  destruct (cmd_refines _ _ _ _ _ _ _ _ Hh Hs Hokc ltac:(lia) E1) as (-> & Hh1 & Hs1).
  destruct (IH _ _ _ _ _ Hh1 Hs1 Hok ltac:(lia) E2) as (-> & Hh2 & Hs2).
  destruct (spec_cmd c m) as [r1 m1]. cbn [fst snd] in *. rewrite <- Z.add_assoc in Hs2.
  by destruct (run_cmds spec_cmd cs m1).
Qed.

(** The first start formats a blank disk. *)
Lemma first_start b r st b' :
  healthy_blk cap b -> sb_is_valid (sb_from_bytes (dsk b 0)) = false ->
  store_cmd SC_Restart (BlockStorage_new, b) = (r, (st, b')) ->
  r = Ok (SO_Bool true) /\ healthy_blk cap b' /\ stands_for st (dsk b') ∅ 0.
Proof.
  intros Hh Hv E.
  assert (exec cap (store_cmd SC_Restart) BlockStorage_new b
    (fun y st' f => exists x, y = SO_Bool x /\ x = true /\ store_inv cap st' f []) (fun _ => True)) as He.
  { apply exec_map; [|done]. apply exec_restart. by apply (exec_init_blank cap Hcap). }
  destruct (He _ _ _ (healthy_dev_ok _ Hh) E) as (_ & _ & Hhealthy & Hpost).
  destruct (Hhealthy Hh) as [Hh' [x ->]]. destruct (Hpost x eq_refl) as (y & -> & -> & Hinv).
  split; [done|]. split; [done|]. by exists [].
Qed.

(** A restart on a disk that recovers to a map. *)
Lemma restart_refines b m n cs :
  healthy_blk cap b -> recovers_to (dsk b) m n -> Forall cmd_ok cs -> 1 + n + total_sectors cs <= cap ->
  (run_cmds store_cmd (SC_Restart :: cs) (BlockStorage_new, b)).1
  = Ok (SO_Bool false) :: (run_cmds spec_cmd cs m).1.
Proof.
  intros Hh (log & Hrec & <- & Hn) Hok Hc. cbn [run_cmds].
  destruct (store_cmd SC_Restart (BlockStorage_new, b)) as [r [st1 b1]] eqn:E1.
  destruct (run_cmds store_cmd cs (st1, b1)) as [rs [st2 b2]] eqn:E2.
  assert (exec cap (store_cmd SC_Restart) BlockStorage_new b
    (fun y st' f => exists x, y = SO_Bool x /\ x = false /\ store_inv cap st' f log)
    (fun f => recoverable cap f log)) as He.
  { apply exec_map; [apply exec_restart; by apply (exec_init cap Hcap)|].
    intros x st' f [_ Hs]. eapply store_inv_recoverable; exact Hs. }
  destruct (He _ _ _ (healthy_dev_ok _ Hh) E1) as (_ & _ & Hhealthy & Hpost).
  destruct (Hhealthy Hh) as [Hh' [x ->]]. destruct (Hpost x eq_refl) as (y & -> & -> & Hinv).
  assert (stands_for st1 (dsk b1) (contents log) n) as Hs by by exists log.
  by destruct (run_refines _ _ _ _ _ _ _ _ Hh' Hs Hok Hc E2) as (-> & _).
Qed.

(** A command on any device: what can be recovered afterwards. *)
Lemma cmd_crash c st b m n r st' b' :
  dev_ok cap b -> stands_for st (dsk b) m n -> cmd_ok c -> 1 + n + cmd_sectors c <= cap ->
  store_cmd c (st, b) = (r, (st', b')) ->
  exists m', m' ∈ crash_states c m /\ (is_err r = false -> m' = (spec_cmd c m).2) /\
    recovers_to (dsk b') m' (n + cmd_sectors c).
Proof.
  intros Hd Hs Hok Hc E.
  destruct (match c with SC_Write k v => too_large k v | _ => false end) eqn:Hl.
  - destruct c as [|k v| | | | | |]; try done. rewrite write_too_large in E by done. simplify_eq.
    exists m. simpl. fold (too_large k v). rewrite Hl, Z.add_0_r. split; [set_solver|]. split; [done|].
    by eapply stands_recovers.
  - edestruct (exec_cmd c st b m n Hs Hok Hc) as (_ & HC & _ & Hpost); [by destruct c|done|exact E|].
    destruct r as [x|e].
    + exists (spec_cmd c m).2. split; [apply spec_in_crash|]. split; [done|].
      eapply stands_recovers. exact (proj2 (Hpost x eq_refl)).
    + destruct HC as (m' & Hm & Hrec). by exists m'.
Qed.
End steps.

(** ** Theorems *)

(** C10: On a healthy device of up to 2^31 sectors the store is a map: after the first start formats a blank disk, every sequence of reads, writes, deletions, listings, counts, clearings and restarts returns what the same commands return on a plain map, errors included, as long as the sectors written fit the device. A restart forgets the index in memory and rebuilds it from the disk. *)
Theorem storage_refines_map {D} {VB : VirtioBlock D} {DL : DiskLaws D} cap (b : Blk D) cs :
  1 <= cap < 2 ^ 31 -> healthy_blk cap b -> sb_is_valid (sb_from_bytes (dsk b 0)) = false ->
  Forall cmd_ok cs -> 1 + total_sectors cs <= cap ->
  (run_cmds store_cmd (SC_Restart :: cs) (BlockStorage_new, b)).1
  = Ok (SO_Bool true) :: (run_cmds spec_cmd cs ∅).1.
Proof.
  intros Hcap Hh Hv Hok Hc. cbn [run_cmds].
  destruct (store_cmd SC_Restart (BlockStorage_new, b)) as [r [st1 b1]] eqn:E1.
  destruct (run_cmds store_cmd cs (st1, b1)) as [rs [st2 b2]] eqn:E2.
  destruct (first_start cap Hcap _ _ _ _ Hh Hv E1) as (-> & Hh1 & Hs1).
  by destruct (run_refines cap Hcap _ _ _ _ _ _ _ _ Hh1 Hs1 Hok ltac:(lia) E2) as (-> & _).
Qed.

(** C11: The store survives a power failure at any sector write. Run any commands on a healthy device, then one more command on a device that may fail any request, writing any subset of its sectors; after a restart on a healthy device with the sectors that were left, the store behaves like a map that differs from the one before at most in the key of that command: for a write the map before, without the key, or with the new value, and the new value if the write had reported success. *)
Theorem storage_crash_safe {D} {VB : VirtioBlock D} {DL : DiskLaws D} cap (b : Blk D) cs c :
  1 <= cap < 2 ^ 31 -> healthy_blk cap b -> sb_is_valid (sb_from_bytes (dsk b 0)) = false ->
  Forall cmd_ok cs -> cmd_ok c -> 1 + total_sectors cs + cmd_sectors c <= cap ->
  let m := (run_cmds spec_cmd cs ∅).2 in
  let '(st1, b1) := (run_cmds store_cmd (SC_Restart :: cs) (BlockStorage_new, b)).2 in
  forall b2 r st3 b3 b4,
    dev_ok cap b2 -> same (dsk b1) (dsk b2) -> store_cmd c (st1, b2) = (r, (st3, b3)) ->
    healthy_blk cap b4 -> same (dsk b3) (dsk b4) ->
    exists m', m' ∈ crash_states c m /\ (is_err r = false -> m' = (spec_cmd c m).2) /\
      forall cs2, Forall cmd_ok cs2 ->
        1 + total_sectors cs + cmd_sectors c + total_sectors cs2 <= cap ->
        (run_cmds store_cmd (SC_Restart :: cs2) (BlockStorage_new, b4)).1
        = Ok (SO_Bool false) :: (run_cmds spec_cmd cs2 m').1.
Proof.
  intros Hcap Hh Hv Hok Hokc Hc m. cbn [run_cmds].
  destruct (store_cmd SC_Restart (BlockStorage_new, b)) as [r1 [st0 b0]] eqn:E1.
  destruct (run_cmds store_cmd cs (st0, b0)) as [rs [st1 b1]] eqn:E2. cbn [snd].
  destruct (first_start cap Hcap _ _ _ _ Hh Hv E1) as (-> & Hh0 & Hs0).
  pose proof (cmd_sectors_nonneg c Hokc) as Hnn.
  destruct (run_refines cap Hcap _ _ _ _ _ _ _ _ Hh0 Hs0 Hok ltac:(lia) E2) as (-> & Hh1 & Hs1).
  intros b2 r st3 b3 b4 Hd2 Hs2 E3 Hh4 Hs4.
  assert (stands_for cap st1 (dsk b2) m (0 + total_sectors cs)) as Hs2'.
  { destruct Hs1 as (log & Hinv & Hm & Hn). exists log. split; [|done]. by eapply store_inv_same. }
  destruct (cmd_crash cap Hcap c _ _ _ _ _ _ _ Hd2 Hs2' Hokc ltac:(lia) E3) as (m' & Hm' & Hok' & Hrec).
  exists m'. split; [done|]. split; [done|]. intros cs2 Hok2 Hc2.
  apply (restart_refines cap Hcap _ _ (0 + total_sectors cs + cmd_sectors c)); [done| |done|lia].
  destruct Hrec as (log & Hr & Hm & Hn). exists log. split; [|done]. by eapply recoverable_same.
Qed.

(** ** Witnesses and examples on a disk in memory *)
Definition ram_blk (sectors : Z) : Blk RamDisk :=
  Some (mk_VirtioBlkPci (mk_RamDisk ∅ sectors None) sectors).

(** The same sectors, with another number of sectors that can still be written. *)
Definition set_power (budget : option nat) (b : Blk RamDisk) : Blk RamDisk :=
  (fun dev => mk_VirtioBlkPci
     (mk_RamDisk (rd_sectors (transport dev)) (rd_capacity (transport dev)) budget) (capacity dev)) <$> b.

Lemma same_power budget b : same (dsk b) (dsk (set_power budget b)).
Proof. by destruct b. Qed.

Definition blk_sizes (b : Blk RamDisk) : option (Z * Z) :=
  (fun dev => (capacity dev, rd_capacity (transport dev))) <$> b.

Lemma power_dev_ok cap budget b : blk_sizes b = Some (cap, cap) -> dev_ok cap (set_power budget b).
Proof. destruct b; simpl; intros; simplify_eq. by eexists. Qed.

Lemma power_healthy cap b : blk_sizes b = Some (cap, cap) -> healthy_blk cap (set_power None b).
Proof. destruct b; simpl; intros; simplify_eq. by eexists. Qed.

Definition demo_cmds : list StoreCmd :=
  [SC_Write "b" [x01; x02]; SC_Write "a" [x03]; SC_Write "b" [x04]; SC_Delete "a"; SC_Restart;
   SC_Read "b"; SC_List ""; SC_Clear; SC_Restart; SC_Count].

Lemma storage_refines_map_witness :
  (run_cmds store_cmd (SC_Restart :: demo_cmds) (BlockStorage_new, ram_blk 8)).1
  = Ok (SO_Bool true) :: (run_cmds spec_cmd demo_cmds ∅).1.
Proof.
  apply (storage_refines_map 8); [lia| | | |].
  - by eexists.
  - vm_compute. reflexivity.
  - unfold demo_cmds. repeat (apply Forall_cons; split; [try exact I; vm_compute; reflexivity|]). apply Forall_nil_2.
  - vm_compute. discriminate.
Defined.

(** An overwrite cut off after two sectors has deleted the old value and written no new one. *)
Definition cut_state : BlockStorage * Blk RamDisk :=
  (run_cmds store_cmd [SC_Restart; SC_Write "a" [x01]] (BlockStorage_new, ram_blk 8)).2.

Definition cut_write : result StoreOut VirtioError * (BlockStorage * Blk RamDisk) :=
  store_cmd (SC_Write "a" [x02]) (cut_state.1, set_power (Some 2%nat) cut_state.2).

Lemma cut_write_eq :
  store_cmd (SC_Write "a" [x02]) (cut_state.1, set_power (Some 2%nat) cut_state.2)
  = (cut_write.1, (cut_write.2.1, cut_write.2.2)).
Proof. unfold cut_write. by destruct (store_cmd _ _) as [r [st b]]. Qed.

Lemma storage_crash_safe_witness :
  cut_write.1 = Err VE_IoError /\
  exists m', m' ∈ crash_states (SC_Write "a" [x02]) {["a" := [x01]]} /\
    (run_cmds store_cmd [SC_Restart; SC_Read "a"] (BlockStorage_new, set_power None cut_write.2.2)).1
    = Ok (SO_Bool false) :: (run_cmds spec_cmd [SC_Read "a"] m').1.
Proof.
  split; [vm_compute; reflexivity|].
  pose proof (storage_crash_safe 8 (ram_blk 8) [SC_Write "a" [x01]] (SC_Write "a" [x02]) ltac:(lia)
    ltac:(by eexists) ltac:(vm_compute; reflexivity)
    ltac:(apply Forall_singleton; vm_compute; reflexivity) ltac:(vm_compute; reflexivity)
    ltac:(vm_compute; discriminate)) as T.
  fold cut_state in T. rewrite (surjective_pairing cut_state) in T.
  destruct (T (set_power (Some 2%nat) cut_state.2) cut_write.1 cut_write.2.1 cut_write.2.2 (set_power None cut_write.2.2)
    (power_dev_ok 8 (Some 2%nat) cut_state.2 ltac:(vm_compute; reflexivity)) (same_power (Some 2%nat) cut_state.2)
    cut_write_eq
    (power_healthy 8 cut_write.2.2 ltac:(vm_compute; reflexivity)) (same_power None cut_write.2.2)) as (m' & Hm & _ & Hrun).
  exists m'. split; [exact Hm|]. apply Hrun; [apply Forall_singleton; exact I|vm_compute; discriminate].
Defined.

(** Compaction copies the entries in key order over sectors that later entries
    still occupy: on a disk of four sectors the write of a fourth key gives [b]
    the value of [a], and every command reports success. *)
Example compact_exchanges_values :
  (run_cmds store_cmd [SC_Restart; SC_Write "b" [x0b]; SC_Write "a" [x0a]; SC_Write "c" [x0c];
     SC_Delete "c"; SC_Write "d" [x0d]; SC_Read "b"] (BlockStorage_new, ram_blk 4)).1
  = [Ok (SO_Bool true); Ok SO_Done; Ok SO_Done; Ok SO_Done; Ok (SO_Bool true); Ok SO_Done;
     Ok (SO_Value (Some [x0a]))].
Proof. vm_compute. reflexivity. Qed.

(** A write that fails for lack of space has already deleted the old value. *)
Example failed_write_loses_value :
  (run_cmds store_cmd [SC_Restart; SC_Write "a" [x0a]; SC_Write "a" (replicate 1200 x01); SC_Read "a"]
     (BlockStorage_new, ram_blk 3)).1
  = [Ok (SO_Bool true); Ok SO_Done; Err VE_OutOfMemory; Ok (SO_Value None)].
Proof. vm_compute. reflexivity. Qed.
