(* ===== verification/VirtqProps.v ===== *)
(** * Virtqueue (crates/zos-hal/src/x86_64/virtio/queue.rs, blk_pci.rs)

    The split virtqueue of the VirtIO driver: a table of descriptors with a free
    list threaded through it, a ring of available chains for the device and a
    ring of used chains for the driver. The queue memory, which the device shares,
    is the record [QueueMem]; a table or ring is a map from the indices below the
    queue size. [None] stands for an access outside of them, which the code does
    not check, or for a chain that does not end. Fences are left out: steps of
    driver and device interleave. *)
From S2P Require Import Prelude StrLib BlockStorage.

Local Open Scope Z_scope.

Definition MAX_QUEUE_SIZE : Z := 256.
Definition NEXT : Z := 1.
Definition WRITE : Z := 2.

Record VirtqDesc : Type := mk_VirtqDesc {
  d_addr : Z;
  d_len : Z;
  d_flags : Z;
  d_next : Z }.

Record VirtqUsedElem : Type := mk_VirtqUsedElem { ue_id : Z; ue_len : Z }.

Record QueueMem : Type := mk_QueueMem {
  desc_table : gmap Z VirtqDesc;
  avail_idx : Z;
  avail_ring : gmap Z Z;
  used_idx : Z;
  used_ring : gmap Z VirtqUsedElem }.

Record Virtqueue : Type := mk_Virtqueue {
  vq_index : Z;
  vq_size : Z;
  num_free : Z;
  free_head : Z;
  last_used_idx : Z }.

(** A buffer: address, length, device-writable. *)
Abbreviation Buffer := (Z * Z * bool)%type.

(** ** Layout *)
Definition align_4096 (n : Z) : Z := Z.land (n + 4095) (2 ^ 64 - 4096).

Definition memory_size (queue_size : Z) : Z :=
  align_4096 (16 * queue_size) + align_4096 (6 + 2 * queue_size) + align_4096 (6 + 8 * queue_size).

Definition addresses (base queue_size : Z) : Z * Z * Z :=
  let avail_addr := u64_add base (align_4096 (16 * queue_size)) in
  (base, avail_addr, u64_add avail_addr (align_4096 (6 + 2 * queue_size))).

(** ** Creation *)
Definition is_power_of_two (n : Z) : bool := (0 <? n) && (Z.land n (n - 1) =? 0).

Definition below (n : Z) : list Z := map Z.of_nat (seq 0 (Z.to_nat n)).

Definition table_of {A : Type} (n : Z) (f : Z -> A) : gmap Z A := list_to_map (map (fun i => (i, f i)) (below n)).

Definition Virtqueue_new (index size : Z) : result (Virtqueue * QueueMem) VirtioError :=
  if (size =? 0) || (MAX_QUEUE_SIZE <? size) || negb (is_power_of_two size) then Err VE_InvalidArgument
  else
    let desc i := mk_VirtqDesc 0 0 0 (if i <? size - 1 then i + 1 else 0) in
    Ok (mk_Virtqueue index size size 0 0,
        mk_QueueMem (table_of size desc) 0 (table_of size (fun _ => 0)) 0 (table_of size (fun _ => mk_VirtqUsedElem 0 0))).

(** ** Ring access *)
Definition set_desc (i : Z) (d : VirtqDesc) (m : QueueMem) : QueueMem :=
  mk_QueueMem (<[i := d]> (desc_table m)) (avail_idx m) (avail_ring m) (used_idx m) (used_ring m).

Definition write_avail_idx (idx : Z) (m : QueueMem) : QueueMem :=
  mk_QueueMem (desc_table m) idx (avail_ring m) (used_idx m) (used_ring m).

Definition write_avail_ring (size idx desc_idx : Z) (m : QueueMem) : QueueMem :=
  mk_QueueMem (desc_table m) (avail_idx m) (<[idx mod size := desc_idx]> (avail_ring m)) (used_idx m) (used_ring m).

Definition read_used_elem (size idx : Z) (m : QueueMem) : option VirtqUsedElem := used_ring m !! (idx mod size).

Definition has_pending (q : Virtqueue) (m : QueueMem) : bool := negb (used_idx m =? last_used_idx q).

(** The head of a chain is published by the store to the index. *)
Definition publish (q : Virtqueue) (head : Z) (m : QueueMem) : QueueMem :=
  let idx := avail_idx m in
  write_avail_idx (wrap_u16 (idx + 1)) (write_avail_ring (vq_size q) idx head m).

Definition set_free (head n : Z) (q : Virtqueue) : Virtqueue :=
  mk_Virtqueue (vq_index q) (vq_size q) n head (last_used_idx q).

Definition write_flag (write_only : bool) : Z := if write_only then WRITE else 0.

(** ** Adding buffers *)
Definition add_buffer (buffer len : Z) (write_only : bool) (q : Virtqueue) (m : QueueMem)
  : option (result Z VirtioError * (Virtqueue * QueueMem)) :=
  if num_free q =? 0 then Some (Err VE_QueueNotAvailable, (q, m))
  else
    let desc_idx := free_head q in
    desc ← desc_table m !! desc_idx;
    let q := set_free (d_next desc) (wrap_u16 (num_free q - 1)) q in
    let m := set_desc desc_idx (mk_VirtqDesc buffer len (write_flag write_only) 0) m in
    Some (Ok desc_idx, (q, publish q desc_idx m)).

(** The loop of [add_buffer_chain] with the index of the previous descriptor. *)
Fixpoint chain_loop (buffers : list Buffer) (prev : option Z) (q : Virtqueue) (m : QueueMem)
  : option (Virtqueue * QueueMem) :=
  match buffers with
  | [] => Some (q, m)
  | (addr, len, write_only) :: rest =>
      let desc_idx := free_head q in
      desc ← desc_table m !! desc_idx;
      let q := set_free (d_next desc) (wrap_u16 (num_free q - 1)) q in
      let m := set_desc desc_idx (mk_VirtqDesc addr len (write_flag write_only) (d_next desc)) m in
      m ← match prev with
          | None => Some m
          | Some p =>
              prev_desc ← desc_table m !! p;
              Some (set_desc p (mk_VirtqDesc (d_addr prev_desc) (d_len prev_desc) (Z.lor (d_flags prev_desc) NEXT) desc_idx) m)
          end;
      desc ← desc_table m !! desc_idx;
      let desc := match rest with
                  | _ :: _ => mk_VirtqDesc (d_addr desc) (d_len desc) (Z.lor (d_flags desc) NEXT) (d_next desc)
                  | [] => mk_VirtqDesc (d_addr desc) (d_len desc) (d_flags desc) 0
                  end in
      chain_loop rest (Some desc_idx) q (set_desc desc_idx desc m)
  end.

Definition add_buffer_chain (buffers : list Buffer) (q : Virtqueue) (m : QueueMem)
  : option (result Z VirtioError * (Virtqueue * QueueMem)) :=
  match buffers with
  | [] => Some (Err VE_InvalidArgument, (q, m))
  | _ :: _ =>
      if num_free q <? wrap_u16 (len buffers) then Some (Err VE_QueueNotAvailable, (q, m))
      else
        let head_idx := free_head q in
        '(q, m) ← chain_loop buffers None q m;
        Some (Ok head_idx, (q, publish q head_idx m))
  end.

(** ** Taking used chains back *)

(** The loop of [free_descriptor_chain]; a chain has at most [vq_size] descriptors. *)
Fixpoint free_chain (fuel : nat) (idx : Z) (q : Virtqueue) (m : QueueMem) : option (Virtqueue * QueueMem) :=
  match fuel with
  | O => None
  | S fuel =>
      desc ← desc_table m !! idx;
      let next := d_next desc in
      let has_next := negb (Z.land (d_flags desc) NEXT =? 0) in
      let m := set_desc idx (mk_VirtqDesc (d_addr desc) (d_len desc) (d_flags desc) (free_head q)) m in
      let q := set_free idx (wrap_u16 (num_free q + 1)) q in
      if has_next then free_chain fuel next q m else Some (q, m)
  end.

Definition free_descriptor_chain (head : Z) (q : Virtqueue) (m : QueueMem) : option (Virtqueue * QueueMem) :=
  free_chain (Z.to_nat (vq_size q)) head q m.

Definition pop_used (q : Virtqueue) (m : QueueMem) : option (option (Z * Z) * (Virtqueue * QueueMem)) :=
  if negb (has_pending q m) then Some (None, (q, m))
  else
    let elem_idx := last_used_idx q mod vq_size q in
    elem ← read_used_elem (vq_size q) elem_idx m;
    let q := mk_Virtqueue (vq_index q) (vq_size q) (num_free q) (free_head q) (wrap_u16 (last_used_idx q + 1)) in
    let head := wrap_u16 (ue_id elem) in
    '(q, m) ← free_descriptor_chain head q m;
    Some (Some (head, ue_len elem), (q, m)).

(** ** Layout of a legacy queue (blk_pci.rs)

    Offset of the used ring and size of the memory, as [calculate_size] computes them. *)
Definition legacy_used_offset (queue_size : Z) : Z := align_4096 (16 * queue_size + (4 + 2 * queue_size + 2)).

Definition calculate_size (queue_size : Z) : Z := legacy_used_offset queue_size + (4 + 8 * queue_size + 2).

(** The queue of the block device has 128 entries: its rings are not where a
    legacy device looks for them. *)
Example legacy_layout_differs :
  addresses 0 128 = (0, 4096, 8192) /\ legacy_used_offset 128 = 4096 /\ legacy_used_offset 256 = (addresses 0 256).2.
Proof. vm_compute. auto. Qed.

(** * Descriptor chains and the free list of a virtqueue *)

Local Open Scope Z_scope.

Abbreviation Table := (gmap Z VirtqDesc).

(** The first descriptors of the list that starts at [h]. *)
Fixpoint free_list (T : Table) (h : Z) (fr : list Z) : Prop :=
  match fr with
  | [] => True
  | i :: fr => i = h /\ exists d, T !! i = Some d /\ free_list T (d_next d) fr
  end.

(** Descriptors that describe the buffers, linked in order. *)
Fixpoint chain (T : Table) (ds : list Z) (bs : list Buffer) : Prop :=
  match ds, bs with
  | i :: ds, (a, l, w) :: bs =>
      match ds, bs with
      | [], [] => T !! i = Some (mk_VirtqDesc a l (write_flag w) 0)
      | j :: _, _ :: _ => T !! i = Some (mk_VirtqDesc a l (Z.lor (write_flag w) NEXT) j) /\ chain T ds bs
      | _, _ => False
      end
  | _, _ => False
  end.

Definition with_table (T : Table) (m : QueueMem) : QueueMem :=
  mk_QueueMem T (avail_idx m) (avail_ring m) (used_idx m) (used_ring m).

Lemma free_list_ext T T' h fr : (forall i, i ∈ fr -> T' !! i = T !! i) -> free_list T h fr -> free_list T' h fr.
Proof.
  revert h. induction fr as [|i fr IH]; intros h He; [done|]. cbn [free_list]. intros (-> & d & Hd & Hf).
  split; [done|]. exists d. rewrite He by (by left). split; [done|]. apply IH; [|done]. intros j Hj. apply He. by right.
Qed.

Lemma chain_ext T T' ds bs : (forall i, i ∈ ds -> T' !! i = T !! i) -> chain T ds bs -> chain T' ds bs.
Proof.
  revert bs. induction ds as [|i ds IH]; intros bs He; [done|]. destruct bs as [|[[a l] w] bs]; [done|].
  cbn [chain]. rewrite He by (by left). destruct ds as [|j ds]; [done|]. destruct bs as [|b bs]; [done|].
  intros [Hi Hc]. split; [done|]. apply IH; [|done]. intros k Hk. apply He. by right.
Qed.

Lemma chain_length T ds bs : chain T ds bs -> length ds = length bs /\ ds <> [].
Proof.
  revert bs. induction ds as [|i ds IH]; intros bs; [done|]. destruct bs as [|[[a l] w] bs]; [done|]. cbn [chain].
  destruct ds as [|j ds], bs as [|b bs]; try done. intros [_ Hc]. apply IH in Hc as [Hl _]. simpl in *. split; [lia|done].
Qed.

Lemma flag_next w : negb (Z.land (Z.lor (write_flag w) NEXT) NEXT =? 0) = true /\ negb (Z.land (write_flag w) NEXT =? 0) = false.
Proof. by destruct w. Qed.

Lemma flag_write w : negb (Z.land (Z.lor (write_flag w) NEXT) WRITE =? 0) = w /\ negb (Z.land (write_flag w) WRITE =? 0) = w.
Proof. by destruct w. Qed.

(** ** Building a chain *)

(** The previous descriptor is linked to the next free one already. *)
Definition prev_ok (T : Table) (h : Z) (fr : list Z) (prev : option Z) : Prop :=
  match prev with
  | None => True
  | Some p => p ∉ fr /\ exists d, T !! p = Some d /\ Z.lor (d_flags d) NEXT = d_flags d /\ d_next d = h
  end.

Lemma chain_loop_cons a l w rest prev q m fr d :
  prev_ok (desc_table m) (free_head q) (free_head q :: fr) prev -> desc_table m !! free_head q = Some d ->
  chain_loop ((a, l, w) :: rest) prev q m =
  chain_loop rest (Some (free_head q)) (set_free (d_next d) (wrap_u16 (num_free q - 1)) q)
    (set_desc (free_head q)
       (match rest with
        | [] => mk_VirtqDesc a l (write_flag w) 0
        | _ => mk_VirtqDesc a l (Z.lor (write_flag w) NEXT) (d_next d)
        end) m).
Proof.
  intros Hp Hd. cbn [chain_loop]. rewrite Hd. cbn [mbind option_bind].
  set (i := free_head q) in *. set (d1 := mk_VirtqDesc a l (write_flag w) (d_next d)).
  assert (Hprev : (match prev with
    | None => Some (set_desc i d1 m)
    | Some p => prev_desc ← desc_table (set_desc i d1 m) !! p;
        Some (set_desc p (mk_VirtqDesc (d_addr prev_desc) (d_len prev_desc) (Z.lor (d_flags prev_desc) NEXT) i) (set_desc i d1 m))
    end) = Some (set_desc i d1 m)).
  { destruct prev as [p|]; [|done]. destruct Hp as (Hnot & [pa pl pf pn] & Hpd & Hfl & Hnx). simpl in Hfl, Hnx. subst pn.
    cbn [desc_table set_desc]. assert (p <> i) by (intros ->; apply Hnot; by left).
    rewrite lookup_insert_ne, Hpd by done. cbn [mbind option_bind d_addr d_len d_flags]. rewrite Hfl. f_equal.
    unfold set_desc. cbn [desc_table avail_idx avail_ring used_idx used_ring]. f_equal. apply insert_id.
    by rewrite lookup_insert_ne. }
  cbn zeta. rewrite Hprev. cbn [mbind option_bind].
  change (desc_table (set_desc i d1 m)) with (<[i := d1]> (desc_table m)).
  rewrite lookup_insert_eq. cbn [mbind option_bind d_addr d_len d_flags d_next]. f_equal.
  destruct rest; unfold set_desc; cbn [desc_table avail_idx avail_ring used_idx used_ring]; by rewrite insert_insert_eq.
Qed.

Lemma chain_loop_spec bs prev q m fr :
  bs <> [] -> (length bs <= length fr)%nat -> NoDup fr -> free_list (desc_table m) (free_head q) fr ->
  prev_ok (desc_table m) (free_head q) fr prev -> Z.of_nat (length bs) <= num_free q < 2 ^ 16 ->
  exists h T, chain_loop bs prev q m = Some (set_free h (num_free q - Z.of_nat (length bs)) q, with_table T m) /\
    chain T (take (length bs) fr) bs /\ free_list T h (drop (length bs) fr) /\
    forall i, i ∉ take (length bs) fr -> T !! i = desc_table m !! i.
Proof.
  revert prev q m fr. induction bs as [|[[a l] w] rest IH]; intros prev q m fr Hne Hl Hnd Hfl Hp Hn; [done|].
  destruct fr as [|i fr]; [simpl in Hl; lia|]. apply NoDup_cons in Hnd as [Hi Hnd].
  destruct Hfl as (-> & d & Hd & Hfl). set (i := free_head q) in *.
  rewrite (chain_loop_cons a l w rest prev q m fr d Hp Hd). fold i.
  assert (Hw : wrap_u16 (num_free q - 1) = num_free q - 1) by (apply Z.mod_small; simpl in Hn; lia). rewrite Hw.
  destruct rest as [|b rest].
  - cbn [chain_loop]. eexists _, _. split; [done|]. simpl. rewrite drop_0. split_and!.
    + by rewrite lookup_insert_eq.
    + eapply free_list_ext; [|exact Hfl]. intros j Hj. rewrite lookup_insert_ne; [done|]. by intros ->.
    + intros j Hj%not_elem_of_cons. by rewrite lookup_insert_ne by naive_solver.
  - set (m1 := set_desc i _ m). set (q1 := set_free (d_next d) (num_free q - 1) q).
    destruct fr as [|j fr]; [simpl in Hl; lia|].
    destruct (IH (Some i) q1 m1 (j :: fr)) as (h & T & Hloop & Hc & Hf & Hext).
    + done.
    + simpl in *. lia.
    + done.
    + eapply free_list_ext; [|exact Hfl]. intros k Hk. simpl. rewrite lookup_insert_ne; [done|]. by intros ->.
    + split; [done|]. eexists. simpl. rewrite lookup_insert_eq. split; [done|]. simpl.
      by rewrite <- Z.lor_assoc.
    + simpl in *. lia.
    + exists h, T. rewrite Hloop.
      assert (Hit : i ∉ take (length (b :: rest)) (j :: fr)) by (intros (k & Hk%list_elem_of_lookup_2 & _)%elem_of_take; done).
      assert (HTi : T !! i = Some (mk_VirtqDesc a l (Z.lor (write_flag w) NEXT) (d_next d)))
        by (rewrite Hext by done; simpl; by rewrite lookup_insert_eq).
      destruct Hfl as (-> & _). split_and!.
      * unfold q1, set_free, with_table, m1, set_desc. simpl. do 3 f_equal. lia.
      * cbn [take length chain]. cbn [take length] in Hc. by split.
      * done.
      * intros k Hk. cbn [take length] in Hk. apply not_elem_of_cons in Hk as [Hki Hk]. rewrite Hext by done.
        simpl. by rewrite lookup_insert_ne by congruence.
Qed.

(** ** Giving a chain back *)
Lemma free_chain_spec ds bs fuel i q m fr :
  chain (desc_table m) ds bs -> head ds = Some i -> NoDup ds -> (forall j, j ∈ ds -> j ∉ fr) ->
  free_list (desc_table m) (free_head q) fr -> (length ds <= fuel)%nat ->
  0 <= num_free q -> num_free q + Z.of_nat (length ds) < 2 ^ 16 ->
  exists h T, free_chain fuel i q m = Some (set_free h (num_free q + Z.of_nat (length ds)) q, with_table T m) /\
    free_list T h (reverse ds ++ fr) /\ forall j, j ∉ ds -> T !! j = desc_table m !! j.
Proof.
  revert bs fuel i q m fr. induction ds as [|i' ds IH]; intros bs fuel i q m fr Hc Hh Hnd Hdj Hfl Hfu H0 Hn; [done|].
  injection Hh as ->. apply NoDup_cons in Hnd as [Hi Hnd]. destruct fuel as [|fuel]; [simpl in Hfu; lia|].
  assert (Hd : exists d, desc_table m !! i = Some d /\
    match ds with [] => negb (Z.land (d_flags d) NEXT =? 0) = false
    | j :: _ => negb (Z.land (d_flags d) NEXT =? 0) = true /\ d_next d = j /\ exists bs', chain (desc_table m) ds bs' end).
  { destruct bs as [|[[a l] w] bs]; [done|]. cbn [chain] in Hc. destruct (flag_next w) as [F1 F2].
    destruct ds as [|j ds], bs as [|b bs]; try done; [by eexists|]. destruct Hc as [Hc1 Hc2]. eexists.
    split; [done|]. split_and!; [done|done|]. by eexists. }
  destruct Hd as (d & Hd & Hds). cbn [free_chain]. rewrite Hd. cbn [mbind option_bind]. cbn zeta.
  assert (Hw : wrap_u16 (num_free q + 1) = num_free q + 1) by (apply Z.mod_small; simpl in Hn; lia). rewrite Hw.
  set (m1 := set_desc i _ m). set (q1 := set_free i _ q).
  assert (Hfl1 : free_list (desc_table m1) i (i :: fr)).
  { split; [done|]. eexists. simpl. rewrite lookup_insert_eq. split; [done|]. eapply free_list_ext; [|exact Hfl].
    intros k Hk. rewrite lookup_insert_ne; [done|]. intros ->. apply (Hdj k); [by left|done]. }
  destruct ds as [|j ds].
  - rewrite Hds. exists i, (desc_table m1). split_and!.
    + done.
    + done.
    + intros k Hk%not_elem_of_cons. simpl. by rewrite lookup_insert_ne by naive_solver.
  - destruct Hds as (-> & Hnx & bs' & Hc'). rewrite Hnx.
    destruct (IH bs' fuel j q1 m1 (i :: fr)) as (h & T & Hfree & Hf & Hext).
    + eapply chain_ext; [|exact Hc']. intros k Hk. simpl. rewrite lookup_insert_ne; [done|]. by intros ->.
    + done.
    + done.
    + intros k Hk [->|Hk']%elem_of_cons; [done|]. by apply (Hdj k); [right|].
    + done.
    + simpl in *. lia.
    + simpl. lia.
    + simpl in *. lia.
    + exists h, T. rewrite Hfree. split_and!.
      * unfold q1, set_free, with_table, m1, set_desc. simpl. do 3 f_equal. lia.
      * by rewrite reverse_cons, <- app_assoc.
      * intros k Hk%not_elem_of_cons. rewrite Hext by naive_solver. simpl. by rewrite lookup_insert_ne by naive_solver.
Qed.

(** ** The device's view *)

(** The buffers of the chain that starts at [idx]. *)
Fixpoint read_chain (fuel : nat) (T : Table) (idx : Z) : option (list Buffer) :=
  match fuel with
  | O => None
  | S fuel =>
      d ← T !! idx;
      let b := (d_addr d, d_len d, negb (Z.land (d_flags d) WRITE =? 0)) in
      if negb (Z.land (d_flags d) NEXT =? 0) then rest ← read_chain fuel T (d_next d); Some (b :: rest)
      else Some [b]
  end.

Lemma read_chain_spec T ds bs fuel i :
  chain T ds bs -> head ds = Some i -> (length ds <= fuel)%nat -> read_chain fuel T i = Some bs.
Proof.
  revert bs fuel i. induction ds as [|i' ds IH]; intros bs fuel i Hc Hh Hl; [done|]. injection Hh as ->.
  destruct fuel as [|fuel]; [simpl in Hl; lia|]. destruct bs as [|[[a l] w] bs]; [done|].
  cbn [chain] in Hc. destruct (flag_next w) as [F1 F2]. destruct (flag_write w) as [W1 W2].
  destruct ds as [|j ds], bs as [|b bs]; try done; cbn [read_chain].
  - rewrite Hc. cbn [mbind option_bind d_flags d_addr d_len]. by rewrite F2, W2.
  - destruct Hc as [-> Hc]. cbn [mbind option_bind d_flags d_addr d_len d_next]. rewrite F1, W1.
    by rewrite (IH _ fuel j Hc) by (done || simpl in *; lia).
Qed.

(** * The virtqueue refines an abstract queue of requests *)

Local Open Scope Z_scope.

(** ** Driver and device

    The device has its own position in the available ring and the set of chains it
    works on. It fetches available chains in order and completes fetched chains in
    any order, once each, as the VirtIO specification prescribes. *)
Record QSys : Type := mk_QSys {
  qs_queue : Virtqueue;
  qs_mem : QueueMem;
  qs_fetched : Z;
  qs_busy : gset Z }.

Inductive qlabel : Type :=
| L_submit (bs : list Buffer) (r : result Z VirtioError)
| L_fetch (h : Z) (bs : list Buffer)
| L_complete (h n : Z)
| L_pop (r : option (Z * Z)).

Definition put_used (size h n : Z) (m : QueueMem) : QueueMem :=
  mk_QueueMem (desc_table m) (avail_idx m) (avail_ring m) (wrap_u16 (used_idx m + 1))
    (<[used_idx m mod size := mk_VirtqUsedElem h n]> (used_ring m)).

Inductive qstep : QSys -> qlabel -> QSys -> Prop :=
| qs_do_submit q m f b bs r q' m' :
    len bs < 2 ^ 16 -> add_buffer_chain bs q m = Some (r, (q', m')) ->
    qstep (mk_QSys q m f b) (L_submit bs r) (mk_QSys q' m' f b)
| qs_do_fetch q m f b h bs :
    f <> avail_idx m -> avail_ring m !! (f mod vq_size q) = Some h ->
    read_chain (Z.to_nat (vq_size q)) (desc_table m) h = Some bs ->
    qstep (mk_QSys q m f b) (L_fetch h bs) (mk_QSys q m (wrap_u16 (f + 1)) ({[h]} ∪ b))
| qs_do_complete q m f b h n :
    h ∈ b -> qstep (mk_QSys q m f b) (L_complete h n) (mk_QSys q (put_used (vq_size q) h n m) f (b ∖ {[h]}))
| qs_do_pop q m f b r q' m' :
    pop_used q m = Some (r, (q', m')) -> qstep (mk_QSys q m f b) (L_pop r) (mk_QSys q' m' f b).

(** ** The abstract queue

    Requests in flight by their identifier, of which some wait for the device, in
    order, some are with the device, and some are completed, in order. *)
Record AQueue : Type := mk_AQueue {
  a_flight : gmap Z (list Buffer);
  a_waiting : list Z;
  a_busy : gset Z;
  a_done : list (Z * Z) }.

(** Descriptors in use. *)
Definition a_used (a : AQueue) : nat := sum_list (map (fun x => length x.2) (map_to_list (a_flight a))).

Inductive astep (size : Z) (a : AQueue) : qlabel -> AQueue -> Prop :=
| as_empty : astep size a (L_submit [] (Err VE_InvalidArgument)) a
| as_full bs :
    bs <> [] -> size < Z.of_nat (a_used a) + len bs -> astep size a (L_submit bs (Err VE_QueueNotAvailable)) a
| as_submit bs h :
    bs <> [] -> Z.of_nat (a_used a) + len bs <= size -> 0 <= h < size -> a_flight a !! h = None ->
    astep size a (L_submit bs (Ok h)) (mk_AQueue (<[h := bs]> (a_flight a)) (a_waiting a ++ [h]) (a_busy a) (a_done a))
| as_fetch h bs w :
    a_waiting a = h :: w -> a_flight a !! h = Some bs ->
    astep size a (L_fetch h bs) (mk_AQueue (a_flight a) w ({[h]} ∪ a_busy a) (a_done a))
| as_complete h n :
    h ∈ a_busy a ->
    astep size a (L_complete h n) (mk_AQueue (a_flight a) (a_waiting a) (a_busy a ∖ {[h]}) (a_done a ++ [(h, n)]))
| as_pop_none : a_done a = [] -> astep size a (L_pop None) a
| as_pop h n d :
    a_done a = (h, n) :: d ->
    astep size a (L_pop (Some (h, n))) (mk_AQueue (delete h (a_flight a)) (a_waiting a) (a_busy a) d).

(** ** Rings *)

(** The last entries written to a ring of [size] slots, [U] having been written in all. *)
Definition ring_holds {A : Type} (size U : Z) (ring : gmap Z A) (l : list A) : Prop :=
  forall k x, l !! k = Some x -> ring !! ((U - len l + Z.of_nat k) mod size) = Some x.

Lemma ring_push {A} size U (ring : gmap Z A) l x :
  len l < size -> ring_holds size U ring l -> ring_holds size (U + 1) (<[U mod size := x]> ring) (l ++ [x]).
Proof.
  intros Hl Hr k y Hk. assert (Hlen : len (l ++ [x]) = len l + 1) by (unfold len; rewrite length_app; simpl; lia).
  rewrite Hlen. replace (U + 1 - (len l + 1) + Z.of_nat k) with (U - len l + Z.of_nat k) by lia.
  assert (Hll : len l = Z.of_nat (length l)) by done.
  apply lookup_snoc_Some in Hk as [[Hk Hy]|[-> ->]].
  - rewrite lookup_insert_ne; [by apply Hr|]. intros He.
    assert (Hm : (len l - Z.of_nat k) mod size = 0).
    { rewrite <- (Z.mod_0_l size) by lia. rewrite <- (Z.sub_diag (U mod size)) at 1. rewrite He at 2.
      rewrite <- Zminus_mod. f_equal. lia. }
    rewrite Z.mod_small in Hm by lia. lia.
  - replace (U - len l + Z.of_nat (length l)) with U by lia. apply lookup_insert_eq.
Qed.

Lemma ring_pop {A} size U (ring : gmap Z A) l x :
  ring_holds size U ring (x :: l) -> ring !! ((U - len (x :: l)) mod size) = Some x /\ ring_holds size U ring l.
Proof.
  intros Hr. pose proof (Hr 0%nat x eq_refl) as H0. rewrite Z.add_0_r in H0. split; [done|].
  intros k y Hk. pose proof (Hr (S k) y Hk) as Hs. rewrite <- Hs. f_equal. f_equal. unfold len. simpl. lia.
Qed.

Lemma wrap_mod size x : 0 < size -> (size | 2 ^ 16) -> wrap_u16 x mod size = x mod size.
Proof. intros Hs Hd. symmetry. by apply Znumtheory.Zmod_div_mod. Qed.

Lemma wrap_eq U n : 0 <= n < 2 ^ 16 -> wrap_u16 U = wrap_u16 (U - n) -> n = 0.
Proof.
  intros Hn He. assert (Hm : n mod 2 ^ 16 = 0); [|by rewrite Z.mod_small in Hm].
  unfold wrap_u16 in He. rewrite <- (Z.mod_0_l (2 ^ 16)) by lia. rewrite <- (Z.sub_diag (U mod 2 ^ 16)) at 1.
  rewrite He at 2. rewrite <- Zminus_mod. f_equal. lia.
Qed.

Lemma wrap_add x y : wrap_u16 (wrap_u16 x + y) = wrap_u16 (x + y).
Proof. unfold wrap_u16. by rewrite Zplus_mod_idemp_l. Qed.

(** ** Ownership of descriptors *)

(** The chains in flight: their descriptors and the buffers they describe. *)
Abbreviation Flight := (gmap Z (list Z * list Buffer)).

Definition descs (E : Flight) : list Z := flat_map (fun x => x.2.1) (map_to_list E).

#[local] Instance flat_map_perm {A B} (g : A -> list B) : Proper (Permutation ==> Permutation) (flat_map g) :=
  @Permutation_flat_map A B g.

Lemma descs_insert E h ds bs : E !! h = None -> descs (<[h := (ds, bs)]> E) ≡ₚ ds ++ descs E.
Proof. intros Hh. unfold descs. by rewrite map_to_list_insert by done. Qed.

Lemma descs_delete E h ds bs : E !! h = Some (ds, bs) -> descs E ≡ₚ ds ++ descs (delete h E).
Proof. intros Hh. unfold descs. by rewrite <- (map_to_list_delete E h (ds, bs) Hh). Qed.

Lemma elem_of_descs E i : i ∈ descs E <-> exists h ds bs, E !! h = Some (ds, bs) /\ i ∈ ds.
Proof.
  unfold descs. rewrite list_elem_of_In, in_flat_map. split.
  - intros ([h [ds bs]] & Hin & Hi). exists h, ds, bs. rewrite list_elem_of_In. split; [|done].
    apply elem_of_map_to_list. by apply list_elem_of_In.
  - intros (h & ds & bs & Hh & Hi). exists (h, (ds, bs)). rewrite <- !list_elem_of_In. split; [|done].
    by apply elem_of_map_to_list.
Qed.

Record qinv (size : Z) (s : QSys) (a : AQueue) (E : Flight) (fr : list Z) (A U : Z) : Prop := mk_qinv {
  iv_size : vq_size (qs_queue s) = size;
  iv_free : free_list (desc_table (qs_mem s)) (free_head (qs_queue s)) fr;
  iv_count : num_free (qs_queue s) = len fr;
  iv_perm : fr ++ descs E ≡ₚ below size;
  iv_flight : a_flight a = snd <$> E;
  iv_chain : forall h ds bs, E !! h = Some (ds, bs) -> head ds = Some h /\ chain (desc_table (qs_mem s)) ds bs;
  iv_parts : a_waiting a ++ elements (a_busy a) ++ (a_done a).*1 ≡ₚ (map_to_list E).*1;
  iv_busy : qs_busy s = a_busy a;
  iv_avail_idx : avail_idx (qs_mem s) = wrap_u16 A;
  iv_fetched : qs_fetched s = wrap_u16 (A - len (a_waiting a));
  iv_avail : ring_holds size A (avail_ring (qs_mem s)) (a_waiting a);
  iv_used_idx : used_idx (qs_mem s) = wrap_u16 U;
  iv_last : last_used_idx (qs_queue s) = wrap_u16 (U - len (a_done a));
  iv_used : ring_holds size U (used_ring (qs_mem s)) (map (fun p => mk_VirtqUsedElem p.1 p.2) (a_done a)) }.

Lemma length_below size : length (below size) = Z.to_nat size.
Proof. unfold below. by rewrite length_map, length_seq. Qed.

Lemma elem_of_below size i : i ∈ below size <-> 0 <= i < size.
Proof.
  unfold below. rewrite list_elem_of_fmap. split.
  - intros (k & -> & Hk%elem_of_seq). lia.
  - intros Hi. exists (Z.to_nat i). split; [lia|]. apply elem_of_seq. lia.
Qed.

Lemma NoDup_below size : NoDup (below size).
Proof. unfold below. apply NoDup_fmap; [apply _|apply NoDup_seq]. Qed.

Section refinement.
Context (size : Z) (Hpos : 0 < size <= 256) (Hdiv : (size | 2 ^ 16)).

Section inv.
Context (s : QSys) (a : AQueue) (E : Flight) (fr : list Z) (A U : Z) (Hinv : qinv size s a E fr A U).

Lemma inv_NoDup : NoDup fr /\ (forall i, i ∈ fr -> i ∉ descs E) /\ NoDup (descs E).
Proof. apply NoDup_app. rewrite (iv_perm _ _ _ _ _ _ _ Hinv). apply NoDup_below. Qed.

Lemma inv_range i : i ∈ fr \/ i ∈ descs E -> 0 <= i < size.
Proof. intros Hi. apply elem_of_below. rewrite <- (iv_perm _ _ _ _ _ _ _ Hinv). by apply elem_of_app. Qed.

Lemma inv_length : (length fr + length (descs E) = Z.to_nat size)%nat.
Proof. by rewrite <- length_app, (iv_perm _ _ _ _ _ _ _ Hinv), length_below. Qed.

(** Each chain has a descriptor, and as many as it has buffers. *)
Lemma flight_length : (length (map_to_list E) <= length (descs E))%nat /\ length (descs E) = a_used a.
Proof.
  unfold a_used, descs. rewrite (iv_flight _ _ _ _ _ _ _ Hinv), map_to_list_fmap.
  assert (Hall : forall x, x ∈ map_to_list E -> length x.2.1 = length x.2.2 /\ x.2.1 <> []).
  { intros [h [ds bs]] Hx%elem_of_map_to_list. destruct (iv_chain _ _ _ _ _ _ _ Hinv h ds bs Hx) as [_ Hc].
    by apply chain_length in Hc. }
  induction (map_to_list E) as [|x l IH]; [done|]. cbn [flat_map map fmap list_fmap sum_list length].
  rewrite length_app. destruct (Hall x) as [Hx Hne]; [by left|].
  destruct IH as [IH1 IH2]; [intros y Hy; apply Hall; by right|]. rewrite IH2. simpl.
  assert (length x.2.1 <> 0)%nat by (by destruct x.2.1). split; [lia|]. by rewrite Hx.
Qed.

Lemma parts_length : (length (a_waiting a) + length (elements (a_busy a)) + length (a_done a) = length (map_to_list E))%nat.
Proof.
  pose proof (Permutation_length (iv_parts _ _ _ _ _ _ _ Hinv)) as Hl. rewrite !length_app, !length_fmap in Hl. lia.
Qed.

Lemma in_flight h : h ∈ a_waiting a \/ h ∈ a_busy a \/ h ∈ (a_done a).*1 -> exists ds bs, E !! h = Some (ds, bs).
Proof.
  intros Hh. assert (Hin : h ∈ (map_to_list E).*1).
  { rewrite <- (iv_parts _ _ _ _ _ _ _ Hinv), !elem_of_app, elem_of_elements. tauto. }
  apply list_elem_of_fmap in Hin as ([h' [ds bs]] & -> & Hx%elem_of_map_to_list). eauto.
Qed.

Lemma head_in_descs h ds bs : E !! h = Some (ds, bs) -> h ∈ descs E /\ h ∈ ds.
Proof.
  intros Hh. destruct (iv_chain _ _ _ _ _ _ _ Hinv h ds bs Hh) as [Hd _]. destruct ds as [|i ds]; [done|].
  injection Hd as ->. split; [|by left]. apply elem_of_descs. exists h, (h :: ds), bs. split; [done|by left].
Qed.

Lemma flight_lookup h bs : a_flight a !! h = Some bs <-> exists ds, E !! h = Some (ds, bs).
Proof.
  rewrite (iv_flight _ _ _ _ _ _ _ Hinv), lookup_fmap. destruct (E !! h) as [[ds bs']|]; simpl; naive_solver.
Qed.
End inv.

(** ** Submitting *)
Lemma free_list_head T h fr : free_list T h fr -> fr <> [] -> head fr = Some h.
Proof. destruct fr as [|i fr]; [done|]. by intros [-> _]. Qed.

Lemma inv_submit s a E fr A U bs :
  qinv size s a E fr A U -> bs <> [] -> len bs <= len fr ->
  exists q m E' fr' a', add_buffer_chain bs (qs_queue s) (qs_mem s) = Some (Ok (free_head (qs_queue s)), (q, m)) /\
    astep size a (L_submit bs (Ok (free_head (qs_queue s)))) a' /\
    qinv size (mk_QSys q m (qs_fetched s) (qs_busy s)) a' E' fr' (A + 1) U.
Proof.
  intros Hi Hne Hl. destruct s as [q m f b]. cbn [qs_queue qs_mem qs_fetched qs_busy] in *.
  destruct (inv_NoDup _ _ _ _ _ _ Hi) as (Hnd & Hdis & _). pose proof (inv_length _ _ _ _ _ _ Hi) as Hlen.
  destruct (flight_length _ _ _ _ _ _ Hi) as [Hle Hused]. pose proof (parts_length _ _ _ _ _ _ Hi) as Hparts.
  pose proof Hi as [I1 I2 I3 I4 I5 I6 I7 I8 I9 I10 I11 I12 I13 I14]. cbn [qs_queue qs_mem qs_fetched qs_busy] in *.
  unfold len in Hl, I3. assert (Hlb : (length bs <= length fr)%nat) by lia.
  assert (Hbs : (0 < length bs)%nat) by (destruct bs; [done|simpl; lia]).
  destruct (chain_loop_spec bs None q m fr Hne Hlb Hnd I2 I ltac:(lia)) as (h & T & Hloop & Hc & Hf & Hext).
  assert (Hhd : head fr = Some (free_head q)) by (apply (free_list_head (desc_table m)); [done|]; intros ->; simpl in *; lia).
  set (hd := free_head q) in *.
  assert (Hhd' : head (take (length bs) fr) = Some hd) by (destruct fr, bs; try done; simpl in *; lia).
  assert (Hin : hd ∈ fr) by (destruct fr; [done|]; injection Hhd as ->; by left).
  assert (Hnone : E !! hd = None).
  { destruct (E !! hd) as [[ds bs']|] eqn:Hh; [|done]. exfalso. apply (Hdis hd Hin).
    by destruct (head_in_descs _ _ _ _ _ _ Hi hd ds bs' Hh). }
  eexists _, _, (<[hd := (take (length bs) fr, bs)]> E), (drop (length bs) fr), _. split_and!.
  - unfold add_buffer_chain. destruct bs as [|b0 bs]; [done|]. set (bs1 := b0 :: bs) in *. unfold wrap_u16, len.
    rewrite (Z.mod_small (Z.of_nat (length bs1))) by lia.
    rewrite (proj2 (Z.ltb_ge _ _)) by lia. rewrite Hloop. done.
  - apply as_submit; [done|unfold len; lia|by apply (inv_range _ _ _ _ _ _ Hi); left|].
    rewrite I5, lookup_fmap, Hnone. done.
  - constructor; cbn [qs_queue qs_mem qs_fetched qs_busy publish desc_table write_avail_idx write_avail_ring with_table set_free vq_size free_head num_free avail_idx avail_ring used_idx used_ring last_used_idx a_flight a_waiting a_busy a_done]; try done.
    + unfold len. rewrite length_drop. lia.
    + rewrite descs_insert by done. rewrite Permutation_app_swap_app, app_assoc, take_drop. done.
    + by rewrite I5, fmap_insert.
    + intros h' ds bs' [[<- [= <- <-]]|[Hn Hh']]%lookup_insert_Some; [done|]. destruct (I6 h' ds bs' Hh') as [H1 H2].
      split; [done|]. eapply chain_ext; [|exact H2]. intros i Hid. apply Hext.
      intros (k & Hk%list_elem_of_lookup_2 & _)%elem_of_take. apply (Hdis i Hk). apply elem_of_descs. eauto.
    + rewrite map_to_list_insert by done. cbn [fmap list_fmap]. rewrite <- I7.
      rewrite <- app_assoc. cbn [app]. by rewrite <- Permutation_middle.
    + by rewrite I9, wrap_add.
    + rewrite I10. f_equal. unfold len. rewrite length_app. simpl. lia.
    + rewrite I1, I9, wrap_mod by (done || lia). apply ring_push; [unfold len; lia|done].
Qed.

(** The driver's answer to any request. *)
Lemma inv_submit_any s a E fr A U bs :
  qinv size s a E fr A U -> len bs < 2 ^ 16 ->
  exists r q m a' E' fr' A', add_buffer_chain bs (qs_queue s) (qs_mem s) = Some (r, (q, m)) /\
    astep size a (L_submit bs r) a' /\ qinv size (mk_QSys q m (qs_fetched s) (qs_busy s)) a' E' fr' A' U.
Proof.
  intros Hi Hb. destruct (decide (bs = [])) as [->|Hne].
  { eexists _, _, _, a, E, fr, A. split_and!; [done|constructor|by destruct s]. }
  destruct (decide (len bs <= len fr)) as [Hl|Hl].
  { destruct (inv_submit _ _ _ _ _ _ bs Hi Hne Hl) as (q & m & E' & fr' & a' & H1 & H2 & H3).
    by eexists _, q, m, a', E', fr', (A + 1). }
  exists (Err VE_QueueNotAvailable), (qs_queue s), (qs_mem s), a, E, fr, A. split_and!; [| |by destruct s].
  - unfold add_buffer_chain. destruct bs as [|b0 bs]; [done|]. rewrite (iv_count _ _ _ _ _ _ _ Hi).
    unfold wrap_u16. rewrite Z.mod_small by (unfold len in *; lia). by rewrite (proj2 (Z.ltb_lt _ _)) by lia.
  - apply as_full; [done|]. pose proof (inv_length _ _ _ _ _ _ Hi). destruct (flight_length _ _ _ _ _ _ Hi).
    unfold len in *. lia.
Qed.

(** ** Taking completions *)
Lemma inv_pop s a E fr A U :
  qinv size s a E fr A U ->
  exists r q m a' E' fr', pop_used (qs_queue s) (qs_mem s) = Some (r, (q, m)) /\
    astep size a (L_pop r) a' /\ qinv size (mk_QSys q m (qs_fetched s) (qs_busy s)) a' E' fr' A U.
Proof.
  intros Hi. destruct s as [q m f b]. pose proof (parts_length _ _ _ _ _ _ Hi) as Hparts.
  destruct (flight_length _ _ _ _ _ _ Hi) as [Hle _]. pose proof (inv_length _ _ _ _ _ _ Hi) as Hlen.
  destruct (inv_NoDup _ _ _ _ _ _ Hi) as (Hnd & Hdis & Hndd).
  pose proof Hi as [I1 I2 I3 I4 I5 I6 I7 I8 I9 I10 I11 I12 I13 I14]. cbn [qs_queue qs_mem qs_fetched qs_busy] in *.
  destruct (a_done a) as [|[h n] d] eqn:Hd.
  { exists None, q, m, a, E, fr. split_and!; [|by constructor|done]. unfold pop_used, has_pending.
    rewrite I12, I13. unfold len. simpl. by rewrite Z.sub_0_r, Z.eqb_refl. }
  destruct (in_flight _ _ _ _ _ _ Hi h) as (ds & bs & Hh); [rewrite Hd; right; right; by left|].
  destruct (I6 h ds bs Hh) as [Hhead Hc]. destruct (head_in_descs _ _ _ _ _ _ Hi h ds bs Hh) as [Hhd _].
  pose proof (inv_range _ _ _ _ _ _ Hi h (or_intror Hhd)) as Hr.
  pose proof (descs_delete E h ds bs Hh) as Hdel. rewrite Hdel in Hndd. apply NoDup_app in Hndd as (Hds & Hds' & _).
  cbn [map fst snd] in I14. apply ring_pop in I14 as [Helem Hring].
  assert (Hll : len (mk_VirtqUsedElem h n :: map (fun p : Z * Z => mk_VirtqUsedElem p.1 p.2) d) = len ((h, n) :: d))
    by (unfold len; simpl; by rewrite length_map).
  rewrite Hll in Helem. set (q1 := mk_Virtqueue (vq_index q) (vq_size q) (num_free q) (free_head q) (wrap_u16 (last_used_idx q + 1))).
  assert (Hdl : (length ds <= length (descs E))%nat) by (rewrite Hdel, length_app; lia). unfold len in I3.
  destruct (free_chain_spec ds bs (Z.to_nat (vq_size q1)) h q1 m fr Hc Hhead Hds) as (fh & T & Hfree & Hf & Hext);
    [|done|simpl; lia|simpl; lia|simpl; lia|].
  { intros j Hj Hjf. apply (Hdis j Hjf), elem_of_descs. eauto. }
  exists (Some (h, n)). eexists _, _, (mk_AQueue (delete h (a_flight a)) (a_waiting a) (a_busy a) d), (delete h E), (reverse ds ++ fr).
  split_and!.
  - assert (Hpend : has_pending q m = true).
    { unfold has_pending. rewrite I12, I13. apply negb_true_iff, Z.eqb_neq.
      intros He%wrap_eq; [unfold len in He; simpl in He; lia|]. unfold len. simpl. simpl in Hparts. lia. }
    assert (Hread : read_used_elem (vq_size q) (last_used_idx q mod vq_size q) m = Some (mk_VirtqUsedElem h n)).
    { unfold read_used_elem. by rewrite I1, Z.mod_mod, I13, wrap_mod by (done || lia). }
    unfold pop_used. rewrite Hpend. cbn [negb]. cbn zeta. rewrite Hread. cbn [mbind option_bind ue_id ue_len].
    assert (wrap_u16 h = h) as -> by (apply Z.mod_small; lia). fold q1. unfold free_descriptor_chain. by rewrite Hfree.
  - by apply as_pop.
  - constructor; cbn [qs_queue qs_mem qs_fetched qs_busy desc_table with_table set_free vq_size free_head num_free avail_idx avail_ring used_idx used_ring last_used_idx a_flight a_waiting a_busy a_done q1]; try done.
    + unfold len. rewrite length_app, length_reverse. lia.
    + rewrite <- I4, Hdel. rewrite (reverse_Permutation ds), <- app_assoc. apply Permutation_app_swap_app.
    + by rewrite I5, fmap_delete.
    + intros h' ds' bs' [Hn Hh']%lookup_delete_Some. destruct (I6 h' ds' bs' Hh') as [H1 H2]. split; [done|].
      eapply chain_ext; [|exact H2]. intros i Hid. apply Hext. intros Hids. apply (Hds' i Hids).
      apply elem_of_descs. exists h', ds', bs'. split; [by rewrite lookup_delete_ne|done].
    + cbn [fmap list_fmap fst] in I7. rewrite <- (map_to_list_delete E h (ds, bs) Hh) in I7. cbn [fmap list_fmap fst] in I7.
      rewrite !(app_assoc (a_waiting a)), <- Permutation_middle in I7. rewrite app_assoc. by eapply Permutation_cons_inv.
    + rewrite I13, wrap_add. f_equal. unfold len. simpl. lia.
Qed.

(** ** The device *)
Lemma inv_fetch q m f b a E fr A U h bs :
  qinv size (mk_QSys q m f b) a E fr A U -> f <> avail_idx m -> avail_ring m !! (f mod vq_size q) = Some h ->
  read_chain (Z.to_nat (vq_size q)) (desc_table m) h = Some bs ->
  exists a', astep size a (L_fetch h bs) a' /\ qinv size (mk_QSys q m (wrap_u16 (f + 1)) ({[h]} ∪ b)) a' E fr A U.
Proof.
  intros Hi Hf Hr Hc. destruct (inv_NoDup _ _ _ _ _ _ Hi) as (_ & _ & Hndd).
  pose proof (inv_length _ _ _ _ _ _ Hi) as Hlen. destruct (flight_length _ _ _ _ _ _ Hi) as [Hle _].
  pose proof Hi as [I1 I2 I3 I4 I5 I6 I7 I8 I9 I10 I11 I12 I13 I14]. cbn [qs_queue qs_mem qs_fetched qs_busy] in *.
  destruct (a_waiting a) as [|h' w] eqn:Hw; [exfalso; apply Hf; rewrite I10, I9; unfold len; simpl; by rewrite Z.sub_0_r|].
  apply ring_pop in I11 as [Hhead Hring]. rewrite I1, I10, wrap_mod, Hhead in Hr by (done || lia). injection Hr as ->.
  destruct (in_flight _ _ _ _ _ _ Hi h) as (ds & bs' & Hh); [left; rewrite Hw; by left|].
  destruct (I6 h ds bs' Hh) as [Hd Hch].
  assert (Hdl : (length ds <= length (descs E))%nat) by (rewrite (descs_delete E h ds bs' Hh), length_app; lia).
  rewrite (read_chain_spec _ ds bs' _ h Hch Hd) in Hc by lia. injection Hc as ->.
  assert (Hnb : h ∉ a_busy a).
  { assert (Hnd : NoDup (map_to_list E).*1) by apply NoDup_fst_map_to_list. rewrite <- I7 in Hnd.
    cbn [app] in Hnd. apply NoDup_cons in Hnd as [Hn _]. intros Hb. apply Hn. rewrite !elem_of_app, elem_of_elements. tauto. }
  eexists. split; [eapply as_fetch; [exact Hw|]; apply (flight_lookup _ _ _ _ _ _ Hi); by exists ds|].
  constructor; cbn [qs_queue qs_mem qs_fetched qs_busy a_flight a_waiting a_busy a_done]; try done.
  - rewrite elements_union_singleton by done. rewrite <- I7. cbn [app]. by rewrite <- Permutation_middle.
  - by rewrite I8.
  - rewrite I10, wrap_add. f_equal. unfold len. simpl. lia.
Qed.

Lemma inv_complete q m f b a E fr A U h n :
  qinv size (mk_QSys q m f b) a E fr A U -> h ∈ b ->
  exists a', astep size a (L_complete h n) a' /\
    qinv size (mk_QSys q (put_used (vq_size q) h n m) f (b ∖ {[h]})) a' E fr A (U + 1).
Proof.
  intros Hi Hb. pose proof (inv_length _ _ _ _ _ _ Hi) as Hlen. destruct (flight_length _ _ _ _ _ _ Hi) as [Hle _].
  pose proof (parts_length _ _ _ _ _ _ Hi) as Hparts.
  pose proof Hi as [I1 I2 I3 I4 I5 I6 I7 I8 I9 I10 I11 I12 I13 I14]. cbn [qs_queue qs_mem qs_fetched qs_busy] in *. subst b.
  assert (Hel : elements (a_busy a) ≡ₚ h :: elements (a_busy a ∖ {[h]})).
  { rewrite <- elements_union_singleton by set_solver. by rewrite <- (union_difference_singleton_L h (a_busy a)) by done. }
  eexists. split; [by apply as_complete|].
  constructor; cbn [qs_queue qs_mem qs_fetched qs_busy put_used desc_table avail_idx avail_ring used_idx used_ring a_flight a_waiting a_busy a_done]; try done.
  - rewrite <- I7, Hel, fmap_app. cbn [fmap list_fmap fst app]. rewrite !app_assoc. by rewrite <- Permutation_cons_append, <- !app_assoc, <- Permutation_middle.
  - by rewrite I12, wrap_add.
  - rewrite I13. f_equal. unfold len. rewrite length_app. simpl. lia.
  - rewrite map_app. cbn [map fst snd]. rewrite I1, I12, wrap_mod by (done || lia). apply ring_push; [|done].
    unfold len. rewrite length_map. rewrite Hel in Hparts. simpl in Hparts. lia.
Qed.

Lemma inv_step s l s' a E fr A U :
  qinv size s a E fr A U -> qstep s l s' -> exists a' E' fr' A' U', astep size a l a' /\ qinv size s' a' E' fr' A' U'.
Proof.
  intros Hi Hs. destruct Hs as [q m f b bs r q' m' Hb Hadd|q m f b h bs Hf Hr Hc|q m f b h n Hb|q m f b r q' m' Hpop].
  - destruct (inv_submit_any _ _ _ _ _ _ bs Hi Hb) as (r1 & q1 & m1 & a' & E' & fr' & A' & H1 & H2 & H3).
    cbn [qs_queue qs_mem qs_fetched qs_busy] in *. rewrite Hadd in H1. simplify_eq. by exists a', E', fr', A', U.
  - destruct (inv_fetch _ _ _ _ _ _ _ _ _ _ _ Hi Hf Hr Hc) as (a' & H1 & H2). by exists a', E, fr, A, U.
  - destruct (inv_complete _ _ _ _ _ _ _ _ _ _ n Hi Hb) as (a' & H1 & H2). by exists a', E, fr, A, (U + 1).
  - destruct (inv_pop _ _ _ _ _ _ Hi) as (r1 & q1 & m1 & a' & E' & fr' & H1 & H2 & H3).
    cbn [qs_queue qs_mem qs_fetched qs_busy] in *. rewrite Hpop in H1. simplify_eq. by exists a', E', fr', A, U.
Qed.
End refinement.

(** ** Runs *)
Inductive lrun {S : Type} (step : S -> qlabel -> S -> Prop) (s : S) : list qlabel -> S -> Prop :=
| lr_nil : lrun step s [] s
| lr_snoc ls s1 l s2 : lrun step s ls s1 -> step s1 l s2 -> lrun step s (ls ++ [l]) s2.

Lemma table_of_lookup {A} n (f : Z -> A) i : 0 <= i < n -> table_of n f !! i = Some (f i).
Proof.
  intros Hi. unfold table_of. apply elem_of_list_to_map_1.
  - assert (Hf : forall l, (map (fun i => (i, f i)) l).*1 = l) by (induction l as [|x l IH]; [done|]; cbn; f_equal; exact IH).
    rewrite Hf. apply NoDup_below.
  - apply list_elem_of_fmap. exists i. split; [done|by apply elem_of_below].
Qed.

Lemma power_of_two_divides size : is_power_of_two size = true -> size <= 256 -> (size | 2 ^ 16).
Proof.
  intros Hp Hs. assert (Hall : forallb (fun n => negb (is_power_of_two n) || (2 ^ 16 mod n =? 0)) (below 257) = true)
    by (vm_compute; reflexivity).
  assert (0 < size) by (unfold is_power_of_two in Hp; apply andb_true_iff in Hp as [?%Z.ltb_lt _]; lia).
  rewrite forallb_forall in Hall. specialize (Hall size). rewrite Hp in Hall. cbn [negb orb] in Hall.
  apply Z.mod_divide; [lia|]. apply Z.eqb_eq, Hall, list_elem_of_In, elem_of_below. lia.
Qed.

Lemma new_free_list (T : Table) size :
  (forall i, 0 <= i < size -> exists d, T !! i = Some d /\ (i < size - 1 -> d_next d = i + 1)) ->
  forall n k, Z.of_nat (k + n) = size -> free_list T (Z.of_nat k) (map Z.of_nat (seq k n)).
Proof.
  intros HT n. induction n as [|n IH]; intros k Hk; [done|]. cbn [seq map free_list]. split; [done|].
  destruct (HT (Z.of_nat k)) as (d & Hd & Hn); [lia|]. exists d. split; [done|]. destruct n as [|n]; [done|].
  rewrite Hn by lia. replace (Z.of_nat k + 1) with (Z.of_nat (S k)) by lia. apply IH. lia.
Qed.

Lemma new_inv index size q m :
  Virtqueue_new index size = Ok (q, m) ->
  0 < size <= 256 /\ (size | 2 ^ 16) /\ qinv size (mk_QSys q m 0 ∅) (mk_AQueue ∅ [] ∅ []) ∅ (below size) 0 0.
Proof.
  unfold Virtqueue_new, MAX_QUEUE_SIZE. destruct (Z.eqb_spec size 0) as [|H0]; [done|].
  destruct (Z.ltb_spec 256 size) as [|H1]; [done|]. destruct (is_power_of_two size) eqn:Hp; [|done]. cbn [orb negb].
  intros [= <- <-]. assert (0 < size) by (unfold is_power_of_two in Hp; apply andb_true_iff in Hp as [?%Z.ltb_lt _]; lia).
  split_and!; [lia|lia|by apply power_of_two_divides|]. constructor; try done; cbn [qs_queue qs_mem desc_table free_head num_free].
  - apply (new_free_list _ size) with (n := Z.to_nat size) (k := 0%nat); [|lia]. intros i Hi. rewrite table_of_lookup by done. eexists. split; [done|]. simpl.
    intros Hn. by rewrite (proj2 (Z.ltb_lt _ _)).
  - unfold len. rewrite length_below. lia.
  - unfold descs. rewrite map_to_list_empty. by rewrite app_nil_r.
Qed.

(** C15: The virtqueue refines an abstract queue of requests. From a new queue of any
    admissible size, every interleaving of submissions and polls by the driver
    with fetches and completions by the device behaves as the abstract queue:
    the device reads, in order, exactly the buffers that were submitted; a
    request gets an identifier that no request in flight has; a submission fails
    only when it is empty or when its buffers exceed the free descriptors; a
    poll returns the completions in order, each once. The count of free descriptors
    is exact across any wrap-around of the indices, and the driver never
    reads outside the table or loops. *)
Theorem virtqueue_refines index size q m ls s :
  Virtqueue_new index size = Ok (q, m) -> lrun qstep (mk_QSys q m 0 ∅) ls s ->
  exists a, lrun (astep size) (mk_AQueue ∅ [] ∅ []) ls a /\
    num_free (qs_queue s) = size - Z.of_nat (a_used a) /\
    (forall bs, len bs < 2 ^ 16 -> is_Some (add_buffer_chain bs (qs_queue s) (qs_mem s))) /\
    is_Some (pop_used (qs_queue s) (qs_mem s)).
Proof.
  intros Hnew Hrun. destruct (new_inv index size q m Hnew) as (Hpos & Hdiv & Hi0).
  assert (Hgen : exists a E fr A U, lrun (astep size) (mk_AQueue ∅ [] ∅ []) ls a /\ qinv size s a E fr A U).
  { clear Hnew. induction Hrun as [|ls s1 l s2 _ IH Hs]; [by eexists _, _, _, _, _; split; [constructor|]|].
    destruct IH as (a & E & fr & A & U & Ha & Hi).
    destruct (inv_step size Hpos Hdiv _ _ _ _ _ _ _ _ Hi Hs) as (a' & E' & fr' & A' & U' & Hs' & Hi').
    exists a', E', fr', A', U'. split; [by eapply lr_snoc|done]. }
  destruct Hgen as (a & E & fr & A & U & Ha & Hi). exists a. split_and!; [done| | |].
  - rewrite (iv_count _ _ _ _ _ _ _ Hi). pose proof (inv_length size _ _ _ _ _ _ Hi).
    destruct (flight_length size _ _ _ _ _ _ Hi). unfold len. lia.
  - intros bs Hb. destruct (inv_submit_any size Hpos Hdiv _ _ _ _ _ _ bs Hi Hb) as (r & q' & m' & _ & _ & _ & _ & -> & _).
    by eexists.
  - destruct (inv_pop size Hpos Hdiv _ _ _ _ _ _ Hi) as (r & q' & m' & _ & _ & _ & -> & _). by eexists.
Qed.

(** A single buffer is a chain of length one. *)
Lemma add_buffer_single buffer l w q m :
  0 <= num_free q -> add_buffer buffer l w q m = add_buffer_chain [(buffer, l, w)] q m.
Proof.
  intros Hn. unfold add_buffer, add_buffer_chain. change (wrap_u16 (len [(buffer, l, w)])) with 1.
  destruct (Z.eqb_spec (num_free q) 0) as [->|H0]; [done|]. rewrite (proj2 (Z.ltb_ge _ _)) by lia.
  destruct (desc_table m !! free_head q) as [d|] eqn:Hd; cbn [chain_loop]; rewrite Hd; [|done].
  cbn [mbind option_bind]. cbn zeta.
  change (desc_table (set_desc (free_head q) ?d1 m)) with (<[free_head q := d1]> (desc_table m)).
  rewrite lookup_insert_eq. cbn [mbind option_bind d_addr d_len d_flags]. unfold set_desc. simpl.
  by rewrite insert_insert_eq.
Qed.

(** A queue of four descriptors: a read request of three buffers, a second one that
    does not fit, the completion of the first, and a request that reuses its descriptors. *)
Definition request : list Buffer := [(0x1000, 16, false); (0x2000, 512, true); (0x3000, 1, true)].

Definition demo_labels : list qlabel :=
  [L_submit request (Ok 0); L_submit [(0x4000, 16, false); (0x5000, 1, true)] (Err VE_QueueNotAvailable);
   L_fetch 0 request; L_complete 0 513; L_pop (Some (0, 513)); L_pop None; L_submit request (Ok 2)].

Definition demo_queue : Virtqueue * QueueMem :=
  match Virtqueue_new 0 4 with Ok s => s | Err _ => (mk_Virtqueue 0 0 0 0 0, mk_QueueMem ∅ 0 ∅ 0 ∅) end.

Lemma demo_queue_new : Virtqueue_new 0 4 = Ok (demo_queue.1, demo_queue.2).
Proof. vm_compute. reflexivity. Qed.

Lemma demo_queue_run : exists s, lrun qstep (mk_QSys demo_queue.1 demo_queue.2 0 ∅) demo_labels s /\ num_free (qs_queue s) = 1.
Proof.
  eexists. split.
  - change demo_labels with ((((((([] ++ [L_submit request (Ok 0)]) ++ [L_submit [(0x4000, 16, false); (0x5000, 1, true)] (Err VE_QueueNotAvailable)])
      ++ [L_fetch 0 request]) ++ [L_complete 0 513]) ++ [L_pop (Some (0, 513))]) ++ [L_pop None]) ++ [L_submit request (Ok 2)]).
    repeat eapply lr_snoc; [apply lr_nil|..].
    + apply qs_do_submit; [done|]. vm_compute. reflexivity.
    + apply qs_do_submit; [done|]. vm_compute. reflexivity.
    + apply qs_do_fetch; [done|vm_compute; reflexivity..].
    + apply qs_do_complete. set_solver.
    + apply qs_do_pop. vm_compute. reflexivity.
    + apply qs_do_pop. vm_compute. reflexivity.
    + apply qs_do_submit; [done|]. vm_compute. reflexivity.
  - reflexivity.
Qed.

Lemma virtqueue_refines_witness :
  exists a, lrun (astep 4) (mk_AQueue ∅ [] ∅ []) demo_labels a /\ 1 = 4 - Z.of_nat (a_used a).
Proof.
  destruct demo_queue_run as (s & Hrun & Hn).
  destruct (virtqueue_refines 0 4 demo_queue.1 demo_queue.2 demo_labels s demo_queue_new Hrun) as (a & Ha & Hc & _).
  exists a. rewrite Hn in Hc. split; assumption.
Defined.
