(* ===== verification/WasmHost.v ===== *)
(** * Host functions of wasm processes (crates/zos-hal/src/x86_64: wasm/host.rs, random.rs, serial.rs)

    On x86_64 a process is a wasm module run by the wasmi interpreter. The
    functions it imports work on the host state of the process, on its linear
    memory and on the hardware: the serial port and the RDRAND instruction. A
    host function returns values, traps (which suspends the call so that it can be
    resumed), or panics, which takes the kernel down. [usize] has 64 bits here.
    Lines the runtime itself logs on the serial port are left out. *)
From S2P Require Import Prelude StrLib.

Local Open Scope Z_scope.

(** ** Hardware *)

(** [hw_random n] is what the [n]-th RDRAND instruction gives, [None] when it
    clears the carry flag. [hw_buffer] is the input buffer the interrupt handler
    fills, [hw_line] what the UART holds. *)
Record Hardware : Type := mk_Hardware {
  hw_serial : list byte;
  hw_buffer : list byte;
  hw_line : list byte;
  hw_rdrand : bool;
  hw_random : Z -> option Z;
  hw_draws : Z }.

Definition MAX_INPUT_BUFFER : Z := 256.

Definition write_bytes (bytes : list byte) (h : Hardware) : Hardware :=
  mk_Hardware (hw_serial h ++ bytes) (hw_buffer h) (hw_line h) (hw_rdrand h) (hw_random h) (hw_draws h).

Definition write_str (s : string) (h : Hardware) : Hardware := write_bytes (str_bytes s) h.

Definition write_byte (b : byte) (h : Hardware) : Hardware := write_bytes [b] h.

Definition set_input (buffer line : list byte) (h : Hardware) : Hardware :=
  mk_Hardware (hw_serial h) buffer line (hw_rdrand h) (hw_random h) (hw_draws h).

Definition queue_input_byte (b : byte) (h : Hardware) : Hardware :=
  if len (hw_buffer h) <? MAX_INPUT_BUFFER then set_input (hw_buffer h ++ [b]) (hw_line h) h else h.

Definition receive_byte_raw (h : Hardware) : option byte * Hardware :=
  match hw_line h with
  | b :: rest => (Some b, set_input (hw_buffer h) rest h)
  | [] => (None, h)
  end.

Definition read_byte (h : Hardware) : option byte * Hardware :=
  match hw_buffer h with
  | b :: rest => (Some b, set_input rest (hw_line h) h)
  | [] => receive_byte_raw h
  end.

Definition rdrand_u64 (h : Hardware) : option Z * Hardware :=
  (hw_random h (hw_draws h),
   mk_Hardware (hw_serial h) (hw_buffer h) (hw_line h) (hw_rdrand h) (hw_random h) (hw_draws h + 1)).

(** The loop of [fill_random_bytes] over chunks of eight bytes; [n] bytes are
    left and [fuel] turns suffice when there are as many. *)
Fixpoint fill_loop (fuel : nat) (n : Z) (acc : list byte) (h : Hardware) : option (list byte) * Hardware :=
  match fuel with
  | O => (Some acc, h)
  | S fuel' =>
      if n <=? 0 then (Some acc, h)
      else
        match rdrand_u64 h with
        | (None, h) => (None, h)
        | (Some r, h) =>
            let to_copy := Z.min n 8 in
            fill_loop fuel' (n - to_copy) (acc ++ take (Z.to_nat to_copy) (to_le_bytes 8 r)) h
        end
  end.

(** [fill_random_bytes] on a buffer of [n] bytes: the bytes it then holds, or
    [None] for [false]. *)
Definition fill_random_bytes (n : Z) (h : Hardware) : option (list byte) * Hardware :=
  if hw_rdrand h then fill_loop (Z.to_nat n) n [] h else (None, h).

(** ** Host state *)
Record PendingSyscallInfo : Type := mk_PendingSyscallInfo {
  pi_syscall_num : Z; pi_args : Z * Z * Z; pi_data : list byte }.

Record HostState : Type := mk_HostState {
  hs_pid : Z;
  syscall_in_buffer : list byte;
  syscall_out_buffer : list byte;
  syscall_result : Z;
  has_pending_result : bool;
  waiting_for_syscall : bool;
  yielded : bool;
  pending_syscall : option PendingSyscallInfo;
  trapped_from_yield : bool }.

Definition HostState_new (pid : Z) : HostState := mk_HostState pid [] [] 0 false false false None false.

Definition set_in (b : list byte) (s : HostState) : HostState :=
  mk_HostState (hs_pid s) b (syscall_out_buffer s) (syscall_result s) (has_pending_result s)
    (waiting_for_syscall s) (yielded s) (pending_syscall s) (trapped_from_yield s).
Definition set_out (b : list byte) (s : HostState) : HostState :=
  mk_HostState (hs_pid s) (syscall_in_buffer s) b (syscall_result s) (has_pending_result s)
    (waiting_for_syscall s) (yielded s) (pending_syscall s) (trapped_from_yield s).
Definition set_result (r : Z) (has : bool) (s : HostState) : HostState :=
  mk_HostState (hs_pid s) (syscall_in_buffer s) (syscall_out_buffer s) r has
    (waiting_for_syscall s) (yielded s) (pending_syscall s) (trapped_from_yield s).
Definition set_waiting (w : bool) (s : HostState) : HostState :=
  mk_HostState (hs_pid s) (syscall_in_buffer s) (syscall_out_buffer s) (syscall_result s)
    (has_pending_result s) w (yielded s) (pending_syscall s) (trapped_from_yield s).
Definition set_yielded (y : bool) (s : HostState) : HostState :=
  mk_HostState (hs_pid s) (syscall_in_buffer s) (syscall_out_buffer s) (syscall_result s)
    (has_pending_result s) (waiting_for_syscall s) y (pending_syscall s) (trapped_from_yield s).
Definition set_pending (p : option PendingSyscallInfo) (s : HostState) : HostState :=
  mk_HostState (hs_pid s) (syscall_in_buffer s) (syscall_out_buffer s) (syscall_result s)
    (has_pending_result s) (waiting_for_syscall s) (yielded s) p (trapped_from_yield s).
Definition set_from_yield (t : bool) (s : HostState) : HostState :=
  mk_HostState (hs_pid s) (syscall_in_buffer s) (syscall_out_buffer s) (syscall_result s)
    (has_pending_result s) (waiting_for_syscall s) (yielded s) (pending_syscall s) t.

Definition set_syscall_result (r : Z) (data : list byte) (s : HostState) : HostState :=
  set_waiting false (set_out data (set_result r true s)).

Definition clear_syscall_buffers (s : HostState) : HostState :=
  set_waiting false (set_result (syscall_result s) false (set_pending None (set_out [] (set_in [] s)))).

(** ** Values and results of host functions *)
Inductive ValType : Type := T_I32 | T_I64.

Inductive Val : Type := I32 (z : Z) | I64 (z : Z).

#[export] Instance ValType_eq_dec : EqDecision ValType.
Proof. solve_decision. Defined.

Definition val_type (v : Val) : ValType := match v with I32 _ => T_I32 | I64 _ => T_I64 end.

(** [z as i32]. *)
Definition as_i32 (z : Z) : Z := let w := wrap_u32 z in if w <? 2 ^ 31 then w else w - 2 ^ 32.

Inductive HostRet : Type :=
| HR_ok (vs : list Val)
| HR_trap
| HR_panic.

(** The linear memory a module exports under the name [memory]. *)
Abbreviation Memory := (option (list byte)) (only parsing).

Definition HostFn : Type := HostState * Memory * Hardware -> HostRet * (HostState * Memory * Hardware).

(** [data[start..start + len(bytes)].copy_from_slice(bytes)], within bounds. *)
Definition mem_store (start : Z) (bytes data : list byte) : list byte :=
  take (Z.to_nat start) data ++ bytes ++ drop (Z.to_nat start + length bytes) data.

(** ** The functions of module [env] *)
Definition HOST_SYS_NOP : Z := 0x00.
Definition HOST_SYS_DEBUG : Z := 0x01.
Definition HOST_SYS_TIME : Z := 0x02.
Definition HOST_SYS_GETPID : Z := 0x03.
Definition HOST_SYS_YIELD : Z := 0x04.
Definition HOST_SYS_RANDOM : Z := 0x05.
Definition HOST_SYS_CONSOLE_WRITE : Z := 0x07.

(** The part of [zos_syscall] behind its [match]. *)
Definition kernel_syscall (syscall_num arg1 arg2 arg3 : Z) : HostFn := fun '(host, mem, hw) =>
  if has_pending_result host then
    (HR_ok [I64 (syscall_result host)], (set_result 0 false host, mem, hw))
  else
    let host := set_pending (Some (mk_PendingSyscallInfo syscall_num (arg1, arg2, arg3) (syscall_in_buffer host)))
                  (set_in [] host) in
    (HR_trap, (set_from_yield false (set_waiting true host), mem, hw)).

Definition random_syscall (arg1 : Z) : HostFn := fun '(host, mem, hw) =>
  let requested := Z.min arg1 256 in
  match fill_random_bytes requested hw with
  | (Some bytes, hw) => (HR_ok [I64 requested], (set_out bytes host, mem, hw))
  | (None, hw) => (HR_ok [I64 (-1)], (host, mem, hw))
  end.

Definition zos_syscall (syscall_num arg1 arg2 arg3 : Z) : HostFn := fun st =>
  let '(host, mem, hw) := st in
  if syscall_num =? HOST_SYS_NOP then (HR_ok [I64 0], st)
  else if (syscall_num =? HOST_SYS_DEBUG) || (syscall_num =? HOST_SYS_CONSOLE_WRITE) then
    let hw := match from_utf8 (syscall_in_buffer host) with Some text => write_str text hw | None => hw end in
    (HR_ok [I64 0], (set_in [] host, mem, hw))
  else if syscall_num =? HOST_SYS_GETPID then (HR_ok [I64 (as_i64 (hs_pid host))], st)
  else if syscall_num =? HOST_SYS_RANDOM then random_syscall arg1 st
  else if syscall_num =? HOST_SYS_YIELD then
    (HR_trap, (set_from_yield false (set_yielded true host), mem, hw))
  else kernel_syscall syscall_num arg1 arg2 arg3 st.

Definition zos_send_bytes (ptr n : Z) : HostFn := fun '(host, mem, hw) =>
  match mem with
  | None => (HR_ok [], (host, mem, hw))
  | Some data =>
      if len data <? ptr + n then (HR_ok [], (host, mem, hw))
      else (HR_ok [], (set_in (take (Z.to_nat n) (drop (Z.to_nat ptr) data)) host, mem, hw))
  end.

Definition zos_recv_bytes (ptr max_len : Z) : HostFn := fun '(host, mem, hw) =>
  let copy_len := Z.min (len (syscall_out_buffer host)) max_len in
  if copy_len =? 0 then (HR_ok [I32 0], (host, mem, hw))
  else
    match mem with
    | None => (HR_ok [I32 0], (host, mem, hw))
    | Some data =>
        if len data <? ptr + copy_len then (HR_ok [I32 0], (host, mem, hw))
        else (HR_ok [I32 (wrap_u32 copy_len)],
              (host, Some (mem_store ptr (take (Z.to_nat copy_len) (syscall_out_buffer host)) data), hw))
    end.

Definition zos_yield : HostFn := fun '(host, mem, hw) =>
  (HR_trap, (set_from_yield true (set_yielded true host), mem, hw)).

Definition zos_get_pid : HostFn := fun '(host, mem, hw) =>
  (HR_ok [I32 (wrap_u32 (hs_pid host))], (host, mem, hw)).

(** ** The shims for wasm-bindgen *)

(** [ptr] and [n] are of type i32: a negative pointer is sign-extended to [usize],
    the end of the range wraps around, and a range whose start lies beyond its
    end makes the slice panic. *)
Definition fill_random_into_wasm (ptr n : Z) : HostFn := fun '(host, mem, hw) =>
  if n <=? 0 then (HR_ok [], (host, mem, hw))
  else
    match mem with
    | None => (HR_ok [], (host, mem, hw))
    | Some data =>
        match fill_random_bytes n hw with
        | (None, hw) => (HR_ok [], (host, mem, hw))
        | (Some bytes, hw) =>
            let start := wrap_u64 ptr in
            let end_ := wrap_u64 (start + n) in
            if len data <? end_ then (HR_ok [], (host, mem, hw))
            else if end_ <? start then (HR_panic, (host, mem, hw))
            else (HR_ok [], (host, Some (mem_store start bytes data), hw))
        end
    end.

Inductive Shim : Type :=
| Sh_nop (params : nat)
| Sh_const (params : nat) (z : Z)
| Sh_handle
| Sh_random_obj
| Sh_random
| Sh_throw (line : string).

Definition placeholder_shims : list (string * Shim) := [
  ("__wbindgen_describe", Sh_nop 1);
  ("__wbindgen_describe_cast", Sh_const 2 1);
  ("__wbindgen_throw", Sh_throw "[wasm-rt] __wbindgen_throw called (placeholder module)");
  ("__wbg___wbindgen_throw_be289d5034ed271b", Sh_throw "[wasm-rt] __wbindgen_throw called (mangled variant)");
  ("__wbindgen_object_drop_ref", Sh_nop 1);
  ("__wbindgen_object_clone_ref", Sh_handle);
  ("__wbg_crypto_86f2631e91b51511", Sh_const 1 1);
  ("__wbg_msCrypto_a61aeb35a24c1329", Sh_const 1 0);
  ("__wbg_msCrypto_d562bbe83e0d4b91", Sh_const 1 0);
  ("__wbg_getRandomValues_5f6dd458de83c4f5", Sh_random_obj);
  ("__wbg_getRandomValues_b3f15fcbfabb0f8b", Sh_random);
  ("__wbg_randomFillSync_1b52c8482374c55b", Sh_random_obj);
  ("__wbg_randomFillSync_f8c153b79f285817", Sh_random);
  ("__wbg_require_0993fe224bf8e202", Sh_const 2 0);
  ("__wbg_require_b74f47fc2d022fd6", Sh_const 0 0);
  ("__wbg_newnoargs_19a249f4eceaaac3", Sh_const 2 1);
  ("__wbg_new_no_args_1c7c842f08d00ebb", Sh_const 2 1);
  ("__wbg_call_3bfa248576352471", Sh_const 2 1);
  ("__wbg_call_389efe28435a9388", Sh_const 2 1);
  ("__wbg_call_4708e0c13bdc8e95", Sh_const 3 1);
  ("__wbg_self_7eede1f4488bf346", Sh_const 0 1);
  ("__wbg_window_b1e7fec70c53b5f2", Sh_const 0 1);
  ("__wbg_globalThis_82f5c6f01e948e73", Sh_const 0 1);
  ("__wbg_global_ef89f731612312c9", Sh_const 0 1);
  ("__wbg_static_accessor_GLOBAL_88a902d13a557d07", Sh_const 0 1);
  ("__wbg_static_accessor_GLOBAL_12837167ad935116", Sh_const 0 1);
  ("__wbg_static_accessor_GLOBAL_THIS_56578be7e9f832b0", Sh_const 0 1);
  ("__wbg_static_accessor_GLOBAL_THIS_e628e89ab3b1c95f", Sh_const 0 1);
  ("__wbg_static_accessor_SELF_37c5d418e4bf5819", Sh_const 0 1);
  ("__wbg_static_accessor_SELF_a621d3dfbb60d0ce", Sh_const 0 1);
  ("__wbg_static_accessor_WINDOW_f8727f0cf888e0bd", Sh_const 0 1);
  ("__wbg_process_3975fd6c72f520aa", Sh_const 1 0);
  ("__wbg_versions_4bc988c2d498fcd5", Sh_const 1 0);
  ("__wbg_versions_4e31226f5e8dc909", Sh_const 1 0);
  ("__wbg_node_cc8c7e99b9fb0652", Sh_const 1 0);
  ("__wbg_node_e1f24f89a7336c2e", Sh_const 1 0);
  ("__wbg_instanceof_Uint8Array_17156bcf118086a9", Sh_const 1 1);
  ("__wbg_instanceof_ArrayBuffer_e7d53d51371448e2", Sh_const 1 0);
  ("__wbg_newwithbyteoffsetandlength_7a23ee1793aa2b5c", Sh_const 3 1);
  ("__wbg_buffer_344d9b41efe96da7", Sh_const 1 1);
  ("__wbg_set_ec2fcf81bc573fd9", Sh_nop 3);
  ("__wbg_length_a5587d6cd79ab197", Sh_const 1 0);
  ("__wbg_length_32ed9a279acd054c", Sh_const 1 0);
  ("__wbg_new_fec2611eb9180f95", Sh_const 1 1);
  ("__wbg_new_with_length_a2c39cbe88fd8ff1", Sh_const 1 1);
  ("__wbg_subarray_7f7a652672800851", Sh_const 3 1);
  ("__wbg_subarray_a96e1fef17ed23cb", Sh_const 3 1);
  ("__wbg___wbindgen_is_string_cd444516edc5b180", Sh_const 1 0);
  ("__wbg___wbindgen_string_get_cbb1fadb6e830ce3", Sh_nop 2);
  ("__wbg___wbindgen_is_object_d8a3f80aff05fe8a", Sh_const 1 0);
  ("__wbg___wbindgen_is_object_5ae8e5880f2c1fbd", Sh_const 1 0);
  ("__wbg___wbindgen_is_undefined_0a3d7be3bab94283", Sh_const 1 1);
  ("__wbg___wbindgen_is_undefined_9e4d92534c42d778", Sh_const 1 1);
  ("__wbg___wbindgen_is_function_31e96c78af4f5ea6", Sh_const 1 0);
  ("__wbg___wbindgen_is_function_0095a73b8b156f76", Sh_const 1 0);
  ("__wbg___wbindgen_object_drop_ref_5c5e3f9e45d70ce1", Sh_nop 1);
  ("__wbg___wbindgen_number_get_b17d8926fb1b2bd5", Sh_nop 2);
  ("__wbg___wbindgen_boolean_get_53ff1fa5e1b9dbfe", Sh_const 1 0);
  ("__wbg___wbindgen_memory_6ce83f1eba5b49cb", Sh_const 0 0);
  ("__wbg_prototypesetcall_bdcdcc5842e4d77d", Sh_nop 3);
  ("__wbg___wbindgen_debug_string_f96fb2b87c7a0e4c", Sh_nop 2);
  ("__wbg___wbindgen_throw_d481d04d1a3c1c61", Sh_throw "[wasm-rt] __wbindgen_throw called")]%string.

Definition externref_shims : list (string * Shim) := [
  ("__wbindgen_externref_table_grow", Sh_const 1 0);
  ("__wbindgen_externref_table_set_null", Sh_nop 1)]%string.

Definition wbg_shims : list (string * Shim) := [
  ("__wbg_crypto_1d1f22824a6a080c", Sh_const 1 1);
  ("__wbg_getRandomValues_37fa2ca9e4e07fab", Sh_random_obj);
  ("__wbindgen_object_drop_ref", Sh_nop 1);
  ("__wbindgen_throw", Sh_throw "[wasm-rt] __wbindgen_throw called - JS exception");
  ("__wbindgen_is_undefined", Sh_const 1 1);
  ("__wbindgen_is_null", Sh_const 1 0);
  ("__wbindgen_is_object", Sh_const 1 0);
  ("__wbindgen_is_function", Sh_const 1 0)]%string.

(** [i]-th argument of type i32. *)
Definition i32_arg (args : list Z) (i : nat) : Z := as_i32 (nth i args 0).

Definition newline : string := String "010"%char EmptyString.

Definition run_shim (s : Shim) (args : list Z) : HostFn := fun st =>
  match s with
  | Sh_nop _ => (HR_ok [], st)
  | Sh_const _ z => (HR_ok [I32 z], st)
  | Sh_handle => (HR_ok [I32 (i32_arg args 0)], st)
  | Sh_random_obj => fill_random_into_wasm (i32_arg args 1) (i32_arg args 2) st
  | Sh_random => fill_random_into_wasm (i32_arg args 0) (i32_arg args 1) st
  | Sh_throw line => let '(host, mem, hw) := st in (HR_ok [], (host, mem, write_str (line ++ newline) hw))
  end.

Definition shim_results (s : Shim) : list ValType :=
  match s with Sh_const _ _ | Sh_handle => [T_I32] | _ => [] end.

(** ** Calls of a guest *)
Inductive HostCall : Type :=
| HC_syscall (num arg1 arg2 arg3 : Z)
| HC_send_bytes (ptr n : Z)
| HC_recv_bytes (ptr max_len : Z)
| HC_yield
| HC_get_pid
| HC_shim (s : Shim) (args : list Z).

Definition host_call (c : HostCall) : HostFn :=
  match c with
  | HC_syscall num a1 a2 a3 => zos_syscall num a1 a2 a3
  | HC_send_bytes ptr n => zos_send_bytes ptr n
  | HC_recv_bytes ptr m => zos_recv_bytes ptr m
  | HC_yield => zos_yield
  | HC_get_pid => zos_get_pid
  | HC_shim s args => run_shim s args
  end.

(** The result types [func_wrap] derives from the signatures. *)
Definition result_types (c : HostCall) : list ValType :=
  match c with
  | HC_syscall _ _ _ _ => [T_I64]
  | HC_send_bytes _ _ | HC_yield => []
  | HC_recv_bytes _ _ | HC_get_pid => [T_I32]
  | HC_shim s _ => shim_results s
  end.

(** What a module imports resolves to one of these. *)
Inductive HostImport : Type :=
| HI_syscall | HI_send_bytes | HI_recv_bytes | HI_yield | HI_get_pid | HI_shim (s : Shim).

Definition assoc {V : Type} (name : string) (l : list (string * V)) : option V :=
  snd <$> List.find (fun p => String.eqb p.1 name) l.

Definition env_functions : list (string * HostImport) := [
  ("zos_syscall", HI_syscall);
  ("zos_send_bytes", HI_send_bytes);
  ("zos_recv_bytes", HI_recv_bytes);
  ("zos_yield", HI_yield);
  ("zos_get_pid", HI_get_pid)]%string.

(** The linker after [register_host_functions]. *)
Definition linker (module name : string) : option HostImport :=
  if String.eqb module "env" then assoc name env_functions
  else HI_shim <$>
    (if String.eqb module "__wbindgen_placeholder__" then assoc name placeholder_shims
     else if String.eqb module "__wbindgen_externref_xform__" then assoc name externref_shims
     else if String.eqb module "wbg" then assoc name wbg_shims
     else None).

(** ** The interpreter

    wasmi is a parameter: [wm_load] parses and instantiates a module against the
    linker and runs its start section; [wm_enter] begins a call of [_start];
    [wm_run] executes with some fuel up to the next call of a host function, the
    end or a trap, and gives the fuel left; [wm_give] hands the results of a host
    function to the machine; [wm_accepts] is the check [resume] makes of the
    values it is given against the result types of the host function. *)
Inductive Stop : Type := S_finished | S_trap (out_of_fuel : bool) | S_call (c : HostCall).

Class Wasmi : Type := {
  Machine : Type;
  wm_load : (string -> string -> option HostImport) -> list byte -> option Machine;
  wm_has_start : Machine -> bool;
  wm_enter : Machine -> Machine;
  wm_run : Z -> Machine -> Stop * (Z * Machine);
  wm_give : list Val -> Machine -> Machine;
  wm_accepts : list ValType -> list Val -> bool;
  wm_memory : Machine -> option (list byte);
  wm_set_memory : option (list byte) -> Machine -> Machine }.

(** A call of a host function consumes fuel. *)
Class WasmiLaws (W : Wasmi) : Prop := {
  wl_call fuel m c fuel' m' : wm_run fuel m = (S_call c, (fuel', m')) -> 0 <= fuel' < fuel }.

(** Iteration of [step] up to [p] times, until it gives a result. *)
Section iterate.
Context {S R : Type} (step : S -> S + R).

Fixpoint iterate (p : positive) (s : S) : S + R :=
  match p with
  | xH => step s
  | xO q => match iterate q s with inl s' => iterate q s' | inr r => inr r end
  | xI q =>
      match step s with
      | inl s1 => match iterate q s1 with inl s' => iterate q s' | inr r => inr r end
      | inr r => inr r
      end
  end.

(** Iteration ends when a measure below the number of turns goes down. *)
Lemma iterate_measure (m : S -> Z) p s :
  (forall s s', step s = inl s' -> 0 <= m s' < m s) ->
  match iterate p s with inl s' => 0 <= m s' /\ m s' + Z.pos p <= m s | inr _ => True end.
Proof.
  intros Hm. revert s. induction p as [p IH|p IH|]; intros s; cbn [iterate].
  - destruct (step s) as [s1|] eqn:E1; [|done]. specialize (IH s1) as H1.
    destruct (iterate p s1) as [s2|]; [|done]. specialize (IH s2). destruct (iterate p s2); [|done].
    apply Hm in E1. lia.
  - specialize (IH s) as H1. destruct (iterate p s) as [s1|]; [|done]. specialize (IH s1).
    destruct (iterate p s1); [|done]. lia.
  - destruct (step s) eqn:E; [|done]. apply Hm in E. lia.
Qed.
End iterate.

(** ** Execution of one time slice *)
Inductive ExecResult : Type :=
| ER_Finished
| ER_Resumable (results : list ValType)
| ER_Err (out_of_fuel : bool)
| ER_Panic.

Section exec.
Context {W : Wasmi}.

Definition ExecState : Type := Z * Machine * HostState * Hardware.

(** The guest runs to its next call of a host function, which is executed. *)
Definition exec_step (st : ExecState) : ExecState + (ExecResult * ExecState) :=
  let '(fuel, m, host, hw) := st in
  match wm_run fuel m with
  | (S_finished, (fuel, m)) => inr (ER_Finished, (fuel, m, host, hw))
  | (S_trap f, (fuel, m)) => inr (ER_Err f, (fuel, m, host, hw))
  | (S_call c, (fuel, m)) =>
      match host_call c (host, wm_memory m, hw) with
      | (HR_ok vs, (host, mem, hw)) => inl (fuel, wm_give vs (wm_set_memory mem m), host, hw)
      | (HR_trap, (host, mem, hw)) => inr (ER_Resumable (result_types c), (fuel, wm_set_memory mem m, host, hw))
      | (HR_panic, (host, mem, hw)) => inr (ER_Panic, (fuel, wm_set_memory mem m, host, hw))
      end
  end.

(** With [fuel] units of fuel the guest makes fewer than [fuel + 1] calls; a guest
    that made more would be out of fuel. *)
Definition exec (fuel : Z) (m : Machine) (host : HostState) (hw : Hardware) : ExecResult * ExecState :=
  match iterate exec_step (Z.to_pos (fuel + 1)) (fuel, m, host, hw) with
  | inr r => r
  | inl st => (ER_Err true, st)
  end.

Definition exec_fuel (st : ExecState) : Z := st.1.1.1.

Lemma exec_step_fuel `{!WasmiLaws W} st st' : exec_step st = inl st' -> 0 <= exec_fuel st' < exec_fuel st.
Proof.
  destruct st as [[[fuel m] host] hw]. unfold exec_step, exec_fuel.
  destruct (wm_run fuel m) as [[|f|c] [fuel1 m1]] eqn:E; [done|done|].
  destruct (host_call c _) as [[vs| |] [[host1 mem1] hw1]]; [|done|done]. intros [= <-]. by eapply wl_call.
Qed.

(** The bound of [exec] is never reached. *)
Lemma exec_ends `{!WasmiLaws W} fuel m host hw :
  0 <= fuel -> iterate exec_step (Z.to_pos (fuel + 1)) (fuel, m, host, hw) = inr (exec fuel m host hw).
Proof.
  intros Hf. pose proof (iterate_measure exec_step exec_fuel (Z.to_pos (fuel + 1)) (fuel, m, host, hw) exec_step_fuel) as Hi.
  unfold exec. destruct (iterate _ _ _) as [st|r]; [|done]. change (exec_fuel (fuel, m, host, hw)) with fuel in Hi. lia.
Qed.
End exec.
