(* ===== verification/WasmRuntime.v ===== *)
(** * Runtime of wasm processes (crates/zos-hal/src/x86_64/wasm: mod.rs, process.rs)

    The runtime holds the processes and runs them cooperatively: a process runs
    until it finishes, traps, yields or asks for a system call of the kernel; its
    pending call is handed to a handler and the result stored for the resumption.
    The loops that call the handler work on a state [St] that contains the runtime
    and the hardware, since the handler may spawn processes; [Outcome] tells a
    panic from running out of the model's fuel. *)
From S2P Require Import Prelude StrLib Hal WasmHost.

Local Open Scope Z_scope.

Definition MAX_SYSCALL_BUFFER : Z := 16384.
Definition FUEL_PER_TIMESLICE : Z := 100000000.
Definition MAX_ROUNDS : nat := 10.
Definition MAX_SYSCALLS_PER_PROCESS : Z := 100.

Inductive ProcessState : Type := Ready | Running | Blocked | Terminated.

#[export] Instance ProcessState_eq_dec : EqDecision ProcessState.
Proof. solve_decision. Defined.

Record PendingSyscall : Type := mk_PendingSyscall {
  ps_pid : Z; ps_num : Z; ps_args : Z * Z * Z; ps_data : list byte }.

(** ** Outcomes of loops *)
Inductive Outcome (T : Type) : Type := Done (t : T) | Panicked | OutOfFuel.
Arguments Done {T} t.
Arguments Panicked {T}.
Arguments OutOfFuel {T}.

Definition out_bind {T U : Type} (m : Outcome T) (k : T -> Outcome U) : Outcome U :=
  match m with Done t => k t | Panicked => Panicked | OutOfFuel => OutOfFuel end.

Definition of_option {T : Type} (o : option T) : Outcome T :=
  match o with Some t => Done t | None => Panicked end.

(** [for x in l { ... }]. *)
Fixpoint out_for {X T : Type} (f : X -> T -> Outcome T) (l : list X) (t : T) : Outcome T :=
  match l with [] => Done t | x :: rest => out_bind (f x t) (out_for f rest) end.

Section runtime.
Context {W : Wasmi}.

(** ** Processes *)

(** [wp_start] tells whether [start_func] is present; a suspended call is part of
    the machine, and [wp_resumable] has the result types of the host function it
    waits in. *)
Record WasmProcess : Type := mk_WasmProcess {
  wp_pid : Z;
  wp_name : string;
  wp_state : ProcessState;
  wp_store : HostState;
  wp_instance : Machine;
  wp_start : bool;
  wp_resumable : option (list ValType);
  wp_memory_size : Z }.

Definition set_state (st : ProcessState) (p : WasmProcess) : WasmProcess :=
  mk_WasmProcess (wp_pid p) (wp_name p) st (wp_store p) (wp_instance p) (wp_start p) (wp_resumable p)
    (wp_memory_size p).
Definition set_store (h : HostState) (p : WasmProcess) : WasmProcess :=
  mk_WasmProcess (wp_pid p) (wp_name p) (wp_state p) h (wp_instance p) (wp_start p) (wp_resumable p)
    (wp_memory_size p).
Definition set_instance (m : Machine) (p : WasmProcess) : WasmProcess :=
  mk_WasmProcess (wp_pid p) (wp_name p) (wp_state p) (wp_store p) m (wp_start p) (wp_resumable p)
    (wp_memory_size p).
Definition set_start (b : bool) (p : WasmProcess) : WasmProcess :=
  mk_WasmProcess (wp_pid p) (wp_name p) (wp_state p) (wp_store p) (wp_instance p) b (wp_resumable p)
    (wp_memory_size p).
Definition set_resumable (r : option (list ValType)) (p : WasmProcess) : WasmProcess :=
  mk_WasmProcess (wp_pid p) (wp_name p) (wp_state p) (wp_store p) (wp_instance p) (wp_start p) r
    (wp_memory_size p).

Definition update_memory_size (p : WasmProcess) : WasmProcess :=
  match wm_memory (wp_instance p) with
  | Some data =>
      mk_WasmProcess (wp_pid p) (wp_name p) (wp_state p) (wp_store p) (wp_instance p) (wp_start p)
        (wp_resumable p) (len data)
  | None => p
  end.

(** ** The runtime *)
Record WasmRuntime : Type := mk_WasmRuntime {
  rt_processes : gmap Z WasmProcess;
  rt_pending_syscalls : list PendingSyscall;
  rt_pending_messages : gmap Z (list (list byte)) }.

Definition WasmRuntime_new : WasmRuntime := mk_WasmRuntime ∅ [] ∅.

Definition set_processes (m : gmap Z WasmProcess) (rt : WasmRuntime) : WasmRuntime :=
  mk_WasmRuntime m (rt_pending_syscalls rt) (rt_pending_messages rt).

Definition put_process (pid : Z) (p : WasmProcess) (rt : WasmRuntime) : WasmRuntime :=
  set_processes (<[pid := p]> (rt_processes rt)) rt.

Definition WasmProcess_new (pid : Z) (name : string) (m : Machine) : WasmProcess :=
  mk_WasmProcess pid name Ready (HostState_new pid) m (wm_has_start m) None 65536.

Definition spawn (pid : Z) (name : string) (binary : list byte) (rt : WasmRuntime)
  : result NumericProcessHandle HalError * WasmRuntime :=
  match wm_load linker binary with
  | None => (Err ProcessSpawnFailed, rt)
  | Some m => (Ok (mk_NumericProcessHandle pid), put_process pid (WasmProcess_new pid name m) rt)
  end.

Definition kill (pid : Z) (rt : WasmRuntime) : result unit HalError * WasmRuntime :=
  match rt_processes rt !! pid with
  | Some _ => (Ok tt, set_processes (delete pid (rt_processes rt)) rt)
  | None => (Err HE_ProcessNotFound, rt)
  end.

Definition is_alive (pid : Z) (rt : WasmRuntime) : bool :=
  match rt_processes rt !! pid with
  | Some p => negb (bool_decide (wp_state p = Terminated))
  | None => false
  end.

Definition memory_size (pid : Z) (rt : WasmRuntime) : result Z HalError :=
  ok_or (wp_memory_size <$> rt_processes rt !! pid) HE_ProcessNotFound.

Definition queue_message (pid : Z) (msg : list byte) (rt : WasmRuntime) : WasmRuntime :=
  mk_WasmRuntime (rt_processes rt) (rt_pending_syscalls rt)
    (<[pid := default [] (rt_pending_messages rt !! pid) ++ [msg]]> (rt_pending_messages rt)).

Definition take_pending_syscalls (rt : WasmRuntime) : list PendingSyscall * WasmRuntime :=
  (rt_pending_syscalls rt, mk_WasmRuntime (rt_processes rt) [] (rt_pending_messages rt)).

Definition complete_syscall (pid : Z) (res : Z) (data : list byte) (rt : WasmRuntime) : WasmRuntime :=
  match rt_processes rt !! pid with
  | Some p => put_process pid (set_state Ready (set_store (set_syscall_result res data (wp_store p)) p)) rt
  | None => rt
  end.

(** ** Running a process *)

(** (is_alive, has_pending_syscall, yielded) *)
Abbreviation Turn := (bool * bool * bool)%type (only parsing).

Definition handle_execution_result (r : ExecResult) (p : WasmProcess) : option (Turn * WasmProcess) :=
  match r with
  | ER_Panic => None
  | ER_Finished => Some ((false, false, false), set_resumable None (set_state Terminated p))
  | ER_Resumable tys =>
      let p := set_resumable (Some tys) p in
      let y := yielded (wp_store p) in
      let p := if y then set_store (set_yielded false (wp_store p)) p else p in
      let has_pending := bool_decide (is_Some (pending_syscall (wp_store p))) in
      Some ((true, has_pending, y), set_state (if has_pending then Blocked else Ready) p)
  | ER_Err true =>
      let p := set_store (set_yielded false (set_pending None (wp_store p))) p in
      Some ((false, false, false), set_state Terminated p)
  | ER_Err false => Some ((false, false, false), set_resumable None (set_state Terminated p))
  end.

(** The interpreter's call or resumption, [handle_execution_result] on its result
    and the check that follows it. *)
Definition finish_turn (r : ExecResult * ExecState) (p : WasmProcess) : option (Turn * WasmProcess * Hardware) :=
  let '(res, (_, m, host, hw)) := r in
  match handle_execution_result res (set_instance m (set_store host p)) with
  | None => None
  | Some ((alive, has_pending, y), p) =>
      if alive && waiting_for_syscall (wp_store p) then Some ((true, true, y), set_state Blocked p, hw)
      else Some ((alive, has_pending, y), p, hw)
  end.

Definition call_start (p : WasmProcess) (hw : Hardware) : option (Turn * WasmProcess * Hardware) :=
  finish_turn (exec FUEL_PER_TIMESLICE (wm_enter (wp_instance p)) (wp_store p) hw) p.

(** The value a suspended host function returns. *)
Definition resume_value (h : HostState) : Z := if has_pending_result h then syscall_result h else 0.

Definition resume_call (tys : list ValType) (p : WasmProcess) (hw : Hardware)
  : option (Turn * WasmProcess * Hardware) :=
  let host := wp_store p in
  let from_yield := trapped_from_yield host in
  let return_value := resume_value host in
  let host := if has_pending_result host then set_result 0 false host else host in
  let host := set_from_yield false host in
  let vals := if from_yield then [] else [I32 (as_i32 return_value)] in
  finish_turn
    (if wm_accepts tys vals then exec FUEL_PER_TIMESLICE (wm_give vals (wp_instance p)) host hw
     else (ER_Err false, (FUEL_PER_TIMESLICE, wp_instance p, host, hw))) p.

Definition run_process_internal (p : WasmProcess) (hw : Hardware) : option (Turn * WasmProcess * Hardware) :=
  match wp_state p with
  | Ready =>
      let p := set_state Running p in
      match wp_resumable p with
      | Some tys => resume_call tys (set_resumable None p) hw
      | None =>
          if wp_start p then call_start (set_start false p) hw
          else if wm_has_start (wp_instance p) then call_start p hw
          else Some ((true, false, false), p, hw)
      end
  | st => Some ((negb (bool_decide (st = Terminated)), false, false), p, hw)
  end.

(** ** Scheduling *)
Record Platform : Type := mk_Platform { pf_rt : WasmRuntime; pf_hw : Hardware }.

(** One time slice of the process [pid]; [None] in the result when there is no
    such process. *)
Definition run_slice (pid : Z) (pf : Platform) : option (option Turn * Platform) :=
  match rt_processes (pf_rt pf) !! pid with
  | None => Some (None, pf)
  | Some p =>
      match run_process_internal p (pf_hw pf) with
      | None => None
      | Some (t, p', hw') => Some (Some t, mk_Platform (put_process pid p' (pf_rt pf)) hw')
      end
  end.

Definition run_process (pid : Z) (pf : Platform) : option (result bool HalError * Platform) :=
  match run_slice pid pf with
  | None => None
  | Some (None, pf) => Some (Err HE_ProcessNotFound, pf)
  | Some (Some (alive, _, _), pf) => Some (Ok alive, pf)
  end.

Definition ready_pids (rt : WasmRuntime) : list Z :=
  fst <$> filter (fun e => wp_state e.2 = Ready) (btree_iter (rt_processes rt)).

(** [pending_syscall.take()]. *)
Definition take_pending (pid : Z) (rt : WasmRuntime) : option PendingSyscall * WasmRuntime :=
  match rt_processes rt !! pid with
  | None => (None, rt)
  | Some p =>
      ((fun i => mk_PendingSyscall pid (pi_syscall_num i) (pi_args i) (pi_data i)) <$> pending_syscall (wp_store p),
       put_process pid (set_store (set_pending None (wp_store p)) p) rt)
  end.

Definition set_rt (rt : WasmRuntime) (pf : Platform) : Platform := mk_Platform rt (pf_hw pf).

(** The body of the loop of [run_all_processes]. *)
Definition collect_one (pid : Z) (acc : list PendingSyscall * Platform) : Outcome (list PendingSyscall * Platform) :=
  let '(syscalls, pf) := acc in
  match run_slice pid pf with
  | None => Panicked
  | Some (Some (_, true, _), pf) =>
      let '(pending, rt) := take_pending pid (pf_rt pf) in
      Done (syscalls ++ option_list pending, set_rt rt pf)
  | Some (_, pf) => Done (syscalls, pf)
  end.

Definition run_all_processes (pf : Platform) : Outcome (list PendingSyscall * Platform) :=
  out_for collect_one (ready_pids (pf_rt pf)) ([], pf).

Section handler.
Context {St : Type} (get : St -> Platform) (put : Platform -> St -> St).
Context (handler : PendingSyscall -> St -> option ((Z * list byte) * St)).

(** The handler is called for a pending call and the call completed. *)
Definition serve (pid : Z) (s : St) : Outcome St :=
  match take_pending pid (pf_rt (get s)) with
  | (None, rt) => Done (put (set_rt rt (get s)) s)
  | (Some p, rt) =>
      match handler p (put (set_rt rt (get s)) s) with
      | None => Panicked
      | Some ((res, data), s) => Done (put (set_rt (complete_syscall pid res data (pf_rt (get s))) (get s)) s)
      end
  end.

(** The loop of [run_process_with_handler]. *)
Fixpoint handler_loop (fuel : nat) (pid : Z) (syscall_count : Z) (s : St) : Outcome St :=
  match fuel with
  | O => OutOfFuel
  | S fuel' =>
      match run_slice pid (get s) with
      | None => Panicked
      | Some (None, _) => Done s
      | Some (Some (alive, has_pending, y), pf) =>
          let s := put pf s in
          if negb alive then Done s
          else if y then Done s
          else if has_pending then
            let syscall_count := syscall_count + 1 in
            if MAX_SYSCALLS_PER_PROCESS <? syscall_count then Done s
            else out_bind (serve pid s) (handler_loop fuel' pid syscall_count)
          else Done s
      end
  end.

(** One turn for each of the calls within the limit and one beyond. *)
Definition run_process_with_handler (pid : Z) (s : St) : Outcome St :=
  handler_loop (Z.to_nat MAX_SYSCALLS_PER_PROCESS + 1) pid 0 s.

Fixpoint rounds (n : nat) (s : St) : Outcome St :=
  match n with
  | O => Done s
  | S n' =>
      match ready_pids (pf_rt (get s)) with
      | [] => Done s
      | pids => out_bind (out_for run_process_with_handler pids s) (rounds n')
      end
  end.

Definition run_all_processes_with_handler (s : St) : Outcome St := rounds MAX_ROUNDS s.
End handler.
End runtime.
