(* ===== verification/X86Hal.v ===== *)
(** * Real-time clock (crates/zos-hal/src/x86_64/rtc.rs)

    The CMOS registers are a function from register numbers to bytes, read once
    the update bit is clear and stable while [read_rtc] reads them. *)
From S2P Require Import Prelude.

Local Open Scope Z_scope.

Definition REG_SECONDS : Z := 0x00.
Definition REG_MINUTES : Z := 0x02.
Definition REG_HOURS : Z := 0x04.
Definition REG_DAY_OF_MONTH : Z := 0x07.
Definition REG_MONTH : Z := 0x08.
Definition REG_YEAR : Z := 0x09.
Definition REG_CENTURY : Z := 0x32.
Definition REG_STATUS_B : Z := 0x0B.

Definition BINARY : Z := 0x04.
Definition HOUR_24 : Z := 0x02.

Definition bcd_to_binary (bcd : Z) : Z := Z.shiftr (Z.land bcd 0xF0) 4 * 10 + Z.land bcd 0x0F.

Record DateTime : Type := mk_DateTime {
  dt_year : Z; dt_month : Z; dt_day : Z; dt_hour : Z; dt_minute : Z; dt_second : Z }.

(** The conversion of the hour from the 12-hour clock. *)
Definition to_24h (hour : Z) : Z :=
  let pm := negb (Z.land hour 0x80 =? 0) in
  let hour := Z.land hour 0x7F in
  if pm && negb (hour =? 12) then hour + 12
  else if negb pm && (hour =? 12) then 0
  else hour.

Definition full_year (is_binary : bool) (century year : Z) : Z :=
  if negb (century =? 0) && (century <? 100) then
    (if is_binary then century else bcd_to_binary century) * 100 + year
  else if year <? 80 then 2000 + year
  else 1900 + year.

Definition read_rtc (cmos : Z -> Z) : DateTime :=
  let status_b := cmos REG_STATUS_B in
  let is_binary := negb (Z.land status_b BINARY =? 0) in
  let is_24h := negb (Z.land status_b HOUR_24 =? 0) in
  let conv := fun b => if is_binary then b else bcd_to_binary b in
  let raw_hour := cmos REG_HOURS in
  let hour :=
    if is_binary then raw_hour
    else Z.lor (bcd_to_binary (Z.land raw_hour 0x7F)) (Z.land raw_hour 0x80) in
  let hour := if is_24h then hour else to_24h hour in
  mk_DateTime (full_year is_binary (cmos REG_CENTURY) (conv (cmos REG_YEAR)))
    (conv (cmos REG_MONTH)) (conv (cmos REG_DAY_OF_MONTH)) hour
    (conv (cmos REG_MINUTES)) (conv (cmos REG_SECONDS)).

Definition is_leap_year (year : Z) : bool :=
  ((year mod 4 =? 0) && negb (year mod 100 =? 0)) || (year mod 400 =? 0).

Definition days_in_year (year : Z) : Z := if is_leap_year year then 366 else 365.

Definition days_in_month (year month : Z) : Z :=
  match month with
  | 1 => 31 | 2 => if is_leap_year year then 29 else 28 | 3 => 31 | 4 => 30 | 5 => 31 | 6 => 30
  | 7 => 31 | 8 => 31 | 9 => 30 | 10 => 31 | 11 => 30 | 12 => 31
  | _ => 0
  end.

(** [for x in lo..hi { days += f(x) }]. *)
Definition add_days (f : Z -> Z) (lo hi days : Z) : Z := foldl (fun d x => d + f x) days (seqZ lo (hi - lo)).

Definition timestamp_of (d : DateTime) : Z :=
  let days := add_days days_in_year 1970 (dt_year d) 0 in
  let days := add_days (days_in_month (dt_year d)) 1 (dt_month d) days in
  let days := days + (dt_day d - 1) in
  let hours_total := days * 24 + dt_hour d in
  let minutes_total := hours_total * 60 + dt_minute d in
  let seconds_total := minutes_total * 60 + dt_second d in
  wrap_u64 (seconds_total * 1000).

Definition unix_timestamp_ms (cmos : Z -> Z) : Z := timestamp_of (read_rtc cmos).

(** ** Reading *)

(** A date and time of the calendar. *)
Definition valid_date (d : DateTime) : Prop :=
  1970 <= dt_year d < 6400 /\ 1 <= dt_month d <= 12 /\ 1 <= dt_day d <= days_in_month (dt_year d) (dt_month d) /\
  0 <= dt_hour d < 24 /\ 0 <= dt_minute d < 60 /\ 0 <= dt_second d < 60.

(** What a clock shows: binary or BCD digits, on a 24-hour or a 12-hour dial with
    the PM flag in bit 7. *)
Definition bcd (z : Z) : Z := 16 * (z / 10) + z mod 10.

Definition dial (h : Z) : Z := if h mod 12 =? 0 then 12 else h mod 12.

Definition shown (binary h24 : bool) (d : DateTime) (reg : Z) : Z :=
  let enc := fun z => if binary then z else bcd z in
  if reg =? REG_SECONDS then enc (dt_second d)
  else if reg =? REG_MINUTES then enc (dt_minute d)
  else if reg =? REG_HOURS then
    if h24 then enc (dt_hour d) else enc (dial (dt_hour d)) + (if 12 <=? dt_hour d then 0x80 else 0)
  else if reg =? REG_DAY_OF_MONTH then enc (dt_day d)
  else if reg =? REG_MONTH then enc (dt_month d)
  else if reg =? REG_YEAR then enc (dt_year d mod 100)
  else if reg =? REG_CENTURY then enc (dt_year d / 100)
  else if reg =? REG_STATUS_B then (if binary then BINARY else 0) + (if h24 then HOUR_24 else 0)
  else 0.

(** A decidable property of all numbers below a bound. *)
Lemma all_below (n : nat) (P : Z -> bool) :
  forallb (fun i => P (Z.of_nat i)) (seq 0 n) = true -> forall z, 0 <= z < Z.of_nat n -> P z = true.
Proof.
  intros Hf z Hz. rewrite forallb_forall in Hf. specialize (Hf (Z.to_nat z)). rewrite Z2Nat.id in Hf by lia.
  apply Hf, in_seq. lia.
Qed.

Lemma bcd_inverse z : 0 <= z < 100 -> bcd_to_binary (bcd z) = z.
Proof. intros Hz. apply Z.eqb_eq, (all_below 100 (fun z : Z => bcd_to_binary (bcd z) =? z)); [done|lia]. Qed.

Definition hour_shown (binary h24 : bool) (h : Z) : Z :=
  if h24 then (if binary then h else bcd h)
  else (if binary then dial h else bcd (dial h)) + (if 12 <=? h then 0x80 else 0).

Definition hour_read (binary h24 : bool) (raw : Z) : Z :=
  let hour := if binary then raw else Z.lor (bcd_to_binary (Z.land raw 0x7F)) (Z.land raw 0x80) in
  if h24 then hour else to_24h hour.

Lemma hour_inverse binary h24 h : 0 <= h < 24 -> hour_read binary h24 (hour_shown binary h24 h) = h.
Proof.
  intros Hh. apply Z.eqb_eq, (all_below 24 (fun h : Z => hour_read binary h24 (hour_shown binary h24 h) =? h)); [|lia].
  by destruct binary, h24.
Qed.

Lemma century_inverse (binary : bool) c : 19 <= c < 64 -> let e := if binary then c else bcd c in
  negb (e =? 0) && (e <? 100) = true /\ (if binary then e else bcd_to_binary e) = c.
Proof.
  intros Hc. destruct binary; [split; lia|]. split; [|apply bcd_inverse; lia].
  assert (forall z, 0 <= z < 45 -> negb (bcd (z + 19) =? 0) && (bcd (z + 19) <? 100) = true) as Hz
    by (by apply (all_below 45 (fun z : Z => negb (bcd (z + 19) =? 0) && (bcd (z + 19) <? 100)))).
  specialize (Hz (c - 19)). rewrite Z.sub_add in Hz. apply Hz. lia.
Qed.

Lemma days_in_month_bound y m : days_in_month y m <= 31.
Proof.
  unfold days_in_month. repeat case_match; lia.
Qed.

(** The clock is read correctly in each of the four formats. *)
Lemma read_rtc_shown (binary h24 : bool) d : valid_date d -> read_rtc (shown binary h24 d) = d.
Proof.
  intros (Hy & Hm & Hd & Hh & Hmi & Hs). pose proof (days_in_month_bound (dt_year d) (dt_month d)).
  assert (forall z, 0 <= z < 100 -> (if binary then if binary then z else bcd z
            else bcd_to_binary (if binary then z else bcd z)) = z) as He
    by (intros; destruct binary; [done|by apply bcd_inverse]).
  assert (0 <= dt_year d mod 100 < 100) by (apply Z.mod_pos_bound; lia).
  assert (19 <= dt_year d / 100 < 64) as Hc by (split; [apply Z.div_le_lower_bound|apply Z.div_lt_upper_bound]; lia).
  destruct (century_inverse binary _ Hc) as [Hc1 Hc2].
  unfold read_rtc. change (shown binary h24 d REG_STATUS_B) with ((if binary then BINARY else 0) + (if h24 then HOUR_24 else 0)).
  replace (negb (Z.land ((if binary then BINARY else 0) + (if h24 then HOUR_24 else 0)) BINARY =? 0)) with binary by (by destruct binary, h24).
  replace (negb (Z.land ((if binary then BINARY else 0) + (if h24 then HOUR_24 else 0)) HOUR_24 =? 0)) with h24 by (by destruct binary, h24).
  pose proof (hour_inverse binary h24 _ Hh) as Hhour. unfold hour_read, hour_shown in Hhour.
  destruct d as [y mo da h mi se]; cbn [dt_year dt_month dt_day dt_hour dt_minute dt_second] in *.
  unfold shown. cbn. f_equal; [|apply He; lia..| |apply He; lia|apply He; lia].
  - unfold full_year. rewrite Hc1, Hc2, He by lia. pose proof (Z.div_mod y 100). lia.
  - exact Hhour.
Qed.

(** ** Counting *)

Lemma add_days_app f lo mid hi days :
  lo <= mid <= hi -> add_days f lo hi days = add_days f mid hi (add_days f lo mid days).
Proof.
  intros H. unfold add_days. replace (hi - lo) with ((mid - lo) + (hi - mid)) by lia.
  rewrite seqZ_app, foldl_app by lia. by replace (lo + (mid - lo)) with mid by lia.
Qed.

Lemma add_days_one f x days : add_days f x (x + 1) days = days + f x.
Proof. unfold add_days. by replace (x + 1 - x) with 1 by lia. Qed.

Lemma add_days_shift f lo hi days : add_days f lo hi days = days + add_days f lo hi 0.
Proof.
  unfold add_days. generalize (seqZ lo (hi - lo)) as l. intros l. revert days.
  induction l as [|x l IH]; intros days; cbn [foldl]; [lia|]. rewrite IH, (IH (0 + f x)). lia.
Qed.

Lemma add_days_step f lo hi : lo <= hi -> add_days f lo (hi + 1) 0 = add_days f lo hi 0 + f hi.
Proof. intros. rewrite (add_days_app f lo hi) by lia. apply add_days_one. Qed.

Lemma months_of_year y : add_days (days_in_month y) 1 13 0 = days_in_year y.
Proof. unfold days_in_year. by destruct (is_leap_year y) eqn:E; unfold add_days, days_in_month; simpl; rewrite E. Qed.

Lemma add_days_nonneg f lo hi : (forall x, 0 <= f x) -> 0 <= add_days f lo hi 0.
Proof.
  intros Hf. unfold add_days. cut (forall l d, 0 <= d -> 0 <= foldl (fun d x => d + f x) d l).
  { intros H. by apply H. }
  induction l as [|x l IH]; intros d Hd; simpl; [done|]. apply IH. specialize (Hf x). lia.
Qed.

Lemma add_days_bound f lo hi c :
  (forall x, f x <= c) -> lo <= hi -> add_days f lo hi 0 <= c * (hi - lo).
Proof.
  intros Hf Hle. replace hi with (lo + Z.of_nat (Z.to_nat (hi - lo))) by lia.
  induction (Z.to_nat (hi - lo)) as [|n IH].
  - unfold add_days. replace (lo + Z.of_nat 0 - lo) with 0 by lia. simpl. lia.
  - replace (lo + Z.of_nat (S n)) with (lo + Z.of_nat n + 1) by lia. rewrite add_days_step by lia.
    specialize (Hf (lo + Z.of_nat n)). lia.
Qed.

(** The calendar: the next second. *)
Definition next_day (d : DateTime) : DateTime :=
  if dt_day d <? days_in_month (dt_year d) (dt_month d) then
    mk_DateTime (dt_year d) (dt_month d) (dt_day d + 1) 0 0 0
  else if dt_month d <? 12 then mk_DateTime (dt_year d) (dt_month d + 1) 1 0 0 0
  else mk_DateTime (dt_year d + 1) 1 1 0 0 0.

Definition tick (d : DateTime) : DateTime :=
  if dt_second d <? 59 then mk_DateTime (dt_year d) (dt_month d) (dt_day d) (dt_hour d) (dt_minute d) (dt_second d + 1)
  else if dt_minute d <? 59 then mk_DateTime (dt_year d) (dt_month d) (dt_day d) (dt_hour d) (dt_minute d + 1) 0
  else if dt_hour d <? 23 then mk_DateTime (dt_year d) (dt_month d) (dt_day d) (dt_hour d + 1) 0 0
  else next_day d.

Definition epoch : DateTime := mk_DateTime 1970 1 1 0 0 0.

(** Days since the epoch, as [unix_timestamp_ms] counts them. *)
Definition day_number (d : DateTime) : Z :=
  add_days days_in_year 1970 (dt_year d) 0 + add_days (days_in_month (dt_year d)) 1 (dt_month d) 0 + (dt_day d - 1).

Definition second_number (d : DateTime) : Z :=
  ((day_number d * 24 + dt_hour d) * 60 + dt_minute d) * 60 + dt_second d.

Lemma timestamp_seconds d : timestamp_of d = wrap_u64 (second_number d * 1000).
Proof.
  unfold timestamp_of, second_number, day_number. rewrite (add_days_shift (days_in_month _)). f_equal.
Qed.

Lemma day_number_next d :
  1970 <= dt_year d -> 1 <= dt_month d <= 12 -> dt_day d <= days_in_month (dt_year d) (dt_month d) ->
  day_number (next_day d) = day_number d + 1.
Proof.
  intros Hy Hm Hd. unfold next_day, day_number. destruct (Z.ltb_spec (dt_day d) (days_in_month (dt_year d) (dt_month d))).
  - cbn [dt_year dt_month dt_day]. lia.
  - destruct (Z.ltb_spec (dt_month d) 12); cbn [dt_year dt_month dt_day].
    + rewrite add_days_step by lia. lia.
    + rewrite add_days_step by lia. assert (dt_month d = 12) as E12 by lia. rewrite E12 in *.
      pose proof (months_of_year (dt_year d)) as Hmo. change 13 with (12 + 1) in Hmo.
      rewrite add_days_step in Hmo by lia. change (add_days _ 1 1 0) with 0. lia.
Qed.

Lemma second_number_tick d : valid_date d -> second_number (tick d) = second_number d + 1.
Proof.
  intros (Hy & Hm & Hd & Hh & Hmi & Hs). unfold tick.
  destruct (Z.ltb_spec (dt_second d) 59); [unfold second_number, day_number; cbn; lia|].
  destruct (Z.ltb_spec (dt_minute d) 59); [unfold second_number, day_number; cbn; lia|].
  destruct (Z.ltb_spec (dt_hour d) 23); [unfold second_number, day_number; cbn; lia|].
  unfold second_number. rewrite day_number_next by lia.
  assert (dt_hour (next_day d) = 0 /\ dt_minute (next_day d) = 0 /\ dt_second (next_day d) = 0) as (-> & -> & ->).
  { unfold next_day. by repeat case_match. }
  lia.
Qed.

Lemma second_number_bound d : valid_date d -> 0 <= second_number d < 2 ^ 38.
Proof.
  intros (Hy & Hm & Hd & Hh & Hmi & Hs).
  assert (forall y, 0 <= days_in_year y <= 366) as Hdy by (intros y; unfold days_in_year; case_match; lia).
  assert (forall m, 0 <= days_in_month (dt_year d) m) as Hdm
    by (intros m; unfold days_in_month; repeat case_match; lia).
  pose proof (add_days_nonneg days_in_year 1970 (dt_year d) (fun y => proj1 (Hdy y))).
  pose proof (add_days_bound days_in_year 1970 (dt_year d) 366 (fun y => proj2 (Hdy y)) ltac:(lia)).
  pose proof (add_days_nonneg (days_in_month (dt_year d)) 1 (dt_month d) Hdm).
  pose proof (add_days_bound (days_in_month (dt_year d)) 1 (dt_month d) 31 (days_in_month_bound _) ltac:(lia)).
  pose proof (days_in_month_bound (dt_year d) (dt_month d)).
  unfold second_number, day_number. lia.
Qed.

Lemma unix_timestamp_shown (binary h24 : bool) d :
  valid_date d -> unix_timestamp_ms (shown binary h24 d) = second_number d * 1000.
Proof.
  intros Hv. unfold unix_timestamp_ms. rewrite read_rtc_shown, timestamp_seconds by done.
  pose proof (second_number_bound d Hv). unfold wrap_u64. apply Z.mod_small. lia.
Qed.

(** In whatever format the clock shows the time (binary or BCD, 24-hour or
    12-hour), the kernel's wall clock is zero at the epoch and advances by exactly
    1000 milliseconds from each second of the calendar to the next, over the ends
    of days, months, leap years and centuries. *)
Theorem wallclock_counts_seconds (binary h24 binary' h24' : bool) d :
  valid_date d -> valid_date (tick d) ->
  unix_timestamp_ms (shown binary h24 epoch) = 0 /\
  unix_timestamp_ms (shown binary' h24' (tick d)) = unix_timestamp_ms (shown binary h24 d) + 1000.
Proof.
  intros Hv Ht. split; [by destruct binary, h24|].
  rewrite !unix_timestamp_shown, second_number_tick by done. lia.
Qed.

Lemma wallclock_counts_seconds_witness :
  unix_timestamp_ms (shown false false (mk_DateTime 2024 3 1 0 0 0)) =
  unix_timestamp_ms (shown true true (mk_DateTime 2024 2 29 23 59 59)) + 1000.
Proof.
  apply (wallclock_counts_seconds true true false false (mk_DateTime 2024 2 29 23 59 59));
    vm_compute; repeat split; try discriminate; reflexivity.
Defined.

(** * The x86_64 platform (crates/zos-hal/src/x86_64/mod.rs)

    A platform value [X86_64Hal] has its own counters and tables; the wasm runtime,
    the block store, its device and the hardware are shared by all of them and
    make up the [Board]. Storage requests run at once, and their results are kept
    in a table of the platform. The process images the build embeds are a
    parameter. *)
From S2P Require Import StrLib Hal BlockStorage WasmHost WasmRuntime.

Local Open Scope Z_scope.

Definition MAX_PENDING_STORAGE_REQUESTS : Z := 1000.
Definition TICK_NANOS : Z := 10000000.

Inductive StorageRequestState : Type :=
| ReadComplete (data : option (list byte))
| WriteComplete (success : bool)
| ListComplete (keys : list string)
| ExistsComplete (exists_ : bool).

Record X86_64Hal : Type := mk_X86_64Hal {
  xh_time_nanos : Z;
  xh_next_pid : Z;
  xh_messages : list (NumericProcessHandle * list byte);
  xh_next_request : Z;
  xh_requests : gmap Z (Z * StorageRequestState);
  xh_storage_initialized : bool;
  xh_pending_ipc : gmap Z (list (list byte)) }.

Definition X86_64Hal_new : X86_64Hal := mk_X86_64Hal 0 1 [] 1 ∅ false ∅.

Definition set_requests (next : Z) (m : gmap Z (Z * StorageRequestState)) (h : X86_64Hal) : X86_64Hal :=
  mk_X86_64Hal (xh_time_nanos h) (xh_next_pid h) (xh_messages h) next m (xh_storage_initialized h) (xh_pending_ipc h).

(** The images of [embedded_binaries], by the name of their static. *)
Class Images : Type := { image : string -> list byte }.

(** The linear congruential generator of [random_bytes] without RDRAND: [n] bytes
    from a seed. *)
Fixpoint lcg_bytes (n : nat) (seed : Z) : list byte :=
  match n with
  | O => []
  | S n' =>
      let seed := wrap_u64 (wrap_u64 (seed * 6364136223846793005) + 1) in
      byte_of_Z (Z.shiftr seed 33) :: lcg_bytes n' seed
  end.

Section hal.
Context {D : Type} `{VirtioBlock D} {W : Wasmi} `{Images}.

(** [bd_ticks] are the readings of the tick counter to come, the last of which
    stays; [bd_apic] tells whether the APIC is initialised. *)
Record Board : Type := mk_Board {
  bd_platform : Platform;
  bd_storage : BlockStorage * option (VirtioBlkPci D);
  bd_apic : bool;
  bd_ticks : list Z;
  bd_cmos : Z -> Z }.

Definition X86 : Type := X86_64Hal * Board.

Definition set_platform (p : Platform) (b : Board) : Board :=
  mk_Board p (bd_storage b) (bd_apic b) (bd_ticks b) (bd_cmos b).
Definition set_storage (s : BlockStorage * option (VirtioBlkPci D)) (b : Board) : Board :=
  mk_Board (bd_platform b) s (bd_apic b) (bd_ticks b) (bd_cmos b).
Definition set_ticks (t : list Z) (b : Board) : Board :=
  mk_Board (bd_platform b) (bd_storage b) (bd_apic b) t (bd_cmos b).

(** An operation of the runtime. *)
Definition with_rt {T : Type} (f : WasmRuntime -> T * WasmRuntime) (x : X86) : T * X86 :=
  let '(h, b) := x in
  let '(r, rt) := f (pf_rt (bd_platform b)) in
  (r, (h, set_platform (set_rt rt (bd_platform b)) b)).

(** ** Processes *)
Definition x86_spawn_process (name : string) (binary : list byte) : HalM X86 NumericProcessHandle := fun '(h, b) =>
  let pid := xh_next_pid h in
  let h := mk_X86_64Hal (xh_time_nanos h) (u64_add pid 1) (xh_messages h) (xh_next_request h) (xh_requests h)
             (xh_storage_initialized h) (xh_pending_ipc h) in
  with_rt (spawn pid name binary) (h, b).

Definition x86_spawn_process_with_pid (pid : Z) (name : string) (binary : list byte)
  : HalM X86 NumericProcessHandle :=
  with_rt (spawn pid name binary).

Definition x86_kill_process (handle : NumericProcessHandle) : HalM X86 unit :=
  with_rt (kill (handle_id handle)).

Definition send_to_process (handle : NumericProcessHandle) (msg : list byte) : HalM X86 unit := fun '(h, b) =>
  let pid := handle_id handle in
  let h := mk_X86_64Hal (xh_time_nanos h) (xh_next_pid h) (xh_messages h) (xh_next_request h) (xh_requests h)
             (xh_storage_initialized h)
             (<[pid := default [] (xh_pending_ipc h !! pid) ++ [msg]]> (xh_pending_ipc h)) in
  with_rt (fun rt => (Ok tt, queue_message pid msg rt)) (h, b).

Definition is_process_alive (handle : NumericProcessHandle) (x : X86) : bool :=
  is_alive (handle_id handle) (pf_rt (bd_platform x.2)).

Definition get_process_memory_size (handle : NumericProcessHandle) (x : X86) : result Z HalError :=
  memory_size (handle_id handle) (pf_rt (bd_platform x.2)).

Definition poll_messages (x : X86) : list (NumericProcessHandle * list byte) * X86 :=
  let '(h, b) := x in
  (xh_messages h, (mk_X86_64Hal (xh_time_nanos h) (xh_next_pid h) [] (xh_next_request h) (xh_requests h)
                     (xh_storage_initialized h) (xh_pending_ipc h), b)).

(** ** Time and entropy *)
Definition tick_count (b : Board) : Z * Board :=
  match bd_ticks b with
  | [] => (0, b)
  | [t] => (t, b)
  | t :: rest => (t, set_ticks rest b)
  end.

Definition x86_now_nanos (x : X86) : Z * X86 :=
  let '(h, b) := x in
  if bd_apic b then let '(t, b) := tick_count b in (u64_mul t TICK_NANOS, (h, b))
  else (xh_time_nanos h, x).

Definition update_time (elapsed_nanos : Z) (h : X86_64Hal) : X86_64Hal :=
  mk_X86_64Hal (u64_add (xh_time_nanos h) elapsed_nanos) (xh_next_pid h) (xh_messages h) (xh_next_request h)
    (xh_requests h) (xh_storage_initialized h) (xh_pending_ipc h).

Definition set_hw (hw : Hardware) (b : Board) : Board := set_platform (mk_Platform (pf_rt (bd_platform b)) hw) b.

(** [random_bytes] for a buffer of [n] bytes; [tsc] is the time stamp counter. *)
Definition random_bytes (tsc n : Z) : HalM X86 (list byte) := fun '(h, b) =>
  let hw := pf_hw (bd_platform b) in
  if hw_rdrand hw then
    let '(r, hw) := fill_loop (Z.to_nat n) n [] hw in (ok_or r NotSupported, (h, set_hw hw b))
  else (Ok (lcg_bytes (Z.to_nat n) tsc), (h, b)).

Definition x86_debug_write (msg : string) (x : X86) : X86 :=
  (x.1, set_hw (write_str msg (pf_hw (bd_platform x.2))) x.2).

(** ** Storage *)

(** The common part of the asynchronous requests: the operation [f] runs at once
    and its result is stored under a new identifier. *)
Definition storage_request (pid : Z) (f : BlockStorage * option (VirtioBlkPci D) ->
    StorageRequestState * (BlockStorage * option (VirtioBlkPci D))) : HalM X86 Z := fun '(h, b) =>
  if MAX_PENDING_STORAGE_REQUESTS <=? btree_len (xh_requests h) then (Err HE_ResourceExhausted, (h, b))
  else
    let request_id := xh_next_request h in
    let '(state, st) := f (bd_storage b) in
    (Ok request_id,
     (set_requests (u32_add request_id 1) (<[request_id := (pid, state)]> (xh_requests h)) h, set_storage st b)).

Definition x86_storage_read_async (pid : Z) (key : string) : HalM X86 Z :=
  storage_request pid (fun st =>
    match bs_read key st with
    | (Ok data, st) => (ReadComplete data, st)
    | (Err _, st) => (ReadComplete None, st)
    end).

Definition is_ok {T E : Type} (r : result T E) : bool := match r with Ok _ => true | Err _ => false end.

Definition x86_storage_write_async (pid : Z) (key : string) (value : list byte) : HalM X86 Z :=
  storage_request pid (fun st => let '(r, st) := bs_write key value st in (WriteComplete (is_ok r), st)).

Definition x86_storage_delete_async (pid : Z) (key : string) : HalM X86 Z :=
  storage_request pid (fun st =>
    let '(r, st) := bs_delete key st in
    (WriteComplete (match r with Ok b => b | Err _ => false end), st)).

Definition x86_storage_list_async (pid : Z) (prefix : string) : HalM X86 Z :=
  storage_request pid (fun st => (ListComplete (bs_list prefix st.1), st)).

Definition x86_storage_exists_async (pid : Z) (key : string) : HalM X86 Z :=
  storage_request pid (fun st => (ExistsComplete (bs_exists key st.1), st)).

(** The loop of [storage_batch_write_async], which stops at the first error. *)
Fixpoint write_all (items : list (string * list byte)) (st : BlockStorage * option (VirtioBlkPci D))
  : bool * (BlockStorage * option (VirtioBlkPci D)) :=
  match items with
  | [] => (true, st)
  | (key, value) :: rest =>
      match bs_write key value st with
      | (Ok _, st) => write_all rest st
      | (Err _, st) => (false, st)
      end
  end.

Definition storage_batch_write_async (pid : Z) (items : list (string * list byte)) : HalM X86 Z :=
  storage_request pid (fun st => let '(ok, st) := write_all items st in (WriteComplete ok, st)).

Definition get_storage_request_pid (request_id : Z) (x : X86) : option Z :=
  fst <$> xh_requests x.1 !! request_id.

Definition take_storage_request_pid (request_id : Z) (x : X86) : option Z * X86 :=
  let '(h, b) := x in
  (fst <$> xh_requests h !! request_id,
   (set_requests (xh_next_request h) (delete request_id (xh_requests h)) h, b)).

(** ** Bootstrap storage *)
Definition bootstrap_storage_init : HalM X86 bool := fun '(h, b) =>
  if negb (blk_is_initialized (bd_storage b).2) then (Err NotSupported, (h, b))
  else
    match init (bd_storage b) with
    | (Ok is_new, st) =>
        (Ok is_new,
         (mk_X86_64Hal (xh_time_nanos h) (xh_next_pid h) (xh_messages h) (xh_next_request h) (xh_requests h) true
            (xh_pending_ipc h), set_storage st b))
    | (Err _, st) => (Err StorageError, (h, set_storage st b))
    end.

(** The guard on [storage_initialized], and the mapping of errors. *)
Definition bootstrap {T : Type} (f : BlockStorage * option (VirtioBlkPci D) ->
    result T VirtioError * (BlockStorage * option (VirtioBlkPci D))) : HalM X86 T := fun '(h, b) =>
  if negb (xh_storage_initialized h) then (Err NotSupported, (h, b))
  else let '(r, st) := f (bd_storage b) in (map_err (fun _ => StorageError) r, (h, set_storage st b)).

Definition bootstrap_storage_get_inode (path : string) : HalM X86 (option (list byte)) := bootstrap (bs_read path).

Definition bootstrap_storage_put_inode (path : string) (inode_json : list byte) : HalM X86 unit :=
  bootstrap (bs_write path inode_json).

Definition bootstrap_storage_inode_count : HalM X86 Z := bootstrap (fun st => (Ok (bs_count st.1), st)).

Definition bootstrap_storage_clear : HalM X86 unit := bootstrap bs_clear.

(** ** Images *)
Definition embedded : list (string * string) := [
  ("init", "INIT"); ("permission", "PERMISSION"); ("vfs", "VFS"); ("keystore", "KEYSTORE");
  ("identity", "IDENTITY"); ("time", "TIME"); ("terminal", "TERMINAL"); ("settings", "SETTINGS");
  ("calculator", "CALCULATOR"); ("clock", "CLOCK")]%string.

Definition x86_load_binary (name : string) : HalM X86 (list byte) := fun x =>
  (ok_or (image <$> assoc name embedded) NotFound, x).

#[export] Instance HAL_X86 : HAL X86 := {|
  ProcessHandle := NumericProcessHandle;
  hal_spawn_process := x86_spawn_process;
  hal_spawn_process_with_pid := x86_spawn_process_with_pid;
  now_nanos := x86_now_nanos;
  wallclock_ms := fun x => (unix_timestamp_ms (bd_cmos x.2), x);
  debug_write := x86_debug_write;
  storage_read_async := x86_storage_read_async;
  storage_write_async := x86_storage_write_async;
  storage_delete_async := x86_storage_delete_async;
  storage_list_async := x86_storage_list_async;
  storage_exists_async := x86_storage_exists_async;
  keystore_read_async := fun _ _ => not_supported;
  keystore_write_async := fun _ _ _ => not_supported;
  keystore_delete_async := fun _ _ => not_supported;
  keystore_list_async := fun _ _ => not_supported;
  keystore_exists_async := fun _ _ => not_supported;
  network_fetch_async := fun _ _ => not_supported;
  load_binary := x86_load_binary |}.
End hal.
Arguments Board D {W}.
Arguments X86 D {W}.
