(* ===== verification/QemuMain.v ===== *)
(** * The kernel's main program on x86_64 (crates/zos-boot/src/main.rs)

    The stage that boots Init and the kernel's main loop: route serial input to
    Init, then run the processes and dispatch their system calls through the
    system. The state is the system, whose platform value shares the board with
    the static [HAL] of the program. What interrupts do to the board (ticks, serial
    input) happens at the start of an iteration; serde's encoding of the commit log
    is a parameter. *)
From S2P Require Import Prelude StrLib AxiomTypes CommitLog Gateway Hal KernelState KernelReplay.
From S2P Require Import System BlockStorage WasmHost WasmRuntime X86Hal.

Local Open Scope Z_scope.

Definition COMMITLOG_KEY : string := "/axiom/commitlog.json".
Definition MAX_MAIN_LOOP_ITERATIONS : Z := 10000.
Definition MSG_SUPERVISOR_CONSOLE_INPUT : Z := 0x2001.
Definition TERMINAL_INPUT_ENDPOINT_SLOT : Z := 1.

(** [serde_json::to_vec] on a [CommitLogSnapshot]. *)
Class SnapshotJson : Type := { snapshot_to_vec : list Commit * list byte -> option (list byte) }.

Fixpoint skip_newlines (l : list byte) : list byte :=
  match l with b :: rest => if Byte.eqb b x0a then skip_newlines rest else l | [] => [] end.

(** [trim_end_matches('\n')]. *)
Definition trim_end_newlines (l : list byte) : list byte := rev (skip_newlines (rev l)).

Section main.
Context `{Target} {D : Type} `{VirtioBlock D} {W : Wasmi} `{Images} `{SnapshotJson}.

Record Qemu : Type := mk_Qemu { q_system : System (X86 D); q_hal : X86_64Hal }.

Definition q_board (q : Qemu) : Board D := (hal (kernel (q_system q))).2.

Definition up_sys (s : System (X86 D)) (q : Qemu) : Qemu := mk_Qemu s (q_hal q).

Definition up_board (b : Board D) (q : Qemu) : Qemu :=
  let k := kernel (q_system q) in
  up_sys (set_kernel (set_hal ((hal k).1, b) k) (q_system q)) q.

Definition get_platform (q : Qemu) : Platform := bd_platform (q_board q).

Definition put_platform (p : Platform) (q : Qemu) : Qemu := up_board (set_platform p (q_board q)) q.

Definition on_hw (f : Hardware -> Hardware) (q : Qemu) : Qemu :=
  put_platform (mk_Platform (pf_rt (get_platform q)) (f (pf_hw (get_platform q)))) q.

(** A method of the static [HAL]. *)
Definition with_static {T : Type} (f : X86 D -> T * X86 D) (q : Qemu) : T * Qemu :=
  let '(r, (h, b)) := f (q_hal q, q_board q) in
  (r, mk_Qemu (q_system (up_board b q)) h).

(** ** Serial input *)
Definition find_terminal_pid (s : System (X86 D)) : option Z :=
  fst <$> List.find (fun p => String.eqb (proc_name p.2) "terminal") (list_processes (kernel s)).

Definition console_payload (terminal_pid : Z) (b : byte) : list byte :=
  u32_to_le_bytes (wrap_u32 terminal_pid) ++ u32_to_le_bytes TERMINAL_INPUT_ENDPOINT_SLOT ++
  u16_to_le_bytes 1 ++ [b].

(** One byte is passed to Init, or echoed where that is not possible. *)
Definition route_byte (b : byte) (q : Qemu) : Qemu :=
  match find_terminal_pid (q_system q) with
  | Some pid =>
      match inject_to_init MSG_SUPERVISOR_CONSOLE_INPUT (console_payload pid b) (q_system q) with
      | (Ok _, s) => up_sys s q
      | (Err _, s) => on_hw (write_byte b) (up_sys s q)
      end
  | None => on_hw (write_byte b) q
  end.

(** [while let Some(byte) = serial::read_byte()]. *)
Fixpoint route_loop (fuel : nat) (q : Qemu) : Outcome Qemu :=
  match fuel with
  | O => OutOfFuel
  | S fuel' =>
      match read_byte (pf_hw (get_platform q)) with
      | (None, _) => Done q
      | (Some b, hw) => route_loop fuel' (route_byte b (on_hw (fun _ => hw) q))
      end
  end.

(** One turn for each byte that waits and one to see that there is none. *)
Definition route_serial_input_to_init (q : Qemu) : Outcome Qemu :=
  let hw := pf_hw (get_platform q) in
  route_loop (length (hw_buffer hw) + length (hw_line hw) + 1) q.

(** ** System calls *)
Definition print_text (data : list byte) (q : Qemu) : Qemu :=
  match from_utf8 data with
  | Some _ =>
      match trim_end_newlines data with
      | [] => q
      | text => on_hw (write_bytes (text ++ [x0a])) q
      end
  | None => q
  end.

(** The closure given to [run_scheduler_with_handler]. *)
Definition dispatch (p : PendingSyscall) (q : Qemu) : option ((Z * list byte) * Qemu) :=
  if (ps_num p =? 0x01) || (ps_num p =? 0x07) then Some ((0, []), print_text (ps_data p) q)
  else
    let '(a0, a1, a2) := ps_args p in
    match process_syscall (ps_pid p) (ps_num p) (a0, a1, a2, 0) (ps_data p) (q_system q) with
    | None => None
    | Some ((res, _, response_data), s) => Some ((res, response_data), up_sys s q)
    end.

Definition run_scheduler (q : Qemu) : Outcome Qemu :=
  run_all_processes_with_handler get_platform put_platform dispatch q.

(** ** The main loop *)
Definition persist_commitlog (q : Qemu) : Qemu :=
  let s := q_system q in
  match snapshot_to_vec (commits (commitlog (axiom s)), kernel_state_hash (kernel s)) with
  | Some bytes => (with_static (bootstrap_storage_put_inode COMMITLOG_KEY bytes) q).2
  | None => q
  end.

Section loop.
Context (env : Z -> Board D -> Board D) (storage_ready : bool).

Fixpoint main_loop (fuel : nat) (iteration : Z) (q : Qemu) : Outcome Qemu :=
  match fuel with
  | O => OutOfFuel
  | S fuel' =>
      let iteration := u64_add iteration 1 in
      if MAX_MAIN_LOOP_ITERATIONS <=? iteration then
        Done (if storage_ready then persist_commitlog q else q)
      else
        let q := up_board (env iteration (q_board q)) q in
        out_bind (route_serial_input_to_init q) (fun q =>
        out_bind (run_scheduler q) (main_loop fuel' iteration))
  end.

Definition run_kernel_main_loop (q : Qemu) : Outcome Qemu :=
  main_loop (Z.to_nat MAX_MAIN_LOOP_ITERATIONS) 0 q.
End loop.

(** ** Booting Init *)

(** The system before the main loop: the kernel is process 0, Init has two
    endpoints, at slots 0 and 1. [None] where Init's image is missing or refused. *)
Definition boot_init (h : X86_64Hal) (b : Board D) : option Qemu :=
  let s := System_new (X86_64Hal_new, b) in
  let s := (sys_register_process_with_pid 0 "kernel" s).2 in
  let q := mk_Qemu s h in
  match with_static (x86_load_binary "init") q with
  | (Err _, _) => None
  | (Ok binary, q) =>
      let '(init_pid, s) := sys_register_process "init" (q_system q) in
      match with_static (x86_spawn_process_with_pid init_pid "init" binary) (up_sys s q) with
      | (Err _, _) => None
      | (Ok _, q) =>
          let s := (sys_create_endpoint init_pid (q_system q)).2 in
          Some (up_sys (sys_create_endpoint init_pid s).2 q)
      end
  end.
End main.
Arguments Qemu D {W}.
