(* ===== verification/QemuRun.v ===== *)
(** * Runs of the kernel on x86_64

    Termination of the scheduler and the main loop, and relations between the
    states before and after a run: a relation that contains changes of the board,
    system calls of processes and the injection of console input contains every
    run of the main loop. *)
From S2P Require Import Prelude StrLib AxiomTypes CommitLog Gateway Hal KernelState.
From S2P Require Import System SystemRun SystemProps BlockStorage WasmHost WasmRuntime X86Hal QemuMain.

Local Open Scope Z_scope.

(** ** Outcomes *)
Lemma out_for_done {X T : Type} (f : X -> T -> Outcome T) l t :
  (forall x t, exists t', f x t = Done t') -> exists t', out_for f l t = Done t'.
Proof.
  intros Hf. revert t. induction l as [|x l IH]; intros t; simpl; [by eexists|].
  destruct (Hf x t) as [t1 ->]. apply IH.
Qed.

Lemma out_for_rel {X T : Type} (R : T -> T -> Prop) (f : X -> T -> Outcome T) l t t' :
  (forall t, R t t) -> (forall t1 t2 t3, R t1 t2 -> R t2 t3 -> R t1 t3) ->
  (forall x t t', f x t = Done t' -> R t t') -> out_for f l t = Done t' -> R t t'.
Proof.
  intros Hr Ht Hf. revert t. induction l as [|x l IH]; intros t; simpl; [intros [= ->]; apply Hr|].
  destruct (f x t) as [t1| |] eqn:E; try done. intros H. eapply Ht; eauto.
Qed.

(** ** Time slices *)

(** Arguments with which no shim for random bytes panics: the pointer is not
    negative. *)
Definition call_safe (c : HostCall) : Prop :=
  match c with
  | HC_shim Sh_random_obj args => 0 <= i32_arg args 1
  | HC_shim Sh_random args => 0 <= i32_arg args 0
  | _ => True
  end.

Lemma as_i32_bound z : - 2 ^ 31 <= as_i32 z < 2 ^ 31.
Proof. unfold as_i32, wrap_u32. pose proof (Z.mod_pos_bound z (2 ^ 32)). destruct (Z.ltb_spec (z mod 2 ^ 32) (2 ^ 31)); lia. Qed.

Lemma fill_random_safe ptr n st : 0 <= ptr < 2 ^ 31 -> n < 2 ^ 31 -> (fill_random_into_wasm ptr n st).1 <> HR_panic.
Proof.
  intros Hp Hn. destruct st as [[host mem] hw]. unfold fill_random_into_wasm.
  destruct (Z.leb_spec n 0); [done|]. destruct mem as [data|]; [|done].
  destruct (fill_random_bytes n hw) as [[bytes|] hw']; [|done].
  unfold wrap_u64. rewrite (Z.mod_small ptr), (Z.mod_small (ptr + n)) by lia.
  destruct (len data <? ptr + n); [done|]. destruct (Z.ltb_spec (ptr + n) ptr); [lia|done].
Qed.

Lemma host_call_safe c st : call_safe c -> (host_call c st).1 <> HR_panic.
Proof.
  intros Hs. destruct st as [[host mem] hw]. destruct c as [num a1 a2 a3|ptr n|ptr n| | |s args]; cbn [host_call].
  - unfold zos_syscall, random_syscall, kernel_syscall. by repeat case_match.
  - unfold zos_send_bytes. by repeat case_match.
  - unfold zos_recv_bytes. by repeat case_match.
  - done.
  - done.
  - pose proof (as_i32_bound (nth 0 args 0)). pose proof (as_i32_bound (nth 1 args 0)). pose proof (as_i32_bound (nth 2 args 0)).
    destruct s; try done; cbn [run_shim]; apply fill_random_safe; unfold call_safe, i32_arg in *; lia.
Qed.

Lemma iterate_inr {S R : Type} (step : S -> S + R) (P : R -> Prop) p s r :
  (forall s r, step s = inr r -> P r) -> iterate step p s = inr r -> P r.
Proof.
  intros Hs. revert s. induction p as [p IH|p IH|]; intros s; cbn [iterate]; [| |apply Hs].
  - destruct (step s) as [s1|] eqn:E1; [|intros [= <-]; by eapply Hs].
    destruct (iterate step p s1) as [s2|] eqn:E2; [apply IH|intros [= <-]; by eapply IH].
  - destruct (iterate step p s) as [s1|] eqn:E1; [apply IH|intros [= <-]; by eapply IH].
Qed.

Section slices.
Context {W : Wasmi}.

(** The guests call the shims for random bytes with pointers that are not
    negative. *)
Definition guests_safe : Prop := forall fuel m c r, wm_run fuel m = (S_call c, r) -> call_safe c.

Lemma exec_inr (P : ExecResult * ExecState -> Prop) fuel m host hw :
  (forall st r, exec_step st = inr r -> P r) -> (forall st, P (ER_Err true, st)) -> P (exec fuel m host hw).
Proof.
  intros Hs He. unfold exec. destruct (iterate exec_step _ _) as [st|r] eqn:E; [apply He|]. by eapply iterate_inr.
Qed.

Lemma exec_no_panic fuel m host hw : guests_safe -> (exec fuel m host hw).1 <> ER_Panic.
Proof.
  intros Hg. apply (exec_inr (fun r => r.1 <> ER_Panic)); [|done].
  intros [[[f m0] h0] hw0] r. unfold exec_step. destruct (wm_run f m0) as [[|b|c] [f1 m1]] eqn:E; [intros [= <-]; done..|].
  pose proof (host_call_safe c (h0, wm_memory m1, hw0) (Hg _ _ _ _ E)) as Hp.
  destruct (host_call c _) as [[vs| |] [[h1 mem1] hw1]]; [done|intros [= <-]; done|done].
Qed.

Lemma finish_turn_some r p : r.1 <> ER_Panic -> finish_turn r p <> None.
Proof.
  destruct r as [res [[[f m] host] hw]]. intros Hr. unfold finish_turn, handle_execution_result. simpl in Hr.
  destruct res as [|tys|[]|]; simpl; repeat case_match; done.
Qed.

Lemma run_process_some p hw : guests_safe -> run_process_internal p hw <> None.
Proof.
  intros Hg. unfold run_process_internal, call_start, resume_call. destruct (wp_state p); try done.
  destruct (wp_resumable (set_state Running p)) as [tys|].
  - apply finish_turn_some. case_match; [by apply exec_no_panic|done].
  - case_match; [by apply finish_turn_some, exec_no_panic|].
    case_match; [by apply finish_turn_some, exec_no_panic|done].
Qed.

Lemma run_slice_some pid pf : guests_safe -> exists r, run_slice pid pf = Some r.
Proof.
  intros Hg. unfold run_slice. destruct (rt_processes (pf_rt pf) !! pid) as [p|]; [|eauto].
  pose proof (run_process_some p (pf_hw pf) Hg). destruct (run_process_internal p (pf_hw pf)) as [[[t p'] hw']|]; [eauto|done].
Qed.
End slices.

(** ** The scheduler *)
Section scheduler.
Context {W : Wasmi} {St : Type} (get : St -> Platform) (put : Platform -> St -> St).
Context (handler : PendingSyscall -> St -> option ((Z * list byte) * St)).

Section total.
Context (Hg : guests_safe) (Hh : forall p s, handler p s <> None).

Lemma serve_done pid s : exists s', serve get put handler pid s = Done s'.
Proof.
  unfold serve. destruct (take_pending pid (pf_rt (get s))) as [[p|] rt]; [|eauto].
  pose proof (Hh p (put (set_rt rt (get s)) s)). destruct (handler p _) as [[[res data] s1]|]; [eauto|done].
Qed.

(** The limit on system calls ends the loop. *)
Lemma handler_loop_done fuel pid n s :
  0 <= n <= MAX_SYSCALLS_PER_PROCESS -> MAX_SYSCALLS_PER_PROCESS - n < Z.of_nat fuel ->
  exists s', handler_loop get put handler fuel pid n s = Done s'.
Proof.
  revert n s. induction fuel as [|fuel IH]; intros n s Hn Hf; [lia|]. cbn [handler_loop].
  destruct (run_slice_some pid (get s) Hg) as [[[[[alive pend] y]|] pf] ->]; [|eauto].
  destruct alive; simpl; [|eauto]. destruct y; [eauto|]. destruct pend; [|eauto].
  destruct (Z.ltb_spec MAX_SYSCALLS_PER_PROCESS (n + 1)); [eauto|].
  destruct (serve_done pid (put pf s)) as [s1 ->]. simpl. apply IH; lia.
Qed.

Lemma run_process_with_handler_done pid s : exists s', run_process_with_handler get put handler pid s = Done s'.
Proof. apply handler_loop_done; unfold MAX_SYSCALLS_PER_PROCESS; lia. Qed.

Lemma rounds_done n s : exists s', rounds get put handler n s = Done s'.
Proof.
  revert s. induction n as [|n IH]; intros s; cbn [rounds]; [eauto|].
  destruct (ready_pids (pf_rt (get s))) as [|pid pids] eqn:E; [eauto|].
  destruct (out_for_done (run_process_with_handler get put handler) (pid :: pids) s run_process_with_handler_done) as [s1 ->].
  apply IH.
Qed.
End total.

Section related.
Context (R : St -> St -> Prop) (Rrefl : forall s, R s s) (Rtrans : forall s1 s2 s3, R s1 s2 -> R s2 s3 -> R s1 s3).
Context (Rput : forall p s, R s (put p s)) (Rhandler : forall p s x s', handler p s = Some (x, s') -> R s s').

Lemma serve_rel pid s s' : serve get put handler pid s = Done s' -> R s s'.
Proof.
  unfold serve. destruct (take_pending pid (pf_rt (get s))) as [[p|] rt]; [|intros [= <-]; apply Rput].
  destruct (handler p _) as [[[res data] s1]|] eqn:E; [|done]. intros [= <-].
  eapply Rtrans; [apply Rput|]. eapply Rtrans; [by eapply Rhandler|apply Rput].
Qed.

Lemma handler_loop_rel fuel pid n s s' : handler_loop get put handler fuel pid n s = Done s' -> R s s'.
Proof.
  revert n s. induction fuel as [|fuel IH]; intros n s; [done|]. cbn [handler_loop].
  destruct (run_slice pid (get s)) as [[[[[alive pend] y]|] pf]|]; [| |done]; [|intros [= <-]; apply Rrefl].
  assert (forall s1, Done (put pf s) = Done s1 -> R s s1) as Hd by (intros ? [= <-]; apply Rput).
  destruct alive; simpl; [|apply Hd]. destruct y; [apply Hd|]. destruct pend; [|apply Hd].
  destruct (_ <? _); [apply Hd|]. destruct (serve get put handler pid (put pf s)) as [s1| |] eqn:E; try done.
  simpl. intros H. eapply Rtrans; [apply Rput|]. eapply Rtrans; [by eapply serve_rel|by eapply IH].
Qed.

Lemma rounds_rel n s s' : rounds get put handler n s = Done s' -> R s s'.
Proof.
  revert s. induction n as [|n IH]; intros s; cbn [rounds]; [intros [= <-]; apply Rrefl|].
  destruct (ready_pids (pf_rt (get s))) as [|pid pids] eqn:E; [intros [= <-]; apply Rrefl|].
  destruct (out_bind _ _) as [s1| |] eqn:E1; try done.
  destruct (out_for (run_process_with_handler get put handler) (pid :: pids) s) as [s2| |] eqn:E2; try done.
  intros [= <-]. eapply Rtrans; [|by eapply IH].
  eapply out_for_rel; [exact Rrefl|exact Rtrans| |exact E2]. intros. by eapply handler_loop_rel.
Qed.
End related.
End scheduler.

(** ** The main loop *)
Section main.
Context `{Target} {D : Type} `{VirtioBlock D} {W : Wasmi} `{Images} `{SnapshotJson}.
Implicit Types q : Qemu D.

(** Bytes of serial input that wait. *)
Definition waiting q : nat :=
  let hw := pf_hw (get_platform q) in (length (hw_buffer hw) + length (hw_line hw))%nat.

Lemma get_on_hw f q : pf_hw (get_platform (on_hw f q)) = f (pf_hw (get_platform q)).
Proof. done. Qed.

Lemma inject_platform tag data q :
  get_platform (up_sys (inject_to_init tag data (q_system q)).2 q) = get_platform q.
Proof.
  unfold inject_to_init, uptime_nanos, System.with_hal, get_platform, q_board.
  destruct (now_nanos (hal (kernel (q_system q)))) as [now [h b]] eqn:E.
  assert (bd_platform b = bd_platform (hal (kernel (q_system q))).2) as Hb.
  { revert E. simpl. unfold x86_now_nanos, tick_count. destruct (hal (kernel (q_system q))) as [h0 b0].
    repeat case_match; intros; by simplify_eq. }
  destruct (List.find _ _); [|exact Hb]. simpl. destruct (endpoints (kernel (q_system q)) !! _); exact Hb.
Qed.

Lemma route_byte_waiting b q : waiting (route_byte b q) = waiting q.
Proof.
  unfold route_byte. destruct (find_terminal_pid (q_system q)) as [pid|]; [|done].
  pose proof (inject_platform MSG_SUPERVISOR_CONSOLE_INPUT (console_payload pid b) q) as E.
  destruct (inject_to_init _ _ _) as [[u|e] s]; cbn [snd] in E; unfold waiting; [by rewrite E|].
  rewrite get_on_hw, E. done.
Qed.

Lemma route_loop_done fuel q : (waiting q < fuel)%nat -> exists q', route_loop fuel q = Done q'.
Proof.
  revert q. induction fuel as [|fuel IH]; intros q Hf; [lia|]. cbn [route_loop].
  destruct (read_byte (pf_hw (get_platform q))) as [[b|] hw] eqn:E; [|eauto]. apply IH.
  rewrite route_byte_waiting. unfold waiting in *. rewrite get_on_hw. revert E. unfold read_byte, receive_byte_raw.
  destruct (hw_buffer (pf_hw (get_platform q))) as [|c rest]; [destruct (hw_line (pf_hw (get_platform q))) as [|c rest]; [done|]|];
    intros [= <- <-]; simpl in *; lia.
Qed.

Lemma dispatch_some p q : 32 < usize_bits -> dispatch p q <> None.
Proof.
  intros Hu. unfold dispatch. destruct (_ || _); [done|]. destruct (ps_args p) as [[a0 a1] a2].
  pose proof (process_syscall_total (ps_pid p) (ps_num p) (a0, a1, a2, 0) (ps_data p) (q_system q) Hu).
  by destruct (process_syscall _ _ _ _ _) as [[[[res rich] d] s]|].
Qed.

Lemma main_loop_done env ready fuel n q :
  32 < usize_bits -> guests_safe -> 0 <= n < MAX_MAIN_LOOP_ITERATIONS ->
  MAX_MAIN_LOOP_ITERATIONS - n <= Z.of_nat fuel -> exists q', main_loop env ready fuel n q = Done q'.
Proof.
  intros Hu Hg. revert n q. induction fuel as [|fuel IH]; intros n q Hn Hf; [lia|]. cbn [main_loop].
  assert (u64_add n 1 = n + 1) as ->.
  { unfold u64_add, wrap_u64. apply Z.mod_small. unfold MAX_MAIN_LOOP_ITERATIONS in Hn. lia. }
  destruct (Z.leb_spec MAX_MAIN_LOOP_ITERATIONS (n + 1)); [eauto|].
  set (q1 := up_board _ q). destruct (route_loop_done (waiting q1 + 1) q1) as [q2 E2]; [lia|].
  unfold route_serial_input_to_init. unfold waiting in E2. rewrite E2. cbn [out_bind].
  destruct (rounds_done get_platform put_platform dispatch Hg (fun p q => dispatch_some p q Hu) MAX_ROUNDS q2) as [q3 E3].
  unfold run_scheduler, run_all_processes_with_handler. rewrite E3. cbn [out_bind]. apply IH; lia.
Qed.

Lemma run_main_done env ready q : 32 < usize_bits -> guests_safe -> exists q', run_kernel_main_loop env ready q = Done q'.
Proof. intros Hu Hg. by apply main_loop_done. Qed.

(** ** Relations *)
Class QemuRel (R : Qemu D -> Qemu D -> Prop) : Prop := {
  qr_refl q : R q q;
  qr_trans q1 q2 q3 : R q1 q2 -> R q2 q3 -> R q1 q3;
  qr_board b q : R q (up_board b q);
  qr_static h q : R q (mk_Qemu (q_system q) h);
  qr_syscall pid num args data q out s :
    process_syscall pid num args data (q_system q) = Some (out, s) -> R q (up_sys s q);
  qr_inject data q : R q (up_sys (inject_to_init MSG_SUPERVISOR_CONSOLE_INPUT data (q_system q)).2 q) }.

Section rel.
Context (R : Qemu D -> Qemu D -> Prop) `{!QemuRel R}.

Lemma rel_put p q : R q (put_platform p q).
Proof. apply qr_board. Qed.

Lemma rel_route_byte b q : R q (route_byte b q).
Proof.
  unfold route_byte, on_hw. destruct (find_terminal_pid (q_system q)) as [pid|]; [|apply rel_put].
  pose proof (qr_inject (R := R) (console_payload pid b) q) as E.
  destruct (inject_to_init _ _ _) as [[u|e] s]; [exact E|]. eapply qr_trans; [exact E|apply rel_put].
Qed.

Lemma rel_route_loop fuel q q' : route_loop fuel q = Done q' -> R q q'.
Proof.
  revert q. induction fuel as [|fuel IH]; intros q; [done|]. cbn [route_loop].
  destruct (read_byte _) as [[b|] hw]; [|intros [= <-]; apply qr_refl]. intros E.
  eapply qr_trans; [apply (rel_put (mk_Platform (pf_rt (get_platform q)) hw))|].
  eapply qr_trans; [apply rel_route_byte|]. by eapply IH.
Qed.

Lemma rel_dispatch p q x q' : dispatch p q = Some (x, q') -> R q q'.
Proof.
  unfold dispatch. destruct (_ || _).
  - intros [= <- <-]. unfold print_text. repeat case_match; first [apply qr_refl|apply rel_put].
  - destruct (ps_args p) as [[a0 a1] a2]. destruct (process_syscall _ _ _ _ _) as [[[[res rich] d] s]|] eqn:E; [|done].
    intros [= <- <-]. by eapply qr_syscall.
Qed.

Lemma rel_scheduler q q' : run_scheduler q = Done q' -> R q q'.
Proof.
  apply rounds_rel; [apply qr_refl|intros ???; apply qr_trans|apply rel_put|apply rel_dispatch].
Qed.

Lemma rel_with_static {T} (f : X86 D -> T * X86 D) q : R q (with_static f q).2.
Proof.
  unfold with_static. destruct (f _) as [r [h b]]. simpl. eapply qr_trans; [apply (qr_board b)|].
  apply (qr_static h (up_board b q)).
Qed.

Lemma rel_main_loop env ready fuel n q q' : main_loop env ready fuel n q = Done q' -> R q q'.
Proof.
  revert n q. induction fuel as [|fuel IH]; intros n q; [done|]. cbn [main_loop].
  destruct (_ <=? _).
  - intros [= <-]. destruct ready; [|apply qr_refl]. unfold persist_commitlog.
    destruct (snapshot_to_vec _); [apply rel_with_static|apply qr_refl].
  - unfold route_serial_input_to_init. destruct (route_loop _ _) as [q1| |] eqn:E1; try done. cbn [out_bind].
    destruct (run_scheduler q1) as [q2| |] eqn:E2; try done. cbn [out_bind]. intros E3.
    eapply qr_trans; [apply (qr_board (env (u64_add n 1) (q_board q)))|].
    eapply qr_trans; [by eapply rel_route_loop|]. eapply qr_trans; [by eapply rel_scheduler|by eapply IH].
Qed.
End rel.
End main.

(** * A guest that follows a script

    An interpreter whose machines make a fixed list of calls of host functions,
    at one unit of fuel each, and then finish; calls not in [ok] are skipped. It
    accepts a value for a suspended
    call when its type is the result type of the host function. It shows that the
    interface of the interpreter and its laws can be met, and lets runs of the
    kernel be evaluated. The first byte of an image selects the script. *)
From S2P Require Import BlockLog.

Local Open Scope Z_scope.

Record Script : Type := mk_Script { sc_calls : list HostCall; sc_memory : list byte }.

Definition scripts (n : Z) : list HostCall :=
  match n with
  | 0 => [HC_get_pid; HC_yield]
  | 1 => [HC_syscall 0x41 1 0 0; HC_yield]
  | _ => [HC_shim Sh_random [2 ^ 32 - 1; 2]]
  end.

Definition script_load (binary : list byte) : option Script :=
  match binary with
  | [] => None
  | b :: _ => Some (mk_Script (scripts (Z_of_byte b)) (replicate 16 x00))
  end.

Fixpoint next_call (ok : HostCall -> bool) (l : list HostCall) : option (HostCall * list HostCall) :=
  match l with
  | [] => None
  | c :: rest => if ok c then Some (c, rest) else next_call ok rest
  end.

Definition script_run (ok : HostCall -> bool) (fuel : Z) (m : Script) : Stop * (Z * Script) :=
  if fuel <=? 0 then (S_trap true, (0, m))
  else
    match next_call ok (sc_calls m) with
    | None => (S_finished, (fuel - 1, m))
    | Some (c, rest) => (S_call c, (fuel - 1, mk_Script rest (sc_memory m)))
    end.

Definition ScriptGuest (ok : HostCall -> bool) : Wasmi := {|
  Machine := Script;
  wm_load := fun _ binary => script_load binary;
  wm_has_start := fun _ => true;
  wm_enter := id;
  wm_run := script_run ok;
  wm_give := fun _ m => m;
  wm_accepts := fun tys vs => bool_decide (val_type <$> vs = tys);
  wm_memory := fun m => Some (sc_memory m);
  wm_set_memory := fun mem m => mk_Script (sc_calls m) (default [] mem) |}.

#[export] Instance ScriptGuest_laws ok : WasmiLaws (ScriptGuest ok).
Proof.
  split. intros fuel m c fuel' m'. simpl. unfold script_run. destruct (Z.leb_spec fuel 0); [done|].
  destruct (next_call ok (sc_calls m)) as [[c1 rest]|]; [|done]. intros [= _ <- _]. lia.
Qed.

Lemma next_call_ok ok l c rest : next_call ok l = Some (c, rest) -> ok c = true.
Proof.
  induction l as [|c1 l IH]; simpl; [done|]. destruct (ok c1) eqn:E; [intros [= <- <-]; done|apply IH].
Qed.

(** A machine without a random number generator and with no input. *)
Definition quiet_hw : Hardware := mk_Hardware [] [] [] false (fun _ => None) 0.

(** A machine with one. *)
Definition random_hw : Hardware := mk_Hardware [] [] [] true (fun n => Some n) 0.

(** Guests that give the shims for random bytes no negative pointers. *)
Definition careful (c : HostCall) : bool :=
  match c with
  | HC_shim Sh_random_obj args => 0 <=? i32_arg args 1
  | HC_shim Sh_random args => 0 <=? i32_arg args 0
  | _ => true
  end.

Definition CarefulGuest : Wasmi := ScriptGuest careful.

Definition AnyGuest : Wasmi := ScriptGuest (fun _ => true).

Lemma careful_safe : guests_safe (W := CarefulGuest).
Proof.
  intros fuel m c r. simpl. unfold script_run. destruct (_ <=? _); [done|].
  destruct (next_call careful (sc_calls m)) as [[c1 rest]|] eqn:E; [|done]. intros [= <- _].
  apply next_call_ok in E. destruct c1 as [| | | | |[] args]; simpl in *; try done; lia.
Qed.

(** Every image selects the script [n]; the commit log is not encoded. *)
Definition images_of (n : byte) : Images := {| image := fun _ => [n] |}.

Definition no_json : SnapshotJson := {| snapshot_to_vec := fun _ => None |}.

Definition test_board {W : Wasmi} (hw : Hardware) : Board RamDisk :=
  mk_Board (mk_Platform WasmRuntime_new hw) (BlockStorage_new, None) true [1; 2; 3] (fun _ => 0).

(** The system after the boot. *)
Definition booted {W : Wasmi} `{Images} (hw : Hardware) : Qemu RamDisk :=
  let _ := x86_64 in
  default (mk_Qemu (System.System_new (X86_64Hal_new, test_board hw)) X86_64Hal_new)
    (boot_init X86_64Hal_new (test_board hw)).

Lemma some_default {A : Type} (d : A) (o : option A) :
  match o with Some _ => true | None => false end = true -> o = Some (default d o).
Proof. by destruct o. Qed.
