(* ===== verification/QemuProps.v ===== *)
(** * Properties of the kernel on x86_64

    The main loop as a client of the system and its termination, and what the
    platform makes of serial input, storage requests and system calls. *)
From S2P Require Import Prelude StrLib AxiomTypes CommitLog Gateway Hal KernelState KernelIpc.
From S2P Require Import System KernelSpec KernelRefine KernelWf SystemRun HalRel.
From S2P Require Import BlockStorage BlockLog WasmHost WasmRuntime X86Hal QemuMain QemuRun.

Local Open Scope Z_scope.

(** What the kernel's program does to the system: the registrations and endpoints
    of the boot, system calls of processes, and console input for Init. *)
Definition qemu_event (ev : sevent) : bool :=
  match ev with
  | S_syscall _ _ _ _ | S_create_endpoint _ => true
  | S_inject tag _ => tag =? MSG_SUPERVISOR_CONSOLE_INPUT
  | S_register_pid pid _ => pid =? 0
  | S_register name => String.eqb name "init"
  | _ => false
  end.

Lemma qemu_event_ok ev : qemu_event ev = true -> event_ok ev.
Proof. destruct ev; simpl; try done. lia. Qed.

Section props.
Context `{Target} {D : Type} `{VirtioBlock D} {W : Wasmi} `{Images} `{SnapshotJson}.
Implicit Types q : Qemu D.

(** ** Traces *)
Definition q_traces q q' : Prop :=
  exists evs, strace (q_system q) evs (q_system q') /\ forallb qemu_event evs = true.

Lemma traces_event ev (s s' : System (X86 D)) :
  sys_exec s ev = Some s' -> qemu_event ev = true -> exists evs, strace s evs s' /\ forallb qemu_event evs = true.
Proof. intros E Hev. exists [ev]. split; [eapply ST_ev; [exact E|apply ST_nil]|]. simpl. by rewrite Hev. Qed.

#[local] Instance q_traces_rel : QemuRel q_traces.
Proof.
  split; unfold q_traces.
  - intros q. exists []. split; [apply ST_nil|done].
  - intros q1 q2 q3 (e1 & T1 & F1) (e2 & T2 & F2). exists (e1 ++ e2). split; [by eapply strace_app|].
    by rewrite forallb_app, F1, F2.
  - intros b q. exists []. split; [|done]. eapply ST_hal, ST_nil.
  - intros h q. exists []. split; [apply ST_nil|done].
  - intros pid num args data q out s E. apply (traces_event (S_syscall pid num args data)); [simpl; by rewrite E|done].
  - intros data q. by eapply (traces_event (S_inject MSG_SUPERVISOR_CONSOLE_INPUT data)).
Qed.

(** Calls of a list of events. *)
Lemma traces_then (s s1 s2 : System (X86 D)) ev evs :
  strace s evs s1 -> forallb qemu_event evs = true -> sys_exec s1 ev = Some s2 -> qemu_event ev = true ->
  strace s (evs ++ [ev]) s2 /\ forallb qemu_event (evs ++ [ev]) = true.
Proof.
  intros T F E Hev. split; [eapply strace_app; [exact T|]; eapply ST_ev; [exact E|apply ST_nil]|].
  rewrite forallb_app, F. simpl. by rewrite Hev.
Qed.

Lemma static_trace {T} (f : X86 D -> T * X86 D) q : strace (q_system q) [] (q_system (with_static f q).2).
Proof. unfold with_static. destruct (f _) as [r [h b]]. eapply ST_hal, ST_nil. Qed.

Lemma boot_traces h b q :
  boot_init h b = Some q ->
  exists evs, strace (System_new (X86_64Hal_new, b)) evs (q_system q) /\ forallb qemu_event evs = true.
Proof.
  unfold boot_init. set (s0 := System_new _). set (q0 := mk_Qemu _ h).
  pose proof (static_trace (x86_load_binary "init") q0) as T1.
  destruct (with_static (x86_load_binary "init") q0) as [[binary|e] q1]; [|done]. cbn [snd] in T1.
  assert (strace s0 ([S_register_pid 0 "kernel"] ++ []) (q_system q1)) as T2
    by (eapply strace_app; [eapply ST_ev; [reflexivity|apply ST_nil]|exact T1]).
  destruct (sys_register_process "init" (q_system q1)) as [pid s2] eqn:E2.
  destruct (traces_then _ _ s2 (S_register "init") _ T2 eq_refl) as [T3 F3]; [simpl; by rewrite E2|done|].
  pose proof (static_trace (x86_spawn_process_with_pid pid "init" binary) (up_sys s2 q1)) as T4.
  destruct (with_static _ (up_sys s2 q1)) as [[hd|e] q2]; [|done]. cbn [snd] in T4. intros [= <-].
  pose proof (strace_app _ _ _ _ _ T3 T4) as T5. rewrite app_nil_r in T5.
  destruct (traces_then _ _ _ (S_create_endpoint pid) _ T5 F3 eq_refl eq_refl) as [T6 F6].
  destruct (traces_then _ _ _ (S_create_endpoint pid) _ T6 F6 eq_refl eq_refl) as [T7 F7]. eauto.
Qed.

(** C7: the x86_64 kernel refines the system: from boot to the end of the main
    loop, whatever the wasm processes and the hardware do, the system evolves by
    calls of its own methods (the registrations of the boot, endpoints for Init,
    system calls of processes, console input for Init), and its invariants hold. *)
Theorem qemu_refines_system h b env ready q q' :
  boot_init h b = Some q -> run_kernel_main_loop env ready q = Done q' ->
  exists evs, strace (System_new (X86_64Hal_new, b)) evs (q_system q') /\ forallb qemu_event evs = true /\
    (4 * len evs <= max_steps -> kwf (kabs (kernel (q_system q')))).
Proof.
  intros Hb Hr. destruct (boot_traces _ _ _ Hb) as (e1 & T1 & F1).
  destruct (rel_main_loop q_traces _ _ _ _ _ _ Hr) as (e2 & T2 & F2).
  assert (forallb qemu_event (e1 ++ e2) = true) as F by (by rewrite forallb_app, F1, F2).
  pose proof (strace_app _ _ _ _ _ T1 T2) as T. exists (e1 ++ e2). split_and!; [done|done|].
  intros Hn. destruct (System_new_kwf (X86_64Hal_new, b)) as [Hwf Hbd].
  eapply (strace_kwf _ _ _ T 0); [|done|done|lia].
  apply Forall_forall. intros ev Hev. apply qemu_event_ok.
  eapply forallb_forall in F; [exact F|]. by apply list_elem_of_In.
Qed.

(** C8: the kernel's main loop ends: every time slice of a process ends within its
    fuel, every process gives up its turn after at most 100 system calls, and the
    loop returns after its 9999 iterations, whatever the processes do, as long as
    none gives a shim for random bytes a negative pointer. *)
Theorem main_loop_returns `{!WasmiLaws W} env ready q :
  32 < usize_bits -> guests_safe ->
  (forall m host hw, iterate exec_step (Z.to_pos (FUEL_PER_TIMESLICE + 1)) (FUEL_PER_TIMESLICE, m, host, hw) =
     inr (exec FUEL_PER_TIMESLICE m host hw)) /\
  exists q', run_kernel_main_loop env ready q = Done q'.
Proof. intros Hu Hg. split; [|apply run_main_done; [exact Hu|exact Hg]].
  intros m host hw. apply exec_ends. unfold FUEL_PER_TIMESLICE. lia. Qed.

(** ** Storage requests *)
Definition requests_kept (h h' : X86 D) : Prop := dom (xh_requests h.1) ⊆ dom (xh_requests h'.1).

Lemma rk_same h h' : xh_requests h'.1 = xh_requests h.1 -> requests_kept h h'.
Proof. intros E. unfold requests_kept. by rewrite E. Qed.

Lemma rk_with_rt {T} (f : WasmRuntime -> T * WasmRuntime) h : requests_kept h (with_rt f h).2.
Proof. destruct h as [h b]. unfold with_rt. destruct (f _). by apply rk_same. Qed.

Lemma rk_request pid f h : requests_kept h (storage_request pid f h).2.
Proof.
  destruct h as [h b]. unfold storage_request. destruct (_ <=? _); [by apply rk_same|]. destruct (f _) as [st s]. unfold requests_kept. simpl.
  set_solver.
Qed.

#[local] Instance requests_kept_rel : HalRel requests_kept.
Proof.
  split; try (intros; by apply rk_same); try (intros; apply rk_request).
  - unfold requests_kept. intros h1 h2 h3 ??. by etrans.
  - intros [h b]. simpl. unfold x86_now_nanos, tick_count. repeat (case_match; simplify_eq); by apply rk_same.
  - intros. apply rk_with_rt.
Qed.

Definition q_requests_kept q q' : Prop := kk requests_kept (kernel (q_system q)) (kernel (q_system q')).

#[local] Instance q_requests_kept_rel : QemuRel q_requests_kept.
Proof.
  split; unfold q_requests_kept; try (intros; apply kk_refl; apply _).
  - intros q1 q2 q3. apply kk_trans, _.
  - intros b q. by apply rk_same.
  - intros pid num args data q out s E. by eapply (kk_syscall requests_kept).
  - intros data q. unfold inject_to_init. pose proof (kk_uptime requests_kept (q_system q)) as Hu.
    destruct (uptime_nanos (q_system q)) as [t s]. cbn [snd] in Hu. repeat case_match; exact Hu.
Qed.

(** The main loop never takes a storage request out of the table, so that once
    1000 of them have been made every further request of any process is refused,
    for as long as the kernel runs. *)
Theorem storage_requests_exhaust env ready q q' pid key value :
  MAX_PENDING_STORAGE_REQUESTS <= btree_len (xh_requests (hal (kernel (q_system q))).1) ->
  run_kernel_main_loop env ready q = Done q' ->
  let h := hal (kernel (q_system q')) in
  storage_read_async pid key h = (Err HE_ResourceExhausted, h) /\
  storage_write_async pid key value h = (Err HE_ResourceExhausted, h) /\
  storage_delete_async pid key h = (Err HE_ResourceExhausted, h) /\
  storage_list_async pid key h = (Err HE_ResourceExhausted, h) /\
  storage_exists_async pid key h = (Err HE_ResourceExhausted, h).
Proof.
  intros Hn Hr. pose proof (rel_main_loop q_requests_kept _ _ _ _ _ _ Hr) as Hk. unfold q_requests_kept, kk, requests_kept in Hk.
  set (h := hal (kernel (q_system q'))) in *. cut (forall f, storage_request pid f h = (Err HE_ResourceExhausted, h)).
  { intros Hf. split_and!; apply Hf. }
  intros f. destruct h as [h b]. unfold storage_request. rewrite (proj2 (Z.leb_le _ _)); [done|].
  apply subseteq_size in Hk. rewrite !size_dom in Hk. unfold btree_len in *. simpl in Hk. lia.
Qed.
End props.

(** ** Witnesses *)
Section witnesses.
#[local] Instance test_target : Target := x86_64.
#[local] Instance test_images : Images := images_of x00.
#[local] Instance test_json : SnapshotJson := no_json.
#[local] Instance test_guest : Wasmi := CarefulGuest.

Definition quiet : Qemu RamDisk := booted quiet_hw.

Lemma quiet_boots : boot_init X86_64Hal_new (test_board quiet_hw) = Some quiet.
Proof. apply some_default. vm_compute. reflexivity. Qed.

Definition no_interrupts (_ : Z) (b : Board RamDisk) : Board RamDisk := b.

Lemma runs_from q : exists q', run_kernel_main_loop no_interrupts false q = Done q'.
Proof. apply run_main_done; [reflexivity|apply careful_safe]. Qed.

Lemma qemu_refines_system_witness :
  exists q' evs, strace (System_new (X86_64Hal_new, test_board quiet_hw)) evs (q_system q') /\
    forallb qemu_event evs = true.
Proof.
  destruct (runs_from quiet) as [q' Hr]. exists q'.
  destruct (qemu_refines_system X86_64Hal_new (test_board quiet_hw) no_interrupts false quiet q' quiet_boots Hr) as (evs & T & F & _).
  exists evs. split; [exact T|exact F].
Defined.

Lemma main_loop_returns_witness :
  exists q', run_kernel_main_loop no_interrupts false quiet = Done q'.
Proof. apply (main_loop_returns no_interrupts false quiet); [reflexivity|apply careful_safe]. Defined.

(** A platform whose table of requests is full. *)
Definition full_table : gmap Z (Z * StorageRequestState) :=
  list_to_map ((fun id => (id, (2, WriteComplete true))) <$> seqZ 1 1000).

Definition full : Qemu RamDisk :=
  let k := kernel (q_system quiet) in
  up_sys (set_kernel (set_hal (set_requests 1001 full_table (hal k).1, (hal k).2) k) (q_system quiet)) quiet.

Lemma storage_requests_exhaust_witness :
  exists q', run_kernel_main_loop no_interrupts false full = Done q' /\
    (storage_read_async 2 "k" (hal (kernel (q_system q')))).1 = Err HE_ResourceExhausted.
Proof.
  destruct (runs_from full) as [q' Hr]. exists q'. split; [exact Hr|].
  rewrite (proj1 (storage_requests_exhaust no_interrupts false full q' 2 "k" [] ltac:(vm_compute; discriminate) Hr)). reflexivity.
Defined.
End witnesses.

(** * Processes of the x86_64 kernel

    What a process meets on this platform: the fate of a system call, of a shim
    called with a negative pointer, and of the serial input meant for the
    terminal. *)

Local Open Scope Z_scope.

(** ** Iteration *)
Lemma iterate_inv {S R : Type} (step : S -> S + R) (I : S -> Prop) (P : R -> Prop) p s :
  (forall s s', I s -> step s = inl s' -> I s') -> (forall s r, I s -> step s = inr r -> P r) -> I s ->
  match iterate step p s with inl s' => I s' | inr r => P r end.
Proof.
  intros Hl Hr. revert s. induction p as [p IH|p IH|]; intros s Hs; cbn [iterate].
  - destruct (step s) as [s1|r] eqn:E1; [|by eapply Hr]. specialize (IH s1 (Hl _ _ Hs E1)) as H1.
    destruct (iterate step p s1) as [s2|]; [by apply IH|done].
  - specialize (IH s Hs) as H1. destruct (iterate step p s) as [s1|]; [by apply IH|done].
  - destruct (step s) as [s1|r] eqn:E1; [by eapply Hl|by eapply Hr].
Qed.

Lemma iterate_first {S R : Type} (step : S -> S + R) p s r : step s = inr r -> iterate step p s = inr r.
Proof. intros E. induction p as [p IH|p IH|]; cbn [iterate]; [by rewrite E|by rewrite IH|done]. Qed.

Section guest.
Context {W : Wasmi}.

(** ** The fate of a system call *)

(** No call of the kernel is under way. *)
Definition idle_host (h : HostState) : Prop := waiting_for_syscall h = false /\ pending_syscall h = None.

(** What the suspension of a call leaves in the host state. *)
Definition suspended (tys : list ValType) (h : HostState) : Prop :=
  idle_host h \/ (tys = [T_I64] /\ trapped_from_yield h = false).

Lemma host_call_idle c st r host mem hw :
  idle_host st.1.1 -> host_call c st = (r, (host, mem, hw)) ->
  match r with HR_ok _ => idle_host host | HR_trap => suspended (result_types c) host | HR_panic => True end.
Proof.
  destruct st as [[h0 m0] hw0]. intros Hi. unfold suspended. destruct c as [num a1 a2 a3| | | | |s args]; cbn [host_call result_types].
  - unfold zos_syscall, random_syscall, kernel_syscall. repeat case_match; intros; simplify_eq/=; auto.
  - unfold zos_send_bytes. repeat case_match; intros; simplify_eq/=; auto.
  - unfold zos_recv_bytes. repeat case_match; intros; simplify_eq/=; auto.
  - unfold zos_yield. intros [= <- <- <- <-]. auto.
  - unfold zos_get_pid. intros [= <- <- <- <-]. auto.
  - destruct s; cbn [run_shim]; try (intros [= <- <- <- <-]; auto; done);
      unfold fill_random_into_wasm; repeat case_match; intros; simplify_eq/=; auto.
Qed.

Definition turn_suspended (r : ExecResult * ExecState) : Prop :=
  match r with (ER_Resumable tys, (_, _, host, _)) => suspended tys host | _ => True end.

Lemma exec_suspended fuel m host hw : idle_host host -> turn_suspended (exec fuel m host hw).
Proof.
  intros Hi. unfold exec.
  pose proof (iterate_inv exec_step (fun st => idle_host st.1.2) turn_suspended (Z.to_pos (fuel + 1)) (fuel, m, host, hw)) as Hit.
  destruct (iterate _ _ _) as [st|r]; [done|]. apply Hit; [| |done]; clear -W.
  - intros [[[f m] h] hw] st' Hi. unfold exec_step. destruct (wm_run f m) as [[|b|c] [f1 m1]]; try done.
    destruct (host_call c _) as [[vs| |] [[h1 mem1] hw1]] eqn:E; try done. intros [= <-].
    by apply (host_call_idle c (h, wm_memory m1, hw) _ _ _ _ Hi E).
  - intros [[[f m] h] hw] r Hi. unfold exec_step. destruct (wm_run f m) as [[|b|c] [f1 m1]]; try (intros [= <-]; done).
    destruct (host_call c _) as [[vs| |] [[h1 mem1] hw1]] eqn:E; try done; intros [= <-]; [|done].
    by apply (host_call_idle c (h, wm_memory m1, hw) _ _ _ _ Hi E).
Qed.

(** A process that asks for a call of the kernel is suspended in [zos_syscall]. *)
Definition in_syscall (p : WasmProcess) : Prop :=
  wp_resumable p = Some [T_I64] /\ trapped_from_yield (wp_store p) = false.

Lemma finish_turn_pending r p y p' hw :
  turn_suspended r -> finish_turn r p = Some ((true, true, y), p', hw) -> in_syscall p'.
Proof.
  destruct r as [res [[[f m] host] hw0]]. unfold finish_turn, handle_execution_result, in_syscall.
  destruct res as [|tys|[]|]; simpl; try done. intros Hs.
  destruct (yielded host); simpl; intros E; destruct Hs as [[Hw Hp]|[-> Hy]];
    try (rewrite Hw, Hp in E; simpl in E; done); destruct (waiting_for_syscall host); by simplify_eq.
Qed.

Lemma run_process_pending p hw y p' hw' :
  (wp_state p = Ready -> idle_host (wp_store p)) ->
  run_process_internal p hw = Some ((true, true, y), p', hw') -> in_syscall p'.
Proof.
  intros Hi. unfold run_process_internal. destruct (wp_state p) eqn:Es; try done. specialize (Hi eq_refl).
  cbn [set_state wp_resumable]. destruct (wp_resumable p) as [tys|].
  - apply finish_turn_pending. case_match; [|done]. apply exec_suspended. simpl. destruct (has_pending_result (wp_store p)); exact Hi.
  - cbn [wp_start set_state]. destruct (wp_start p); [apply finish_turn_pending, exec_suspended, Hi|].
    simpl. case_match; [apply finish_turn_pending, exec_suspended, Hi|done].
Qed.

(** Wasmi refuses to resume a call with values that are not of the result
    types of the host function. The runtime hands the 64-bit result of a system
    call over as a 32-bit value, so a process that asks for a call of the kernel
    is terminated when its turn comes again, without executing anything more. *)
Theorem kernel_calls_end_process p hw y p' hw' pid rt res data hw2 :
  (forall tys vs, wm_accepts tys vs = true -> val_type <$> vs = tys) ->
  (wp_state p = Ready -> idle_host (wp_store p)) ->
  run_process_internal p hw = Some ((true, true, y), p', hw') -> rt_processes rt !! pid = Some p' ->
  let rt2 := complete_syscall pid res data (take_pending pid rt).2 in
  exists pf p2, run_slice pid (mk_Platform rt2 hw2) = Some (Some (false, false, false), pf) /\
    rt_processes (pf_rt pf) !! pid = Some p2 /\ wp_state p2 = Terminated /\ wp_instance p2 = wp_instance p'.
Proof.
  intros Hc Hi E Hp. destruct (run_process_pending _ _ _ _ _ Hi E) as [Er Ey]. unfold take_pending, complete_syscall.
  rewrite Hp. cbn [snd put_process set_processes rt_processes]. rewrite lookup_insert_eq. unfold run_slice.
  cbn [pf_rt put_process set_processes rt_processes]. rewrite lookup_insert_eq.
  unfold run_process_internal, resume_call. cbn. rewrite Er, Ey.
  destruct (wm_accepts [T_I64] _) eqn:Ea; [by apply Hc in Ea|]. cbn.
  eexists _, _. split; [reflexivity|]. split; [cbn; rewrite lookup_insert_eq; reflexivity|]. done.
Qed.

(** ** A shim that takes the kernel down *)
Lemma fill_loop_some fuel n acc hw :
  (forall i, is_Some (hw_random hw i)) -> exists bytes hw', fill_loop fuel n acc hw = (Some bytes, hw').
Proof.
  revert n acc hw. induction fuel as [|fuel IH]; intros n acc hw Hr; cbn [fill_loop]; [by eexists _, _|].
  destruct (n <=? 0); [by eexists _, _|]. unfold rdrand_u64. destruct (Hr (hw_draws hw)) as [r ->]. by apply IH.
Qed.

Lemma fill_random_panics ptr n host data hw :
  (forall i, is_Some (hw_random hw i)) -> hw_rdrand hw = true -> - 2 ^ 63 <= ptr < 0 -> n < 2 ^ 63 ->
  0 <= ptr + n <= len data -> (fill_random_into_wasm ptr n (host, Some data, hw)).1 = HR_panic.
Proof.
  intros Hr Hd Hp Hn He. unfold fill_random_into_wasm, fill_random_bytes. rewrite Hd.
  destruct (Z.leb_spec n 0); [lia|]. destruct (fill_loop_some (Z.to_nat n) n [] hw Hr) as (bytes & hw' & ->).
  assert (wrap_u64 ptr = ptr + 2 ^ 64) as ->.
  { unfold wrap_u64. symmetry. apply Z.mod_unique with (-1); lia. }
  assert (wrap_u64 (ptr + 2 ^ 64 + n) = ptr + n) as ->.
  { unfold wrap_u64. symmetry. apply Z.mod_unique with 1; lia. }
  destruct (Z.ltb_spec (len data) (ptr + n)); [lia|]. destruct (Z.ltb_spec (ptr + n) (ptr + 2 ^ 64)); [done|lia].
Qed.

Lemma exec_first fuel m host hw r : exec_step (fuel, m, host, hw) = inr r -> exec fuel m host hw = r.
Proof. intros E. unfold exec. by rewrite (iterate_first exec_step _ _ r E). Qed.
End guest.

Section kernel.
Context `{Target} {D : Type} `{VirtioBlock D} {W : Wasmi} `{Images} `{SnapshotJson}.
Implicit Types q : Qemu D.

(** With a random number generator present, a process that calls a shim for
    random bytes with a negative pointer and a length that reaches past zero takes
    the kernel down. *)
Theorem guest_panics_kernel q pid pids p fuel m ptr n data :
  ready_pids (pf_rt (get_platform q)) = pid :: pids -> rt_processes (pf_rt (get_platform q)) !! pid = Some p ->
  wp_resumable p = None -> wp_start p = true ->
  wm_run FUEL_PER_TIMESLICE (wm_enter (wp_instance p)) = (S_call (HC_shim Sh_random [ptr; n]), (fuel, m)) ->
  wm_memory m = Some data ->
  hw_rdrand (pf_hw (get_platform q)) = true -> (forall i, is_Some (hw_random (pf_hw (get_platform q)) i)) ->
  as_i32 ptr < 0 -> 0 <= as_i32 ptr + as_i32 n <= len data ->
  run_scheduler q = Panicked.
Proof.
  intros Hpids Hp Hres Hst Hrun Hm Hrd Hrand Hneg Hlen. pose proof (as_i32_bound ptr). pose proof (as_i32_bound n).
  assert (wp_state p = Ready) as Hready.
  { assert (pid ∈ ready_pids (pf_rt (get_platform q))) as Hin by (rewrite Hpids; left).
    unfold ready_pids in Hin. apply list_elem_of_fmap in Hin as ([pid1 p1] & -> & Hin). apply list_elem_of_filter in Hin as [Hs Hin].
    apply elem_of_btree_iter in Hin. simpl in *. congruence. }
  assert (run_process_internal p (pf_hw (get_platform q)) = None) as Hn.
  { unfold run_process_internal, call_start. rewrite Hready. cbn [set_state wp_resumable wp_start set_start wp_instance wp_store].
    rewrite Hres, Hst. pose proof (fill_random_panics (as_i32 ptr) (as_i32 n) (wp_store p) data _ Hrand Hrd) as Hf.
    destruct (fill_random_into_wasm (as_i32 ptr) (as_i32 n) (wp_store p, Some data, pf_hw (get_platform q))) as [r [[h1 mem1] hw1]] eqn:E.
    simpl in Hf. rewrite Hf in E by lia. erewrite exec_first.
    2:{ unfold exec_step. rewrite Hrun, Hm. cbn [host_call run_shim]. change (i32_arg [ptr; n] 0) with (as_i32 ptr).
        change (i32_arg [ptr; n] 1) with (as_i32 n). rewrite E. reflexivity. }
    done. }
  unfold run_scheduler, run_all_processes_with_handler, MAX_ROUNDS. cbn [rounds]. rewrite Hpids. cbn [out_for].
  unfold run_process_with_handler. rewrite Nat.add_1_r. cbn [handler_loop]. unfold run_slice. by rewrite Hp, Hn.
Qed.

(** ** Serial input *)

(** The endpoint [inject_to_init] picks. *)
Definition init_endpoint (k : KernelCore (X86 D)) : option EndpointId :=
  ei_id <$> List.find (fun e => ei_owner e =? 1) (list_endpoints k).

Lemma find_fmap {A B : Type} (f : A -> B) (P : B -> bool) l : List.find P (f <$> l) = f <$> List.find (fun x => P (f x)) l.
Proof. induction l as [|x l IH]; simpl; [done|]. destruct (P (f x)); [done|apply IH]. Qed.

Lemma init_endpoint_owners k :
  init_endpoint k = fst <$> List.find (fun p => p.2 =? 1) (btree_iter (ep_owner <$> endpoints k)).
Proof.
  unfold init_endpoint, list_endpoints. rewrite btree_iter_fmap, !find_fmap.
  induction (btree_iter (endpoints k)) as [|[id ep] l IH]; [done|]. simpl. destruct (ep_owner ep =? 1); [done|apply IH].
Qed.

(** Console input for Init: the queue of one endpoint grows. *)
Lemma inject_endpoints tag data (s : System (X86 D)) e0 :
  init_endpoint (kernel s) = Some e0 ->
  let s' := (inject_to_init tag data s).2 in
  exists ep, endpoints (kernel s) !! e0 = Some ep /\
    endpoints (kernel s') = <[e0 := push_message (mk_Message 0 tag data []) ep]> (endpoints (kernel s)) /\
    init_endpoint (kernel s') = Some e0 /\ processes (kernel s') = processes (kernel s) /\
    (inject_to_init tag data s).1 = Ok tt.
Proof.
  intros He. assert (is_Some (endpoints (kernel s) !! e0)) as [ep Hep].
  { rewrite init_endpoint_owners in He. destruct (List.find _ _) as [[id o]|] eqn:E; [|done]. injection He as <-.
    apply List.find_some in E as [E _]. apply list_elem_of_In, elem_of_btree_iter in E.
    rewrite lookup_fmap in E. destruct (endpoints (kernel s) !! id); [eauto|done]. }
  exists ep. unfold inject_to_init, uptime_nanos, System.with_hal.
  destruct (now_nanos (hal (kernel s))) as [now h]. cbn [fst snd set_kernel kernel].
  change (list_endpoints (set_hal h (kernel s))) with (list_endpoints (kernel s)).
  unfold init_endpoint in He. destruct (List.find (fun e => ei_owner e =? 1) (list_endpoints (kernel s))) as [e|] eqn:Ef; [|done].
  injection He as <-. cbn [endpoints set_hal]. rewrite Hep. cbn [snd fst]. rewrite !append_commit_types_kernel.
  split_and!; try done. rewrite init_endpoint_owners. cbn [kernel set_kernel endpoints set_endpoints].
  rewrite fmap_insert, insert_id by (rewrite lookup_fmap, Hep; done).
  rewrite <- init_endpoint_owners. unfold init_endpoint. by rewrite Ef.
Qed.

(** Input for the terminal while [q] becomes [q']: the messages go to [e0]. *)
Record routed (e0 : EndpointId) q q' : Prop := mk_routed {
  rd_first : init_endpoint (kernel (q_system q')) = Some e0;
  rd_procs : processes (kernel (q_system q')) = processes (kernel (q_system q));
  rd_others : forall e, e <> e0 -> endpoints (kernel (q_system q')) !! e = endpoints (kernel (q_system q)) !! e }.

Lemma route_byte_routed e0 b q :
  init_endpoint (kernel (q_system q)) = Some e0 -> routed e0 q (route_byte b q).
Proof.
  intros He. unfold route_byte. destruct (find_terminal_pid (q_system q)) as [pid|]; [|by split].
  destruct (inject_endpoints MSG_SUPERVISOR_CONSOLE_INPUT (console_payload pid b) (q_system q) e0 He) as (ep & Hep & E1 & E2 & E3 & E4).
  destruct (inject_to_init _ _ _) as [r s]. cbn [fst snd] in *. subst r. split; [done|done|].
  intros e Hne. cbn [q_system up_sys]. by rewrite E1, lookup_insert_ne.
Qed.

Lemma route_loop_routed e0 fuel q q' :
  init_endpoint (kernel (q_system q)) = Some e0 -> route_loop fuel q = Done q' -> routed e0 q q'.
Proof.
  revert q. induction fuel as [|fuel IH]; intros q He; [done|]. cbn [route_loop].
  destruct (read_byte _) as [[b|] hw]; [|intros [= <-]; by split]. intros E.
  destruct (route_byte_routed e0 b (on_hw (fun _ => hw) q) He) as [F1 P1 O1].
  destruct (IH _ F1 E) as [F2 P2 O2]. split; [done|by rewrite P2, P1|].
  intros e Hne. rewrite O2, O1 by done. done.
Qed.

(** Console input does not reach the endpoint Init receives on: it is put on
    the first endpoint Init owns, which is the one at its slot 0, while Init listens
    at slot 1, whose endpoint keeps its queue whatever is typed. *)
Theorem serial_input_misrouted q q' e0 cs cap :
  init_endpoint (kernel (q_system q)) = Some e0 ->
  cap_spaces (kernel (q_system q)) !! 1 = Some cs -> cs_get cs 1 = Some cap -> cap_object_id cap <> e0 ->
  route_serial_input_to_init q = Done q' ->
  endpoints (kernel (q_system q')) !! cap_object_id cap = endpoints (kernel (q_system q)) !! cap_object_id cap.
Proof. intros He _ _ Hne Hr. by apply (rd_others e0 q q' (route_loop_routed _ _ _ _ He Hr)). Qed.
End kernel.

(** ** Witnesses *)
Section witnesses.
#[local] Instance guest_target : Target := x86_64.
#[local] Instance guest_images : Images := images_of x01.
#[local] Instance guest_json : SnapshotJson := no_json.
#[local] Instance guest_any : Wasmi := AnyGuest.

(** A process that receives from its slot 1. *)
Definition receiver : WasmProcess := WasmProcess_new 1 "init" (mk_Script (scripts 1) []).

Definition asked : WasmProcess :=
  match run_process_internal receiver quiet_hw with Some (_, p, _) => p | None => receiver end.

Lemma kernel_calls_end_process_witness :
  exists pf, run_slice 1 (mk_Platform (complete_syscall 1 0 [] (take_pending 1 (put_process 1 asked WasmRuntime_new)).2) quiet_hw) =
    Some (Some (false, false, false), pf).
Proof.
  destruct (kernel_calls_end_process receiver quiet_hw false asked quiet_hw 1 (put_process 1 asked WasmRuntime_new) 0 [] quiet_hw)
    as (pf & p2 & E & _); [|done|vm_compute; reflexivity|reflexivity|by exists pf].
  intros tys vs. simpl. apply bool_decide_eq_true.
Defined.

Definition reckless : Qemu RamDisk := booted (H := images_of x02) random_hw.

Lemma guest_panics_kernel_witness : run_scheduler reckless = Panicked.
Proof.
  refine (guest_panics_kernel reckless 1 [] (WasmProcess_new 1 "init" (mk_Script (scripts 2) (replicate 16 x00)))
    (FUEL_PER_TIMESLICE - 1) (mk_Script [] (replicate 16 x00)) (2 ^ 32 - 1) 2 (replicate 16 x00) _ _ eq_refl eq_refl _ eq_refl eq_refl _ _ _).
  - vm_compute. reflexivity.
  - vm_compute. reflexivity.
  - vm_compute. reflexivity.
  - intros i. by exists i.
  - vm_compute. reflexivity.
  - vm_compute. split; discriminate.
Defined.

(** A key is typed while a terminal runs. *)
Definition typed : Qemu RamDisk :=
  let q := booted (mk_Hardware [] [x41] [] false (fun _ => None) 0) in
  up_sys (sys_register_process "terminal" (q_system q)).2 q.

Definition typed_cap : Capability :=
  default (endpoint_cap 0 0) (cs ← cap_spaces (kernel (q_system typed)) !! 1; cs_get cs 1).

Lemma serial_input_misrouted_witness :
  exists q', route_serial_input_to_init typed = Done q' /\
    endpoints (kernel (q_system q')) !! 2 = endpoints (kernel (q_system typed)) !! 2.
Proof.
  destruct (route_loop_done (waiting typed + 1) typed) as [q' Hr]; [lia|]. exists q'. split; [exact Hr|].
  refine (serial_input_misrouted typed q' 1 (default CapabilitySpace_new (cap_spaces (kernel (q_system typed)) !! 1)) typed_cap _ _ _ _ Hr).
  - vm_compute. reflexivity.
  - vm_compute. reflexivity.
  - vm_compute. reflexivity.
  - vm_compute. discriminate.
Defined.
End witnesses.
