(* ===== verification/VfsPath.v ===== *)
(** * Virtual file system: types, errors, permissions, messages

    crates/zos-vfs/src: core/types.rs, core/error.rs, service/permissions.rs and
    the request and response types of ipc/types.rs the service uses; message
    tags of crates/zos-ipc. *)
From S2P Require Import Prelude StrLib.

(** ** core/types.rs *)
Inductive InodeType : Type :=
| IT_File
| IT_Directory
| IT_SymLink (target : string).

#[export] Instance InodeType_eq_dec : EqDecision InodeType.
Proof. solve_decision. Defined.

Record FilePermissions : Type := mk_FilePermissions {
  owner_read : bool;
  owner_write : bool;
  owner_execute : bool;
  system_read : bool;
  system_write : bool;
  world_read : bool;
  world_write : bool }.

#[export] Instance FilePermissions_eq_dec : EqDecision FilePermissions.
Proof. solve_decision. Defined.

Definition user_default : FilePermissions := mk_FilePermissions true true false true false false false.
Definition user_dir_default : FilePermissions := mk_FilePermissions true true true true false false false.
Definition system_only : FilePermissions := mk_FilePermissions false false false true true false false.
Definition world_readable : FilePermissions := mk_FilePermissions true true false true false true false.
Definition world_rw : FilePermissions := mk_FilePermissions true true true true true true true.
Definition read_only : FilePermissions := mk_FilePermissions true false false true false true false.
Definition identity_dir : FilePermissions := mk_FilePermissions true true true true true false false.

(** [UserId] is a [u128]; the content hash is 32 bytes. *)
Record Inode : Type := mk_Inode {
  ino_path : string;
  ino_parent_path : string;
  ino_name : string;
  ino_type : InodeType;
  ino_owner_id : option Z;
  ino_permissions : FilePermissions;
  ino_created_at : Z;
  ino_modified_at : Z;
  ino_accessed_at : Z;
  ino_size : Z;
  ino_encrypted : bool;
  ino_content_hash : option (list byte) }.

#[export] Instance Inode_eq_dec : EqDecision Inode.
Proof. solve_decision. Defined.

Definition Inode_new_directory (path parent_path name : string) (owner_id : option Z) (now : Z) : Inode :=
  mk_Inode path parent_path name IT_Directory owner_id user_dir_default now now now 0 false None.

Definition Inode_new_file (path parent_path name : string) (owner_id : option Z) (size : Z)
    (content_hash : option (list byte)) (now : Z) : Inode :=
  mk_Inode path parent_path name IT_File owner_id user_default now now now size false content_hash.

Definition is_directory (i : Inode) : bool := match ino_type i with IT_Directory => true | _ => false end.

Definition is_file (i : Inode) : bool := match ino_type i with IT_File => true | _ => false end.

Definition is_symlink (i : Inode) : bool := match ino_type i with IT_SymLink _ => true | _ => false end.

Record DirEntry : Type := mk_DirEntry {
  de_name : string;
  de_path : string;
  de_is_directory : bool;
  de_is_symlink : bool;
  de_size : Z;
  de_modified_at : Z }.

#[export] Instance DirEntry_eq_dec : EqDecision DirEntry.
Proof. solve_decision. Defined.

Definition DirEntry_from (i : Inode) : DirEntry :=
  mk_DirEntry (ino_name i) (ino_path i) (is_directory i) (is_symlink i) (ino_size i) (ino_modified_at i).

(** ** core/error.rs *)
Inductive StorageErrorKind : Type :=
| SK_ConnectionFailed
| SK_Timeout (operation : string)
| SK_ChunkCorrupt (chunk_index : option Z) (expected_hash : option string)
| SK_QuotaExceeded (used limit : Z)
| SK_PermissionDenied (path required : string)
| SK_KeyNotFound
| SK_Unavailable
| SK_Unknown (msg : string).

Inductive VfsError : Type :=
| VfsNotFound
| VfsAlreadyExists
| VfsNotADirectory
| VfsNotAFile
| VfsDirectoryNotEmpty
| VfsPermissionDenied
| VfsInvalidPath (msg : string)
| VfsInvalidRequest (msg : string)
| VfsStorage (kind : StorageErrorKind) (context : option string)
| VfsStorageError (msg : string)
| VfsQuotaExceeded
| VfsFileTooLarge
| VfsEncryptionError (msg : string)
| VfsDecryptionError (msg : string)
| VfsIoError (msg : string)
| VfsNotSupported (msg : string).

#[export] Instance StorageErrorKind_eq_dec : EqDecision StorageErrorKind.
Proof. solve_decision. Defined.

#[export] Instance VfsError_eq_dec : EqDecision VfsError.
Proof. solve_decision. Defined.

(** ** service/permissions.rs *)
Inductive ProcessClass : Type := PC_System | PC_Runtime | PC_Application.

#[export] Instance ProcessClass_eq_dec : EqDecision ProcessClass.
Proof. solve_decision. Defined.

Record PermissionContext : Type := mk_PermissionContext {
  pc_user_id : option Z;
  pc_process_class : ProcessClass }.

#[export] Instance PermissionContext_eq_dec : EqDecision PermissionContext.
Proof. solve_decision. Defined.

Definition PermissionContext_system : PermissionContext := mk_PermissionContext None PC_System.

Definition PermissionContext_user (user_id : Z) : PermissionContext :=
  mk_PermissionContext (Some user_id) PC_Application.

Definition system_class (ctx : PermissionContext) : bool :=
  bool_decide (pc_process_class ctx = PC_System) || bool_decide (pc_process_class ctx = PC_Runtime).

(** [ctx.user_id] is set and owns the inode. *)
Definition owns (i : Inode) (ctx : PermissionContext) : bool :=
  match pc_user_id ctx with
  | Some user_id => bool_decide (ino_owner_id i = Some user_id)
  | None => false
  end.

Definition check_read (i : Inode) (ctx : PermissionContext) : bool :=
  if system_class ctx then system_read (ino_permissions i)
  else if owns i ctx then owner_read (ino_permissions i)
  else world_read (ino_permissions i).

Definition check_write (i : Inode) (ctx : PermissionContext) : bool :=
  if system_class ctx then
    if String.eqb (ino_path i) "/home" || starts_with "/home/" (ino_path i)
       || bool_decide (is_Some (ino_owner_id i))
    then true
    else system_write (ino_permissions i)
  else if owns i ctx then owner_write (ino_permissions i)
  else world_write (ino_permissions i).

Definition check_execute (i : Inode) (ctx : PermissionContext) : bool :=
  if negb (is_directory i) then false
  else if system_class ctx then true
  else if owns i ctx then owner_execute (ino_permissions i)
  else world_read (ino_permissions i).

(** ** ipc/types.rs *)
Record MkdirRequest : Type := mk_MkdirRequest { mkdir_path : string; mkdir_create_parents : bool }.
Record RmdirRequest : Type := mk_RmdirRequest { rmdir_path : string; rmdir_recursive : bool }.
Record ReaddirRequest : Type := mk_ReaddirRequest { readdir_path : string }.
Record WriteFileRequest : Type := mk_WriteFileRequest {
  write_path : string; write_content : list byte; write_encrypt : bool }.
Record ReadFileRequest : Type := mk_ReadFileRequest {
  read_path : string; read_offset : option Z; read_length : option Z }.
Record UnlinkRequest : Type := mk_UnlinkRequest { unlink_path : string }.
Record StatRequest : Type := mk_StatRequest { stat_path : string }.
Record ExistsRequest : Type := mk_ExistsRequest { exists_path : string }.

(** The response structs [XResponse { result }]. *)
Inductive VfsResponse : Type :=
| MkdirResponse (r : result unit VfsError)
| RmdirResponse (r : result unit VfsError)
| ReaddirResponse (r : result (list DirEntry) VfsError)
| WriteFileResponse (r : result unit VfsError)
| ReadFileResponse (r : result (list byte) VfsError)
| UnlinkResponse (r : result unit VfsError)
| StatResponse (r : result Inode VfsError)
| ExistsResponse (r : result bool VfsError).

(** ** Message tags and result types (crates/zos-ipc) *)
Definition MSG_STORAGE_RESULT : Z := 0x80.
Definition MSG_VFS_MKDIR : Z := 0x8000.
Definition MSG_VFS_MKDIR_RESPONSE : Z := 0x8001.
Definition MSG_VFS_RMDIR : Z := 0x8002.
Definition MSG_VFS_RMDIR_RESPONSE : Z := 0x8003.
Definition MSG_VFS_READDIR : Z := 0x8004.
Definition MSG_VFS_READDIR_RESPONSE : Z := 0x8005.
Definition MSG_VFS_WRITE : Z := 0x8010.
Definition MSG_VFS_WRITE_RESPONSE : Z := 0x8011.
Definition MSG_VFS_READ : Z := 0x8012.
Definition MSG_VFS_READ_RESPONSE : Z := 0x8013.
Definition MSG_VFS_UNLINK : Z := 0x8014.
Definition MSG_VFS_UNLINK_RESPONSE : Z := 0x8015.
Definition MSG_VFS_STAT : Z := 0x8020.
Definition MSG_VFS_STAT_RESPONSE : Z := 0x8021.
Definition MSG_VFS_EXISTS : Z := 0x8022.
Definition MSG_VFS_EXISTS_RESPONSE : Z := 0x8023.

Definition READ_OK : Z := 0.
Definition WRITE_OK : Z := 1.
Definition ST_NOT_FOUND : Z := 2.
Definition ST_ERROR : Z := 3.
Definition LIST_OK : Z := 4.
Definition EXISTS_OK : Z := 5.

(** * Virtual file system paths (crates/zos-vfs/src/core/path.rs)

    Validation, normalisation and the small path functions, with the theory of
    absolute paths as lists of components. *)

Local Open Scope string_scope.

Definition path_validate (path : string) : result unit VfsError :=
  if String.eqb path "" then Err (VfsInvalidPath "Empty path")
  else if negb (starts_with "/" path) then Err (VfsInvalidPath "Path must be absolute (start with /)")
  else if str_contains_char "000" path then Err (VfsInvalidPath "Path contains null character")
  else Ok tt.

(** The loop of [normalize_path]; [components] is the vector, last element first. *)
Fixpoint normalize_loop (l : list string) (components : list string) : result (list string) VfsError :=
  match l with
  | [] => Ok components
  | component :: rest =>
      if String.eqb component "" || String.eqb component "." then normalize_loop rest components
      else if String.eqb component ".." then
        match components with
        | [] => Err (VfsInvalidPath "Path escapes root directory")
        | _ :: components' => normalize_loop rest components'
        end
      else normalize_loop rest (component :: components)
  end.

(** A slash before each component. *)
Fixpoint render (components : list string) : string :=
  match components with
  | [] => ""
  | c :: cs => "/" +:+ c +:+ render cs
  end.

Definition normalize_path (path : string) : result string VfsError :=
  match path_validate path with
  | Err e => Err e
  | Ok _ =>
      match normalize_loop (split_char "/" path) [] with
      | Err e => Err e
      | Ok components => Ok (if decide (components = []) then "/" else render (reverse components))
      end
  end.

Definition parent_path (path : string) : string :=
  if String.eqb path "/" then "/"
  else match rfind "/" path with
       | Some 0%nat => "/"
       | Some pos => str_take pos path
       | None => "/"
       end.

Definition filename (path : string) : string :=
  if String.eqb path "/" then ""
  else match rfind "/" path with
       | Some pos => str_drop (pos + 1) path
       | None => path
       end.

Definition join_path (base name : string) : string :=
  if String.eqb base "/" then "/" +:+ name else base +:+ "/" +:+ name.

(** The index is within bounds where [base] is a proper prefix. *)
Definition is_under (path base : string) : bool :=
  if String.eqb base "/" then true
  else starts_with base path
       && ((String.length path =? String.length base)%nat
           || bool_decide (str_get (String.length base) path = Some "/"%char)).

Definition extract_user_id (path : string) : option Z :=
  if negb (starts_with "/home/" path) then None
  else match split_char "/" (str_drop 6 path) with
       | user_id_str :: _ => u128_from_str_radix 16 user_id_str
       | [] => None
       end.

(** ** Components

    An absolute path is the rendering of its list of components. *)
Definition slash_free (c : string) : Prop := str_contains_char "/" c = false.

Definition good_comp (c : string) : Prop := slash_free c /\ c <> "" /\ c <> "." /\ c <> "..".

(** The normal form of a list of components. *)
Definition abs_path (cs : list string) : string := if decide (cs = []) then "/" else render cs.

Lemma str_app_assoc s1 s2 s3 : (s1 +:+ s2) +:+ s3 = s1 +:+ (s2 +:+ s3).
Proof.
  induction s1 as [|a s1 IH]; [done|].
  change (String a ((s1 +:+ s2) +:+ s3) = String a (s1 +:+ (s2 +:+ s3))). by rewrite IH.
Qed.

Lemma str_length_app s1 s2 : String.length (s1 +:+ s2) = (String.length s1 + String.length s2)%nat.
Proof. induction s1 as [|a s1 IH]; [done|]. change (S (String.length (s1 +:+ s2)) = S (String.length s1 + String.length s2)). by rewrite IH. Qed.

Lemma slash_free_cons a c : slash_free (String a c) <-> a <> "/"%char /\ slash_free c.
Proof.
  unfold slash_free. simpl. rewrite orb_false_iff, Ascii.eqb_neq. done.
Qed.

Lemma str_cons_app a c s : String a c +:+ s = String a (c +:+ s).
Proof. done. Qed.

(** Splitting at the first slash. *)
Lemma split_app c s : slash_free c -> split_char "/" (c +:+ String "/" s) = c :: split_char "/" s.
Proof.
  induction c as [|a c IH]; intros Hc; [done|]. apply slash_free_cons in Hc as [Ha Hc].
  rewrite str_cons_app. cbn [split_char]. rewrite (proj2 (Ascii.eqb_neq a "/"%char) Ha), IH; done.
Qed.

Lemma split_slash_free c : slash_free c -> split_char "/" c = [c].
Proof.
  induction c as [|a c IH]; intros Hc; [done|]. apply slash_free_cons in Hc as [Ha Hc].
  cbn [split_char]. by rewrite (proj2 (Ascii.eqb_neq a "/"%char) Ha), IH.
Qed.

Lemma split_not_nil s : split_char "/" s <> [].
Proof. destruct s as [|a s]; simpl; [done|]. destruct (Ascii.eqb _ _); [done|]. by destruct (split_char "/" s). Qed.

Lemma split_pieces s : Forall slash_free (split_char "/" s).
Proof.
  induction s as [|a s IH]; simpl; [by constructor|].
  destruct (Ascii.eqb_spec a "/") as [->|Ha]; [by constructor|].
  destruct (split_char "/" s) as [|w ws]; [by repeat constructor; apply slash_free_cons|].
  apply Forall_cons in IH as [Hw Hws]. constructor; [|done]. by apply slash_free_cons.
Qed.

Lemma render_split s : render (split_char "/" s) = String "/" s.
Proof.
  induction s as [|a s IH]; [done|]. cbn [split_char]. destruct (Ascii.eqb_spec a "/") as [->|Ha].
  - cbn [render]. by rewrite IH.
  - pose proof (split_not_nil s). destruct (split_char "/" s) as [|w ws]; [done|].
    cbn [render] in *. change (String "/" (w +:+ render ws) = String "/" s) in IH. injection IH as IH.
    change ("/" +:+ (String a w) +:+ render ws) with (String "/" (String a (w +:+ render ws))).
    by rewrite IH.
Qed.

Lemma split_render cs : cs <> [] -> Forall slash_free cs -> split_char "/" (render cs) = "" :: cs.
Proof.
  intros Hne Hf. destruct cs as [|c cs]; [done|]. clear Hne.
  change (render (c :: cs)) with (String "/" (c +:+ render cs)). cbn [split_char].
  rewrite Ascii.eqb_refl. f_equal. revert c Hf. induction cs as [|d cs IH]; intros c [Hc Hf]%Forall_cons.
  - cbn [render]. rewrite str_app_nil_r. by apply split_slash_free.
  - change (render (d :: cs)) with (String "/" (d +:+ render cs)). rewrite split_app by done.
    f_equal. by apply IH.
Qed.

Lemma render_inj cs ds : Forall slash_free cs -> Forall slash_free ds -> render cs = render ds -> cs = ds.
Proof.
  intros Hc Hd E. destruct cs as [|c cs], ds as [|d ds]; [done|done|done|].
  apply (f_equal (split_char "/")) in E. rewrite !split_render in E by done. by simplify_eq.
Qed.

(** ** Normalisation *)
Lemma good_slash_free cs : Forall good_comp cs -> Forall slash_free cs.
Proof. intros H. eapply Forall_impl; [exact H|]. by intros c [? _]. Qed.

Lemma good_comp_tests c : good_comp c ->
  String.eqb c "" = false /\ String.eqb c "." = false /\ String.eqb c ".." = false.
Proof. intros (_ & H1 & H2 & H3). by rewrite !String.eqb_neq. Qed.

Lemma normalize_loop_good l acc cs :
  Forall slash_free l -> Forall good_comp acc -> normalize_loop l acc = Ok cs -> Forall good_comp cs.
Proof.
  revert acc. induction l as [|c l IH]; intros acc Hl Ha H; simpl in H; [by simplify_eq|].
  apply Forall_cons in Hl as [Hc Hl].
  destruct (String.eqb_spec c ""), (String.eqb_spec c "."); simpl in H; try by eapply IH.
  destruct (String.eqb_spec c "..").
  - destruct acc; [done|]. apply Forall_cons in Ha as [_ Ha]. by eapply IH.
  - eapply IH; [done| |exact H]. by constructor.
Qed.

Lemma normalize_loop_id l acc : Forall good_comp l -> normalize_loop l acc = Ok (reverse l ++ acc)%list.
Proof.
  revert acc. induction l as [|c l IH]; intros acc Hl; simpl; [done|].
  apply Forall_cons in Hl as [(H1 & H2 & H3)%good_comp_tests Hl]. rewrite H1, H2, H3. simpl.
  rewrite IH by done. by rewrite reverse_cons, <- app_assoc.
Qed.

Lemma reverse_nil_inv {A} (l : list A) : reverse l = [] -> l = [].
Proof. intros H. rewrite <- (reverse_involutive l), H. done. Qed.

(** A successful normalisation yields a normal form. *)
Lemma normalize_form p q :
  normalize_path p = Ok q -> exists cs, Forall good_comp cs /\ q = abs_path cs.
Proof.
  unfold normalize_path. intros H. destruct (path_validate p); [|done].
  destruct (normalize_loop _ _) as [cs|] eqn:E; [|done]. exists (reverse cs).
  assert (Forall good_comp cs) as Hg.
  { eapply normalize_loop_good; [apply split_pieces|apply Forall_nil_2|exact E]. }
  split; [by apply Forall_reverse|]. unfold abs_path.
  destruct (decide (cs = [])) as [->|Hne]; [by simplify_eq/=|].
  rewrite decide_False by (intros ?%reverse_nil_inv; done). by simplify_eq/=.
Qed.

(** Characters of a normal form. *)
Lemma contains_app ch s1 s2 :
  str_contains_char ch (s1 +:+ s2) = str_contains_char ch s1 || str_contains_char ch s2.
Proof. induction s1 as [|a s1 IH]; [done|]. rewrite str_cons_app. simpl. by rewrite IH, orb_assoc. Qed.

Lemma normalize_abs cs :
  Forall good_comp cs -> str_contains_char "000" (render cs) = false ->
  normalize_path (abs_path cs) = Ok (abs_path cs).
Proof.
  intros Hg Hn. destruct cs as [|c cs]; [reflexivity|].
  assert (abs_path (c :: cs) = render (c :: cs)) as -> by done. unfold normalize_path.
  assert (path_validate (render (c :: cs)) = Ok tt) as ->.
  { unfold path_validate. rewrite Hn. reflexivity. }
  rewrite split_render by (done || by apply good_slash_free).
  change (normalize_loop ("" :: c :: cs) []) with (normalize_loop (c :: cs) []).
  rewrite (normalize_loop_id (c :: cs)) by done. rewrite app_nil_r, decide_False.
  - by rewrite reverse_involutive.
  - intros ?%reverse_nil_inv. done.
Qed.

(** ** The service's validation accepts the normal forms *)
Lemma contains_ss_free c s :
  slash_free c -> str_contains "//" (c +:+ s) = str_contains "//" s.
Proof.
  induction c as [|a c IH]; intros Hc; [done|]. apply slash_free_cons in Hc as [Ha Hc].
  rewrite str_cons_app. cbn [str_contains starts_with].
  rewrite (proj2 (Ascii.eqb_neq "/"%char a)) by congruence. by apply IH.
Qed.

Lemma ends_slash_free c : slash_free c -> ends_with_char "/" c = false.
Proof.
  induction c as [|a c IH]; intros Hc; [done|]. apply slash_free_cons in Hc as [Ha Hc].
  cbn [ends_with_char]. destruct c; [by apply Ascii.eqb_neq|]. by apply IH.
Qed.

Lemma ends_app c s : s <> "" -> ends_with_char "/" (c +:+ s) = ends_with_char "/" s.
Proof.
  intros Hs. induction c as [|a c IH]; [done|]. rewrite str_cons_app. cbn [ends_with_char].
  destruct (c +:+ s) eqn:E; [|done]. destruct c; [|done]. by destruct s.
Qed.

Lemma contains_ss_cons s : str_contains "//" (String "/" s) = starts_with "/" s || str_contains "//" s.
Proof. destruct s as [|a s]; [done|]. cbn [str_contains starts_with]. by rewrite Ascii.eqb_refl. Qed.

Lemma starts_slash_free a c s : slash_free (String a c) -> starts_with "/" (String a c +:+ s) = false.
Proof.
  intros [Ha _]%slash_free_cons. rewrite str_cons_app. cbn [starts_with].
  by rewrite (proj2 (Ascii.eqb_neq "/"%char a)) by congruence.
Qed.

(** A double or trailing slash is an empty component. *)
Lemma bad_slashes cs :
  cs <> [] -> Forall slash_free cs ->
  ends_with_char "/" (render cs) || str_contains "//" (render cs) = bool_decide ("" ∈ cs).
Proof.
  induction cs as [|c cs IH]; intros Hne Hf; [done|]. clear Hne. apply Forall_cons in Hf as [Hc Hf].
  change (render (c :: cs)) with (String "/" (c +:+ render cs)). rewrite contains_ss_cons.
  destruct cs as [|d cs].
  - cbn [render]. rewrite contains_ss_free by done. destruct c as [|a c]; [done|].
    rewrite starts_slash_free by done. rewrite str_app_nil_r.
    change (String "/" (String a c)) with ("/" +:+ String a c). rewrite ends_app, ends_slash_free by done.
    symmetry. apply bool_decide_eq_false. set_solver.
  - specialize (IH ltac:(done) Hf). set (r := render (d :: cs)) in *. assert (r <> "") as Hr by done.
    rewrite contains_ss_free by done.
    change (String "/" (c +:+ r)) with ("/" +:+ (c +:+ r)).
    rewrite <- str_app_assoc, ends_app by done. destruct c as [|a c].
    + rewrite orb_true_r. symmetry. apply bool_decide_eq_true. set_solver.
    + rewrite starts_slash_free by done. cbn [orb]. rewrite IH. apply bool_decide_ext. set_solver.
Qed.
