(* ===== verification/VfsService.v ===== *)
(** * VFS service (crates/zos-services/src/services/vfs)

    The process that owns the file system. Every request of a client starts an
    asynchronous storage operation; its result arrives as a message and is
    matched by request identifier to a pending operation, which either answers
    the client or starts the next storage operation.

    Calls of the system interface (zos_process::syscalls) are recorded in a
    history, newest first, and answered by an environment [Env] that may depend
    on the whole history. JSON encoding (serde_json) is the class [VfsJson].
    Diagnostic debug lines are left out; debug lines that carry a response are
    modelled. A panic is [None]. *)
From S2P Require Import Prelude StrLib VfsPath.

Local Open Scope string_scope.
Local Open Scope Z_scope.

(** ** External interfaces *)
Class VfsJson : Type := {
  mkdir_request_from_slice : list byte -> result MkdirRequest string;
  rmdir_request_from_slice : list byte -> result RmdirRequest string;
  readdir_request_from_slice : list byte -> result ReaddirRequest string;
  write_request_from_slice : list byte -> result WriteFileRequest string;
  read_request_from_slice : list byte -> result ReadFileRequest string;
  unlink_request_from_slice : list byte -> result UnlinkRequest string;
  stat_request_from_slice : list byte -> result StatRequest string;
  exists_request_from_slice : list byte -> result ExistsRequest string;
  inode_from_slice : list byte -> result Inode string;
  keys_from_slice : list byte -> result (list string) string;
  inode_to_vec : Inode -> result (list byte) string;
  response_to_vec : VfsResponse -> result (list byte) string }.

Inductive SysCall : Type :=
| Sys_StorageRead (key : string)
| Sys_StorageWrite (key : string) (value : list byte)
| Sys_StorageDelete (key : string)
| Sys_StorageList (prefix : string)
| Sys_StorageExists (key : string)
| Sys_Send (slot tag : Z) (data : list byte)
| Sys_Debug (msg : string)
| Sys_Wallclock.

(** Answers to the newest call of a history. *)
Record Env : Type := mk_Env {
  env_storage : list SysCall -> result Z Z;
  env_send : list SysCall -> result unit Z;
  env_clock : list SysCall -> Z }.

(** The errors of an application that a service returns. *)
Inductive AppError : Type :=
| AE_InitFailed (msg : string)
| AE_IpcError (msg : string)
| AE_Internal (msg : string).

Record Message : Type := mk_Message {
  msg_tag : Z;
  msg_from_pid : Z;
  msg_cap_slots : list Z;
  msg_data : list byte }.

(** ** mod.rs: limits, keys, contexts *)
Definition MAX_PENDING_OPS : Z := 1024.
Definition MAX_CONTENT_SIZE : Z := 16 * 1024 * 1024.

Definition inode_key (path : string) : string := "inode:" +:+ path.

Definition content_key (path : string) : string := "content:" +:+ path.

Definition result_type_name (result_type : Z) : string :=
  if result_type =? READ_OK then "READ_OK"
  else if result_type =? WRITE_OK then "WRITE_OK"
  else if result_type =? ST_NOT_FOUND then "NOT_FOUND"
  else if result_type =? ST_ERROR then "ERROR"
  else if result_type =? LIST_OK then "LIST_OK"
  else if result_type =? EXISTS_OK then "EXISTS_OK"
  else "UNKNOWN".

Record ClientContext : Type := mk_ClientContext { cc_pid : Z; cc_reply_caps : list Z }.

Definition ClientContext_from_message (msg : Message) : ClientContext :=
  mk_ClientContext (msg_from_pid msg) (msg_cap_slots msg).

Inductive WriteFileStage : Type :=
| WF_CheckingParent (content : list byte)
| WF_WritingContent (content_len : Z)
| WF_WritingInode.

Inductive MkdirStage : Type :=
| MD_CheckingExists
| MD_CheckingParent
| MD_WritingInode
| MD_CreatingParents (paths : list string) (index : nat) (writing : bool).

Inductive ReaddirStage : Type := RD_ReadingInode | RD_ListingChildren.

Inductive UnlinkStage : Type := UL_ReadingInode | UL_DeletingContent | UL_DeletingInode.

Inductive InodeOpType : Type :=
| IO_Stat
| IO_Exists
| IO_ReadFile
| IO_MkdirCheckParent (create_parents : bool)
| IO_WriteFileCheckParent (content : list byte)
| IO_Rmdir (recursive : bool)
| IO_Unlink
| IO_Readdir.

Inductive PendingOp : Type :=
| GetInode (ctx : ClientContext) (path : string) (op_type : InodeOpType) (perm_ctx : PermissionContext)
| GetContent (ctx : ClientContext) (path : string) (perm_ctx : PermissionContext)
| PutInode (ctx : option ClientContext) (response_tag : Z)
| PutContent (ctx : ClientContext) (path : string)
| DeleteInode (ctx : option ClientContext) (response_tag : Z)
| DeleteContent (path : string)
| ListChildren (ctx : ClientContext) (path : string) (perm_ctx : PermissionContext)
| ExistsCheck (ctx : ClientContext) (path : string)
| CheckExistsForMkdir (ctx : ClientContext) (path : string) (create_parents : bool)
    (perm_ctx : PermissionContext)
| WriteFileOp (ctx : ClientContext) (path : string) (perm_ctx : PermissionContext) (stage : WriteFileStage)
| MkdirOp (ctx : ClientContext) (path : string) (perm_ctx : PermissionContext) (stage : MkdirStage)
    (create_parents : bool)
| ReaddirOp (ctx : ClientContext) (path : string) (perm_ctx : PermissionContext) (stage : ReaddirStage)
| UnlinkOp (ctx : ClientContext) (path : string) (perm_ctx : PermissionContext) (stage : UnlinkStage).

Record VfsService : Type := mk_VfsService {
  registered : bool;
  pending_ops : gmap Z PendingOp }.

Definition VfsService_default : VfsService := mk_VfsService false ∅.

(** ** Paths *)
Definition validate_path (path : string) : result unit string :=
  if String.eqb path "" then Err "Path cannot be empty"
  else if negb (starts_with "/" path) then Err "Path must be absolute (start with '/')"
  else if str_contains_char "000" path then Err "Path cannot contain null bytes"
  else if String.eqb path "/" then Ok tt
  else if ends_with_char "/" path then Err "Path cannot have trailing slash (except root)"
  else
    match list_find (fun c => c = ".." \/ c = ".") (split_char "/" path) with
    | Some (_, c) =>
        if String.eqb c ".." then Err "Path cannot contain '..' traversal"
        else Err "Path cannot contain '.' (use normalized path)"
    | None =>
        if str_contains "//" path then Err "Path cannot contain double slashes" else Ok tt
    end.

(** The prefixes of a path, from the root to the path itself. *)
Fixpoint parent_paths_loop (components : list string) (current : string) : list string :=
  match components with
  | [] => []
  | c :: cs => let current := current +:+ "/" +:+ c in current :: parent_paths_loop cs current
  end.

Definition build_parent_paths (path : string) : list string :=
  if String.eqb path "/" || String.eqb path "" then []
  else parent_paths_loop (filter (fun c => c <> "") (split_char "/" path)) "".

(** The number after the first [users], [home] or [identity] component that is
    followed by one. *)
Fixpoint extract_loop (parts : list string) : option Z :=
  match parts with
  | part :: (next :: _) as rest =>
      if String.eqb part "users" || String.eqb part "home" || String.eqb part "identity" then
        match u128_from_str_radix 10 next with
        | Some id => Some id
        | None => extract_loop rest
        end
      else extract_loop rest
  | _ => None
  end.

Definition extract_user_id_from_path (path : string) : option Z := extract_loop (split_char "/" path).

Definition derive_permission_context (from_pid : Z) (path : string) : PermissionContext :=
  let user_id := extract_user_id_from_path path in
  if from_pid <? 10 then mk_PermissionContext user_id PC_System
  else mk_PermissionContext user_id PC_Application.

(** ** The service monad *)
Record World : Type := mk_World { w_svc : VfsService; w_hist : list SysCall }.

Definition M (T : Type) : Type := World -> option (T * World).

Definition m_ret {T} (x : T) : M T := fun w => Some (x, w).

Definition m_bind {T U} (c : M T) (k : T -> M U) : M U :=
  fun w => match c w with Some (x, w') => k x w' | None => None end.

Definition m_panic {T} : M T := fun _ => None.

Notation "'let!' x := c 'in' k" := (m_bind c (fun x => k))
  (at level 10, x binder, c at level 99, k at level 200).

Definition m_get : M VfsService := fun w => Some (w_svc w, w).

Definition m_modify (f : VfsService -> VfsService) : M unit :=
  fun w => Some (tt, mk_World (f (w_svc w)) (w_hist w)).

(** Record a call and let [answer] read the extended history. *)
Definition m_call {T} (c : SysCall) (answer : list SysCall -> T) : M T :=
  fun w => let h := c :: w_hist w in Some (answer h, mk_World (w_svc w) h).

Definition set_pending (p : gmap Z PendingOp) (s : VfsService) : VfsService :=
  mk_VfsService (registered s) p.

Definition ipc_error {T} (msg : string) : result T AppError := Err (AE_IpcError msg).

Section service.
Context `{Target} {J : VfsJson} (env : Env).

(** The body shared by the five [start_storage_*] methods. *)
Definition start_storage (call : SysCall) (what : string) (op : PendingOp) : M (result unit AppError) :=
  let! s := m_get in
  if MAX_PENDING_OPS <=? Z.of_nat (size (pending_ops s)) then
    m_ret (ipc_error "Too many pending operations")
  else
    let! r := m_call call (env_storage env) in
    match r with
    | Ok request_id =>
        let! _ := m_modify (fun s => set_pending (<[wrap_u32 request_id := op]> (pending_ops s)) s) in
        m_ret (Ok tt)
    | Err e => m_ret (ipc_error ("Storage " +:+ what +:+ " failed: " +:+ pretty e))
    end.

Definition start_storage_read (key : string) := start_storage (Sys_StorageRead key) "read".

Definition start_storage_write (key : string) (value : list byte) :=
  start_storage (Sys_StorageWrite key value) "write".

Definition start_storage_delete (key : string) := start_storage (Sys_StorageDelete key) "delete".

Definition start_storage_list (prefix : string) := start_storage (Sys_StorageList prefix) "list".

Definition start_storage_exists (key : string) := start_storage (Sys_StorageExists key) "exists".

(** The line the supervisor routes to a client. *)
Definition response_line (pid tag : Z) (data : list byte) : string :=
  "VFS:RESPONSE:" +:+ pretty pid +:+ ":" +:+ hex_u32 tag +:+ ":" +:+ hex_bytes data.

Definition send_response_via_debug (to_pid tag : Z) (response : VfsResponse) : M (result unit AppError) :=
  match response_to_vec response with
  | Ok data =>
      let! _ := m_call (Sys_Debug (response_line to_pid tag data)) (fun _ => tt) in m_ret (Ok tt)
  | Err e => m_ret (ipc_error ("Serialization failed: " +:+ e))
  end.

Definition send_response (ctx : ClientContext) (tag : Z) (response : VfsResponse)
  : M (result unit AppError) :=
  match response_to_vec response with
  | Ok data =>
      let fallback :=
        let! _ := m_call (Sys_Debug (response_line (cc_pid ctx) tag data)) (fun _ => tt) in
        m_ret (Ok tt) in
      match cc_reply_caps ctx with
      | reply_slot :: _ =>
          let! r := m_call (Sys_Send reply_slot tag data) (env_send env) in
          match r with Ok _ => m_ret (Ok tt) | Err _ => fallback end
      | [] => fallback
      end
  | Err e => m_ret (ipc_error ("Serialization failed: " +:+ e))
  end.

Definition get_wallclock : M Z := m_call Sys_Wallclock (env_clock env).
End service.

(** * Paths: the service's validation and the library's normalisation agree *)

Local Open Scope string_scope.

(** ** Acceptance *)
Lemma no_dots cs :
  Forall good_comp cs -> list_find (fun c => c = ".." \/ c = ".") ("" :: cs) = None.
Proof.
  intros Hg. apply list_find_None. constructor; [by intros [?|?]|].
  eapply Forall_impl; [exact Hg|]. intros c (_ & _ & H1 & H2) [?|?]; done.
Qed.

Lemma slash_split s : split_char "/" (String "/" s) = "" :: split_char "/" s.
Proof. reflexivity. Qed.

Lemma good_no_empty cs : Forall good_comp cs -> "" ∉ cs.
Proof. intros Hg Hin. rewrite Forall_forall in Hg. by destruct (Hg _ Hin) as (_ & ? & _). Qed.

(** A rendering of good components without NUL is valid. *)
Lemma validate_render cs :
  Forall good_comp cs -> str_contains_char "000" (render cs) = false -> validate_path (abs_path cs) = Ok tt.
Proof.
  intros Hg Hn. destruct (decide (cs = [])) as [->|Hne]; [done|]. unfold abs_path. rewrite decide_False by done.
  pose proof (bad_slashes cs Hne (good_slash_free _ Hg)) as Hb.
  rewrite bool_decide_eq_false_2 in Hb by (by apply good_no_empty). apply orb_false_iff in Hb as [He Hd].
  unfold validate_path. rewrite Hn, He, Hd, split_render, no_dots by (done || by apply good_slash_free).
  destruct cs as [|c cs]; [done|]. change (render (c :: cs)) with (String "/" (c +:+ render cs)). cbn.
  by destruct (c +:+ render cs).
Qed.

(** The components of a valid path. *)
Lemma validate_components p :
  validate_path p = Ok tt ->
  exists cs, Forall good_comp cs /\ p = abs_path cs /\ str_contains_char "000" p = false.
Proof.
  unfold validate_path. intros Hv.
  destruct p as [|a s]; [done|]. cbn [String.eqb starts_with] in Hv.
  destruct (Ascii.eqb_spec "/" a) as [<-|Ha]; [|done]. cbn [andb negb] in Hv.
  destruct (str_contains_char "000" (String "/" s)) eqn:Hn; [done|].
  rewrite Ascii.eqb_refl in Hv. destruct (String.eqb_spec s "") as [->|Hr]; [by exists []|].
  destruct (ends_with_char "/" (String "/" s)) eqn:He; [done|].
  destruct (list_find _ _) as [[i c]|] eqn:Hf; [by destruct (String.eqb c "..")|].
  destruct (str_contains "//" (String "/" s)) eqn:Hd; [done|].
  exists (split_char "/" s). pose proof (split_not_nil s) as Hne.
  unfold abs_path. rewrite decide_False, render_split by done. split; [|done].
  pose proof (bad_slashes (split_char "/" s) Hne (split_pieces s)) as Hb.
  rewrite render_split, He, Hd in Hb. symmetry in Hb. apply bool_decide_eq_false in Hb.
  rewrite slash_split in Hf. apply list_find_None, Forall_cons in Hf as [_ Hf].
  pose proof (split_pieces s) as Hs. rewrite Forall_forall in Hf, Hs |- *.
  intros c Hc. split_and!; [by apply Hs|congruence|..]; intros ->; eapply Hf; eauto.
Qed.

(** ** Characters of the components *)
Lemma split_contains ch s :
  str_contains_char ch s = false -> Forall (fun c => str_contains_char ch c = false) (split_char "/" s).
Proof.
  induction s as [|a s IH]; intros Hs; [by repeat constructor|]. cbn [str_contains_char] in Hs.
  apply orb_false_iff in Hs as [Ha Hs]. specialize (IH Hs). cbn [split_char].
  destruct (Ascii.eqb a "/"); [by constructor|].
  destruct (split_char "/" s) as [|w ws]; [by repeat constructor; simpl; rewrite Ha|].
  apply Forall_cons in IH as [Hw Hws]. constructor; [simpl; by rewrite Ha|done].
Qed.

Lemma normalize_loop_sub (P : string -> Prop) l acc cs :
  Forall P l -> Forall P acc -> normalize_loop l acc = Ok cs -> Forall P cs.
Proof.
  revert acc. induction l as [|c l IH]; intros acc Hl Ha Hn; simpl in Hn; [by simplify_eq|].
  apply Forall_cons in Hl as [Hc Hl]. destruct (_ || _); [by eapply IH|].
  destruct (String.eqb c ".."); [|eapply IH; [done| |exact Hn]; by constructor].
  destruct acc as [|a acc]; [done|]. apply Forall_cons in Ha as [_ Ha]. by eapply IH.
Qed.

Lemma render_contains ch cs :
  Ascii.eqb "/" ch = false -> Forall (fun c => str_contains_char ch c = false) cs ->
  str_contains_char ch (render cs) = false.
Proof.
  intros Hs. induction 1 as [|c cs Hc _ IH]; [done|].
  change (render (c :: cs)) with (String "/" (c +:+ render cs)). cbn [str_contains_char].
  by rewrite Hs, contains_app, Hc, IH.
Qed.

Lemma normalize_components p q :
  normalize_path p = Ok q ->
  exists cs, Forall good_comp cs /\ q = abs_path cs /\ str_contains_char "000" (render cs) = false.
Proof.
  intros Hq. pose proof (normalize_form p q Hq) as (cs & Hg & ->). exists cs. split_and!; [done..|].
  unfold normalize_path in Hq. destruct (path_validate p) as [[]|] eqn:Hv; [|done].
  assert (Hn : str_contains_char "000" p = false).
  { unfold path_validate in Hv. by repeat case_match. }
  destruct (normalize_loop (split_char "/" p) []) as [ds|] eqn:Hl; [|done].
  pose proof (normalize_loop_sub _ _ _ _ (split_contains "000" p Hn) (Forall_nil_2 _) Hl) as Hds.
  assert (Hgd : Forall good_comp ds) by (eapply normalize_loop_good; [apply split_pieces| |exact Hl]; by constructor).
  assert (cs = reverse ds) as ->.
  { injection Hq as Hq. unfold abs_path in Hq. destruct (decide (ds = [])) as [->|Hne], (decide (cs = [])) as [->|Hne'].
    - done.
    - destruct cs as [|c cs]; [done|]. apply Forall_cons in Hg as [(_ & Hc & _) _].
      change (render (c :: cs)) with (String "/" (c +:+ render cs)) in Hq. injection Hq as Hq.
      by destruct c.
    - destruct (reverse ds) as [|d ds'] eqn:Hr; [by apply reverse_nil_inv in Hr|].
      apply Forall_reverse in Hgd. rewrite Hr in Hgd. apply Forall_cons in Hgd as [(_ & Hc & _) _].
      change (render (d :: ds')) with (String "/" (d +:+ render ds')) in Hq. injection Hq as Hq. by destruct d.
    - apply render_inj; [by apply good_slash_free|by apply good_slash_free, Forall_reverse|by symmetry in Hq]. }
  apply render_contains; [done|]. by apply Forall_reverse.
Qed.

(** The service's [validate_path] accepts exactly the paths in normal form:
    those that the file system library's [normalize_path] leaves unchanged, and
    what normalisation produces is always accepted. *)
Theorem valid_iff_normal p :
  (validate_path p = Ok tt <-> normalize_path p = Ok p) /\
  (forall q, normalize_path p = Ok q -> validate_path q = Ok tt /\ normalize_path q = Ok q).
Proof.
  assert (Hval : forall q r, normalize_path q = Ok r -> validate_path r = Ok tt /\ normalize_path r = Ok r).
  { intros q r (cs & Hg & -> & Hn)%normalize_components.
    split; [by apply validate_render|by apply normalize_abs]. }
  split; [|by apply Hval]. split; [|by intros [? _]%Hval].
  intros (cs & Hg & -> & Hn)%validate_components. apply normalize_abs; [done|].
  destruct cs; [done|exact Hn].
Qed.
