(* ===== verification/VfsHandlers.v ===== *)
(** * VFS service: request and result handlers

    handlers/write.rs, handlers/read.rs, handlers/delete.rs and the dispatch of
    mod.rs, one definition per function. *)
From S2P Require Import Prelude StrLib VfsPath VfsService.

Local Open Scope string_scope.
Local Open Scope Z_scope.

Notation "'let!' x := c 'in' k" := (m_bind c (fun x => k))
  (at level 10, x binder, c at level 99, k at level 200).

(** ["{} ({})"] of a result type and its name. *)
Definition rt_text (result_type : Z) : string :=
  pretty result_type +:+ " (" +:+ result_type_name result_type +:+ ")".

Definition storage_error {T} (what : string) (result_type : Z) : result T VfsError :=
  Err (VfsStorageError (what +:+ rt_text result_type)).

(** [!data.is_empty() && data[0] == 1]. *)
Definition exists_flag (data : list byte) : bool :=
  match data with b :: _ => Z_of_byte b =? 1 | [] => false end.

Section handlers.
Context `{Target} {J : VfsJson} (env : Env).

Abbreviation R := (M (result unit AppError)).

(** ** handlers/write.rs *)
Definition send_write_error (ctx : ClientContext) (e : VfsError) : R :=
  send_response env ctx MSG_VFS_WRITE_RESPONSE (WriteFileResponse (Err e)).

Definition send_write_error_via_debug (to_pid : Z) (e : VfsError) : R :=
  send_response_via_debug to_pid MSG_VFS_WRITE_RESPONSE (WriteFileResponse (Err e)).

Definition send_mkdir_error (ctx : ClientContext) (e : VfsError) : R :=
  send_response env ctx MSG_VFS_MKDIR_RESPONSE (MkdirResponse (Err e)).

Definition send_mkdir_error_via_debug (to_pid : Z) (e : VfsError) : R :=
  send_response_via_debug to_pid MSG_VFS_MKDIR_RESPONSE (MkdirResponse (Err e)).

Definition handle_write (msg : Message) : R :=
  match write_request_from_slice (msg_data msg) with
  | Err e => send_write_error_via_debug (msg_from_pid msg)
               (VfsInvalidRequest ("Failed to parse request: " +:+ e))
  | Ok request =>
      match validate_path (write_path request) with
      | Err reason => send_write_error_via_debug (msg_from_pid msg) (VfsInvalidPath reason)
      | Ok _ =>
          if MAX_CONTENT_SIZE <? len (write_content request) then
            send_write_error_via_debug (msg_from_pid msg)
              (VfsInvalidRequest ("Content too large: " +:+ pretty (len (write_content request))
                +:+ " bytes exceeds limit of " +:+ pretty MAX_CONTENT_SIZE +:+ " bytes"))
          else if String.eqb (write_path request) "/" then
            send_write_error_via_debug (msg_from_pid msg) (VfsInvalidPath "Cannot write to root directory")
          else
            start_storage_read env (inode_key (parent_path (write_path request)))
              (WriteFileOp (ClientContext_from_message msg) (write_path request)
                 (derive_permission_context (msg_from_pid msg) (write_path request))
                 (WF_CheckingParent (write_content request)))
      end
  end.

Definition handle_mkdir (msg : Message) : R :=
  match mkdir_request_from_slice (msg_data msg) with
  | Err e => send_mkdir_error_via_debug (msg_from_pid msg)
               (VfsInvalidRequest ("Failed to parse request: " +:+ e))
  | Ok request =>
      match validate_path (mkdir_path request) with
      | Err reason => send_mkdir_error_via_debug (msg_from_pid msg) (VfsInvalidPath reason)
      | Ok _ =>
          start_storage_exists env (inode_key (mkdir_path request))
            (MkdirOp (ClientContext_from_message msg) (mkdir_path request)
               (derive_permission_context (msg_from_pid msg) (mkdir_path request))
               MD_CheckingExists (mkdir_create_parents request))
      end
  end.

(** Creating a directory inode without owner, as the two older mkdir handlers do. *)
Definition put_unowned_directory (ctx : ClientContext) (path : string) : R :=
  let! now := get_wallclock env in
  let inode := Inode_new_directory path (parent_path path) (rsplit_next "/" path) None now in
  match inode_to_vec inode with
  | Err e => send_mkdir_error ctx (VfsStorageError ("Failed to serialize inode: " +:+ e))
  | Ok inode_json =>
      start_storage_write env (inode_key path) inode_json (PutInode (Some ctx) MSG_VFS_MKDIR_RESPONSE)
  end.

Definition handle_check_exists_for_mkdir_result (ctx : ClientContext) (path : string)
    (result_type : Z) (data : list byte) : R :=
  if result_type =? EXISTS_OK then
    if exists_flag data then send_mkdir_error ctx VfsAlreadyExists else put_unowned_directory ctx path
  else if result_type =? ST_NOT_FOUND then put_unowned_directory ctx path
  else send_mkdir_error ctx
    (VfsStorageError ("Exists check failed: unexpected result type " +:+ rt_text result_type)).

Definition handle_mkdir_inode_result (ctx : ClientContext) (path : string)
    (result_type : Z) (data : list byte) : R :=
  if result_type =? EXISTS_OK then
    if exists_flag data then send_mkdir_error ctx VfsAlreadyExists else put_unowned_directory ctx path
  else if result_type =? ST_NOT_FOUND then put_unowned_directory ctx path
  else if result_type =? READ_OK then send_mkdir_error ctx VfsAlreadyExists
  else send_mkdir_error ctx
    (VfsStorageError ("Check exists failed: unexpected result type " +:+ rt_text result_type)).

Definition handle_write_checking_parent (ctx : ClientContext) (path : string)
    (perm_ctx : PermissionContext) (result_type : Z) (data content : list byte) : R :=
  if result_type =? READ_OK then
    match inode_from_slice data with
    | Err e => send_write_error ctx (VfsStorageError ("Parent inode corrupt or invalid: " +:+ e))
    | Ok parent_inode =>
        if negb (is_directory parent_inode) then send_write_error ctx VfsNotADirectory
        else if negb (check_write parent_inode perm_ctx) then send_write_error ctx VfsPermissionDenied
        else
          start_storage_write env (content_key path) content
            (WriteFileOp ctx path perm_ctx (WF_WritingContent (len content)))
    end
  else if result_type =? ST_NOT_FOUND then send_write_error ctx VfsNotFound
  else send_write_error ctx
    (VfsStorageError ("Parent read failed: unexpected result type " +:+ rt_text result_type)).

Definition handle_write_content_done (ctx : ClientContext) (path : string)
    (perm_ctx : PermissionContext) (content_len result_type : Z) : R :=
  if negb (result_type =? WRITE_OK) then
    send_write_error ctx (VfsStorageError ("Content write failed: " +:+ rt_text result_type))
  else
    let! now := get_wallclock env in
    let inode := Inode_new_file path (parent_path path) (rsplit_next "/" path) (pc_user_id perm_ctx)
                   content_len None now in
    match inode_to_vec inode with
    | Err e => send_write_error ctx (VfsStorageError ("Failed to serialize inode: " +:+ e))
    | Ok inode_json =>
        start_storage_write env (inode_key path) inode_json (WriteFileOp ctx path perm_ctx WF_WritingInode)
    end.

Definition handle_write_inode_done (ctx : ClientContext) (path : string) (result_type : Z) : R :=
  if negb (result_type =? WRITE_OK) then
    send_write_error ctx (VfsStorageError ("Inode write failed: " +:+ rt_text result_type))
  else send_response env ctx MSG_VFS_WRITE_RESPONSE (WriteFileResponse (Ok tt)).

Definition handle_write_file_op_result (ctx : ClientContext) (path : string)
    (perm_ctx : PermissionContext) (stage : WriteFileStage) (result_type : Z) (data : list byte) : R :=
  match stage with
  | WF_CheckingParent content => handle_write_checking_parent ctx path perm_ctx result_type data content
  | WF_WritingContent content_len => handle_write_content_done ctx path perm_ctx content_len result_type
  | WF_WritingInode => handle_write_inode_done ctx path result_type
  end.

Definition handle_write_file_inode_result (ctx : ClientContext) (path : string)
    (perm_ctx : PermissionContext) (result_type : Z) (data content : list byte) : R :=
  handle_write_checking_parent ctx path perm_ctx result_type data content.

Definition handle_put_inode_result (ctx : option ClientContext) (response_tag result_type : Z) : R :=
  match ctx with
  | None => m_ret (Ok tt)
  | Some ctx =>
      if response_tag =? MSG_VFS_MKDIR_RESPONSE then
        send_response env ctx response_tag
          (MkdirResponse (if result_type =? WRITE_OK then Ok tt
                          else storage_error "Mkdir inode write failed: " result_type))
      else m_ret (Ok tt)
  end.

Definition handle_put_content_result (ctx : ClientContext) (path : string) (result_type : Z) : R :=
  if negb (result_type =? WRITE_OK) then
    send_write_error ctx (VfsStorageError ("Content write failed: " +:+ rt_text result_type))
  else send_response env ctx MSG_VFS_WRITE_RESPONSE (WriteFileResponse (Ok tt)).

Definition create_directory_inode (ctx : ClientContext) (path : string)
    (perm_ctx : PermissionContext) (create_parents : bool) : R :=
  let! now := get_wallclock env in
  let inode := Inode_new_directory path (parent_path path) (rsplit_next "/" path) (pc_user_id perm_ctx) now in
  match inode_to_vec inode with
  | Err e => send_mkdir_error ctx (VfsStorageError ("Failed to serialize inode: " +:+ e))
  | Ok inode_json =>
      start_storage_write env (inode_key path) inode_json
        (MkdirOp ctx path perm_ctx MD_WritingInode create_parents)
  end.

(** What the exists check of mkdir continues with. *)
Definition mkdir_proceed (ctx : ClientContext) (path : string) (perm_ctx : PermissionContext)
    (create_parents : bool) : R :=
  if create_parents then
    match build_parent_paths path with
    | [] => create_directory_inode ctx path perm_ctx false
    | (first_path :: _) as paths =>
        start_storage_exists env (inode_key first_path)
          (MkdirOp ctx path perm_ctx (MD_CreatingParents paths 0 false) true)
    end
  else
    start_storage_read env (inode_key (parent_path path))
      (MkdirOp ctx path perm_ctx MD_CheckingParent false).

Definition handle_mkdir_checking_exists (ctx : ClientContext) (path : string)
    (perm_ctx : PermissionContext) (create_parents : bool) (result_type : Z) (data : list byte) : R :=
  if result_type =? EXISTS_OK then
    if exists_flag data then
      if create_parents then send_response env ctx MSG_VFS_MKDIR_RESPONSE (MkdirResponse (Ok tt))
      else send_mkdir_error ctx VfsAlreadyExists
    else mkdir_proceed ctx path perm_ctx create_parents
  else if result_type =? ST_NOT_FOUND then mkdir_proceed ctx path perm_ctx create_parents
  else send_mkdir_error ctx
    (VfsStorageError ("Exists check failed: unexpected result type " +:+ rt_text result_type)).

Definition handle_mkdir_checking_parent (ctx : ClientContext) (path : string)
    (perm_ctx : PermissionContext) (create_parents : bool) (result_type : Z) (data : list byte) : R :=
  if result_type =? READ_OK then
    match inode_from_slice data with
    | Err e => send_mkdir_error ctx (VfsStorageError ("Parent inode corrupt or invalid: " +:+ e))
    | Ok parent_inode =>
        if negb (is_directory parent_inode) then send_mkdir_error ctx VfsNotADirectory
        else if negb (check_write parent_inode perm_ctx) then send_mkdir_error ctx VfsPermissionDenied
        else create_directory_inode ctx path perm_ctx create_parents
    end
  else if result_type =? ST_NOT_FOUND then send_mkdir_error ctx VfsNotFound
  else send_mkdir_error ctx
    (VfsStorageError ("Parent read failed: unexpected result type " +:+ rt_text result_type)).

Definition mkdir_creating_parents_next (ctx : ClientContext) (target_path : string)
    (perm_ctx : PermissionContext) (paths : list string) (current_index : nat) : R :=
  match paths !! (current_index + 1)%nat with
  | None => create_directory_inode ctx target_path perm_ctx true
  | Some next_path =>
      start_storage_exists env (inode_key next_path)
        (MkdirOp ctx target_path perm_ctx (MD_CreatingParents paths (current_index + 1) false) true)
  end.

Definition handle_mkdir_creating_parents (ctx : ClientContext) (target_path : string)
    (perm_ctx : PermissionContext) (paths : list string) (index : nat) (result_type : Z) : R :=
  match paths !! index with
  | None => m_panic
  | Some current_path =>
      if result_type =? EXISTS_OK then mkdir_creating_parents_next ctx target_path perm_ctx paths index
      else if result_type =? ST_NOT_FOUND then
        let! now := get_wallclock env in
        let inode := Inode_new_directory current_path (parent_path current_path)
                       (rsplit_next "/" current_path) (pc_user_id perm_ctx) now in
        match inode_to_vec inode with
        | Err e => send_mkdir_error ctx (VfsStorageError ("Failed to serialize inode: " +:+ e))
        | Ok inode_json =>
            start_storage_write env (inode_key current_path) inode_json
              (MkdirOp ctx target_path perm_ctx (MD_CreatingParents paths index true) true)
        end
      else send_mkdir_error ctx
        (VfsStorageError ("Parent check failed: unexpected result type " +:+ rt_text result_type))
  end.

Definition handle_mkdir_creating_parents_write_done (ctx : ClientContext) (target_path : string)
    (perm_ctx : PermissionContext) (paths : list string) (index : nat) (result_type : Z) : R :=
  if negb (result_type =? WRITE_OK) then
    send_mkdir_error ctx (VfsStorageError ("Parent directory write failed: " +:+ rt_text result_type))
  else mkdir_creating_parents_next ctx target_path perm_ctx paths index.

Definition handle_mkdir_writing_inode (ctx : ClientContext) (path : string) (result_type : Z) : R :=
  if negb (result_type =? WRITE_OK) then
    send_mkdir_error ctx (VfsStorageError ("Inode write failed: " +:+ rt_text result_type))
  else send_response env ctx MSG_VFS_MKDIR_RESPONSE (MkdirResponse (Ok tt)).

Definition handle_mkdir_op_result (ctx : ClientContext) (path : string) (perm_ctx : PermissionContext)
    (stage : MkdirStage) (create_parents : bool) (result_type : Z) (data : list byte) : R :=
  match stage with
  | MD_CheckingExists => handle_mkdir_checking_exists ctx path perm_ctx create_parents result_type data
  | MD_CheckingParent => handle_mkdir_checking_parent ctx path perm_ctx create_parents result_type data
  | MD_WritingInode => handle_mkdir_writing_inode ctx path result_type
  | MD_CreatingParents paths index writing =>
      if writing then handle_mkdir_creating_parents_write_done ctx path perm_ctx paths index result_type
      else handle_mkdir_creating_parents ctx path perm_ctx paths index result_type
  end.

(** ** handlers/read.rs *)
Definition handle_stat (msg : Message) : R :=
  match stat_request_from_slice (msg_data msg) with
  | Err e => send_response_via_debug (msg_from_pid msg) MSG_VFS_STAT_RESPONSE
               (StatResponse (Err (VfsInvalidRequest ("Failed to parse request: " +:+ e))))
  | Ok request =>
      match validate_path (stat_path request) with
      | Err reason => send_response_via_debug (msg_from_pid msg) MSG_VFS_STAT_RESPONSE
                        (StatResponse (Err (VfsInvalidPath reason)))
      | Ok _ =>
          start_storage_read env (inode_key (stat_path request))
            (GetInode (ClientContext_from_message msg) (stat_path request) IO_Stat
               (derive_permission_context (msg_from_pid msg) (stat_path request)))
      end
  end.

Definition handle_exists (msg : Message) : R :=
  match exists_request_from_slice (msg_data msg) with
  | Err e => send_response_via_debug (msg_from_pid msg) MSG_VFS_EXISTS_RESPONSE
               (ExistsResponse (Err (VfsInvalidRequest ("Failed to parse request: " +:+ e))))
  | Ok request =>
      match validate_path (exists_path request) with
      | Err reason => send_response_via_debug (msg_from_pid msg) MSG_VFS_EXISTS_RESPONSE
                        (ExistsResponse (Err (VfsInvalidPath reason)))
      | Ok _ =>
          start_storage_exists env (inode_key (exists_path request))
            (ExistsCheck (ClientContext_from_message msg) (exists_path request))
      end
  end.

Definition handle_read (msg : Message) : R :=
  match read_request_from_slice (msg_data msg) with
  | Err e => send_response_via_debug (msg_from_pid msg) MSG_VFS_READ_RESPONSE
               (ReadFileResponse (Err (VfsInvalidRequest ("Failed to parse request: " +:+ e))))
  | Ok request =>
      match validate_path (read_path request) with
      | Err reason => send_response_via_debug (msg_from_pid msg) MSG_VFS_READ_RESPONSE
                        (ReadFileResponse (Err (VfsInvalidPath reason)))
      | Ok _ =>
          start_storage_read env (inode_key (read_path request))
            (GetInode (ClientContext_from_message msg) (read_path request) IO_ReadFile
               (derive_permission_context (msg_from_pid msg) (read_path request)))
      end
  end.

Definition handle_readdir (msg : Message) : R :=
  match readdir_request_from_slice (msg_data msg) with
  | Err e => send_response_via_debug (msg_from_pid msg) MSG_VFS_READDIR_RESPONSE
               (ReaddirResponse (Err (VfsInvalidRequest ("Failed to parse request: " +:+ e))))
  | Ok request =>
      match validate_path (readdir_path request) with
      | Err reason => send_response_via_debug (msg_from_pid msg) MSG_VFS_READDIR_RESPONSE
                        (ReaddirResponse (Err (VfsInvalidPath reason)))
      | Ok _ =>
          start_storage_read env (inode_key (readdir_path request))
            (ReaddirOp (ClientContext_from_message msg) (readdir_path request)
               (derive_permission_context (msg_from_pid msg) (readdir_path request)) RD_ReadingInode)
      end
  end.

Definition handle_stat_inode_result (ctx : ClientContext) (perm_ctx : PermissionContext)
    (result_type : Z) (data : list byte) : R :=
  send_response env ctx MSG_VFS_STAT_RESPONSE (StatResponse (
    if result_type =? READ_OK then
      match inode_from_slice data with
      | Ok inode => if negb (check_read inode perm_ctx) then Err VfsPermissionDenied else Ok inode
      | Err e => Err (VfsStorageError ("Failed to parse inode: " +:+ e))
      end
    else if result_type =? ST_NOT_FOUND then Err VfsNotFound
    else storage_error "Inode read failed: " result_type)).

Definition handle_exists_inode_result (ctx : ClientContext) (result_type : Z) : R :=
  send_response env ctx MSG_VFS_EXISTS_RESPONSE (ExistsResponse (Ok (result_type =? READ_OK))).

Definition handle_read_file_inode_result (ctx : ClientContext) (path : string)
    (perm_ctx : PermissionContext) (result_type : Z) (data : list byte) : R :=
  let reply r := send_response env ctx MSG_VFS_READ_RESPONSE (ReadFileResponse r) in
  if result_type =? READ_OK then
    match inode_from_slice data with
    | Ok inode =>
        if is_file inode then
          if negb (check_read inode perm_ctx) then reply (Err VfsPermissionDenied)
          else start_storage_read env (content_key path) (GetContent ctx path perm_ctx)
        else reply (Err VfsNotAFile)
    | Err e => reply (Err (VfsStorageError e))
    end
  else if result_type =? ST_NOT_FOUND then reply (Err VfsNotFound)
  else reply (Err (VfsStorageError (from_utf8_lossy data))).

Definition handle_content_result (ctx : ClientContext) (path : string)
    (result_type : Z) (data : list byte) : R :=
  send_response env ctx MSG_VFS_READ_RESPONSE (ReadFileResponse (
    if result_type =? READ_OK then Ok data
    else if result_type =? ST_NOT_FOUND then
      Err (VfsStorageError "Content missing for existing inode")
    else storage_error "Content read failed: " result_type)).

(** Keys become entries without looking at the inodes. *)
Definition entry_of_key (path : string) : DirEntry :=
  mk_DirEntry (rsplit_next "/" path) path false false 0 0.

Definition list_response (data : list byte) (not_found other : result (list DirEntry) VfsError)
    (result_type : Z) : result (list DirEntry) VfsError :=
  if result_type =? LIST_OK then
    match keys_from_slice data with
    | Ok keys => Ok (map entry_of_key keys)
    | Err e => Err (VfsStorageError e)
    end
  else if result_type =? ST_NOT_FOUND then not_found
  else other.

Definition handle_list_children_result (ctx : ClientContext) (result_type : Z) (data : list byte) : R :=
  send_response env ctx MSG_VFS_READDIR_RESPONSE (ReaddirResponse
    (list_response data (Err VfsNotFound) (storage_error "List failed: " result_type) result_type)).

Definition handle_exists_result (ctx : ClientContext) (result_type : Z) (data : list byte) : R :=
  send_response env ctx MSG_VFS_EXISTS_RESPONSE (ExistsResponse (
    if result_type =? EXISTS_OK then Ok (exists_flag data)
    else if result_type =? ST_NOT_FOUND then Ok false
    else Err (VfsStorageError ("Exists check failed: unexpected result type " +:+ pretty result_type)))).

Definition handle_readdir_reading_inode (ctx : ClientContext) (path : string)
    (perm_ctx : PermissionContext) (result_type : Z) (data : list byte) : R :=
  let reply e := send_response env ctx MSG_VFS_READDIR_RESPONSE (ReaddirResponse (Err e)) in
  if result_type =? READ_OK then
    match inode_from_slice data with
    | Err e => reply (VfsStorageError ("Inode corrupt or invalid: " +:+ e))
    | Ok inode =>
        if negb (is_directory inode) then reply VfsNotADirectory
        else if negb (check_read inode perm_ctx) then reply VfsPermissionDenied
        else start_storage_list env (inode_key path) (ReaddirOp ctx path perm_ctx RD_ListingChildren)
    end
  else if result_type =? ST_NOT_FOUND then reply VfsNotFound
  else reply (VfsStorageError ("Inode read failed: " +:+ rt_text result_type)).

Definition handle_readdir_listing_children (ctx : ClientContext) (result_type : Z) (data : list byte) : R :=
  send_response env ctx MSG_VFS_READDIR_RESPONSE (ReaddirResponse
    (list_response data (Ok []) (storage_error "List failed: " result_type) result_type)).

Definition handle_readdir_op_result (ctx : ClientContext) (path : string) (perm_ctx : PermissionContext)
    (stage : ReaddirStage) (result_type : Z) (data : list byte) : R :=
  match stage with
  | RD_ReadingInode => handle_readdir_reading_inode ctx path perm_ctx result_type data
  | RD_ListingChildren => handle_readdir_listing_children ctx result_type data
  end.

(** ** handlers/delete.rs *)
Definition send_rmdir_error (ctx : ClientContext) (e : VfsError) : R :=
  send_response env ctx MSG_VFS_RMDIR_RESPONSE (RmdirResponse (Err e)).

Definition send_rmdir_error_via_debug (to_pid : Z) (e : VfsError) : R :=
  send_response_via_debug to_pid MSG_VFS_RMDIR_RESPONSE (RmdirResponse (Err e)).

Definition send_unlink_error (ctx : ClientContext) (e : VfsError) : R :=
  send_response env ctx MSG_VFS_UNLINK_RESPONSE (UnlinkResponse (Err e)).

Definition send_unlink_error_via_debug (to_pid : Z) (e : VfsError) : R :=
  send_response_via_debug to_pid MSG_VFS_UNLINK_RESPONSE (UnlinkResponse (Err e)).

Definition handle_rmdir (msg : Message) : R :=
  match rmdir_request_from_slice (msg_data msg) with
  | Err e => send_rmdir_error_via_debug (msg_from_pid msg)
               (VfsInvalidRequest ("Failed to parse request: " +:+ e))
  | Ok request =>
      match validate_path (rmdir_path request) with
      | Err reason => send_rmdir_error_via_debug (msg_from_pid msg) (VfsInvalidPath reason)
      | Ok _ =>
          start_storage_read env (inode_key (rmdir_path request))
            (GetInode (ClientContext_from_message msg) (rmdir_path request)
               (IO_Rmdir (rmdir_recursive request))
               (derive_permission_context (msg_from_pid msg) (rmdir_path request)))
      end
  end.

Definition handle_unlink (msg : Message) : R :=
  match unlink_request_from_slice (msg_data msg) with
  | Err e => send_unlink_error_via_debug (msg_from_pid msg)
               (VfsInvalidRequest ("Failed to parse request: " +:+ e))
  | Ok request =>
      match validate_path (unlink_path request) with
      | Err reason => send_unlink_error_via_debug (msg_from_pid msg) (VfsInvalidPath reason)
      | Ok _ =>
          start_storage_read env (inode_key (unlink_path request))
            (UnlinkOp (ClientContext_from_message msg) (unlink_path request)
               (derive_permission_context (msg_from_pid msg) (unlink_path request)) UL_ReadingInode)
      end
  end.

Definition handle_rmdir_inode_result (ctx : ClientContext) (path : string)
    (perm_ctx : PermissionContext) (result_type : Z) (data : list byte) : R :=
  if result_type =? READ_OK then
    match inode_from_slice data with
    | Ok inode =>
        if is_directory inode then
          if negb (check_write inode perm_ctx) then send_rmdir_error ctx VfsPermissionDenied
          else start_storage_delete env (inode_key path) (DeleteInode (Some ctx) MSG_VFS_RMDIR_RESPONSE)
        else send_rmdir_error ctx VfsNotADirectory
    | Err e => send_rmdir_error ctx (VfsStorageError ("Failed to parse inode: " +:+ e))
    end
  else if result_type =? ST_NOT_FOUND then send_rmdir_error ctx VfsNotFound
  else send_rmdir_error ctx (VfsStorageError ("Inode read failed: " +:+ rt_text result_type)).

(** The older unlink: both deletions are started at once, and a failure to start
    the first is ignored. *)
Definition handle_unlink_inode_result (ctx : ClientContext) (path : string)
    (perm_ctx : PermissionContext) (result_type : Z) (data : list byte) : R :=
  if result_type =? READ_OK then
    match inode_from_slice data with
    | Ok inode =>
        if is_file inode then
          if negb (check_write inode perm_ctx) then send_unlink_error ctx VfsPermissionDenied
          else
            let! _ := start_storage_delete env (content_key path) (DeleteContent path) in
            start_storage_delete env (inode_key path) (DeleteInode (Some ctx) MSG_VFS_UNLINK_RESPONSE)
        else send_unlink_error ctx VfsNotAFile
    | Err e => send_unlink_error ctx (VfsStorageError ("Failed to parse inode: " +:+ e))
    end
  else if result_type =? ST_NOT_FOUND then send_unlink_error ctx VfsNotFound
  else send_unlink_error ctx (VfsStorageError ("Inode read failed: " +:+ rt_text result_type)).

Definition handle_delete_inode_result (ctx : option ClientContext) (response_tag result_type : Z) : R :=
  match ctx with
  | None => m_ret (Ok tt)
  | Some ctx =>
      if response_tag =? MSG_VFS_RMDIR_RESPONSE then
        send_response env ctx response_tag
          (RmdirResponse (if result_type =? WRITE_OK then Ok tt
                          else storage_error "Rmdir inode delete failed: " result_type))
      else if response_tag =? MSG_VFS_UNLINK_RESPONSE then
        send_response env ctx response_tag
          (UnlinkResponse (if result_type =? WRITE_OK then Ok tt
                           else storage_error "Unlink inode delete failed: " result_type))
      else m_ret (Ok tt)
  end.

Definition handle_delete_content_result (path : string) (result_type : Z) : R := m_ret (Ok tt).

Definition handle_unlink_reading_inode (ctx : ClientContext) (path : string)
    (perm_ctx : PermissionContext) (result_type : Z) (data : list byte) : R :=
  if result_type =? READ_OK then
    match inode_from_slice data with
    | Err e => send_unlink_error ctx (VfsStorageError ("Failed to parse inode: " +:+ e))
    | Ok inode =>
        if negb (is_file inode) then send_unlink_error ctx VfsNotAFile
        else if negb (check_write inode perm_ctx) then send_unlink_error ctx VfsPermissionDenied
        else start_storage_delete env (content_key path) (UnlinkOp ctx path perm_ctx UL_DeletingContent)
    end
  else if result_type =? ST_NOT_FOUND then send_unlink_error ctx VfsNotFound
  else send_unlink_error ctx (VfsStorageError ("Inode read failed: " +:+ rt_text result_type)).

Definition handle_unlink_deleting_content (ctx : ClientContext) (path : string)
    (perm_ctx : PermissionContext) (result_type : Z) : R :=
  if (result_type =? WRITE_OK) || (result_type =? ST_NOT_FOUND) then
    start_storage_delete env (inode_key path) (UnlinkOp ctx path perm_ctx UL_DeletingInode)
  else send_unlink_error ctx (VfsStorageError ("Content delete failed: " +:+ rt_text result_type)).

Definition handle_unlink_deleting_inode (ctx : ClientContext) (path : string) (result_type : Z) : R :=
  if negb (result_type =? WRITE_OK) then
    send_unlink_error ctx (VfsStorageError ("Inode delete failed: " +:+ rt_text result_type))
  else send_response env ctx MSG_VFS_UNLINK_RESPONSE (UnlinkResponse (Ok tt)).

Definition handle_unlink_op_result (ctx : ClientContext) (path : string) (perm_ctx : PermissionContext)
    (stage : UnlinkStage) (result_type : Z) (data : list byte) : R :=
  match stage with
  | UL_ReadingInode => handle_unlink_reading_inode ctx path perm_ctx result_type data
  | UL_DeletingContent => handle_unlink_deleting_content ctx path perm_ctx result_type
  | UL_DeletingInode => handle_unlink_deleting_inode ctx path result_type
  end.

(** ** Dispatch (mod.rs) *)
Definition handle_inode_result (ctx : ClientContext) (path : string) (op_type : InodeOpType)
    (perm_ctx : PermissionContext) (result_type : Z) (data : list byte) : R :=
  match op_type with
  | IO_Stat => handle_stat_inode_result ctx perm_ctx result_type data
  | IO_Exists => handle_exists_inode_result ctx result_type
  | IO_ReadFile => handle_read_file_inode_result ctx path perm_ctx result_type data
  | IO_MkdirCheckParent _ => handle_mkdir_inode_result ctx path result_type data
  | IO_WriteFileCheckParent content =>
      handle_write_file_inode_result ctx path perm_ctx result_type data content
  | IO_Rmdir _ => handle_rmdir_inode_result ctx path perm_ctx result_type data
  | IO_Unlink => handle_unlink_inode_result ctx path perm_ctx result_type data
  | IO_Readdir => m_ret (Ok tt)
  end.

(** The match of [handle_storage_result] on the pending operation. *)
Definition dispatch_op (op : PendingOp) (result_type : Z) (data : list byte) : R :=
  match op with
  | GetInode ctx path op_type perm_ctx => handle_inode_result ctx path op_type perm_ctx result_type data
  | GetContent ctx path _ => handle_content_result ctx path result_type data
  | PutInode ctx response_tag => handle_put_inode_result ctx response_tag result_type
  | PutContent ctx path => handle_put_content_result ctx path result_type
  | DeleteInode ctx response_tag => handle_delete_inode_result ctx response_tag result_type
  | DeleteContent path => handle_delete_content_result path result_type
  | ListChildren ctx _ _ => handle_list_children_result ctx result_type data
  | ExistsCheck ctx _ => handle_exists_result ctx result_type data
  | CheckExistsForMkdir ctx path _ _ => handle_check_exists_for_mkdir_result ctx path result_type data
  | WriteFileOp ctx path perm_ctx stage =>
      handle_write_file_op_result ctx path perm_ctx stage result_type data
  | MkdirOp ctx path perm_ctx stage create_parents =>
      handle_mkdir_op_result ctx path perm_ctx stage create_parents result_type data
  | ReaddirOp ctx path perm_ctx stage => handle_readdir_op_result ctx path perm_ctx stage result_type data
  | UnlinkOp ctx path perm_ctx stage => handle_unlink_op_result ctx path perm_ctx stage result_type data
  end.

(** [[request_id: u32, result_type: u8, data_len: u32, data]]. The sum
    [9 + data_len] is a [usize]; the slice panics where it has wrapped below 9. *)
Inductive parsed_result : Type :=
| PR_Short
| PR_Panic
| PR_Result (request_id result_type : Z) (data : list byte).

Definition parse_storage_result (d : list byte) : parsed_result :=
  if len d <? 9 then PR_Short
  else
    let request_id := from_le_bytes (take 4 d) in
    let result_type := match d !! 4%nat with Some b => Z_of_byte b | None => 0 end in
    let data_len := from_le_bytes (take 4 (drop 5 d)) in
    let hi := usize_add 9 data_len in
    if (0 <? data_len) && (hi <=? len d) then
      if hi <? 9 then PR_Panic
      else PR_Result request_id result_type (take (Z.to_nat (hi - 9)) (drop 9 d))
    else PR_Result request_id result_type [].

Definition handle_storage_result (msg : Message) : R :=
  match parse_storage_result (msg_data msg) with
  | PR_Short => m_ret (Ok tt)
  | PR_Panic => m_panic
  | PR_Result request_id result_type data =>
      let! s := m_get in
      match pending_ops s !! request_id with
      | None => m_ret (Ok tt)
      | Some op =>
          let! _ := m_modify (fun s => set_pending (delete request_id (pending_ops s)) s) in
          dispatch_op op result_type data
      end
  end.

Definition on_message (msg : Message) : R :=
  let tag := msg_tag msg in
  if tag =? MSG_STORAGE_RESULT then handle_storage_result msg
  else if tag =? MSG_VFS_MKDIR then handle_mkdir msg
  else if tag =? MSG_VFS_RMDIR then handle_rmdir msg
  else if tag =? MSG_VFS_READDIR then handle_readdir msg
  else if tag =? MSG_VFS_WRITE then handle_write msg
  else if tag =? MSG_VFS_READ then handle_read msg
  else if tag =? MSG_VFS_UNLINK then handle_unlink msg
  else if tag =? MSG_VFS_STAT then handle_stat msg
  else if tag =? MSG_VFS_EXISTS then handle_exists msg
  else m_ret (Ok tt).

(** [init]: register with the init process under the name "vfs". *)
Definition INIT_ENDPOINT_SLOT : Z := 2.
Definition MSG_REGISTER_SERVICE : Z := 0x1000.

Definition vfs_init : R :=
  let name_bytes := str_bytes "vfs" in
  let data := (byte_of_Z (len name_bytes) :: name_bytes ++ u32_to_le_bytes 0 ++ u32_to_le_bytes 0)%list in
  let! _ := m_call (Sys_Send INIT_ENDPOINT_SLOT MSG_REGISTER_SERVICE data) (env_send env) in
  let! _ := m_modify (fun s => mk_VfsService true (pending_ops s)) in
  m_ret (Ok tt).
End handlers.
