(* ===== verification/VfsOutcome.v ===== *)
(** * Outcomes of the VFS service's handlers

    Every handler ends in one of three ways: it answers the client, it starts
    one storage operation with its continuation, or it fails. The relation
    [outcome] describes the three; [dispatch_outcome] and [request_outcome] show
    that every result and every request has an outcome, and what the
    continuation can be: it serves the same client and path, it is closer to the
    end, and storage is changed only after a passed check. *)
From S2P Require Import Prelude StrLib VfsPath VfsService VfsHandlers.

Local Open Scope string_scope.
Local Open Scope Z_scope.

(** ** Pending operations *)

(** The client and the response it expects. *)
Definition op_kind (op : PendingOp) : option (ClientContext * Z) :=
  match op with
  | GetInode ctx _ IO_Stat _ => Some (ctx, MSG_VFS_STAT_RESPONSE)
  | GetInode ctx _ IO_ReadFile _ => Some (ctx, MSG_VFS_READ_RESPONSE)
  | GetInode ctx _ (IO_Rmdir _) _ => Some (ctx, MSG_VFS_RMDIR_RESPONSE)
  | GetContent ctx _ _ => Some (ctx, MSG_VFS_READ_RESPONSE)
  | DeleteInode (Some ctx) _ => Some (ctx, MSG_VFS_RMDIR_RESPONSE)
  | ExistsCheck ctx _ => Some (ctx, MSG_VFS_EXISTS_RESPONSE)
  | WriteFileOp ctx _ _ _ => Some (ctx, MSG_VFS_WRITE_RESPONSE)
  | MkdirOp ctx _ _ _ _ => Some (ctx, MSG_VFS_MKDIR_RESPONSE)
  | ReaddirOp ctx _ _ _ => Some (ctx, MSG_VFS_READDIR_RESPONSE)
  | UnlinkOp ctx _ _ _ => Some (ctx, MSG_VFS_UNLINK_RESPONSE)
  | _ => None
  end.

(** The operations the request handlers and their continuations create: the
    permission context is the one derived from the client and the path, and the
    list of directories of mkdir is that of its path. *)
Definition op_ok (op : PendingOp) : Prop :=
  match op with
  | GetInode ctx path (IO_Stat | IO_ReadFile | IO_Rmdir _) perm => perm = derive_permission_context (cc_pid ctx) path
  | GetContent _ _ _ | ExistsCheck _ _ => True
  | DeleteInode (Some _) tag => tag = MSG_VFS_RMDIR_RESPONSE
  | WriteFileOp ctx path perm _ | ReaddirOp ctx path perm _ | UnlinkOp ctx path perm _ =>
      perm = derive_permission_context (cc_pid ctx) path
  | MkdirOp ctx path perm (MD_CreatingParents paths index _) cp =>
      perm = derive_permission_context (cc_pid ctx) path /\ cp = true /\
      paths = build_parent_paths path /\ (index < length paths)%nat
  | MkdirOp ctx path perm _ _ => perm = derive_permission_context (cc_pid ctx) path
  | _ => False
  end.

(** The storage call whose result an operation waits for. *)
Definition call_of (op : PendingOp) (call : SysCall) : Prop :=
  match op with
  | GetInode _ path _ _ => call = Sys_StorageRead (inode_key path)
  | GetContent _ path _ => call = Sys_StorageRead (content_key path)
  | DeleteInode _ _ => exists key, call = Sys_StorageDelete key
  | ExistsCheck _ path => call = Sys_StorageExists (inode_key path)
  | WriteFileOp _ path _ (WF_CheckingParent _) => call = Sys_StorageRead (inode_key (parent_path path))
  | WriteFileOp _ path _ (WF_WritingContent n) =>
      exists content, call = Sys_StorageWrite (content_key path) content /\ n = len content
  | WriteFileOp _ path _ WF_WritingInode => exists v, call = Sys_StorageWrite (inode_key path) v
  | MkdirOp _ path _ MD_CheckingExists _ => call = Sys_StorageExists (inode_key path)
  | MkdirOp _ path _ MD_CheckingParent _ => call = Sys_StorageRead (inode_key (parent_path path))
  | MkdirOp _ path _ MD_WritingInode _ => exists v, call = Sys_StorageWrite (inode_key path) v
  | MkdirOp _ _ _ (MD_CreatingParents paths index writing) _ =>
      exists q, paths !! index = Some q /\
        if writing then exists v, call = Sys_StorageWrite (inode_key q) v
        else call = Sys_StorageExists (inode_key q)
  | ReaddirOp _ path _ RD_ReadingInode => call = Sys_StorageRead (inode_key path)
  | ReaddirOp _ path _ RD_ListingChildren => call = Sys_StorageList (inode_key path)
  | UnlinkOp _ path _ UL_ReadingInode => call = Sys_StorageRead (inode_key path)
  | UnlinkOp _ path _ UL_DeletingContent => call = Sys_StorageDelete (content_key path)
  | UnlinkOp _ path _ UL_DeletingInode => call = Sys_StorageDelete (inode_key path)
  | _ => False
  end.

(** The number of storage results an operation can still consume. *)
Definition op_rank (op : PendingOp) : nat :=
  match op with
  | GetInode _ _ (IO_ReadFile) _ => 2
  | GetInode _ _ (IO_Rmdir _) _ => 2
  | WriteFileOp _ _ _ (WF_CheckingParent _) => 3
  | WriteFileOp _ _ _ (WF_WritingContent _) => 2
  | MkdirOp _ path _ MD_CheckingExists _ => 2 * length (build_parent_paths path) + 3
  | MkdirOp _ _ _ MD_CheckingParent _ => 2
  | MkdirOp _ _ _ (MD_CreatingParents paths index writing) _ =>
      2 * (length paths - index) + (if writing then 0 else 1)
  | ReaddirOp _ _ _ RD_ReadingInode => 2
  | UnlinkOp _ _ _ UL_ReadingInode => 3
  | UnlinkOp _ _ _ UL_DeletingContent => 2
  | _ => 1
  end%nat.

(** The inode whose permissions decide an operation, and the type it must have. *)
Record guard : Type := mk_guard { g_path : string; g_accepts : Inode -> bool; g_perm : PermissionContext }.

(** A change a client asks for: writing a file ([None] once the content is
    written), making or removing a directory, removing a file. *)
Inductive change : Type :=
| Ch_write (path : string) (content : option (list byte))
| Ch_mkdir (path : string)
| Ch_unlink (path : string)
| Ch_rmdir (path : string).

Definition change_path (ch : change) : string :=
  match ch with Ch_write path _ | Ch_mkdir path | Ch_unlink path | Ch_rmdir path => path end.

(** The directory decides about what is created in it; a file and a directory
    decide about their removal. *)
Definition guard_of (perm : PermissionContext) (ch : change) : guard :=
  match ch with
  | Ch_write path _ | Ch_mkdir path => mk_guard (parent_path path) is_directory perm
  | Ch_unlink path => mk_guard path is_file perm
  | Ch_rmdir path => mk_guard path is_directory perm
  end.

(** The calls of storage that carry out a change. *)
Definition carries_out (ch : change) (c : SysCall) : Prop :=
  match ch with
  | Ch_write path content =>
      (exists data, content = Some data /\ c = Sys_StorageWrite (content_key path) data) \/
      (exists v, c = Sys_StorageWrite (inode_key path) v)
  | Ch_mkdir path => exists v, c = Sys_StorageWrite (inode_key path) v
  | Ch_unlink path => c = Sys_StorageDelete (content_key path) \/ c = Sys_StorageDelete (inode_key path)
  | Ch_rmdir path => c = Sys_StorageDelete (inode_key path)
  end.

(** The request that asks for a change: its tag, its path and its content. *)
Definition requests `{J : VfsJson} (m : Message) (ch : change) : Prop :=
  match ch with
  | Ch_write path content =>
      msg_tag m = MSG_VFS_WRITE /\ exists r, write_request_from_slice (msg_data m) = Ok r /\ write_path r = path /\
        (content = None \/ content = Some (write_content r))
  | Ch_mkdir path =>
      msg_tag m = MSG_VFS_MKDIR /\ exists r, mkdir_request_from_slice (msg_data m) = Ok r /\ mkdir_path r = path /\
        mkdir_create_parents r = false
  | Ch_unlink path =>
      msg_tag m = MSG_VFS_UNLINK /\ exists r, unlink_request_from_slice (msg_data m) = Ok r /\ unlink_path r = path
  | Ch_rmdir path =>
      msg_tag m = MSG_VFS_RMDIR /\ exists r, rmdir_request_from_slice (msg_data m) = Ok r /\ rmdir_path r = path
  end.

(** The change an operation is about. *)
Definition op_change (op : PendingOp) : option change :=
  match op with
  | GetInode _ path (IO_Rmdir _) _ => Some (Ch_rmdir path)
  | WriteFileOp _ path _ (WF_CheckingParent content) => Some (Ch_write path (Some content))
  | WriteFileOp _ path _ _ => Some (Ch_write path None)
  | MkdirOp _ path _ MD_CheckingExists false => Some (Ch_mkdir path)
  | MkdirOp _ path _ MD_CheckingParent _ => Some (Ch_mkdir path)
  | UnlinkOp _ path _ _ => Some (Ch_unlink path)
  | _ => None
  end.

Definition serves `{J : VfsJson} (m : Message) (op : PendingOp) : Prop :=
  match op_change op with Some ch => requests m ch | None => True end.

(** What an operation may still change: nothing, what it is about once the guard
    accepts the result, what it is about, or the directories on the way to a path. *)
Inductive phase : Type :=
| Ph_read
| Ph_check (perm : PermissionContext) (ch : change)
| Ph_granted (perm : PermissionContext) (ch : change)
| Ph_mkdir_p (path : string).

Definition op_phase (op : PendingOp) : phase :=
  match op with
  | GetInode _ path (IO_Rmdir _) perm => Ph_check perm (Ch_rmdir path)
  | WriteFileOp _ path perm (WF_CheckingParent content) => Ph_check perm (Ch_write path (Some content))
  | WriteFileOp _ path perm _ => Ph_granted perm (Ch_write path None)
  | MkdirOp _ path perm MD_CheckingParent _ => Ph_check perm (Ch_mkdir path)
  | MkdirOp _ path _ MD_CheckingExists true => Ph_mkdir_p path
  | MkdirOp _ path _ (MD_CreatingParents _ _ _) _ => Ph_mkdir_p path
  | UnlinkOp _ path perm UL_ReadingInode => Ph_check perm (Ch_unlink path)
  | UnlinkOp _ path perm _ => Ph_granted perm (Ch_unlink path)
  | _ => Ph_read
  end.

(** Storage calls that change the store. *)
Definition mutation_key (c : SysCall) : option string :=
  match c with
  | Sys_StorageWrite key _ => Some key
  | Sys_StorageDelete key => Some key
  | _ => None
  end.

Definition passes `{J : VfsJson} (g : guard) (result_type : Z) (data : list byte) : Prop :=
  result_type = READ_OK /\
  exists inode, inode_from_slice data = Ok inode /\
    g_accepts g inode = true /\ check_write inode (g_perm g) = true.

(** Making a directory on the way to [path]. *)
Definition on_way (path : string) (c : SysCall) : Prop :=
  exists q v, (q = path \/ q ∈ build_parent_paths path) /\ c = Sys_StorageWrite (inode_key q) v.

(** The calls a phase permits when a result arrives. *)
Definition permits `{J : VfsJson} (ph : phase) (result_type : Z) (data : list byte) (c : SysCall) : Prop :=
  match ph with
  | Ph_read => False
  | Ph_check perm ch => passes (guard_of perm ch) result_type data /\ carries_out ch c
  | Ph_granted _ ch => carries_out ch c
  | Ph_mkdir_p path => on_way path c
  end.

(** The continuation of an operation after a result. *)
Record follows `{J : VfsJson} (op : PendingOp) (result_type : Z) (data : list byte)
    (call : SysCall) (op' : PendingOp) : Prop := mk_follows {
  fo_ok : op_ok op';
  fo_kind : op_kind op' = op_kind op;
  fo_rank : (op_rank op' < op_rank op)%nat;
  fo_call : call_of op' call;
  fo_mutation : forall key, mutation_key call = Some key -> permits (op_phase op) result_type data call;
  fo_granted : forall perm ch', op_phase op' = Ph_granted perm ch' -> exists ch, guard_of perm ch = guard_of perm ch' /\
    (op_phase op = Ph_granted perm ch \/ (op_phase op = Ph_check perm ch /\ passes (guard_of perm ch) result_type data));
  fo_serves : forall m, serves m op -> serves m op';
  fo_mkdir_p : forall path, op_phase op' = Ph_mkdir_p path -> op_phase op = Ph_mkdir_p path }.

Section outcomes.
Context `{Target} {J : VfsJson} (env : Env).

(** How a response reaches the client: through its reply capability, or as a
    line for the supervisor. *)
Inductive delivered (ctx : ClientContext) (tag : Z) (data : list byte) : list SysCall -> list SysCall -> Prop :=
| del_send slot rest h :
    cc_reply_caps ctx = slot :: rest -> env_send env (Sys_Send slot tag data :: h) = Ok tt ->
    delivered ctx tag data h (Sys_Send slot tag data :: h)
| del_fallback slot rest h e :
    cc_reply_caps ctx = slot :: rest -> env_send env (Sys_Send slot tag data :: h) = Err e ->
    delivered ctx tag data h
      (Sys_Debug (response_line (cc_pid ctx) tag data) :: Sys_Send slot tag data :: h)
| del_debug h :
    delivered ctx tag data h (Sys_Debug (response_line (cc_pid ctx) tag data) :: h).

(** Readings of the clock before a storage call. *)
Definition clocked (h h' : list SysCall) : Prop := h' = h \/ h' = Sys_Wallclock :: h.

Inductive outcome (ctx : ClientContext) (tag : Z) (P : SysCall -> PendingOp -> Prop)
  : World -> result unit AppError -> World -> Prop :=
| out_answer s h h1 h' response data :
    clocked h h1 -> response_to_vec response = Ok data -> delivered ctx tag data h1 h' ->
    outcome ctx tag P (mk_World s h) (Ok tt) (mk_World s h')
| out_start s h h1 call op id :
    clocked h h1 -> P call op -> env_storage env (call :: h1) = Ok id ->
    outcome ctx tag P (mk_World s h) (Ok tt)
      (mk_World (set_pending (<[wrap_u32 id := op]> (pending_ops s)) s) (call :: h1))
| out_fail_full s h h1 e :
    clocked h h1 -> outcome ctx tag P (mk_World s h) (Err e) (mk_World s h1)
| out_fail_start s h h1 call op e err :
    clocked h h1 -> P call op -> env_storage env (call :: h1) = Err e ->
    outcome ctx tag P (mk_World s h) (Err err) (mk_World s (call :: h1)).

(** A computation always has an outcome, also after a reading of the clock. *)
Definition yields (c : M (result unit AppError)) ctx tag P : Prop :=
  forall s h, exists r w', c (mk_World s h) = Some (r, w') /\
    forall h0, clocked h0 h -> outcome ctx tag P (mk_World s h0) r w'.

Definition yields_first (c : M (result unit AppError)) ctx tag P : Prop :=
  forall w, exists r w', c w = Some (r, w') /\ outcome ctx tag P w r w'.

Lemma yields_response ctx tag P response : yields (send_response env ctx tag response) ctx tag P.
Proof.
  intros s h. unfold send_response.
  destruct (response_to_vec response) as [data|e] eqn:Ev.
  2: { eexists _, _. split; [done|]. intros h0 Hc. by apply out_fail_full. }
  destruct (cc_reply_caps ctx) as [|slot rest] eqn:Ec.
  { eexists _, _. split; [done|]. intros h0 Hc. eapply out_answer; [done..|apply del_debug]. }
  destruct (env_send env (Sys_Send slot tag data :: h)) as [[]|e] eqn:Es.
  - eexists _, _. split; [unfold m_bind, m_call; simpl; rewrite Es; reflexivity|].
    intros h0 Hc. eapply out_answer; [done..|by eapply del_send].
  - eexists _, _. split; [unfold m_bind, m_call; simpl; rewrite Es; reflexivity|].
    intros h0 Hc. eapply out_answer; [done..|by eapply del_fallback].
Qed.

Lemma yields_debug ctx pid tag P response :
  cc_pid ctx = pid -> yields (send_response_via_debug pid tag response) ctx tag P.
Proof.
  intros <- s h. unfold send_response_via_debug.
  destruct (response_to_vec response) as [data|e] eqn:Ev; (eexists _, _; split; [done|]); intros h0 Hc.
  - eapply out_answer; [done..|apply del_debug].
  - by apply out_fail_full.
Qed.

Lemma yields_start ctx tag (P : SysCall -> PendingOp -> Prop) call what op :
  P call op -> yields (start_storage env call what op) ctx tag P.
Proof.
  intros HP s h. unfold start_storage, m_bind, m_get, m_call, m_modify, m_ret. simpl. cbn [w_svc w_hist].
  destruct (MAX_PENDING_OPS <=? Z.of_nat (size (pending_ops s))).
  { eexists _, _. split; [reflexivity|]. intros h0 Hc. by apply out_fail_full. }
  destruct (env_storage env (call :: h)) as [id|e] eqn:Es; cbn [w_svc w_hist] in *; rewrite Es;
    (eexists _, _; split; [reflexivity|]); intros h0 Hc.
  - by eapply out_start.
  - by eapply out_fail_start.
Qed.

Lemma yields_now c ctx tag P : yields c ctx tag P -> yields_first c ctx tag P.
Proof.
  intros Hy [s h]. destruct (Hy s h) as (r & w' & Hc & Ho). eexists _, _. split; [done|]. apply Ho. by left.
Qed.

Lemma yields_clock k ctx tag P :
  (forall now, yields (k now) ctx tag P) -> yields_first (m_bind (get_wallclock env) k) ctx tag P.
Proof.
  intros Hy [s h]. unfold m_bind, get_wallclock, m_call. cbn [w_svc w_hist].
  destruct (Hy (env_clock env (Sys_Wallclock :: h)) s (Sys_Wallclock :: h)) as (r & w' & Hc & Ho).
  eexists _, _. split; [done|]. apply Ho. by right.
Qed.

Lemma outcome_weaken ctx tag (P Q : SysCall -> PendingOp -> Prop) w r w' :
  (forall c o, P c o -> Q c o) -> outcome ctx tag P w r w' -> outcome ctx tag Q w r w'.
Proof.
  intros HPQ Ho. destruct Ho; [eapply out_answer|eapply out_start|eapply out_fail_full|eapply out_fail_start];
    by eauto.
Qed.

(** ** Results *)
Ltac yields_step :=
  match goal with
  | |- yields (send_response _ _ _ _) _ _ _ => apply yields_response
  | |- yields (send_response_via_debug _ _ _) _ _ _ => by apply yields_debug
  | |- yields (start_storage _ _ _ _) _ _ _ => apply yields_start
  | |- yields (if ?b then _ else _) _ _ _ => destruct b eqn:?
  | |- yields (match ?x with _ => _ end) _ _ _ => destruct x eqn:?
  | |- yields_first (m_bind (get_wallclock _) _) _ _ _ => apply yields_clock; intros ?
  | |- yields_first (if ?b then _ else _) _ _ _ => destruct b eqn:?
  | |- yields_first (match ?x with _ => _ end) _ _ _ => destruct x eqn:?
  | |- yields_first _ _ _ _ => apply yields_now
  end.

Ltac unfold_handlers :=
  unfold handle_stat_inode_result, handle_exists_inode_result, handle_read_file_inode_result,
    handle_content_result, handle_exists_result, handle_readdir_reading_inode,
    handle_readdir_listing_children, handle_rmdir_inode_result, handle_delete_inode_result,
    handle_unlink_reading_inode, handle_unlink_deleting_content, handle_unlink_deleting_inode,
    handle_write_checking_parent, handle_write_content_done, handle_write_inode_done,
    handle_mkdir_checking_exists, handle_mkdir_checking_parent, handle_mkdir_creating_parents,
    handle_mkdir_creating_parents_write_done, handle_mkdir_writing_inode, mkdir_creating_parents_next,
    mkdir_proceed, create_directory_inode,
    send_write_error, send_mkdir_error, send_rmdir_error, send_unlink_error,
    send_write_error_via_debug, send_mkdir_error_via_debug, send_rmdir_error_via_debug,
    send_unlink_error_via_debug,
    start_storage_read, start_storage_write, start_storage_delete, start_storage_list,
    start_storage_exists.

Lemma passes_intro (g : guard) rt data inode :
  (rt =? READ_OK) = true -> inode_from_slice data = Ok inode ->
  g_accepts g inode = true -> negb (check_write inode (g_perm g)) = false -> passes g rt data.
Proof. intros ?%Z.eqb_eq ? ? ?%negb_false_iff. split; [done|]. by exists inode. Qed.

(** A guard whose conditions are among the hypotheses. *)
Ltac solve_passes :=
  eapply passes_intro; [eassumption|eassumption| |eassumption]; (assumption || by apply negb_false_iff).

(** A call that carries out a change, or makes a directory on the way. *)
Ltac solve_carries :=
  first [ left; by eexists | right; by eexists | by eexists | by left | by right
        | by eexists _, _; split; [left|] | reflexivity ].

Ltac solve_follows :=
  constructor; simpl; intros; simplify_eq; eauto 6;
  try solve [ lia | solve_carries
            | split; [solve_passes|]; solve_carries
            | eexists; split; [|left; reflexivity]; reflexivity
            | eexists; split; [|right; split; [reflexivity|solve_passes]]; reflexivity
            | unfold serves in *; simpl in *; naive_solver ].

Lemma write_outcome ctx path perm st rt data op :
  op = WriteFileOp ctx path perm st -> op_ok op ->
  yields_first (dispatch_op env op rt data) ctx MSG_VFS_WRITE_RESPONSE (follows op rt data).
Proof.
  intros -> Hok. simpl in Hok. simpl. destruct st; simpl; unfold_handlers; repeat yields_step; solve_follows.
Qed.

Lemma unlink_outcome ctx path perm st rt data op :
  op = UnlinkOp ctx path perm st -> op_ok op ->
  yields_first (dispatch_op env op rt data) ctx MSG_VFS_UNLINK_RESPONSE (follows op rt data).
Proof.
  intros -> Hok. simpl in Hok. simpl. destruct st; simpl; unfold_handlers; repeat yields_step; solve_follows.
Qed.

Lemma readdir_outcome ctx path perm st rt data op :
  op = ReaddirOp ctx path perm st -> op_ok op ->
  yields_first (dispatch_op env op rt data) ctx MSG_VFS_READDIR_RESPONSE (follows op rt data).
Proof.
  intros -> Hok. simpl in Hok. simpl. destruct st; simpl; unfold_handlers; repeat yields_step; solve_follows.
Qed.

Lemma getinode_outcome ctx path ty perm rt data op tag :
  op = GetInode ctx path ty perm -> op_ok op -> op_kind op = Some (ctx, tag) ->
  yields_first (dispatch_op env op rt data) ctx tag (follows op rt data).
Proof.
  intros -> Hok Hk. simpl in Hok, Hk.
  destruct ty; try done; simplify_eq; simpl; unfold_handlers; repeat yields_step; solve_follows.
Qed.

(** Creating the target directory is allowed when its key is. *)
Lemma create_outcome ctx path perm cp0 cp st rt data :
  perm = derive_permission_context (cc_pid ctx) path ->
  let op := MkdirOp ctx path perm st cp0 in
  (1 < op_rank op)%nat -> (forall v, permits (op_phase op) rt data (Sys_StorageWrite (inode_key path) v)) ->
  yields_first (create_directory_inode env ctx path perm cp) ctx MSG_VFS_MKDIR_RESPONSE (follows op rt data).
Proof.
  intros Hp op Hr Hperm. subst op. unfold_handlers. repeat yields_step. solve_follows.
Qed.

(** Continuing with the next directory on the way. *)
Lemma next_outcome ctx path perm paths i w rt data op :
  op = MkdirOp ctx path perm (MD_CreatingParents paths i w) true -> op_ok op ->
  yields_first (mkdir_creating_parents_next env ctx path perm paths i) ctx MSG_VFS_MKDIR_RESPONSE
    (follows op rt data).
Proof.
  intros -> (Hp & _ & Hpaths & Hi). unfold mkdir_creating_parents_next.
  destruct (paths !! (i + 1)%nat) as [q|] eqn:Hq.
  - pose proof (lookup_lt_Some _ _ _ Hq). unfold start_storage_exists. repeat yields_step.
    solve_follows.
  - apply create_outcome; [done| |intros v; solve_carries]. simpl. destruct w; lia.
Qed.

Lemma mkdir_proceed_outcome ctx path perm cp rt data op :
  op = MkdirOp ctx path perm MD_CheckingExists cp -> op_ok op ->
  yields_first (mkdir_proceed env ctx path perm cp) ctx MSG_VFS_MKDIR_RESPONSE (follows op rt data).
Proof.
  intros -> Hp. simpl in Hp. unfold mkdir_proceed. destruct cp.
  - destruct (build_parent_paths path) as [|q qs] eqn:Hq.
    + apply create_outcome; [done|simpl; lia|intros v; solve_carries].
    + unfold start_storage_exists. repeat yields_step. solve_follows.
      * split_and!; try done. simpl. lia.
      * rewrite Hq. simpl. lia.
  - unfold start_storage_read. repeat yields_step. solve_follows.
Qed.

Lemma mkdir_outcome ctx path perm st cp rt data op :
  op = MkdirOp ctx path perm st cp -> op_ok op ->
  yields_first (dispatch_op env op rt data) ctx MSG_VFS_MKDIR_RESPONSE (follows op rt data).
Proof.
  intros -> Hok. simpl. destruct st as [| | |paths i w]; simpl in Hok; simpl.
  - unfold handle_mkdir_checking_exists, send_mkdir_error.
    repeat first [by apply mkdir_proceed_outcome | yields_step].
  - unfold handle_mkdir_checking_parent, send_mkdir_error.
    repeat first [apply create_outcome; [done|simpl; lia|] | yields_step].
    intros v. split; [solve_passes|solve_carries].
  - unfold handle_mkdir_writing_inode, send_mkdir_error. repeat yields_step.
  - pose proof Hok as (Hp & -> & Hpaths & Hi). destruct w.
    + unfold handle_mkdir_creating_parents_write_done, send_mkdir_error.
      repeat first [eapply next_outcome; [done|exact Hok] | yields_step].
    + unfold handle_mkdir_creating_parents, send_mkdir_error, start_storage_write.
      destruct (lookup_lt_is_Some_2 paths i Hi) as [q Hq]. rewrite Hq.
      repeat first [eapply next_outcome; [done|exact Hok] | yields_step].
      solve_follows. exists q. eexists. split; [|reflexivity]. right. subst. by eapply list_elem_of_lookup_2.
Qed.

(** Every result for a pending operation is answered, continued or reported. *)
Lemma dispatch_outcome op rt data ctx tag :
  op_ok op -> op_kind op = Some (ctx, tag) ->
  yields_first (dispatch_op env op rt data) ctx tag (follows op rt data).
Proof.
  intros Hok Hk. destruct op; simpl in Hk; simplify_eq; try done.
  - destruct op_type; simplify_eq; by eapply getinode_outcome.
  - simpl. unfold handle_content_result. repeat yields_step.
  - simpl in Hok. destruct ctx0; simplify_eq. simpl. unfold handle_delete_inode_result. repeat yields_step.
  - simpl. unfold handle_exists_result. repeat yields_step.
  - by eapply write_outcome.
  - by eapply mkdir_outcome.
  - by eapply readdir_outcome.
  - by eapply unlink_outcome.
Qed.

(** ** Requests *)

(** The response a request expects. *)
Definition request_kind (m : Message) : option (ClientContext * Z) :=
  let ctx := ClientContext_from_message m in
  if msg_tag m =? MSG_VFS_MKDIR then Some (ctx, MSG_VFS_MKDIR_RESPONSE)
  else if msg_tag m =? MSG_VFS_RMDIR then Some (ctx, MSG_VFS_RMDIR_RESPONSE)
  else if msg_tag m =? MSG_VFS_READDIR then Some (ctx, MSG_VFS_READDIR_RESPONSE)
  else if msg_tag m =? MSG_VFS_WRITE then Some (ctx, MSG_VFS_WRITE_RESPONSE)
  else if msg_tag m =? MSG_VFS_READ then Some (ctx, MSG_VFS_READ_RESPONSE)
  else if msg_tag m =? MSG_VFS_UNLINK then Some (ctx, MSG_VFS_UNLINK_RESPONSE)
  else if msg_tag m =? MSG_VFS_STAT then Some (ctx, MSG_VFS_STAT_RESPONSE)
  else if msg_tag m =? MSG_VFS_EXISTS then Some (ctx, MSG_VFS_EXISTS_RESPONSE)
  else None.

(** mkdir with [create_parents] for a path. *)
Definition asks_mkdir_p (m : Message) (path : string) : Prop :=
  msg_tag m = MSG_VFS_MKDIR /\
  exists r, mkdir_request_from_slice (msg_data m) = Ok r /\ mkdir_path r = path /\
    mkdir_create_parents r = true.

(** The first operation of a request: it serves the request, checks nothing yet
    and its storage call changes nothing. *)
Record opens (m : Message) (call : SysCall) (op : PendingOp) : Prop := mk_opens {
  on_ok : op_ok op;
  on_kind : op_kind op = request_kind m;
  on_call : call_of op call;
  on_pure : mutation_key call = None;
  on_granted : forall perm ch, op_phase op <> Ph_granted perm ch;
  on_serves : serves m op;
  on_mkdir_p : forall path, op_phase op = Ph_mkdir_p path -> asks_mkdir_p m path }.

Lemma request_outcome m ctx tag :
  msg_tag m <> MSG_STORAGE_RESULT -> request_kind m = Some (ctx, tag) ->
  yields_first (on_message env m) ctx tag (opens m).
Proof.
  intros Hs%Z.eqb_neq Hk. unfold on_message. rewrite Hs.
  assert (Hk' := Hk). unfold request_kind in Hk'.
  repeat (match type of Hk' with context [msg_tag m =? ?t] => destruct (msg_tag m =? t) eqn:? end;
    [simplify_eq|]); try done.
  all: unfold handle_mkdir, handle_rmdir, handle_readdir, handle_write, handle_read, handle_unlink,
    handle_stat, handle_exists; unfold_handlers; repeat yields_step.
  all: constructor; rewrite ?Hk; simpl; intros; simplify_eq; eauto.
  all: try solve [ unfold serves; simpl; done
    | unfold serves; simpl; split; [by apply Z.eqb_eq|]; eexists; split; [eassumption|]; by eauto ].
  - by destruct (mkdir_create_parents t).
  - unfold serves. simpl. destruct (mkdir_create_parents t) eqn:?; [done|]. split; [by apply Z.eqb_eq|]. by exists t.
  - destruct (mkdir_create_parents t) eqn:?; simplify_eq. split; [by apply Z.eqb_eq|]. by exists t.
Qed.
End outcomes.
