(* ===== verification/Bridge.v ===== *)
(** * Supervisor: asynchronous storage, keystore and network requests

    crates/zos-supervisor/src: the request tables of hal/mod.rs, the operations of
    hal/storage.rs and hal/network.rs that start a request in the browser, and the
    formats of the messages with which supervisor/storage.rs, supervisor/network.rs
    and supervisor/ipc.rs answer it through the Init process; the notifications
    themselves act on the whole supervisor and are in [WebSupervisor].

    A request handed to the browser is recorded in [wh_started]. *)
From S2P Require Import Prelude StrLib Hal VfsPath VfsService.

Local Open Scope string_scope.
Local Open Scope Z_scope.

(** ** hal/mod.rs: request tables *)
Definition MAX_PENDING_STORAGE_REQUESTS : Z := 1000.
Definition MAX_PENDING_NETWORK_REQUESTS : Z := 100.
Definition MAX_PENDING_KEYSTORE_REQUESTS : Z := 1000.

(** A counter and the process behind each pending request. *)
Record RequestTable : Type := mk_RequestTable {
  rt_next : Z;
  rt_pending : gmap Z Z }.

Definition RequestTable_new : RequestTable := mk_RequestTable 1 ∅.

(** What is asked of the browser. *)
Inductive JsOp : Type :=
| Js_Read (key : string)
| Js_Write (key : string) (value : list byte)
| Js_Delete (key : string)
| Js_List (prefix : string)
| Js_Exists (key : string)
| Js_BatchWrite (items : list (string * list byte))
| Js_Fetch (pid : Z) (request : list byte).

Inductive JsStore : Type := ZosStorage | ZosKeystore | ZosNetwork.

Record WasmHal : Type := mk_WasmHal {
  wh_storage : RequestTable;
  wh_keystore : RequestTable;
  wh_network : RequestTable;
  wh_started : list (JsStore * Z * JsOp) }.

Definition WasmHal_new : WasmHal := mk_WasmHal RequestTable_new RequestTable_new RequestTable_new [].

Definition next_request_id (t : RequestTable) : Z * RequestTable :=
  (rt_next t, mk_RequestTable (wrap_u32 (rt_next t + 1)) (rt_pending t)).

Definition record_pending_request (max request_id pid : Z) (t : RequestTable) : bool * RequestTable :=
  if max <=? Z.of_nat (size (rt_pending t)) then (false, t)
  else (true, mk_RequestTable (rt_next t) (<[request_id := pid]> (rt_pending t))).

(** The identifier is consumed also when the table is full. *)
Definition new_request (max pid : Z) (t : RequestTable) : result Z HalError * RequestTable :=
  let '(request_id, t) := next_request_id t in
  match record_pending_request max request_id pid t with
  | (true, t) => (Ok request_id, t)
  | (false, t) => (Err HE_ResourceExhausted, t)
  end.

Definition take_request_pid (request_id : Z) (t : RequestTable) : option Z * RequestTable :=
  (rt_pending t !! request_id, mk_RequestTable (rt_next t) (delete request_id (rt_pending t))).

Definition get_request_pid (request_id : Z) (t : RequestTable) : option Z := rt_pending t !! request_id.

Definition started (store : JsStore) (id : Z) (op : JsOp) (h : WasmHal) : WasmHal :=
  mk_WasmHal (wh_storage h) (wh_keystore h) (wh_network h) ((store, id, op) :: wh_started h).

Definition with_storage (t : RequestTable) (h : WasmHal) : WasmHal :=
  mk_WasmHal t (wh_keystore h) (wh_network h) (wh_started h).

Definition with_keystore (t : RequestTable) (h : WasmHal) : WasmHal :=
  mk_WasmHal (wh_storage h) t (wh_network h) (wh_started h).

Definition with_network (t : RequestTable) (h : WasmHal) : WasmHal :=
  mk_WasmHal (wh_storage h) (wh_keystore h) t (wh_started h).

(** ** hal/storage.rs *)
Definition do_storage (op : JsOp) (pid : Z) (h : WasmHal) : result Z HalError * WasmHal :=
  match new_request MAX_PENDING_STORAGE_REQUESTS pid (wh_storage h) with
  | (Ok id, t) => (Ok id, started ZosStorage id op (with_storage t h))
  | (Err e, t) => (Err e, with_storage t h)
  end.

Definition do_storage_read_async (pid : Z) (key : string) := do_storage (Js_Read key) pid.
Definition do_storage_write_async (pid : Z) (key : string) (value : list byte) := do_storage (Js_Write key value) pid.
Definition do_storage_delete_async (pid : Z) (key : string) := do_storage (Js_Delete key) pid.
Definition do_storage_list_async (pid : Z) (prefix : string) := do_storage (Js_List prefix) pid.
Definition do_storage_exists_async (pid : Z) (key : string) := do_storage (Js_Exists key) pid.
Definition do_storage_batch_write_async (pid : Z) (items : list (string * list byte)) :=
  do_storage (Js_BatchWrite items) pid.

Definition do_get_storage_request_pid (request_id : Z) (h : WasmHal) : option Z :=
  get_request_pid request_id (wh_storage h).

Definition do_take_storage_request_pid (request_id : Z) (h : WasmHal) : option Z * WasmHal :=
  let '(pid, t) := take_request_pid request_id (wh_storage h) in (pid, with_storage t h).

Definition do_keystore (op : JsOp) (pid : Z) (h : WasmHal) : result Z HalError * WasmHal :=
  match new_request MAX_PENDING_KEYSTORE_REQUESTS pid (wh_keystore h) with
  | (Ok id, t) => (Ok id, started ZosKeystore id op (with_keystore t h))
  | (Err e, t) => (Err e, with_keystore t h)
  end.

Definition do_keystore_read_async (pid : Z) (key : string) := do_keystore (Js_Read key) pid.
Definition do_keystore_write_async (pid : Z) (key : string) (value : list byte) := do_keystore (Js_Write key value) pid.
Definition do_keystore_delete_async (pid : Z) (key : string) := do_keystore (Js_Delete key) pid.
Definition do_keystore_list_async (pid : Z) (prefix : string) := do_keystore (Js_List prefix) pid.
Definition do_keystore_exists_async (pid : Z) (key : string) := do_keystore (Js_Exists key) pid.

Definition do_take_keystore_request_pid (request_id : Z) (h : WasmHal) : option Z * WasmHal :=
  let '(pid, t) := take_request_pid request_id (wh_keystore h) in (pid, with_keystore t h).

(** ** hal/network.rs *)

(** The table entry stays when the request is not UTF-8. *)
Definition do_network_fetch_async (pid : Z) (request : list byte) (h : WasmHal) : result Z HalError * WasmHal :=
  match new_request MAX_PENDING_NETWORK_REQUESTS pid (wh_network h) with
  | (Err e, t) => (Err e, with_network t h)
  | (Ok id, t) =>
      match from_utf8 request with
      | Some _ => (Ok id, started ZosNetwork id (Js_Fetch pid request) (with_network t h))
      | None => (Err HE_InvalidArgument, with_network t h)
      end
  end.

Definition do_take_network_request_pid (request_id : Z) (h : WasmHal) : option Z * WasmHal :=
  let '(pid, t) := take_request_pid request_id (wh_network h) in (pid, with_network t h).

(** ** supervisor/ipc.rs *)
Definition SERVICE_INPUT_SLOT : Z := 1.
Definition MSG_SUPERVISOR_CONSOLE_INPUT : Z := 0x2001.
Definition MSG_SUPERVISOR_IPC_DELIVERY : Z := 0x2003.
Definition MSG_KEYSTORE_RESULT : Z := 0x81.
Definition MSG_NET_RESULT : Z := 0x9002.

(** [[target_pid: u32, endpoint_slot: u32, tag: u32, data_len: u16, data]]; every
    cast truncates, that of the length to 16 bits. *)
Definition delivery_payload (target_pid endpoint_slot tag : Z) (data : list byte) : list byte :=
  (u32_to_le_bytes target_pid ++ u32_to_le_bytes endpoint_slot ++ u32_to_le_bytes tag ++
   u16_to_le_bytes (len data) ++ data)%list.

(** Input of the console, with a newline: [[target_pid, slot, data_len: u16, data]]. *)
Definition console_payload (target_pid : Z) (input : list byte) : list byte :=
  (u32_to_le_bytes target_pid ++ u32_to_le_bytes 1 ++ u16_to_le_bytes (len input + 1) ++ input ++ [x0a])%list.

(** ** supervisor/storage.rs *)

(** [[request_id: u32, result_type: u8, data_len: u32, data]]. *)
Definition result_payload (request_id result_type : Z) (data : list byte) : list byte :=
  (u32_to_le_bytes request_id ++ [byte_of_Z result_type] ++ u32_to_le_bytes (len data) ++ data)%list.

(** [{"result":{"Err":"Internal error"}}], the quote being character 34. *)
Definition INTERNAL_ERROR_JSON : string :=
  let q := String "034" "" in
  "{" +:+ q +:+ "result" +:+ q +:+ ":{" +:+ q +:+ "Err" +:+ q +:+ ":" +:+ q +:+ "Internal error" +:+ q +:+ "}}".

(** ** Responses of services over the debug channel (supervisor/ipc.rs, util.rs) *)

(** [splitn(3, c)]: at most three pieces, the last one unsplit. *)
Fixpoint split_once (c : ascii) (s : string) : option (string * string) :=
  match s with
  | EmptyString => None
  | String a s' =>
      if Ascii.eqb a c then Some ("", s')
      else match split_once c s' with
           | Some (w, rest) => Some (String a w, rest)
           | None => None
           end
  end.

Definition splitn3 (c : ascii) (s : string) : list string :=
  match split_once c s with
  | None => [s]
  | Some (a, rest) =>
      match split_once c rest with
      | None => [a; rest]
      | Some (b, rest) => [a; b; rest]
      end
  end.

(** [parse::<u32>] and [u32::from_str_radix]; the same for [u8]. *)
Definition uint_from_str_radix (bits radix : Z) (s : string) : option Z :=
  match u128_from_str_radix radix s with
  | Some n => if n <? 2 ^ bits then Some n else None
  | None => None
  end.

(** A byte in the middle of a character. *)
Definition is_continuation (a : ascii) : bool :=
  let n := Z.of_N (Ascii.N_of_ascii a) in (128 <=? n) && (n <? 192).

(** The pieces of two bytes in order, the first invalid one ending the loop; a
    slice that ends inside a character panics. *)
Fixpoint hex_pairs (s : string) : option (result (list byte) string) :=
  match s with
  | String a (String b rest) =>
      match rest with
      | String c _ => if is_continuation c then None else
          match uint_from_str_radix 8 16 (String a (String b "")) with
          | None => Some (Err "Invalid hex character")
          | Some v =>
              match hex_pairs rest with
              | Some (Ok l) => Some (Ok (byte_of_Z v :: l))
              | r => r
              end
          end
      | EmptyString =>
          match uint_from_str_radix 8 16 (String a (String b "")) with
          | None => Some (Err "Invalid hex character")
          | Some v => Some (Ok [byte_of_Z v])
          end
      end
  | _ => Some (Ok [])
  end.

Definition hex_to_bytes (hex : string) : option (result (list byte) string) :=
  if Nat.odd (String.length hex) then Some (Err "Invalid hex length") else hex_pairs hex.

(** ** The supervisor reads back what a service printed *)
Lemma digit_value_hex n : 0 <= n < 16 -> digit_value (hex_digit n) = Some n.
Proof.
  intros Hn. assert (Hc : n ∈ seqZ 0 16) by (apply elem_of_seqZ; lia). revert n Hn Hc.
  assert (Hall : Forall (fun n => digit_value (hex_digit n) = Some n) (seqZ 0 16)) by (by repeat constructor).
  intros n _ Hc. rewrite Forall_forall in Hall. by apply Hall.
Qed.

Lemma hex_digit_plain n :
  0 <= n < 16 -> is_continuation (hex_digit n) = false /\ Ascii.eqb (hex_digit n) ":" = false /\
  Ascii.eqb (hex_digit n) "+" = false.
Proof.
  intros Hn. assert (Hc : n ∈ seqZ 0 16) by (apply elem_of_seqZ; lia). revert n Hn Hc.
  assert (Hall : Forall (fun n => is_continuation (hex_digit n) = false /\
    Ascii.eqb (hex_digit n) ":" = false /\ Ascii.eqb (hex_digit n) "+" = false) (seqZ 0 16))
    by (by repeat constructor).
  intros n _ Hc. rewrite Forall_forall in Hall. by apply Hall.
Qed.

Lemma hex_bytes_cons b l s :
  hex_bytes (b :: l) +:+ s =
  String (hex_digit (Z_of_byte b / 16)) (String (hex_digit (Z_of_byte b mod 16)) (hex_bytes l +:+ s)).
Proof. done. Qed.

Lemma hex_digits_range b :
  0 <= Z_of_byte b / 16 < 16 /\ 0 <= Z_of_byte b mod 16 < 16 /\
  Z_of_byte b = 16 * (Z_of_byte b / 16) + Z_of_byte b mod 16.
Proof.
  pose proof (Z_of_byte_range b). pose proof (Z.mod_pos_bound (Z_of_byte b) 16 ltac:(lia)).
  split_and!; [apply Z.div_pos|apply Z.div_lt_upper_bound|..|apply Z.div_mod]; lia.
Qed.

Lemma parse_hex_bytes l acc s :
  0 <= acc -> (acc + 1) * 256 ^ len l <= 2 ^ 128 ->
  parse_digits 16 acc (hex_bytes l +:+ s) = parse_digits 16 (foldl (fun a b => a * 256 + Z_of_byte b) acc l) s.
Proof.
  revert acc. induction l as [|b l IH]; intros acc Ha Hb; [done|].
  pose proof (Z_of_byte_range b) as Hr. destruct (hex_digits_range b) as (Hq & Hm & Hd).
  replace (len (b :: l)) with (len l + 1) in Hb by (unfold len; simpl; lia).
  rewrite Z.pow_add_r in Hb by (unfold len; lia).
  assert (Hp : 1 <= 256 ^ len l) by (apply (Z.pow_le_mono_r 256 0); unfold len; lia).
  rewrite hex_bytes_cons. cbn [foldl parse_digits].
  rewrite !digit_value_hex by lia.
  rewrite (proj2 (Z.ltb_lt (Z_of_byte b / 16) 16)) by lia.
  rewrite (proj2 (Z.ltb_lt (acc * 16 + _) (2 ^ 128))) by nia.
  rewrite (proj2 (Z.ltb_lt (Z_of_byte b mod 16) 16)) by lia.
  rewrite (proj2 (Z.ltb_lt ((acc * 16 + _) * 16 + _) (2 ^ 128))) by nia.
  rewrite IH by nia. do 2 f_equal. lia.
Qed.

(** The big-endian value of bytes. *)
Definition be_value (acc : Z) (l : list byte) : Z := foldl (fun a b => a * 256 + Z_of_byte b) acc l.

Lemma be_value_range l acc : acc * 256 ^ len l <= be_value acc l < (acc + 1) * 256 ^ len l.
Proof.
  revert acc. induction l as [|b l IH]; intros acc; [unfold len; simpl; lia|].
  replace (len (b :: l)) with (len l + 1) by (unfold len; simpl; lia).
  rewrite Z.pow_add_r by (unfold len; lia). unfold be_value in *. cbn [foldl].
  pose proof (Z_of_byte_range b). specialize (IH (acc * 256 + Z_of_byte b)).
  assert (0 < 256 ^ len l) by (apply Z.pow_pos_nonneg; unfold len; lia). nia.
Qed.

Lemma uint_hex_bytes bits b l :
  8 * len (b :: l) <= bits <= 128 -> uint_from_str_radix bits 16 (hex_bytes (b :: l)) = Some (be_value 0 (b :: l)).
Proof.
  intros Hb. unfold uint_from_str_radix.
  assert (Hpow : 256 ^ len (b :: l) <= 2 ^ bits).
  { replace 256 with (2 ^ 8) by lia. rewrite <- Z.pow_mul_r by (unfold len; lia). apply Z.pow_le_mono_r; lia. }
  assert (2 ^ bits <= 2 ^ 128) by (apply Z.pow_le_mono_r; lia).
  pose proof (parse_hex_bytes (b :: l) 0 "" ltac:(lia) ltac:(lia)) as Hp.
  rewrite str_app_nil_r in Hp. fold (be_value 0 (b :: l)) in Hp.
  destruct (hex_digits_range b) as (Hq & _ & _). destruct (hex_digit_plain _ Hq) as (_ & _ & Hplus).
  assert (Hu : u128_from_str_radix 16 (hex_bytes (b :: l)) = parse_digits 16 0 (hex_bytes (b :: l))).
  { rewrite <- (str_app_nil_r (hex_bytes (b :: l))), hex_bytes_cons. unfold u128_from_str_radix. by rewrite Hplus. }
  rewrite Hu, Hp. cbn [parse_digits]. pose proof (be_value_range (b :: l) 0).
  by rewrite (proj2 (Z.ltb_lt _ _)) by lia.
Qed.

Lemma hex_u32_parse tag : 0 <= tag < 2 ^ 32 -> uint_from_str_radix 32 16 (hex_u32 tag) = Some tag.
Proof.
  intros Ht. unfold hex_u32. pose proof (from_to_le_bytes 4 tag) as Hf.
  change (from_le_bytes (u32_to_le_bytes tag) = tag mod 256 ^ 4) in Hf.
  rewrite Z.mod_small in Hf by (change (256 ^ 4) with (2 ^ 32); lia).
  unfold u32_to_le_bytes in *. cbn [to_le_bytes] in *. cbv [reverse rev_append].
  rewrite uint_hex_bytes by (unfold len; simpl; lia). f_equal. rewrite <- Hf at 5.
  unfold be_value, from_le_bytes. cbn [foldl foldr]. lia.
Qed.

Lemma hex_pairs_cons a b rest v :
  uint_from_str_radix 8 16 (String a (String b "")) = Some v ->
  match rest with String c _ => is_continuation c = false | EmptyString => True end ->
  hex_pairs (String a (String b rest)) =
  match hex_pairs rest with Some (Ok l) => Some (Ok (byte_of_Z v :: l)) | r => r end.
Proof. intros Hv Hc. destruct rest as [|c rest]; cbn [hex_pairs]; [by rewrite Hv|by rewrite Hc, Hv]. Qed.

Lemma hex_pairs_bytes l : hex_pairs (hex_bytes l) = Some (Ok l).
Proof.
  induction l as [|b l IH]; [done|].
  rewrite <- (str_app_nil_r (hex_bytes (b :: l))), hex_bytes_cons, str_app_nil_r.
  rewrite (hex_pairs_cons _ _ _ (be_value 0 [b])), IH.
  - do 3 f_equal. apply byte_of_Z_of_byte.
  - apply (uint_hex_bytes 8 b []). unfold len. simpl. lia.
  - destruct l as [|b' l']; [done|]. destruct (hex_digits_range b') as (Hq & _ & _).
    by destruct (hex_digit_plain _ Hq) as (Hc & _ & _).
Qed.

Lemma hex_bytes_length l : String.length (hex_bytes l) = (2 * length l)%nat.
Proof. induction l as [|b l IH]; [done|]. cbn [length]. change (S (S (String.length (hex_bytes l))) = (2 * S (length l))%nat). lia. Qed.

Lemma hex_to_bytes_print l : hex_to_bytes (hex_bytes l) = Some (Ok l).
Proof.
  unfold hex_to_bytes. rewrite hex_bytes_length, Nat.odd_mul. simpl. apply hex_pairs_bytes.
Qed.

(** Splitting after a piece without the delimiter. *)
Lemma split_once_app c w s : str_contains_char c w = false -> split_once c (w +:+ String c s) = Some (w, s).
Proof.
  induction w as [|a w IH]; intros Hw.
  - simpl. by rewrite Ascii.eqb_refl.
  - cbn [str_contains_char] in Hw. apply orb_false_iff in Hw as [Ha Hw].
    change (String a w +:+ String c s) with (String a (w +:+ String c s)). cbn [split_once].
    by rewrite Ha, (IH Hw).
Qed.

Lemma hex_bytes_no_colon l : str_contains_char ":" (hex_bytes l) = false.
Proof.
  induction l as [|b l IH]; [done|]. rewrite <- (str_app_nil_r (hex_bytes (b :: l))), hex_bytes_cons, str_app_nil_r.
  destruct (hex_digits_range b) as (Hq & Hm & _).
  destruct (hex_digit_plain _ Hq) as (_ & H1 & _). destruct (hex_digit_plain _ Hm) as (_ & H2 & _).
  cbn [str_contains_char]. by rewrite H1, H2, IH.
Qed.

(** Decimal numbers: [pretty] is what [{}] prints. *)
Lemma digit_value_dec (x : N) :
  (x < 10)%N -> digit_value (pretty_N_char x) = Some (Z.of_N x) /\
  Ascii.eqb (pretty_N_char x) ":" = false /\ Ascii.eqb (pretty_N_char x) "+" = false.
Proof.
  intros Hx. assert (Hall : Forall (fun n => let x := N.of_nat n in
    digit_value (pretty_N_char x) = Some (Z.of_N x) /\ Ascii.eqb (pretty_N_char x) ":" = false /\
    Ascii.eqb (pretty_N_char x) "+" = false) (seq 0 10)) by (by repeat constructor).
  rewrite Forall_forall in Hall. pose proof (Hall (N.to_nat x) ltac:(apply elem_of_seq; lia)) as Hn.
  cbv zeta in Hn. by rewrite N2Nat.id in Hn.
Qed.

Lemma parse_pretty_go (x : N) s :
  (Z.of_N x < 2 ^ 128) -> (0 < x)%N -> parse_digits 10 0 (pretty_N_go x s) = parse_digits 10 (Z.of_N x) s.
Proof.
  revert s. induction (N.lt_wf_0 x) as [x _ IH]. intros s Hx Hpos.
  rewrite pretty_N_go_step by done.
  destruct (digit_value_dec (x mod 10)) as (Hd & _ & _); [by apply N.mod_lt|].
  pose proof (N.div_mod x 10 ltac:(done)) as Hdm. pose proof (N.mod_lt x 10 ltac:(done)) as Hml.
  assert (Hval : Z.of_N (x / 10) * 10 + Z.of_N (x mod 10) = Z.of_N x) by lia.
  destruct (decide (x / 10 = 0)%N) as [Hz|Hz].
  - rewrite Hz, pretty_N_go_0 in *. cbn [parse_digits]. rewrite Hd.
    rewrite (proj2 (Z.ltb_lt _ 10)) by lia. rewrite (proj2 (Z.ltb_lt _ (2 ^ 128))) by lia. f_equal. lia.
  - assert (Hlt : (x / 10 < x)%N) by (by apply N.div_lt).
    rewrite (IH _ Hlt) by lia. cbn [parse_digits]. rewrite Hd.
    rewrite (proj2 (Z.ltb_lt _ 10)) by lia. rewrite (proj2 (Z.ltb_lt _ (2 ^ 128))) by lia. f_equal. lia.
Qed.

(** The first character of a printed number is a digit, and none is a colon. *)
Lemma pretty_go_chars (x : N) s :
  str_contains_char ":" s = false ->
  str_contains_char ":" (pretty_N_go x s) = false /\
  ((0 < x)%N -> exists a t, pretty_N_go x s = String a t /\ Ascii.eqb a "+" = false).
Proof.
  revert s. induction (N.lt_wf_0 x) as [x _ IH]. intros s Hs.
  destruct (decide (x = 0)%N) as [->|Hz]; [by rewrite pretty_N_go_0|].
  rewrite pretty_N_go_step by lia.
  destruct (digit_value_dec (x mod 10)) as (_ & Hc & Hp); [by apply N.mod_lt|].
  set (s' := String (pretty_N_char (x mod 10)) s).
  assert (Hs' : str_contains_char ":" s' = false) by (subst s'; cbn [str_contains_char]; by rewrite Hc).
  destruct (IH (x / 10)%N ltac:(by apply N.div_lt; lia) s' Hs') as [H1 H2]. split; [done|]. intros _.
  destruct (decide (0 < x / 10)%N) as [?|?]; [by apply H2|].
  assert ((x / 10)%N = 0%N) as -> by (apply N.le_0_r, N.nlt_ge; done).
  rewrite pretty_N_go_0. by eexists _, _.
Qed.

Lemma pretty_uint bits n :
  0 <= bits <= 128 -> 0 <= n < 2 ^ bits ->
  uint_from_str_radix bits 10 (pretty n) = Some n /\ str_contains_char ":" (pretty n) = false.
Proof.
  intros Hb Hn. assert (Hp : 2 ^ bits <= 2 ^ 128) by (apply Z.pow_le_mono_r; lia).
  destruct n as [|p|p]; [| |lia].
  - split; [|done]. unfold uint_from_str_radix. simpl. by rewrite (proj2 (Z.ltb_lt _ _)) by lia.
  - change (pretty (Z.pos p)) with (pretty_N_go (N.pos p) "").
    destruct (pretty_go_chars (N.pos p) "" eq_refl) as [Hc Hh].
    destruct (Hh ltac:(lia)) as (a & t & Ht & Ha). split; [|done].
    unfold uint_from_str_radix, u128_from_str_radix. rewrite Ht, Ha, <- Ht.
    rewrite parse_pretty_go by lia. cbn [parse_digits]. change (Z.of_N (N.pos p)) with (Z.pos p).
    by rewrite (proj2 (Z.ltb_lt _ _)) by lia.
Qed.

Lemma pretty_u32 n :
  0 <= n < 2 ^ 32 ->
  uint_from_str_radix 32 10 (pretty n) = Some n /\ str_contains_char ":" (pretty n) = false.
Proof. apply pretty_uint. lia. Qed.

