(* ===== verification/SpawnState.v ===== *)
(** * Supervisor: spawn operations (crates/zos-supervisor/src/supervisor/spawn/state.rs)

    The state machine of a pending spawn and the tracker that holds them by
    request identifier. *)
From S2P Require Import Prelude.

Inductive SpawnState : Type :=
| WaitingForBinary
| WaitingForPid
| WaitingForEndpoint (pid : Z)
| WaitingForCaps (pid endpoint_id : Z)
| SpawnReady (pid : Z)
| SpawnFailed (reason : string).

Definition is_terminal (st : SpawnState) : bool :=
  match st with SpawnReady _ | SpawnFailed _ => true | _ => false end.

Definition state_pid (st : SpawnState) : option Z :=
  match st with
  | WaitingForEndpoint pid => Some pid
  | WaitingForCaps pid _ => Some pid
  | SpawnReady pid => Some pid
  | _ => None
  end.

Record PendingSpawn : Type := mk_PendingSpawn {
  ps_request_id : Z;
  ps_proc_name : string;
  ps_state : SpawnState;
  ps_started_at : Z }.

Definition PendingSpawn_new (request_id : Z) (proc_name : string) (started_at : Z) : PendingSpawn :=
  mk_PendingSpawn request_id proc_name WaitingForBinary started_at.

Definition set_state (st : SpawnState) (p : PendingSpawn) : PendingSpawn :=
  mk_PendingSpawn (ps_request_id p) (ps_proc_name p) st (ps_started_at p).

Definition binary_received (p : PendingSpawn) : PendingSpawn :=
  match ps_state p with WaitingForBinary => set_state WaitingForPid p | _ => p end.

Definition pid_assigned (pid : Z) (p : PendingSpawn) : PendingSpawn :=
  match ps_state p with
  | WaitingForBinary | WaitingForPid => set_state (WaitingForEndpoint pid) p
  | _ => p
  end.

Definition endpoint_created (endpoint_id : Z) (p : PendingSpawn) : PendingSpawn :=
  match ps_state p with
  | WaitingForEndpoint pid => set_state (WaitingForCaps pid endpoint_id) p
  | _ => p
  end.

Definition caps_granted (p : PendingSpawn) : PendingSpawn :=
  match ps_state p with
  | WaitingForCaps pid _ => set_state (SpawnReady pid) p
  | _ => p
  end.

Definition spawn_fail (reason : string) (p : PendingSpawn) : PendingSpawn :=
  set_state (SpawnFailed reason) p.

Definition elapsed_ms (current_time : Z) (p : PendingSpawn) : Z := sat_sub current_time (ps_started_at p).

Definition is_timed_out (current_time timeout_ms : Z) (p : PendingSpawn) : bool :=
  negb (is_terminal (ps_state p)) && (timeout_ms <? elapsed_ms current_time p).

(** ** SpawnTracker *)
Record SpawnTracker : Type := mk_SpawnTracker {
  st_pending : gmap Z PendingSpawn;
  st_next_request_id : Z;
  st_timeout_ms : Z }.

Definition SpawnTracker_new : SpawnTracker := mk_SpawnTracker ∅ 1 30000.

Definition with_pending (m : gmap Z PendingSpawn) (t : SpawnTracker) : SpawnTracker :=
  mk_SpawnTracker m (st_next_request_id t) (st_timeout_ms t).

Definition start_spawn (proc_name : string) (current_time : Z) (t : SpawnTracker) : Z * SpawnTracker :=
  let request_id := st_next_request_id t in
  let next := wrap_u64 (st_next_request_id t + 1) in
  let next := if next =? 0 then 1 else next in
  let spawn := PendingSpawn_new request_id proc_name current_time in
  (request_id, mk_SpawnTracker (<[request_id := spawn]> (st_pending t)) next (st_timeout_ms t)).

(** [if let Some(spawn) = self.get_mut(request_id) { f(spawn) }]. *)
Definition with_spawn (request_id : Z) (f : PendingSpawn -> PendingSpawn) (t : SpawnTracker) : SpawnTracker :=
  with_pending (btree_update f request_id (st_pending t)) t.

Definition check_timeouts (current_time : Z) (t : SpawnTracker) : list Z :=
  (filter (fun x => is_timed_out current_time (st_timeout_ms t) x.2 = true) (btree_iter (st_pending t))).*1.

Definition timeout_reason (current_time : Z) (p : PendingSpawn) : string :=
  "Spawn timed out after " +:+ pretty (elapsed_ms current_time p) +:+ "ms".

(** Removes the identifiers in order and collects what they named. *)
Fixpoint remove_all (f : PendingSpawn -> PendingSpawn) (ids : list Z) (m : gmap Z PendingSpawn)
  : list PendingSpawn * gmap Z PendingSpawn :=
  match ids with
  | [] => ([], m)
  | id :: ids =>
      match m !! id with
      | Some p => let '(ps, m) := remove_all f ids (delete id m) in (f p :: ps, m)
      | None => remove_all f ids m
      end
  end.

Definition timeout_spawns (current_time : Z) (t : SpawnTracker) : list PendingSpawn * SpawnTracker :=
  let '(timed_out, m) := remove_all (fun p => spawn_fail (timeout_reason current_time p) p)
    (check_timeouts current_time t) (st_pending t) in
  (timed_out, with_pending m t).

Definition cleanup_completed (t : SpawnTracker) : list PendingSpawn * SpawnTracker :=
  let completed_ids := (filter (fun x => is_terminal (ps_state x.2) = true) (btree_iter (st_pending t))).*1 in
  let '(removed, m) := remove_all id completed_ids (st_pending t) in
  (removed, with_pending m t).

(** * Supervisor: the latency test between two processes (crates/zos-supervisor/src/pingpong.rs)

    A state machine that grants two test processes capabilities to each other's
    endpoint, starts them, waits and has them killed. Console lines of the test go
    to the browser's log and are left out. *)
From S2P Require Import AxiomTypes Hal KernelState System Bridge.

Definition CMD_PING : Z := 0x3001.
Definition CMD_PONG_MODE : Z := 0x3002.
Definition CMD_EXIT : Z := 0x1005.
Definition MSG_SUPERVISOR_KILL_PROCESS : Z := 0x2002.

Inductive PingPongTestState : Type :=
| PP_Idle
| PP_WaitingForPinger (iterations : Z)
| PP_WaitingForPonger (iterations pinger_pid : Z)
| PP_SettingUpCaps (iterations pinger_pid ponger_pid : Z)
| PP_StartingTest (iterations pinger_pid ponger_pid : Z)
| PP_Running (iterations pinger_pid ponger_pid start_time : Z)
| PP_Cleanup (pinger_pid ponger_pid : Z).

(** Permission to send only. *)
Definition write_only : Permissions := mk_Permissions false true false.

Section pingpong.
Context {H : Type} `{HAL H} `{Target}.
Implicit Types s : System H.

Definition pp_route_ipc (init_slot : option Z) (target_pid endpoint_slot tag : Z) (data : list byte) s
  : result unit KernelError * System H :=
  match init_slot with
  | None => (Err PermissionDenied, s)
  | Some slot => sys_ipc_send 0 slot MSG_SUPERVISOR_IPC_DELIVERY (delivery_payload target_pid endpoint_slot tag data) s
  end.

Definition pp_request_kill (init_slot : option Z) (target_pid : Z) s : result unit KernelError * System H :=
  match init_slot with
  | None => (Err PermissionDenied, s)
  | Some slot => sys_ipc_send 0 slot MSG_SUPERVISOR_KILL_PROCESS (u32_to_le_bytes (wrap_u32 target_pid)) s
  end.

Definition progress_pingpong_test (state : PingPongTestState) (init_slot : option Z) s
  : PingPongTestState * System H :=
  match state with
  | PP_SettingUpCaps iterations pinger ponger =>
      let '(_, s) := sys_grant_capability pinger 0 ponger write_only s in
      let '(_, s) := sys_grant_capability ponger 0 pinger write_only s in
      (PP_StartingTest iterations pinger ponger, s)
  | PP_StartingTest iterations pinger ponger =>
      let '(_, s) := pp_route_ipc init_slot ponger 0 CMD_PONG_MODE [] s in
      let '(_, s) := pp_route_ipc init_slot pinger 0 CMD_PING (u32_to_le_bytes iterations) s in
      let '(start_time, s) := uptime_nanos s in
      (PP_Running iterations pinger ponger start_time, s)
  | PP_Running _ pinger ponger start_time =>
      let '(now, s) := uptime_nanos s in
      let elapsed_secs := wrap_u64 (now - start_time) / 1000000000 in
      if 30 <=? elapsed_secs then (PP_Cleanup pinger ponger, s) else (state, s)
  | PP_Cleanup pinger ponger =>
      let '(_, s) := pp_route_ipc init_slot pinger 0 CMD_EXIT [] s in
      let '(_, s) := pp_route_ipc init_slot ponger 0 CMD_EXIT [] s in
      let '(_, s) := pp_request_kill init_slot pinger s in
      let '(_, s) := pp_request_kill init_slot ponger s in
      (PP_Idle, s)
  | _ => (state, s)
  end.
End pingpong.

(** The new state, and whether the second process is to be spawned. *)
Definition pp_on_process_spawned (state : PingPongTestState) (name : string) (pid : Z)
  : PingPongTestState * bool :=
  match state with
  | PP_WaitingForPinger iterations =>
      if (name =? "pp_pinger")%string then (PP_WaitingForPonger iterations pid, true) else (state, false)
  | PP_WaitingForPonger iterations pinger =>
      if (name =? "pp_ponger")%string then (PP_SettingUpCaps iterations pinger pid, false) else (state, false)
  | _ => (state, false)
  end.

Definition pp_check_complete (state : PingPongTestState) (pid : Z) : option PingPongTestState :=
  match state with
  | PP_Running _ pinger ponger _ => if pid =? pinger then Some (PP_Cleanup pinger ponger) else None
  | _ => None
  end.
