(* ===== verification/WebHal.v ===== *)
(** * The browser platform: workers and their mailboxes

    crates/zos-supervisor/src: hal/mod.rs, hal/process.rs and worker.rs, and the
    other end of the mailbox in web/src/workers/mailbox.ts. A process runs in a
    Web Worker; it passes a system call through a mailbox at the start of its
    memory, which the worker shares with the supervisor. The supervisor polls the
    mailboxes, executes the calls and writes the results back.

    The request tables of the platform are those of [Bridge]. *)
From S2P Require Import Prelude Hal Bridge.

Local Open Scope Z_scope.

(** [as i32]. *)
Definition as_i32 (z : Z) : Z := let m := z mod 2 ^ 32 in if m <? 2 ^ 31 then m else m - 2 ^ 32.

(** ** worker.rs *)
Definition STATUS_IDLE : Z := 0.
Definition STATUS_PENDING : Z := 1.
Definition STATUS_READY : Z := 2.

(** The bytes of the data area of a mailbox. *)
Definition MAILBOX_MAX_DATA_LEN : Z := 16356.

(** The word 14 of the mailbox, which holds the process identifier, is byte 28 of
    the data area, which starts at word 7. *)
Definition MAILBOX_PID_OFFSET : Z := 14 * 4 - 28.

Record Mailbox : Type := mk_Mailbox {
  mb_status : Z;
  mb_syscall_num : Z;
  mb_args : Z * Z * Z;
  mb_result : Z;
  mb_data_len : Z;
  mb_data : list byte }.

Definition Mailbox_new : Mailbox := mk_Mailbox STATUS_IDLE 0 (0, 0, 0) 0 0 (replicate (Z.to_nat MAILBOX_MAX_DATA_LEN) x00).

(** Writes bytes at an offset of the data area. *)
Definition overwrite (off : Z) (bytes buf : list byte) : list byte :=
  take (Z.to_nat off) buf ++ bytes ++ drop (Z.to_nat off + length bytes) buf.

Definition set_mb_status (z : Z) (m : Mailbox) : Mailbox :=
  mk_Mailbox z (mb_syscall_num m) (mb_args m) (mb_result m) (mb_data_len m) (mb_data m).
Definition set_mb_result (z : Z) (m : Mailbox) : Mailbox :=
  mk_Mailbox (mb_status m) (mb_syscall_num m) (mb_args m) z (mb_data_len m) (mb_data m).
Definition set_mb_data (n : Z) (bytes : list byte) (m : Mailbox) : Mailbox :=
  mk_Mailbox (mb_status m) (mb_syscall_num m) (mb_args m) (mb_result m) n bytes.

Record WorkerProcess : Type := mk_WorkerProcess {
  wp_name : string;
  wp_alive : bool;
  wp_memory_size : Z;
  wp_worker_id : Z;
  wp_mailbox : Mailbox }.

Record PendingSyscall : Type := mk_PendingSyscall {
  psc_pid : Z;
  psc_num : Z;
  psc_args : Z * Z * Z }.

Inductive WorkerMessageType : Type :=
| WM_Ready (memory_size : Z)
| WM_MemoryUpdate (memory_size : Z)
| WM_Error (message : string)
| WM_Terminated
| WM_Yield.

Record WorkerMessage : Type := mk_WorkerMessage { wm_pid : Z; wm_type : WorkerMessageType }.

(** [ProcessMessageType] of crates/zos-hal. *)
Inductive ProcessMessageType : Type :=
| PM_Init | PM_Syscall | PM_SyscallResult | PM_IpcDeliver | PM_Terminate | PM_Ready | PM_Error.

Definition ProcessMessageType_as_u8 (t : ProcessMessageType) : Z :=
  match t with
  | PM_Init => 0 | PM_Syscall => 1 | PM_SyscallResult => 2 | PM_IpcDeliver => 3
  | PM_Terminate => 4 | PM_Ready => 5 | PM_Error => 6
  end.

(** ** worker.rs: messages as bytes *)
Definition serialize_ready (pid memory_size : Z) : list byte :=
  [byte_of_Z (ProcessMessageType_as_u8 PM_Ready)] ++ u32_to_le_bytes (wrap_u32 pid) ++ u32_to_le_bytes (wrap_u32 memory_size).
Definition serialize_error (pid : Z) (message : string) : list byte :=
  [byte_of_Z (ProcessMessageType_as_u8 PM_Error)] ++ u32_to_le_bytes (wrap_u32 pid) ++ str_bytes message.
Definition serialize_terminated (pid : Z) : list byte :=
  [byte_of_Z (ProcessMessageType_as_u8 PM_Terminate)] ++ u32_to_le_bytes (wrap_u32 pid).
Definition serialize_yield (pid : Z) : list byte := [x07] ++ u32_to_le_bytes (wrap_u32 pid).

Definition serialize_worker_message (msg : WorkerMessage) : list byte :=
  match wm_type msg with
  | WM_Ready memory_size => serialize_ready (wm_pid msg) memory_size
  | WM_Error message => serialize_error (wm_pid msg) message
  | WM_Terminated => serialize_terminated (wm_pid msg)
  | WM_MemoryUpdate memory_size => serialize_ready (wm_pid msg) memory_size
  | WM_Yield => serialize_yield (wm_pid msg)
  end.

(** ** hal/mod.rs

    [wb_clock] holds the readings of [performance.now()] to come, in nanoseconds,
    the last one repeated; [wb_refuse] whether the browser refuses the next
    workers. *)
Record WebHal : Type := mk_WebHal {
  wb_next_pid : Z;
  wb_processes : gmap Z WorkerProcess;
  wb_incoming : list WorkerMessage;
  wb_requests : WasmHal;
  wb_clock : list Z;
  wb_wallclock : Z;
  wb_refuse : list bool }.

Definition WebHal_new (clock : list Z) (wallclock : Z) : WebHal :=
  mk_WebHal 1 ∅ [] WasmHal_new clock wallclock [].

Definition set_wb_processes (m : gmap Z WorkerProcess) (h : WebHal) : WebHal :=
  mk_WebHal (wb_next_pid h) m (wb_incoming h) (wb_requests h) (wb_clock h) (wb_wallclock h) (wb_refuse h).
Definition set_wb_incoming (q : list WorkerMessage) (h : WebHal) : WebHal :=
  mk_WebHal (wb_next_pid h) (wb_processes h) q (wb_requests h) (wb_clock h) (wb_wallclock h) (wb_refuse h).
Definition set_wb_requests (r : WasmHal) (h : WebHal) : WebHal :=
  mk_WebHal (wb_next_pid h) (wb_processes h) (wb_incoming h) r (wb_clock h) (wb_wallclock h) (wb_refuse h).
Definition set_wb_clock (c : list Z) (h : WebHal) : WebHal :=
  mk_WebHal (wb_next_pid h) (wb_processes h) (wb_incoming h) (wb_requests h) c (wb_wallclock h) (wb_refuse h).

(** The order in which the table of workers, a hash map, is iterated. *)
Class HashOrder : Type := {
  iter_order : list (Z * WorkerProcess) -> list (Z * WorkerProcess);
  iter_order_perm l : iter_order l ≡ₚ l }.

#[export] Instance hash_order_id : HashOrder := {| iter_order := fun l => l; iter_order_perm := fun l => Permutation_refl l |}.

Definition pending_of (x : Z * WorkerProcess) : option PendingSyscall :=
  let '(pid, proc) := x in
  if negb (wp_alive proc) then None
  else if wp_worker_id proc =? 0 then None
  else if mb_status (wp_mailbox proc) =? STATUS_PENDING
       then Some (mk_PendingSyscall pid (mb_syscall_num (wp_mailbox proc)) (mb_args (wp_mailbox proc)))
       else None.

Definition hal_poll_syscalls `{HashOrder} (h : WebHal) : list PendingSyscall :=
  omap pending_of (iter_order (btree_iter (wb_processes h))).

(** A worker whose memory the supervisor has. *)
Definition with_worker (pid : Z) (f : WorkerProcess -> WorkerProcess) (h : WebHal) : WebHal :=
  match wb_processes h !! pid with
  | Some proc => if wp_worker_id proc =? 0 then h else set_wb_processes (<[pid := f proc]> (wb_processes h)) h
  | None => h
  end.

Definition on_mailbox (f : Mailbox -> Mailbox) (proc : WorkerProcess) : WorkerProcess :=
  mk_WorkerProcess (wp_name proc) (wp_alive proc) (wp_memory_size proc) (wp_worker_id proc) (f (wp_mailbox proc)).

Definition hal_complete_syscall (pid result : Z) : WebHal -> WebHal :=
  with_worker pid (on_mailbox (fun m => set_mb_status STATUS_READY (set_mb_result result m))).

Definition hal_read_syscall_data (pid : Z) (h : WebHal) : list byte :=
  match wb_processes h !! pid with
  | Some proc =>
      if wp_worker_id proc =? 0 then []
      else
        let data_len := mb_data_len (wp_mailbox proc) in
        if (0 <? data_len) && (data_len <=? MAILBOX_MAX_DATA_LEN)
        then take (Z.to_nat data_len) (mb_data (wp_mailbox proc)) else []
  | None => []
  end.

Definition store_data (data : list byte) (m : Mailbox) : Mailbox :=
  let n := Z.min (len data) MAILBOX_MAX_DATA_LEN in
  set_mb_data n (overwrite 0 (take (Z.to_nat n) data) (mb_data m)) m.

Definition hal_write_syscall_data (pid : Z) (data : list byte) : WebHal -> WebHal :=
  with_worker pid (on_mailbox (store_data data)).

Definition hal_update_process_memory (pid memory_size : Z) (h : WebHal) : WebHal :=
  set_wb_processes (btree_update (fun p => mk_WorkerProcess (wp_name p) (wp_alive p) memory_size
    (wp_worker_id p) (wp_mailbox p)) pid (wb_processes h)) h.

Definition hal_poll_messages (h : WebHal) : list (Z * list byte) * WebHal :=
  ((fun msg => (wm_pid msg, serialize_worker_message msg)) <$> wb_incoming h, set_wb_incoming [] h).

(** ** hal/process.rs *)
Definition spawn_with_pid (pid : Z) (name : string) (_binary : list byte) (h : WebHal)
  : result Z HalError * WebHal :=
  match wb_refuse h with
  | true :: refuse =>
      (Err ProcessSpawnFailed, mk_WebHal (wb_next_pid h) (wb_processes h) (wb_incoming h)
         (wb_requests h) (wb_clock h) (wb_wallclock h) refuse)
  | refuse =>
      let process := mk_WorkerProcess name true 65536 0 Mailbox_new in
      (Ok pid, mk_WebHal (wb_next_pid h) (<[pid := process]> (wb_processes h)) (wb_incoming h)
         (wb_requests h) (wb_clock h) (wb_wallclock h) (drop 1 refuse))
  end.

Definition web_spawn_process (name : string) (binary : list byte) (h : WebHal) : result Z HalError * WebHal :=
  let pid := wb_next_pid h in
  spawn_with_pid pid name binary (mk_WebHal (wrap_u64 (pid + 1)) (wb_processes h) (wb_incoming h)
    (wb_requests h) (wb_clock h) (wb_wallclock h) (wb_refuse h)).

Definition do_kill_process (pid : Z) (h : WebHal) : result unit HalError * WebHal :=
  match wb_processes h !! pid with
  | Some _ => (Ok tt, set_wb_processes (delete pid (wb_processes h)) h)
  | None => (Err HE_ProcessNotFound, h)
  end.

Definition do_is_process_alive (pid : Z) (h : WebHal) : bool :=
  match wb_processes h !! pid with Some proc => wp_alive proc | None => false end.

Definition do_get_process_memory_size (pid : Z) (h : WebHal) : result Z HalError :=
  match wb_processes h !! pid with
  | Some proc => if wp_alive proc then Ok (wp_memory_size proc) else Err HE_ProcessNotFound
  | None => Err HE_ProcessNotFound
  end.

(** The worker has sent the memory it shares, of [memory_size] bytes, with the
    mailbox [mb] at its start. *)
Definition handle_worker_memory (pid worker_id memory_size : Z) (mb : Mailbox) (h : WebHal) : WebHal :=
  let is_update := match wb_processes h !! pid with Some p => negb (wp_worker_id p =? 0) | None => false end in
  let h := set_wb_processes (btree_update (fun p =>
    mk_WorkerProcess (wp_name p) (wp_alive p) memory_size worker_id mb) pid (wb_processes h)) h in
  let msg_type := if is_update then WM_MemoryUpdate memory_size else WM_Ready memory_size in
  set_wb_incoming (wb_incoming h ++ [mk_WorkerMessage pid msg_type]) h.

(** ** The HAL trait on this platform *)
Definition web_now_nanos (h : WebHal) : Z * WebHal :=
  match wb_clock h with
  | [] => (0, h)
  | [t] => (t, h)
  | t :: rest => (t, set_wb_clock rest h)
  end.

(** A request that goes through the tables. *)
Definition requested {T : Type} (f : WasmHal -> T * WasmHal) (h : WebHal) : T * WebHal :=
  let '(r, t) := f (wb_requests h) in (r, set_wb_requests t h).

#[export] Instance HAL_WebHal : HAL WebHal := {|
  ProcessHandle := Z;
  hal_spawn_process := web_spawn_process;
  hal_spawn_process_with_pid := default_spawn_process_with_pid web_spawn_process;
  now_nanos := web_now_nanos;
  wallclock_ms := fun h => (wb_wallclock h, h);
  debug_write := fun _ h => h;
  storage_read_async := fun pid key => requested (do_storage_read_async pid key);
  storage_write_async := fun pid key value => requested (do_storage_write_async pid key value);
  storage_delete_async := fun pid key => requested (do_storage_delete_async pid key);
  storage_list_async := fun pid prefix => requested (do_storage_list_async pid prefix);
  storage_exists_async := fun pid key => requested (do_storage_exists_async pid key);
  keystore_read_async := fun pid key => requested (do_keystore_read_async pid key);
  keystore_write_async := fun pid key value => requested (do_keystore_write_async pid key value);
  keystore_delete_async := fun pid key => requested (do_keystore_delete_async pid key);
  keystore_list_async := fun pid prefix => requested (do_keystore_list_async pid prefix);
  keystore_exists_async := fun pid key => requested (do_keystore_exists_async pid key);
  network_fetch_async := fun pid request => requested (do_network_fetch_async pid request);
  load_binary := fun _ => not_supported |}.

(** ** The worker's end of the mailbox (web/src/workers/mailbox.ts) *)

(** [zos_syscall] up to the wait. *)
Definition worker_call (num a0 a1 a2 : Z) (m : Mailbox) : Mailbox :=
  mk_Mailbox STATUS_PENDING num (a0, a1, a2) (mb_result m) (mb_data_len m) (mb_data m).

(** [zos_syscall] after the wait: the 32-bit result as an [i64]. *)
Definition worker_return (m : Mailbox) : Z * Mailbox := (mb_result m, set_mb_status STATUS_IDLE m).

(** [zos_send_bytes]. *)
Definition worker_send_bytes (bytes : list byte) (m : Mailbox) : Mailbox := store_data bytes m.

(** [zos_recv_bytes]: the bytes it copies out. *)
Definition worker_recv_bytes (max_len : Z) (m : Mailbox) : list byte :=
  take (Z.to_nat (Z.min (mb_data_len m) max_len)) (mb_data m).

(** The worker stores its identifier before it runs, [zos_get_pid] reads it. *)
Definition worker_set_pid (pid : Z) (m : Mailbox) : Mailbox :=
  set_mb_data (mb_data_len m) (overwrite MAILBOX_PID_OFFSET (u32_to_le_bytes (wrap_u32 pid)) (mb_data m)) m.

Definition worker_get_pid (m : Mailbox) : Z :=
  from_le_bytes (take 4 (drop (Z.to_nat MAILBOX_PID_OFFSET) (mb_data m))).
