(* ===== verification/ProcessLib.v ===== *)
(** * The process library (crates/zos-process/src)

    The wrappers through which processes make system calls: syscalls/mod.rs,
    storage.rs, keystore.rs, network.rs, types.rs and the errors of lib.rs. They
    are built on five functions that the host of the process provides; [Host] is
    that interface, [None] standing for a call from which the process does not
    return. *)
From S2P Require Import Prelude StrLib AxiomTypes Hal WebHal.

Local Open Scope Z_scope.

(** [extern "C"]. The bytes that [zos_recv_bytes] writes are its result. *)
Class Host (S : Type) : Type := {
  zos_syscall : Z -> Z -> Z -> Z -> S -> option (Z * S);
  zos_send_bytes : list byte -> S -> S;
  zos_recv_bytes : Z -> S -> list byte * S;
  zos_yield : S -> S;
  zos_get_pid : S -> Z }.

(** Computations of a process. *)
Definition PM (S T : Type) : Type := S -> option (T * S).

#[export] Instance PM_ret {S} : MRet (PM S) := fun _ x s => Some (x, s).
#[export] Instance PM_bind {S} : MBind (PM S) := fun _ _ k m s =>
  match m s with Some (x, s') => k x s' | None => None end.

(** ** lib.rs: errors *)
Definition E_PERM : Z := 1.
Definition E_NOENT : Z := 2.
Definition E_NOSYS : Z := 4.
Definition E_BADF : Z := 7.
Definition E_OVERFLOW : Z := 10.

Inductive RecvError : Type := NoMessage | RE_PermissionDenied | InvalidEndpoint | BufferOverflow | ParseError.

Definition RecvError_from_code (code : Z) : RecvError :=
  if code =? 0 then NoMessage
  else if code =? - E_PERM then RE_PermissionDenied
  else if code =? - E_BADF then InvalidEndpoint
  else if code =? - E_OVERFLOW then BufferOverflow
  else InvalidEndpoint.

(** ** types.rs *)
Record ReceivedMessage : Type := mk_ReceivedMessage {
  rm_from_pid : Z;
  rm_tag : Z;
  rm_cap_slots : list Z;
  rm_data : list byte }.

Record ClientCapInfo : Type := mk_ClientCapInfo {
  ci_slot : Z;
  ci_object_type : Z;
  ci_object_id : Z;
  ci_can_read : bool;
  ci_can_write : bool;
  ci_can_grant : bool }.

Record ProcessInfo : Type := mk_ProcessInfo {
  pi_pid : Z;
  pi_name : string;
  pi_state : Z }.

(** [u32::from_le_bytes] of the bytes at an offset. *)
Definition get_u32 (off : nat) (buf : list byte) : Z := from_le_bytes (take 4 (drop off buf)).
Definition get_u64 (off : nat) (buf : list byte) : Z := from_le_bytes (take 8 (drop off buf)).
Definition get_u16 (off : nat) (buf : list byte) : Z := from_le_bytes (take 2 (drop off buf)).
Definition get_u8 (off : nat) (buf : list byte) : Z := from_le_bytes (take 1 (drop off buf)).

(** ** Parsing of what the kernel returns *)
Fixpoint parse_cap_slots (n : nat) (buf : list byte) : list Z :=
  match n with
  | O => []
  | S n' => get_u32 0 buf :: parse_cap_slots n' (drop 4 buf)
  end.

(** The format of a received message, [buffer] being the bytes received. *)
Definition parse_message (buffer : list byte) : result ReceivedMessage RecvError :=
  if len buffer =? 0 then Err ParseError
  else if len buffer <? 9 then Err ParseError
  else
    let num_caps := get_u8 8 buffer in
    let data_start := 9 + num_caps * 4 in
    if len buffer <? data_start then Err ParseError
    else Ok (mk_ReceivedMessage (get_u32 0 buffer) (get_u32 4 buffer)
               (parse_cap_slots (Z.to_nat num_caps) (drop 9 buffer)) (drop (Z.to_nat data_start) buffer)).

Fixpoint parse_caps (count : nat) (buf : list byte) : list ClientCapInfo :=
  match count with
  | O => []
  | S n =>
      if len buf <? 13 then []
      else mk_ClientCapInfo (get_u32 0 buf) (get_u8 4 buf) (get_u64 5 buf) true true false :: parse_caps n (drop 13 buf)
  end.

Fixpoint parse_procs (count : nat) (buf : list byte) : list ProcessInfo :=
  match count with
  | O => []
  | S n =>
      if len buf <? 6 then []
      else
        let name_len := get_u16 4 buf in
        let rest := drop 6 buf in
        if len rest <? name_len then []
        else
          let name := default "???"%string (from_utf8 (take (Z.to_nat name_len) rest)) in
          mk_ProcessInfo (get_u32 0 buf) name 0 :: parse_procs n (drop (Z.to_nat name_len) rest)
  end.

Section client.
Context {S : Type} `{Host S}.

Definition call_host (num a1 a2 a3 : Z) : PM S Z := zos_syscall num a1 a2 a3.
Definition send_bytes (bytes : list byte) : PM S unit := fun s => Some (tt, zos_send_bytes bytes s).
Definition recv_bytes (max_len : Z) : PM S (list byte) := fun s => Some (zos_recv_bytes max_len s).
Definition yield_now : PM S unit := fun s => Some (tt, zos_yield s).
Definition get_pid : PM S Z := fun s => Some (zos_get_pid s, s).

(** [if result == 0 { Ok(()) } else { Err(result as u32) }]. *)
Definition unit_or_code (r : Z) : result unit Z := if r =? 0 then Ok tt else Err (wrap_u32 r).

(** [if result & 0x80000000 == 0 { Ok(result as u32) } else ..] of an [i64]. *)
Definition slot_or_code (r : Z) : result Z Z :=
  if Z.land r 0x80000000 =? 0 then Ok (wrap_u32 r) else Err (wrap_u32 (Z.land r 0x7FFFFFFF)).

(** ** Basic calls *)
Definition lib_debug (msg : string) : PM S unit :=
  let bytes := str_bytes msg in
  send_bytes bytes ;; call_host SYS_DEBUG (wrap_u32 (len bytes)) 0 0 ;; mret tt.

Definition console_write (text : string) : PM S unit :=
  let bytes := str_bytes text in
  send_bytes bytes ;; call_host SYS_CONSOLE_WRITE (wrap_u32 (len bytes)) 0 0 ;; mret tt.

(** [((high as u64) << 32) | (low as u64)] of two [i64]. *)
Definition join_words (low high : Z) : Z := Z.lor (wrap_u64 (Z.shiftl (wrap_u64 high) 32)) (wrap_u64 low).

Definition get_time : PM S Z :=
  low ← call_host SYS_TIME 0 0 0;
  high ← call_host SYS_TIME 1 0 0;
  mret (join_words low high).

Definition lib_get_wallclock : PM S Z :=
  low ← call_host SYS_WALLCLOCK 0 0 0;
  high ← call_host SYS_WALLCLOCK 1 0 0;
  mret (join_words low high).

Definition lib_kill (target_pid : Z) : PM S (result unit Z) :=
  r ← call_host SYS_KILL target_pid 0 0; mret (unit_or_code r).

(** [exit] makes its call and then yields for ever; [fuel] bounds the turns. *)
Fixpoint yield_loop (fuel : nat) : PM S unit :=
  match fuel with O => mret tt | Datatypes.S n => yield_now ;; yield_loop n end.

Definition lib_exit (fuel : nat) (code : Z) : PM S unit :=
  call_host SYS_EXIT (wrap_u32 code) 0 0 ;; yield_loop fuel.

(** ** Messages *)
Definition lib_send (endpoint_slot tag : Z) (data : list byte) : PM S (result unit Z) :=
  send_bytes data ;;
  r ← call_host SYS_SEND endpoint_slot tag (wrap_u32 (len data));
  mret (unit_or_code r).

Definition lib_receive (endpoint_slot : Z) : PM S (result ReceivedMessage RecvError) :=
  r ← call_host SYS_RECV endpoint_slot 0 0;
  let r := as_i32 r in
  if r <=? 0 then mret (Err (RecvError_from_code r))
  else
    buffer ← recv_bytes 16384;
    mret (parse_message buffer).

Definition receive_opt (endpoint_slot : Z) : PM S (option ReceivedMessage) :=
  r ← lib_receive endpoint_slot;
  mret (match r with Ok m => Some m | Err _ => None end).

(** The polling loops; [None] as a result stands for fuel that ran out. *)
Fixpoint receive_blocking (fuel : nat) (endpoint_slot : Z) : PM S (option (result ReceivedMessage RecvError)) :=
  match fuel with
  | O => mret None
  | Datatypes.S n =>
      r ← lib_receive endpoint_slot;
      match r with
      | Ok msg => mret (Some (Ok msg))
      | Err NoMessage => yield_now ;; receive_blocking n endpoint_slot
      | Err e => mret (Some (Err e))
      end
  end.

Definition send_with_caps (endpoint_slot tag : Z) (data : list byte) (cap_slots : list Z) : PM S (result unit Z) :=
  send_bytes data ;;
  (match cap_slots with [] => mret tt | _ => send_bytes (mjoin (u32_to_le_bytes <$> cap_slots)) end) ;;
  r ← call_host SYS_SEND_CAP endpoint_slot tag
    (Z.lor (wrap_u32 (len data)) (wrap_u32 (Z.shiftl (wrap_u32 (len cap_slots)) 16)));
  mret (unit_or_code r).

Fixpoint call_loop (fuel : nat) (endpoint_slot : Z) : PM S (option ReceivedMessage) :=
  match fuel with
  | O => mret None
  | Datatypes.S n =>
      r ← lib_receive endpoint_slot;
      match r with
      | Ok msg => mret (Some msg)
      | Err _ => yield_now ;; call_loop n endpoint_slot
      end
  end.

Definition lib_call (fuel : nat) (endpoint_slot tag : Z) (data : list byte) : PM S (result (option ReceivedMessage) Z) :=
  r ← lib_send endpoint_slot tag data;
  match r with
  | Err e => mret (Err e)
  | Ok _ => m ← call_loop fuel endpoint_slot; mret (Ok m)
  end.

Definition lib_reply (caller_pid tag : Z) (data : list byte) : PM S (result unit Z) :=
  send_bytes data ;;
  r ← call_host SYS_REPLY caller_pid tag (wrap_u32 (len data));
  mret (unit_or_code r).

(** ** Capabilities *)
Definition cap_grant (from_slot to_pid : Z) (perms : Permissions) : PM S (result Z Z) :=
  r ← call_host SYS_CAP_GRANT from_slot to_pid (to_byte perms); mret (slot_or_code r).

Definition cap_revoke (slot : Z) : PM S (result unit Z) :=
  r ← call_host SYS_CAP_REVOKE slot 0 0; mret (unit_or_code r).

Definition cap_revoke_from (target_pid slot : Z) : PM S (result unit Z) :=
  r ← call_host SYS_CAP_REVOKE target_pid slot 0; mret (unit_or_code r).

Definition cap_delete (slot : Z) : PM S (result unit Z) :=
  r ← call_host SYS_CAP_DELETE slot 0 0; mret (unit_or_code r).

Definition cap_inspect (slot : Z) : PM S (option ClientCapInfo) :=
  r ← call_host SYS_CAP_INSPECT slot 0 0;
  if r =? 0 then mret None
  else
    buffer ← recv_bytes 32;
    if len buffer <? 16 then mret None
    else
      let perms := get_u8 1 buffer in
      mret (Some (mk_ClientCapInfo slot (get_u8 0 buffer) (get_u64 8 buffer)
        (negb (Z.land perms 0x01 =? 0)) (negb (Z.land perms 0x02 =? 0)) (negb (Z.land perms 0x04 =? 0)))).

Definition cap_derive (slot : Z) (new_perms : Permissions) : PM S (result Z Z) :=
  r ← call_host SYS_CAP_DERIVE slot (to_byte new_perms) 0; mret (slot_or_code r).

(** The packed result of the calls that create endpoints. *)
Definition unpack_endpoint (r : Z) : Z * Z := (Z.land r 0xFFFFFFFF, wrap_u32 (Z.shiftr r 32)).

Definition lib_create_endpoint : PM S (result (Z * Z) Z) :=
  r ← call_host SYS_CREATE_ENDPOINT 0 0 0;
  mret (if 0 <=? r then Ok (unpack_endpoint r) else Err (wrap_u32 (- r))).

(** ** Calls of Init *)
Definition lib_register_process (name : string) : PM S (result Z Z) :=
  let bytes := str_bytes name in
  send_bytes bytes ;;
  r ← call_host SYS_REGISTER_PROCESS (wrap_u32 (len bytes)) 0 0;
  let r := as_i32 r in
  mret (if 0 <=? r then Ok (wrap_u32 r) else Err E_PERM).

Definition lib_create_endpoint_for (target_pid : Z) : PM S (result (Z * Z) Z) :=
  r ← call_host SYS_CREATE_ENDPOINT_FOR target_pid 0 0;
  mret (if 0 <=? r then Ok (unpack_endpoint r) else Err E_PERM).

Definition lib_load_binary (name : string) : PM S (result (list byte) Z) :=
  let bytes := str_bytes name in
  send_bytes bytes ;;
  r ← call_host SYS_LOAD_BINARY (wrap_u32 (len bytes)) 0 0;
  let r := as_i32 r in
  if r <? 0 then mret (Err r)
  else
    buffer ← recv_bytes r;
    mret (Ok buffer).

(** [[name_len: u32, name, rest]]. *)
Definition length_prefixed (key rest : list byte) : list byte := u32_to_le_bytes (wrap_u32 (len key)) ++ key ++ rest.

Definition lib_spawn_process (name : string) (binary : list byte) : PM S (result Z Z) :=
  let payload := length_prefixed (str_bytes name) binary in
  send_bytes payload ;;
  r ← call_host SYS_SPAWN_PROCESS (wrap_u32 (len payload)) 0 0;
  let r := as_i32 r in
  mret (if r <? 0 then Err r else Ok (wrap_u32 r)).

(** ** Introspection *)
Definition lib_list_caps : PM S (list ClientCapInfo) :=
  r ← call_host SYS_CAP_LIST 0 0 0;
  if negb (r =? 0) then mret []
  else
    buffer ← recv_bytes 4096;
    if len buffer <? 4 then mret []
    else mret (parse_caps (Z.to_nat (get_u32 0 buffer)) (drop 4 buffer)).

Definition lib_list_processes : PM S (list ProcessInfo) :=
  r ← call_host SYS_PS 0 0 0;
  if negb (r =? 0) then mret []
  else
    buffer ← recv_bytes 4096;
    if len buffer <? 4 then mret []
    else mret (parse_procs (Z.to_nat (get_u32 0 buffer)) (drop 4 buffer)).

(** ** storage.rs, keystore.rs and network.rs *)

(** A request whose payload is a key: its number, or the negative result. *)
Definition key_call (num : Z) (key : string) : PM S (result Z Z) :=
  let bytes := str_bytes key in
  send_bytes bytes ;;
  r ← call_host num (wrap_u32 (len bytes)) 0 0;
  mret (if 0 <=? r then Ok r else Err r).

Definition key_value_call (num : Z) (key : string) (value : list byte) : PM S (result Z Z) :=
  let bytes := str_bytes key in
  send_bytes (length_prefixed bytes value) ;;
  r ← call_host num (wrap_u32 (len bytes)) (wrap_u32 (len value)) 0;
  mret (if 0 <=? r then Ok r else Err r).

Definition batch_payload (items : list (string * list byte)) : list byte :=
  u32_to_le_bytes (wrap_u32 (len items)) ++
  mjoin ((fun kv : string * list byte =>
    u32_to_le_bytes (wrap_u32 (len (str_bytes kv.1))) ++ str_bytes kv.1 ++
    u32_to_le_bytes (wrap_u32 (len kv.2)) ++ kv.2) <$> items).

Definition lib_storage_batch_write_async (items : list (string * list byte)) : PM S (result Z Z) :=
  send_bytes (batch_payload items) ;;
  r ← call_host SYS_STORAGE_BATCH_WRITE (wrap_u32 (len items)) 0 0;
  mret (if 0 <=? r then Ok r else Err r).

Definition lib_storage_read_async : string -> PM S (result Z Z) := key_call SYS_STORAGE_READ.
Definition lib_storage_write_async : string -> list byte -> PM S (result Z Z) := key_value_call SYS_STORAGE_WRITE.
Definition lib_storage_delete_async : string -> PM S (result Z Z) := key_call SYS_STORAGE_DELETE.
Definition lib_storage_list_async : string -> PM S (result Z Z) := key_call SYS_STORAGE_LIST.
Definition lib_storage_exists_async : string -> PM S (result Z Z) := key_call SYS_STORAGE_EXISTS.
Definition lib_keystore_read_async : string -> PM S (result Z Z) := key_call SYS_KEYSTORE_READ.
Definition lib_keystore_write_async : string -> list byte -> PM S (result Z Z) := key_value_call SYS_KEYSTORE_WRITE.
Definition lib_keystore_delete_async : string -> PM S (result Z Z) := key_call SYS_KEYSTORE_DELETE.
Definition lib_keystore_list_async : string -> PM S (result Z Z) := key_call SYS_KEYSTORE_LIST.
Definition lib_keystore_exists_async : string -> PM S (result Z Z) := key_call SYS_KEYSTORE_EXISTS.

Definition lib_network_fetch_async (request_json : list byte) : PM S (result Z Z) :=
  send_bytes request_json ;;
  r ← call_host SYS_NETWORK_FETCH (wrap_u32 (len request_json)) 0 0;
  mret (if 0 <=? r then Ok r else Err r).
End client.
