(* ===== verification/AppFramework.v ===== *)
(** * The library as its clients see it

    Services and applications use the client library through the calls of this
    file. [Sys] is the interface: one function that answers a call. It has two
    implementations: the library itself over the host of a process, and a recorder
    whose state is the history of the calls, newest first, and whose answers come
    from an environment that may depend on all of it. Theorems about what a program
    does are stated on the recorder; the library makes the same program run on the
    system. *)
From S2P Require Import Prelude StrLib AxiomTypes ProcessLib.

Local Open Scope Z_scope.

Inductive KeystoreCall : Type :=
| Ks_read (key : string)
| Ks_write (key : string) (value : list byte)
| Ks_delete (key : string)
| Ks_list (prefix : string)
| Ks_exists (key : string).

Inductive LibCall : Type :=
| L_debug (msg : string)
| L_console_write (text : string)
| L_get_pid
| L_get_time
| L_get_wallclock
| L_yield
| L_send (slot tag : Z) (data : list byte)
| L_receive (slot : Z)
| L_cap_grant (from_slot to_pid : Z) (perms : Permissions)
| L_cap_revoke_from (target_pid slot : Z)
| L_cap_delete (slot : Z)
| L_exit (code : Z)
| L_list_caps
| L_list_processes
| L_keystore (c : KeystoreCall)
| L_network_fetch (request : list byte).

(** What each call returns. *)
Definition lib_answer (c : LibCall) : Type :=
  match c with
  | L_debug _ | L_console_write _ | L_yield | L_exit _ => unit
  | L_get_pid | L_get_time | L_get_wallclock => Z
  | L_send _ _ _ | L_cap_revoke_from _ _ | L_cap_delete _ => result unit Z
  | L_receive _ => result ReceivedMessage RecvError
  | L_list_caps => list ClientCapInfo
  | L_list_processes => list ProcessInfo
  | L_cap_grant _ _ _ | L_keystore _ | L_network_fetch _ => result Z Z
  end.

Class Sys (S : Type) : Type := sys_call : forall c : LibCall, PM S (lib_answer c).

(** ** The library *)
Definition keystore_call {S} `{Host S} (c : KeystoreCall) : PM S (result Z Z) :=
  match c with
  | Ks_read key => lib_keystore_read_async key
  | Ks_write key value => lib_keystore_write_async key value
  | Ks_delete key => lib_keystore_delete_async key
  | Ks_list prefix => lib_keystore_list_async prefix
  | Ks_exists key => lib_keystore_exists_async key
  end.

#[export] Instance host_sys {S} `{Host S} : Sys S := fun c =>
  match c with
  | L_debug msg => lib_debug msg
  | L_console_write text => console_write text
  | L_get_pid => get_pid
  | L_get_time => get_time
  | L_get_wallclock => lib_get_wallclock
  | L_yield => yield_now
  | L_send slot tag data => lib_send slot tag data
  | L_receive slot => lib_receive slot
  | L_cap_grant from_slot to_pid perms => cap_grant from_slot to_pid perms
  | L_cap_revoke_from target_pid slot => cap_revoke_from target_pid slot
  | L_cap_delete slot => cap_delete slot
  | L_exit code => lib_exit 0 code
  | L_list_caps => lib_list_caps
  | L_list_processes => lib_list_processes
  | L_keystore k => keystore_call k
  | L_network_fetch request => lib_network_fetch_async request
  end.

(** ** The recorder *)
Definition LibEnv : Type := forall c : LibCall, list LibCall -> lib_answer c.

Definition recorder (env : LibEnv) : Sys (list LibCall) := fun c h => Some (env c h, c :: h).

(** An environment in which every call succeeds with the same numbers. *)
Definition quiet_env : LibEnv := fun c _ =>
  match c with
  | L_debug _ | L_console_write _ | L_yield | L_exit _ => tt
  | L_get_pid | L_get_time | L_get_wallclock => 0
  | L_send _ _ _ | L_cap_revoke_from _ _ | L_cap_delete _ => Ok tt
  | L_receive _ => Err NoMessage
  | L_list_caps => []
  | L_list_processes => []
  | L_cap_grant _ _ _ | L_keystore _ | L_network_fetch _ => Ok 5
  end.

(** * Application framework (crates/zos-apps/src/framework: app.rs, error.rs, runtime.rs)

    Services and applications implement the trait [ZeroApp]; [AppRuntime] runs
    them inside a process, over the library. A method on [&mut self] that
    makes system calls is a computation on the state [A] of the application and
    the state [S] of its host. [run] never returns in the source; here it is given
    the number of turns of the event loop, and the loop that polls for messages the
    number of polls. *)

Local Open Scope Z_scope.

(** ** Contexts and messages *)
Record UserContext : Type := mk_UserContext {
  uc_user_id : option Z; uc_session_id : option Z; uc_display_name : option string }.

Definition UserContext_system : UserContext := mk_UserContext None None None.

Record AppContext : Type := mk_AppContext {
  ctx_pid : Z;
  ctx_uptime_ns : Z;
  ctx_wallclock_ms : Z;
  ctx_ui_endpoint : option Z;
  ctx_input_endpoint : option Z;
  ctx_user : UserContext;
  ctx_app_id : string }.

Definition under (dir : string) (ctx : AppContext) (kind : string) : string :=
  (match uc_user_id (ctx_user ctx) with
   | Some id => "/home/" +:+ pretty id +:+ "/Apps/"
   | None => dir
   end) +:+ ctx_app_id ctx +:+ kind.

Definition data_dir (ctx : AppContext) : string := under "/system/apps/" ctx "/data".
Definition config_dir (ctx : AppContext) : string := under "/system/apps/" ctx "/config".
Definition cache_dir (ctx : AppContext) : string := under "/tmp/apps/" ctx "/cache".

Definition home_dir (ctx : AppContext) : option string :=
  (fun id => "/home/" +:+ pretty id) <$> uc_user_id (ctx_user ctx).

Inductive ControlFlow : Type := CF_Continue | CF_Exit (code : Z) | CF_Yield.

Record AppMessage : Type := mk_AppMessage {
  am_tag : Z; am_from_pid : Z; am_cap_slots : list Z; am_data : list byte }.

Inductive AppError : Type :=
| InitFailed (reason : string)
| MissingCapability (object_type : Z)
| IpcError (reason : string)
| ProtocolErr
| Internal (reason : string).

(** ** Computations of an application *)
Definition AppM (A S T : Type) : Type := PM (A * S) T.

Section monad.
Context {A S : Type}.

(** A computation of the library. *)
Definition lift {T : Type} (m : PM S T) : AppM A S T := fun st =>
  match m st.2 with Some (x, s) => Some (x, (st.1, s)) | None => None end.

Definition call `{Sys S} (c : LibCall) : AppM A S (lib_answer c) := lift (sys_call c).

Definition self : AppM A S A := fun st => Some (st.1, st).

Definition modify (f : A -> A) : AppM A S unit := fun st => Some (tt, (f st.1, st.2)).
End monad.

(** A call from which the process does not return. *)
Definition never {A S T : Type} : AppM A S T := fun _ => None.

(** ** Registration of a service with Init *)
Definition OUTPUT_ENDPOINT_SLOT : Z := 0.
Definition INPUT_ENDPOINT_SLOT : Z := 1.
Definition INIT_ENDPOINT_SLOT : Z := 2.
Definition MSG_REGISTER_SERVICE : Z := 0x1000.

(** [[name_len: u8, name, 0u32, 0u32]]. *)
Definition registration (name : string) : list byte :=
  byte_of_Z (str_len name) :: str_bytes name ++ u32_to_le_bytes 0 ++ u32_to_le_bytes 0.

(** The trait. *)
Class ZeroApp (A : Type) : Type := {
  app_init : forall {S : Type} `{Sys S}, AppContext -> AppM A S (result unit AppError);
  app_update : forall {S : Type} `{Sys S}, AppContext -> AppM A S ControlFlow;
  app_on_message : forall {S : Type} `{Sys S}, AppContext -> AppMessage -> AppM A S (result unit AppError);
  app_shutdown : forall {S : Type} `{Sys S}, AppContext -> AppM A S unit }.

(** ** The runtime *)
Record AppRuntime : Type := mk_AppRuntime {
  ar_pid : Z;
  ar_ui_slot : option Z;
  ar_input_slot : option Z;
  ar_last_update_ns : Z;
  ar_update_interval_ns : Z;
  ar_user_context : UserContext;
  ar_app_id : string }.

Definition DEFAULT_UPDATE_INTERVAL_NS : Z := 16666667.

Definition set_last_update (t : Z) (r : AppRuntime) : AppRuntime :=
  mk_AppRuntime (ar_pid r) (ar_ui_slot r) (ar_input_slot r) t (ar_update_interval_ns r) (ar_user_context r)
    (ar_app_id r).

Definition set_ui_endpoint (slot : Z) (r : AppRuntime) : AppRuntime :=
  mk_AppRuntime (ar_pid r) (Some slot) (ar_input_slot r) (ar_last_update_ns r) (ar_update_interval_ns r)
    (ar_user_context r) (ar_app_id r).

Definition set_input_endpoint (slot : Z) (r : AppRuntime) : AppRuntime :=
  mk_AppRuntime (ar_pid r) (ar_ui_slot r) (Some slot) (ar_last_update_ns r) (ar_update_interval_ns r)
    (ar_user_context r) (ar_app_id r).

Definition set_update_interval_ms (ms : Z) (r : AppRuntime) : AppRuntime :=
  mk_AppRuntime (ar_pid r) (ar_ui_slot r) (ar_input_slot r) (ar_last_update_ns r) (u64_mul ms 1000000)
    (ar_user_context r) (ar_app_id r).

Section runtime.
Context {A S : Type} `{ZeroApp A} `{Sys S}.

Definition AppRuntime_new : PM S AppRuntime :=
  pid ← sys_call L_get_pid;
  mret (mk_AppRuntime pid None None 0 DEFAULT_UPDATE_INTERVAL_NS UserContext_system EmptyString).

(** [app_main!]: the runtime of a process, with the two endpoints of its slots. *)
Definition app_main (app_id : string) : PM S AppRuntime :=
  r ← AppRuntime_new;
  let r := mk_AppRuntime (ar_pid r) (ar_ui_slot r) (ar_input_slot r) (ar_last_update_ns r) (ar_update_interval_ns r)
    (ar_user_context r) app_id in
  mret (set_input_endpoint INPUT_ENDPOINT_SLOT (set_ui_endpoint OUTPUT_ENDPOINT_SLOT r)).

Definition build_context (r : AppRuntime) : PM S AppContext :=
  uptime ← sys_call L_get_time;
  wallclock ← sys_call L_get_wallclock;
  mret (mk_AppContext (ar_pid r) uptime wallclock (ar_ui_slot r) (ar_input_slot r) (ar_user_context r) (ar_app_id r)).

(** [while let Ok(msg) = syscall::receive(slot)]: [true] when the queue was found
    empty within [polls] polls. Errors of [on_message] are logged. *)
Fixpoint poll_messages (polls : nat) (ctx : AppContext) (slot : Z) : AppM A S bool :=
  match polls with
  | O => mret false
  | Datatypes.S n =>
      r ← call (L_receive slot);
      match r with
      | Err _ => mret true
      | Ok m =>
          app_on_message ctx (mk_AppMessage (rm_tag m) (rm_from_pid m) (rm_cap_slots m) (rm_data m)) ;;
          poll_messages n ctx slot
      end
  end.

(** One turn of the event loop: [Some code] when the application exits. *)
Definition run_turn (polls : nat) (r : AppRuntime) : AppM A S (option Z * AppRuntime) :=
  ctx ← lift (build_context r);
  match ar_input_slot r with
  | Some slot => poll_messages polls ctx slot ;; mret tt
  | None => mret tt
  end ;;
  if ar_update_interval_ns r <=? wrap_u64 (ctx_uptime_ns ctx - ar_last_update_ns r) then
    let r := set_last_update (ctx_uptime_ns ctx) r in
    flow ← app_update ctx;
    match flow with
    | CF_Continue => mret (None, r)
    | CF_Yield => call L_yield ;; mret (None, r)
    | CF_Exit code => app_shutdown ctx ;; mret (Some code, r)
    end
  else call L_yield ;; mret (None, r).

Fixpoint run_turns (turns polls : nat) (r : AppRuntime) : AppM A S (option Z * AppRuntime) :=
  match turns with
  | O => mret (None, r)
  | Datatypes.S n =>
      x ← run_turn polls r;
      match x with
      | (Some code, r) => mret (Some code, r)
      | (None, r) => run_turns n polls r
      end
  end.

(** [run]: the exit code, [1] when the application does not start. *)
Definition run (turns polls : nat) (r : AppRuntime) : AppM A S (option Z) :=
  ctx ← lift (build_context r);
  i ← app_init ctx;
  match i with
  | Err _ => mret (Some 1)
  | Ok _ => x ← run_turns turns polls r; mret x.1
  end.
End runtime.

(** * Runs of a service in any environment

    A weakest precondition for computations of an application over the recorder,
    total: it excludes computations that do not return. [run_invariant] lifts an
    invariant of the messages of a service to the whole event loop of the
    framework, whatever the environment answers. *)

Local Open Scope Z_scope.

Abbreviation History := (list LibCall) (only parsing).

Section wp.
Context (env : LibEnv) {A : Type}.

Definition wp {T} (m : AppM A History T) (Q : T -> A -> History -> Prop) (a : A) (h : History) : Prop :=
  match m (a, h) with Some (x, (a', h')) => Q x a' h' | None => False end.

Lemma awp_ret {T} (x : T) Q a h : Q x a h -> wp (mret x) Q a h.
Proof. done. Qed.

Lemma awp_bind {T U} (m : AppM A History T) (k : T -> AppM A History U) Q a h :
  wp m (fun x => wp (k x) Q) a h -> wp (m ≫= k) Q a h.
Proof. unfold wp, mbind, PM_bind. by destruct (m (a, h)) as [[x [a' h']]|]. Qed.

Lemma wp_call c (Q : lib_answer c -> A -> History -> Prop) a h :
  Q (env c h) a (c :: h) -> wp (call (H := recorder env) c) Q a h.
Proof. done. Qed.

Lemma wp_sys_call c (Q : lib_answer c -> A -> History -> Prop) a h :
  Q (env c h) a (c :: h) -> wp (lift (sys_call (Sys := recorder env) c)) Q a h.
Proof. done. Qed.

Lemma wp_self (Q : A -> A -> History -> Prop) a h : Q a a h -> wp self Q a h.
Proof. done. Qed.

Lemma wp_modify f (Q : unit -> A -> History -> Prop) a h : Q tt (f a) h -> wp (modify f) Q a h.
Proof. done. Qed.

Lemma awp_mono {T} (m : AppM A History T) (Q Q' : T -> A -> History -> Prop) a h :
  wp m Q a h -> (forall x a' h', Q x a' h' -> Q' x a' h') -> wp m Q' a h.
Proof. unfold wp. destruct (m (a, h)) as [[x [a' h']]|]; auto. Qed.

Lemma wp_lift_bind {T U} (m : PM History T) (k : T -> PM History U) (Q : U -> A -> History -> Prop) a h :
  wp (lift m) (fun x => wp (lift (k x)) Q) a h -> wp (lift (m ≫= k)) Q a h.
Proof. unfold wp, lift, mbind, PM_bind. simpl. by destruct (m h) as [[x h']|]. Qed.

Lemma wp_lift_ret {T} (x : T) (Q : T -> A -> History -> Prop) a h : Q x a h -> wp (lift (mret x)) Q a h.
Proof. done. Qed.
End wp.

Ltac wp_step :=
  lazymatch goal with
  | |- wp (_ ≫= _) _ _ _ => apply awp_bind
  | |- wp (lift (_ ≫= _)) _ _ _ => apply wp_lift_bind
  | |- wp (lift (mret _)) _ _ _ => apply wp_lift_ret
  | |- wp (lift (sys_call ?c)) _ _ _ => refine (wp_sys_call _ c _ _ _ _)
  | |- wp (mret _) _ _ _ => apply awp_ret
  | |- wp (call ?c) _ _ _ => refine (wp_call _ c _ _ _ _)
  | |- wp self _ _ _ => apply wp_self
  | |- wp (modify _) _ _ _ => apply wp_modify
  | |- wp (match ?x with _ => _ end) _ _ _ => destruct x eqn:?
  | |- wp (lift (match ?x with _ => _ end)) _ _ _ => destruct x eqn:?
  | |- wp (let _ := _ in _) _ _ _ => cbv zeta
  end.

(** ** Sizes of tables *)
Lemma map_size_insert_le {V} (m : gmap Z V) i x : (size (<[i := x]> m) <= S (size m))%nat.
Proof. rewrite map_size_insert. destruct (m !! i); simpl; lia. Qed.

Lemma map_size_delete_le {V} (m : gmap Z V) i : (size (delete i m) <= size m)%nat.
Proof. rewrite map_size_delete. destruct (m !! i); simpl; lia. Qed.

(** ** What a history tells *)

(** The call [c] was made and answered with [x]. *)
Definition happened (env : LibEnv) (c : LibCall) (x : lib_answer c) (h : History) : Prop :=
  exists h0, (c :: h0) `suffix_of` h /\ env c h0 = x.

Definition app_message (m : ReceivedMessage) : AppMessage :=
  mk_AppMessage (rm_tag m) (rm_from_pid m) (rm_cap_slots m) (rm_data m).

(** The message [m] was received on the endpoint of a slot. *)
Definition received (env : LibEnv) (slot : Z) (m : AppMessage) (h : History) : Prop :=
  exists m0, app_message m0 = m /\ happened env (L_receive slot) (Ok m0) h.

Lemma happened_mono env c x h h' : happened env c x h -> h `suffix_of` h' -> happened env c x h'.
Proof. intros (h0 & Hs & E) Hh. exists h0. split; [by trans h|done]. Qed.

Lemma happened_here env c h : happened env c (env c h) (c :: h).
Proof. by exists h. Qed.

Lemma happened_cons env c x c' h : happened env c x h -> happened env c x (c' :: h).
Proof. intros Hh. eapply happened_mono; [done|]. by apply suffix_cons_r. Qed.

Lemma received_mono env slot m h h' : received env slot m h -> h `suffix_of` h' -> received env slot m h'.
Proof. intros (m0 & E & Hh) Hs. exists m0. eauto using happened_mono. Qed.

Lemma msg_received_cons env slot m c h : received env slot m h -> received env slot m (c :: h).
Proof. intros Hh. eapply received_mono; [done|]. by apply suffix_cons_r. Qed.

Lemma received_here (env : LibEnv) slot m h : env (L_receive slot) h = Ok m -> received env slot (app_message m) (L_receive slot :: h).
Proof. intros E. exists m. split; [done|]. exists h. by rewrite E. Qed.

(** Every call of a history satisfies [P] of the history before it. *)
Fixpoint traced (P : LibCall -> History -> Prop) (h : History) : Prop :=
  match h with [] => True | c :: h' => P c h' /\ traced P h' end.

Lemma traced_suffix P h c h' : traced P h -> (c :: h') `suffix_of` h -> P c h'.
Proof.
  induction h as [|c0 h IH]; intros Ht Hs; [by apply suffix_nil_inv in Hs|]. destruct Ht as [Hp Ht].
  apply suffix_cons_inv in Hs as [[= -> ->]|Hs]; [done|auto].
Qed.

Create HintDb history.
#[export] Hint Resolve happened_cons msg_received_cons happened_here received_here : history.

(** ** The event loop *)
Definition runtime_call (slot : Z) (c : LibCall) : Prop :=
  match c with L_get_time | L_get_wallclock | L_yield => True | L_receive s => s = slot | _ => False end.

(** What an invariant of a service needs. *)
Record AppInvariant (env : LibEnv) {A : Type} `{ZeroApp A} (slot : Z) (I : A -> History -> Prop) : Prop := {
  inv_runtime : forall c a h, runtime_call slot c -> I a h -> I a (c :: h);
  inv_update : forall ctx a h, I a h -> wp (app_update (H := recorder env) ctx) (fun _ => I) a h;
  inv_shutdown : forall ctx a h, I a h -> wp (app_shutdown (H := recorder env) ctx) (fun _ => I) a h;
  inv_message : forall ctx m a h, I a h -> env (L_receive slot) h = Ok m ->
    wp (app_on_message (H := recorder env) ctx (app_message m)) (fun _ => I) a (L_receive slot :: h) }.

Section loop.
Context (env : LibEnv) {A : Type} `{ZeroApp A} {slot : Z} {I : A -> History -> Prop} (HI : AppInvariant env slot I).

Lemma build_context_inv r a h (Q : AppContext -> A -> History -> Prop) :
  I a h -> (forall ctx h', I a h' -> Q ctx a h') -> wp (lift (build_context (H0 := recorder env) r)) Q a h.
Proof.
  intros Hi HQ. unfold build_context. repeat wp_step. apply HQ. by repeat apply (inv_runtime env slot I HI).
Qed.

Lemma poll_messages_inv polls ctx a h :
  I a h -> wp (poll_messages (H0 := recorder env) polls ctx slot) (fun _ => I) a h.
Proof.
  revert a h. induction polls as [|n IH]; intros a h Hi; [done|]. cbn [poll_messages]. do 2 wp_step.
  assert (I a (L_receive slot :: h)) as Hi' by by apply (inv_runtime env slot I HI).
  destruct (env (L_receive slot) h) as [m|e] eqn:E; [|done]. apply awp_bind.
  eapply awp_mono; [by apply (inv_message env slot I HI)|auto].
Qed.

Lemma run_turn_inv polls r a h :
  ar_input_slot r = Some slot -> I a h ->
  wp (run_turn (H0 := recorder env) polls r) (fun x a h => ar_input_slot x.2 = Some slot /\ I a h) a h.
Proof.
  intros Hs Hi. unfold run_turn. apply awp_bind, build_context_inv; [done|]. intros ctx h1 Hi1. rewrite Hs.
  apply awp_bind. apply awp_bind. eapply awp_mono; [by apply poll_messages_inv|].
  intros x a2 h2 Hi2. cbv beta in Hi2. apply awp_ret. destruct (_ <=? _).
  - apply awp_bind. eapply awp_mono; [by apply (inv_update env slot I HI)|]. intros [|code|] a3 h3 Hi3.
    + by apply awp_ret.
    + apply awp_bind. eapply awp_mono; [by apply (inv_shutdown env slot I HI)|]. done.
    + repeat wp_step. split; [done|]. by apply (inv_runtime env slot I HI).
  - repeat wp_step. split; [done|]. by apply (inv_runtime env slot I HI).
Qed.

Lemma run_turns_inv turns polls r a h :
  ar_input_slot r = Some slot -> I a h -> wp (run_turns (H0 := recorder env) turns polls r) (fun _ => I) a h.
Proof.
  revert r a h. induction turns as [|n IH]; intros r a h Hs Hi; [done|]. cbn [run_turns]. apply awp_bind.
  eapply awp_mono; [by apply run_turn_inv|]. intros [[code|] r'] a' h' [Hs' Hi']; [done|]. by apply IH.
Qed.

(** Every run of the service that starts well returns, and keeps the invariant. *)
Lemma run_invariant turns polls r a :
  ar_input_slot r = Some slot ->
  (forall ctx, wp (app_init (H := recorder env) ctx) (fun _ => I) a [L_get_wallclock; L_get_time]) ->
  wp (run (H0 := recorder env) turns polls r) (fun _ => I) a [].
Proof.
  intros Hs Hi. unfold run, build_context. do 6 wp_step. apply awp_bind.
  eapply awp_mono; [apply Hi|]. intros [u|e] a2 h2 Hi2; [|done].
  apply awp_bind. eapply awp_mono; [by apply run_turns_inv|]. done.
Qed.

Lemma run_exists turns polls r a :
  ar_input_slot r = Some slot ->
  (forall ctx, wp (app_init (H := recorder env) ctx) (fun _ => I) a [L_get_wallclock; L_get_time]) ->
  exists x a' h, run (H0 := recorder env) turns polls r (a, []) = Some (x, (a', h)) /\ I a' h.
Proof.
  intros Hs Hi. pose proof (run_invariant turns polls r a Hs Hi) as Hw. unfold wp in Hw.
  destruct (run _ _ _ _) as [[x [a' h]]|]; [by exists x, a', h|done].
Qed.
End loop.

(** The runtime of a service process, [app_main!]. *)
Definition service_runtime (pid : Z) (app_id : string) : AppRuntime :=
  mk_AppRuntime pid (Some OUTPUT_ENDPOINT_SLOT) (Some INPUT_ENDPOINT_SLOT) 0 DEFAULT_UPDATE_INTERVAL_NS
    UserContext_system app_id.

Lemma service_runtime_ok env app_id h :
  app_main (H0 := recorder env) app_id h = Some (service_runtime (env L_get_pid h) app_id, L_get_pid :: h).
Proof. reflexivity. Qed.
