(* ===== verification/Permission.v ===== *)
(** * Permission service (crates/zos-services/src/services/permission/mod.rs)

    The service keeps a table of the capabilities it has handed out, keyed by
    process and object type, and hands out copies of three root capabilities with
    the system call [cap_grant]. The key [(pid, object_type)] of the BTreeMap is
    the number [256 * pid + object_type], which has the same order. Log lines are
    left out; the PERMSVC lines of its protocol are kept. *)
From S2P Require Import Prelude StrLib AxiomTypes ProcessLib AppFramework.

Local Open Scope Z_scope.

Definition MSG_REQUEST_CAPABILITY : Z := 0x2010.
Definition MSG_REVOKE_CAPABILITY : Z := 0x2011.
Definition MSG_LIST_MY_CAPS : Z := 0x2012.
Definition MSG_CAPABILITY_RESPONSE : Z := 0x2013.
Definition MSG_CAPS_LIST_RESPONSE : Z := 0x2014.
Definition MSG_PS_REVOKE_CAP : Z := 0x2020.

(** [ObjectType] of zos-ipc by its discriminant, and its name. *)
Definition ipc_object_type (v : Z) : option Z := if (1 <=? v) && (v <=? 11) then Some v else None.

Definition object_name (v : Z) : string :=
  match v with
  | 1 => "Endpoint" | 2 => "Process" | 3 => "Memory" | 4 => "IRQ" | 5 => "I/O Port" | 6 => "Console"
  | 7 => "Storage" | 8 => "Network" | 9 => "Filesystem" | 10 => "Identity" | _ => "Keystore"
  end.

Record GrantedCap : Type := mk_GrantedCap { gc_slot : Z; gc_permissions : Z; gc_reason : string }.

Record PermissionService : Type := mk_PermissionService {
  ps_granted_caps : gmap Z GrantedCap;
  ps_console_cap_slot : option Z;
  ps_spawn_cap_slot : option Z;
  ps_endpoint_cap_slot : option Z }.

Definition PermissionService_default : PermissionService := mk_PermissionService ∅ None None None.

Definition cap_key (pid object_type : Z) : Z := 256 * pid + object_type.

Definition set_granted (m : gmap Z GrantedCap) (p : PermissionService) : PermissionService :=
  mk_PermissionService m (ps_console_cap_slot p) (ps_spawn_cap_slot p) (ps_endpoint_cap_slot p).

Definition record_grant (target_pid object_type slot permissions : Z) (reason : string) (p : PermissionService)
  : PermissionService :=
  set_granted (<[cap_key target_pid object_type := mk_GrantedCap slot permissions reason]> (ps_granted_caps p)) p.

Definition remove_grant (target_pid object_type : Z) (p : PermissionService) : PermissionService :=
  set_granted (delete (cap_key target_pid object_type) (ps_granted_caps p)) p.

Definition get_grant (target_pid object_type : Z) (p : PermissionService) : option GrantedCap :=
  ps_granted_caps p !! cap_key target_pid object_type.

(** The entries of a process with their object types, in order of the types. *)
Definition list_grants (pid : Z) (p : PermissionService) : list (Z * GrantedCap) :=
  omap (fun '(key, cap) =>
    if key / 256 =? pid then (fun ot => (ot, cap)) <$> ipc_object_type (key mod 256) else None)
    (btree_iter (ps_granted_caps p)).

(** The first entry of [pid] with the slot [slot], by object type. *)
Definition find_by_slot (pid slot : Z) (p : PermissionService) : option Z :=
  match List.find (fun e => (e.1 / 256 =? pid) && (gc_slot e.2 =? slot)) (btree_iter (ps_granted_caps p)) with
  | Some (key, _) => ipc_object_type (key mod 256)
  | None => None
  end.

Section service.
Context {S : Type} `{Sys S}.

Abbreviation SvcM T := (AppM PermissionService S T) (only parsing).

Definition send_to_ui (ctx : AppContext) (tag : Z) (response : list byte) : SvcM (result unit AppError) :=
  match ctx_ui_endpoint ctx with
  | Some slot =>
      r ← call (L_send slot tag response);
      mret (match r with Ok _ => Ok tt | Err e => Err (IpcError ("Send failed: " +:+ pretty e)) end)
  | None => mret (Ok tt)
  end.

Definition send_success_response (ctx : AppContext) (slot : Z) : SvcM (result unit AppError) :=
  send_to_ui ctx MSG_CAPABILITY_RESPONSE (x01 :: u32_to_le_bytes slot).

Definition send_error_response (ctx : AppContext) (error : string) : SvcM (result unit AppError) :=
  send_to_ui ctx MSG_CAPABILITY_RESPONSE (x00 :: u16_to_le_bytes (wrap_u16 (str_len error)) ++ str_bytes error).

(** The source slot of a grant: [None] where the object type is not supported. *)
Definition source_slot (object_type : Z) (p : PermissionService) : option (option Z) :=
  match object_type with
  | 6 => Some (ps_console_cap_slot p)
  | 2 => Some (ps_spawn_cap_slot p)
  | 1 => Some (ps_endpoint_cap_slot p)
  | _ => None
  end.

Definition request_reason (data : list byte) : string :=
  let reason_len := get_u16 2 data in
  if 4 + reason_len <=? len data then
    default "(invalid reason)" (from_utf8 (take (Z.to_nat reason_len) (drop 4 data)))
  else "(no reason)".

(** The grant itself: when the system call fails the root capability's own slot is
    recorded and reported. *)
Definition grant_and_record (ctx : AppContext) (from_pid object_type from_slot permissions : Z) (reason : string)
  : SvcM (result unit AppError) :=
  r ← call (L_cap_grant from_slot from_pid (from_byte permissions));
  match r with
  | Ok new_slot =>
      modify (record_grant from_pid object_type new_slot permissions reason) ;;
      send_success_response ctx new_slot
  | Err _ =>
      call (L_debug ("PERMSVC:GRANT:" +:+ pretty from_pid +:+ ":" +:+ pretty from_slot +:+ ":" +:+ pretty permissions)) ;;
      modify (record_grant from_pid object_type from_slot permissions reason) ;;
      send_success_response ctx from_slot
  end.

Definition handle_cap_request (ctx : AppContext) (msg : AppMessage) : SvcM (result unit AppError) :=
  let data := am_data msg in
  if len data <? 4 then send_error_response ctx "Invalid request format"
  else
    match ipc_object_type (get_u8 0 data) with
    | None => send_error_response ctx "Unknown object type"
    | Some object_type =>
        let permissions := get_u8 1 data in
        let reason := request_reason data in
        p ← self;
        match get_grant (am_from_pid msg) object_type p with
        | Some existing => send_success_response ctx (gc_slot existing)
        | None =>
            match source_slot object_type p with
            | None => send_error_response ctx (object_name object_type +:+ " not yet supported")
            | Some None => send_error_response ctx ("No root capability for " +:+ object_name object_type)
            | Some (Some from_slot) =>
                grant_and_record ctx (am_from_pid msg) object_type from_slot permissions reason
            end
        end
    end.

Definition handle_cap_revoke (ctx : AppContext) (msg : AppMessage) : SvcM (result unit AppError) :=
  let data := am_data msg in
  if len data <? 4 then send_error_response ctx "Invalid revoke format"
  else
    let slot := get_u32 0 data in
    p ← self;
    match find_by_slot (am_from_pid msg) slot p with
    | Some object_type =>
        call (L_debug ("PERMSVC:REVOKE:" +:+ pretty (am_from_pid msg) +:+ ":" +:+ pretty slot)) ;;
        modify (remove_grant (am_from_pid msg) object_type) ;;
        send_success_response ctx slot
    | None => send_error_response ctx "Capability not found"
    end.

Definition caps_list (grants : list (Z * GrantedCap)) : list byte :=
  byte_of_Z (len grants) ::
  mjoin ((fun '(object_type, cap) =>
    u32_to_le_bytes (gc_slot cap) ++ [byte_of_Z object_type; byte_of_Z (gc_permissions cap)]) <$> grants).

Definition handle_list_caps (ctx : AppContext) (msg : AppMessage) : SvcM (result unit AppError) :=
  p ← self;
  let response := caps_list (list_grants (am_from_pid msg) p) in
  call (L_debug ("PERMSVC:CAPS_LIST:" +:+ pretty (am_from_pid msg) +:+ ":" +:+ hex_bytes response)) ;;
  match ctx_ui_endpoint ctx with
  | Some slot => call (L_send slot MSG_CAPS_LIST_RESPONSE response) ;; mret (Ok tt)
  | None => mret (Ok tt)
  end.

(** [for obj_type in 1..=8]: the first entry of the process with this slot goes. *)
Fixpoint forget_slot (types : list Z) (target_pid slot : Z) (p : PermissionService) : PermissionService :=
  match types with
  | [] => p
  | t :: rest =>
      match get_grant target_pid t p with
      | Some g => if gc_slot g =? slot then remove_grant target_pid t p else forget_slot rest target_pid slot p
      | None => forget_slot rest target_pid slot p
      end
  end.

Definition handle_supervisor_revoke (msg : AppMessage) : SvcM (result unit AppError) :=
  let data := am_data msg in
  if negb (am_from_pid msg =? 0) then mret (Ok tt)
  else if len data <? 9 then mret (Ok tt)
  else
    let target_pid := get_u32 0 data in
    let slot := get_u32 4 data in
    let reason := get_u8 8 data in
    r ← call (L_cap_revoke_from target_pid slot);
    match r with
    | Ok _ =>
        modify (forget_slot (seqZ 1 8) target_pid slot) ;;
        call (L_debug ("PERMSVC:REVOKED:" +:+ pretty target_pid +:+ ":" +:+ pretty slot +:+ ":" +:+ pretty reason)) ;;
        mret (Ok tt)
    | Err _ => mret (Ok tt)
    end.

Definition permission_init (_ : AppContext) : SvcM (result unit AppError) :=
  modify (fun p => mk_PermissionService (ps_granted_caps p) (Some 0) (Some 2) (Some 1)) ;; mret (Ok tt).

Definition permission_on_message (ctx : AppContext) (msg : AppMessage) : SvcM (result unit AppError) :=
  let tag := am_tag msg in
  if tag =? MSG_REQUEST_CAPABILITY then handle_cap_request ctx msg
  else if tag =? MSG_REVOKE_CAPABILITY then handle_cap_revoke ctx msg
  else if tag =? MSG_LIST_MY_CAPS then handle_list_caps ctx msg
  else if tag =? MSG_PS_REVOKE_CAP then handle_supervisor_revoke msg
  else mret (Ok tt).
End service.

#[export] Instance PermissionService_app : ZeroApp PermissionService := {|
  app_init := fun S _ => permission_init;
  app_update := fun _ _ _ => mret CF_Yield;
  app_on_message := fun S _ => permission_on_message;
  app_shutdown := fun _ _ _ => mret tt |}.
