(* ===== verification/Keystore.v ===== *)
(** * Keystore service (crates/zos-services/src/services/keystore: mod.rs, handlers/mod.rs, types.rs)

    The service turns each request of a client into a keystore call of the system,
    which answers at once with a request number, and answers the client when the
    result with this number arrives. JSON encoding (serde_json) is the class
    [KeystoreJson]. Diagnostic debug lines are left out; the lines that carry a
    response are kept. *)
From S2P Require Import Prelude StrLib ProcessLib AppFramework.

Local Open Scope string_scope.
Local Open Scope Z_scope.

(** ** Messages *)
Definition MSG_KEYSTORE_RESULT : Z := 0x81.
Definition MSG_KEYSTORE_READ : Z := 0xA000.
Definition MSG_KEYSTORE_READ_RESPONSE : Z := 0xA001.
Definition MSG_KEYSTORE_WRITE : Z := 0xA002.
Definition MSG_KEYSTORE_WRITE_RESPONSE : Z := 0xA003.
Definition MSG_KEYSTORE_DELETE : Z := 0xA004.
Definition MSG_KEYSTORE_DELETE_RESPONSE : Z := 0xA005.
Definition MSG_KEYSTORE_EXISTS : Z := 0xA006.
Definition MSG_KEYSTORE_EXISTS_RESPONSE : Z := 0xA007.
Definition MSG_KEYSTORE_LIST : Z := 0xA008.
Definition MSG_KEYSTORE_LIST_RESPONSE : Z := 0xA009.

Definition KS_READ_OK : Z := 0.
Definition KS_WRITE_OK : Z := 1.
Definition KS_NOT_FOUND : Z := 2.
Definition KS_ERROR : Z := 3.
Definition KS_LIST_OK : Z := 4.
Definition KS_EXISTS_OK : Z := 5.

Inductive KeystoreError : Type :=
| InvalidKey (msg : string)
| InvalidRequest (msg : string)
| NotFound
| StorageError (msg : string)
| ResourceExhausted.

Record KeystoreReadRequest : Type := mk_KeystoreReadRequest { krr_key : string }.
Record KeystoreWriteRequest : Type := mk_KeystoreWriteRequest { kwr_key : string; kwr_value : list byte }.
Record KeystoreDeleteRequest : Type := mk_KeystoreDeleteRequest { kdr_key : string }.
Record KeystoreExistsRequest : Type := mk_KeystoreExistsRequest { ker_key : string }.
Record KeystoreListRequest : Type := mk_KeystoreListRequest { klr_prefix : string }.

Inductive KeystoreResponse : Type :=
| KeystoreReadResponse (r : result (list byte) KeystoreError)
| KeystoreWriteResponse (r : result unit KeystoreError)
| KeystoreDeleteResponse (r : result unit KeystoreError)
| KeystoreExistsResponse (r : result bool KeystoreError)
| KeystoreListResponse (r : result (list string) KeystoreError).

Class KeystoreJson : Type := {
  read_from_slice : list byte -> result KeystoreReadRequest string;
  write_from_slice : list byte -> result KeystoreWriteRequest string;
  delete_from_slice : list byte -> result KeystoreDeleteRequest string;
  exists_from_slice : list byte -> result KeystoreExistsRequest string;
  list_from_slice : list byte -> result KeystoreListRequest string;
  names_from_slice : list byte -> result (list string) string;
  keystore_to_vec : KeystoreResponse -> result (list byte) string }.

(** ** State *)
Definition MAX_PENDING_OPS : Z := 256.
Definition MAX_CONTENT_SIZE : Z := 1024 * 1024.

Record ClientContext : Type := mk_ClientContext { kc_pid : Z; kc_reply_caps : list Z }.

Definition from_message (msg : AppMessage) : ClientContext := mk_ClientContext (am_from_pid msg) (am_cap_slots msg).

Inductive PendingOp : Type :=
| P_Read (ctx : ClientContext) (key : string)
| P_Write (ctx : ClientContext) (key : string)
| P_Delete (ctx : ClientContext) (key : string)
| P_Exists (ctx : ClientContext) (key : string)
| P_List (ctx : ClientContext) (prefix : string).

Record KeystoreService : Type := mk_KeystoreService { ks_registered : bool; ks_pending_ops : gmap Z PendingOp }.

Definition KeystoreService_default : KeystoreService := mk_KeystoreService false ∅.

Definition set_pending (p : gmap Z PendingOp) (k : KeystoreService) : KeystoreService :=
  mk_KeystoreService (ks_registered k) p.

Definition validate_key (key : string) : result unit KeystoreError :=
  if String.eqb key "" then Err (InvalidKey "Key cannot be empty")
  else if negb (starts_with "/keys/" key) then Err (InvalidKey "Key must start with /keys/")
  else if str_contains_char "000" key then Err (InvalidKey "Key cannot contain null bytes")
  else Ok tt.

Definition result_type_name (t : Z) : string :=
  match t with
  | 0 => "READ_OK" | 1 => "WRITE_OK" | 2 => "NOT_FOUND" | 3 => "ERROR" | 4 => "LIST_OK" | 5 => "EXISTS_OK"
  | _ => "UNKNOWN"
  end.

(** [data[9..9 + data_len]] of a result, or nothing; [9 + data_len] is a [usize], and
    [None] is the panic of the slice where it has wrapped below 9. *)
Definition result_data {W : Target} (data : list byte) : option (list byte) :=
  let data_len := get_u32 5 data in
  let hi := usize_add 9 data_len in
  if (0 <? data_len) && (hi <=? len data) then
    if hi <? 9 then None else Some (take (Z.to_nat (hi - 9)) (drop 9 data))
  else Some [].

(** [{result_type} ({name})] of the error messages. *)
Definition unexpected {T} (what : string) (t : Z) : result T KeystoreError :=
  Err (StorageError (what +:+ " failed: " +:+ pretty t +:+ " (" +:+ result_type_name t +:+ ")")).

Section service.
Context {W : Target} {S : Type} `{Sys S} {J : KeystoreJson}.

Abbreviation SvcM T := (AppM KeystoreService S T) (only parsing).

(** ** Starting operations: the body shared by the five [start_keystore_*] *)
Definition start_keystore (c : KeystoreCall) (what : string) (op : PendingOp) : SvcM (result unit AppError) :=
  k ← self;
  if MAX_PENDING_OPS <=? Z.of_nat (size (ks_pending_ops k)) then mret (Err (IpcError "Too many pending operations"))
  else
    r ← call (L_keystore c);
    match r with
    | Ok request_id =>
        modify (fun k => set_pending (<[wrap_u32 request_id := op]> (ks_pending_ops k)) k) ;; mret (Ok tt)
    | Err e => mret (Err (IpcError ("Keystore " +:+ what +:+ " failed: " +:+ pretty e)))
    end.

Definition start_keystore_read (key : string) := start_keystore (Ks_read key) "read".
Definition start_keystore_write (key : string) (value : list byte) := start_keystore (Ks_write key value) "write".
Definition start_keystore_delete (key : string) := start_keystore (Ks_delete key) "delete".
Definition start_keystore_exists (key : string) := start_keystore (Ks_exists key) "exists".
Definition start_keystore_list (prefix : string) := start_keystore (Ks_list prefix) "list".

(** ** Responses *)
Definition response_line (pid tag : Z) (data : list byte) : string :=
  "KEYSTORE:RESPONSE:" +:+ pretty pid +:+ ":" +:+ hex_u32 tag +:+ ":" +:+ hex_bytes data.

Definition send_response_via_debug (to_pid tag : Z) (response : KeystoreResponse) : SvcM (result unit AppError) :=
  match keystore_to_vec response with
  | Ok data => call (L_debug (response_line to_pid tag data)) ;; mret (Ok tt)
  | Err e => mret (Err (IpcError ("Serialization failed: " +:+ e)))
  end.

Definition send_response (ctx : ClientContext) (tag : Z) (response : KeystoreResponse) : SvcM (result unit AppError) :=
  match keystore_to_vec response with
  | Ok data =>
      let fallback := call (L_debug (response_line (kc_pid ctx) tag data)) ;; mret (Ok tt) in
      match kc_reply_caps ctx with
      | reply_slot :: _ =>
          r ← call (L_send reply_slot tag data);
          match r with Ok _ => mret (Ok tt) | Err _ => fallback end
      | [] => fallback
      end
  | Err e => mret (Err (IpcError ("Serialization failed: " +:+ e)))
  end.

(** ** Requests *)
Definition parse_error {T} (e : string) : result T KeystoreError := Err (InvalidRequest ("Failed to parse request: " +:+ e)).

Definition handle_read (msg : AppMessage) : SvcM (result unit AppError) :=
  let refuse r := send_response_via_debug (am_from_pid msg) MSG_KEYSTORE_READ_RESPONSE (KeystoreReadResponse r) in
  match read_from_slice (am_data msg) with
  | Err e => refuse (parse_error e)
  | Ok request =>
      match validate_key (krr_key request) with
      | Err error => refuse (Err error)
      | Ok _ => start_keystore_read (krr_key request) (P_Read (from_message msg) (krr_key request))
      end
  end.

Definition handle_write (msg : AppMessage) : SvcM (result unit AppError) :=
  let refuse r := send_response_via_debug (am_from_pid msg) MSG_KEYSTORE_WRITE_RESPONSE (KeystoreWriteResponse r) in
  match write_from_slice (am_data msg) with
  | Err e => refuse (parse_error e)
  | Ok request =>
      match validate_key (kwr_key request) with
      | Err error => refuse (Err error)
      | Ok _ =>
          if MAX_CONTENT_SIZE <? len (kwr_value request) then
            refuse (Err (InvalidRequest ("Value too large: " +:+ pretty (len (kwr_value request)) +:+
              " bytes exceeds limit of " +:+ pretty MAX_CONTENT_SIZE +:+ " bytes")))
          else start_keystore_write (kwr_key request) (kwr_value request) (P_Write (from_message msg) (kwr_key request))
      end
  end.

Definition handle_delete (msg : AppMessage) : SvcM (result unit AppError) :=
  let refuse r := send_response_via_debug (am_from_pid msg) MSG_KEYSTORE_DELETE_RESPONSE (KeystoreDeleteResponse r) in
  match delete_from_slice (am_data msg) with
  | Err e => refuse (parse_error e)
  | Ok request =>
      match validate_key (kdr_key request) with
      | Err error => refuse (Err error)
      | Ok _ => start_keystore_delete (kdr_key request) (P_Delete (from_message msg) (kdr_key request))
      end
  end.

Definition handle_exists (msg : AppMessage) : SvcM (result unit AppError) :=
  let refuse r := send_response_via_debug (am_from_pid msg) MSG_KEYSTORE_EXISTS_RESPONSE (KeystoreExistsResponse r) in
  match exists_from_slice (am_data msg) with
  | Err e => refuse (parse_error e)
  | Ok request =>
      match validate_key (ker_key request) with
      | Err error => refuse (Err error)
      | Ok _ => start_keystore_exists (ker_key request) (P_Exists (from_message msg) (ker_key request))
      end
  end.

Definition handle_list (msg : AppMessage) : SvcM (result unit AppError) :=
  let refuse r := send_response_via_debug (am_from_pid msg) MSG_KEYSTORE_LIST_RESPONSE (KeystoreListResponse r) in
  match list_from_slice (am_data msg) with
  | Err e => refuse (parse_error e)
  | Ok request =>
      if negb (starts_with "/keys/" (klr_prefix request)) && negb (String.eqb (klr_prefix request) "/keys") then
        refuse (Err (InvalidKey "Prefix must start with /keys/"))
      else start_keystore_list (klr_prefix request) (P_List (from_message msg) (klr_prefix request))
  end.

(** ** Results: the response that a result of type [t] gives *)
Definition read_result (t : Z) (data : list byte) : result (list byte) KeystoreError :=
  if t =? KS_READ_OK then Ok data else if t =? KS_NOT_FOUND then Err NotFound else unexpected "Read" t.

Definition write_result (t : Z) : result unit KeystoreError :=
  if t =? KS_WRITE_OK then Ok tt else unexpected "Write" t.

Definition delete_result (t : Z) : result unit KeystoreError :=
  if t =? KS_WRITE_OK then Ok tt else if t =? KS_NOT_FOUND then Ok tt else unexpected "Delete" t.

Definition exists_result (t : Z) (data : list byte) : result bool KeystoreError :=
  if t =? KS_EXISTS_OK then Ok (negb (len data =? 0) && (get_u8 0 data =? 1))
  else if t =? KS_NOT_FOUND then Ok false else unexpected "Exists check" t.

Definition list_result (t : Z) (data : list byte) : result (list string) KeystoreError :=
  if t =? KS_LIST_OK then
    match names_from_slice data with
    | Ok keys => Ok keys
    | Err e => Err (StorageError ("Failed to parse key list: " +:+ e))
    end
  else if t =? KS_NOT_FOUND then Ok [] else unexpected "List" t.

Definition handle_read_result (ctx : ClientContext) (t : Z) (data : list byte) :=
  send_response ctx MSG_KEYSTORE_READ_RESPONSE (KeystoreReadResponse (read_result t data)).
Definition handle_write_result (ctx : ClientContext) (t : Z) :=
  send_response ctx MSG_KEYSTORE_WRITE_RESPONSE (KeystoreWriteResponse (write_result t)).
Definition handle_delete_result (ctx : ClientContext) (t : Z) :=
  send_response ctx MSG_KEYSTORE_DELETE_RESPONSE (KeystoreDeleteResponse (delete_result t)).
Definition handle_exists_result (ctx : ClientContext) (t : Z) (data : list byte) :=
  send_response ctx MSG_KEYSTORE_EXISTS_RESPONSE (KeystoreExistsResponse (exists_result t data)).
Definition handle_list_result (ctx : ClientContext) (t : Z) (data : list byte) :=
  send_response ctx MSG_KEYSTORE_LIST_RESPONSE (KeystoreListResponse (list_result t data)).

Definition handle_keystore_result (msg : AppMessage) : SvcM (result unit AppError) :=
  let raw := am_data msg in
  if len raw <? 9 then mret (Ok tt)
  else
    let request_id := get_u32 0 raw in
    let t := get_u8 4 raw in
    match result_data raw with
    | None => never
    | Some data =>
        k ← self;
        match ks_pending_ops k !! request_id with
        | None => mret (Ok tt)
        | Some op =>
            modify (fun k => set_pending (delete request_id (ks_pending_ops k)) k) ;;
            match op with
            | P_Read ctx _ => handle_read_result ctx t data
            | P_Write ctx _ => handle_write_result ctx t
            | P_Delete ctx _ => handle_delete_result ctx t
            | P_Exists ctx _ => handle_exists_result ctx t data
            | P_List ctx _ => handle_list_result ctx t data
            end
        end
    end.

(** ** The application *)
Definition keystore_init (_ : AppContext) : SvcM (result unit AppError) :=
  call (L_send INIT_ENDPOINT_SLOT MSG_REGISTER_SERVICE (registration "keystore")) ;;
  modify (fun k => mk_KeystoreService true (ks_pending_ops k)) ;; mret (Ok tt).

Definition keystore_on_message (_ : AppContext) (msg : AppMessage) : SvcM (result unit AppError) :=
  let tag := am_tag msg in
  if tag =? MSG_KEYSTORE_RESULT then handle_keystore_result msg
  else if tag =? MSG_KEYSTORE_READ then handle_read msg
  else if tag =? MSG_KEYSTORE_WRITE then handle_write msg
  else if tag =? MSG_KEYSTORE_DELETE then handle_delete msg
  else if tag =? MSG_KEYSTORE_EXISTS then handle_exists msg
  else if tag =? MSG_KEYSTORE_LIST then handle_list msg
  else mret (Ok tt).
End service.

#[export] Instance KeystoreService_app {W : Target} {J : KeystoreJson} : ZeroApp KeystoreService := {|
  app_init := fun S _ => keystore_init;
  app_update := fun _ _ _ => mret CF_Yield;
  app_on_message := fun S _ => keystore_on_message;
  app_shutdown := fun _ _ _ => mret tt |}.
