(* ===== verification/NetService.v ===== *)
(** * Network service (crates/zos-services/src/services/network/mod.rs)

    The service forwards the requests of trusted processes to the host, which
    answers with a request number, and reports each result to the client in a
    NET:RESPONSE line. Diagnostic debug lines are left out. *)
From S2P Require Import Prelude StrLib ProcessLib AppFramework.

Local Open Scope string_scope.
Local Open Scope Z_scope.

Definition MSG_NET_REQUEST : Z := 0x9000.
Definition MSG_NET_RESPONSE : Z := 0x9001.
Definition MSG_NET_RESULT : Z := 0x9002.
Definition NET_OK : Z := 0.

Definition MAX_PENDING_OPS : Z := 64.
Definition TRUSTED_PIDS_FOR_NETWORK : list Z := [0; 1; 7].

Record PendingRequest : Type := mk_PendingRequest { pr_client_pid : Z; pr_client_request_id : Z }.

Record NetworkService : Type := mk_NetworkService {
  ns_registered : bool;
  ns_pending_ops : gmap Z PendingRequest;
  ns_next_request_id : Z }.

Definition NetworkService_default : NetworkService := mk_NetworkService false ∅ 1.

Definition set_pending (p : gmap Z PendingRequest) (n : NetworkService) : NetworkService :=
  mk_NetworkService (ns_registered n) p (ns_next_request_id n).

Definition check_network_permission (from_pid : Z) : bool := existsb (Z.eqb from_pid) TRUSTED_PIDS_FOR_NETWORK.

Definition check_pending_limit (n : NetworkService) : bool :=
  negb (MAX_PENDING_OPS <=? Z.of_nat (size (ns_pending_ops n))).

(** A quotation mark gets a backslash; a backslash is left as it is. *)
Fixpoint escape_quotes (s : string) : string :=
  match s with
  | EmptyString => ""
  | String c s' => (if Ascii.eqb c "034" then String "\" (String "034" "") else String c "") +:+ escape_quotes s'
  end.

(** The object with the field result.Err.Other. *)
Definition error_json (msg : string) : string :=
  let q := String "034" "" in
  "{" +:+ q +:+ "result" +:+ q +:+ ":{" +:+ q +:+ "Err" +:+ q +:+ ":{" +:+ q +:+ "Other" +:+ q +:+ ":" +:+
  q +:+ escape_quotes msg +:+ q +:+ "}}}".

Definition response_line (to_pid : Z) (data : list byte) : string :=
  "NET:RESPONSE:" +:+ pretty to_pid +:+ ":" +:+ hex_u32 MSG_NET_RESPONSE +:+ ":" +:+ hex_bytes data.

(** [data[9..9 + data_len]] of a result, or nothing; [9 + data_len] is a [usize], and
    [None] is the panic of the slice where it has wrapped below 9. *)
Definition result_data {W : Target} (data : list byte) : option (list byte) :=
  let data_len := get_u32 5 data in
  let hi := usize_add 9 data_len in
  if (0 <? data_len) && (hi <=? len data) then
    if hi <? 9 then None else Some (take (Z.to_nat (hi - 9)) (drop 9 data))
  else Some [].

Section service.
Context {W : Target} {S : Type} `{Sys S}.

Abbreviation SvcM T := (AppM NetworkService S T) (only parsing).

Definition send_response (to_pid request_id : Z) (response_data : list byte) : SvcM (result unit AppError) :=
  call (L_debug (response_line to_pid (u32_to_le_bytes request_id ++ response_data))) ;; mret (Ok tt).

Definition send_error_response (to_pid request_id : Z) (error_msg : string) : SvcM (result unit AppError) :=
  call (L_debug (response_line to_pid (u32_to_le_bytes request_id ++ str_bytes (error_json error_msg)))) ;;
  mret (Ok tt).

Definition handle_net_request (msg : AppMessage) : SvcM (result unit AppError) :=
  n ← self;
  let client_request_id := ns_next_request_id n in
  modify (fun n => mk_NetworkService (ns_registered n) (ns_pending_ops n) (wrap_u32 (ns_next_request_id n + 1))) ;;
  if negb (check_network_permission (am_from_pid msg)) then
    send_error_response (am_from_pid msg) client_request_id
      "Permission denied: MSG_NET_REQUEST requires network capability"
  else if negb (check_pending_limit n) then
    send_error_response (am_from_pid msg) client_request_id "Service busy: pending network operation limit reached"
  else
    r ← call (L_network_fetch (am_data msg));
    match r with
    | Ok syscall_request_id =>
        modify (fun n => set_pending
          (<[wrap_u32 syscall_request_id := mk_PendingRequest (am_from_pid msg) client_request_id]> (ns_pending_ops n)) n) ;;
        mret (Ok tt)
    | Err e =>
        send_error_response (am_from_pid msg) client_request_id
          ("Network syscall failed: SYS_NETWORK_FETCH returned " +:+ pretty e)
    end.

Definition handle_net_result (msg : AppMessage) : SvcM (result unit AppError) :=
  let raw := am_data msg in
  if len raw <? 9 then mret (Ok tt)
  else
    let request_id := get_u32 0 raw in
    let result_type := get_u8 4 raw in
    match result_data raw with
    | None => never
    | Some data =>
        n ← self;
        match ns_pending_ops n !! request_id with
        | None => mret (Ok tt)
        | Some pending =>
            modify (fun n => set_pending (delete request_id (ns_pending_ops n)) n) ;;
            if result_type =? NET_OK then send_response (pr_client_pid pending) (pr_client_request_id pending) data
            else
              let error_msg := if len data =? 0 then "Network error" else from_utf8_lossy data in
              send_error_response (pr_client_pid pending) (pr_client_request_id pending) error_msg
        end
    end.

Definition network_init (_ : AppContext) : SvcM (result unit AppError) :=
  call (L_send INIT_ENDPOINT_SLOT MSG_REGISTER_SERVICE (registration "network")) ;;
  modify (fun n => mk_NetworkService true (ns_pending_ops n) (ns_next_request_id n)) ;; mret (Ok tt).

Definition network_on_message (_ : AppContext) (msg : AppMessage) : SvcM (result unit AppError) :=
  if am_tag msg =? MSG_NET_REQUEST then handle_net_request msg
  else if am_tag msg =? MSG_NET_RESULT then handle_net_result msg
  else mret (Ok tt).
End service.

#[export] Instance NetworkService_app {W : Target} : ZeroApp NetworkService := {|
  app_init := fun S _ => network_init;
  app_update := fun _ _ _ => mret CF_Yield;
  app_on_message := fun S _ => network_on_message;
  app_shutdown := fun _ _ _ => mret tt |}.
