(* ===== verification/VfsClient.v ===== *)
(** * Clients of the file system (crates/zos-vfs/src/client: async_ops.rs, blocking.rs)

    The non-blocking client of services sends a request and leaves the response to
    the event loop; the blocking client of applications polls slot 4 for it. JSON
    encoding (serde_json) is the class [VfsClientJson]. *)
From S2P Require Import Prelude StrLib ProcessLib AppFramework VfsPath.

Local Open Scope string_scope.
Local Open Scope Z_scope.

Inductive VfsRequest : Type :=
| RQ_Mkdir (r : MkdirRequest)
| RQ_Rmdir (r : RmdirRequest)
| RQ_Readdir (r : ReaddirRequest)
| RQ_Write (r : WriteFileRequest)
| RQ_Read (r : ReadFileRequest)
| RQ_Unlink (r : UnlinkRequest)
| RQ_Stat (r : StatRequest)
| RQ_Exists (r : ExistsRequest).

Class VfsClientJson : Type := {
  vfs_request_to_vec : VfsRequest -> result (list byte) string;
  mkdir_response_from_slice : list byte -> result (result unit VfsError) string;
  rmdir_response_from_slice : list byte -> result (result unit VfsError) string;
  readdir_response_from_slice : list byte -> result (result (list DirEntry) VfsError) string;
  write_response_from_slice : list byte -> result (result unit VfsError) string;
  read_response_from_slice : list byte -> result (result (list byte) VfsError) string;
  unlink_response_from_slice : list byte -> result (result unit VfsError) string;
  stat_response_from_slice : list byte -> result (result Inode VfsError) string;
  exists_response_from_slice : list byte -> result (result bool VfsError) string }.

Definition VFS_ENDPOINT_SLOT : Z := 3.
Definition VFS_RESPONSE_SLOT : Z := 4.

(** ** [{:?}] of an error *)
Definition quote : ascii := "034".

(** [escape_debug] of the characters of ASCII; others are printed as they are. *)
Definition escape_char (c : ascii) : string :=
  match N_of_ascii c with
  | 0%N => "\0" | 9%N => "\t" | 10%N => "\n" | 13%N => "\r"
  | 34%N => String "\" (String quote "") | 92%N => "\\"
  | n =>
      if (n <? 16)%N then "\u{" +:+ String (hex_digit (Z.of_N n)) "}"
      else if (n <? 32)%N || (n =? 127)%N then
        "\u{" +:+ String (hex_digit (Z.of_N n / 16)) (String (hex_digit (Z.of_N n mod 16)) "}")
      else String c ""
  end.

Fixpoint escape_debug (s : string) : string :=
  match s with EmptyString => "" | String c s' => escape_char c +:+ escape_debug s' end.

Definition debug_str (s : string) : string := String quote (escape_debug s) +:+ String quote "".

Definition debug_option {T} (show : T -> string) (o : option T) : string :=
  match o with Some x => "Some(" +:+ show x +:+ ")" | None => "None" end.

Definition debug_kind (k : StorageErrorKind) : string :=
  match k with
  | SK_ConnectionFailed => "ConnectionFailed"
  | SK_Timeout operation => "Timeout { operation: " +:+ debug_str operation +:+ " }"
  | SK_ChunkCorrupt chunk_index expected_hash =>
      "ChunkCorrupt { chunk_index: " +:+ debug_option pretty chunk_index +:+
      ", expected_hash: " +:+ debug_option debug_str expected_hash +:+ " }"
  | SK_QuotaExceeded used limit => "QuotaExceeded { used: " +:+ pretty used +:+ ", limit: " +:+ pretty limit +:+ " }"
  | SK_PermissionDenied path required =>
      "PermissionDenied { path: " +:+ debug_str path +:+ ", required: " +:+ debug_str required +:+ " }"
  | SK_KeyNotFound => "KeyNotFound"
  | SK_Unavailable => "Unavailable"
  | SK_Unknown msg => "Unknown(" +:+ debug_str msg +:+ ")"
  end.

Definition debug_vfs_error (e : VfsError) : string :=
  let with_msg name msg := name +:+ "(" +:+ debug_str msg +:+ ")" in
  match e with
  | VfsNotFound => "NotFound"
  | VfsAlreadyExists => "AlreadyExists"
  | VfsNotADirectory => "NotADirectory"
  | VfsNotAFile => "NotAFile"
  | VfsDirectoryNotEmpty => "DirectoryNotEmpty"
  | VfsPermissionDenied => "PermissionDenied"
  | VfsInvalidPath msg => with_msg "InvalidPath" msg
  | VfsInvalidRequest msg => with_msg "InvalidRequest" msg
  | VfsStorage kind context =>
      "Storage { kind: " +:+ debug_kind kind +:+ ", context: " +:+ debug_option debug_str context +:+ " }"
  | VfsStorageError msg => with_msg "StorageError" msg
  | VfsQuotaExceeded => "QuotaExceeded"
  | VfsFileTooLarge => "FileTooLarge"
  | VfsEncryptionError msg => with_msg "EncryptionError" msg
  | VfsDecryptionError msg => with_msg "DecryptionError" msg
  | VfsIoError msg => with_msg "IoError" msg
  | VfsNotSupported msg => with_msg "NotSupported" msg
  end.

(** [From<VfsError> for AppError]. *)
Definition app_error_of_vfs (e : VfsError) : AppError := IpcError ("VFS error: " +:+ debug_vfs_error e).

(** ** Responses *)
Definition is_vfs_response (tag : Z) : bool :=
  existsb (Z.eqb tag)
    [MSG_VFS_MKDIR_RESPONSE; MSG_VFS_RMDIR_RESPONSE; MSG_VFS_READDIR_RESPONSE; MSG_VFS_WRITE_RESPONSE;
     MSG_VFS_READ_RESPONSE; MSG_VFS_UNLINK_RESPONSE; 0x8017; 0x8019; MSG_VFS_STAT_RESPONSE;
     MSG_VFS_EXISTS_RESPONSE; 0x8025; 0x8027; 0x8031; 0x8033].

(** [match from_slice(data) { Ok(response) => response.result.map_err(..), Err(e) => .. }]. *)
Definition parse_response {T} (parsed : result (result T VfsError) string) : result T string :=
  match parsed with
  | Ok (Ok x) => Ok x
  | Ok (Err e) => Err (debug_vfs_error e)
  | Err e => Err ("Parse error: " +:+ e)
  end.

Section client.
Context {S : Type} `{Sys S} {J : VfsClientJson}.

Definition parse_read_response (data : list byte) : result (list byte) string := parse_response (read_response_from_slice data).
Definition parse_write_response (data : list byte) : result unit string := parse_response (write_response_from_slice data).
Definition parse_exists_response (data : list byte) : result bool string := parse_response (exists_response_from_slice data).
Definition parse_mkdir_response (data : list byte) : result unit string := parse_response (mkdir_response_from_slice data).
Definition parse_unlink_response (data : list byte) : result unit string := parse_response (unlink_response_from_slice data).
Definition parse_readdir_response (data : list byte) : result (list DirEntry) string :=
  parse_response (readdir_response_from_slice data).
Definition parse_stat_response (data : list byte) : result Inode string := parse_response (stat_response_from_slice data).

(** ** The non-blocking client *)
Definition send_vfs_request (slot tag : Z) (request : VfsRequest) : PM S (result unit VfsError) :=
  match vfs_request_to_vec request with
  | Err e => mret (Err (VfsStorageError ("Serialize error: " +:+ e)))
  | Ok data =>
      r ← sys_call (L_send slot tag data);
      mret (match r with Ok _ => Ok tt | Err e => Err (VfsStorageError ("Send error: " +:+ pretty e)) end)
  end.

Definition send_read_request (path : string) : PM S (result unit VfsError) :=
  send_vfs_request VFS_ENDPOINT_SLOT MSG_VFS_READ (RQ_Read (mk_ReadFileRequest path None None)).
Definition send_write_request (path : string) (content : list byte) : PM S (result unit VfsError) :=
  send_vfs_request VFS_ENDPOINT_SLOT MSG_VFS_WRITE (RQ_Write (mk_WriteFileRequest path content false)).
Definition send_exists_request (path : string) : PM S (result unit VfsError) :=
  send_vfs_request VFS_ENDPOINT_SLOT MSG_VFS_EXISTS (RQ_Exists (mk_ExistsRequest path)).
Definition send_mkdir_request (path : string) (create_parents : bool) : PM S (result unit VfsError) :=
  send_vfs_request VFS_ENDPOINT_SLOT MSG_VFS_MKDIR (RQ_Mkdir (mk_MkdirRequest path create_parents)).
Definition send_unlink_request (path : string) : PM S (result unit VfsError) :=
  send_vfs_request VFS_ENDPOINT_SLOT MSG_VFS_UNLINK (RQ_Unlink (mk_UnlinkRequest path)).
Definition send_readdir_request (path : string) : PM S (result unit VfsError) :=
  send_vfs_request VFS_ENDPOINT_SLOT MSG_VFS_READDIR (RQ_Readdir (mk_ReaddirRequest path)).
Definition send_stat_request (path : string) : PM S (result unit VfsError) :=
  send_vfs_request VFS_ENDPOINT_SLOT MSG_VFS_STAT (RQ_Stat (mk_StatRequest path)).

(** ** The blocking client. Its loop polls until the response comes; [None] stands
    for polls that ran out. *)
Fixpoint await_response (polls : nat) (expected : Z) : PM S (option ReceivedMessage) :=
  match polls with
  | O => mret None
  | Datatypes.S n =>
      r ← sys_call (L_receive VFS_RESPONSE_SLOT);
      match r with
      | Ok m => if rm_tag m =? expected then mret (Some m) else await_response n expected
      | Err NoMessage => sys_call L_yield ;; await_response n expected
      | Err _ => await_response n expected
      end
  end.

(** The answer of the service, or the error of the exchange. *)
Definition vfs_call {T} (polls : nat) (endpoint tag : Z) (request : VfsRequest)
  (decode : list byte -> result (result T VfsError) string) : PM S (option (result T VfsError)) :=
  r ← send_vfs_request endpoint tag request;
  match r with
  | Err e => mret (Some (Err e))
  | Ok _ =>
      m ← await_response polls (wrap_u32 (tag + 1));
      mret (match m with
            | None => None
            | Some m =>
                Some (match decode (rm_data m) with
                      | Ok r => r
                      | Err e => Err (VfsStorageError ("Deserialize error: " +:+ e))
                      end)
            end)
  end.

Definition client_mkdir (polls : nat) (endpoint : Z) (path : string) (create_parents : bool) :=
  vfs_call polls endpoint MSG_VFS_MKDIR (RQ_Mkdir (mk_MkdirRequest path create_parents)) mkdir_response_from_slice.
Definition client_rmdir (polls : nat) (endpoint : Z) (path : string) (recursive : bool) :=
  vfs_call polls endpoint MSG_VFS_RMDIR (RQ_Rmdir (mk_RmdirRequest path recursive)) rmdir_response_from_slice.
Definition client_readdir (polls : nat) (endpoint : Z) (path : string) :=
  vfs_call polls endpoint MSG_VFS_READDIR (RQ_Readdir (mk_ReaddirRequest path)) readdir_response_from_slice.
Definition client_write_file (polls : nat) (endpoint : Z) (path : string) (content : list byte) (encrypt : bool) :=
  vfs_call polls endpoint MSG_VFS_WRITE (RQ_Write (mk_WriteFileRequest path content encrypt)) write_response_from_slice.
Definition client_read_file (polls : nat) (endpoint : Z) (path : string) (offset length : option Z) :=
  vfs_call polls endpoint MSG_VFS_READ (RQ_Read (mk_ReadFileRequest path offset length)) read_response_from_slice.
Definition client_unlink (polls : nat) (endpoint : Z) (path : string) :=
  vfs_call polls endpoint MSG_VFS_UNLINK (RQ_Unlink (mk_UnlinkRequest path)) unlink_response_from_slice.
Definition client_stat (polls : nat) (endpoint : Z) (path : string) :=
  vfs_call polls endpoint MSG_VFS_STAT (RQ_Stat (mk_StatRequest path)) stat_response_from_slice.
Definition client_exists (polls : nat) (endpoint : Z) (path : string) :=
  vfs_call polls endpoint MSG_VFS_EXISTS (RQ_Exists (mk_ExistsRequest path)) exists_response_from_slice.

(** [is_directory] and [is_file]: a missing path is neither. *)
Definition stat_test (test : Inode -> bool) (polls : nat) (endpoint : Z) (path : string)
  : PM S (option (result bool VfsError)) :=
  r ← client_stat polls endpoint path;
  mret (match r with
        | None => None
        | Some (Ok inode) => Some (Ok (test inode))
        | Some (Err VfsNotFound) => Some (Ok false)
        | Some (Err e) => Some (Err e)
        end).

Definition client_is_directory := stat_test is_directory.
Definition client_is_file := stat_test is_file.
End client.
