(* ===== verification/TimeService.v ===== *)
(** * Time service (crates/zos-services/src/services/time/mod.rs)

    The service keeps the settings of the clock, cached, and stores them in a file
    through the file system service. Responses of the file system carry no request
    number, so they are matched to the oldest pending operation of their kind. JSON
    encoding (serde_json) of the settings is the class [TimeJson]. Diagnostic debug
    lines are left out. *)
From S2P Require Import Prelude StrLib ProcessLib AppFramework AxiomTypes VfsPath VfsClient.

Local Open Scope string_scope.
Local Open Scope Z_scope.

Definition MSG_GET_TIME_SETTINGS : Z := 0x8100.
Definition MSG_GET_TIME_SETTINGS_RESPONSE : Z := 0x8101.
Definition MSG_SET_TIME_SETTINGS : Z := 0x8102.
Definition MSG_SET_TIME_SETTINGS_RESPONSE : Z := 0x8103.

Record TimeSettings : Type := mk_TimeSettings { ts_time_format_24h : bool; ts_timezone : string }.

Definition TimeSettings_default : TimeSettings := mk_TimeSettings false "UTC".

Class TimeJson : Type := {
  settings_to_vec : TimeSettings -> result (list byte) string;
  settings_from_slice : list byte -> result TimeSettings string }.

Definition storage_path : string := "/system/settings/time.json".

Definition q : string := String quote "".

(** The fallback of [to_json] writes the fields itself. *)
Definition to_json `{TimeJson} (s : TimeSettings) : list byte :=
  match settings_to_vec s with
  | Ok data => data
  | Err _ =>
      str_bytes ("{" +:+ q +:+ "time_format_24h" +:+ q +:+ ":" +:+ (if ts_time_format_24h s then "true" else "false") +:+
        "," +:+ q +:+ "timezone" +:+ q +:+ ":" +:+ q +:+ ts_timezone s +:+ q +:+ "}")
  end.

Definition from_json `{TimeJson} (data : list byte) : option TimeSettings :=
  match settings_from_slice data with Ok s => Some s | Err _ => None end.

Inductive PendingOp : Type :=
| P_GetSettings (client_pid : Z) (cap_slots : list Z)
| P_WriteSettings (client_pid : Z) (settings : TimeSettings) (cap_slots : list Z)
| P_InitialLoad.

Inductive OpType : Type := OpRead | OpWrite.

#[export] Instance OpType_eq_dec : EqDecision OpType.
Proof. solve_decision. Defined.

Definition MAX_PENDING_OPS : Z := 32.
Definition TRUSTED_PIDS_FOR_TIME_SETTINGS : list Z := [0; 1; 2; 3].

Record TimeService : Type := mk_TimeService {
  tm_registered : bool;
  tm_settings : TimeSettings;
  tm_pending_ops : gmap Z (PendingOp * OpType);
  tm_next_request_id : Z;
  tm_settings_loaded : bool }.

Definition TimeService_default : TimeService := mk_TimeService false (mk_TimeSettings false "UTC") ∅ 1 false.

Definition set_pending (p : gmap Z (PendingOp * OpType)) (t : TimeService) : TimeService :=
  mk_TimeService (tm_registered t) (tm_settings t) p (tm_next_request_id t) (tm_settings_loaded t).

Definition set_next (n : Z) (t : TimeService) : TimeService :=
  mk_TimeService (tm_registered t) (tm_settings t) (tm_pending_ops t) n (tm_settings_loaded t).

(** [self.settings = settings; self.settings_loaded = true]. *)
Definition cache_settings (s : TimeSettings) (t : TimeService) : TimeService :=
  mk_TimeService (tm_registered t) s (tm_pending_ops t) (tm_next_request_id t) true.

Definition alloc_request_id (t : TimeService) : Z * TimeService :=
  let id := tm_next_request_id t in
  let next := wrap_u32 (id + 1) in
  (id, set_next (if next =? 0 then 1 else next) t).

(** The pending operation of this kind with the least number. *)
Definition take_pending_by_type (op_type : OpType) (t : TimeService) : option (Z * PendingOp) * TimeService :=
  match List.find (fun e => bool_decide (e.2.2 = op_type)) (btree_iter (tm_pending_ops t)) with
  | Some (id, (op, _)) => (Some (id, op), set_pending (delete id (tm_pending_ops t)) t)
  | None => (None, t)
  end.

Definition check_get_permission (_ : Z) : bool := true.

Definition check_set_permission (from_pid : Z) : bool := existsb (Z.eqb from_pid) TRUSTED_PIDS_FOR_TIME_SETTINGS.

Definition check_pending_limit (t : TimeService) : bool :=
  negb (MAX_PENDING_OPS <=? Z.of_nat (size (tm_pending_ops t))).

Definition error_json (error : string) : list byte :=
  str_bytes ("{" +:+ q +:+ "error" +:+ q +:+ ":" +:+ q +:+ error +:+ q +:+ "}").

Definition response_line (to_pid tag : Z) (json : list byte) : string :=
  "SERVICE:RESPONSE:" +:+ pretty to_pid +:+ ":" +:+ hex_u32 tag +:+ ":" +:+ hex_bytes json.

Section service.
Context {S : Type} `{Sys S} {J : TimeJson} {V : VfsClientJson}.

Abbreviation SvcM T := (AppM TimeService S T) (only parsing).

(** ** Operations of the file system *)

(** [alloc_request_id], the request, and the insertion; the error of the request
    leaves through [?]. *)
Definition start_vfs (request : PM S (result unit VfsError)) (op : PendingOp) (op_type : OpType)
  : SvcM (result Z AppError) :=
  t ← self;
  let '(request_id, t') := alloc_request_id t in
  modify (fun _ => t') ;;
  r ← lift request;
  match r with
  | Err e => mret (Err (app_error_of_vfs e))
  | Ok _ =>
      modify (fun t => set_pending (<[request_id := (op, op_type)]> (tm_pending_ops t)) t) ;; mret (Ok request_id)
  end.

Definition start_vfs_read (path : string) (op : PendingOp) := start_vfs (send_read_request path) op OpRead.
Definition start_vfs_write (path : string) (value : list byte) (op : PendingOp) :=
  start_vfs (send_write_request path value) op OpWrite.

Definition discard (r : result Z AppError) : result unit AppError := match r with Ok _ => Ok tt | Err e => Err e end.

(** ** Responses *)
Definition reply (to_pid : Z) (cap_slots : list Z) (tag : Z) (json : list byte) : SvcM (result unit AppError) :=
  let fallback := call (L_debug (response_line to_pid tag json)) ;; mret (Ok tt) in
  match cap_slots with
  | reply_slot :: _ =>
      r ← call (L_send reply_slot tag json);
      match r with Ok _ => mret (Ok tt) | Err _ => fallback end
  | [] => fallback
  end.

Definition send_settings_response (to_pid : Z) (cap_slots : list Z) (s : TimeSettings) (response_tag : Z) :=
  reply to_pid cap_slots response_tag (to_json s).

Definition send_error_response (to_pid : Z) (cap_slots : list Z) (error : string) :=
  reply to_pid cap_slots MSG_SET_TIME_SETTINGS_RESPONSE (error_json error).

(** ** Requests *)
Definition handle_get_time_settings (msg : AppMessage) : SvcM (result unit AppError) :=
  let error := send_error_response (am_from_pid msg) (am_cap_slots msg) in
  if negb (check_get_permission (am_from_pid msg)) then
    error "Permission denied: GET_TIME_SETTINGS requires time capability"
  else
    t ← self;
    if tm_settings_loaded t then
      send_settings_response (am_from_pid msg) (am_cap_slots msg) (tm_settings t) MSG_GET_TIME_SETTINGS_RESPONSE
    else if negb (check_pending_limit t) then error "Service busy: pending operation limit reached"
    else
      r ← start_vfs_read storage_path (P_GetSettings (am_from_pid msg) (am_cap_slots msg));
      mret (discard r).

Definition handle_set_time_settings (msg : AppMessage) : SvcM (result unit AppError) :=
  let error := send_error_response (am_from_pid msg) (am_cap_slots msg) in
  t ← self;
  if negb (check_set_permission (am_from_pid msg)) then
    error "Permission denied: SET_TIME_SETTINGS requires system privilege"
  else if negb (check_pending_limit t) then error "Service busy: pending operation limit reached"
  else
    match from_json (am_data msg) with
    | None => error "Invalid settings format: JSON parse failed"
    | Some s =>
        r ← start_vfs_write storage_path (to_json s) (P_WriteSettings (am_from_pid msg) s (am_cap_slots msg));
        mret (discard r)
    end.

(** ** Responses of the file system *)
Definition take_op (op_type : OpType) : SvcM (option (Z * PendingOp)) :=
  t ← self;
  let '(r, t') := take_pending_by_type op_type t in
  modify (fun _ => t') ;; mret r.

Definition handle_vfs_read_response (msg : AppMessage) : SvcM (result unit AppError) :=
  pending ← take_op OpRead;
  match pending with
  | None => mret (Ok tt)
  | Some (_, op) =>
      let r := parse_read_response (am_data msg) in
      match op with
      | P_GetSettings client_pid cap_slots =>
          let s := match r with Ok data => default TimeSettings_default (from_json data) | Err _ => TimeSettings_default end in
          modify (cache_settings s) ;;
          send_settings_response client_pid cap_slots s MSG_GET_TIME_SETTINGS_RESPONSE
      | P_InitialLoad =>
          let loaded := match r with Ok data => from_json data | Err _ => None end in
          modify (fun t => cache_settings (default (tm_settings t) loaded) t) ;; mret (Ok tt)
      | P_WriteSettings _ _ _ => mret (Ok tt)
      end
  end.

Definition handle_vfs_write_response (msg : AppMessage) : SvcM (result unit AppError) :=
  pending ← take_op OpWrite;
  match pending with
  | None => mret (Ok tt)
  | Some (_, op) =>
      match op with
      | P_WriteSettings client_pid s cap_slots =>
          match parse_write_response (am_data msg) with
          | Ok _ =>
              modify (cache_settings s) ;;
              send_settings_response client_pid cap_slots s MSG_SET_TIME_SETTINGS_RESPONSE
          | Err e => send_error_response client_pid cap_slots ("VFS write failed for " +:+ storage_path +:+ ": " +:+ e)
          end
      | _ => mret (Ok tt)
      end
  end.

(** ** The application *)
Definition time_init (_ : AppContext) : SvcM (result unit AppError) :=
  call (L_send INIT_ENDPOINT_SLOT MSG_REGISTER_SERVICE (registration "time")) ;;
  modify (fun t => mk_TimeService true (tm_settings t) (tm_pending_ops t) (tm_next_request_id t) (tm_settings_loaded t)) ;;
  start_vfs_read storage_path P_InitialLoad ;; mret (Ok tt).

Definition time_on_message (_ : AppContext) (msg : AppMessage) : SvcM (result unit AppError) :=
  let tag := am_tag msg in
  if tag =? MSG_VFS_READ_RESPONSE then handle_vfs_read_response msg
  else if tag =? MSG_VFS_WRITE_RESPONSE then handle_vfs_write_response msg
  else if tag =? MSG_GET_TIME_SETTINGS then handle_get_time_settings msg
  else if tag =? MSG_SET_TIME_SETTINGS then handle_set_time_settings msg
  else mret (Ok tt).
End service.

#[export] Instance TimeService_app {J : TimeJson} {V : VfsClientJson} : ZeroApp TimeService := {|
  app_init := fun S _ => time_init;
  app_update := fun _ _ _ => mret CF_Yield;
  app_on_message := fun S _ => time_on_message;
  app_shutdown := fun _ _ _ => mret tt |}.
