(* ===== verification/AppProtocol.v ===== *)
(** * The protocol between applications and their windows (crates/zos-apps/src/protocol)

    wire_format.rs, serializable.rs, input.rs and the states of the applications
    (apps/clock/state.rs, calculator/state.rs, settings/state.rs,
    terminal/state.rs). A decoder takes the payload and the cursor and returns the
    new cursor; a [char] is its scalar value. *)
From S2P Require Import Prelude StrLib ProcessLib AppFramework.

Local Open Scope Z_scope.

Inductive ProtocolError : Type :=
| TooShort
| UnknownVersion (version : Z)
| PayloadOverflow (declared available : Z)
| StringOverflow (declared available : Z)
| InvalidUtf8
| EmptyPayload
| UnexpectedType (expected got : Z)
| UnknownMessageType (tag : Z)
| InvalidEnumValue (field : string) (value : Z).

Definition PROTOCOL_VERSION : Z := 0x01.

(** ** wire_format.rs *)
Record Envelope : Type := mk_Envelope { en_version : Z; en_type_tag : Z; en_payload : list byte }.

Definition Envelope_new (type_tag : Z) (payload : list byte) : Envelope := mk_Envelope PROTOCOL_VERSION type_tag payload.

Definition encode_envelope (e : Envelope) : list byte :=
  byte_of_Z (en_version e) :: byte_of_Z (en_type_tag e) ::
  u16_to_le_bytes (wrap_u16 (len (en_payload e))) ++ en_payload e.

Definition decode_envelope (data : list byte) : result Envelope ProtocolError :=
  if len data <? 4 then Err TooShort
  else
    let version := get_u8 0 data in
    if negb (version =? PROTOCOL_VERSION) then Err (UnknownVersion version)
    else
      let payload_len := get_u16 2 data in
      if len data <? 4 + payload_len then Err (PayloadOverflow payload_len (len data - 4))
      else Ok (mk_Envelope version (get_u8 1 data) (take (Z.to_nat payload_len) (drop 4 data))).

Definition encode_string (s : string) : list byte := u16_to_le_bytes (wrap_u16 (str_len s)) ++ str_bytes s.

(** Decoders. *)
Definition Dec (T : Type) : Type := list byte -> nat -> result (T * nat) ProtocolError.

#[export] Instance Dec_ret : MRet Dec := fun _ x _ cursor => Ok (x, cursor).
#[export] Instance Dec_bind : MBind Dec := fun _ _ k m data cursor =>
  match m data cursor with Ok (x, c) => k x data c | Err e => Err e end.

Definition dec_fail {T} (e : ProtocolError) : Dec T := fun _ _ => Err e.

Definition decode_string : Dec string := fun data cursor =>
  if len data <? Z.of_nat cursor + 2 then Err TooShort
  else
    let n := get_u16 cursor data in
    let start := (cursor + 2)%nat in
    if len data <? Z.of_nat start + n then Err (StringOverflow n (len data - Z.of_nat start))
    else
      match from_utf8 (take (Z.to_nat n) (drop start data)) with
      | Some s => Ok (s, (start + Z.to_nat n)%nat)
      | None => Err InvalidUtf8
      end.

Definition decode_u8 : Dec Z := fun data cursor =>
  if len data <=? Z.of_nat cursor then Err TooShort else Ok (get_u8 cursor data, S cursor).

Definition decode_u16 : Dec Z := fun data cursor =>
  if len data <? Z.of_nat cursor + 2 then Err TooShort else Ok (get_u16 cursor data, (cursor + 2)%nat).

Definition decode_u32 : Dec Z := fun data cursor =>
  if len data <? Z.of_nat cursor + 4 then Err TooShort else Ok (get_u32 cursor data, (cursor + 4)%nat).

Definition decode_bool : Dec bool := b ← decode_u8; mret (negb (b =? 0)).

(** [char::from_u32]. *)
Definition char_from_u32 (code : Z) : option Z :=
  if (0 <=? code) && (code <=? 0x10FFFF) && negb ((0xD800 <=? code) && (code <=? 0xDFFF)) then Some code else None.

Definition decode_optional_char : Dec (option Z) :=
  has_value ← decode_u8;
  if has_value =? 0 then mret None else (code ← decode_u32; mret (char_from_u32 code)).

Definition encode_optional_char (c : option Z) : list byte :=
  match c with None => [x00] | Some ch => x01 :: u32_to_le_bytes ch end.

Definition encode_bool (b : bool) : list byte := [if b then x01 else x00].

Definition encode_u8 (z : Z) : list byte := [byte_of_Z z].

(** The header that every [from_bytes] checks: the envelope, its type, and the tag
    at the start of the payload; the fields follow. *)
Definition from_payload {T} (tag : Z) (fields : Dec T) (data : list byte) : result T ProtocolError :=
  match decode_envelope data with
  | Err e => Err e
  | Ok e =>
      if negb (en_type_tag e =? tag) then Err (UnexpectedType tag (en_type_tag e))
      else if len (en_payload e) =? 0 then Err EmptyPayload
      else if negb (get_u8 0 (en_payload e) =? tag) then Err (UnexpectedType tag (get_u8 0 (en_payload e)))
      else match fields (en_payload e) 1%nat with Ok (x, _) => Ok x | Err e => Err e end
  end.

Definition to_payload (tag : Z) (fields : list byte) : list byte :=
  encode_envelope (Envelope_new tag (byte_of_Z tag :: fields)).

(** ** Type tags *)
Definition TYPE_CLOCK_STATE : Z := 0x01.
Definition TYPE_CALCULATOR_STATE : Z := 0x02.
Definition TYPE_SETTINGS_STATE : Z := 0x03.
Definition TYPE_TERMINAL_STATE : Z := 0x03.
Definition TYPE_BUTTON_PRESS : Z := 0x10.
Definition TYPE_TEXT_INPUT : Z := 0x11.
Definition TYPE_KEY_PRESS : Z := 0x12.
Definition TYPE_FOCUS_CHANGE : Z := 0x13.
Definition TYPE_TERMINAL_INPUT : Z := 0x20.

(** ** input.rs *)
Inductive InputEvent : Type :=
| ButtonPress (name : string)
| TextInput (text : string)
| KeyPress (key_code modifiers : Z)
| FocusChange (gained : bool).

Definition event_tag (e : InputEvent) : Z :=
  match e with
  | ButtonPress _ => TYPE_BUTTON_PRESS | TextInput _ => TYPE_TEXT_INPUT
  | KeyPress _ _ => TYPE_KEY_PRESS | FocusChange _ => TYPE_FOCUS_CHANGE
  end.

Definition event_fields (e : InputEvent) : list byte :=
  match e with
  | ButtonPress name => encode_string name
  | TextInput text => encode_string text
  | KeyPress key_code modifiers => u32_to_le_bytes key_code ++ encode_u8 modifiers
  | FocusChange gained => encode_bool gained
  end.

Definition InputEvent_to_bytes (e : InputEvent) : list byte := to_payload (event_tag e) (event_fields e).

Definition decode_event (tag : Z) : Dec InputEvent :=
  if tag =? TYPE_BUTTON_PRESS then (s ← decode_string; mret (ButtonPress s))
  else if tag =? TYPE_TEXT_INPUT then (s ← decode_string; mret (TextInput s))
  else if tag =? TYPE_KEY_PRESS then (k ← decode_u32; m ← decode_u8; mret (KeyPress k m))
  else if tag =? TYPE_FOCUS_CHANGE then (g ← decode_bool; mret (FocusChange g))
  else dec_fail (UnknownMessageType tag).

(** The tag of the envelope decides; the tag of the payload must agree. *)
Definition InputEvent_from_bytes (data : list byte) : result InputEvent ProtocolError :=
  match decode_envelope data with
  | Err e => Err e
  | Ok e =>
      if len (en_payload e) =? 0 then Err EmptyPayload
      else if negb (get_u8 0 (en_payload e) =? en_type_tag e) then
        Err (UnexpectedType (en_type_tag e) (get_u8 0 (en_payload e)))
      else match decode_event (en_type_tag e) (en_payload e) 1%nat with Ok (x, _) => Ok x | Err e => Err e end
  end.

Definition button_name (e : InputEvent) : option string := match e with ButtonPress name => Some name | _ => None end.
Definition text_content (e : InputEvent) : option string := match e with TextInput text => Some text | _ => None end.

(** ** States of the applications *)
Record ClockState : Type := mk_ClockState {
  cl_time_display : string; cl_date_display : string; cl_is_24_hour : bool; cl_timezone : string }.

Definition ClockState_to_bytes (s : ClockState) : list byte :=
  to_payload TYPE_CLOCK_STATE (encode_string (cl_time_display s) ++ encode_string (cl_date_display s) ++
    encode_bool (cl_is_24_hour s) ++ encode_string (cl_timezone s)).

Definition ClockState_from_bytes : list byte -> result ClockState ProtocolError :=
  from_payload TYPE_CLOCK_STATE
    (time ← decode_string; date ← decode_string; h24 ← decode_bool; zone ← decode_string;
     mret (mk_ClockState time date h24 zone)).

Record CalculatorState : Type := mk_CalculatorState {
  ca_display : string; ca_pending_op : option Z; ca_has_error : bool; ca_memory_indicator : bool }.

Definition CalculatorState_to_bytes (s : CalculatorState) : list byte :=
  to_payload TYPE_CALCULATOR_STATE (encode_string (ca_display s) ++ encode_optional_char (ca_pending_op s) ++
    encode_bool (ca_has_error s) ++ encode_bool (ca_memory_indicator s)).

Definition CalculatorState_from_bytes : list byte -> result CalculatorState ProtocolError :=
  from_payload TYPE_CALCULATOR_STATE
    (display ← decode_string; op ← decode_optional_char; err ← decode_bool; mem ← decode_bool;
     mret (mk_CalculatorState display op err mem)).

Record SettingsState : Type := mk_SettingsState {
  se_active_area : Z;
  se_active_item : string;
  se_time_format_24h : bool;
  se_timezone : string;
  se_theme : string;
  se_accent : string;
  se_background : string;
  se_has_neural_key : bool;
  se_machine_key_count : Z;
  se_linked_account_count : Z;
  se_running_process_count : Z;
  se_total_capability_count : Z }.

Definition SettingsState_new : SettingsState :=
  mk_SettingsState 0 "" false "UTC" "dark" "cyan" "grain" false 0 0 0 0.

Definition SettingsState_to_bytes (s : SettingsState) : list byte :=
  to_payload TYPE_SETTINGS_STATE (encode_u8 (se_active_area s) ++ encode_string (se_active_item s) ++
    encode_bool (se_time_format_24h s) ++ encode_string (se_timezone s) ++ encode_string (se_theme s) ++
    encode_string (se_accent s) ++ encode_string (se_background s) ++ encode_bool (se_has_neural_key s) ++
    encode_u8 (se_machine_key_count s) ++ encode_u8 (se_linked_account_count s) ++
    encode_u8 (se_running_process_count s) ++ encode_u8 (se_total_capability_count s)).

Definition decode_area : Dec Z :=
  area ← decode_u8;
  if 3 <? area then dec_fail (InvalidEnumValue "SettingsArea" area) else mret area.

Definition SettingsState_from_bytes : list byte -> result SettingsState ProtocolError :=
  from_payload TYPE_SETTINGS_STATE
    (area ← decode_area; item ← decode_string; h24 ← decode_bool; zone ← decode_string; theme ← decode_string;
     accent ← decode_string; background ← decode_string; neural ← decode_bool; machines ← decode_u8;
     accounts ← decode_u8; procs ← decode_u8; caps ← decode_u8;
     mret (mk_SettingsState area item h24 zone theme accent background neural machines accounts procs caps)).

Record TerminalState : Type := mk_TerminalState {
  te_output : string; te_prompt : string; te_cursor_pos : Z; te_ready : bool }.

Definition TerminalState_to_bytes (s : TerminalState) : list byte :=
  to_payload TYPE_TERMINAL_STATE (encode_string (te_output s) ++ encode_string (te_prompt s) ++
    u32_to_le_bytes (te_cursor_pos s) ++ encode_bool (te_ready s)).

(** The last field may be missing. *)
Definition decode_ready : Dec bool := fun data cursor =>
  Ok (if Z.of_nat cursor <? len data then negb (get_u8 cursor data =? 0) else true, cursor).

Definition TerminalState_from_bytes : list byte -> result TerminalState ProtocolError :=
  from_payload TYPE_TERMINAL_STATE
    (output ← decode_string; prompt ← decode_string; pos ← decode_u32; ready ← decode_ready;
     mret (mk_TerminalState output prompt pos ready)).

Inductive InputAction : Type :=
| IA_Char | IA_Enter | IA_Tab | IA_Up | IA_Down | IA_Backspace | IA_Delete | IA_Interrupt | IA_Eof | IA_Clear.

Definition InputAction_as_u8 (a : InputAction) : Z :=
  match a with
  | IA_Char => 0 | IA_Enter => 1 | IA_Tab => 2 | IA_Up => 3 | IA_Down => 4 | IA_Backspace => 5 | IA_Delete => 6
  | IA_Interrupt => 7 | IA_Eof => 8 | IA_Clear => 9
  end.

Definition InputAction_from_u8 (v : Z) : option InputAction :=
  match v with
  | 0 => Some IA_Char | 1 => Some IA_Enter | 2 => Some IA_Tab | 3 => Some IA_Up | 4 => Some IA_Down
  | 5 => Some IA_Backspace | 6 => Some IA_Delete | 7 => Some IA_Interrupt | 8 => Some IA_Eof | 9 => Some IA_Clear
  | _ => None
  end.

Record TerminalInput : Type := mk_TerminalInput { ti_text : string; ti_action : InputAction }.

Definition TerminalInput_to_bytes (i : TerminalInput) : list byte :=
  to_payload TYPE_TERMINAL_INPUT (encode_u8 (InputAction_as_u8 (ti_action i)) ++ encode_string (ti_text i)).

Definition TerminalInput_from_bytes (data : list byte) : result TerminalInput ProtocolError :=
  match decode_envelope data with
  | Err e => Err e
  | Ok e =>
      let payload := en_payload e in
      if negb (en_type_tag e =? TYPE_TERMINAL_INPUT) then Err (UnexpectedType TYPE_TERMINAL_INPUT (en_type_tag e))
      else if len payload <? 2 then Err TooShort
      else if negb (get_u8 0 payload =? TYPE_TERMINAL_INPUT) then
        Err (UnexpectedType TYPE_TERMINAL_INPUT (get_u8 0 payload))
      else
        match InputAction_from_u8 (get_u8 1 payload) with
        | None => Err (InvalidEnumValue "InputAction" (get_u8 1 payload))
        | Some action =>
            match decode_string payload 2%nat with
            | Ok (text, _) => Ok (mk_TerminalInput text action)
            | Err e => Err e
            end
        end
  end.

(** * The application protocol: round trips

    Every state and event that fits the length field is decoded as it was encoded,
    and only those: a longer payload is cut. *)
From Stdlib Require Import ZifyBool.

Local Open Scope Z_scope.

(** A decoder reads back what an encoder wrote, wherever it stands. *)
Definition reads {T} (dec : Dec T) (bytes : list byte) (x : T) : Prop :=
  forall pre post, dec (pre ++ bytes ++ post) (length pre) = Ok (x, (length pre + length bytes)%nat).

Lemma reads_ret {T} (x : T) : reads (mret x) [] x.
Proof. intros pre post. unfold mret, Dec_ret. simpl. by rewrite Nat.add_0_r. Qed.

Lemma reads_bind {T U} (m : Dec T) (k : T -> Dec U) b1 b2 x y :
  reads m b1 x -> reads (k x) b2 y -> reads (m ≫= k) (b1 ++ b2) y.
Proof.
  intros H1 H2 pre post. unfold mbind, Dec_bind. rewrite <- (assoc_L _ b1 b2 post), H1.
  rewrite (assoc_L _ pre b1 _), <- length_app, H2, !length_app. f_equal. f_equal. lia.
Qed.

Lemma reads_last {T U} (m : Dec T) (f : T -> U) b x : reads m b x -> reads (y ← m; mret (f y)) b (f x).
Proof. intros Hm. rewrite <- (app_nil_r b). by eapply reads_bind, reads_ret. Qed.

(** ** Numbers and strings *)
Lemma get_at n off pre (b : list byte) post :
  off = length pre -> length b = n -> take n (drop off (pre ++ b ++ post)) = b.
Proof. intros -> <-. by rewrite drop_app_length, take_app_length. Qed.

Lemma len_app3 {T} (a b c : list T) : len (a ++ b ++ c) = len a + len b + len c.
Proof. unfold len. rewrite !length_app. lia. Qed.

Lemma reads_u8 z : 0 <= z < 256 -> reads decode_u8 (encode_u8 z) z.
Proof.
  intros Hz pre post. unfold decode_u8, encode_u8. rewrite len_app3.
  assert ((len pre + len [byte_of_Z z] + len post <=? Z.of_nat (length pre)) = false) as -> by (unfold len; cbn [length]; lia).
  unfold get_u8. rewrite get_at by done. rewrite Nat.add_1_r. f_equal. f_equal.
  change [byte_of_Z z] with (to_le_bytes 1 z). by rewrite from_to_le_bytes, Z.mod_small.
Qed.

Lemma reads_u32 z : 0 <= z < 2 ^ 32 -> reads decode_u32 (u32_to_le_bytes z) z.
Proof.
  intros Hz pre post. unfold decode_u32. rewrite len_app3.
  assert (length (u32_to_le_bytes z) = 4%nat) as Hl by apply length_to_le_bytes.
  assert ((len pre + len (u32_to_le_bytes z) + len post <? Z.of_nat (length pre) + 4) = false) as ->
    by (unfold len; rewrite Hl; lia).
  unfold get_u32. rewrite get_at, Hl by done. f_equal. f_equal. unfold u32_to_le_bytes. by rewrite from_to_le_bytes, Z.mod_small.
Qed.

Lemma reads_bool b : reads decode_bool (encode_bool b) b.
Proof. intros pre post. pose proof (reads_last decode_u8 (fun z => negb (z =? 0)) _ _ (reads_u8 (if b then 1 else 0) ltac:(destruct b; lia)) pre post) as Hr. by destruct b. Qed.

Lemma len_str_bytes_Z s : Z.of_nat (length (str_bytes s)) = str_len s.
Proof. unfold str_len. f_equal. induction s as [|a s IH]; [done|]. exact (f_equal S IH). Qed.

(** Strings of Rust are valid UTF-8. *)
Definition utf8 (s : string) : Prop := from_utf8 (str_bytes s) = Some s.

Lemma reads_string s : utf8 s -> str_len s < 2 ^ 16 -> reads decode_string (encode_string s) s.
Proof.
  intros Hu Hs pre post. unfold decode_string, encode_string.
  assert (wrap_u16 (str_len s) = str_len s) as -> by (apply Z.mod_small; unfold str_len in *; lia).
  set (n := u16_to_le_bytes (str_len s)). assert (length n = 2%nat) as Hn by apply length_to_le_bytes.
  assert (Z.of_nat (length (str_bytes s)) = str_len s) as Hb by apply len_str_bytes_Z.
  rewrite len_app3. unfold len. rewrite length_app, Hn.
  assert ((Z.of_nat (length pre) + Z.of_nat (2 + length (str_bytes s)) + Z.of_nat (length post) <? Z.of_nat (length pre) + 2)
    = false) as -> by lia.
  assert (get_u16 (length pre) (pre ++ (n ++ str_bytes s) ++ post) = str_len s) as ->.
  { unfold get_u16. rewrite <- (assoc_L _ n), get_at by done. unfold n, u16_to_le_bytes. rewrite from_to_le_bytes. apply Z.mod_small. unfold str_len in *. lia. }
  assert ((Z.of_nat (length pre) + Z.of_nat (2 + length (str_bytes s)) + Z.of_nat (length post) <?
    Z.of_nat (length pre + 2) + str_len s) = false) as -> by lia.
  rewrite <- (assoc_L _ n), (assoc_L _ pre n). rewrite get_at by (rewrite ?length_app; lia).
  rewrite Hu. f_equal. f_equal. lia.
Qed.

Definition char_ok (c : option Z) : Prop := forall ch, c = Some ch -> char_from_u32 ch = Some ch.

Lemma reads_optional_char c : char_ok c -> reads decode_optional_char (encode_optional_char c) c.
Proof.
  intros Hc. unfold decode_optional_char. destruct c as [ch|].
  2: { change (encode_optional_char None) with (encode_u8 0 ++ []). eapply reads_bind; [by apply reads_u8|]. apply reads_ret. }
  specialize (Hc ch eq_refl). assert (0 <= ch < 2 ^ 32) as Hr by (unfold char_from_u32 in Hc; case_match; [lia|done]).
  change (encode_optional_char (Some ch)) with (encode_u8 1 ++ u32_to_le_bytes ch). eapply reads_bind; [by apply reads_u8|].
  pose proof (reads_last decode_u32 char_from_u32 _ _ (reads_u32 ch Hr)) as Hl. rewrite Hc in Hl. exact Hl.
Qed.

Lemma reads_area z : 0 <= z <= 3 -> reads decode_area (encode_u8 z) z.
Proof.
  intros Hz. unfold decode_area. rewrite <- (app_nil_r (encode_u8 z)). eapply reads_bind; [by apply reads_u8; lia|].
  assert ((3 <? z) = false) as -> by lia. apply reads_ret.
Qed.

(** ** Envelopes *)
Definition fits (tag : Z) (fields : list byte) : Prop := len fields + 1 < 2 ^ 16 /\ 0 <= tag < 256.

Lemma decode_encode_envelope e :
  en_version e = PROTOCOL_VERSION -> 0 <= en_type_tag e < 256 ->
  decode_envelope (encode_envelope e) =
    Ok (mk_Envelope PROTOCOL_VERSION (en_type_tag e) (take (Z.to_nat (len (en_payload e) mod 2 ^ 16)) (en_payload e))).
Proof.
  intros Hv Ht. destruct e as [v t p]. simpl in *. subst v. unfold decode_envelope, encode_envelope. cbn [en_version en_type_tag en_payload].
  set (n := u16_to_le_bytes (wrap_u16 (len p))). assert (length n = 2%nat) as Hn by apply length_to_le_bytes.
  set (data := byte_of_Z PROTOCOL_VERSION :: byte_of_Z t :: n ++ p).
  assert (len data = 4 + len p) as Hl by (unfold data, len; cbn [length]; rewrite length_app, Hn; lia).
  assert (get_u8 0 data = PROTOCOL_VERSION) as -> by done.
  assert (get_u8 1 data = t) as ->.
  { change (from_le_bytes (to_le_bytes 1 t) = t). by rewrite from_to_le_bytes, Z.mod_small. }
  assert (get_u16 2 data = len p mod 2 ^ 16) as ->.
  { change (from_le_bytes (take 2 (n ++ p)) = len p mod 2 ^ 16). rewrite take_app_length' by done.
    unfold n, u16_to_le_bytes, wrap_u16. rewrite from_to_le_bytes. by rewrite Z.mod_mod. }
  assert (drop 4 data = p) as -> by (unfold data; cbn [drop]; by apply drop_app_length').
  rewrite Hl. assert (0 <= len p mod 2 ^ 16 <= len p) as Hm.
  { pose proof (Z.mod_pos_bound (len p) (2 ^ 16) ltac:(lia)). split; [lia|]. apply Z.mod_le; unfold len; lia. }
  assert ((4 + len p <? 4) = false) as -> by (unfold len; lia). simpl.
  by assert ((4 + len p <? 4 + len p mod 2 ^ 16) = false) as -> by lia.
Qed.

(** What the last decoder of a payload reads; its cursor does not matter. *)
Definition reads_end {T} (dec : Dec T) (bytes : list byte) (x : T) : Prop :=
  forall pre, exists c, dec (pre ++ bytes) (length pre) = Ok (x, c).

Lemma reads_to_end {T} (dec : Dec T) bytes x : reads dec bytes x -> reads_end dec bytes x.
Proof. intros Hr pre. pose proof (Hr pre []) as E. rewrite app_nil_r in E. eauto. Qed.

Lemma reads_end_bind {T U} (m : Dec T) (k : T -> Dec U) b1 b2 x y :
  reads m b1 x -> reads_end (k x) b2 y -> reads_end (m ≫= k) (b1 ++ b2) y.
Proof.
  intros H1 H2 pre. unfold mbind, Dec_bind. rewrite H1, (assoc_L _ pre b1 b2), <- length_app. apply H2.
Qed.

Lemma payload_tag tag fields : 0 <= tag < 256 -> get_u8 0 (byte_of_Z tag :: fields) = tag.
Proof. intros Ht. change (from_le_bytes (to_le_bytes 1 tag) = tag). by rewrite from_to_le_bytes, Z.mod_small. Qed.

(** The envelope of a message that fits. *)
Lemma to_payload_decodes tag fields :
  fits tag fields -> decode_envelope (to_payload tag fields) = Ok (mk_Envelope PROTOCOL_VERSION tag (byte_of_Z tag :: fields)).
Proof.
  intros [Hf Ht]. unfold to_payload. rewrite decode_encode_envelope by done. cbn [en_type_tag en_payload Envelope_new].
  assert (len (byte_of_Z tag :: fields) = len fields + 1) as Hl by (unfold len; cbn [length]; lia).
  rewrite Hl, Z.mod_small by (unfold len in *; lia). by rewrite take_ge by (unfold len in *; lia).
Qed.

Lemma from_to_payload {T} tag (dec : Dec T) fields x :
  fits tag fields -> reads_end dec fields x -> from_payload tag dec (to_payload tag fields) = Ok x.
Proof.
  intros Hf Hr. unfold from_payload. rewrite to_payload_decodes by done. cbn [en_type_tag en_payload].
  rewrite Z.eqb_refl. assert ((len (byte_of_Z tag :: fields) =? 0) = false) as -> by done. cbn [negb].
  rewrite payload_tag by apply Hf. rewrite Z.eqb_refl. destruct (Hr [byte_of_Z tag]) as [c E]. simpl in E. by rewrite E.
Qed.

(** ** Messages *)
Definition u8 (z : Z) : Prop := 0 <= z < 256.

Definition clock_ok (s : ClockState) : Prop := utf8 (cl_time_display s) /\ utf8 (cl_date_display s) /\ utf8 (cl_timezone s).
Definition calculator_ok (s : CalculatorState) : Prop := utf8 (ca_display s) /\ char_ok (ca_pending_op s).
Definition settings_ok (s : SettingsState) : Prop :=
  0 <= se_active_area s <= 3 /\ utf8 (se_active_item s) /\ utf8 (se_timezone s) /\ utf8 (se_theme s) /\ utf8 (se_accent s) /\
  utf8 (se_background s) /\ u8 (se_machine_key_count s) /\ u8 (se_linked_account_count s) /\
  u8 (se_running_process_count s) /\ u8 (se_total_capability_count s).
Definition terminal_ok (s : TerminalState) : Prop := utf8 (te_output s) /\ utf8 (te_prompt s) /\ 0 <= te_cursor_pos s < 2 ^ 32.
Definition event_ok (e : InputEvent) : Prop :=
  match e with
  | ButtonPress s | TextInput s => utf8 s
  | KeyPress k m => 0 <= k < 2 ^ 32 /\ u8 m
  | FocusChange _ => True
  end.

(** The bytes of a message with a payload that fits the 16-bit length field. *)
Definition fits_envelope (bytes : list byte) : Prop := len bytes < 2 ^ 16 + 4.

Lemma fits_payload tag fields : 0 <= tag < 256 -> fits_envelope (to_payload tag fields) -> fits tag fields.
Proof.
  intros Ht Hf. split; [|done]. unfold fits_envelope, to_payload, encode_envelope, len in *. simpl in Hf. lia.
Qed.

Lemma len_encode_string s : len (encode_string s) = 2 + str_len s.
Proof. unfold encode_string, len. rewrite length_app, Nat2Z.inj_add, len_str_bytes_Z. done. Qed.

Lemma len_app' {T} (a b : list T) : len (a ++ b) = len a + len b.
Proof. unfold len. rewrite length_app. lia. Qed.

Lemma len_nonneg {T} (a : list T) : 0 <= len a.
Proof. unfold len. lia. Qed.

Lemma reads_ready b : reads_end decode_ready (encode_bool b) b.
Proof.
  intros pre. unfold decode_ready. exists (length pre). f_equal. f_equal.
  assert ((Z.of_nat (length pre) <? len (pre ++ encode_bool b)) = true) as -> by (rewrite len_app'; unfold len; simpl; lia).
  unfold get_u8. rewrite drop_app_length. by destruct b.
Qed.

(** Reads the fields one after the other. *)
Ltac wire_bound := match goal with Hf : fits _ _ |- str_len _ < _ =>
  destruct Hf as [Hf _]; rewrite ?len_app', ?len_encode_string in Hf; unfold len, str_len in *; lia end.

Ltac wire_field :=
  first [ apply reads_string; [done|wire_bound] | apply reads_bool | by apply reads_optional_char | by apply reads_area
        | by apply reads_u8 | by apply reads_u32 ].

Ltac wire := first [ apply reads_to_end, reads_last; wire_field | eapply reads_end_bind; [wire_field|wire] ].

Lemma clock_roundtrip s : clock_ok s -> fits_envelope (ClockState_to_bytes s) -> ClockState_from_bytes (ClockState_to_bytes s) = Ok s.
Proof.
  intros (H1 & H2 & H3) Hf%fits_payload; [|done]. destruct s as [t d h z]. apply from_to_payload; [done|]. cbn [cl_time_display cl_date_display cl_is_24_hour cl_timezone] in *.
  wire.
Qed.

Lemma calculator_roundtrip s :
  calculator_ok s -> fits_envelope (CalculatorState_to_bytes s) -> CalculatorState_from_bytes (CalculatorState_to_bytes s) = Ok s.
Proof.
  intros (H1 & H2) Hf%fits_payload; [|done]. destruct s as [d p e m]. apply from_to_payload; [done|].
  cbn [ca_display ca_pending_op ca_has_error ca_memory_indicator] in *. wire.
Qed.

Lemma settings_roundtrip s :
  settings_ok s -> fits_envelope (SettingsState_to_bytes s) -> SettingsState_from_bytes (SettingsState_to_bytes s) = Ok s.
Proof.
  intros (H1 & H2 & H3 & H4 & H5 & H6 & H7 & H8 & H9 & H10) Hf%fits_payload; [|done]. destruct s as [f1 f2 f3 f4 f5 f6 f7 f8 f9 f10 f11 f12]. apply from_to_payload; [done|].
  cbn [se_active_area se_active_item se_time_format_24h se_timezone se_theme se_accent se_background se_has_neural_key
    se_machine_key_count se_linked_account_count se_running_process_count se_total_capability_count] in *. wire.
Qed.

Lemma terminal_roundtrip s :
  terminal_ok s -> fits_envelope (TerminalState_to_bytes s) -> TerminalState_from_bytes (TerminalState_to_bytes s) = Ok s.
Proof.
  intros (H1 & H2 & H3) Hf%fits_payload; [|done]. destruct s as [o p n r]. apply from_to_payload; [done|].
  cbn [te_output te_prompt te_cursor_pos te_ready] in *. do 3 (eapply reads_end_bind; [wire_field|]).
  intros pre. destruct (reads_ready r pre) as [c E]. exists c. unfold mbind, Dec_bind. by rewrite E.
Qed.

Lemma event_roundtrip e : event_ok e -> fits_envelope (InputEvent_to_bytes e) -> InputEvent_from_bytes (InputEvent_to_bytes e) = Ok e.
Proof.
  intros He Hf%fits_payload; [|by destruct e]. unfold InputEvent_from_bytes, InputEvent_to_bytes.
  rewrite to_payload_decodes by done. cbn [en_type_tag en_payload].
  assert ((len (byte_of_Z (event_tag e) :: event_fields e) =? 0) = false) as -> by done.
  rewrite payload_tag by apply Hf. rewrite Z.eqb_refl. cbn [negb].
  assert (reads_end (decode_event (event_tag e)) (event_fields e) e) as Hr.
  { destruct e; cbn [event_tag event_fields event_ok] in *; [wire|wire|destruct He; wire|wire]. }
  destruct (Hr [byte_of_Z (event_tag e)]) as [c E]. simpl in E. by rewrite E.
Qed.

Lemma input_roundtrip i :
  utf8 (ti_text i) -> fits_envelope (TerminalInput_to_bytes i) -> TerminalInput_from_bytes (TerminalInput_to_bytes i) = Ok i.
Proof.
  intros Hu Hf%fits_payload; [|done]. destruct i as [text action]. unfold TerminalInput_from_bytes, TerminalInput_to_bytes.
  rewrite to_payload_decodes by done. cbn [en_type_tag en_payload ti_text ti_action] in *. cbv zeta.
  rewrite Z.eqb_refl. cbn [negb]. rewrite payload_tag by done. rewrite Z.eqb_refl. cbn [negb].
  assert ((len (byte_of_Z TYPE_TERMINAL_INPUT :: encode_u8 (InputAction_as_u8 action) ++ encode_string text) <? 2) = false) as ->
    by (unfold len; simpl; lia).
  assert (get_u8 1 (byte_of_Z TYPE_TERMINAL_INPUT :: encode_u8 (InputAction_as_u8 action) ++ encode_string text) =
    InputAction_as_u8 action) as -> by (by destruct action).
  assert (InputAction_from_u8 (InputAction_as_u8 action) = Some action) as -> by (by destruct action).
  assert (reads decode_string (encode_string text) text) as Hr by (apply reads_string; [done|wire_bound]).
  pose proof (Hr (byte_of_Z TYPE_TERMINAL_INPUT :: encode_u8 (InputAction_as_u8 action)) []) as E.
  rewrite app_nil_r in E. simpl in E. simpl. by rewrite E.
Qed.

