(* ===== verification/Apps.v ===== *)
(** * Applications (crates/zos-apps/src/apps: clock, settings, terminal)

    Diagnostic debug lines are left out. Text is kept as bytes of UTF-8; white space
    is that of Unicode, recognised by its encodings. *)
From S2P Require Import Prelude StrLib AxiomTypes ProcessLib Bridge AppFramework Permission AppProtocol.

Local Open Scope string_scope.
Local Open Scope Z_scope.

Definition MSG_APP_STATE : Z := 0x2000.
Definition MSG_APP_INPUT : Z := 0x2001.
Definition MSG_CONSOLE_INPUT : Z := 0x0002.
Definition MSG_CAP_REVOKED : Z := 0x3010.

(** [AppError::from] of a protocol error; which one it was is not kept here. *)
Definition protocol_error {T} (_ : ProtocolError) : result T AppError := Err ProtocolErr.

(** The state of an application, sent to its window. *)
Definition send_state {A S : Type} `{Sys S} (ctx : AppContext) (bytes : list byte) : AppM A S (result unit AppError) :=
  match ctx_ui_endpoint ctx with
  | Some slot =>
      r ← call (L_send slot MSG_APP_STATE bytes);
      mret (match r with Ok _ => Ok tt | Err e => Err (IpcError ("Send failed: " +:+ pretty e)) end)
  | None => mret (Ok tt)
  end.

(** ** Formatting *)
Fixpoint spaces (n : nat) : string := match n with O => "" | S n' => String " " (spaces n') end.

(** [{:<w}] of text whose characters are one byte each. *)
Definition pad_right (w : nat) (s : string) : string := s +:+ spaces (w - String.length s).

(** [{:02}] and [{:03}]. *)
Definition pad_zero (w : nat) (n : Z) : string :=
  let s := pretty n in foldr (fun _ acc => String "0" acc) s (replicate (w - String.length s) tt).

Definition newline : string := String "010" "".

(** ** The clock *)
Module Clock.

Record ClockApp : Type := mk_ClockApp {
  ck_last_update_ns : Z; ck_cached_time : string; ck_cached_date : string; ck_update_interval : Z }.

Definition ClockApp_default : ClockApp := mk_ClockApp 0 "" "" 0.

Definition UPDATE_INTERVAL_NS : Z := 1000000000.

Definition day_names : list string := ["Thu"; "Fri"; "Sat"; "Sun"; "Mon"; "Tue"; "Wed"].

Definition format_time (wallclock_ms : Z) : string * string :=
  let total_seconds := wallclock_ms / 1000 in
  let seconds := total_seconds mod 60 in
  let minutes := (total_seconds / 60) mod 60 in
  let hours := (total_seconds / 3600) mod 24 in
  let time := pad_zero 2 hours +:+ ":" +:+ pad_zero 2 minutes +:+ ":" +:+ pad_zero 2 seconds in
  let days_since_epoch := total_seconds / 86400 in
  let day_of_week := default "" (day_names !! Z.to_nat (days_since_epoch mod 7)) in
  (time, day_of_week +:+ ", Day " +:+ pretty days_since_epoch).

Section app.
Context {S : Type} `{Sys S}.

Definition clock_send_state (ctx : AppContext) : AppM ClockApp S (result unit AppError) :=
  a ← self;
  send_state ctx (ClockState_to_bytes (mk_ClockState (ck_cached_time a) (ck_cached_date a) true "UTC")).

Definition clock_init (_ : AppContext) : AppM ClockApp S (result unit AppError) :=
  modify (fun a => mk_ClockApp (ck_last_update_ns a) "00:00:00" "Loading..." UPDATE_INTERVAL_NS) ;; mret (Ok tt).

Definition clock_update (ctx : AppContext) : AppM ClockApp S ControlFlow :=
  a ← self;
  if ck_update_interval a <=? wrap_u64 (ctx_uptime_ns ctx - ck_last_update_ns a) then
    let '(time, date) := format_time (ctx_wallclock_ms ctx) in
    modify (fun a => mk_ClockApp (ctx_uptime_ns ctx) time date (ck_update_interval a)) ;;
    clock_send_state ctx ;; mret CF_Yield
  else mret CF_Yield.
End app.

#[export] Instance ClockApp_app : ZeroApp ClockApp := {|
  app_init := fun S _ => clock_init;
  app_update := fun S _ => clock_update;
  app_on_message := fun _ _ _ _ => mret (Ok tt);
  app_shutdown := fun _ _ _ => mret tt |}.
End Clock.

(** ** Settings *)
Module Settings.

Definition SettingsApp : Type := SettingsState.

Definition set_area (area : Z) (s : SettingsState) : SettingsState :=
  mk_SettingsState area "" (se_time_format_24h s) (se_timezone s) (se_theme s) (se_accent s) (se_background s)
    (se_has_neural_key s) (se_machine_key_count s) (se_linked_account_count s) (se_running_process_count s)
    (se_total_capability_count s).

Definition set_item (item : string) (s : SettingsState) : SettingsState :=
  mk_SettingsState (se_active_area s) item (se_time_format_24h s) (se_timezone s) (se_theme s) (se_accent s)
    (se_background s) (se_has_neural_key s) (se_machine_key_count s) (se_linked_account_count s)
    (se_running_process_count s) (se_total_capability_count s).

Definition set_values (h24 : bool) (zone theme accent background : string) (s : SettingsState) : SettingsState :=
  mk_SettingsState (se_active_area s) (se_active_item s) h24 zone theme accent background (se_has_neural_key s)
    (se_machine_key_count s) (se_linked_account_count s) (se_running_process_count s) (se_total_capability_count s).

Definition handle_select_area (area : string) (s : SettingsState) : SettingsState :=
  if String.eqb area "general" then set_area 0 s
  else if String.eqb area "identity" then set_area 1 s
  else if String.eqb area "permissions" then set_area 2 s
  else if String.eqb area "theme" then set_area 3 s
  else s.

Definition handle_drill (item : string) : SettingsState -> SettingsState := set_item item.

Definition handle_back : SettingsState -> SettingsState := set_item "".

Definition handle_set (setting : string) (s : SettingsState) : SettingsState :=
  match split_once ":" setting with
  | None => s
  | Some (key, value) =>
      let h24 := se_time_format_24h s in
      let '(zone, theme, accent, bg) := (se_timezone s, se_theme s, se_accent s, se_background s) in
      if String.eqb key "time_format_24h" then set_values (String.eqb value "true") zone theme accent bg s
      else if String.eqb key "timezone" then set_values h24 value theme accent bg s
      else if String.eqb key "theme" then set_values h24 zone value accent bg s
      else if String.eqb key "accent" then set_values h24 zone theme value bg s
      else if String.eqb key "background" then set_values h24 zone theme accent value s
      else s
  end.

Definition strip (p s : string) : option string :=
  if starts_with p s then Some (str_drop (String.length p) s) else None.

Definition settings_handle_input (input : string) (s : SettingsState) : SettingsState :=
  match strip "select_area:" input with
  | Some area => handle_select_area area s
  | None =>
  match strip "drill:" input with
  | Some item => handle_drill item s
  | None =>
  if String.eqb input "back" then handle_back s
  else match strip "set:" input with Some setting => handle_set setting s | None => s end
  end end.

Section app.
Context {S : Type} `{Sys S}.

Definition settings_send_state (ctx : AppContext) : AppM SettingsApp S (result unit AppError) :=
  s ← self; send_state ctx (SettingsState_to_bytes s).

Definition settings_init (ctx : AppContext) : AppM SettingsApp S (result unit AppError) :=
  modify (fun _ => SettingsState_new) ;; settings_send_state ctx.

Definition settings_on_message (ctx : AppContext) (msg : AppMessage) : AppM SettingsApp S (result unit AppError) :=
  if am_tag msg =? MSG_APP_INPUT then
    match InputEvent_from_bytes (am_data msg) with
    | Err e => mret (protocol_error e)
    | Ok event =>
        match text_content event with
        | Some text => modify (settings_handle_input text) ;; settings_send_state ctx
        | None =>
            match button_name event with
            | Some name => modify (settings_handle_input name) ;; settings_send_state ctx
            | None => mret (Ok tt)
            end
        end
    end
  else mret (Ok tt).
End app.

#[export] Instance SettingsApp_app : ZeroApp SettingsApp := {|
  app_init := fun S _ => settings_init;
  app_update := fun _ _ _ => mret CF_Yield;
  app_on_message := fun S _ => settings_on_message;
  app_shutdown := fun _ _ _ => mret tt |}.
End Settings.

(** ** The terminal *)
Module Terminal.

(** *** Words and white space *)

(** The length of the white-space character at the head, or zero. *)
Definition ws_width (l : list byte) : nat :=
  match l with
  | b0 :: t =>
      if in_range 0x09 0x0D b0 || in_range 0x20 0x20 b0 then 1
      else match t with
      | b1 :: t' =>
          if in_range 0xC2 0xC2 b0 && (in_range 0x85 0x85 b1 || in_range 0xA0 0xA0 b1) then 2
          else match t' with
          | b2 :: _ =>
              if (in_range 0xE1 0xE1 b0 && in_range 0x9A 0x9A b1 && in_range 0x80 0x80 b2)
                 || (in_range 0xE2 0xE2 b0 && in_range 0x80 0x80 b1 &&
                     (in_range 0x80 0x8A b2 || in_range 0xA8 0xA9 b2 || in_range 0xAF 0xAF b2))
                 || (in_range 0xE2 0xE2 b0 && in_range 0x81 0x81 b1 && in_range 0x9F 0x9F b2)
                 || (in_range 0xE3 0xE3 b0 && in_range 0x80 0x80 b1 && in_range 0x80 0x80 b2) then 3
              else 0
          | [] => 0
          end
      | [] => 0
      end
  | [] => 0
  end%nat.

Fixpoint trim_start (fuel : nat) (l : list byte) : list byte :=
  match fuel with
  | O => l
  | S n => match ws_width l with O => l | w => trim_start n (drop w l) end
  end.

(** Up to the last character that is not white space. *)
Fixpoint trim_end (fuel : nat) (l : list byte) : list byte :=
  match fuel, l with
  | S n, b :: t => match trim_start (length l) l with [] => [] | _ => b :: trim_end n t end
  | _, _ => []
  end.

Definition text (l : list byte) : string := String.string_of_list_byte l.

Definition trim (s : string) : string :=
  let l := str_bytes s in text (trim_end (length l) (trim_start (length l) l)).

(** [split_whitespace], the current word kept in reverse. *)
Fixpoint words (fuel : nat) (word l : list byte) : list string :=
  let flush := match word with [] => [] | _ => [text (reverse word)] end in
  match fuel, l with
  | S n, b :: t =>
      match ws_width l with
      | O => words n (b :: word) t
      | w => (flush ++ words n [] (drop w l))%list
      end
  | _, _ => flush
  end.

Definition split_whitespace (s : string) : list string := words (String.length s) [] (str_bytes s).

(** [String::pop]: the last character goes. *)
Fixpoint pop_rev (l : list byte) : list byte :=
  match l with [] => [] | b :: t => if is_cont b then pop_rev t else t end.

Definition pop (s : string) : string := text (reverse (pop_rev (reverse (str_bytes s)))).

(** *** command.rs *)
Inductive Command : Type :=
| C_Help | C_Ps | C_Caps
| C_Spawn (process_type : string)
| C_Kill (pid : Z)
| C_Grant (from_slot to_pid : Z) (permissions : Permissions)
| C_Revoke (slot : Z)
| C_Echo (text : string)
| C_Time | C_Clear | C_Exit
| C_Unknown (cmd : string).

Inductive ParseError : Type :=
| MissingArgument (command argument : string)
| InvalidArgument (argument reason : string).

Definition parse_u32 (argument s : string) : result Z ParseError :=
  match uint_from_str_radix 32 10 s with Some n => Ok n | None => Err (InvalidArgument argument "must be a number") end.

Definition parse_grant (a0 a1 perms : string) : result Command ParseError :=
  match parse_u32 "from_slot" a0 with
  | Err e => Err e
  | Ok from_slot =>
      match parse_u32 "to_pid" a1 with
      | Err e => Err e
      | Ok to_pid =>
          Ok (C_Grant from_slot to_pid (mk_Permissions (str_contains_char "r" perms) (str_contains_char "w" perms)
            (str_contains_char "g" perms)))
      end
  end.

Definition parse (line : string) : result Command ParseError :=
  match split_whitespace line with
  | [] => Ok (C_Unknown "")
  | cmd :: args =>
      if String.eqb cmd "help" || String.eqb cmd "?" then Ok C_Help
      else if String.eqb cmd "ps" then Ok C_Ps
      else if String.eqb cmd "caps" then Ok C_Caps
      else if String.eqb cmd "spawn" then
        match args with [] => Err (MissingArgument "spawn" "process_type") | a :: _ => Ok (C_Spawn a) end
      else if String.eqb cmd "kill" then
        match args with
        | [] => Err (MissingArgument "kill" "pid")
        | a :: _ => match parse_u32 "pid" a with Ok pid => Ok (C_Kill pid) | Err e => Err e end
        end
      else if String.eqb cmd "grant" then
        match args with
        | a0 :: a1 :: a2 :: _ => parse_grant a0 a1 a2
        | _ => Err (MissingArgument "grant" "from_slot, to_pid, perms")
        end
      else if String.eqb cmd "revoke" then
        match args with
        | [] => Err (MissingArgument "revoke" "slot")
        | a :: _ => match parse_u32 "slot" a with Ok slot => Ok (C_Revoke slot) | Err e => Err e end
        end
      else if String.eqb cmd "echo" then Ok (C_Echo (join_char " " args))
      else if String.eqb cmd "time" || String.eqb cmd "uptime" then Ok C_Time
      else if String.eqb cmd "clear" || String.eqb cmd "cls" then Ok C_Clear
      else if String.eqb cmd "exit" || String.eqb cmd "quit" then Ok C_Exit
      else Ok (C_Unknown cmd)
  end.

(** *** mod.rs *)
Record TerminalApp : Type := mk_TerminalApp {
  ta_output_buffer : string;
  ta_history : list string;
  ta_history_index : Z;
  ta_input_buffer : string;
  ta_initialized : bool }.

Definition TerminalApp_default : TerminalApp := mk_TerminalApp "" [] 0 "" false.

Definition set_output (o : string) (a : TerminalApp) : TerminalApp :=
  mk_TerminalApp o (ta_history a) (ta_history_index a) (ta_input_buffer a) (ta_initialized a).
Definition set_index (i : Z) (a : TerminalApp) : TerminalApp :=
  mk_TerminalApp (ta_output_buffer a) (ta_history a) i (ta_input_buffer a) (ta_initialized a).
Definition set_input (s : string) (a : TerminalApp) : TerminalApp :=
  mk_TerminalApp (ta_output_buffer a) (ta_history a) (ta_history_index a) s (ta_initialized a).

(** [history.push(line); history_index = history.len()]. *)
Definition remember (line : string) (a : TerminalApp) : TerminalApp :=
  let h := (ta_history a ++ [line])%list in
  mk_TerminalApp (ta_output_buffer a) h (len h) (ta_input_buffer a) (ta_initialized a).

Definition PROMPT : string := "zero> ".
Definition ESC : string := String "027" "".
Definition CLEAR_SCREEN : string := ESC +:+ "[2J" +:+ ESC +:+ "[H".

Definition history_up (a : TerminalApp) : TerminalApp :=
  if 0 <? ta_history_index a then
    let i := ta_history_index a - 1 in
    match ta_history a !! Z.to_nat i with Some cmd => set_input cmd (set_index i a) | None => set_index i a end
  else a.

Definition history_down (a : TerminalApp) : TerminalApp :=
  if ta_history_index a <? len (ta_history a) then
    let i := ta_history_index a + 1 in
    if i <? len (ta_history a) then
      match ta_history a !! Z.to_nat i with Some cmd => set_input cmd (set_index i a) | None => set_index i a end
    else set_input "" (set_index i a)
  else a.

Definition format_cap_error (code : Z) : string :=
  if code =? E_BADF then "Permission denied: capability has been revoked"
  else if code =? E_PERM then "Permission denied: insufficient capability permissions"
  else if code =? E_NOENT then "Resource not found: capability may have been revoked"
  else "Operation failed (error code " +:+ pretty code +:+ ")".

Definition state_name (s : Z) : string :=
  match s with 0 => "Running" | 1 => "Blocked" | 2 => "Zombie" | _ => "???" end.

Definition type_name (t : Z) : string :=
  match t with
  | 1 => "Endpoint" | 2 => "Process" | 3 => "Memory" | 4 => "IRQ" | 5 => "I/O Port" | 6 => "Console" | 7 => "Storage"
  | 8 => "Network" | _ => "???"
  end.

Definition flag (b : bool) (s : string) : string := if b then s else "-".

Definition help_lines : list string :=
  ["=== Zero Terminal (userspace shell) ==="; "";
   "Process Management:";
   "  ps                - List running processes";
   "  spawn <type>      - Request process spawn";
   "  kill <pid>        - Request process termination"; "";
   "Capabilities:";
   "  caps              - List my capabilities";
   "  grant <slot> <pid> <perms> - Grant capability";
   "  revoke <slot>     - Revoke own capability"; "";
   "System:";
   "  echo <text>       - Echo text";
   "  time              - Show system uptime";
   "  clear             - Clear the screen";
   "  exit              - Exit the terminal"].

Section app.
Context {S : Type} `{Sys S}.

Abbreviation TM T := (AppM TerminalApp S T) (only parsing).

Definition print (s : string) : TM unit := modify (fun a => set_output (ta_output_buffer a +:+ s) a).
Definition println (s : string) : TM unit := print s ;; print newline.

Fixpoint print_lines (l : list string) : TM unit :=
  match l with [] => mret tt | s :: l' => println s ;; print_lines l' end.

Definition flush_output : TM (result unit AppError) :=
  a ← self;
  if String.eqb (ta_output_buffer a) "" then mret (Ok tt)
  else
    modify (set_output "") ;; call (L_console_write (ta_output_buffer a)) ;; mret (Ok tt).

Definition cmd_ps : TM unit :=
  procs ← call L_list_processes;
  print_lines ["PID  STATE    NAME"; "---  -----    ----"] ;;
  match procs with
  | [] => println "(no process data available)"
  | _ =>
      print_lines ((fun p => pad_right 4 (pretty (pi_pid p)) +:+ " " +:+ pad_right 8 (state_name (pi_state p)) +:+ " " +:+
        pi_name p) <$> procs)
  end.

Definition cap_line (c : ClientCapInfo) : string :=
  pad_right 5 (pretty (ci_slot c)) +:+ " " +:+ pad_right 9 (type_name (ci_object_type c)) +:+ " " +:+
  (flag (ci_can_read c) "R" +:+ flag (ci_can_write c) "W" +:+ flag (ci_can_grant c) "G") +:+ "    " +:+
  pretty (ci_object_id c).

Definition cmd_caps : TM unit :=
  caps ← call L_list_caps;
  print_lines ["SLOT  TYPE      PERMS  OBJECT"; "----  ----      -----  ------"] ;;
  match caps with [] => println "(no capabilities)" | _ => print_lines (cap_line <$> caps) end.

Definition cmd_spawn (process_type : string) : TM unit :=
  call (L_debug ("INIT:SPAWN:" +:+ process_type)) ;; println ("Requested spawn of '" +:+ process_type +:+ "'...").

Definition cmd_grant (from_slot to_pid : Z) (perms : Permissions) : TM unit :=
  r ← call (L_cap_grant from_slot to_pid perms);
  match r with
  | Ok new_slot =>
      println ("Granted capability (slot " +:+ pretty from_slot +:+ " -> PID " +:+ pretty to_pid +:+ " at slot " +:+
        pretty new_slot +:+ ")")
  | Err e => println ("Error: " +:+ format_cap_error e)
  end.

Definition cmd_revoke (slot : Z) : TM unit :=
  r ← call (L_cap_delete slot);
  match r with
  | Ok _ => println ("Deleted capability at slot " +:+ pretty slot)
  | Err e => println ("Error: " +:+ format_cap_error e)
  end.

Definition cmd_time : TM unit :=
  nanos ← call L_get_time;
  println ("Uptime: " +:+ pretty (nanos / 1000000000) +:+ "." +:+ pad_zero 3 ((nanos mod 1000000000) / 1000000) +:+ "s").

(** [exit] does not return, and what was printed is not flushed. *)
Definition cmd_exit : TM unit := println "Goodbye!" ;; call (L_exit 0) ;; never.

Definition run_command (cmd : Command) : TM unit :=
  match cmd with
  | C_Help => print_lines help_lines
  | C_Ps => cmd_ps
  | C_Caps => cmd_caps
  | C_Spawn process_type => cmd_spawn process_type
  | C_Kill _ => print_lines ["Error: Kill requires supervisor privilege"; "(Terminal cannot directly kill processes yet)"]
  | C_Grant from_slot to_pid permissions => cmd_grant from_slot to_pid permissions
  | C_Revoke slot => cmd_revoke slot
  | C_Echo text => println text
  | C_Time => cmd_time
  | C_Clear => print CLEAR_SCREEN
  | C_Exit => cmd_exit
  | C_Unknown cmd =>
      if String.eqb cmd "" then mret tt
      else print_lines ["Unknown command: " +:+ cmd; "Type 'help' for available commands."]
  end.

Definition execute_command (line : string) : TM unit :=
  match parse line with
  | Ok cmd => run_command cmd
  | Err (MissingArgument command argument) => println ("Error: " +:+ command +:+ " requires " +:+ argument)
  | Err (InvalidArgument argument reason) => println ("Error: " +:+ argument +:+ " " +:+ reason)
  end.

(** A complete line. *)
Definition enter_line (line : string) : TM unit :=
  let line := trim line in
  (if String.eqb line "" then mret tt else modify (remember line) ;; execute_command line) ;;
  print PROMPT.

Definition handle_input (input : TerminalInput) : TM (result unit AppError) :=
  match ti_action input with
  | IA_Enter => enter_line (ti_text input) ;; flush_output
  | IA_Interrupt => println "^C" ;; print PROMPT ;; flush_output
  | IA_Clear => print CLEAR_SCREEN ;; print PROMPT ;; flush_output
  | IA_Up => modify history_up ;; mret (Ok tt)
  | IA_Down => modify history_down ;; mret (Ok tt)
  | _ => mret (Ok tt)
  end.

Definition BACKSPACE : string := String "008" (String " " (String "008" "")).

Definition raw_byte (b : byte) : TM unit :=
  let z := Z_of_byte b in
  if (z =? 0x0D) || (z =? 0x0A) then
    print newline ;;
    a ← self;
    modify (set_input "") ;; enter_line (ta_input_buffer a)
  else if (z =? 0x7F) || (z =? 0x08) then
    a ← self;
    if String.eqb (ta_input_buffer a) "" then mret tt
    else modify (fun a => set_input (pop (ta_input_buffer a)) a) ;; print BACKSPACE
  else if z =? 0x03 then modify (set_input "") ;; println "^C" ;; print PROMPT
  else if z =? 0x0C then modify (set_input "") ;; print CLEAR_SCREEN ;; print PROMPT
  else if (0x20 <=? z) && (z <=? 0x7E) then
    modify (fun a => set_input (ta_input_buffer a +:+ text [b]) a) ;; print (text [b])
  else mret tt.

Fixpoint raw_bytes (data : list byte) : TM unit :=
  match data with [] => mret tt | b :: data' => raw_byte b ;; raw_bytes data' end.

Definition handle_raw_input (data : list byte) : TM (result unit AppError) := raw_bytes data ;; flush_output.

Definition handle_cap_revoked (data : list byte) : TM (result unit AppError) :=
  if 14 <=? len data then
    let slot := get_u32 0 data in
    let name := default "Unknown" (object_name <$> ipc_object_type (get_u8 4 data)) in
    println "" ;;
    println (ESC +:+ "[33mWarning: " +:+ name +:+ " capability (slot " +:+ pretty slot +:+ ") was revoked" +:+ ESC +:+ "[0m") ;;
    print PROMPT ;; flush_output
  else mret (Ok tt).

Definition terminal_init (_ : AppContext) : TM (result unit AppError) :=
  print_lines ["Zero OS Terminal"; "Type 'help' for available commands."; ""] ;;
  print PROMPT ;;
  modify (fun a => mk_TerminalApp (ta_output_buffer a) (ta_history a) (ta_history_index a) (ta_input_buffer a) true) ;;
  flush_output.

Definition terminal_on_message (_ : AppContext) (msg : AppMessage) : TM (result unit AppError) :=
  let other :=
    if am_tag msg =? MSG_CONSOLE_INPUT then handle_raw_input (am_data msg)
    else if am_tag msg =? MSG_CAP_REVOKED then handle_cap_revoked (am_data msg)
    else mret (Ok tt) in
  if am_tag msg =? MSG_APP_INPUT then
    match TerminalInput_from_bytes (am_data msg) with Ok input => handle_input input | Err _ => other end
  else other.
End app.

#[export] Instance TerminalApp_app : ZeroApp TerminalApp := {|
  app_init := fun S _ => terminal_init;
  app_update := fun _ _ _ => mret CF_Yield;
  app_on_message := fun S _ => terminal_on_message;
  app_shutdown := fun _ _ _ => mret tt |}.
End Terminal.
