(* ===== verification/IdTypes.v ===== *)
(** * Data of the identity service

    The types of crates/zos-identity/src (keystore.rs, error.rs, ipc/) and of
    crates/zos-network/src/lib.rs that the service exchanges and stores, its pending
    operations (services/identity/pending/) and its message numbers (zos-ipc).
    Arrays of bytes are lists; a [u128] is a [Z]. JSON (serde_json) is a class of
    one decoder or encoder per type, and the cryptographic crates (zid-crypto,
    argon2, aes-gcm, sha2, getrandom) are the class [IdCrypto]. *)
From S2P Require Import Prelude StrLib ProcessLib AppFramework VfsPath VfsClient.

Local Open Scope string_scope.
Local Open Scope Z_scope.

(** ** error.rs *)
Inductive KeyError : Type :=
| KE_Unauthorized
| KE_InvalidRequest (msg : string)
| KE_UserNotFound
| KE_KeysNotFound
| KE_IdentityKeyRequired
| KE_IdentityKeyAlreadyExists
| KE_MachineKeyNotFound
| KE_CannotRevokePrimaryMachine
| KE_InvalidPassphrase
| KE_DerivationFailed
| KE_CryptoError (msg : string)
| KE_StorageError (msg : string)
| KE_InsufficientShards
| KE_InvalidShard (msg : string)
| KE_NeuralKeyMismatch
| KE_InvalidPassword (msg : string)
| KE_DecryptionFailed
| KE_EncryptedShardsNotFound.

Inductive CredentialError : Type :=
| CE_Unauthorized
| CE_InvalidRequest (msg : string)
| CE_AlreadyLinked
| CE_InvalidFormat
| CE_VerificationFailed
| CE_CodeExpired
| CE_NoPendingVerification
| CE_NotFound
| CE_StorageError (msg : string).

Inductive ZidError : Type :=
| ZE_Unauthorized
| ZE_InvalidRequest (msg : string)
| ZE_NetworkError (msg : string)
| ZE_AuthenticationFailed
| ZE_InvalidChallenge
| ZE_MachineKeyNotFound
| ZE_MachineNotRegistered (msg : string)
| ZE_EnrollmentFailed (msg : string)
| ZE_ServerError (msg : string)
| ZE_EmailAlreadyRegistered
| ZE_InvalidEmailFormat
| ZE_PasswordTooWeak
| ZE_SessionExpired
| ZE_InvalidRefreshToken.

(** [{:?}] of the errors. *)
Definition debug_tuple (name msg : string) : string := name +:+ "(" +:+ debug_str msg +:+ ")".

Definition debug_key_error (e : KeyError) : string :=
  match e with
  | KE_Unauthorized => "Unauthorized"
  | KE_InvalidRequest m => debug_tuple "InvalidRequest" m
  | KE_UserNotFound => "UserNotFound"
  | KE_KeysNotFound => "KeysNotFound"
  | KE_IdentityKeyRequired => "IdentityKeyRequired"
  | KE_IdentityKeyAlreadyExists => "IdentityKeyAlreadyExists"
  | KE_MachineKeyNotFound => "MachineKeyNotFound"
  | KE_CannotRevokePrimaryMachine => "CannotRevokePrimaryMachine"
  | KE_InvalidPassphrase => "InvalidPassphrase"
  | KE_DerivationFailed => "DerivationFailed"
  | KE_CryptoError m => debug_tuple "CryptoError" m
  | KE_StorageError m => debug_tuple "StorageError" m
  | KE_InsufficientShards => "InsufficientShards"
  | KE_InvalidShard m => debug_tuple "InvalidShard" m
  | KE_NeuralKeyMismatch => "NeuralKeyMismatch"
  | KE_InvalidPassword m => debug_tuple "InvalidPassword" m
  | KE_DecryptionFailed => "DecryptionFailed"
  | KE_EncryptedShardsNotFound => "EncryptedShardsNotFound"
  end.

Definition debug_zid_error (e : ZidError) : string :=
  match e with
  | ZE_Unauthorized => "Unauthorized"
  | ZE_InvalidRequest m => debug_tuple "InvalidRequest" m
  | ZE_NetworkError m => debug_tuple "NetworkError" m
  | ZE_AuthenticationFailed => "AuthenticationFailed"
  | ZE_InvalidChallenge => "InvalidChallenge"
  | ZE_MachineKeyNotFound => "MachineKeyNotFound"
  | ZE_MachineNotRegistered m => debug_tuple "MachineNotRegistered" m
  | ZE_EnrollmentFailed m => debug_tuple "EnrollmentFailed" m
  | ZE_ServerError m => debug_tuple "ServerError" m
  | ZE_EmailAlreadyRegistered => "EmailAlreadyRegistered"
  | ZE_InvalidEmailFormat => "InvalidEmailFormat"
  | ZE_PasswordTooWeak => "PasswordTooWeak"
  | ZE_SessionExpired => "SessionExpired"
  | ZE_InvalidRefreshToken => "InvalidRefreshToken"
  end.

(** ** keystore.rs *)
Inductive KeyScheme : Type := Classical | PqHybrid.

Record MachineKeyCapabilities : Type := mk_MachineKeyCapabilities {
  mc_capabilities : list string; mc_expires_at : option Z }.

Definition MachineKeyCapabilities_default : MachineKeyCapabilities :=
  mk_MachineKeyCapabilities ["AUTHENTICATE"; "ENCRYPT"] None.

Definition MachineKeyCapabilities_full : MachineKeyCapabilities :=
  mk_MachineKeyCapabilities ["AUTHENTICATE"; "SIGN"; "ENCRYPT"; "AUTHORIZE_MACHINES"; "REVOKE_MACHINES"] None.

Record LocalKeyStore : Type := mk_LocalKeyStore {
  lk_user_id : Z;
  lk_identity_signing_public_key : list byte;
  lk_machine_signing_public_key : list byte;
  lk_machine_encryption_public_key : list byte;
  lk_key_scheme : KeyScheme;
  lk_capabilities : MachineKeyCapabilities;
  lk_epoch : Z;
  lk_pq_signing_public_key : option (list byte);
  lk_pq_encryption_public_key : option (list byte);
  lk_created_at : Z }.

Definition LocalKeyStore_new (user_id : Z) (identity machine_signing machine_encryption : list byte) (created_at : Z)
  : LocalKeyStore :=
  mk_LocalKeyStore user_id identity machine_signing machine_encryption Classical MachineKeyCapabilities_default 1
    None None created_at.

Definition LocalKeyStore_path (user_id : Z) : string := "/keys/" +:+ pretty user_id +:+ "/identity/public_keys.json".

Record KeyDerivation : Type := mk_KeyDerivation {
  kd_algorithm : string; kd_salt : list byte; kd_time_cost : Z; kd_memory_cost : Z; kd_parallelism : Z }.

Record MachineKeyRecord : Type := mk_MachineKeyRecord {
  mr_machine_id : Z;
  mr_signing_public_key : list byte;
  mr_encryption_public_key : list byte;
  mr_signing_sk : option (list byte);
  mr_encryption_sk : option (list byte);
  mr_authorized_at : Z;
  mr_authorized_by : Z;
  mr_capabilities : MachineKeyCapabilities;
  mr_machine_name : option string;
  mr_last_seen_at : Z;
  mr_epoch : Z;
  mr_key_scheme : KeyScheme;
  mr_pq_signing_public_key : option (list byte);
  mr_pq_encryption_public_key : option (list byte) }.

(** The bytes of a [u128], most significant first, and [{:032x}]. *)
Definition u128_to_be_bytes (z : Z) : list byte := reverse (to_le_bytes 16 z).
Definition u128_from_be_bytes (l : list byte) : Z := from_le_bytes (reverse l).
Definition hex_u128 (z : Z) : string := hex_bytes (u128_to_be_bytes z).

Definition machine_prefix (user_id : Z) : string := "/keys/" +:+ pretty user_id +:+ "/identity/machine/".
Definition MachineKeyRecord_path (user_id machine_id : Z) : string :=
  machine_prefix user_id +:+ hex_u128 machine_id +:+ ".json".

Inductive CredentialType : Type := CT_Email | CT_Phone | CT_OAuth | CT_WebAuthn.

#[export] Instance CredentialType_eq_dec : EqDecision CredentialType.
Proof. solve_decision. Defined.

Record LinkedCredential : Type := mk_LinkedCredential {
  lc_type : CredentialType;
  lc_value : string;
  lc_verified : bool;
  lc_linked_at : Z;
  lc_verified_at : option Z;
  lc_is_primary : bool }.

Record CredentialStore : Type := mk_CredentialStore { cs_user_id : Z; cs_credentials : list LinkedCredential }.

Definition CredentialStore_path (user_id : Z) : string :=
  "/home/" +:+ pretty user_id +:+ "/.zos/credentials/credentials.json".

Definition find_by_type (t : CredentialType) (s : CredentialStore) : list LinkedCredential :=
  filter (fun c => lc_type c = t) (cs_credentials s).

Record EncryptedShard : Type := mk_EncryptedShard {
  es_index : Z; es_ciphertext : list byte; es_nonce : list byte; es_tag : list byte }.

Record EncryptedShardStore : Type := mk_EncryptedShardStore {
  ess_user_id : Z;
  ess_encrypted_shards : list EncryptedShard;
  ess_external_shard_indices : list Z;
  ess_kdf : KeyDerivation;
  ess_created_at : Z }.

Definition EncryptedShardStore_path (user_id : Z) : string :=
  "/keys/" +:+ pretty user_id +:+ "/identity/encrypted_shards.json".

(** ** ipc/keys.rs *)
Record NeuralShard : Type := mk_NeuralShard { nsh_index : Z; nsh_hex : string }.

Record PublicIdentifiers : Type := mk_PublicIdentifiers {
  pi_identity_signing : string; pi_machine_signing : string; pi_machine_encryption : string }.

Record NeuralKeyGenerated : Type := mk_NeuralKeyGenerated {
  ng_user_id : Z; ng_public_identifiers : PublicIdentifiers; ng_shards : list NeuralShard; ng_created_at : Z }.

Record GenerateNeuralKeyRequest : Type := mk_GenerateNeuralKeyRequest { gn_user_id : Z; gn_password : string }.
Record RecoverNeuralKeyRequest : Type := mk_RecoverNeuralKeyRequest { rn_user_id : Z; rn_shards : list NeuralShard }.
Record GetIdentityKeyRequest : Type := mk_GetIdentityKeyRequest { gi_user_id : Z }.
Record CreateMachineKeyRequest : Type := mk_CreateMachineKeyRequest {
  cm_user_id : Z;
  cm_machine_name : option string;
  cm_capabilities : MachineKeyCapabilities;
  cm_key_scheme : KeyScheme;
  cm_external_shard : NeuralShard;
  cm_password : string }.
Record ListMachineKeysRequest : Type := mk_ListMachineKeysRequest { lm_user_id : Z }.
Record GetMachineKeyRequest : Type := mk_GetMachineKeyRequest { gm_user_id : Z; gm_machine_id : Z }.
Record RevokeMachineKeyRequest : Type := mk_RevokeMachineKeyRequest { rv_user_id : Z; rv_machine_id : Z }.
Record RotateMachineKeyRequest : Type := mk_RotateMachineKeyRequest { ro_user_id : Z; ro_machine_id : Z }.

(** ** ipc/zid.rs *)
Record CreateMachineKeyAndEnrollRequest : Type := mk_CreateMachineKeyAndEnrollRequest {
  ce_user_id : Z;
  ce_machine_name : option string;
  ce_capabilities : MachineKeyCapabilities;
  ce_key_scheme : KeyScheme;
  ce_external_shard : NeuralShard;
  ce_password : string;
  ce_zid_endpoint : string }.
Record ZidLoginRequest : Type := mk_ZidLoginRequest { zl_user_id : Z; zl_zid_endpoint : string }.

Inductive LoginType : Type := LT_MachineKey | LT_NeuralKey | LT_Email | LT_OAuth | LT_WebAuthn | LT_Recovery.

Record ZidTokens : Type := mk_ZidTokens {
  zt_access_token : string;
  zt_refresh_token : string;
  zt_session_id : string;
  zt_machine_id : string;
  zt_expires_at : string;
  zt_login_type : LoginType;
  zt_warning : option string }.

Record MachineKeyAndTokens : Type := mk_MachineKeyAndTokens { mt_machine_key : MachineKeyRecord; mt_tokens : ZidTokens }.

Record ZidSession : Type := mk_ZidSession {
  zs_zid_endpoint : string;
  zs_access_token : string;
  zs_refresh_token : string;
  zs_session_id : string;
  zs_machine_id : string;
  zs_login_type : LoginType;
  zs_expires_at : Z;
  zs_created_at : Z }.

Definition identity_dir (user_id : Z) : string := "/home/" +:+ pretty user_id +:+ "/.zos/identity".
Definition ZidSession_path (user_id : Z) : string := identity_dir user_id +:+ "/zid_session.json".

Record IdentityPreferences : Type := mk_IdentityPreferences {
  ip_default_key_scheme : KeyScheme; ip_default_machine_id : option Z }.

Definition IdentityPreferences_default : IdentityPreferences := mk_IdentityPreferences Classical None.
Definition IdentityPreferences_path (user_id : Z) : string := identity_dir user_id +:+ "/preferences.json".

Record GetIdentityPreferencesRequest : Type := mk_GetIdentityPreferencesRequest { gp_user_id : Z }.
Record SetDefaultKeySchemeRequest : Type := mk_SetDefaultKeySchemeRequest { sk_user_id : Z; sk_key_scheme : KeyScheme }.
Record SetDefaultMachineKeyRequest : Type := mk_SetDefaultMachineKeyRequest { sm_user_id : Z; sm_machine_id : Z }.
Record ZidRefreshRequest : Type := mk_ZidRefreshRequest {
  zr_user_id : Z; zr_zid_endpoint : string; zr_refresh_token : option string }.
Record ZidLogoutRequest : Type := mk_ZidLogoutRequest { zo_user_id : Z }.
Record ZidEmailLoginRequest : Type := mk_ZidEmailLoginRequest {
  el_user_id : Z;
  el_email : string;
  el_password : string;
  el_zid_endpoint : string;
  el_machine_id : option string;
  el_mfa_code : option string }.

Inductive OAuthProvider : Type := OA_Google | OA_X | OA_Epic.
Inductive WalletType : Type := WT_Ethereum | WT_Polygon | WT_Arbitrum | WT_Base | WT_Solana.
Inductive IdentityTier : Type := IT_Managed | IT_SelfSovereign.

Record RegisterEmailRequest : Type := mk_RegisterEmailRequest {
  re_email : string; re_password : string; re_zid_endpoint : string }.
Record RegistrationResult : Type := mk_RegistrationResult {
  rr_identity_id : string;
  rr_machine_id : string;
  rr_namespace_id : option string;
  rr_tier : string;
  rr_access_token : string;
  rr_refresh_token : string;
  rr_session_id : string;
  rr_expires_at : string;
  rr_warning : option string }.
Record InitOAuthRequest : Type := mk_InitOAuthRequest {
  io_provider : OAuthProvider; io_zid_endpoint : string; io_redirect_uri : option string }.
Record OAuthInitResult : Type := mk_OAuthInitResult { oi_auth_url : string; oi_state : string }.
Record OAuthCallbackRequest : Type := mk_OAuthCallbackRequest {
  oc_provider : OAuthProvider; oc_code : string; oc_state : string; oc_zid_endpoint : string }.
Record InitWalletAuthRequest : Type := mk_InitWalletAuthRequest {
  iw_wallet_type : WalletType; iw_address : string; iw_zid_endpoint : string }.
Record WalletChallenge : Type := mk_WalletChallenge { wc_challenge_id : string; wc_message : string }.
Record VerifyWalletRequest : Type := mk_VerifyWalletRequest {
  vw_challenge_id : string;
  vw_wallet_type : WalletType;
  vw_address : string;
  vw_signature : string;
  vw_namespace_name : option string;
  vw_zid_endpoint : string }.
Record TierStatus : Type := mk_TierStatus {
  ts_tier : IdentityTier;
  ts_auth_methods_count : Z;
  ts_can_upgrade : bool;
  ts_upgrade_requirements : list string }.
Record GetTierStatusRequest : Type := mk_GetTierStatusRequest {
  gt_user_id : Z; gt_access_token : string; gt_zid_endpoint : string }.
Record UpgradeToSelfSovereignRequest : Type := mk_UpgradeToSelfSovereignRequest {
  up_user_id : Z;
  up_new_isk_public : string;
  up_commitment : string;
  up_upgrade_signature : string;
  up_access_token : string;
  up_zid_endpoint : string }.
Record ZidMachineKey : Type := mk_ZidMachineKey {
  zk_machine_id : string;
  zk_signing_public_key : string;
  zk_encryption_public_key : string;
  zk_capabilities : list string;
  zk_device_name : string;
  zk_device_platform : string }.
Record CreateIdentityRequest : Type := mk_CreateIdentityRequest {
  ci_identity_id : string;
  ci_identity_signing_public_key : string;
  ci_authorization_signature : string;
  ci_machine_key : ZidMachineKey;
  ci_namespace_name : string;
  ci_created_at : Z }.

(** ** ipc/credentials.rs *)
Record AttachEmailRequest : Type := mk_AttachEmailRequest {
  ae_user_id : Z; ae_email : string; ae_password : string; ae_access_token : string; ae_zid_endpoint : string }.
Record GetCredentialsRequest : Type := mk_GetCredentialsRequest { gc_user_id : Z; gc_credential_type : option CredentialType }.
Record UnlinkCredentialRequest : Type := mk_UnlinkCredentialRequest { uc_user_id : Z; uc_credential_type : CredentialType }.

(** ** Answers of the identity server *)
Record ChallengeResponse : Type := mk_ChallengeResponse { cr_challenge : string }.
Record CreateIdentityResponse : Type := mk_CreateIdentityResponse {
  cir_identity_id : string; cir_machine_id : string; cir_namespace_id : string }.
Record RefreshTokensPartial : Type := mk_RefreshTokensPartial {
  rt_access_token : string;
  rt_refresh_token : string;
  rt_session_id : option string;
  rt_machine_id : option string;
  rt_expires_at : string;
  rt_warning : option string }.

(** [serde_json::Value]; a number is its text. *)
Inductive JsonValue : Type :=
| JNull
| JBool (b : bool)
| JNumber (text : string)
| JString (s : string)
| JArray (l : list JsonValue)
| JObject (fields : list (string * JsonValue)).

Definition as_str (v : JsonValue) : option string := match v with JString s => Some s | _ => None end.
Definition as_object (v : JsonValue) : option (list (string * JsonValue)) :=
  match v with JObject o => Some o | _ => None end.
Definition get_field (key : string) (fields : list (string * JsonValue)) : option JsonValue :=
  snd <$> find (fun f => String.eqb f.1 key) fields.
Definition get_str (key : string) (fields : list (string * JsonValue)) : option string :=
  v ← get_field key fields; as_str v.

Record ZidErrorDetail : Type := mk_ZidErrorDetail {
  zd_code : option string; zd_message : option string; zd_field : option string; zd_details : option JsonValue }.
Record ZidErrorOuter : Type := mk_ZidErrorOuter { zeo_error : JsonValue }.

(** ** crates/zos-network *)
Inductive HttpMethod : Type := HM_Get | HM_Post | HM_Put | HM_Delete | HM_Patch | HM_Head | HM_Options.

Record HttpRequest : Type := mk_HttpRequest {
  hr_method : HttpMethod;
  hr_url : string;
  hr_headers : list (string * string);
  hr_body : option (list byte);
  hr_timeout_ms : Z;
  hr_caller_pid : Z;
  hr_request_id : Z }.

Definition http_get (url : string) : HttpRequest := mk_HttpRequest HM_Get url [] None 30000 0 0.
Definition http_post (url : string) : HttpRequest := mk_HttpRequest HM_Post url [] None 30000 0 0.
Definition with_header (key value : string) (r : HttpRequest) : HttpRequest :=
  mk_HttpRequest (hr_method r) (hr_url r) (hr_headers r ++ [(key, value)])%list (hr_body r) (hr_timeout_ms r)
    (hr_caller_pid r) (hr_request_id r).
Definition with_json_body (body : list byte) (r : HttpRequest) : HttpRequest :=
  let r := with_header "Content-Type" "application/json" r in
  mk_HttpRequest (hr_method r) (hr_url r) (hr_headers r) (Some body) (hr_timeout_ms r) (hr_caller_pid r) (hr_request_id r).
Definition with_timeout (ms : Z) (r : HttpRequest) : HttpRequest :=
  mk_HttpRequest (hr_method r) (hr_url r) (hr_headers r) (hr_body r) ms (hr_caller_pid r) (hr_request_id r).
Definition with_bearer_token (token : string) : HttpRequest -> HttpRequest :=
  with_header "Authorization" ("Bearer " +:+ token).

Record HttpSuccess : Type := mk_HttpSuccess {
  hs_status : Z; hs_headers : list (string * string); hs_body : list byte }.

Inductive NetworkError : Type :=
| NE_PolicyDenied | NE_ConnectionFailed | NE_Timeout | NE_InvalidUrl | NE_DnsError | NE_TlsError
| NE_ServiceUnavailable | NE_Other (msg : string).

Definition net_message (e : NetworkError) : string :=
  match e with
  | NE_PolicyDenied => "Network access denied"
  | NE_ConnectionFailed => "Failed to connect"
  | NE_Timeout => "Request timed out"
  | NE_InvalidUrl => "Invalid URL"
  | NE_DnsError => "DNS resolution failed"
  | NE_TlsError => "SSL/TLS error"
  | NE_ServiceUnavailable => "Network service unavailable"
  | NE_Other msg => msg
  end.

Record HttpResponse : Type := mk_HttpResponse { hre_result : result HttpSuccess NetworkError }.

(** ** Cryptography: the functions of the crates, with the [{:?}] of their errors.
    The random source is a stream: a function that draws from it gets the number of
    values drawn before. *)
Class IdCrypto : Type := {
  NeuralKey : Type;
  ZidNeuralShard : Type;
  MachineKeyPair : Type;
  Ed25519KeyPair : Type;
  MachineSeed : Type;
  ZidCapabilities : Type;
  Challenge : Type;
  FULL_DEVICE : ZidCapabilities;
  all_capabilities : ZidCapabilities;
  getrandom : nat -> Z -> result (list byte) string;
  nk_generate : nat -> result NeuralKey string;
  nk_bytes : NeuralKey -> list byte;
  nk_from_bytes : list byte -> NeuralKey;
  split_neural_key : nat -> NeuralKey -> result (list ZidNeuralShard) string;
  combine_shards : list ZidNeuralShard -> result NeuralKey string;
  shard_to_hex : ZidNeuralShard -> string;
  shard_from_hex : string -> result ZidNeuralShard string;
  derive_identity_signing_keypair : NeuralKey -> list byte -> result (list byte * Ed25519KeyPair) string;
  ed_from_seed : list byte -> result Ed25519KeyPair string;
  ed_seed_bytes : Ed25519KeyPair -> list byte;
  sign_message : Ed25519KeyPair -> list byte -> list byte;
  derive_machine_keypair_with_scheme :
    NeuralKey -> list byte -> list byte -> Z -> ZidCapabilities -> KeyScheme -> result MachineKeyPair string;
  derive_machine_seed : NeuralKey -> list byte -> list byte -> Z -> result MachineSeed string;
  derive_machine_signing_seed : MachineSeed -> list byte -> result (list byte) string;
  derive_machine_encryption_seed : MachineSeed -> list byte -> result (list byte) string;
  mkp_from_seeds : list byte -> list byte -> ZidCapabilities -> result MachineKeyPair string;
  mkp_from_seeds_with_scheme : list byte -> list byte -> ZidCapabilities -> KeyScheme -> result MachineKeyPair string;
  mkp_signing_public_key : MachineKeyPair -> list byte;
  mkp_encryption_public_key : MachineKeyPair -> list byte;
  mkp_signing_key_pair : MachineKeyPair -> Ed25519KeyPair;
  canonicalize_identity_creation_message :
    list byte -> list byte -> list byte -> list byte -> list byte -> Z -> list byte;
  canonicalize_challenge : Challenge -> list byte;
  challenge_id : Challenge -> string;
  sha256 : list byte -> list byte;
  Argon2Params : Type;
  argon2_params : Z -> Z -> Z -> option Z -> result Argon2Params string;
  argon2id : Argon2Params -> list byte -> list byte -> result (list byte) string;
  aes_gcm_encrypt : list byte -> list byte -> list byte -> result (list byte) string;
  aes_gcm_decrypt : list byte -> list byte -> list byte -> option (list byte) }.

(** ** What the service answers *)
Inductive IdResponse : Type :=
| GenerateNeuralKeyResponse (r : result NeuralKeyGenerated KeyError)
| RecoverNeuralKeyResponse (r : result NeuralKeyGenerated KeyError)
| GetIdentityKeyResponse (r : result (option LocalKeyStore) KeyError)
| CreateMachineKeyResponse (r : result MachineKeyRecord KeyError)
| ListMachineKeysResponse (machines : list MachineKeyRecord)
| GetMachineKeyResponse (r : result (option MachineKeyRecord) KeyError)
| RevokeMachineKeyResponse (r : result unit KeyError)
| RotateMachineKeyResponse (r : result MachineKeyRecord KeyError)
| CreateMachineKeyAndEnrollResponse (r : result MachineKeyAndTokens ZidError)
| AttachEmailResponse (r : result unit CredentialError)
| GetCredentialsResponse (credentials : list LinkedCredential)
| UnlinkCredentialResponse (r : result unit CredentialError)
| ZidLoginResponse (r : result ZidTokens ZidError)
| ZidEmailLoginResponse (r : result ZidTokens ZidError)
| ZidEnrollMachineResponse (r : result ZidTokens ZidError)
| ZidLogoutResponse (r : result unit ZidError)
| ZidRefreshResponse (r : result ZidTokens ZidError)
| GetIdentityPreferencesResponse (p : IdentityPreferences)
| SetDefaultKeySchemeResponse (r : result unit KeyError)
| SetDefaultMachineKeyResponse (r : result unit KeyError)
| RegisterEmailResponse (r : result RegistrationResult ZidError)
| InitOAuthResponse (r : result OAuthInitResult ZidError)
| OAuthCallbackResponse (r : result ZidTokens ZidError)
| InitWalletAuthResponse (r : result WalletChallenge ZidError)
| VerifyWalletResponse (r : result ZidTokens ZidError)
| GetTierStatusResponse (r : result TierStatus ZidError)
| UpgradeToSelfSovereignResponse (r : result unit ZidError).

(** ** JSON: [serde_json::from_slice] and [to_vec], one instance per type *)
Class Deserialize (T : Type) : Type := from_slice : list byte -> result T string.
Class Serialize (T : Type) : Type := to_vec : T -> result (list byte) string.

Class IdJson {C : IdCrypto} : Type := {
  de_GenerateNeuralKeyRequest :: Deserialize GenerateNeuralKeyRequest;
  de_RecoverNeuralKeyRequest :: Deserialize RecoverNeuralKeyRequest;
  de_GetIdentityKeyRequest :: Deserialize GetIdentityKeyRequest;
  de_CreateMachineKeyRequest :: Deserialize CreateMachineKeyRequest;
  de_ListMachineKeysRequest :: Deserialize ListMachineKeysRequest;
  de_GetMachineKeyRequest :: Deserialize GetMachineKeyRequest;
  de_RevokeMachineKeyRequest :: Deserialize RevokeMachineKeyRequest;
  de_RotateMachineKeyRequest :: Deserialize RotateMachineKeyRequest;
  de_CreateMachineKeyAndEnrollRequest :: Deserialize CreateMachineKeyAndEnrollRequest;
  de_ZidLoginRequest :: Deserialize ZidLoginRequest;
  de_ZidLogoutRequest :: Deserialize ZidLogoutRequest;
  de_ZidRefreshRequest :: Deserialize ZidRefreshRequest;
  de_ZidEmailLoginRequest :: Deserialize ZidEmailLoginRequest;
  de_GetIdentityPreferencesRequest :: Deserialize GetIdentityPreferencesRequest;
  de_SetDefaultKeySchemeRequest :: Deserialize SetDefaultKeySchemeRequest;
  de_SetDefaultMachineKeyRequest :: Deserialize SetDefaultMachineKeyRequest;
  de_AttachEmailRequest :: Deserialize AttachEmailRequest;
  de_GetCredentialsRequest :: Deserialize GetCredentialsRequest;
  de_UnlinkCredentialRequest :: Deserialize UnlinkCredentialRequest;
  de_RegisterEmailRequest :: Deserialize RegisterEmailRequest;
  de_InitOAuthRequest :: Deserialize InitOAuthRequest;
  de_OAuthCallbackRequest :: Deserialize OAuthCallbackRequest;
  de_InitWalletAuthRequest :: Deserialize InitWalletAuthRequest;
  de_VerifyWalletRequest :: Deserialize VerifyWalletRequest;
  de_GetTierStatusRequest :: Deserialize GetTierStatusRequest;
  de_UpgradeToSelfSovereignRequest :: Deserialize UpgradeToSelfSovereignRequest;
  de_LocalKeyStore :: Deserialize LocalKeyStore;
  de_EncryptedShardStore :: Deserialize EncryptedShardStore;
  de_MachineKeyRecord :: Deserialize MachineKeyRecord;
  de_CredentialStore :: Deserialize CredentialStore;
  de_IdentityPreferences :: Deserialize IdentityPreferences;
  de_ZidSession :: Deserialize ZidSession;
  de_ChallengeResponse :: Deserialize ChallengeResponse;
  de_Challenge :: Deserialize Challenge;
  de_ZidTokens :: Deserialize ZidTokens;
  de_CreateIdentityResponse :: Deserialize CreateIdentityResponse;
  de_RefreshTokensPartial :: Deserialize RefreshTokensPartial;
  de_RegistrationResult :: Deserialize RegistrationResult;
  de_OAuthInitResult :: Deserialize OAuthInitResult;
  de_WalletChallenge :: Deserialize WalletChallenge;
  de_TierStatus :: Deserialize TierStatus;
  de_HttpResponse :: Deserialize HttpResponse;
  de_ZidErrorOuter :: Deserialize ZidErrorOuter;
  de_JsonValue :: Deserialize JsonValue;
  detail_from_value : JsonValue -> result ZidErrorDetail string;
  object_to_string : list (string * JsonValue) -> option string;
  ser_LocalKeyStore :: Serialize LocalKeyStore;
  ser_EncryptedShardStore :: Serialize EncryptedShardStore;
  ser_MachineKeyRecord :: Serialize MachineKeyRecord;
  ser_CredentialStore :: Serialize CredentialStore;
  ser_IdentityPreferences :: Serialize IdentityPreferences;
  ser_ZidSession :: Serialize ZidSession;
  ser_CreateIdentityRequest :: Serialize CreateIdentityRequest;
  ser_HttpRequest :: Serialize HttpRequest;
  ser_IdResponse :: Serialize IdResponse }.

(** ** pending/ *)
Record RequestContext : Type := mk_RequestContext { rc_client_pid : Z; rc_cap_slots : list Z }.

Inductive ExpectedVfsResponse : Type := ER_Read | ER_Write | ER_Exists | ER_Mkdir | ER_Readdir | ER_Unlink.

#[export] Instance ExpectedVfsResponse_eq_dec : EqDecision ExpectedVfsResponse.
Proof. solve_decision. Defined.

(** The keys of a machine that enrolls: identifier, the three public keys and the two seeds. *)
Record EnrollKeys : Type := mk_EnrollKeys {
  ek_machine_id : Z;
  ek_identity_signing_public_key : list byte;
  ek_machine_signing_public_key : list byte;
  ek_machine_encryption_public_key : list byte;
  ek_machine_signing_sk : list byte;
  ek_machine_encryption_sk : list byte }.

Section pending.
Context {C : IdCrypto}.

Inductive PendingStorageOp : Type :=
| CheckIdentityDirectory (ctx : RequestContext) (user_id : Z) (password : string)
| CreateIdentityDirectory (ctx : RequestContext) (user_id : Z) (directories : list string) (password : string)
| CreateIdentityDirectoryComplete (ctx : RequestContext) (user_id : Z) (password : string)
| CreateDerivedUserDirectory (ctx : RequestContext) (derived_user_id : Z) (r : NeuralKeyGenerated)
| CheckKeyExists (ctx : RequestContext) (user_id : Z) (password : string)
| WriteKeyStore (ctx : RequestContext) (user_id : Z) (r : NeuralKeyGenerated) (json_bytes : list byte)
| GetIdentityKey (ctx : RequestContext)
| ReadIdentityForRecovery (ctx : RequestContext) (user_id : Z) (zid_shards : list ZidNeuralShard)
| WriteRecoveredKeyStore (ctx : RequestContext) (user_id : Z) (r : NeuralKeyGenerated) (json_bytes : list byte)
| ReadIdentityForMachine (ctx : RequestContext) (request : CreateMachineKeyRequest)
| WriteMachineKey (ctx : RequestContext) (user_id : Z) (record : MachineKeyRecord) (json_bytes : list byte)
| ListMachineKeys (ctx : RequestContext) (user_id : Z)
| ReadMachineKey (ctx : RequestContext) (user_id : Z) (remaining_paths : list string) (records : list MachineKeyRecord)
| DeleteMachineKey (ctx : RequestContext) (user_id machine_id : Z)
| ReadMachineForRotate (ctx : RequestContext) (user_id machine_id : Z)
| WriteRotatedMachineKey (ctx : RequestContext) (user_id : Z) (record : MachineKeyRecord) (json_bytes : list byte)
| ReadSingleMachineKey (ctx : RequestContext)
| ReadCredentialsForAttach (ctx : RequestContext) (user_id : Z) (email : string)
| GetCredentials (ctx : RequestContext)
| ReadCredentialsForUnlink (ctx : RequestContext) (user_id : Z) (credential_type : CredentialType)
| WriteUnlinkedCredential (ctx : RequestContext) (user_id : Z) (json_bytes : list byte)
| WriteEmailCredential (ctx : RequestContext) (user_id : Z) (json_bytes : list byte)
| CreateCredentialsDirectory (ctx : RequestContext) (user_id : Z) (json_bytes : list byte)
| WriteEmailCredentialRetry (ctx : RequestContext) (user_id : Z) (json_bytes : list byte)
| ReadMachineKeyForZidLogin (ctx : RequestContext) (user_id : Z) (zid_endpoint : string)
| WriteZidSession (ctx : RequestContext) (user_id : Z) (tokens : ZidTokens) (json_bytes : list byte)
| ReadMachineKeyForZidEnroll (ctx : RequestContext) (user_id : Z) (zid_endpoint : string)
| WriteZidEnrollSession (ctx : RequestContext) (user_id : Z) (tokens : ZidTokens) (json_bytes : list byte)
| DeleteZidSession (ctx : RequestContext)
| WriteZidEmailLoginSession (ctx : RequestContext) (user_id : Z) (tokens : ZidTokens) (json_bytes : list byte)
| ReadIdentityPreferences (ctx : RequestContext) (user_id : Z)
| ReadPreferencesForUpdate (ctx : RequestContext) (user_id : Z) (new_key_scheme : KeyScheme)
| WritePreferences (ctx : RequestContext) (user_id : Z) (json_bytes : list byte)
| ReadPreferencesForDefaultMachine (ctx : RequestContext) (user_id new_default_machine_id : Z)
| WritePreferencesForDefaultMachine (ctx : RequestContext) (user_id : Z) (json_bytes : list byte)
| CreateIdentityDirForPreferences (ctx : RequestContext) (user_id : Z) (json_bytes : list byte)
| WritePreferencesForDefaultMachineRetry (ctx : RequestContext) (user_id : Z) (json_bytes : list byte)
| ReadPreferencesForZidLogin (ctx : RequestContext) (user_id : Z) (zid_endpoint : string)
| ReadZidSessionForRefresh (ctx : RequestContext) (user_id : Z) (zid_endpoint : string) (refresh_token_override : option string)
| WriteRefreshedZidSession (ctx : RequestContext) (user_id : Z) (tokens : ZidTokens) (json_bytes : list byte).

Definition expected_response (op : PendingStorageOp) : ExpectedVfsResponse :=
  match op with
  | CheckIdentityDirectory _ _ _ | CheckKeyExists _ _ _ => ER_Exists
  | CreateIdentityDirectory _ _ _ _ | CreateIdentityDirectoryComplete _ _ _ | CreateDerivedUserDirectory _ _ _
  | CreateCredentialsDirectory _ _ _ | CreateIdentityDirForPreferences _ _ _ => ER_Mkdir
  | GetIdentityKey _ | ReadIdentityForRecovery _ _ _ | ReadIdentityForMachine _ _ | ReadMachineKey _ _ _ _
  | ReadMachineForRotate _ _ _ | ReadSingleMachineKey _ | ReadCredentialsForAttach _ _ _ | GetCredentials _
  | ReadCredentialsForUnlink _ _ _ | ReadMachineKeyForZidLogin _ _ _ | ReadMachineKeyForZidEnroll _ _ _
  | ReadIdentityPreferences _ _ | ReadPreferencesForUpdate _ _ _ | ReadPreferencesForDefaultMachine _ _ _
  | ReadPreferencesForZidLogin _ _ _ | ReadZidSessionForRefresh _ _ _ _ => ER_Read
  | WriteKeyStore _ _ _ _ | WriteRecoveredKeyStore _ _ _ _ | WriteMachineKey _ _ _ _ | WriteRotatedMachineKey _ _ _ _
  | WriteUnlinkedCredential _ _ _ | WriteEmailCredential _ _ _ | WriteEmailCredentialRetry _ _ _
  | WriteZidSession _ _ _ _ | WriteZidEnrollSession _ _ _ _ | WriteZidEmailLoginSession _ _ _ _
  | WritePreferences _ _ _ | WritePreferencesForDefaultMachine _ _ _ | WritePreferencesForDefaultMachineRetry _ _ _
  | WriteRefreshedZidSession _ _ _ _ => ER_Write
  | ListMachineKeys _ _ => ER_Readdir
  | DeleteMachineKey _ _ _ | DeleteZidSession _ => ER_Unlink
  end.

Inductive PendingKeystoreOp : Type :=
| K_CheckKeyExists (ctx : RequestContext) (user_id : Z) (password : string)
| K_WriteKeyStore (ctx : RequestContext) (user_id : Z) (r : NeuralKeyGenerated) (json_bytes encrypted_shards_json : list byte)
| K_WriteEncryptedShards (ctx : RequestContext) (user_id : Z) (r : NeuralKeyGenerated)
| K_DeleteIdentityKeyAfterShardFailure (ctx : RequestContext) (user_id : Z)
| K_GetIdentityKey (ctx : RequestContext)
| K_ReadIdentityForRecovery (ctx : RequestContext) (user_id : Z) (zid_shards : list ZidNeuralShard)
| K_WriteRecoveredKeyStore (ctx : RequestContext) (user_id : Z) (r : NeuralKeyGenerated) (json_bytes : list byte)
| K_ReadIdentityForMachine (ctx : RequestContext) (request : CreateMachineKeyRequest)
| K_ReadEncryptedShardsForMachine (ctx : RequestContext) (request : CreateMachineKeyRequest)
    (stored_identity_pubkey : list byte) (derivation_user_id : Z)
| K_WriteMachineKey (ctx : RequestContext) (user_id : Z) (record : MachineKeyRecord) (json_bytes : list byte)
| K_ListMachineKeys (ctx : RequestContext) (user_id : Z)
| K_ReadMachineKey (ctx : RequestContext) (user_id : Z) (remaining_paths : list string) (records : list MachineKeyRecord)
| K_DeleteMachineKey (ctx : RequestContext) (user_id machine_id : Z)
| K_ReadMachineForRotate (ctx : RequestContext) (user_id machine_id : Z)
| K_WriteRotatedMachineKey (ctx : RequestContext) (user_id : Z) (record : MachineKeyRecord) (json_bytes : list byte)
| K_ReadSingleMachineKey (ctx : RequestContext)
| K_ListMachineKeysForZidLogin (ctx : RequestContext) (user_id : Z) (zid_endpoint : string)
| K_ReadMachineKeyForZidLogin (ctx : RequestContext) (user_id : Z) (zid_endpoint : string)
| K_ListMachineKeysForZidEnroll (ctx : RequestContext) (user_id : Z) (zid_endpoint : string)
| K_ReadMachineKeyForZidEnroll (ctx : RequestContext) (user_id : Z) (zid_endpoint : string)
| K_ReadIdentityForMachineEnroll (ctx : RequestContext) (request : CreateMachineKeyAndEnrollRequest)
| K_ReadEncryptedShardsForMachineEnroll (ctx : RequestContext) (request : CreateMachineKeyAndEnrollRequest)
    (stored_identity_pubkey : list byte) (derivation_user_id : Z)
| K_WriteMachineKeyForEnroll (ctx : RequestContext) (user_id : Z) (record : MachineKeyRecord) (json_bytes : list byte)
    (zid_endpoint : string) (identity_signing_public_key identity_signing_sk machine_signing_sk machine_encryption_sk : list byte).

Inductive PendingNetworkOp : Type :=
| RequestZidChallenge (ctx : RequestContext) (user_id : Z) (zid_endpoint : string) (machine_key : MachineKeyRecord)
| SubmitZidLogin (ctx : RequestContext) (user_id : Z) (zid_endpoint : string)
| SubmitEmailToZid (ctx : RequestContext) (user_id : Z) (email : string)
| SubmitZidEnroll (ctx : RequestContext) (user_id : Z) (zid_endpoint : string) (identity_id : Z) (keys : EnrollKeys)
| RequestZidChallengeAfterEnroll (ctx : RequestContext) (user_id : Z) (zid_endpoint : string) (keys : EnrollKeys)
| SubmitZidLoginAfterEnroll (ctx : RequestContext) (user_id : Z) (zid_endpoint : string) (keys : EnrollKeys)
| SubmitZidEnrollForCombined (ctx : RequestContext) (user_id : Z) (zid_endpoint : string) (keys : EnrollKeys)
    (machine_key_record : MachineKeyRecord)
| RequestZidChallengeForCombined (ctx : RequestContext) (user_id : Z) (zid_endpoint : string) (keys : EnrollKeys)
    (machine_key_record : MachineKeyRecord)
| SubmitZidLoginForCombined (ctx : RequestContext) (user_id : Z) (zid_endpoint : string) (keys : EnrollKeys)
    (machine_key_record : MachineKeyRecord)
| SubmitZidRefresh (ctx : RequestContext) (user_id : Z) (zid_endpoint session_id machine_id : string) (login_type : LoginType)
| SubmitZidEmailLogin (ctx : RequestContext) (user_id : Z) (zid_endpoint : string)
| RegisterEmail (ctx : RequestContext) (email zid_endpoint : string)
| InitOAuth (ctx : RequestContext) (provider zid_endpoint : string)
| OAuthCallback (ctx : RequestContext) (provider zid_endpoint : string)
| InitWallet (ctx : RequestContext) (wallet_type address zid_endpoint : string)
| VerifyWallet (ctx : RequestContext) (zid_endpoint : string)
| GetTierStatus (ctx : RequestContext) (user_id : Z) (zid_endpoint : string)
| UpgradeToSelfSovereign (ctx : RequestContext) (user_id : Z) (zid_endpoint : string).

(** ** The service *)
Record IdentityService : Type := mk_IdentityService {
  id_registered : bool;
  id_pending_vfs_ops : gmap Z PendingStorageOp;
  id_next_vfs_op_id : Z;
  id_pending_keystore_ops : gmap Z PendingKeystoreOp;
  id_next_keystore_op_id : Z;
  id_pending_net_ops : gmap Z PendingNetworkOp;
  id_drawn : nat  (* values drawn from the random source *) }.

Definition IdentityService_default : IdentityService := mk_IdentityService false ∅ 0 ∅ 0 ∅ 0.
End pending.

Definition MAX_PENDING_VFS_OPS : Z := 64.
Definition MAX_PENDING_KEYSTORE_OPS : Z := 64.
Definition MAX_PENDING_NET_OPS : Z := 32.

(** ** Message numbers *)
Definition MSG_ATTACH_EMAIL : Z := 0x7040.
Definition MSG_ATTACH_EMAIL_RESPONSE : Z := 0x7041.
Definition MSG_GET_CREDENTIALS : Z := 0x7042.
Definition MSG_GET_CREDENTIALS_RESPONSE : Z := 0x7043.
Definition MSG_UNLINK_CREDENTIAL : Z := 0x7046.
Definition MSG_UNLINK_CREDENTIAL_RESPONSE : Z := 0x7047.
Definition MSG_GET_IDENTITY_KEY : Z := 0x7052.
Definition MSG_GET_IDENTITY_KEY_RESPONSE : Z := 0x7053.
Definition MSG_GENERATE_NEURAL_KEY : Z := 0x7054.
Definition MSG_GENERATE_NEURAL_KEY_RESPONSE : Z := 0x7055.
Definition MSG_RECOVER_NEURAL_KEY : Z := 0x7056.
Definition MSG_RECOVER_NEURAL_KEY_RESPONSE : Z := 0x7057.
Definition MSG_CREATE_MACHINE_KEY : Z := 0x7060.
Definition MSG_CREATE_MACHINE_KEY_RESPONSE : Z := 0x7061.
Definition MSG_LIST_MACHINE_KEYS : Z := 0x7062.
Definition MSG_LIST_MACHINE_KEYS_RESPONSE : Z := 0x7063.
Definition MSG_GET_MACHINE_KEY : Z := 0x7064.
Definition MSG_GET_MACHINE_KEY_RESPONSE : Z := 0x7065.
Definition MSG_REVOKE_MACHINE_KEY : Z := 0x7066.
Definition MSG_REVOKE_MACHINE_KEY_RESPONSE : Z := 0x7067.
Definition MSG_ROTATE_MACHINE_KEY : Z := 0x7068.
Definition MSG_ROTATE_MACHINE_KEY_RESPONSE : Z := 0x7069.
Definition MSG_CREATE_MACHINE_KEY_AND_ENROLL : Z := 0x706A.
Definition MSG_CREATE_MACHINE_KEY_AND_ENROLL_RESPONSE : Z := 0x706B.
Definition MSG_ZID_LOGIN : Z := 0x7080.
Definition MSG_ZID_LOGIN_RESPONSE : Z := 0x7081.
Definition MSG_ZID_REFRESH : Z := 0x7082.
Definition MSG_ZID_REFRESH_RESPONSE : Z := 0x7083.
Definition MSG_ZID_ENROLL_MACHINE : Z := 0x7084.
Definition MSG_ZID_ENROLL_MACHINE_RESPONSE : Z := 0x7085.
Definition MSG_ZID_LOGOUT : Z := 0x7086.
Definition MSG_ZID_LOGOUT_RESPONSE : Z := 0x7087.
Definition MSG_ZID_LOGIN_EMAIL : Z := 0x7088.
Definition MSG_ZID_LOGIN_EMAIL_RESPONSE : Z := 0x7089.
Definition MSG_GET_IDENTITY_PREFERENCES : Z := 0x7090.
Definition MSG_GET_IDENTITY_PREFERENCES_RESPONSE : Z := 0x7091.
Definition MSG_SET_DEFAULT_KEY_SCHEME : Z := 0x7092.
Definition MSG_SET_DEFAULT_KEY_SCHEME_RESPONSE : Z := 0x7093.
Definition MSG_SET_DEFAULT_MACHINE_KEY : Z := 0x7094.
Definition MSG_SET_DEFAULT_MACHINE_KEY_RESPONSE : Z := 0x7095.
Definition MSG_ZID_REGISTER_EMAIL : Z := 0x709A.
Definition MSG_ZID_REGISTER_EMAIL_RESPONSE : Z := 0x709B.
Definition MSG_ZID_INIT_OAUTH : Z := 0x709C.
Definition MSG_ZID_INIT_OAUTH_RESPONSE : Z := 0x709D.
Definition MSG_ZID_OAUTH_CALLBACK : Z := 0x709E.
Definition MSG_ZID_OAUTH_CALLBACK_RESPONSE : Z := 0x709F.
Definition MSG_ZID_INIT_WALLET : Z := 0x70A0.
Definition MSG_ZID_INIT_WALLET_RESPONSE : Z := 0x70A1.
Definition MSG_ZID_VERIFY_WALLET : Z := 0x70A2.
Definition MSG_ZID_VERIFY_WALLET_RESPONSE : Z := 0x70A3.
Definition MSG_ZID_GET_TIER : Z := 0x70B0.
Definition MSG_ZID_GET_TIER_RESPONSE : Z := 0x70B1.
Definition MSG_ZID_UPGRADE : Z := 0x70B2.
Definition MSG_ZID_UPGRADE_RESPONSE : Z := 0x70B3.
