(* ===== verification/IdKeys.v ===== *)
(** * Identity service: helpers and keys

    Authorization (services/identity/auth.rs), small functions (utils.rs), the
    handling of shards and passwords (crates/zos-identity/src/crypto.rs,
    handlers/keys/shared.rs), the keystore client (crates/zos-vfs/src/client/
    keystore_async.rs), the starters of pending operations (vfs_helpers.rs,
    keystore_helpers.rs) and the responses (response.rs). Diagnostic debug lines are
    left out; the line that carries a response is kept. A panic is [never].

    Then the neural and machine keys (services/identity/handlers/keys): the handlers
    of requests and the continuations that run when the storage answers. A request is
    parsed, its sender checked, and an operation started that remembers what is to be
    done with the response. *)
From S2P Require Import Prelude StrLib ProcessLib AppFramework VfsPath VfsClient Keystore IdTypes.

Local Open Scope string_scope.
Local Open Scope Z_scope.

(** ** auth.rs *)
Inductive AuthResult : Type := Allowed | Denied.
Inductive AuthReason : Type := SystemProcess | DesktopProcess | SessionVerified | UntrustedProcess | InvalidSession.

#[export] Instance AuthResult_eq_dec : EqDecision AuthResult.
Proof. solve_decision. Defined.

Definition TRUSTED_SYSTEM_PID_MAX : Z := 9.
Definition DESKTOP_PROCESS_PID : Z := 10.

Definition is_system_process (pid : Z) : bool := pid <=? TRUSTED_SYSTEM_PID_MAX.
Definition is_desktop_process (pid : Z) : bool := pid =? DESKTOP_PROCESS_PID.

Definition check_authorization_with_reason (from_pid _target_user_id : Z) : AuthResult * AuthReason :=
  if is_system_process from_pid then (Allowed, SystemProcess)
  else if is_desktop_process from_pid then (Allowed, DesktopProcess)
  else (Denied, UntrustedProcess).

Definition check_user_authorization (from_pid target_user_id : Z) : AuthResult :=
  (check_authorization_with_reason from_pid target_user_id).1.

(** ** utils.rs *)
Definition bytes_to_hex (bytes : list byte) : string :=
  foldr (fun b hex =>
    String (hex_digit (Z.shiftr (Z_of_byte b) 4)) (String (hex_digit (Z.land (Z_of_byte b) 0x0F)) hex)) "" bytes.

Definition format_uuid (value : Z) : string :=
  let hex := hex_u128 value in
  let slice a b := str_take (Z.to_nat (b - a)) (str_drop (Z.to_nat a) hex) in
  slice 0 8 +:+ "-" +:+ slice 8 12 +:+ "-" +:+ slice 12 16 +:+ "-" +:+ slice 16 20 +:+ "-" +:+ slice 20 32.

(** [trim_end_matches(c)]. *)
Fixpoint trim_end_matches (c : ascii) (s : string) : string :=
  match s with
  | EmptyString => ""
  | String a s' =>
      let t := trim_end_matches c s' in
      if String.eqb t "" && Ascii.eqb a c then "" else String a t
  end.

(** [DECODE_TABLE]: -1 for a character outside the alphabet. *)
Definition DECODE_TABLE (c : Z) : Z :=
  if (65 <=? c) && (c <=? 90) then c - 65
  else if (97 <=? c) && (c <=? 122) then c - 71
  else if (48 <=? c) && (c <=? 57) then c + 4
  else if c =? 43 then 62
  else if c =? 47 then 63
  else -1.

(** The loop: [buffer] holds the last [bits_collected] bits. *)
Fixpoint base64_loop (input : list byte) (buffer bits_collected : Z) (output : list byte)
  : result (list byte) string :=
  match input with
  | [] => Ok output
  | b :: input =>
      let c := Z_of_byte b in
      if 128 <=? c then Err "Invalid base64 character"
      else
        let value := DECODE_TABLE c in
        if value <? 0 then Err "Invalid base64 character"
        else
          let buffer := Z.lor (wrap_u32 (Z.shiftl buffer 6)) value in
          let bits_collected := bits_collected + 6 in
          if 8 <=? bits_collected then
            let bits_collected := bits_collected - 8 in
            base64_loop input (Z.land buffer (Z.shiftl 1 bits_collected - 1)) bits_collected
              (output ++ [byte_of_Z (Z.shiftr buffer bits_collected)])
          else base64_loop input buffer bits_collected output
  end.

Definition base64_decode (input : string) : result (list byte) string :=
  let input := trim_end_matches "=" input in
  if String.eqb input "" then Ok [] else base64_loop (str_bytes input) 0 0 [].

(** [str::parse::<i64>]. *)
Definition parse_i64 (s : string) : option Z :=
  let checked (neg : bool) (s' : string) : option Z :=
    if String.eqb s' "" then None
    else
      d ← parse_digits 10 0 s';
      let z := if neg then - d else d in
      if (- 2 ^ 63 <=? z) && (z <? 2 ^ 63) then Some z else None in
  match s with
  | String "-" s' => checked true s'
  | String "+" s' => checked false s'
  | _ => checked false s
  end.

Definition is_leap_year (year : Z) : bool :=
  ((Z.rem year 4 =? 0) && negb (Z.rem year 100 =? 0)) || (Z.rem year 400 =? 0).

(** The days of the years before [year], and of the months before [month] with the
    table [days_in_month]; [None] is the index out of its bounds. *)
Definition year_days (year : Z) : Z :=
  foldl (fun days y => days + (if is_leap_year y then 366 else 365)) 0 (seqZ 1970 (year - 1970)).

Definition days_in_month : list Z := [31; 28; 31; 30; 31; 30; 31; 31; 30; 31; 30; 31].

Definition month_days (year month : Z) : option Z :=
  foldl (fun days m =>
    d ← days;
    n ← days_in_month !! Z.to_nat (m - 1);
    Some (d + n + (if (m =? 2) && is_leap_year year then 1 else 0))) (Some 0) (seqZ 1 (month - 1)).

(** The fields of the date and of the time; [None] when there is no [T] between
    them or the date has not three parts. *)
Definition rfc3339_date (timestamp : string) : option (Z * Z * Z * string) :=
  match split_char "T" timestamp with
  | [date; time] =>
      match split_char "-" date with
      | [y; m; d] => Some (default 2024 (parse_i64 y), default 1 (parse_i64 m), default 1 (parse_i64 d), time)
      | _ => None
      end
  | _ => None
  end.

(** [split(c).next()]. *)
Definition first_piece (c : ascii) (s : string) : string := from_option id "" (head (split_char c s)).

Definition rfc3339_time (time : string) : Z * Z * Z :=
  let time_parts := split_char ":" (first_piece "-" (first_piece "+" (trim_end_matches "Z" time))) in
  (default 0 (s ← time_parts !! 0%nat; parse_i64 s),
   default 0 (s ← time_parts !! 1%nat; parse_i64 s),
   default 0 (s ← time_parts !! 2%nat; parse_i64 (first_piece "." s))).

(** [combine_shards_verified]: a key is returned only when the identity key derived
    from it is the expected one. *)
Section shards.
Context {C : IdCrypto}.

Definition uuid_from_u128 (id : Z) : list byte := u128_to_be_bytes id.

Definition combine_shards_verified (shards : list ZidNeuralShard) (user_id : Z) (expected_identity_pubkey : list byte)
  : result NeuralKey KeyError :=
  if len shards <? 3 then Err KE_InsufficientShards
  else
    match combine_shards shards with
    | Err e => Err (KE_InvalidShard ("Shard reconstruction failed: " +:+ e))
    | Ok neural_key =>
        match derive_identity_signing_keypair neural_key (uuid_from_u128 user_id) with
        | Err _ => Err KE_DerivationFailed
        | Ok (derived_pubkey, _) =>
            if decide (derived_pubkey = expected_identity_pubkey) then Ok neural_key else Err KE_NeuralKeyMismatch
        end
    end.

Definition MIN_PASSWORD_LENGTH : Z := 12.

Definition validate_password (password : string) : result unit KeyError :=
  if str_len password <? MIN_PASSWORD_LENGTH then
    Err (KE_InvalidPassword ("Password must be at least " +:+ pretty MIN_PASSWORD_LENGTH +:+ " characters"))
  else Ok tt.

(** The derived key has 32 bytes, so that the cipher is always set up. *)
Definition derive_key_from_password (password : string) (kdf : KeyDerivation) : result (list byte) KeyError :=
  if negb (String.eqb (kd_algorithm kdf) "Argon2id") then
    Err (KE_CryptoError ("Unsupported KDF algorithm: " +:+ kd_algorithm kdf))
  else
    match argon2_params (kd_memory_cost kdf) (kd_time_cost kdf) (kd_parallelism kdf) (Some 32) with
    | Err e => Err (KE_CryptoError ("Invalid KDF params: " +:+ e))
    | Ok params =>
        match argon2id params (str_bytes password) (kd_salt kdf) with
        | Err e => Err (KE_CryptoError ("Key derivation failed: " +:+ e))
        | Ok key => Ok key
        end
    end.

Definition decrypt_shard_with_key (encrypted : EncryptedShard) (derived_key : list byte) : result string KeyError :=
  match aes_gcm_decrypt derived_key (es_nonce encrypted) (es_ciphertext encrypted ++ es_tag encrypted) with
  | None => Err KE_DecryptionFailed
  | Some plaintext => ok_or (from_utf8 plaintext) KE_DecryptionFailed
  end.

(** *** handlers/keys/shared.rs *)
Fixpoint decrypt_all (shards : list EncryptedShard) (derived_key : list byte) : result (list (Z * string)) KeyError :=
  match shards with
  | [] => Ok []
  | s :: shards =>
      match decrypt_shard_with_key s derived_key with
      | Err e => Err e
      | Ok hex => result_map (cons (es_index s, hex)) (decrypt_all shards derived_key)
      end
  end.

Definition decrypt_shards_with_password (encrypted_store : EncryptedShardStore) (password : string)
  : result (list (Z * string)) KeyError :=
  match derive_key_from_password password (ess_kdf encrypted_store) with
  | Err e => Err e
  | Ok derived_key => decrypt_all (ess_encrypted_shards encrypted_store) derived_key
  end.

(** [{:?}] of a vector of numbers. *)
Definition debug_numbers (l : list Z) : string :=
  "[" +:+ match l with [] => "" | x :: l => foldl (fun s y => s +:+ ", " +:+ pretty y) (pretty x) l end +:+ "]".

Fixpoint shards_of_hex (hexes : list string) : result (list ZidNeuralShard) string :=
  match hexes with
  | [] => Ok []
  | hex :: hexes =>
      match shard_from_hex hex with
      | Err e => Err e
      | Ok s => result_map (cons s) (shards_of_hex hexes)
      end
  end.

Definition collect_and_validate_shards (external_shard : NeuralShard) (decrypted_shard_hexes : list (Z * string))
  (encrypted_store : EncryptedShardStore) : result (list ZidNeuralShard) KeyError :=
  if negb (existsb (Z.eqb (nsh_index external_shard)) (ess_external_shard_indices encrypted_store)) then
    Err (KE_InvalidShard ("Invalid shard index " +:+ pretty (nsh_index external_shard) +:+
      ". Your backup shards have indices " +:+ debug_numbers (ess_external_shard_indices encrypted_store) +:+
      ". Please check your shard and enter the correct index."))
  else
    let shard_indices := remove_dups (nsh_index external_shard :: (es_index <$> ess_encrypted_shards encrypted_store)) in
    if negb (len shard_indices =? 3) then Err (KE_InvalidShard "Shard indices must be unique (3 total)")
    else
      match shard_from_hex (nsh_hex external_shard) with
      | Err e => Err (KE_InvalidShard ("Invalid external shard format: " +:+ e))
      | Ok external =>
          match shards_of_hex decrypted_shard_hexes.*2 with
          | Err e => Err (KE_InvalidShard ("Invalid decrypted shard format: " +:+ e))
          | Ok shards => Ok (external :: shards)
          end
      end.

(** handlers/keys/mod.rs: the first 16 bytes of the hash of the identity key. *)
Definition derive_user_id_from_pubkey (identity_signing_public_key : list byte) : Z :=
  u128_from_be_bytes (take 16 (sha256 identity_signing_public_key)).
End shards.

(** ** Keystore client *)
Inductive KeystoreRequest : Type :=
| KR_Read (r : KeystoreReadRequest)
| KR_Write (r : KeystoreWriteRequest)
| KR_Delete (r : KeystoreDeleteRequest)
| KR_Exists (r : KeystoreExistsRequest)
| KR_List (r : KeystoreListRequest).

Class KeystoreClientJson : Type := {
  keystore_request_to_vec : KeystoreRequest -> result (list byte) string;
  ks_read_response : list byte -> result (result (list byte) KeystoreError) string;
  ks_write_response : list byte -> result (result unit KeystoreError) string;
  ks_delete_response : list byte -> result (result unit KeystoreError) string;
  ks_exists_response : list byte -> result (result bool KeystoreError) string;
  ks_list_response : list byte -> result (result (list string) KeystoreError) string }.

Definition KEYSTORE_ENDPOINT_SLOT : Z := 5.

Definition is_keystore_response (tag : Z) : bool :=
  existsb (Z.eqb tag)
    [MSG_KEYSTORE_READ_RESPONSE; MSG_KEYSTORE_WRITE_RESPONSE; MSG_KEYSTORE_DELETE_RESPONSE;
     MSG_KEYSTORE_EXISTS_RESPONSE; MSG_KEYSTORE_LIST_RESPONSE].

Definition debug_keystore_error (e : KeystoreError) : string :=
  match e with
  | InvalidKey m => debug_tuple "InvalidKey" m
  | InvalidRequest m => debug_tuple "InvalidRequest" m
  | NotFound => "NotFound"
  | StorageError m => debug_tuple "StorageError" m
  | ResourceExhausted => "ResourceExhausted"
  end.

Definition parse_keystore_response {T} (parsed : result (result T KeystoreError) string) : result T string :=
  match parsed with
  | Ok (Ok x) => Ok x
  | Ok (Err e) => Err (debug_keystore_error e)
  | Err e => Err ("Parse error: " +:+ e)
  end.

(** ** Computations of the service *)

(** The [?] operator inside a computation. *)
Definition bind_ok {A S T U E} (m : AppM A S (result T E)) (k : T -> AppM A S (result U E)) : AppM A S (result U E) :=
  r ← m;
  match r with Ok x => k x | Err e => mret (Err e) end.

Notation "'let?' x := c 'in' k" := (bind_ok c (fun x => k))
  (at level 200, x pattern, c at level 100, k at level 200, right associativity) : zos_scope.
Local Open Scope zos_scope.

Section service.
Context {C : IdCrypto} {J : IdJson} {V : VfsClientJson} {K : KeystoreClientJson}.
Context {S : Type} `{Sys S}.

Abbreviation SvcM T := (AppM IdentityService S T) (only parsing).

(** [parse_rfc3339_to_millis]: [i64] arithmetic wraps, so that only the last
    conversion shows; an hour from now when the text has another shape. *)
Definition parse_rfc3339_to_millis (timestamp : string) : SvcM Z :=
  match rfc3339_date timestamp with
  | None => now ← call L_get_wallclock; mret (u64_add now 3600000)
  | Some (year, month, day, time) =>
      let '(hour, minute, second) := rfc3339_time time in
      match month_days year month with
      | None => never
      | Some months =>
          let days := year_days year + months + (day - 1) in
          mret (wrap_u64 ((days * 86400 + hour * 3600 + minute * 60 + second) * 1000))
      end
  end.

(** ** The random source *)
Definition draw : SvcM nat :=
  s ← self;
  modify (fun s => mk_IdentityService (id_registered s) (id_pending_vfs_ops s) (id_next_vfs_op_id s)
    (id_pending_keystore_ops s) (id_next_keystore_op_id s) (id_pending_net_ops s) (Datatypes.S (id_drawn s))) ;;
  mret (id_drawn s).

Definition draw_bytes (n : Z) (what : string) : SvcM (result (list byte) KeyError) :=
  i ← draw;
  mret (map_err (fun e => KE_CryptoError (what +:+ " failed: " +:+ e)) (getrandom i n)).

Definition NeuralKey_generate : SvcM (result NeuralKey string) := i ← draw; mret (nk_generate i).
Definition split_key (key : NeuralKey) : SvcM (result (list ZidNeuralShard) string) :=
  i ← draw; mret (split_neural_key i key).

(** *** crypto.rs *)
Definition encrypt_shard_with_key (shard_hex : string) (shard_index : Z) (derived_key : list byte)
  : SvcM (result EncryptedShard KeyError) :=
  let? nonce := draw_bytes 12 "Nonce generation" in
  match aes_gcm_encrypt derived_key nonce (str_bytes shard_hex) with
  | Err e => mret (Err (KE_CryptoError ("Encryption failed: " +:+ e)))
  | Ok ciphertext_with_tag =>
      if len ciphertext_with_tag <? 16 then never
      else
        let tag_start := (length ciphertext_with_tag - 16)%nat in
        mret (Ok (mk_EncryptedShard shard_index (take tag_start ciphertext_with_tag) nonce
                    (drop tag_start ciphertext_with_tag)))
  end.

Definition generate_kdf_salt : SvcM (result (list byte) KeyError) := draw_bytes 32 "Salt generation".

Definition create_kdf_params : SvcM (result KeyDerivation KeyError) :=
  let? salt := generate_kdf_salt in
  mret (Ok (mk_KeyDerivation "Argon2id" salt 3 64 1)).

(** [swap(i, j)]. *)
Definition swap {T} (i j : nat) (l : list T) : list T :=
  match l !! i, l !! j with Some a, Some b => <[j := a]> (<[i := b]> l) | _, _ => l end.

(** The loop of the shuffle: a position [j <= i] for each [i] from the last down. *)
Fixpoint shuffle (positions : list nat) (indices : list Z) : SvcM (result (list Z) KeyError) :=
  match positions with
  | [] => mret (Ok indices)
  | i :: positions =>
      let? rand_bytes := draw_bytes 4 "Random selection" in
      let j := Z.to_nat (from_le_bytes rand_bytes mod Z.of_nat (Datatypes.S i)) in
      shuffle positions (swap i j indices)
  end.

Definition select_shards_to_encrypt : SvcM (result (list Z * list Z) KeyError) :=
  let? indices := shuffle [4; 3; 2; 1]%nat [1; 2; 3; 4; 5] in
  mret (Ok (take 2 indices, merge_sort Z.le (drop 2 indices))).

(** ** Keystore requests *)
Definition send_keystore_request (tag : Z) (request : KeystoreRequest) : PM S (result unit VfsError) :=
  match keystore_request_to_vec request with
  | Err e => mret (Err (VfsStorageError ("Serialize error: " +:+ e)))
  | Ok data =>
      r ← sys_call (L_send KEYSTORE_ENDPOINT_SLOT tag data);
      mret (match r with Ok _ => Ok tt | Err e => Err (VfsStorageError ("Send error: " +:+ pretty e)) end)
  end.

Definition ks_send_read (key : string) := send_keystore_request MSG_KEYSTORE_READ (KR_Read (mk_KeystoreReadRequest key)).
Definition ks_send_write (key : string) (value : list byte) :=
  send_keystore_request MSG_KEYSTORE_WRITE (KR_Write (mk_KeystoreWriteRequest key value)).
Definition ks_send_delete (key : string) := send_keystore_request MSG_KEYSTORE_DELETE (KR_Delete (mk_KeystoreDeleteRequest key)).
Definition ks_send_exists (key : string) := send_keystore_request MSG_KEYSTORE_EXISTS (KR_Exists (mk_KeystoreExistsRequest key)).
Definition ks_send_list (prefix : string) := send_keystore_request MSG_KEYSTORE_LIST (KR_List (mk_KeystoreListRequest prefix)).

(** ** Starting operations: the body shared by the starters. The number is taken
    before the request is sent, the operation stored when it was. *)
Definition take_vfs_op_id (s : IdentityService) : IdentityService :=
  mk_IdentityService (id_registered s) (id_pending_vfs_ops s) (wrap_u32 (id_next_vfs_op_id s + 1))
    (id_pending_keystore_ops s) (id_next_keystore_op_id s) (id_pending_net_ops s) (id_drawn s).
Definition set_vfs_ops (p : gmap Z PendingStorageOp) (s : IdentityService) : IdentityService :=
  mk_IdentityService (id_registered s) p (id_next_vfs_op_id s)
    (id_pending_keystore_ops s) (id_next_keystore_op_id s) (id_pending_net_ops s) (id_drawn s).
Definition take_keystore_op_id (s : IdentityService) : IdentityService :=
  mk_IdentityService (id_registered s) (id_pending_vfs_ops s) (id_next_vfs_op_id s)
    (id_pending_keystore_ops s) (wrap_u32 (id_next_keystore_op_id s + 1)) (id_pending_net_ops s) (id_drawn s).
Definition set_keystore_ops (p : gmap Z PendingKeystoreOp) (s : IdentityService) : IdentityService :=
  mk_IdentityService (id_registered s) (id_pending_vfs_ops s) (id_next_vfs_op_id s)
    p (id_next_keystore_op_id s) (id_pending_net_ops s) (id_drawn s).
Definition set_net_ops (p : gmap Z PendingNetworkOp) (s : IdentityService) : IdentityService :=
  mk_IdentityService (id_registered s) (id_pending_vfs_ops s) (id_next_vfs_op_id s)
    (id_pending_keystore_ops s) (id_next_keystore_op_id s) p (id_drawn s).

Definition start_vfs (send : PM S (result unit VfsError)) (op : PendingStorageOp) : SvcM (result unit AppError) :=
  s ← self;
  if MAX_PENDING_VFS_OPS <=? Z.of_nat (size (id_pending_vfs_ops s)) then mret (Err (IpcError "Too many pending operations"))
  else
    let op_id := id_next_vfs_op_id s in
    modify take_vfs_op_id ;;
    r ← lift send;
    match r with
    | Err e => mret (Err (app_error_of_vfs e))
    | Ok _ => modify (fun s => set_vfs_ops (<[op_id := op]> (id_pending_vfs_ops s)) s) ;; mret (Ok tt)
    end.

Definition start_vfs_read (path : string) := start_vfs (send_read_request path).
Definition start_vfs_write (path : string) (value : list byte) := start_vfs (send_write_request path value).
Definition start_vfs_delete (path : string) := start_vfs (send_unlink_request path).
Definition start_vfs_exists (path : string) := start_vfs (send_exists_request path).
Definition start_vfs_readdir (path : string) := start_vfs (send_readdir_request path).
Definition start_vfs_mkdir (path : string) (create_parents : bool) := start_vfs (send_mkdir_request path create_parents).

Definition start_keystore_op (send : PM S (result unit VfsError)) (op : PendingKeystoreOp) : SvcM (result unit AppError) :=
  s ← self;
  if MAX_PENDING_KEYSTORE_OPS <=? Z.of_nat (size (id_pending_keystore_ops s)) then
    mret (Err (IpcError "Too many pending keystore operations"))
  else
    let op_id := id_next_keystore_op_id s in
    modify take_keystore_op_id ;;
    r ← lift send;
    match r with
    | Err e => mret (Err (app_error_of_vfs e))
    | Ok _ => modify (fun s => set_keystore_ops (<[op_id := op]> (id_pending_keystore_ops s)) s) ;; mret (Ok tt)
    end.

Definition start_keystore_read (key : string) := start_keystore_op (ks_send_read key).
Definition start_keystore_write (key : string) (value : list byte) := start_keystore_op (ks_send_write key value).
Definition start_keystore_delete (key : string) := start_keystore_op (ks_send_delete key).
Definition start_keystore_exists (key : string) := start_keystore_op (ks_send_exists key).
Definition start_keystore_list (prefix : string) := start_keystore_op (ks_send_list prefix).

Definition start_network_fetch (request : HttpRequest) (op : PendingNetworkOp) : SvcM (result unit AppError) :=
  s ← self;
  if MAX_PENDING_NET_OPS <=? Z.of_nat (size (id_pending_net_ops s)) then
    mret (Err (IpcError "Too many pending network operations"))
  else
    match to_vec request with
    | Err e => mret (Err (IpcError ("Request serialization failed: " +:+ e)))
    | Ok request_json =>
        r ← call (L_network_fetch request_json);
        match r with
        | Ok request_id =>
            modify (fun s => set_net_ops (<[wrap_u32 request_id := op]> (id_pending_net_ops s)) s) ;; mret (Ok tt)
        | Err e => mret (Err (IpcError ("Network fetch failed: " +:+ pretty e)))
        end
    end.

(** ** Responses *)
Definition id_response_line (pid tag : Z) (data : list byte) : string :=
  "SERVICE:RESPONSE:" +:+ pretty pid +:+ ":" +:+ hex_u32 tag +:+ ":" +:+ hex_bytes data.

Definition send_response_to_pid (ctx : RequestContext) (tag : Z) (response : IdResponse) : SvcM (result unit AppError) :=
  match to_vec response with
  | Ok data =>
      let fallback := call (L_debug (id_response_line (rc_client_pid ctx) tag data)) ;; mret (Ok tt) in
      match rc_cap_slots ctx with
      | reply_slot :: _ =>
          r ← call (L_send reply_slot tag data);
          match r with Ok _ => mret (Ok tt) | Err _ => fallback end
      | [] => fallback
      end
  | Err e => mret (Err (IpcError ("Serialization failed: " +:+ e)))
  end.

(** The response to a message, and the response that goes before a failure. *)
Definition reply_to (msg : AppMessage) : RequestContext := mk_RequestContext (am_from_pid msg) (am_cap_slots msg).
Definition failed {T} (respond : SvcM (result unit AppError)) (reason : string) : SvcM (result T AppError) :=
  let? _ := respond in mret (Err (Internal reason)).

Definition send_neural_key_response ctx r := send_response_to_pid ctx MSG_GENERATE_NEURAL_KEY_RESPONSE (GenerateNeuralKeyResponse r).
Definition send_recover_key_response ctx r := send_response_to_pid ctx MSG_RECOVER_NEURAL_KEY_RESPONSE (RecoverNeuralKeyResponse r).
Definition send_get_identity_key_response ctx r := send_response_to_pid ctx MSG_GET_IDENTITY_KEY_RESPONSE (GetIdentityKeyResponse r).
Definition send_create_machine_key_response ctx r := send_response_to_pid ctx MSG_CREATE_MACHINE_KEY_RESPONSE (CreateMachineKeyResponse r).
Definition send_list_machine_keys ctx machines := send_response_to_pid ctx MSG_LIST_MACHINE_KEYS_RESPONSE (ListMachineKeysResponse machines).
Definition send_list_machine_keys_error ctx (_ : KeyError) := send_list_machine_keys ctx [].
Definition send_get_machine_key_response ctx r := send_response_to_pid ctx MSG_GET_MACHINE_KEY_RESPONSE (GetMachineKeyResponse r).
Definition send_revoke_machine_key_response ctx r := send_response_to_pid ctx MSG_REVOKE_MACHINE_KEY_RESPONSE (RevokeMachineKeyResponse r).
Definition send_rotate_machine_key_response ctx r := send_response_to_pid ctx MSG_ROTATE_MACHINE_KEY_RESPONSE (RotateMachineKeyResponse r).
Definition send_attach_email_response ctx r := send_response_to_pid ctx MSG_ATTACH_EMAIL_RESPONSE (AttachEmailResponse r).
Definition send_get_credentials ctx credentials := send_response_to_pid ctx MSG_GET_CREDENTIALS_RESPONSE (GetCredentialsResponse credentials).
Definition send_get_credentials_error ctx (_ : CredentialError) := send_get_credentials ctx [].
Definition send_unlink_credential_response ctx r := send_response_to_pid ctx MSG_UNLINK_CREDENTIAL_RESPONSE (UnlinkCredentialResponse r).
Definition send_zid_login_response ctx r := send_response_to_pid ctx MSG_ZID_LOGIN_RESPONSE (ZidLoginResponse r).
Definition send_zid_email_login_response ctx r := send_response_to_pid ctx MSG_ZID_LOGIN_EMAIL_RESPONSE (ZidEmailLoginResponse r).
Definition send_zid_enroll_response ctx r := send_response_to_pid ctx MSG_ZID_ENROLL_MACHINE_RESPONSE (ZidEnrollMachineResponse r).
Definition send_zid_logout_response ctx r := send_response_to_pid ctx MSG_ZID_LOGOUT_RESPONSE (ZidLogoutResponse r).
Definition send_zid_refresh_response ctx r := send_response_to_pid ctx MSG_ZID_REFRESH_RESPONSE (ZidRefreshResponse r).
Definition send_get_identity_preferences_response ctx p :=
  send_response_to_pid ctx MSG_GET_IDENTITY_PREFERENCES_RESPONSE (GetIdentityPreferencesResponse p).
Definition send_set_default_key_scheme_response ctx r := send_response_to_pid ctx MSG_SET_DEFAULT_KEY_SCHEME_RESPONSE (SetDefaultKeySchemeResponse r).
Definition send_set_default_machine_key_response ctx r := send_response_to_pid ctx MSG_SET_DEFAULT_MACHINE_KEY_RESPONSE (SetDefaultMachineKeyResponse r).
Definition send_create_machine_key_and_enroll_response ctx r :=
  send_response_to_pid ctx MSG_CREATE_MACHINE_KEY_AND_ENROLL_RESPONSE (CreateMachineKeyAndEnrollResponse r).
Definition send_register_email_response ctx r := send_response_to_pid ctx MSG_ZID_REGISTER_EMAIL_RESPONSE (RegisterEmailResponse r).
Definition send_init_oauth_response ctx r := send_response_to_pid ctx MSG_ZID_INIT_OAUTH_RESPONSE (InitOAuthResponse r).
Definition send_oauth_callback_response ctx r := send_response_to_pid ctx MSG_ZID_OAUTH_CALLBACK_RESPONSE (OAuthCallbackResponse r).
Definition send_init_wallet_response ctx r := send_response_to_pid ctx MSG_ZID_INIT_WALLET_RESPONSE (InitWalletAuthResponse r).
Definition send_verify_wallet_response ctx r := send_response_to_pid ctx MSG_ZID_VERIFY_WALLET_RESPONSE (VerifyWalletResponse r).
Definition send_get_tier_status_response ctx r := send_response_to_pid ctx MSG_ZID_GET_TIER_RESPONSE (GetTierStatusResponse r).
Definition send_upgrade_to_self_sovereign_response ctx r := send_response_to_pid ctx MSG_ZID_UPGRADE_RESPONSE (UpgradeToSelfSovereignResponse r).
End service.

(** * Neural and machine keys *)
Section keys.
Context {C : IdCrypto} {J : IdJson} {V : VfsClientJson} {K : KeystoreClientJson}.
Context {S : Type} `{Sys S}.

Abbreviation SvcM T := (AppM IdentityService S T) (only parsing).

(** The beginning that the handlers share: the request, and the authorization of
    its sender; [refuse] answers an error. *)
Definition handle_request {R E} `{Deserialize R} (user : R -> Z) (msg : AppMessage)
  (refuse : E -> SvcM (result unit AppError)) (invalid : string -> E) (unauthorized : E)
  (k : R -> SvcM (result unit AppError)) : SvcM (result unit AppError) :=
  match from_slice (am_data msg) with
  | Err e => refuse (invalid ("JSON parse error: " +:+ e))
  | Ok request =>
      match check_user_authorization (am_from_pid msg) (user request) with
      | Denied => refuse unauthorized
      | Allowed => k request
      end
  end.

(** ** generate.rs *)
Definition handle_generate_neural_key (msg : AppMessage) : SvcM (result unit AppError) :=
  let ctx := reply_to msg in
  handle_request gn_user_id msg (fun e => send_neural_key_response ctx (Err e)) KE_InvalidRequest KE_Unauthorized
    (fun request =>
      match validate_password (gn_password request) with
      | Err e => send_neural_key_response ctx (Err e)
      | Ok _ =>
          start_vfs_exists (identity_dir (gn_user_id request))
            (CheckIdentityDirectory ctx (gn_user_id request) (gn_password request))
      end).

Definition continue_generate_after_directory_check (ctx : RequestContext) (user_id : Z) (exists_ : bool) (password : string)
  : SvcM (result unit AppError) :=
  if exists_ then start_keystore_exists (LocalKeyStore_path user_id) (K_CheckKeyExists ctx user_id password)
  else start_vfs_mkdir (identity_dir user_id) true (CreateIdentityDirectoryComplete ctx user_id password).

Definition continue_create_directories (ctx : RequestContext) (user_id : Z) (directories : list string) (password : string)
  : SvcM (result unit AppError) :=
  match directories with
  | [] => start_keystore_exists (LocalKeyStore_path user_id) (K_CheckKeyExists ctx user_id password)
  | next_dir :: remaining_dirs =>
      start_vfs_mkdir next_dir false (CreateIdentityDirectory ctx user_id remaining_dirs password)
  end.

Definition generate_neural_key_and_identity (user_id : Z) (ctx : RequestContext)
  : SvcM (result (NeuralKey * list byte) AppError) :=
  r ← NeuralKey_generate;
  match r with
  | Err e => failed (send_neural_key_response ctx (Err (KE_CryptoError ("Neural Key generation failed: " +:+ e))))
      "Neural Key generation failed"
  | Ok neural_key =>
      match derive_identity_signing_keypair neural_key (uuid_from_u128 user_id) with
      | Err e =>
          failed (send_neural_key_response ctx
            (Err (KE_CryptoError ("Identity key derivation failed during generation: " +:+ e))))
            "Identity key derivation failed"
      | Ok (identity_signing, _) => mret (Ok (neural_key, identity_signing))
      end
  end.

(** The shards with their numbers, from 1. *)
Definition number_shards (shards : list ZidNeuralShard) : list NeuralShard :=
  imap (fun i shard => mk_NeuralShard (Z.of_nat (i + 1) mod 256) (shard_to_hex shard)) shards.

Definition split_and_select_shards (neural_key : NeuralKey) (ctx : RequestContext)
  : SvcM (result (list NeuralShard * list Z * list Z) AppError) :=
  r ← split_key neural_key;
  match r with
  | Err e => failed (send_neural_key_response ctx (Err (KE_CryptoError ("Shamir split failed: " +:+ e)))) "Shamir split failed"
  | Ok zid_shards =>
      let all_shards := number_shards zid_shards in
      r ← select_shards_to_encrypt;
      match r with
      | Err e => failed (send_neural_key_response ctx (Err e)) "Shard selection failed"
      | Ok (encrypted_indices, external_indices) => mret (Ok (all_shards, encrypted_indices, external_indices))
      end
  end.

Definition create_kdf_and_derive_key (password : string) (ctx : RequestContext)
  : SvcM (result (KeyDerivation * list byte) AppError) :=
  r ← create_kdf_params;
  match r with
  | Err e => failed (send_neural_key_response ctx (Err e)) "KDF creation failed"
  | Ok kdf =>
      match derive_key_from_password password kdf with
      | Err e => failed (send_neural_key_response ctx (Err e)) "Key derivation failed"
      | Ok derived_key => mret (Ok (kdf, derived_key))
      end
  end.

(** [all_shards[(idx - 1) as usize]]. *)
Definition shard_at (all_shards : list NeuralShard) (idx : Z) : option NeuralShard := all_shards !! Z.to_nat (idx - 1).

Fixpoint encrypt_selected_shards (all_shards : list NeuralShard) (encrypted_indices : list Z) (derived_key : list byte)
  (ctx : RequestContext) : SvcM (result (list EncryptedShard) AppError) :=
  match encrypted_indices with
  | [] => mret (Ok [])
  | idx :: encrypted_indices =>
      match shard_at all_shards idx with
      | None => never
      | Some shard =>
          r ← encrypt_shard_with_key (nsh_hex shard) idx derived_key;
          match r with
          | Err e => failed (send_neural_key_response ctx (Err e)) "Shard encryption failed"
          | Ok encrypted =>
              let? rest := encrypt_selected_shards all_shards encrypted_indices derived_key ctx in
              mret (Ok (encrypted :: rest))
          end
      end
  end.

Definition zero_key : list byte := replicate 32 x00.

Definition public_identifiers (identity_signing machine_signing machine_encryption : list byte) : PublicIdentifiers :=
  mk_PublicIdentifiers ("0x" +:+ bytes_to_hex identity_signing) ("0x" +:+ bytes_to_hex machine_signing)
    ("0x" +:+ bytes_to_hex machine_encryption).

Definition build_generation_result (user_id : Z) (identity_signing : list byte) (all_shards : list NeuralShard)
  (external_indices : list Z) (encrypted_shards : list EncryptedShard) (kdf : KeyDerivation)
  : SvcM (NeuralKeyGenerated * LocalKeyStore * EncryptedShardStore) :=
  match mapM (shard_at all_shards) external_indices with
  | None => never
  | Some external_shards =>
      created_at ← call L_get_wallclock;
      let derived_user_id := derive_user_id_from_pubkey identity_signing in
      mret (mk_NeuralKeyGenerated derived_user_id (public_identifiers identity_signing zero_key zero_key)
              external_shards created_at,
            LocalKeyStore_new user_id identity_signing zero_key zero_key created_at,
            mk_EncryptedShardStore user_id encrypted_shards external_indices kdf created_at)
  end.

Definition store_generated_keys (ctx : RequestContext) (r : NeuralKeyGenerated) (key_store : LocalKeyStore)
  (encrypted_shard_store : EncryptedShardStore) : SvcM (result unit AppError) :=
  match to_vec key_store with
  | Err e => send_neural_key_response ctx (Err (KE_StorageError ("Key store serialization failed: " +:+ e)))
  | Ok key_json =>
      match to_vec encrypted_shard_store with
      | Err e => send_neural_key_response ctx (Err (KE_StorageError ("Encrypted shards serialization failed: " +:+ e)))
      | Ok encrypted_shards_json =>
          start_keystore_write (LocalKeyStore_path (ng_user_id r)) key_json
            (K_WriteKeyStore ctx (ng_user_id r) r key_json encrypted_shards_json)
      end
  end.

Definition continue_generate_after_exists_check (ctx : RequestContext) (user_id : Z) (exists_ : bool) (password : string)
  : SvcM (result unit AppError) :=
  if exists_ then send_neural_key_response ctx (Err KE_IdentityKeyAlreadyExists)
  else
    let? (neural_key, identity_signing) := generate_neural_key_and_identity user_id ctx in
    let? (all_shards, encrypted_indices, external_indices) := split_and_select_shards neural_key ctx in
    let? (kdf, derived_key) := create_kdf_and_derive_key password ctx in
    let? encrypted_shards := encrypt_selected_shards all_shards encrypted_indices derived_key ctx in
    built ← build_generation_result user_id identity_signing all_shards external_indices encrypted_shards kdf;
    let '(r, key_store, encrypted_shard_store) := built in
    store_generated_keys ctx r key_store encrypted_shard_store.

(** ** recover.rs *)
Definition handle_recover_neural_key (msg : AppMessage) : SvcM (result unit AppError) :=
  let ctx := reply_to msg in
  handle_request rn_user_id msg (fun e => send_recover_key_response ctx (Err e)) KE_InvalidRequest KE_Unauthorized
    (fun request =>
      if len (rn_shards request) <? 3 then send_recover_key_response ctx (Err KE_InsufficientShards)
      else
        match shards_of_hex (nsh_hex <$> rn_shards request) with
        | Err e => send_recover_key_response ctx (Err (KE_InvalidShard ("Invalid shard format: " +:+ e)))
        | Ok zid_shards =>
            start_keystore_read (LocalKeyStore_path (rn_user_id request))
              (K_ReadIdentityForRecovery ctx (rn_user_id request) zid_shards)
        end).

Definition continue_recover_after_identity_read (ctx : RequestContext) (derivation_user_id storage_user_id : Z)
  (zid_shards : list ZidNeuralShard) (stored_identity_pubkey : list byte) : SvcM (result unit AppError) :=
  match combine_shards_verified zid_shards derivation_user_id stored_identity_pubkey with
  | Err e => send_recover_key_response ctx (Err e)
  | Ok neural_key =>
      match derive_identity_signing_keypair neural_key (uuid_from_u128 derivation_user_id) with
      | Err e =>
          send_recover_key_response ctx
            (Err (KE_CryptoError ("Identity key derivation failed during recovery: " +:+ e)))
      | Ok (identity_signing, _) =>
          r ← split_key neural_key;
          match r with
          | Err e => send_recover_key_response ctx (Err (KE_CryptoError ("Shamir split failed: " +:+ e)))
          | Ok new_zid_shards =>
              created_at ← call L_get_wallclock;
              let key_store := LocalKeyStore_new derivation_user_id identity_signing zero_key zero_key created_at in
              let r := mk_NeuralKeyGenerated storage_user_id (public_identifiers identity_signing zero_key zero_key)
                (number_shards new_zid_shards) created_at in
              match to_vec key_store with
              | Ok json_bytes =>
                  start_keystore_write (LocalKeyStore_path storage_user_id) json_bytes
                    (K_WriteRecoveredKeyStore ctx storage_user_id r json_bytes)
              | Err e => send_recover_key_response ctx (Err (KE_StorageError ("Serialization failed: " +:+ e)))
              end
          end
      end
  end.

Definition handle_get_identity_key (msg : AppMessage) : SvcM (result unit AppError) :=
  let ctx := reply_to msg in
  handle_request gi_user_id msg (fun e => send_get_identity_key_response ctx (Err e)) KE_InvalidRequest KE_Unauthorized
    (fun request => start_keystore_read (LocalKeyStore_path (gi_user_id request)) (K_GetIdentityKey ctx)).

(** ** machine/create.rs *)
Definition handle_create_machine_key (msg : AppMessage) : SvcM (result unit AppError) :=
  let ctx := reply_to msg in
  handle_request cm_user_id msg (fun e => send_create_machine_key_response ctx (Err e)) KE_InvalidRequest KE_Unauthorized
    (fun request => start_keystore_read (LocalKeyStore_path (cm_user_id request)) (K_ReadIdentityForMachine ctx request)).

Definition continue_create_machine_after_identity_read (ctx : RequestContext) (_ : CreateMachineKeyRequest) (_ : list byte)
  : SvcM (result unit AppError) :=
  send_create_machine_key_response ctx (Err (KE_StorageError "Internal error: legacy path invoked")).

(** The number of a new machine: 16 bytes of a fresh key. *)
Definition machine_id_of (key : NeuralKey) : Z := from_le_bytes (take 16 (nk_bytes key)).

Definition derive_machine_keypair (neural_key : NeuralKey) (user_id : Z) (key_scheme : KeyScheme) (ctx : RequestContext)
  : SvcM (result (Z * MachineKeyPair) AppError) :=
  r ← NeuralKey_generate;
  match r with
  | Err _ => failed (send_create_machine_key_response ctx (Err (KE_CryptoError "Failed to generate machine ID")))
      "Machine ID generation failed"
  | Ok key =>
      let machine_id := machine_id_of key in
      match derive_machine_keypair_with_scheme neural_key (uuid_from_u128 user_id) (uuid_from_u128 machine_id) 1
              FULL_DEVICE key_scheme with
      | Err e =>
          failed (send_create_machine_key_response ctx (Err (KE_CryptoError ("Machine keypair derivation failed: " +:+ e))))
            "Machine keypair derivation failed"
      | Ok keypair => mret (Ok (machine_id, keypair))
      end
  end.

Definition build_and_store_machine_record (ctx : RequestContext) (request : CreateMachineKeyRequest) (machine_id : Z)
  (machine_keypair : MachineKeyPair) : SvcM (result unit AppError) :=
  now ← call L_get_wallclock;
  let record := mk_MachineKeyRecord machine_id (mkp_signing_public_key machine_keypair)
    (mkp_encryption_public_key machine_keypair) None None now (cm_user_id request) (cm_capabilities request)
    (cm_machine_name request) now 1 (cm_key_scheme request) None None in
  match to_vec record with
  | Ok json_bytes =>
      start_keystore_write (MachineKeyRecord_path (cm_user_id request) machine_id) json_bytes
        (K_WriteMachineKey ctx (cm_user_id request) record json_bytes)
  | Err e => send_create_machine_key_response ctx (Err (KE_StorageError ("Serialization failed: " +:+ e)))
  end.

Definition continue_create_machine_after_shards_read (ctx : RequestContext) (request : CreateMachineKeyRequest)
  (stored_identity_pubkey : list byte) (derivation_user_id : Z) (encrypted_store : EncryptedShardStore)
  : SvcM (result unit AppError) :=
  let refuse e := send_create_machine_key_response ctx (Err e) in
  match decrypt_shards_with_password encrypted_store (cm_password request) with
  | Err e => refuse e
  | Ok hexes =>
      match collect_and_validate_shards (cm_external_shard request) hexes encrypted_store with
      | Err e => refuse e
      | Ok all_shards =>
          match combine_shards_verified all_shards derivation_user_id stored_identity_pubkey with
          | Err e => refuse e
          | Ok neural_key =>
              let? (machine_id, machine_keypair) :=
                derive_machine_keypair neural_key (cm_user_id request) (cm_key_scheme request) ctx in
              build_and_store_machine_record ctx request machine_id machine_keypair
          end
      end
  end.

(** ** machine/query.rs *)
Definition handle_list_machine_keys (msg : AppMessage) : SvcM (result unit AppError) :=
  let ctx := reply_to msg in
  handle_request lm_user_id msg (send_list_machine_keys_error ctx) KE_InvalidRequest KE_Unauthorized
    (fun request => start_keystore_list (machine_prefix (lm_user_id request)) (K_ListMachineKeys ctx (lm_user_id request))).

Definition handle_revoke_machine_key (msg : AppMessage) : SvcM (result unit AppError) :=
  let ctx := reply_to msg in
  handle_request rv_user_id msg (fun e => send_revoke_machine_key_response ctx (Err e)) KE_InvalidRequest KE_Unauthorized
    (fun request =>
      start_keystore_delete (MachineKeyRecord_path (rv_user_id request) (rv_machine_id request))
        (K_DeleteMachineKey ctx (rv_user_id request) (rv_machine_id request))).

Definition handle_get_machine_key (msg : AppMessage) : SvcM (result unit AppError) :=
  let ctx := reply_to msg in
  handle_request gm_user_id msg (fun e => send_get_machine_key_response ctx (Err e)) KE_InvalidRequest KE_Unauthorized
    (fun request =>
      start_keystore_read (MachineKeyRecord_path (gm_user_id request) (gm_machine_id request)) (K_ReadSingleMachineKey ctx)).

(** ** machine/rotate.rs *)
Definition handle_rotate_machine_key (msg : AppMessage) : SvcM (result unit AppError) :=
  let ctx := reply_to msg in
  handle_request ro_user_id msg (fun e => send_rotate_machine_key_response ctx (Err e)) KE_InvalidRequest KE_Unauthorized
    (fun request =>
      start_keystore_read (MachineKeyRecord_path (ro_user_id request) (ro_machine_id request))
        (K_ReadMachineForRotate ctx (ro_user_id request) (ro_machine_id request))).

Definition generate_rotated_keypair (record : MachineKeyRecord) (ctx : RequestContext)
  : SvcM (result MachineKeyPair AppError) :=
  let refuse {T} msg reason : SvcM (result T AppError) :=
    failed (send_rotate_machine_key_response ctx (Err (KE_CryptoError msg))) reason in
  r ← NeuralKey_generate;
  match r with
  | Err _ => refuse "Failed to generate signing seed" "Signing seed generation failed"
  | Ok signing =>
      r ← NeuralKey_generate;
      match r with
      | Err _ => refuse "Failed to generate encryption seed" "Encryption seed generation failed"
      | Ok encryption =>
          match mkp_from_seeds_with_scheme (nk_bytes signing) (nk_bytes encryption) FULL_DEVICE (mr_key_scheme record) with
          | Ok keypair => mret (Ok keypair)
          | Err e => refuse ("Machine keypair rotation failed: " +:+ e) "Machine keypair rotation failed"
          end
      end
  end.

(** The public keys, the epoch and the time change; the seeds of the record stay. *)
Definition update_record_with_rotated_keys (record : MachineKeyRecord) (machine_keypair : MachineKeyPair)
  : SvcM MachineKeyRecord :=
  now ← call L_get_wallclock;
  let pq := match mr_key_scheme record with PqHybrid => true | Classical => false end in
  mret (mk_MachineKeyRecord (mr_machine_id record) (mkp_signing_public_key machine_keypair)
    (mkp_encryption_public_key machine_keypair) (mr_signing_sk record) (mr_encryption_sk record)
    (mr_authorized_at record) (mr_authorized_by record) (mr_capabilities record) (mr_machine_name record) now
    (u64_add (mr_epoch record) 1) (mr_key_scheme record)
    (if pq then None else mr_pq_signing_public_key record) (if pq then None else mr_pq_encryption_public_key record)).

Definition store_rotated_record (ctx : RequestContext) (user_id machine_id : Z) (record : MachineKeyRecord)
  : SvcM (result unit AppError) :=
  match to_vec record with
  | Ok json_bytes =>
      start_keystore_write (MachineKeyRecord_path user_id machine_id) json_bytes
        (K_WriteRotatedMachineKey ctx user_id record json_bytes)
  | Err e => send_rotate_machine_key_response ctx (Err (KE_StorageError ("Serialization failed: " +:+ e)))
  end.

Definition continue_rotate_after_read (ctx : RequestContext) (user_id machine_id : Z) (data : list byte)
  : SvcM (result unit AppError) :=
  match from_slice (T := MachineKeyRecord) data with
  | Err e => send_rotate_machine_key_response ctx (Err (KE_StorageError ("Parse failed: " +:+ e)))
  | Ok record =>
      let? machine_keypair := generate_rotated_keypair record ctx in
      record ← update_record_with_rotated_keys record machine_keypair;
      store_rotated_record ctx user_id machine_id record
  end.

(** ** enroll.rs *)
Definition handle_create_machine_key_and_enroll (msg : AppMessage) : SvcM (result unit AppError) :=
  let ctx := reply_to msg in
  handle_request ce_user_id msg (fun e => send_create_machine_key_and_enroll_response ctx (Err e))
    ZE_InvalidRequest ZE_Unauthorized
    (fun request => start_keystore_read (LocalKeyStore_path (ce_user_id request)) (K_ReadIdentityForMachineEnroll ctx request)).

(** [match c { Ok(x) => x, Err(e) => { send_error(..)?; return Err(..) } }]. *)
Definition or_enroll_error {T U} (ctx : RequestContext) (what : string) (r : result T string)
  (k : T -> SvcM (result U AppError)) : SvcM (result U AppError) :=
  match r with
  | Ok x => k x
  | Err e =>
      failed (send_create_machine_key_and_enroll_response ctx (Err (ZE_NetworkError (what +:+ " failed: " +:+ e))))
        (what +:+ " failed")
  end.

(** The identity key and its seed, the machine, its seeds and its key pair. *)
Definition derive_keys_for_enroll (neural_key : NeuralKey) (user_id : Z) (key_scheme : KeyScheme) (ctx : RequestContext)
  : SvcM (result (list byte * list byte * Z * list byte * list byte * MachineKeyPair) AppError) :=
  r ← NeuralKey_generate;
  or_enroll_error ctx "Machine ID generation" r (fun key =>
  let machine_id := machine_id_of key in
  let identity_id := uuid_from_u128 user_id in
  let machine_uuid := uuid_from_u128 machine_id in
  or_enroll_error ctx "Identity key derivation" (derive_identity_signing_keypair neural_key identity_id)
    (fun '(identity_signing_public_key, identity_keypair) =>
  or_enroll_error ctx "Machine seed derivation" (derive_machine_seed neural_key identity_id machine_uuid 1) (fun machine_seed =>
  or_enroll_error ctx "Signing seed derivation" (derive_machine_signing_seed machine_seed machine_uuid) (fun machine_signing_sk =>
  or_enroll_error ctx "Encryption seed derivation" (derive_machine_encryption_seed machine_seed machine_uuid)
    (fun machine_encryption_sk =>
  or_enroll_error ctx "Machine keypair creation"
    (mkp_from_seeds_with_scheme machine_signing_sk machine_encryption_sk FULL_DEVICE key_scheme) (fun machine_keypair =>
  mret (Ok (identity_signing_public_key, ed_seed_bytes identity_keypair, machine_id, machine_signing_sk,
    machine_encryption_sk, machine_keypair)))))))).

Definition build_and_store_machine_record_for_enroll (ctx : RequestContext) (request : CreateMachineKeyAndEnrollRequest)
  (machine_id : Z) (machine_keypair : MachineKeyPair)
  (identity_signing_public_key identity_signing_sk machine_signing_sk machine_encryption_sk : list byte)
  : SvcM (result unit AppError) :=
  now ← call L_get_wallclock;
  let record := mk_MachineKeyRecord machine_id (mkp_signing_public_key machine_keypair)
    (mkp_encryption_public_key machine_keypair) (Some machine_signing_sk) (Some machine_encryption_sk) now
    (ce_user_id request) (ce_capabilities request) (ce_machine_name request) now 1 (ce_key_scheme request) None None in
  match to_vec record with
  | Ok json_bytes =>
      start_keystore_write (MachineKeyRecord_path (ce_user_id request) machine_id) json_bytes
        (K_WriteMachineKeyForEnroll ctx (ce_user_id request) record json_bytes (ce_zid_endpoint request)
           identity_signing_public_key identity_signing_sk machine_signing_sk machine_encryption_sk)
  | Err e =>
      send_create_machine_key_and_enroll_response ctx (Err (ZE_NetworkError ("Serialization failed: " +:+ e)))
  end.

Definition continue_create_machine_enroll_after_shards_read (ctx : RequestContext)
  (request : CreateMachineKeyAndEnrollRequest) (stored_identity_pubkey : list byte) (derivation_user_id : Z)
  (encrypted_store : EncryptedShardStore) : SvcM (result unit AppError) :=
  let refuse e := send_create_machine_key_and_enroll_response ctx (Err e) in
  match decrypt_shards_with_password encrypted_store (ce_password request) with
  | Err _ => refuse ZE_AuthenticationFailed
  | Ok hexes =>
      match collect_and_validate_shards (ce_external_shard request) hexes encrypted_store with
      | Err e => refuse (ZE_InvalidRequest (debug_key_error e))
      | Ok all_shards =>
          match combine_shards_verified all_shards derivation_user_id stored_identity_pubkey with
          | Err _ => refuse ZE_AuthenticationFailed
          | Ok neural_key =>
              let? (identity_signing_public_key, identity_signing_sk, machine_id, machine_signing_sk,
                    machine_encryption_sk, machine_keypair) :=
                derive_keys_for_enroll neural_key (ce_user_id request) (ce_key_scheme request) ctx in
              build_and_store_machine_record_for_enroll ctx request machine_id machine_keypair
                identity_signing_public_key identity_signing_sk machine_signing_sk machine_encryption_sk
          end
      end
  end.
End keys.
