(* ===== verification/IdSession.v ===== *)
(** * Identity service: sessions with the identity server

    The conversations with the remote server (services/identity/handlers/session.rs,
    registration.rs, tier.rs, credentials.rs, preferences.rs) and the
    classification of its answers (network.rs). A conversation is a chain of
    continuations, one per response. The tables of Unicode letter case are the class
    [UnicodeCase]. *)
From S2P Require Import Apps.
From S2P Require Import Prelude StrLib ProcessLib AppFramework VfsPath VfsClient Keystore IdTypes IdKeys.

Local Open Scope string_scope.
Local Open Scope Z_scope.
Local Open Scope zos_scope.

Class UnicodeCase : Type := { to_lowercase : string -> string; to_uppercase : string -> string }.

(** ** Text *)
Definition ends_with (p s : string) : bool :=
  (String.length p <=? String.length s)%nat && String.eqb (str_drop (String.length s - String.length p) s) p.

(** The JSON texts that the code builds with [format!], without escaping. *)
Definition json_text (s : string) : string := String quote s +:+ String quote "".
Definition json_field (f : string * string) : string := json_text f.1 +:+ ":" +:+ json_text f.2.
Fixpoint json_fields (l : list (string * string)) : string :=
  match l with
  | [] => ""
  | [f] => json_field f
  | f :: l => json_field f +:+ "," +:+ json_fields l
  end.
Definition json_object (l : list (string * string)) : list byte := str_bytes ("{" +:+ json_fields l +:+ "}").

Definition one_of (l : list string) (s : string) : bool := existsb (String.eqb s) l.
Definition contains_one_of (l : list string) (s : string) : bool := existsb (fun p => str_contains p s) l.

(** ** network.rs: errors of the server *)
Section errors.
Context {C : IdCrypto} {J : IdJson} {U : UnicodeCase}.

Definition http_error (status : Z) : ZidError := ZE_ServerError ("HTTP " +:+ pretty status +:+ " error").

Definition parse_zid_error_response (body : list byte) (status : Z) : ZidError :=
  match from_slice (T := ZidErrorOuter) body with
  | Err _ => http_error status
  | Ok outer =>
      match zeo_error outer with
      | JObject obj =>
          let code := default "" (get_str "code" obj) in
          let message := default "" (get_str "message" obj) in
          if one_of ["TOKEN_REUSE"; "REFRESH_TOKEN_REUSE"] code
             || contains_one_of ["reuse detected"; "token reuse"; "already consumed"] message then ZE_InvalidRefreshToken
          else if String.eqb code "NOT_FOUND" && str_contains "Machine not found" message then ZE_MachineNotRegistered message
          else if one_of ["UNAUTHORIZED"; "AUTHENTICATION_FAILED"] code then ZE_AuthenticationFailed
          else if one_of ["INVALID_CHALLENGE"; "CHALLENGE_EXPIRED"] code then ZE_InvalidChallenge
          else ZE_ServerError (code +:+ ": " +:+ message)
      | JString error_code =>
          if contains_one_of ["token_reuse"; "reuse_detected"; "already_consumed"] error_code then ZE_InvalidRefreshToken
          else if String.eqb error_code "machine_not_found" then
            ZE_MachineNotRegistered "Machine not registered with ZID server"
          else if String.eqb error_code "authentication_failed" then ZE_AuthenticationFailed
          else if String.eqb error_code "invalid_challenge" then ZE_InvalidChallenge
          else if one_of ["invalid_refresh_token"; "refresh_token_expired"] error_code then ZE_InvalidRefreshToken
          else ZE_ServerError error_code
      | _ => http_error status
      end
  end.

Definition weak_password : CredentialError :=
  CE_StorageError "Password must be 12+ chars with uppercase, lowercase, number, and symbol".

Definition map_credential_error_message (message : string) : CredentialError :=
  let lower := to_lowercase message in
  if contains_one_of ["already registered"; "already exists"; "already linked"; "email exists"] lower then CE_AlreadyLinked
  else if contains_one_of ["invalid email"; "email format"] lower then CE_InvalidFormat
  else if str_contains "password" lower && contains_one_of ["weak"; "strong"] lower then weak_password
  else CE_StorageError message.

(** [json_value.get(key)]: nothing unless the value is an object. *)
Definition json_get (key : string) (v : JsonValue) : option JsonValue := o ← as_object v; get_field key o.

Definition parse_zid_credential_error (body : list byte) : CredentialError :=
  match from_slice (T := JsonValue) body with
  | Err _ => CE_StorageError "Invalid error response from ZID"
  | Ok json_value =>
      let outer_message := v ← json_get "message" json_value; as_str v in
      match json_get "error" json_value with
      | None =>
          match outer_message with
          | Some msg => map_credential_error_message msg
          | None => CE_StorageError "No error field in ZID response"
          end
      | Some (JObject obj) =>
          let code := to_uppercase (default "" (get_str "code" obj)) in
          let message := default "Unknown error" (get_str "message" obj) in
          if one_of ["EMAIL_ALREADY_REGISTERED"; "EMAIL_EXISTS"; "CONFLICT"] code then CE_AlreadyLinked
          else if one_of ["INVALID_EMAIL"; "INVALID_EMAIL_FORMAT"; "BAD_EMAIL"] code then CE_InvalidFormat
          else if one_of ["PASSWORD_TOO_WEAK"; "WEAK_PASSWORD"] code then weak_password
          else if one_of ["UNAUTHORIZED"; "AUTH_REQUIRED"] code then
            CE_StorageError "ZID session expired, please login again"
          else map_credential_error_message message
      | Some (JString error_code) =>
          let code := to_lowercase error_code in
          if one_of ["email_already_registered"; "email_exists"; "conflict"] code then CE_AlreadyLinked
          else if one_of ["invalid_email_format"; "invalid_email"; "bad_email"] code then CE_InvalidFormat
          else if one_of ["password_too_weak"; "weak_password"] code then weak_password
          else match outer_message with
               | Some msg => map_credential_error_message msg
               | None => CE_StorageError error_code
               end
      | Some _ => CE_StorageError "Unknown ZID error format"
      end
  end.

(** The text of an error with a code: message, field and details. *)
Definition enroll_error_text (detail : ZidErrorDetail) : string :=
  default "UNKNOWN" (zd_code detail) +:+ ": " +:+ default "Unknown error" (zd_message detail) +:+
  match zd_field detail with Some field => " (field: " +:+ field +:+ ")" | None => "" end +:+
  match zd_details detail with
  | Some (JString s) => " - " +:+ s
  | Some (JObject o) => " - " +:+ default "" (object_to_string o)
  | _ => ""
  end.

Definition enroll_http_error (body : list byte) (status : Z) : ZidError :=
  match from_utf8 body with
  | Some s =>
      if negb (String.eqb s "") && (str_len s <? 500) then
        ZE_EnrollmentFailed ("HTTP " +:+ pretty status +:+ " error: " +:+ Terminal.trim s)
      else ZE_EnrollmentFailed ("HTTP " +:+ pretty status +:+ " error (no details)")
  | None => ZE_EnrollmentFailed ("HTTP " +:+ pretty status +:+ " error (no details)")
  end.

Definition already_registered : ZidError := ZE_EnrollmentFailed "Machine already registered. Use Login instead.".

Definition parse_zid_enroll_error (body : list byte) (status : Z) : ZidError :=
  match from_slice (T := ZidErrorOuter) body with
  | Err _ => enroll_http_error body status
  | Ok outer =>
      match detail_from_value (zeo_error outer) with
      | Ok detail =>
          let code := default "UNKNOWN" (zd_code detail) in
          if one_of ["CONFLICT"; "ALREADY_EXISTS"] code then
            ZE_EnrollmentFailed "Identity or machine already registered. Use Login instead."
          else if one_of ["INVALID_REQUEST"; "MISSING_FIELD"; "INVALID_FORMAT"] code then
            ZE_EnrollmentFailed ("Request validation failed: " +:+ enroll_error_text detail)
          else ZE_EnrollmentFailed (enroll_error_text detail)
      | Err _ =>
          match zeo_error outer with
          | JObject obj =>
              let code := default "" (get_str "code" obj) in
              let message := default "" (get_str "message" obj) in
              if one_of ["CONFLICT"; "ALREADY_EXISTS"] code then already_registered
              else if String.eqb code "INVALID_PUBLIC_KEY" then ZE_EnrollmentFailed ("Invalid public key: " +:+ message)
              else if negb (String.eqb code "") && negb (String.eqb message "") then
                ZE_EnrollmentFailed (code +:+ ": " +:+ message)
              else ZE_EnrollmentFailed "Unknown enrollment error"
          | JString s => if one_of ["conflict"; "already_exists"] s then already_registered else ZE_EnrollmentFailed s
          | _ => enroll_http_error body status
          end
      end
  end.
End errors.

Section session.
Context {C : IdCrypto} {J : IdJson} {V : VfsClientJson} {K : KeystoreClientJson} {U : UnicodeCase}.
Context {S : Type} `{Sys S}.

Abbreviation SvcM T := (AppM IdentityService S T) (only parsing).

(** ** network.rs: what comes after an answer *)
Inductive NetworkHandlerResult : Type :=
| NH_Done (r : result unit AppError)
| ContinueZidLoginWithChallenge (ctx : RequestContext) (user_id : Z) (zid_endpoint : string) (machine_key : MachineKeyRecord)
    (challenge_response : HttpSuccess)
| ContinueZidLoginWithTokens (ctx : RequestContext) (user_id : Z) (zid_endpoint : string) (login_response : HttpSuccess)
| ContinueAttachEmail (ctx : RequestContext) (user_id : Z) (email : string)
| ContinueZidEnroll (ctx : RequestContext) (user_id : Z) (zid_endpoint : string) (enroll_response : HttpSuccess)
| ContinueZidEnrollWithChallenge (ctx : RequestContext) (user_id : Z) (zid_endpoint : string) (keys : EnrollKeys)
    (challenge_response : HttpSuccess)
| ContinueZidEnrollWithTokens (ctx : RequestContext) (user_id : Z) (zid_endpoint : string) (keys : EnrollKeys)
    (login_response : HttpSuccess)
| ContinueCombinedEnroll (ctx : RequestContext) (user_id : Z) (zid_endpoint server_machine_id : string)
| ContinueCombinedChallenge (ctx : RequestContext) (challenge_response : HttpSuccess)
| ContinueCombinedLogin (ctx : RequestContext) (login_response : HttpSuccess)
| ContinueZidRefresh (ctx : RequestContext) (user_id : Z) (zid_endpoint session_id machine_id : string) (login_type : LoginType)
    (refresh_response : HttpSuccess)
| ContinueZidEmailLogin (ctx : RequestContext) (user_id : Z) (zid_endpoint : string) (login_response : HttpSuccess)
| ContinueRegisterEmail (ctx : RequestContext) (register_response : HttpSuccess)
| ContinueInitOAuth (ctx : RequestContext) (init_response : HttpSuccess)
| ContinueOAuthCallback (ctx : RequestContext) (callback_response : HttpSuccess)
| ContinueInitWallet (ctx : RequestContext) (challenge_response : HttpSuccess)
| ContinueVerifyWallet (ctx : RequestContext) (verify_response : HttpSuccess)
| ContinueGetTierStatus (ctx : RequestContext) (tier_response : HttpSuccess)
| ContinueUpgrade (ctx : RequestContext) (upgrade_response : HttpSuccess).

(** [match http_response.result]: the [200..300] answers go on, the others and the
    errors of the network give the error that [refuse] sends. *)
Definition handle_response {E} (refuse : E -> SvcM (result unit AppError)) (http_response : HttpResponse)
  (continue : HttpSuccess -> SvcM NetworkHandlerResult) (refused : HttpSuccess -> E) (network : string -> E)
  : SvcM NetworkHandlerResult :=
  match hre_result http_response with
  | Ok success =>
      if (200 <=? hs_status success) && (hs_status success <? 300) then continue success
      else r ← refuse (refused success); mret (NH_Done r)
  | Err e => r ← refuse (network (net_message e)); mret (NH_Done r)
  end.

Definition zid_error (s : HttpSuccess) : ZidError := parse_zid_error_response (hs_body s) (hs_status s).
Definition zid_enroll_error (s : HttpSuccess) : ZidError := parse_zid_enroll_error (hs_body s) (hs_status s).
Definition unless_401 (e : ZidError) (s : HttpSuccess) : ZidError := if hs_status s =? 401 then e else zid_error s.

Definition handle_zid_challenge_result ctx user_id zid_endpoint machine_key r : SvcM NetworkHandlerResult :=
  handle_response (fun e => send_zid_login_response ctx (Err e)) r
    (fun s => mret (ContinueZidLoginWithChallenge ctx user_id zid_endpoint machine_key s)) zid_error ZE_NetworkError.

Definition handle_zid_login_result ctx user_id zid_endpoint r : SvcM NetworkHandlerResult :=
  handle_response (fun e => send_zid_login_response ctx (Err e)) r
    (fun s => mret (ContinueZidLoginWithTokens ctx user_id zid_endpoint s)) (unless_401 ZE_AuthenticationFailed) ZE_NetworkError.

Definition handle_email_to_zid_result ctx user_id email r : SvcM NetworkHandlerResult :=
  handle_response (fun e => send_attach_email_response ctx (Err e)) r
    (fun _ => mret (ContinueAttachEmail ctx user_id email))
    (fun s =>
      if hs_status s =? 400 then parse_zid_credential_error (hs_body s)
      else if hs_status s =? 401 then CE_StorageError "ZID session expired, please login again"
      else if hs_status s =? 409 then CE_AlreadyLinked
      else CE_StorageError ("ZID error: HTTP " +:+ pretty (hs_status s)))
    (fun m => CE_StorageError ("Network error: " +:+ m)).

Definition handle_zid_enroll_result ctx user_id zid_endpoint r : SvcM NetworkHandlerResult :=
  handle_response (fun e => send_zid_enroll_response ctx (Err e)) r
    (fun s => mret (ContinueZidEnroll ctx user_id zid_endpoint s))
    (fun s => if hs_status s =? 409 then already_registered else zid_enroll_error s) ZE_NetworkError.

Definition handle_zid_challenge_after_enroll_result ctx user_id zid_endpoint keys r : SvcM NetworkHandlerResult :=
  handle_response (fun e => send_zid_enroll_response ctx (Err e)) r
    (fun s => mret (ContinueZidEnrollWithChallenge ctx user_id zid_endpoint keys s))
    (fun s => ZE_EnrollmentFailed ("Login challenge failed: " +:+ debug_zid_error (zid_error s)))
    (fun m => ZE_NetworkError ("Challenge request failed: " +:+ m)).

Definition handle_zid_login_after_enroll_result ctx user_id zid_endpoint keys r : SvcM NetworkHandlerResult :=
  handle_response (fun e => send_zid_enroll_response ctx (Err e)) r
    (fun s => mret (ContinueZidEnrollWithTokens ctx user_id zid_endpoint keys s))
    (fun s =>
      if hs_status s =? 401 then ZE_EnrollmentFailed "Login authentication failed after enrollment"
      else ZE_EnrollmentFailed ("Login failed: " +:+ debug_zid_error (zid_error s)))
    (fun m => ZE_NetworkError ("Login request failed: " +:+ m)).

Definition handle_combined_enroll_result ctx user_id zid_endpoint r : SvcM NetworkHandlerResult :=
  let refuse e := send_create_machine_key_and_enroll_response ctx (Err e) in
  handle_response refuse r
    (fun s =>
      match from_slice (T := CreateIdentityResponse) (hs_body s) with
      | Ok resp => mret (ContinueCombinedEnroll ctx user_id zid_endpoint (cir_machine_id resp))
      | Err e => d ← refuse (ZE_EnrollmentFailed ("Invalid identity creation response: " +:+ e)); mret (NH_Done d)
      end)
    (fun s => if hs_status s =? 409 then already_registered else zid_enroll_error s) ZE_NetworkError.

Definition handle_combined_challenge_result ctx r : SvcM NetworkHandlerResult :=
  handle_response (fun e => send_create_machine_key_and_enroll_response ctx (Err e)) r
    (fun s => mret (ContinueCombinedChallenge ctx s))
    (fun s => ZE_EnrollmentFailed ("Challenge request failed: " +:+ debug_zid_error (zid_error s))) ZE_NetworkError.

Definition handle_combined_login_result ctx r : SvcM NetworkHandlerResult :=
  handle_response (fun e => send_create_machine_key_and_enroll_response ctx (Err e)) r
    (fun s => mret (ContinueCombinedLogin ctx s))
    (fun s =>
      if hs_status s =? 401 then ZE_AuthenticationFailed
      else ZE_EnrollmentFailed ("Login failed: " +:+ debug_zid_error (zid_error s))) ZE_NetworkError.

Definition handle_zid_refresh_result ctx user_id zid_endpoint session_id machine_id login_type r : SvcM NetworkHandlerResult :=
  handle_response (fun e => send_zid_refresh_response ctx (Err e)) r
    (fun s => mret (ContinueZidRefresh ctx user_id zid_endpoint session_id machine_id login_type s))
    (fun s => if (hs_status s =? 401) || (hs_status s =? 403) then ZE_InvalidRefreshToken else zid_error s) ZE_NetworkError.

Definition handle_zid_email_login_result ctx user_id zid_endpoint r : SvcM NetworkHandlerResult :=
  handle_response (fun e => send_zid_email_login_response ctx (Err e)) r
    (fun s => mret (ContinueZidEmailLogin ctx user_id zid_endpoint s)) (unless_401 ZE_AuthenticationFailed) ZE_NetworkError.

Definition handle_register_email_result ctx r : SvcM NetworkHandlerResult :=
  handle_response (fun e => send_register_email_response ctx (Err e)) r (fun s => mret (ContinueRegisterEmail ctx s))
    (fun s => if hs_status s =? 409 then ZE_EnrollmentFailed "Email already registered" else zid_error s) ZE_NetworkError.

Definition handle_init_oauth_result ctx r : SvcM NetworkHandlerResult :=
  handle_response (fun e => send_init_oauth_response ctx (Err e)) r (fun s => mret (ContinueInitOAuth ctx s))
    zid_error ZE_NetworkError.

Definition handle_oauth_callback_result ctx r : SvcM NetworkHandlerResult :=
  handle_response (fun e => send_oauth_callback_response ctx (Err e)) r (fun s => mret (ContinueOAuthCallback ctx s))
    (unless_401 ZE_AuthenticationFailed) ZE_NetworkError.

Definition handle_init_wallet_result ctx r : SvcM NetworkHandlerResult :=
  handle_response (fun e => send_init_wallet_response ctx (Err e)) r (fun s => mret (ContinueInitWallet ctx s))
    zid_error ZE_NetworkError.

Definition handle_verify_wallet_result ctx r : SvcM NetworkHandlerResult :=
  handle_response (fun e => send_verify_wallet_response ctx (Err e)) r (fun s => mret (ContinueVerifyWallet ctx s))
    (unless_401 ZE_AuthenticationFailed) ZE_NetworkError.

Definition handle_tier_status_result ctx r : SvcM NetworkHandlerResult :=
  handle_response (fun e => send_get_tier_status_response ctx (Err e)) r (fun s => mret (ContinueGetTierStatus ctx s))
    (unless_401 ZE_Unauthorized) ZE_NetworkError.

Definition handle_upgrade_result ctx r : SvcM NetworkHandlerResult :=
  handle_response (fun e => send_upgrade_to_self_sovereign_response ctx (Err e)) r (fun s => mret (ContinueUpgrade ctx s))
    (unless_401 ZE_Unauthorized) ZE_NetworkError.

(** ** session.rs: parts that the conversations share *)

(** The challenge of the server: base64 of JSON in a JSON field. *)
Definition parse_challenge (challenge_response : HttpSuccess) : option Challenge :=
  match from_slice (T := ChallengeResponse) (hs_body challenge_response) with
  | Err _ => None
  | Ok resp =>
      match base64_decode (cr_challenge resp) with
      | Err _ => None
      | Ok challenge_json => match from_slice (T := Challenge) challenge_json with Ok c => Some c | Err _ => None end
      end
  end.

(** utils.rs. *)
Definition machine_keypair_from_seeds (signing_sk encryption_sk : list byte) : result MachineKeyPair KeyError :=
  map_err (fun e => KE_CryptoError ("Failed to reconstruct keypair: " +:+ e))
    (mkp_from_seeds signing_sk encryption_sk all_capabilities).
Definition sign_with_machine_keypair (message : list byte) (machine_keypair : MachineKeyPair) : list byte :=
  sign_message (mkp_signing_key_pair machine_keypair) message.

Definition login_request (zid_endpoint : string) (challenge : Challenge) (machine_id : Z) (machine_keypair : MachineKeyPair)
  : HttpRequest :=
  let signature := sign_with_machine_keypair (canonicalize_challenge challenge) machine_keypair in
  with_timeout 10000 (with_json_body
    (json_object [("challenge_id", challenge_id challenge); ("machine_id", format_uuid machine_id);
                  ("signature", bytes_to_hex signature)])
    (http_post (zid_endpoint +:+ "/v1/auth/login/machine"))).

Definition challenge_request (zid_endpoint machine_id : string) : HttpRequest :=
  with_timeout 10000 (http_get (zid_endpoint +:+ "/v1/auth/challenge?machine_id=" +:+ machine_id)).

Definition set_login_type (t : LoginType) (tokens : ZidTokens) : ZidTokens :=
  mk_ZidTokens (zt_access_token tokens) (zt_refresh_token tokens) (zt_session_id tokens) (zt_machine_id tokens)
    (zt_expires_at tokens) t (zt_warning tokens).

Definition session_of (zid_endpoint : string) (tokens : ZidTokens) (now : Z) : SvcM ZidSession :=
  expires_at ← parse_rfc3339_to_millis (zt_expires_at tokens);
  mret (mk_ZidSession zid_endpoint (zt_access_token tokens) (zt_refresh_token tokens) (zt_session_id tokens)
    (zt_machine_id tokens) (zt_login_type tokens) expires_at now).

Definition find_json (paths : list string) : option string := List.find (ends_with ".json") paths.

(** ** session.rs: login *)
Definition handle_zid_login (msg : AppMessage) : SvcM (result unit AppError) :=
  let ctx := reply_to msg in
  handle_request zl_user_id msg (fun e => send_zid_login_response ctx (Err e)) ZE_InvalidRequest ZE_Unauthorized
    (fun request =>
      start_vfs_read (IdentityPreferences_path (zl_user_id request))
        (ReadPreferencesForZidLogin ctx (zl_user_id request) (zl_zid_endpoint request))).

Definition continue_zid_login_after_preferences (ctx : RequestContext) (user_id : Z) (zid_endpoint : string)
  (default_machine_id : option Z) : SvcM (result unit AppError) :=
  match default_machine_id with
  | Some machine_id =>
      start_keystore_read (MachineKeyRecord_path user_id machine_id) (K_ReadMachineKeyForZidLogin ctx user_id zid_endpoint)
  | None => start_keystore_list (machine_prefix user_id) (K_ListMachineKeysForZidLogin ctx user_id zid_endpoint)
  end.

Definition continue_zid_login_after_list (ctx : RequestContext) (user_id : Z) (zid_endpoint : string) (paths : list string)
  : SvcM (result unit AppError) :=
  match find_json paths with
  | Some p => start_vfs_read p (ReadMachineKeyForZidLogin ctx user_id zid_endpoint)
  | None => send_zid_login_response ctx (Err ZE_MachineKeyNotFound)
  end.

Definition continue_zid_login_after_read (ctx : RequestContext) (user_id : Z) (zid_endpoint : string) (data : list byte)
  : SvcM (result unit AppError) :=
  match from_slice (T := MachineKeyRecord) data with
  | Err _ => send_zid_login_response ctx (Err ZE_MachineKeyNotFound)
  | Ok machine_key =>
      start_network_fetch (challenge_request zid_endpoint (format_uuid (mr_machine_id machine_key)))
        (RequestZidChallenge ctx user_id zid_endpoint machine_key)
  end.

Definition continue_zid_login_after_challenge (ctx : RequestContext) (user_id : Z) (zid_endpoint : string)
  (machine_key : MachineKeyRecord) (challenge_response : HttpSuccess) : SvcM (result unit AppError) :=
  match parse_challenge challenge_response with
  | None => send_zid_login_response ctx (Err ZE_InvalidChallenge)
  | Some challenge =>
      match mr_signing_sk machine_key, mr_encryption_sk machine_key with
      | Some signing_sk, Some encryption_sk =>
          match machine_keypair_from_seeds signing_sk encryption_sk with
          | Err e =>
              send_zid_login_response ctx
                (Err (ZE_NetworkError ("Failed to reconstruct keypair: " +:+ debug_key_error e)))
          | Ok machine_keypair =>
              start_network_fetch (login_request zid_endpoint challenge (mr_machine_id machine_key) machine_keypair)
                (SubmitZidLogin ctx user_id zid_endpoint)
          end
      | _, _ => send_zid_login_response ctx (Err (ZE_NetworkError "Machine key missing seed material"))
      end
  end.

Definition continue_zid_login_after_login (ctx : RequestContext) (user_id : Z) (zid_endpoint : string)
  (login_response : HttpSuccess) : SvcM (result unit AppError) :=
  match from_slice (T := ZidTokens) (hs_body login_response) with
  | Err _ => send_zid_login_response ctx (Err ZE_AuthenticationFailed)
  | Ok tokens =>
      now ← call L_get_wallclock;
      let tokens := set_login_type LT_MachineKey tokens in
      session ← session_of zid_endpoint tokens now;
      match to_vec session with
      | Ok json_bytes =>
          start_vfs_write (ZidSession_path user_id) json_bytes (WriteZidSession ctx user_id tokens json_bytes)
      | Err e => send_zid_login_response ctx (Err (ZE_NetworkError ("Serialization failed: " +:+ e)))
      end
  end.

(** ** session.rs: enrollment *)
Definition handle_zid_enroll_machine (msg : AppMessage) : SvcM (result unit AppError) :=
  let ctx := reply_to msg in
  handle_request zl_user_id msg (fun e => send_zid_enroll_response ctx (Err e)) ZE_InvalidRequest ZE_Unauthorized
    (fun request =>
      start_keystore_list (machine_prefix (zl_user_id request))
        (K_ListMachineKeysForZidEnroll ctx (zl_user_id request) (zl_zid_endpoint request))).

Definition continue_zid_enroll_after_list (ctx : RequestContext) (user_id : Z) (zid_endpoint : string) (paths : list string)
  : SvcM (result unit AppError) :=
  match find_json paths with
  | Some p => start_vfs_read p (ReadMachineKeyForZidEnroll ctx user_id zid_endpoint)
  | None => send_zid_enroll_response ctx (Err ZE_MachineKeyNotFound)
  end.

(** [.map_err(|e| AppError::Internal(..))?]. *)
Definition or_internal {T W} (what : string) (r : result T string) (k : T -> SvcM (result W AppError))
  : SvcM (result W AppError) :=
  match r with Ok x => k x | Err e => mret (Err (Internal (what +:+ ": " +:+ e))) end.

(** The request that creates an identity, signed with its key. *)
Definition create_identity (identity_id machine_id : Z) (identity_signing_public_key : list byte)
  (identity_keypair : Ed25519KeyPair) (machine_keypair : MachineKeyPair) (device_name : string) (now_secs : Z)
  : CreateIdentityRequest :=
  let signing := mkp_signing_public_key machine_keypair in
  let encryption := mkp_encryption_public_key machine_keypair in
  let message := canonicalize_identity_creation_message (u128_to_be_bytes identity_id) identity_signing_public_key
    (u128_to_be_bytes machine_id) signing encryption now_secs in
  mk_CreateIdentityRequest (format_uuid identity_id) (bytes_to_hex identity_signing_public_key)
    (bytes_to_hex (sign_message identity_keypair message))
    (mk_ZidMachineKey (format_uuid machine_id) (bytes_to_hex signing) (bytes_to_hex encryption)
       ["SIGN"; "ENCRYPT"; "VAULT_OPERATIONS"] device_name "web") "personal" now_secs.

Definition enroll_request (zid_endpoint : string) (body : list byte) : HttpRequest :=
  with_timeout 10000 (with_json_body body (http_post (zid_endpoint +:+ "/v1/identity"))).

(** [x << n] of a [u128]. *)
Definition u128_shl (x n : Z) : Z := Z.shiftl x n mod 2 ^ 128.

Definition continue_zid_enroll_after_read (ctx : RequestContext) (user_id : Z) (zid_endpoint : string) (data : list byte)
  : SvcM (result unit AppError) :=
  match from_slice (T := MachineKeyRecord) data with
  | Err _ => send_zid_enroll_response ctx (Err ZE_MachineKeyNotFound)
  | Ok machine_key_record =>
      t1 ← call L_get_wallclock;
      let identity_id := Z.lxor t1 (u128_shl user_id 64) in
      t2 ← call L_get_wallclock;
      let machine_id := Z.lxor t2 (u128_shl user_id 32) in
      now_ms ← call L_get_wallclock;
      let now_secs := now_ms / 1000 in
      let neural_key := nk_from_bytes (mr_signing_public_key machine_key_record) in
      or_internal "Key derivation failed" (derive_identity_signing_keypair neural_key (u128_to_be_bytes identity_id))
        (fun '(identity_signing_public_key, identity_keypair) =>
      r ← NeuralKey_generate;
      or_internal "Failed to generate signing sk" r (fun signing =>
      r ← NeuralKey_generate;
      or_internal "Failed to generate encryption sk" r (fun encryption =>
      or_internal "Machine key creation failed" (map_err debug_key_error
        (machine_keypair_from_seeds (nk_bytes signing) (nk_bytes encryption))) (fun machine_keypair =>
      match to_vec (create_identity identity_id machine_id identity_signing_public_key identity_keypair machine_keypair
                      "Browser" now_secs) with
      | Err e => send_zid_enroll_response ctx (Err (ZE_NetworkError ("Serialization failed: " +:+ e)))
      | Ok enroll_body =>
          start_network_fetch (enroll_request zid_endpoint enroll_body)
            (SubmitZidEnroll ctx user_id zid_endpoint identity_id
               (mk_EnrollKeys machine_id identity_signing_public_key (mkp_signing_public_key machine_keypair)
                  (mkp_encryption_public_key machine_keypair) (nk_bytes signing) (nk_bytes encryption)))
      end))))
  end.

Definition continue_zid_enroll_after_submit (ctx : RequestContext) (user_id : Z) (zid_endpoint : string)
  (enroll_response : HttpSuccess) (keys : EnrollKeys) : SvcM (result unit AppError) :=
  match from_slice (T := CreateIdentityResponse) (hs_body enroll_response) with
  | Err e =>
      send_zid_enroll_response ctx (Err (ZE_EnrollmentFailed ("Invalid identity creation response: " +:+ e)))
  | Ok create_response =>
      start_network_fetch (challenge_request zid_endpoint (cir_machine_id create_response))
        (RequestZidChallengeAfterEnroll ctx user_id zid_endpoint keys)
  end.

Definition continue_zid_enroll_after_challenge (ctx : RequestContext) (user_id : Z) (zid_endpoint : string)
  (keys : EnrollKeys) (challenge_response : HttpSuccess) : SvcM (result unit AppError) :=
  match parse_challenge challenge_response with
  | None => send_zid_enroll_response ctx (Err ZE_InvalidChallenge)
  | Some challenge =>
      match machine_keypair_from_seeds (ek_machine_signing_sk keys) (ek_machine_encryption_sk keys) with
      | Err e =>
          send_zid_enroll_response ctx
            (Err (ZE_EnrollmentFailed ("Failed to reconstruct keypair: " +:+ debug_key_error e)))
      | Ok machine_keypair =>
          start_network_fetch (login_request zid_endpoint challenge (ek_machine_id keys) machine_keypair)
            (SubmitZidLoginAfterEnroll ctx user_id zid_endpoint keys)
      end
  end.

(** The record is written through the file system, and this write is not among the
    pending operations. *)
Definition continue_zid_enroll_after_login (ctx : RequestContext) (user_id : Z) (zid_endpoint : string)
  (keys : EnrollKeys) (login_response : HttpSuccess) : SvcM (result unit AppError) :=
  match from_slice (T := ZidTokens) (hs_body login_response) with
  | Err e => send_zid_enroll_response ctx (Err (ZE_EnrollmentFailed ("Failed to parse login tokens: " +:+ e)))
  | Ok tokens =>
      now ← call L_get_wallclock;
      let machine_key_record := mk_MachineKeyRecord (ek_machine_id keys) (ek_machine_signing_public_key keys)
        (ek_machine_encryption_public_key keys) (Some (ek_machine_signing_sk keys)) (Some (ek_machine_encryption_sk keys))
        now user_id MachineKeyCapabilities_full (Some "Zero OS Device") now 1 Classical None None in
      match to_vec machine_key_record with
      | Err e =>
          send_zid_enroll_response ctx (Err (ZE_EnrollmentFailed ("Failed to serialize machine key: " +:+ e)))
      | Ok machine_key_json =>
          lift (send_write_request (MachineKeyRecord_path user_id (ek_machine_id keys)) machine_key_json) ;;
          let tokens := set_login_type LT_MachineKey tokens in
          session ← session_of zid_endpoint tokens now;
          match to_vec session with
          | Err _ => send_zid_enroll_response ctx (Ok tokens)
          | Ok session_json =>
              start_vfs_write (ZidSession_path user_id) session_json (WriteZidEnrollSession ctx user_id tokens session_json)
          end
      end
  end.

(** ** session.rs: enrollment together with a new machine key *)
Definition continue_combined_enroll_after_machine_write (ctx : RequestContext) (user_id : Z) (zid_endpoint : string)
  (machine_key_record : MachineKeyRecord)
  (identity_signing_public_key identity_signing_sk machine_signing_sk machine_encryption_sk : list byte)
  : SvcM (result unit AppError) :=
  let machine_id := mr_machine_id machine_key_record in
  now_ms ← call L_get_wallclock;
  let now_secs := now_ms / 1000 in
  or_internal "Identity keypair reconstruction failed" (ed_from_seed identity_signing_sk) (fun identity_keypair =>
  or_internal "Machine key reconstruction failed" (map_err debug_key_error
    (machine_keypair_from_seeds machine_signing_sk machine_encryption_sk)) (fun machine_keypair =>
  match to_vec (create_identity user_id machine_id identity_signing_public_key identity_keypair machine_keypair
                  (default "Browser" (mr_machine_name machine_key_record)) now_secs) with
  | Err e =>
      send_create_machine_key_and_enroll_response ctx (Err (ZE_NetworkError ("Serialization failed: " +:+ e)))
  | Ok enroll_body =>
      start_network_fetch (enroll_request zid_endpoint enroll_body)
        (SubmitZidEnrollForCombined ctx user_id zid_endpoint
           (mk_EnrollKeys machine_id identity_signing_public_key (mkp_signing_public_key machine_keypair)
              (mkp_encryption_public_key machine_keypair) machine_signing_sk machine_encryption_sk)
           machine_key_record)
  end)).

Definition continue_combined_enroll_after_identity_create (ctx : RequestContext) (user_id : Z) (zid_endpoint : string)
  (keys : EnrollKeys) (machine_key_record : MachineKeyRecord) (server_machine_id : string) : SvcM (result unit AppError) :=
  start_network_fetch (challenge_request zid_endpoint server_machine_id)
    (RequestZidChallengeForCombined ctx user_id zid_endpoint keys machine_key_record).

(** A diagnostic line shows 16 bytes of the canonical message, which is longer. *)
Definition continue_combined_enroll_after_challenge (ctx : RequestContext) (user_id : Z) (zid_endpoint : string)
  (keys : EnrollKeys) (machine_key_record : MachineKeyRecord) (challenge_response : HttpSuccess)
  : SvcM (result unit AppError) :=
  match parse_challenge challenge_response with
  | None => send_create_machine_key_and_enroll_response ctx (Err ZE_InvalidChallenge)
  | Some challenge =>
      match machine_keypair_from_seeds (ek_machine_signing_sk keys) (ek_machine_encryption_sk keys) with
      | Err e =>
          send_create_machine_key_and_enroll_response ctx
            (Err (ZE_NetworkError ("Keypair reconstruction failed: " +:+ debug_key_error e)))
      | Ok machine_keypair =>
          start_network_fetch (login_request zid_endpoint challenge (ek_machine_id keys) machine_keypair)
            (SubmitZidLoginForCombined ctx user_id zid_endpoint keys machine_key_record)
      end
  end.

Definition continue_combined_enroll_after_login (ctx : RequestContext) (machine_key_record : MachineKeyRecord)
  (login_response : HttpSuccess) : SvcM (result unit AppError) :=
  match from_slice (T := ZidTokens) (hs_body login_response) with
  | Err _ => send_create_machine_key_and_enroll_response ctx (Err ZE_AuthenticationFailed)
  | Ok tokens => send_create_machine_key_and_enroll_response ctx (Ok (mk_MachineKeyAndTokens machine_key_record tokens))
  end.

(** ** session.rs: logout, login with an email, refresh *)
Definition handle_zid_logout (msg : AppMessage) : SvcM (result unit AppError) :=
  let ctx := reply_to msg in
  handle_request zo_user_id msg (fun e => send_zid_logout_response ctx (Err e)) ZE_InvalidRequest ZE_Unauthorized
    (fun request => start_vfs_delete (ZidSession_path (zo_user_id request)) (DeleteZidSession ctx)).

Definition bad_email (email : string) : bool := negb (str_contains_char "@" email) || (str_len email <? 5).

Definition handle_zid_login_email (msg : AppMessage) : SvcM (result unit AppError) :=
  let ctx := reply_to msg in
  handle_request el_user_id msg (fun e => send_zid_email_login_response ctx (Err e)) ZE_InvalidRequest ZE_Unauthorized
    (fun request =>
      if bad_email (el_email request) then
        send_zid_email_login_response ctx (Err (ZE_InvalidRequest "Invalid email format"))
      else
        let optional k (o : option string) := match o with Some v => [(k, v)] | None => [] end in
        let body := json_object ([("email", el_email request); ("password", el_password request)] ++
          optional "machine_id" (el_machine_id request) ++ optional "mfa_code" (el_mfa_code request)) in
        start_network_fetch
          (with_timeout 15000 (with_json_body body (http_post (el_zid_endpoint request +:+ "/v1/auth/login/email"))))
          (SubmitZidEmailLogin ctx (el_user_id request) (el_zid_endpoint request))).

Definition continue_zid_email_login_after_network (ctx : RequestContext) (user_id : Z) (zid_endpoint : string)
  (login_response : HttpSuccess) : SvcM (result unit AppError) :=
  match from_slice (T := ZidTokens) (hs_body login_response) with
  | Err _ => send_zid_email_login_response ctx (Err ZE_AuthenticationFailed)
  | Ok tokens =>
      let tokens := set_login_type LT_Email tokens in
      now ← call L_get_wallclock;
      session ← session_of zid_endpoint tokens now;
      match to_vec session with
      | Ok json_bytes =>
          start_vfs_write (ZidSession_path user_id) json_bytes (WriteZidEmailLoginSession ctx user_id tokens json_bytes)
      | Err _ => send_zid_email_login_response ctx (Ok tokens)
      end
  end.

Definition handle_zid_refresh (msg : AppMessage) : SvcM (result unit AppError) :=
  let ctx := reply_to msg in
  handle_request zr_user_id msg (fun e => send_zid_refresh_response ctx (Err e)) ZE_InvalidRequest ZE_Unauthorized
    (fun request =>
      start_vfs_read (ZidSession_path (zr_user_id request))
        (ReadZidSessionForRefresh ctx (zr_user_id request) (zr_zid_endpoint request) (zr_refresh_token request))).

Definition continue_zid_refresh_after_session_read (ctx : RequestContext) (user_id : Z) (zid_endpoint : string)
  (data : list byte) (refresh_token_override : option string) : SvcM (result unit AppError) :=
  match from_slice (T := ZidSession) data with
  | Err _ => send_zid_refresh_response ctx (Err (ZE_InvalidRequest "No valid session found"))
  | Ok session =>
      let refresh_token := default (zs_refresh_token session) refresh_token_override in
      if String.eqb refresh_token "" then
        send_zid_refresh_response ctx (Err (ZE_InvalidRequest "No refresh token available"))
      else
        let body := json_object [("refresh_token", refresh_token); ("session_id", zs_session_id session);
          ("machine_id", zs_machine_id session)] in
        start_network_fetch (with_timeout 10000 (with_json_body body (http_post (zid_endpoint +:+ "/v1/auth/refresh"))))
          (SubmitZidRefresh ctx user_id zid_endpoint (zs_session_id session) (zs_machine_id session) (zs_login_type session))
  end.

Definition continue_zid_refresh_after_network (ctx : RequestContext) (user_id : Z) (zid_endpoint : string)
  (stored_session_id stored_machine_id : string) (login_type : LoginType) (refresh_response : HttpSuccess)
  : SvcM (result unit AppError) :=
  match from_slice (T := RefreshTokensPartial) (hs_body refresh_response) with
  | Err e => send_zid_refresh_response ctx (Err (ZE_NetworkError ("Invalid refresh response: " +:+ e)))
  | Ok partial =>
      let tokens := mk_ZidTokens (rt_access_token partial) (rt_refresh_token partial)
        (default stored_session_id (rt_session_id partial)) (default stored_machine_id (rt_machine_id partial))
        (rt_expires_at partial) login_type (rt_warning partial) in
      now ← call L_get_wallclock;
      session ← session_of zid_endpoint tokens now;
      match to_vec session with
      | Err _ => send_zid_refresh_response ctx (Ok tokens)
      | Ok session_json =>
          start_vfs_write (ZidSession_path user_id) session_json (WriteRefreshedZidSession ctx user_id tokens session_json)
      end
  end.

(** ** registration.rs: these requests have no user, their sender is not checked *)
Definition parse_request {R E} `{Deserialize R} (msg : AppMessage) (refuse : E -> SvcM (result unit AppError))
  (invalid : string -> E) (k : R -> SvcM (result unit AppError)) : SvcM (result unit AppError) :=
  match from_slice (am_data msg) with
  | Err e => refuse (invalid ("JSON parse error: " +:+ e))
  | Ok request => k request
  end.

Definition provider_str (p : OAuthProvider) : string :=
  match p with OA_Google => "google" | OA_X => "x" | OA_Epic => "epic" end.
Definition wallet_type_str (w : WalletType) : string :=
  match w with
  | WT_Ethereum => "ethereum" | WT_Polygon => "polygon" | WT_Arbitrum => "arbitrum" | WT_Base => "base"
  | WT_Solana => "solana"
  end.

(** [HttpRequest::post(url).with_json_body(body).with_timeout(30_000)]. *)
Definition post_30s (url : string) (body : list byte) : HttpRequest := with_timeout 30000 (with_json_body body (http_post url)).

Definition handle_register_email (msg : AppMessage) : SvcM (result unit AppError) :=
  let ctx := reply_to msg in
  parse_request msg (fun e => send_register_email_response ctx (Err e)) ZE_InvalidRequest (fun request =>
    start_network_fetch
      (post_30s (re_zid_endpoint request +:+ "/v1/identity/email")
         (json_object [("email", re_email request); ("password", re_password request)]))
      (RegisterEmail ctx (re_email request) (re_zid_endpoint request))).

Definition handle_init_oauth (msg : AppMessage) : SvcM (result unit AppError) :=
  let ctx := reply_to msg in
  parse_request msg (fun e => send_init_oauth_response ctx (Err e)) ZE_InvalidRequest (fun request =>
    let provider := provider_str (io_provider request) in
    start_network_fetch
      (post_30s (io_zid_endpoint request +:+ "/v1/identity/oauth/" +:+ provider +:+ "/init")
         (match io_redirect_uri request with Some uri => json_object [("redirect_uri", uri)] | None => str_bytes "{}" end))
      (InitOAuth ctx provider (io_zid_endpoint request))).

Definition handle_oauth_callback (msg : AppMessage) : SvcM (result unit AppError) :=
  let ctx := reply_to msg in
  parse_request msg (fun e => send_oauth_callback_response ctx (Err e)) ZE_InvalidRequest (fun request =>
    let provider := provider_str (oc_provider request) in
    start_network_fetch
      (post_30s (oc_zid_endpoint request +:+ "/v1/identity/oauth/" +:+ provider +:+ "/callback")
         (json_object [("code", oc_code request); ("state", oc_state request)]))
      (OAuthCallback ctx provider (oc_zid_endpoint request))).

Definition handle_init_wallet (msg : AppMessage) : SvcM (result unit AppError) :=
  let ctx := reply_to msg in
  parse_request msg (fun e => send_init_wallet_response ctx (Err e)) ZE_InvalidRequest (fun request =>
    let wallet_type := wallet_type_str (iw_wallet_type request) in
    start_network_fetch
      (post_30s (iw_zid_endpoint request +:+ "/v1/identity/wallet/challenge")
         (json_object [("wallet_type", wallet_type); ("address", iw_address request)]))
      (InitWallet ctx wallet_type (iw_address request) (iw_zid_endpoint request))).

Definition handle_verify_wallet (msg : AppMessage) : SvcM (result unit AppError) :=
  let ctx := reply_to msg in
  parse_request msg (fun e => send_verify_wallet_response ctx (Err e)) ZE_InvalidRequest (fun request =>
    start_network_fetch
      (post_30s (vw_zid_endpoint request +:+ "/v1/identity/wallet/verify")
         (json_object ([("challenge_id", vw_challenge_id request); ("wallet_type", wallet_type_str (vw_wallet_type request));
                        ("address", vw_address request); ("signature", vw_signature request)] ++
            match vw_namespace_name request with Some n => [("namespace_name", n)] | None => [] end)))
      (VerifyWallet ctx (vw_zid_endpoint request))).

(** ** tier.rs *)
Definition handle_get_tier_status (msg : AppMessage) : SvcM (result unit AppError) :=
  let ctx := reply_to msg in
  handle_request gt_user_id msg (fun e => send_get_tier_status_response ctx (Err e)) ZE_InvalidRequest ZE_Unauthorized
    (fun request =>
      start_network_fetch
        (with_timeout 30000 (with_bearer_token (gt_access_token request)
           (http_get (gt_zid_endpoint request +:+ "/v1/identity/tier"))))
        (GetTierStatus ctx (gt_user_id request) (gt_zid_endpoint request))).

Definition handle_upgrade_to_self_sovereign (msg : AppMessage) : SvcM (result unit AppError) :=
  let ctx := reply_to msg in
  handle_request up_user_id msg (fun e => send_upgrade_to_self_sovereign_response ctx (Err e))
    ZE_InvalidRequest ZE_Unauthorized
    (fun request =>
      start_network_fetch
        (with_timeout 30000 (with_json_body
           (json_object [("new_isk_public", up_new_isk_public request); ("commitment", up_commitment request);
                         ("upgrade_signature", up_upgrade_signature request)])
           (with_bearer_token (up_access_token request) (http_post (up_zid_endpoint request +:+ "/v1/identity/upgrade")))))
        (UpgradeToSelfSovereign ctx (up_user_id request) (up_zid_endpoint request))).

(** ** credentials.rs *)
Definition handle_attach_email (msg : AppMessage) : SvcM (result unit AppError) :=
  let ctx := reply_to msg in
  handle_request ae_user_id msg (fun e => send_attach_email_response ctx (Err e)) CE_InvalidRequest CE_Unauthorized
    (fun request =>
      if bad_email (ae_email request) then send_attach_email_response ctx (Err CE_InvalidFormat)
      else if str_len (ae_password request) <? 12 then
        send_attach_email_response ctx (Err (CE_StorageError "Password must be at least 12 characters"))
      else
        start_network_fetch
          (with_timeout 15000 (with_json_body
             (json_object [("email", ae_email request); ("password", ae_password request)])
             (with_header "Authorization" ("Bearer " +:+ ae_access_token request)
                (http_post (ae_zid_endpoint request +:+ "/v1/credentials/email")))))
          (SubmitEmailToZid ctx (ae_user_id request) (ae_email request))).

Definition continue_attach_email_after_zid (ctx : RequestContext) (user_id : Z) (email : string) : SvcM (result unit AppError) :=
  start_vfs_read (CredentialStore_path user_id) (ReadCredentialsForAttach ctx user_id email).

(** The store with the verified email, which replaces an unverified one. *)
Definition attach_email (user_id : Z) (email : string) (now : Z) (existing_store : option CredentialStore) : CredentialStore :=
  let store := default (mk_CredentialStore user_id []) existing_store in
  let kept := filter (fun c => ~ (lc_type c = CT_Email /\ lc_value c = email /\ lc_verified c = false)) (cs_credentials store) in
  let is_primary := match find_by_type CT_Email (mk_CredentialStore (cs_user_id store) kept) with [] => true | _ => false end in
  mk_CredentialStore (cs_user_id store) (kept ++ [mk_LinkedCredential CT_Email email true now (Some now) is_primary]).

Definition continue_attach_email_after_read (ctx : RequestContext) (user_id : Z) (email : string)
  (existing_store : option CredentialStore) : SvcM (result unit AppError) :=
  now ← call L_get_wallclock;
  match to_vec (attach_email user_id email now existing_store) with
  | Ok json_bytes =>
      start_vfs_write (CredentialStore_path user_id) json_bytes (WriteEmailCredential ctx user_id json_bytes)
  | Err e => send_attach_email_response ctx (Err (CE_StorageError ("Serialization failed: " +:+ e)))
  end.

Definition handle_get_credentials (msg : AppMessage) : SvcM (result unit AppError) :=
  let ctx := reply_to msg in
  handle_request gc_user_id msg (send_get_credentials_error ctx) CE_InvalidRequest CE_Unauthorized
    (fun request => start_vfs_read (CredentialStore_path (gc_user_id request)) (GetCredentials ctx)).

Definition handle_unlink_credential (msg : AppMessage) : SvcM (result unit AppError) :=
  let ctx := reply_to msg in
  handle_request uc_user_id msg (fun e => send_unlink_credential_response ctx (Err e)) CE_InvalidRequest CE_Unauthorized
    (fun request =>
      start_vfs_read (CredentialStore_path (uc_user_id request))
        (ReadCredentialsForUnlink ctx (uc_user_id request) (uc_credential_type request))).

Definition continue_unlink_credential_after_read (ctx : RequestContext) (user_id : Z) (credential_type : CredentialType)
  (data : list byte) : SvcM (result unit AppError) :=
  match from_slice (T := CredentialStore) data with
  | Err e => send_unlink_credential_response ctx (Err (CE_StorageError ("Parse failed: " +:+ e)))
  | Ok store =>
      let kept := filter (fun c => lc_type c <> credential_type) (cs_credentials store) in
      if (length kept =? length (cs_credentials store))%nat then send_unlink_credential_response ctx (Err CE_NotFound)
      else
        match to_vec (mk_CredentialStore (cs_user_id store) kept) with
        | Ok json_bytes =>
            start_vfs_write (CredentialStore_path user_id) json_bytes (WriteUnlinkedCredential ctx user_id json_bytes)
        | Err e => send_unlink_credential_response ctx (Err (CE_StorageError ("Serialization failed: " +:+ e)))
        end
  end.

(** ** preferences.rs. The errors of the first request carry the tag of another one. *)
Definition handle_get_preferences (msg : AppMessage) : SvcM (result unit AppError) :=
  let ctx := reply_to msg in
  handle_request gp_user_id msg (fun e => send_set_default_key_scheme_response ctx (Err e)) KE_InvalidRequest KE_Unauthorized
    (fun request =>
      start_vfs_read (IdentityPreferences_path (gp_user_id request)) (ReadIdentityPreferences ctx (gp_user_id request))).

Definition handle_set_default_key_scheme (msg : AppMessage) : SvcM (result unit AppError) :=
  let ctx := reply_to msg in
  handle_request sk_user_id msg (fun e => send_set_default_key_scheme_response ctx (Err e)) KE_InvalidRequest KE_Unauthorized
    (fun request =>
      start_vfs_read (IdentityPreferences_path (sk_user_id request))
        (ReadPreferencesForUpdate ctx (sk_user_id request) (sk_key_scheme request))).

Definition handle_set_default_machine_key (msg : AppMessage) : SvcM (result unit AppError) :=
  let ctx := reply_to msg in
  handle_request sm_user_id msg (fun e => send_set_default_machine_key_response ctx (Err e)) KE_InvalidRequest KE_Unauthorized
    (fun request =>
      start_vfs_read (IdentityPreferences_path (sm_user_id request))
        (ReadPreferencesForDefaultMachine ctx (sm_user_id request) (sm_machine_id request))).
End session.
