(* ===== verification/IdService.v ===== *)
(** * Identity service (services/identity: mod.rs, keystore_dispatch/, vfs_dispatch.rs,
    network_dispatch.rs)

    The dispatch of messages and of the responses of the keystore, the file system
    and the network to the operations that wait for them. A keystore response goes to
    the oldest operation, a file system response to the oldest one of its kind, a
    network result to the one with its number. *)
From S2P Require Import NetService.
From S2P Require Import Prelude StrLib ProcessLib AppFramework VfsPath VfsClient Keystore IdTypes IdKeys IdSession.

Local Open Scope string_scope.
Local Open Scope Z_scope.
Local Open Scope zos_scope.

Section service.
Context {W : Target} {C : IdCrypto} {J : IdJson} {V : VfsClientJson} {K : KeystoreClientJson} {U : UnicodeCase}.
Context {S : Type} `{Sys S}.

Abbreviation SvcM T := (AppM IdentityService S T) (only parsing).

Definition state_error (found wanted : string) : SvcM (result unit AppError) :=
  mret (Err (Internal ("State machine error: unexpected " +:+ found +:+ " result for non-" +:+ wanted +:+ " operation"))).

(** ** keystore_dispatch/read.rs *)
Definition handle_get_identity_key_read (ctx : RequestContext) (r : result (list byte) string) : SvcM (result unit AppError) :=
  match r with
  | Ok data =>
      match from_slice (T := LocalKeyStore) data with
      | Ok key_store => send_get_identity_key_response ctx (Ok (Some key_store))
      | Err e => send_get_identity_key_response ctx (Err (KE_StorageError ("Parse failed: " +:+ e)))
      end
  | Err _ => send_get_identity_key_response ctx (Ok None)
  end.

(** [Ok(data) if !data.is_empty()]. *)
Definition nonempty (r : result (list byte) string) : option (list byte) :=
  match r with Ok (b :: data) => Some (b :: data) | _ => None end.

Definition handle_read_identity_for_recovery (ctx : RequestContext) (user_id : Z) (zid_shards : list ZidNeuralShard)
  (r : result (list byte) string) : SvcM (result unit AppError) :=
  match nonempty r with
  | Some data =>
      match from_slice (T := LocalKeyStore) data with
      | Ok key_store =>
          continue_recover_after_identity_read ctx (lk_user_id key_store) user_id zid_shards
            (lk_identity_signing_public_key key_store)
      | Err _ => send_recover_key_response ctx (Err (KE_StorageError "Corrupted identity key store"))
      end
  | None => send_recover_key_response ctx (Err KE_IdentityKeyRequired)
  end.

Definition handle_read_identity_for_machine (ctx : RequestContext) (request : CreateMachineKeyRequest)
  (r : result (list byte) string) : SvcM (result unit AppError) :=
  match nonempty r with
  | Some data =>
      match from_slice (T := LocalKeyStore) data with
      | Ok key_store =>
          start_keystore_read (EncryptedShardStore_path (cm_user_id request))
            (K_ReadEncryptedShardsForMachine ctx request (lk_identity_signing_public_key key_store) (lk_user_id key_store))
      | Err _ => send_create_machine_key_response ctx (Err (KE_StorageError "Corrupted identity key store"))
      end
  | None => send_create_machine_key_response ctx (Err KE_IdentityKeyRequired)
  end.

Definition handle_read_encrypted_shards_for_machine (ctx : RequestContext) (request : CreateMachineKeyRequest)
  (stored_identity_pubkey : list byte) (derivation_user_id : Z) (r : result (list byte) string)
  : SvcM (result unit AppError) :=
  match nonempty r with
  | Some data =>
      match from_slice (T := EncryptedShardStore) data with
      | Ok store => continue_create_machine_after_shards_read ctx request stored_identity_pubkey derivation_user_id store
      | Err _ => send_create_machine_key_response ctx (Err (KE_StorageError "Corrupted encrypted shard store"))
      end
  | None => send_create_machine_key_response ctx (Err KE_EncryptedShardsNotFound)
  end.

Definition handle_read_identity_for_machine_enroll (ctx : RequestContext) (request : CreateMachineKeyAndEnrollRequest)
  (r : result (list byte) string) : SvcM (result unit AppError) :=
  match nonempty r with
  | Some data =>
      match from_slice (T := LocalKeyStore) data with
      | Ok key_store =>
          start_keystore_read (EncryptedShardStore_path (ce_user_id request))
            (K_ReadEncryptedShardsForMachineEnroll ctx request (lk_identity_signing_public_key key_store)
               (lk_user_id key_store))
      | Err _ => send_create_machine_key_and_enroll_response ctx (Err (ZE_NetworkError "Corrupted identity key store"))
      end
  | None => send_create_machine_key_and_enroll_response ctx (Err ZE_MachineKeyNotFound)
  end.

Definition handle_read_encrypted_shards_for_machine_enroll (ctx : RequestContext)
  (request : CreateMachineKeyAndEnrollRequest) (stored_identity_pubkey : list byte) (derivation_user_id : Z)
  (r : result (list byte) string) : SvcM (result unit AppError) :=
  match nonempty r with
  | Some data =>
      match from_slice (T := EncryptedShardStore) data with
      | Ok store =>
          continue_create_machine_enroll_after_shards_read ctx request stored_identity_pubkey derivation_user_id store
      | Err _ =>
          send_create_machine_key_and_enroll_response ctx (Err (ZE_NetworkError "Corrupted encrypted shard store"))
      end
  | None => send_create_machine_key_and_enroll_response ctx (Err ZE_AuthenticationFailed)
  end.

(** A record that does not parse is skipped. *)
Definition add_record (records : list MachineKeyRecord) (r : result (list byte) string) : list MachineKeyRecord :=
  match r with
  | Ok data => match from_slice (T := MachineKeyRecord) data with Ok record => (records ++ [record])%list | Err _ => records end
  | Err _ => records
  end.

Definition handle_read_machine_key (ctx : RequestContext) (user_id : Z) (remaining_paths : list string)
  (records : list MachineKeyRecord) (r : result (list byte) string) : SvcM (result unit AppError) :=
  let records := add_record records r in
  match remaining_paths with
  | [] => send_list_machine_keys ctx records
  | next_path :: remaining_paths => start_keystore_read next_path (K_ReadMachineKey ctx user_id remaining_paths records)
  end.

Definition handle_read_single_machine_key (ctx : RequestContext) (r : result (list byte) string) : SvcM (result unit AppError) :=
  send_get_machine_key_response ctx (Ok (match add_record [] r with record :: _ => Some record | [] => None end)).

Definition handle_read_machine_for_rotate (ctx : RequestContext) (user_id machine_id : Z) (r : result (list byte) string)
  : SvcM (result unit AppError) :=
  match r with
  | Ok data => continue_rotate_after_read ctx user_id machine_id data
  | Err _ => send_rotate_machine_key_response ctx (Err KE_MachineKeyNotFound)
  end.

Definition handle_read_machine_key_for_zid_login (ctx : RequestContext) (user_id : Z) (zid_endpoint : string)
  (r : result (list byte) string) : SvcM (result unit AppError) :=
  match r with
  | Ok data => continue_zid_login_after_read ctx user_id zid_endpoint data
  | Err _ => send_zid_login_response ctx (Err ZE_MachineKeyNotFound)
  end.

Definition handle_read_machine_key_for_zid_enroll (ctx : RequestContext) (user_id : Z) (zid_endpoint : string)
  (r : result (list byte) string) : SvcM (result unit AppError) :=
  match r with
  | Ok data => continue_zid_enroll_after_read ctx user_id zid_endpoint data
  | Err _ => send_zid_enroll_response ctx (Err ZE_MachineKeyNotFound)
  end.

Definition dispatch_keystore_read_result (op : PendingKeystoreOp) (r : result (list byte) string) : SvcM (result unit AppError) :=
  match op with
  | K_GetIdentityKey ctx => handle_get_identity_key_read ctx r
  | K_ReadIdentityForRecovery ctx user_id zid_shards => handle_read_identity_for_recovery ctx user_id zid_shards r
  | K_ReadIdentityForMachine ctx request => handle_read_identity_for_machine ctx request r
  | K_ReadEncryptedShardsForMachine ctx request pubkey derivation_user_id =>
      handle_read_encrypted_shards_for_machine ctx request pubkey derivation_user_id r
  | K_ReadIdentityForMachineEnroll ctx request => handle_read_identity_for_machine_enroll ctx request r
  | K_ReadEncryptedShardsForMachineEnroll ctx request pubkey derivation_user_id =>
      handle_read_encrypted_shards_for_machine_enroll ctx request pubkey derivation_user_id r
  | K_ReadMachineKey ctx user_id remaining_paths records => handle_read_machine_key ctx user_id remaining_paths records r
  | K_ReadSingleMachineKey ctx => handle_read_single_machine_key ctx r
  | K_ReadMachineForRotate ctx user_id machine_id => handle_read_machine_for_rotate ctx user_id machine_id r
  | K_ReadMachineKeyForZidLogin ctx user_id zid_endpoint => handle_read_machine_key_for_zid_login ctx user_id zid_endpoint r
  | K_ReadMachineKeyForZidEnroll ctx user_id zid_endpoint => handle_read_machine_key_for_zid_enroll ctx user_id zid_endpoint r
  | _ => state_error "keystore read" "read"
  end.

(** ** keystore_dispatch/write.rs *)
Definition handle_write_key_store (ctx : RequestContext) (user_id : Z) (key_result : NeuralKeyGenerated)
  (encrypted_shards_json : list byte) (r : result unit string) : SvcM (result unit AppError) :=
  match r with
  | Ok _ =>
      start_keystore_write (EncryptedShardStore_path user_id) encrypted_shards_json
        (K_WriteEncryptedShards ctx user_id key_result)
  | Err e => send_neural_key_response ctx (Err (KE_StorageError ("Keystore write failed for neural key: " +:+ e)))
  end.

(** When the shards are not stored the identity key is deleted again. *)
Definition handle_write_encrypted_shards (ctx : RequestContext) (user_id : Z) (key_result : NeuralKeyGenerated)
  (r : result unit string) : SvcM (result unit AppError) :=
  match r with
  | Ok _ => start_vfs_mkdir (identity_dir user_id) true (CreateDerivedUserDirectory ctx user_id key_result)
  | Err e =>
      start_keystore_delete (LocalKeyStore_path user_id) (K_DeleteIdentityKeyAfterShardFailure ctx user_id) ;;
      send_neural_key_response ctx (Err (KE_StorageError ("Keystore write failed for encrypted shards: " +:+ e)))
  end.

(** [Ok(()) => success, Err(e) => error] of a write of [what]. *)
Definition stored {T} (what : string) (x : T) (r : result unit string) : result T KeyError :=
  match r with Ok _ => Ok x | Err e => Err (KE_StorageError (what +:+ ": " +:+ e)) end.

Definition handle_write_recovered_key_store (ctx : RequestContext) (key_result : NeuralKeyGenerated) (r : result unit string)
  : SvcM (result unit AppError) :=
  send_recover_key_response ctx (stored "Keystore write failed for recovered key" key_result r).
Definition handle_write_machine_key (ctx : RequestContext) (record : MachineKeyRecord) (r : result unit string)
  : SvcM (result unit AppError) :=
  send_create_machine_key_response ctx (stored "Keystore write failed for machine key" record r).
Definition handle_write_rotated_machine_key (ctx : RequestContext) (record : MachineKeyRecord) (r : result unit string)
  : SvcM (result unit AppError) :=
  send_rotate_machine_key_response ctx (stored "Keystore write failed for rotated key" record r).

Definition handle_write_machine_key_for_enroll (ctx : RequestContext) (user_id : Z) (record : MachineKeyRecord)
  (zid_endpoint : string) (identity_pk identity_sk signing_sk encryption_sk : list byte) (r : result unit string)
  : SvcM (result unit AppError) :=
  match r with
  | Ok _ =>
      continue_combined_enroll_after_machine_write ctx user_id zid_endpoint record identity_pk identity_sk signing_sk
        encryption_sk
  | Err e =>
      send_create_machine_key_and_enroll_response ctx (Err (ZE_NetworkError ("Machine key storage failed: " +:+ e)))
  end.

Definition dispatch_keystore_write_result (op : PendingKeystoreOp) (r : result unit string) : SvcM (result unit AppError) :=
  match op with
  | K_WriteKeyStore ctx user_id key_result _ shards_json => handle_write_key_store ctx user_id key_result shards_json r
  | K_WriteEncryptedShards ctx user_id key_result => handle_write_encrypted_shards ctx user_id key_result r
  | K_WriteRecoveredKeyStore ctx _ key_result _ => handle_write_recovered_key_store ctx key_result r
  | K_WriteMachineKey ctx _ record _ => handle_write_machine_key ctx record r
  | K_WriteRotatedMachineKey ctx _ record _ => handle_write_rotated_machine_key ctx record r
  | K_WriteMachineKeyForEnroll ctx user_id record _ zid_endpoint identity_pk identity_sk signing_sk encryption_sk =>
      handle_write_machine_key_for_enroll ctx user_id record zid_endpoint identity_pk identity_sk signing_sk encryption_sk r
  | _ => state_error "keystore write" "write"
  end.

(** ** keystore_dispatch/delete.rs, exists.rs, list.rs *)
Definition revoked (r : result unit string) : result unit KeyError :=
  match r with Ok _ => Ok tt | Err _ => Err KE_MachineKeyNotFound end.

Definition dispatch_keystore_delete_result (op : PendingKeystoreOp) (r : result unit string) : SvcM (result unit AppError) :=
  match op with
  | K_DeleteMachineKey ctx _ _ => send_revoke_machine_key_response ctx (revoked r)
  | K_DeleteIdentityKeyAfterShardFailure _ _ => mret (Ok tt)
  | _ => state_error "keystore delete" "delete"
  end.

(** The answer to the check for a key, from either storage. *)
Definition key_exists_checked (ctx : RequestContext) (user_id : Z) (password : string) (r : result bool string)
  : SvcM (result unit AppError) :=
  match r with
  | Ok exists_ => continue_generate_after_exists_check ctx user_id exists_ password
  | Err e => send_neural_key_response ctx (Err (KE_StorageError ("Key exists check failed: " +:+ e)))
  end.

Definition dispatch_keystore_exists_result (op : PendingKeystoreOp) (r : result bool string) : SvcM (result unit AppError) :=
  match op with
  | K_CheckKeyExists ctx user_id password => key_exists_checked ctx user_id password r
  | _ => state_error "keystore exists" "exists"
  end.

Definition handle_list_machine_keys_result (ctx : RequestContext) (user_id : Z) (r : result (list string) string)
  : SvcM (result unit AppError) :=
  match r with
  | Ok keys =>
      match List.filter (ends_with ".json") keys with
      | [] => send_list_machine_keys ctx []
      | first_path :: remaining_paths => start_keystore_read first_path (K_ReadMachineKey ctx user_id remaining_paths [])
      end
  | Err _ => send_list_machine_keys ctx []
  end.

Definition handle_list_machine_keys_for_zid_login (ctx : RequestContext) (user_id : Z) (zid_endpoint : string)
  (r : result (list string) string) : SvcM (result unit AppError) :=
  let missing := send_zid_login_response ctx (Err ZE_MachineKeyNotFound) in
  match r with
  | Ok keys =>
      match find_json keys with
      | Some p => start_keystore_read p (K_ReadMachineKeyForZidLogin ctx user_id zid_endpoint)
      | None => missing
      end
  | Err _ => missing
  end.

Definition handle_list_machine_keys_for_zid_enroll (ctx : RequestContext) (user_id : Z) (zid_endpoint : string)
  (r : result (list string) string) : SvcM (result unit AppError) :=
  let missing := send_zid_enroll_response ctx (Err ZE_MachineKeyNotFound) in
  match r with
  | Ok keys =>
      match find_json keys with
      | Some p => start_keystore_read p (K_ReadMachineKeyForZidEnroll ctx user_id zid_endpoint)
      | None => missing
      end
  | Err _ => missing
  end.

Definition dispatch_keystore_list_result (op : PendingKeystoreOp) (r : result (list string) string) : SvcM (result unit AppError) :=
  match op with
  | K_ListMachineKeys ctx user_id => handle_list_machine_keys_result ctx user_id r
  | K_ListMachineKeysForZidLogin ctx user_id zid_endpoint => handle_list_machine_keys_for_zid_login ctx user_id zid_endpoint r
  | K_ListMachineKeysForZidEnroll ctx user_id zid_endpoint => handle_list_machine_keys_for_zid_enroll ctx user_id zid_endpoint r
  | _ => state_error "keystore list" "list"
  end.

(** ** keystore_dispatch/mod.rs *)
Definition take_next_pending_keystore_op : SvcM (option PendingKeystoreOp) :=
  s ← self;
  match btree_iter (id_pending_keystore_ops s) with
  | [] => mret None
  | (key, op) :: _ =>
      modify (fun s => set_keystore_ops (delete key (id_pending_keystore_ops s)) s) ;; mret (Some op)
  end.

(** The body shared by the five [handle_keystore_*_response]. *)
Definition with_keystore_op (k : PendingKeystoreOp -> SvcM (result unit AppError)) : SvcM (result unit AppError) :=
  op ← take_next_pending_keystore_op;
  match op with None => mret (Ok tt) | Some op => k op end.

Definition handle_keystore_result (msg : AppMessage) : SvcM (result unit AppError) :=
  let tag := am_tag msg in
  let data := am_data msg in
  if tag =? MSG_KEYSTORE_READ_RESPONSE then
    with_keystore_op (fun op => dispatch_keystore_read_result op (parse_keystore_response (ks_read_response data)))
  else if tag =? MSG_KEYSTORE_WRITE_RESPONSE then
    with_keystore_op (fun op => dispatch_keystore_write_result op (parse_keystore_response (ks_write_response data)))
  else if tag =? MSG_KEYSTORE_DELETE_RESPONSE then
    with_keystore_op (fun op => dispatch_keystore_delete_result op (parse_keystore_response (ks_delete_response data)))
  else if tag =? MSG_KEYSTORE_EXISTS_RESPONSE then
    with_keystore_op (fun op => dispatch_keystore_exists_result op (parse_keystore_response (ks_exists_response data)))
  else if tag =? MSG_KEYSTORE_LIST_RESPONSE then
    with_keystore_op (fun op => dispatch_keystore_list_result op (parse_keystore_response (ks_list_response data)))
  else mret (Ok tt).

(** ** vfs_dispatch.rs *)
Definition parsed {T} `{Deserialize T} (r : result (list byte) string) : option T :=
  match r with Ok data => match from_slice data with Ok x => Some x | Err _ => None end | Err _ => None end.

(** The write of the changed preferences, and [wrong] when they do not serialize. *)
Definition write_preferences (user_id : Z) (preferences : IdentityPreferences) (op : list byte -> PendingStorageOp)
  (wrong : KeyError -> SvcM (result unit AppError)) : SvcM (result unit AppError) :=
  match to_vec preferences with
  | Ok json_bytes => start_vfs_write (IdentityPreferences_path user_id) json_bytes (op json_bytes)
  | Err _ => wrong (KE_StorageError "Serialization failed")
  end.

Definition dispatch_vfs_read_result (op : PendingStorageOp) (r : result (list byte) string) : SvcM (result unit AppError) :=
  match op with
  | GetIdentityKey ctx => handle_get_identity_key_read ctx r
  | ReadIdentityForRecovery ctx user_id zid_shards => handle_read_identity_for_recovery ctx user_id zid_shards r
  | ReadIdentityForMachine ctx request =>
      match nonempty r with
      | Some data =>
          match from_slice (T := LocalKeyStore) data with
          | Ok key_store =>
              continue_create_machine_after_identity_read ctx request (lk_identity_signing_public_key key_store)
          | Err _ => send_create_machine_key_response ctx (Err (KE_StorageError "Corrupted identity key store"))
          end
      | None => send_create_machine_key_response ctx (Err KE_IdentityKeyRequired)
      end
  | ReadMachineKey ctx user_id remaining_paths records =>
      let records := add_record records r in
      match remaining_paths with
      | [] => send_list_machine_keys ctx records
      | next_path :: remaining_paths => start_vfs_read next_path (ReadMachineKey ctx user_id remaining_paths records)
      end
  | ReadSingleMachineKey ctx => handle_read_single_machine_key ctx r
  | ReadMachineForRotate ctx user_id machine_id => handle_read_machine_for_rotate ctx user_id machine_id r
  | ReadCredentialsForAttach ctx user_id email => continue_attach_email_after_read ctx user_id email (parsed r)
  | GetCredentials ctx => send_get_credentials ctx (from_option cs_credentials [] (parsed r))
  | ReadCredentialsForUnlink ctx user_id credential_type =>
      match nonempty r with
      | Some data => continue_unlink_credential_after_read ctx user_id credential_type data
      | None => send_unlink_credential_response ctx (Err CE_NotFound)
      end
  | ReadMachineKeyForZidLogin ctx user_id zid_endpoint => handle_read_machine_key_for_zid_login ctx user_id zid_endpoint r
  | ReadMachineKeyForZidEnroll ctx user_id zid_endpoint => handle_read_machine_key_for_zid_enroll ctx user_id zid_endpoint r
  | ReadIdentityPreferences ctx _ =>
      send_get_identity_preferences_response ctx (default IdentityPreferences_default (parsed r))
  | ReadPreferencesForUpdate ctx user_id new_key_scheme =>
      let preferences := default IdentityPreferences_default (parsed r) in
      write_preferences user_id (mk_IdentityPreferences new_key_scheme (ip_default_machine_id preferences))
        (WritePreferences ctx user_id) (fun e => send_set_default_key_scheme_response ctx (Err e))
  | ReadPreferencesForDefaultMachine ctx user_id new_default_machine_id =>
      let preferences := default IdentityPreferences_default (parsed r) in
      write_preferences user_id (mk_IdentityPreferences (ip_default_key_scheme preferences) (Some new_default_machine_id))
        (WritePreferencesForDefaultMachine ctx user_id) (fun e => send_set_default_machine_key_response ctx (Err e))
  | ReadPreferencesForZidLogin ctx user_id zid_endpoint =>
      continue_zid_login_after_preferences ctx user_id zid_endpoint
        (ip_default_machine_id (default IdentityPreferences_default (parsed r)))
  | ReadZidSessionForRefresh ctx user_id zid_endpoint refresh_token_override =>
      match r with
      | Ok data => continue_zid_refresh_after_session_read ctx user_id zid_endpoint data refresh_token_override
      | Err _ => send_zid_refresh_response ctx (Err (ZE_InvalidRequest "No session found"))
      end
  | _ => state_error "VFS read" "read"
  end.

Definition dispatch_vfs_write_result (op : PendingStorageOp) (r : result unit string) : SvcM (result unit AppError) :=
  match op with
  | WriteKeyStore ctx _ key_result _ => send_neural_key_response ctx (stored "VFS write failed for neural key" key_result r)
  | WriteRecoveredKeyStore ctx _ key_result _ =>
      send_recover_key_response ctx (stored "VFS write failed for recovered key" key_result r)
  | WriteMachineKey ctx _ record _ => send_create_machine_key_response ctx (stored "VFS write failed for machine key" record r)
  | WriteRotatedMachineKey ctx _ record _ =>
      send_rotate_machine_key_response ctx (stored "VFS write failed for rotated key" record r)
  | WriteEmailCredential ctx user_id json_bytes =>
      match r with
      | Ok _ => send_attach_email_response ctx (Ok tt)
      | Err _ =>
          start_vfs_mkdir ("/home/" +:+ pretty user_id +:+ "/.zos/credentials") true
            (CreateCredentialsDirectory ctx user_id json_bytes)
      end
  | WriteEmailCredentialRetry ctx _ _ =>
      send_attach_email_response ctx (map_err (fun e => CE_StorageError ("VFS write failed: " +:+ e)) r)
  | WriteUnlinkedCredential ctx _ _ =>
      send_unlink_credential_response ctx (map_err (fun e => CE_StorageError ("VFS write failed for unlink: " +:+ e)) r)
  | WriteZidSession ctx _ tokens _ => send_zid_login_response ctx (Ok tokens)
  | WriteZidEnrollSession ctx _ tokens _ => send_zid_enroll_response ctx (Ok tokens)
  | WritePreferences ctx _ _ => send_set_default_key_scheme_response ctx (stored "VFS write failed for preferences" tt r)
  | WritePreferencesForDefaultMachine ctx user_id json_bytes =>
      match r with
      | Ok _ => send_set_default_machine_key_response ctx (Ok tt)
      | Err _ => start_vfs_mkdir (identity_dir user_id) true (CreateIdentityDirForPreferences ctx user_id json_bytes)
      end
  | WritePreferencesForDefaultMachineRetry ctx _ _ =>
      send_set_default_machine_key_response ctx (stored "VFS write failed for default machine key" tt r)
  | WriteRefreshedZidSession ctx _ tokens _ => send_zid_refresh_response ctx (Ok tokens)
  | WriteZidEmailLoginSession ctx _ tokens _ => send_zid_email_login_response ctx (Ok tokens)
  | _ => state_error "VFS write" "write"
  end.

Definition dispatch_vfs_exists_result (op : PendingStorageOp) (r : result bool string) : SvcM (result unit AppError) :=
  match op with
  | CheckIdentityDirectory ctx user_id password =>
      match r with
      | Ok exists_ => continue_generate_after_directory_check ctx user_id exists_ password
      | Err e => send_neural_key_response ctx (Err (KE_StorageError ("Directory check failed: " +:+ e)))
      end
  | CheckKeyExists ctx user_id password => key_exists_checked ctx user_id password r
  | _ => state_error "VFS exists" "exists"
  end.

(** A directory that is there already is as good as a new one. *)
Definition created (r : result unit string) : bool :=
  match r with Ok _ => true | Err e => str_contains "AlreadyExists" e end.

Definition dispatch_vfs_mkdir_result (op : PendingStorageOp) (r : result unit string) : SvcM (result unit AppError) :=
  match op with
  | CreateIdentityDirectory ctx user_id directories password =>
      if created r then continue_create_directories ctx user_id directories password
      else send_neural_key_response ctx (Err (KE_StorageError "Failed to create identity directory"))
  | CreateIdentityDirectoryComplete ctx user_id password =>
      if created r then start_keystore_exists (LocalKeyStore_path user_id) (K_CheckKeyExists ctx user_id password)
      else send_neural_key_response ctx (Err (KE_StorageError "Failed to create identity directory"))
  | CreateDerivedUserDirectory ctx _ key_result => send_neural_key_response ctx (Ok key_result)
  | CreateCredentialsDirectory ctx user_id json_bytes =>
      if created r then
        start_vfs_write (CredentialStore_path user_id) json_bytes (WriteEmailCredentialRetry ctx user_id json_bytes)
      else send_attach_email_response ctx (Err (CE_StorageError "Failed to create credentials directory"))
  | CreateIdentityDirForPreferences ctx user_id json_bytes =>
      if created r then
        start_vfs_write (IdentityPreferences_path user_id) json_bytes
          (WritePreferencesForDefaultMachineRetry ctx user_id json_bytes)
      else send_set_default_machine_key_response ctx (Err (KE_StorageError "Failed to create identity directory"))
  | _ => state_error "VFS mkdir" "mkdir"
  end.

Definition machine_files (user_id : Z) (entries : list DirEntry) : list string :=
  (fun e => "/home/" +:+ pretty user_id +:+ "/.zos/identity/machine/" +:+ de_name e) <$>
  List.filter (fun e => ends_with ".json" (de_name e)) entries.

Definition dispatch_vfs_readdir_result (op : PendingStorageOp) (r : result (list DirEntry) string)
  : SvcM (result unit AppError) :=
  match op with
  | ListMachineKeys ctx user_id =>
      match r with
      | Ok entries =>
          match machine_files user_id entries with
          | [] => send_list_machine_keys ctx []
          | first_path :: remaining_paths => start_vfs_read first_path (ReadMachineKey ctx user_id remaining_paths [])
          end
      | Err _ => send_list_machine_keys ctx []
      end
  | ReadMachineKeyForZidLogin ctx user_id zid_endpoint =>
      match r with
      | Ok entries => continue_zid_login_after_list ctx user_id zid_endpoint (machine_files user_id entries)
      | Err _ => send_zid_login_response ctx (Err ZE_MachineKeyNotFound)
      end
  | ReadMachineKeyForZidEnroll ctx user_id zid_endpoint =>
      match r with
      | Ok entries => continue_zid_enroll_after_list ctx user_id zid_endpoint (machine_files user_id entries)
      | Err _ => send_zid_enroll_response ctx (Err ZE_MachineKeyNotFound)
      end
  | _ => state_error "VFS readdir" "readdir"
  end.

Definition dispatch_vfs_unlink_result (op : PendingStorageOp) (r : result unit string) : SvcM (result unit AppError) :=
  match op with
  | DeleteMachineKey ctx _ _ => send_revoke_machine_key_response ctx (revoked r)
  | DeleteZidSession ctx => send_zid_logout_response ctx (Ok tt)
  | _ => state_error "VFS unlink" "unlink"
  end.

Definition take_pending_vfs_op_for (expected : ExpectedVfsResponse) : SvcM (option PendingStorageOp) :=
  s ← self;
  match List.find (fun x => bool_decide (expected_response x.2 = expected)) (btree_iter (id_pending_vfs_ops s)) with
  | None => mret None
  | Some (key, op) => modify (fun s => set_vfs_ops (delete key (id_pending_vfs_ops s)) s) ;; mret (Some op)
  end.

(** The body shared by the six [handle_vfs_*_response]. *)
Definition with_vfs_op (expected : ExpectedVfsResponse) (k : PendingStorageOp -> SvcM (result unit AppError))
  : SvcM (result unit AppError) :=
  op ← take_pending_vfs_op_for expected;
  match op with None => mret (Ok tt) | Some op => k op end.

Definition handle_vfs_result (msg : AppMessage) : SvcM (result unit AppError) :=
  let tag := am_tag msg in
  let data := am_data msg in
  if tag =? MSG_VFS_READ_RESPONSE then
    with_vfs_op ER_Read (fun op => dispatch_vfs_read_result op (parse_read_response data))
  else if tag =? MSG_VFS_WRITE_RESPONSE then
    with_vfs_op ER_Write (fun op => dispatch_vfs_write_result op (parse_write_response data))
  else if tag =? MSG_VFS_EXISTS_RESPONSE then
    with_vfs_op ER_Exists (fun op => dispatch_vfs_exists_result op (parse_exists_response data))
  else if tag =? MSG_VFS_MKDIR_RESPONSE then
    with_vfs_op ER_Mkdir (fun op => dispatch_vfs_mkdir_result op (parse_mkdir_response data))
  else if tag =? MSG_VFS_READDIR_RESPONSE then
    with_vfs_op ER_Readdir (fun op => dispatch_vfs_readdir_result op (parse_readdir_response data))
  else if tag =? MSG_VFS_UNLINK_RESPONSE then
    with_vfs_op ER_Unlink (fun op => dispatch_vfs_unlink_result op (parse_unlink_response data))
  else mret (Ok tt).

(** ** network_dispatch.rs *)

(** The value of an answer, or the error of one that does not parse. *)
Definition parse_answer {T} `{Deserialize T} (s : HttpSuccess) : result T ZidError :=
  map_err (fun e => ZE_ServerError ("Invalid response: " +:+ e)) (from_slice (hs_body s)).

Definition continue_register_email ctx s : SvcM (result unit AppError) := send_register_email_response ctx (parse_answer s).
Definition continue_init_oauth ctx s : SvcM (result unit AppError) := send_init_oauth_response ctx (parse_answer s).
Definition continue_oauth_callback ctx s : SvcM (result unit AppError) := send_oauth_callback_response ctx (parse_answer s).
Definition continue_init_wallet ctx s : SvcM (result unit AppError) := send_init_wallet_response ctx (parse_answer s).
Definition continue_verify_wallet ctx s : SvcM (result unit AppError) := send_verify_wallet_response ctx (parse_answer s).
Definition continue_get_tier_status ctx s : SvcM (result unit AppError) := send_get_tier_status_response ctx (parse_answer s).
Definition continue_upgrade ctx (_ : HttpSuccess) : SvcM (result unit AppError) :=
  send_upgrade_to_self_sovereign_response ctx (Ok tt).

(** [NetworkHandlerResult::Done(r) => r, _ => Ok(())]. *)
Definition otherwise (r : NetworkHandlerResult) : SvcM (result unit AppError) :=
  match r with NH_Done r => mret r | _ => mret (Ok tt) end.

Definition dispatch_network_result (op : PendingNetworkOp) (http_response : HttpResponse) : SvcM (result unit AppError) :=
  match op with
  | RequestZidChallenge ctx user_id zid_endpoint machine_key =>
      x ← handle_zid_challenge_result ctx user_id zid_endpoint machine_key http_response;
      match x with
      | ContinueZidLoginWithChallenge ctx user_id zid_endpoint machine_key challenge_response =>
          continue_zid_login_after_challenge ctx user_id zid_endpoint machine_key challenge_response
      | x => otherwise x
      end
  | SubmitZidLogin ctx user_id zid_endpoint =>
      x ← handle_zid_login_result ctx user_id zid_endpoint http_response;
      match x with
      | ContinueZidLoginWithTokens ctx user_id zid_endpoint login_response =>
          continue_zid_login_after_login ctx user_id zid_endpoint login_response
      | x => otherwise x
      end
  | SubmitEmailToZid ctx user_id email =>
      x ← handle_email_to_zid_result ctx user_id email http_response;
      match x with
      | ContinueAttachEmail ctx user_id email => continue_attach_email_after_zid ctx user_id email
      | x => otherwise x
      end
  | SubmitZidEnroll ctx user_id zid_endpoint _ keys =>
      x ← handle_zid_enroll_result ctx user_id zid_endpoint http_response;
      match x with
      | ContinueZidEnroll _ _ _ enroll_response =>
          continue_zid_enroll_after_submit ctx user_id zid_endpoint enroll_response keys
      | x => otherwise x
      end
  | RequestZidChallengeAfterEnroll ctx user_id zid_endpoint keys =>
      x ← handle_zid_challenge_after_enroll_result ctx user_id zid_endpoint keys http_response;
      match x with
      | ContinueZidEnrollWithChallenge ctx user_id zid_endpoint keys challenge_response =>
          continue_zid_enroll_after_challenge ctx user_id zid_endpoint keys challenge_response
      | x => otherwise x
      end
  | SubmitZidLoginAfterEnroll ctx user_id zid_endpoint keys =>
      x ← handle_zid_login_after_enroll_result ctx user_id zid_endpoint keys http_response;
      match x with
      | ContinueZidEnrollWithTokens ctx user_id zid_endpoint keys login_response =>
          continue_zid_enroll_after_login ctx user_id zid_endpoint keys login_response
      | x => otherwise x
      end
  | SubmitZidEnrollForCombined ctx user_id zid_endpoint keys machine_key_record =>
      x ← handle_combined_enroll_result ctx user_id zid_endpoint http_response;
      match x with
      | ContinueCombinedEnroll ctx user_id zid_endpoint server_machine_id =>
          continue_combined_enroll_after_identity_create ctx user_id zid_endpoint keys machine_key_record server_machine_id
      | x => otherwise x
      end
  | RequestZidChallengeForCombined ctx user_id zid_endpoint keys machine_key_record =>
      x ← handle_combined_challenge_result ctx http_response;
      match x with
      | ContinueCombinedChallenge ctx challenge_response =>
          continue_combined_enroll_after_challenge ctx user_id zid_endpoint keys machine_key_record challenge_response
      | x => otherwise x
      end
  | SubmitZidLoginForCombined ctx user_id zid_endpoint _ machine_key_record =>
      x ← handle_combined_login_result ctx http_response;
      match x with
      | ContinueCombinedLogin ctx login_response => continue_combined_enroll_after_login ctx machine_key_record login_response
      | x => otherwise x
      end
  | SubmitZidRefresh ctx user_id zid_endpoint session_id machine_id login_type =>
      x ← handle_zid_refresh_result ctx user_id zid_endpoint session_id machine_id login_type http_response;
      match x with
      | ContinueZidRefresh ctx user_id zid_endpoint session_id machine_id login_type refresh_response =>
          continue_zid_refresh_after_network ctx user_id zid_endpoint session_id machine_id login_type refresh_response
      | x => otherwise x
      end
  | SubmitZidEmailLogin ctx user_id zid_endpoint =>
      x ← handle_zid_email_login_result ctx user_id zid_endpoint http_response;
      match x with
      | ContinueZidEmailLogin ctx user_id zid_endpoint login_response =>
          continue_zid_email_login_after_network ctx user_id zid_endpoint login_response
      | x => otherwise x
      end
  | RegisterEmail ctx _ _ =>
      x ← handle_register_email_result ctx http_response;
      match x with ContinueRegisterEmail ctx s => continue_register_email ctx s | x => otherwise x end
  | InitOAuth ctx _ _ =>
      x ← handle_init_oauth_result ctx http_response;
      match x with ContinueInitOAuth ctx s => continue_init_oauth ctx s | x => otherwise x end
  | OAuthCallback ctx _ _ =>
      x ← handle_oauth_callback_result ctx http_response;
      match x with ContinueOAuthCallback ctx s => continue_oauth_callback ctx s | x => otherwise x end
  | InitWallet ctx _ _ _ =>
      x ← handle_init_wallet_result ctx http_response;
      match x with ContinueInitWallet ctx s => continue_init_wallet ctx s | x => otherwise x end
  | VerifyWallet ctx _ =>
      x ← handle_verify_wallet_result ctx http_response;
      match x with ContinueVerifyWallet ctx s => continue_verify_wallet ctx s | x => otherwise x end
  | GetTierStatus ctx _ _ =>
      x ← handle_tier_status_result ctx http_response;
      match x with ContinueGetTierStatus ctx s => continue_get_tier_status ctx s | x => otherwise x end
  | UpgradeToSelfSovereign ctx _ _ =>
      x ← handle_upgrade_result ctx http_response;
      match x with ContinueUpgrade ctx s => continue_upgrade ctx s | x => otherwise x end
  end.

(** The answer in a result of type [t]. *)
Definition http_response_of (t : Z) (data : list byte) : HttpResponse :=
  if (t =? 0) && negb (len data =? 0) then
    match from_slice data with Ok r => r | Err _ => mk_HttpResponse (Err (NE_Other "Parse error")) end
  else mk_HttpResponse (Err (NE_Other "Network error")).

(** [data[9..9 + data_len]], as in the network service. *)
Definition net_result_data (raw : list byte) : option (list byte) := NetService.result_data raw.

Definition handle_net_result (msg : AppMessage) : SvcM (result unit AppError) :=
  let raw := am_data msg in
  if len raw <? 9 then mret (Ok tt)
  else
    let request_id := get_u32 0 raw in
    match net_result_data raw with
    | None => never
    | Some data =>
        s ← self;
        match id_pending_net_ops s !! request_id with
        | None => mret (Ok tt)
        | Some op =>
            modify (fun s => set_net_ops (delete request_id (id_pending_net_ops s)) s) ;;
            dispatch_network_result op (http_response_of (get_u8 4 raw) data)
        end
    end.

(** ** mod.rs *)
Definition identity_init (_ : AppContext) : SvcM (result unit AppError) := mret (Ok tt).

(** [[8, b"identity", slot: u64]]. *)
Definition identity_registration (ctx : AppContext) : list byte :=
  x08 :: str_bytes "identity" ++ u64_to_le_bytes (default 1 (ctx_input_endpoint ctx)).

Definition set_id_registered (s : IdentityService) : IdentityService :=
  mk_IdentityService true (id_pending_vfs_ops s) (id_next_vfs_op_id s) (id_pending_keystore_ops s)
    (id_next_keystore_op_id s) (id_pending_net_ops s) (id_drawn s).

Definition identity_update (ctx : AppContext) : SvcM ControlFlow :=
  s ← self;
  if id_registered s then mret CF_Yield
  else
    r ← call (L_send 0 MSG_REGISTER_SERVICE (identity_registration ctx));
    match r with Ok _ => modify set_id_registered ;; mret CF_Yield | Err _ => mret CF_Yield end.

Definition identity_on_message (_ : AppContext) (msg : AppMessage) : SvcM (result unit AppError) :=
  let tag := am_tag msg in
  if is_vfs_response tag then handle_vfs_result msg
  else if is_keystore_response tag then handle_keystore_result msg
  else if tag =? MSG_GENERATE_NEURAL_KEY then handle_generate_neural_key msg
  else if tag =? MSG_RECOVER_NEURAL_KEY then handle_recover_neural_key msg
  else if tag =? MSG_GET_IDENTITY_KEY then handle_get_identity_key msg
  else if tag =? MSG_CREATE_MACHINE_KEY then handle_create_machine_key msg
  else if tag =? MSG_LIST_MACHINE_KEYS then handle_list_machine_keys msg
  else if tag =? MSG_REVOKE_MACHINE_KEY then handle_revoke_machine_key msg
  else if tag =? MSG_ROTATE_MACHINE_KEY then handle_rotate_machine_key msg
  else if tag =? MSG_GET_MACHINE_KEY then handle_get_machine_key msg
  else if tag =? MSG_CREATE_MACHINE_KEY_AND_ENROLL then handle_create_machine_key_and_enroll msg
  else if tag =? MSG_ATTACH_EMAIL then handle_attach_email msg
  else if tag =? MSG_GET_CREDENTIALS then handle_get_credentials msg
  else if tag =? MSG_UNLINK_CREDENTIAL then handle_unlink_credential msg
  else if tag =? MSG_ZID_LOGIN then handle_zid_login msg
  else if tag =? MSG_ZID_ENROLL_MACHINE then handle_zid_enroll_machine msg
  else if tag =? MSG_ZID_LOGOUT then handle_zid_logout msg
  else if tag =? MSG_ZID_REFRESH then handle_zid_refresh msg
  else if tag =? MSG_ZID_LOGIN_EMAIL then handle_zid_login_email msg
  else if tag =? MSG_GET_IDENTITY_PREFERENCES then handle_get_preferences msg
  else if tag =? MSG_SET_DEFAULT_KEY_SCHEME then handle_set_default_key_scheme msg
  else if tag =? MSG_SET_DEFAULT_MACHINE_KEY then handle_set_default_machine_key msg
  else if tag =? MSG_ZID_REGISTER_EMAIL then handle_register_email msg
  else if tag =? MSG_ZID_INIT_OAUTH then handle_init_oauth msg
  else if tag =? MSG_ZID_OAUTH_CALLBACK then handle_oauth_callback msg
  else if tag =? MSG_ZID_INIT_WALLET then handle_init_wallet msg
  else if tag =? MSG_ZID_VERIFY_WALLET then handle_verify_wallet msg
  else if tag =? MSG_ZID_GET_TIER then handle_get_tier_status msg
  else if tag =? MSG_ZID_UPGRADE then handle_upgrade_to_self_sovereign msg
  else if tag =? MSG_NET_RESULT then handle_net_result msg
  else mret (Ok tt).
End service.

#[export] Instance IdentityService_app {W : Target} {C : IdCrypto} {J : IdJson} {V : VfsClientJson} {K : KeystoreClientJson}
  {U : UnicodeCase} : ZeroApp IdentityService := {|
  app_init := fun S _ => identity_init;
  app_update := fun S _ => identity_update;
  app_on_message := fun S _ => identity_on_message;
  app_shutdown := fun _ _ _ => mret tt |}.
