(* ===== verification/WebSupervisor.v ===== *)
(** * Supervisor: dispatch of system calls and debug messages

    crates/zos-supervisor/src: supervisor/mod.rs, syscall_dispatch.rs,
    debug_dispatch.rs, console.rs, ipc.rs, storage.rs, network.rs, boot.rs,
    worker_events.rs and syscall/mod.rs. The supervisor runs in the browser's main thread. It owns the
    [System] on the browser platform [WebHal], polls the mailboxes of the workers,
    executes their system calls and interprets the debug messages of processes.

    An operation runs in the monad [SM]: it takes and returns the supervisor's
    state, [None] standing for a panic. Calls of JavaScript functions are recorded
    in [sv_js], newest first; log lines are left out. *)
From S2P Require Import Prelude StrLib AxiomTypes Hal KernelState.
From S2P Require Import System VfsPath Bridge SpawnState WebHal.

Local Open Scope string_scope.
Local Open Scope Z_scope.

(** What is handed to JavaScript. *)
Inductive JsCall : Type :=
| Js_Console (pid : Z) (text : string)
| Js_Spawn (proc_type name : string)
| Js_Response (request_id json : string).

Record Sup : Type := mk_Sup {
  sv_system : System WebHal;
  sv_console_callbacks : gset Z;
  sv_spawn_callback : bool;
  sv_console_buffer : list string;
  sv_pingpong : PingPongTestState;
  sv_init_spawned : bool;
  sv_supervisor_pid : Z;
  sv_initialized : bool;
  sv_ipc_response_callback : bool;
  sv_init_slot : option Z;
  sv_ps_slot : option Z;
  sv_terminal_slots : gmap Z Z;
  sv_tracker : SpawnTracker;
  sv_js : list JsCall }.

(** ** Field updates *)
Definition up_system (x : System WebHal) (v : Sup) : Sup :=
  mk_Sup x (sv_console_callbacks v) (sv_spawn_callback v) (sv_console_buffer v) (sv_pingpong v)
    (sv_init_spawned v) (sv_supervisor_pid v) (sv_initialized v) (sv_ipc_response_callback v)
    (sv_init_slot v) (sv_ps_slot v) (sv_terminal_slots v) (sv_tracker v) (sv_js v).
Definition up_callbacks (x : gset Z) (v : Sup) : Sup :=
  mk_Sup (sv_system v) x (sv_spawn_callback v) (sv_console_buffer v) (sv_pingpong v)
    (sv_init_spawned v) (sv_supervisor_pid v) (sv_initialized v) (sv_ipc_response_callback v)
    (sv_init_slot v) (sv_ps_slot v) (sv_terminal_slots v) (sv_tracker v) (sv_js v).
Definition up_spawn_callback (x : bool) (v : Sup) : Sup :=
  mk_Sup (sv_system v) (sv_console_callbacks v) x (sv_console_buffer v) (sv_pingpong v)
    (sv_init_spawned v) (sv_supervisor_pid v) (sv_initialized v) (sv_ipc_response_callback v)
    (sv_init_slot v) (sv_ps_slot v) (sv_terminal_slots v) (sv_tracker v) (sv_js v).
Definition up_buffer (x : list string) (v : Sup) : Sup :=
  mk_Sup (sv_system v) (sv_console_callbacks v) (sv_spawn_callback v) x (sv_pingpong v)
    (sv_init_spawned v) (sv_supervisor_pid v) (sv_initialized v) (sv_ipc_response_callback v)
    (sv_init_slot v) (sv_ps_slot v) (sv_terminal_slots v) (sv_tracker v) (sv_js v).
Definition up_pingpong (x : PingPongTestState) (v : Sup) : Sup :=
  mk_Sup (sv_system v) (sv_console_callbacks v) (sv_spawn_callback v) (sv_console_buffer v) x
    (sv_init_spawned v) (sv_supervisor_pid v) (sv_initialized v) (sv_ipc_response_callback v)
    (sv_init_slot v) (sv_ps_slot v) (sv_terminal_slots v) (sv_tracker v) (sv_js v).
Definition up_init_spawned (x : bool) (v : Sup) : Sup :=
  mk_Sup (sv_system v) (sv_console_callbacks v) (sv_spawn_callback v) (sv_console_buffer v) (sv_pingpong v)
    x (sv_supervisor_pid v) (sv_initialized v) (sv_ipc_response_callback v)
    (sv_init_slot v) (sv_ps_slot v) (sv_terminal_slots v) (sv_tracker v) (sv_js v).
Definition up_initialized (pid : Z) (x : bool) (v : Sup) : Sup :=
  mk_Sup (sv_system v) (sv_console_callbacks v) (sv_spawn_callback v) (sv_console_buffer v) (sv_pingpong v)
    (sv_init_spawned v) pid x (sv_ipc_response_callback v)
    (sv_init_slot v) (sv_ps_slot v) (sv_terminal_slots v) (sv_tracker v) (sv_js v).
Definition up_response_callback (x : bool) (v : Sup) : Sup :=
  mk_Sup (sv_system v) (sv_console_callbacks v) (sv_spawn_callback v) (sv_console_buffer v) (sv_pingpong v)
    (sv_init_spawned v) (sv_supervisor_pid v) (sv_initialized v) x
    (sv_init_slot v) (sv_ps_slot v) (sv_terminal_slots v) (sv_tracker v) (sv_js v).
Definition up_slots (init ps : option Z) (terms : gmap Z Z) (v : Sup) : Sup :=
  mk_Sup (sv_system v) (sv_console_callbacks v) (sv_spawn_callback v) (sv_console_buffer v) (sv_pingpong v)
    (sv_init_spawned v) (sv_supervisor_pid v) (sv_initialized v) (sv_ipc_response_callback v)
    init ps terms (sv_tracker v) (sv_js v).
Definition up_tracker (x : SpawnTracker) (v : Sup) : Sup :=
  mk_Sup (sv_system v) (sv_console_callbacks v) (sv_spawn_callback v) (sv_console_buffer v) (sv_pingpong v)
    (sv_init_spawned v) (sv_supervisor_pid v) (sv_initialized v) (sv_ipc_response_callback v)
    (sv_init_slot v) (sv_ps_slot v) (sv_terminal_slots v) x (sv_js v).
Definition up_js (c : JsCall) (v : Sup) : Sup :=
  mk_Sup (sv_system v) (sv_console_callbacks v) (sv_spawn_callback v) (sv_console_buffer v) (sv_pingpong v)
    (sv_init_spawned v) (sv_supervisor_pid v) (sv_initialized v) (sv_ipc_response_callback v)
    (sv_init_slot v) (sv_ps_slot v) (sv_terminal_slots v) (sv_tracker v) (c :: sv_js v).

(** ** The monad *)
Definition SM (T : Type) : Type := Sup -> option (T * Sup).

#[export] Instance SM_ret : MRet SM := fun _ x v => Some (x, v).
#[export] Instance SM_bind : MBind SM := fun _ _ k m v =>
  match m v with Some (x, v') => k x v' | None => None end.

Definition sget : SM Sup := fun v => Some (v, v).
Definition smod (f : Sup -> Sup) : SM unit := fun v => Some (tt, f v).
Definition spanic {T : Type} : SM T := fun _ => None.

(** A method of [System] that takes the supervisor's system. *)
Definition sys {T : Type} (f : System WebHal -> T * System WebHal) : SM T := fun v =>
  let '(x, s) := f (sv_system v) in Some (x, up_system s v).

(** A call of the platform, [self.system.hal()]. *)
Definition on_hal {T : Type} (f : WebHal -> T * WebHal) (s : System WebHal) : T * System WebHal :=
  let '(x, h) := f (hal (kernel s)) in (x, set_kernel (set_hal h (kernel s)) s).

Definition hal_do (f : WebHal -> WebHal) : SM unit := sys (on_hal (fun h => (tt, f h))).

(** [for x in l { f(x) }]. *)
Fixpoint sfor {A : Type} (l : list A) (f : A -> SM unit) : SM unit :=
  match l with
  | [] => mret tt
  | x :: l => f x ;; sfor l f
  end.

Section supervisor.
Context `{Target} `{HashOrder}.

Definition Sup_new (h : WebHal) : Sup :=
  mk_Sup (System_new h) ∅ false [] PP_Idle false 0 false false None None ∅ SpawnTracker_new [].

(** ** console.rs *)
Definition write_console (text : string) : SM unit :=
  smod (fun v => up_buffer (sv_console_buffer v ++ [text])%list v).

Definition write_console_to_process (pid : Z) (text : string) : SM unit :=
  v ← sget;
  if decide (pid ∈ sv_console_callbacks v) then smod (up_js (Js_Console pid text)) else write_console text.

Definition register_console_callback (pid : Z) : SM unit :=
  smod (fun v => up_callbacks ({[pid]} ∪ sv_console_callbacks v) v).

Definition unregister_console_callback (pid : Z) : SM unit :=
  smod (fun v => up_callbacks (sv_console_callbacks v ∖ {[pid]}) v).

(** ** mod.rs: requests to JavaScript and input *)
Definition set_spawn_callback : SM unit := smod (up_spawn_callback true).

Definition set_ipc_response_callback : SM unit := smod (up_response_callback true).

Definition request_spawn (proc_type name : string) : SM unit :=
  v ← sget;
  if sv_spawn_callback v then smod (up_js (Js_Spawn proc_type name))
  else write_console ("Error: Spawn callback not set" +:+ String "010" "").

(** ** ipc.rs *)
Definition sup_send (slot tag : Z) (payload : list byte) : SM (result unit KernelError) :=
  sys (sys_ipc_send 0 slot tag payload).

Definition sv_route_ipc_via_init (target_pid endpoint_slot tag : Z) (data : list byte) : SM unit :=
  v ← sget;
  match sv_init_slot v with
  | None => mret tt
  | Some init_slot =>
      sup_send init_slot MSG_SUPERVISOR_IPC_DELIVERY (delivery_payload target_pid endpoint_slot tag data) ;; mret tt
  end.

Definition sv_route_console_input_via_init (target_pid : Z) (input : list byte) : SM unit :=
  v ← sget;
  match sv_init_slot v with
  | None => mret tt
  | Some init_slot => sup_send init_slot MSG_SUPERVISOR_CONSOLE_INPUT (console_payload target_pid input) ;; mret tt
  end.

(** The body of the responses of the file system and of the keystore. *)
Definition sv_debug_response (rest : string) : SM unit :=
  match splitn3 ":" rest with
  | [pid_str; tag_str; hex] =>
      match uint_from_str_radix 32 10 pid_str with
      | None => mret tt
      | Some to_pid =>
          match uint_from_str_radix 32 16 tag_str with
          | None => mret tt
          | Some tag =>
              match hex_to_bytes hex with
              | None => spanic
              | Some (Err _) => mret tt
              | Some (Ok data) => sv_route_ipc_via_init to_pid SERVICE_INPUT_SLOT tag data
              end
          end
      end
  | _ => mret tt
  end.

Definition sv_debug_service_response (rest : string) : SM unit :=
  match splitn3 ":" rest with
  | [_; request_id; hex_data] =>
      v ← sget;
      if negb (sv_ipc_response_callback v) then mret tt
      else match hex_to_bytes hex_data with
      | None => spanic
      | Some (Err _) => mret tt
      | Some (Ok bytes) =>
          match from_utf8 bytes with
          | None => mret tt
          | Some json => smod (up_js (Js_Response request_id json))
          end
      end
  | _ => mret tt
  end.

(** ** storage.rs: completions of requests, called by JavaScript *)

(** [self.system.hal().take_storage_request_pid(request_id)] and the like. *)
Definition take_pid (take : WasmHal -> option Z * WasmHal) : SM (option Z) := sys (on_hal (requested take)).

Definition deliver_storage_result (pid : Z) (payload : list byte) : SM unit :=
  sv_route_ipc_via_init pid SERVICE_INPUT_SLOT MSG_STORAGE_RESULT payload.

Definition deliver_keystore_result (pid : Z) (payload : list byte) : SM unit :=
  sv_route_ipc_via_init pid SERVICE_INPUT_SLOT MSG_KEYSTORE_RESULT payload.

(** The body the six storage notifications share. *)
Definition notify_storage (request_id result_type : Z) (data : list byte) : SM unit :=
  pid ← take_pid (do_take_storage_request_pid request_id);
  match pid with
  | None => mret tt
  | Some pid => deliver_storage_result pid (result_payload request_id result_type data)
  end.

Definition notify_storage_read_complete_internal (request_id : Z) (data : list byte) :=
  notify_storage request_id READ_OK data.
Definition notify_storage_not_found_internal (request_id : Z) := notify_storage request_id ST_NOT_FOUND [].
Definition notify_storage_write_complete_internal (request_id : Z) := notify_storage request_id WRITE_OK [].
Definition notify_storage_list_complete_internal (request_id : Z) (keys_json : list byte) :=
  notify_storage request_id LIST_OK keys_json.
Definition notify_storage_exists_complete_internal (request_id : Z) (present : bool) :=
  notify_storage request_id EXISTS_OK [if present then x01 else x00].
Definition notify_storage_error_internal (request_id : Z) (error : list byte) :=
  notify_storage request_id ST_ERROR error.

Definition notify_keystore (request_id result_type : Z) (data : list byte) : SM unit :=
  pid ← take_pid (do_take_keystore_request_pid request_id);
  match pid with
  | None => mret tt
  | Some pid => deliver_keystore_result pid (result_payload request_id result_type data)
  end.

Definition notify_keystore_read_complete_internal (request_id : Z) (data : list byte) :=
  notify_keystore request_id READ_OK data.
Definition notify_keystore_not_found_internal (request_id : Z) := notify_keystore request_id ST_NOT_FOUND [].
Definition notify_keystore_write_complete_internal (request_id : Z) := notify_keystore request_id WRITE_OK [].
Definition notify_keystore_list_complete_internal (request_id : Z) (keys_json : list byte) :=
  notify_keystore request_id LIST_OK keys_json.
Definition notify_keystore_exists_complete_internal (request_id : Z) (present : bool) :=
  notify_keystore request_id EXISTS_OK [if present then x01 else x00].
Definition notify_keystore_error_internal (request_id : Z) (error : list byte) :=
  notify_keystore request_id ST_ERROR error.

(** ** network.rs: the process named by the result must be the requester.
    [result_json] is the text the browser's serializer gives, [None] its failure. *)
Definition on_network_result_internal (request_id pid : Z) (result_json : option (list byte)) : SM unit :=
  expected ← take_pid (do_take_network_request_pid request_id);
  match expected with
  | None => mret tt
  | Some expected =>
      if negb (expected =? pid) then mret tt
      else
        let bytes := default (str_bytes INTERNAL_ERROR_JSON) result_json in
        sv_route_ipc_via_init pid SERVICE_INPUT_SLOT MSG_NET_RESULT (result_payload request_id 0 bytes)
  end.

(** The first process of that name, in ascending order of identifiers. *)
Definition find_service_pid (s : System WebHal) (service_name : string) : option ProcessId :=
  fst <$> List.find (fun x => (proc_name x.2 =? service_name)%string) (list_processes (kernel s)).

(** ** mod.rs: input, revocation, kill *)
Definition MSG_CONSOLE_INPUT : Z := 0x0002.
Definition MSG_SUPERVISOR_REVOKE_CAP : Z := 0x2020.
Definition REVOKE_REASON_EXPLICIT : Z := 1.

Definition send_input_to_process (pid : Z) (input : list byte) : SM unit :=
  v ← sget;
  match get_process (kernel (sv_system v)) pid with
  | None => mret tt
  | Some _ =>
      match sv_terminal_slots v !! pid with
      | None => sv_route_console_input_via_init pid input
      | Some slot => sup_send slot MSG_CONSOLE_INPUT (input ++ [x0a])%list ;; mret tt
      end
  end.

Definition sv_revoke_capability (pid slot : Z) : SM bool :=
  v ← sget;
  match sv_ps_slot v with
  | None => mret false
  | Some ps_slot =>
      let payload := (u32_to_le_bytes (wrap_u32 pid) ++ u32_to_le_bytes slot ++
                      [byte_of_Z REVOKE_REASON_EXPLICIT])%list in
      r ← sup_send ps_slot MSG_SUPERVISOR_REVOKE_CAP payload;
      mret (negb (is_err r))
  end.

Definition cleanup_process_state (pid : Z) : SM unit :=
  smod (fun v => up_slots (sv_init_slot v) (sv_ps_slot v) (delete pid (sv_terminal_slots v))
                   (up_callbacks (sv_console_callbacks v ∖ {[pid]}) v)).

Definition kill_process_via_init (target_pid : Z) : SM unit :=
  v ← sget;
  match sv_init_slot v with
  | None => mret tt
  | Some init_slot =>
      sup_send init_slot MSG_SUPERVISOR_KILL_PROCESS (u32_to_le_bytes (wrap_u32 target_pid)) ;; mret tt
  end.

Definition hal_kill (pid : Z) : SM (result unit HalError) := sys (on_hal (do_kill_process pid)).

Definition kill_process_direct (pid : Z) : SM unit :=
  sys (fun s => (tt, sys_kill_process pid s)) ;;
  hal_kill pid ;;
  cleanup_process_state pid.

Definition sv_kill_process (pid : Z) : SM unit :=
  cleanup_process_state pid ;;
  if pid =? 1 then kill_process_direct pid else kill_process_via_init pid.

Definition kill_all_processes : SM unit :=
  v ← sget;
  let pids := filter (fun pid => pid <> 0) (list_processes (kernel (sv_system v))).*1 in
  sfor pids (fun pid => if negb (pid =? 1) then cleanup_process_state pid ;; kill_process_via_init pid else mret tt) ;;
  sfor pids (fun pid => if pid =? 1 then cleanup_process_state pid ;; kill_process_direct pid else mret tt).

(** ** mod.rs: the latency test *)
Definition sv_progress_pingpong : SM unit := fun v =>
  let '(st, s) := progress_pingpong_test (sv_pingpong v) (sv_init_slot v) (sv_system v) in
  Some (tt, up_pingpong st (up_system s v)).

Definition sv_check_pingpong_complete (pid : Z) : SM unit :=
  v ← sget;
  match pp_check_complete (sv_pingpong v) pid with
  | Some new_state => smod (up_pingpong new_state) ;; sv_progress_pingpong
  | None => mret tt
  end.
End supervisor.
