(* ===== verification/SpawnCaps.v ===== *)
(** * Supervisor: boot, spawning and capability set-up

    crates/zos-supervisor/src/supervisor: boot.rs, spawn.rs and
    spawn/capabilities/. A process is registered, gets its endpoints and the
    capabilities its role calls for, and then its worker is started. *)
From S2P Require Import Prelude StrLib AxiomTypes Hal KernelState System.
From S2P Require Import Bridge SpawnState WebHal WebSupervisor.

Local Open Scope string_scope.
Local Open Scope Z_scope.

Definition INPUT_ENDPOINT_SLOT : Z := 1.
Definition VFS_RESPONSE_SLOT : Z := 4.
Definition MSG_SERVICE_CAP_GRANTED : Z := 0x1006.
Definition MSG_VFS_RESPONSE_CAP_GRANTED : Z := 0x1007.
Definition MSG_SERVICE_CAP_PREREGISTER : Z := 0x1008.

(** Permission to send and to receive. *)
Definition read_write : Permissions := mk_Permissions true true false.

(** The endpoint a process holds at a slot. *)
Definition endpoint_at (s : System WebHal) (pid : ProcessId) (slot : CapSlot) : option EndpointId :=
  match get_cap_space (kernel s) pid with
  | Some cspace => cap_object_id <$> cs_get cspace slot
  | None => None
  end.

Section spawn.
Context `{Target} `{HashOrder}.

(** ** capabilities/supervisor.rs *)
Definition grant_supervisor_capability_to_init (init_pid : ProcessId) : SM unit :=
  v ← sget;
  match endpoint_at (sv_system v) init_pid INPUT_ENDPOINT_SLOT with
  | None => mret tt
  | Some endpoint_id =>
      r ← sys (sys_grant_capability_to_endpoint init_pid endpoint_id 0 write_only);
      match r with
      | Ok slot => smod (fun v => up_slots (Some slot) (sv_ps_slot v) (sv_terminal_slots v) v)
      | Err _ => mret tt
      end
  end.

Definition grant_supervisor_capability_to_ps (ps_pid : ProcessId) : SM unit :=
  v ← sget;
  match endpoint_at (sv_system v) ps_pid INPUT_ENDPOINT_SLOT with
  | None => mret tt
  | Some endpoint_id =>
      r ← sys (sys_grant_capability_to_endpoint ps_pid endpoint_id 0 write_only);
      match r with
      | Ok slot => smod (fun v => up_slots (sv_init_slot v) (Some slot) (sv_terminal_slots v) v)
      | Err _ => mret tt
      end
  end.

(** ** capabilities/terminal.rs *)
Definition grant_terminal_capabilities (terminal_pid : ProcessId) : SM unit :=
  v ← sget;
  match endpoint_at (sv_system v) terminal_pid INPUT_ENDPOINT_SLOT with
  | None => mret tt
  | Some endpoint_id =>
      sys (sys_grant_capability_to_endpoint terminal_pid endpoint_id 1 write_only) ;;
      r ← sys (sys_grant_capability_to_endpoint terminal_pid endpoint_id 0 write_only);
      match r with
      | Ok slot => smod (fun v => up_slots (sv_init_slot v) (sv_ps_slot v)
                                    (<[terminal_pid := slot]> (sv_terminal_slots v)) v)
      | Err _ => mret tt
      end
  end.

(** ** capabilities/identity.rs: messages to Init *)
Definition notify_init (tag pid cap_slot : Z) : SM unit :=
  v ← sget;
  match sv_init_slot v with
  | None => mret tt
  | Some init_slot =>
      sup_send init_slot tag (u32_to_le_bytes (wrap_u32 pid) ++ u32_to_le_bytes cap_slot)%list ;; mret tt
  end.

Definition notify_init_service_cap_with_retry (service_pid cap_slot : Z) (trigger_retry : bool) : SM unit :=
  notify_init (if trigger_retry then MSG_SERVICE_CAP_GRANTED else MSG_SERVICE_CAP_PREREGISTER) service_pid cap_slot.

Definition grant_init_capability_to_service_inner (service_pid : ProcessId) (trigger_retry : bool) : SM unit :=
  v ← sget;
  match endpoint_at (sv_system v) service_pid SERVICE_INPUT_SLOT with
  | None => mret tt
  | Some endpoint_id =>
      r ← sys (sys_grant_capability_to_endpoint service_pid endpoint_id 1 write_only);
      match r with
      | Ok slot => notify_init_service_cap_with_retry service_pid slot trigger_retry
      | Err _ => mret tt
      end
  end.

Definition grant_init_capability_to_service (service_pid : ProcessId) : SM unit :=
  grant_init_capability_to_service_inner service_pid false.

Definition regrant_init_capability_to_service (service_pid : ProcessId) : SM unit :=
  grant_init_capability_to_service_inner service_pid true.

Definition find_identity_service_pid_internal (s : System WebHal) : option ProcessId := find_service_pid s "identity".

Definition grant_identity_capability_to_process (target_pid : ProcessId) (target_name : string) : SM unit :=
  if (target_name =? "identity")%string then mret tt
  else
    v ← sget;
    match find_identity_service_pid_internal (sv_system v) with
    | Some identity_pid =>
        sys (sys_grant_capability identity_pid SERVICE_INPUT_SLOT target_pid write_only) ;; mret tt
    | None => mret tt
    end.

Definition grant_identity_capabilities_to_existing_processes (identity_pid : ProcessId) : SM unit :=
  v ← sget;
  let wanted := filter (fun x : ProcessId * Process =>
    1 < x.1 /\ x.1 <> identity_pid /\ proc_name x.2 <> "identity" /\ proc_name x.2 <> "vfs")
    (list_processes (kernel (sv_system v))) in
  sfor wanted.*1 (fun pid => sys (sys_grant_capability identity_pid SERVICE_INPUT_SLOT pid write_only) ;; mret tt).

(** ** capabilities/keystore.rs *)
Definition find_keystore_service_pid (s : System WebHal) : option ProcessId := find_service_pid s "keystore".

Definition grant_keystore_capability_to_identity (keystore_pid : ProcessId) : SM unit :=
  v ← sget;
  match find_identity_service_pid_internal (sv_system v) with
  | Some identity_pid =>
      sys (sys_grant_capability keystore_pid SERVICE_INPUT_SLOT identity_pid write_only) ;; mret tt
  | None => mret tt
  end.

(** ** capabilities/mod.rs: the endpoint for responses of the file system *)
Definition notify_init_vfs_response_cap (process_pid cap_slot : Z) : SM unit :=
  notify_init MSG_VFS_RESPONSE_CAP_GRANTED process_pid cap_slot.

Definition grant_init_vfs_response_capability (process_pid : ProcessId) : SM unit :=
  v ← sget;
  match endpoint_at (sv_system v) process_pid VFS_RESPONSE_SLOT with
  | None => mret tt
  | Some endpoint_id =>
      r ← sys (sys_grant_capability_to_endpoint process_pid endpoint_id 1 write_only);
      match r with
      | Ok slot => notify_init_vfs_response_cap process_pid slot
      | Err _ => mret tt
      end
  end.

Definition create_vfs_response_endpoint_for_process (pid : ProcessId) : SM (option CapSlot) :=
  r ← sys (sys_create_endpoint pid);
  match r with
  | Ok (_, slot) => grant_init_vfs_response_capability pid ;; mret (Some slot)
  | Err _ => mret None
  end.

(** ** capabilities/vfs.rs *)
Definition find_vfs_service_pid (s : System WebHal) : option ProcessId := find_service_pid s "vfs".

Definition grant_vfs_capability_to_process (target_pid : ProcessId) : SM unit :=
  v ← sget;
  match find_vfs_service_pid (sv_system v) with
  | Some vfs_pid => sys (sys_grant_capability vfs_pid SERVICE_INPUT_SLOT target_pid read_write) ;; mret tt
  | None => mret tt
  end.

Definition grant_vfs_capabilities_to_existing_processes (vfs_pid : ProcessId) : SM unit :=
  v ← sget;
  let wanted := filter (fun x : ProcessId * Process =>
    1 < x.1 /\ x.1 <> vfs_pid /\ proc_name x.2 <> "vfs") (list_processes (kernel (sv_system v))) in
  sfor wanted.*1 (fun pid =>
    sys (sys_grant_capability vfs_pid SERVICE_INPUT_SLOT pid read_write) ;;
    create_vfs_response_endpoint_for_process pid ;; mret tt).

(** ** capabilities/mod.rs *)
Definition setup_ordinary_process (process_pid : ProcessId) (name : string) : SM unit :=
  sys (sys_grant_capability 1 INPUT_ENDPOINT_SLOT process_pid write_only) ;;
  grant_vfs_capability_to_process process_pid ;;
  r ← sys (sys_create_endpoint process_pid);
  match r with
  | Ok _ => grant_init_vfs_response_capability process_pid
  | Err _ => mret tt
  end ;;
  grant_identity_capability_to_process process_pid name ;;
  if (name =? "identity")%string then
    v ← sget;
    match find_keystore_service_pid (sv_system v) with
    | Some keystore_pid => grant_keystore_capability_to_identity keystore_pid
    | None => mret tt
    end
  else mret tt.

Definition setup_role (process_pid : ProcessId) (name : string) : SM unit :=
  v ← sget;
  if (name =? "init")%string then
    smod (up_init_spawned true) ;; grant_supervisor_capability_to_init process_pid
  else if (name =? "permission")%string then grant_supervisor_capability_to_ps process_pid
  else if sv_init_spawned v then setup_ordinary_process process_pid name
  else mret tt.

Definition setup_process_capabilities (process_pid : ProcessId) (name : string) : SM unit :=
  setup_role process_pid name ;;
  (if (name =? "terminal")%string then grant_terminal_capabilities process_pid else mret tt) ;;
  (if (name =? "vfs")%string then
     grant_vfs_capabilities_to_existing_processes process_pid ;; grant_init_capability_to_service process_pid
   else mret tt) ;;
  (if (name =? "identity")%string then
     grant_identity_capabilities_to_existing_processes process_pid ;; grant_init_capability_to_service process_pid
   else mret tt) ;;
  (if (name =? "time")%string then grant_init_capability_to_service process_pid else mret tt) ;;
  (if (name =? "keystore")%string then
     grant_keystore_capability_to_identity process_pid ;; grant_init_capability_to_service process_pid
   else mret tt).

(** ** spawn.rs *)

(** Every role gets two endpoints, output and input. *)
Definition setup_process_endpoints (process_pid : ProcessId) : SM unit :=
  sys (sys_create_endpoint process_pid) ;; sys (sys_create_endpoint process_pid) ;; mret tt.

Definition register_process_for_spawn (name : string) : SM ProcessId :=
  process_pid ← sys (sys_register_process name);
  setup_process_endpoints process_pid ;;
  mret process_pid.

Definition cleanup_failed_spawn (process_pid : ProcessId) (name : string) : SM unit :=
  cleanup_process_state process_pid ;;
  v ← sget;
  if (name =? "init")%string || negb (sv_init_spawned v) then kill_process_direct process_pid
  else kill_process_via_init process_pid.

Definition newline : string := String "010" "".

Definition on_process_spawned (name : string) (pid : Z) : SM unit :=
  v ← sget;
  let '(new_state, should_spawn_ponger) := pp_on_process_spawned (sv_pingpong v) name pid in
  if should_spawn_ponger then
    write_console ("  Pinger spawned as PID " +:+ pretty pid +:+ newline) ;;
    smod (up_pingpong new_state) ;;
    request_spawn "pingpong" "pp_ponger"
  else match new_state with
  | PP_SettingUpCaps _ _ _ =>
      write_console ("  Ponger spawned as PID " +:+ pretty pid +:+ newline) ;;
      smod (up_pingpong new_state) ;;
      sv_progress_pingpong
  | _ => write_console ("Spawned Worker '" +:+ name +:+ "' as PID " +:+ pretty pid +:+ newline)
  end.

Definition on_tracker (f : SpawnTracker -> SpawnTracker) : SM unit :=
  smod (fun v => up_tracker (f (sv_tracker v)) v).

(** [{:?}] of a platform error. *)
Definition hal_error_debug (e : HalError) : string :=
  match e with
  | OutOfMemory => "OutOfMemory" | ProcessSpawnFailed => "ProcessSpawnFailed"
  | HE_ProcessNotFound => "ProcessNotFound" | InvalidMessage => "InvalidMessage"
  | NotSupported => "NotSupported" | IoError => "IoError" | HE_InvalidArgument => "InvalidArgument"
  | StorageError => "StorageError" | HE_ResourceExhausted => "ResourceExhausted"
  | NotFound => "NotFound" | InvalidBinary => "InvalidBinary"
  end.

Definition wallclock : SM Z := sys (on_hal wallclock_ms).

Definition complete_spawn (name : string) (wasm_binary : list byte) : SM Z :=
  current_time ← wallclock;
  v ← sget;
  let '(request_id, tracker) := start_spawn name current_time (sv_tracker v) in
  smod (up_tracker tracker) ;;
  on_tracker (with_spawn request_id binary_received) ;;
  process_pid ← register_process_for_spawn name;
  on_tracker (with_spawn request_id (pid_assigned process_pid)) ;;
  setup_process_capabilities process_pid name ;;
  on_tracker (with_spawn request_id (fun p => caps_granted (endpoint_created 0 p))) ;;
  r ← sys (on_hal (spawn_with_pid process_pid name wasm_binary));
  match r with
  | Ok _ =>
      on_tracker (fun t => (cleanup_completed t).2) ;;
      on_process_spawned name process_pid ;;
      mret process_pid
  | Err e =>
      write_console ("Error spawning " +:+ name +:+ ": " +:+ hal_error_debug e +:+ newline) ;;
      on_tracker (with_spawn request_id (spawn_fail ("Worker spawn failed: " +:+ hal_error_debug e))) ;;
      cleanup_failed_spawn process_pid name ;;
      mret 0
  end.

Definition check_spawn_timeouts : SM unit :=
  current_time ← wallclock;
  v ← sget;
  let '(timed_out, tracker) := timeout_spawns current_time (sv_tracker v) in
  smod (up_tracker tracker) ;;
  sfor timed_out (fun spawn =>
    match state_pid (ps_state spawn) with
    | Some pid => cleanup_failed_spawn pid (ps_proc_name spawn)
    | None => mret tt
    end).

(** ** boot.rs *)
Definition initialize_supervisor_process : SM unit :=
  v ← sget;
  if sv_initialized v then mret tt
  else
    pid ← sys (sys_register_process_with_pid 0 "supervisor");
    smod (up_initialized pid true).

Definition boot : SM unit :=
  write_console ("Zero OS Kernel Bootstrap" +:+ newline) ;;
  write_console ("===========================" +:+ newline +:+ newline) ;;
  initialize_supervisor_process.

Definition spawn_init : SM unit :=
  v ← sget;
  if sv_init_spawned v then mret tt
  else write_console ("Starting init process..." +:+ newline) ;; request_spawn "init" "init".
End spawn.
