(* ===== verification/SupDispatch.v ===== *)
(** * Supervisor: system calls, debug messages and worker events

    crates/zos-supervisor/src: supervisor/syscall_dispatch.rs, debug_dispatch.rs,
    worker_events.rs, the polling and the service calls of supervisor/mod.rs, and
    syscall/mod.rs. Debug messages of processes are the channel through which Init
    and the services ask the supervisor to act. *)
From S2P Require Import Prelude StrLib AxiomTypes Hal KernelState.
From S2P Require Import System Bridge SpawnState WebHal WebSupervisor SpawnCaps.

Local Open Scope string_scope.
Local Open Scope Z_scope.

(** [str::strip_prefix]. *)
Definition strip_prefix (p s : string) : option string :=
  if starts_with p s then Some (str_drop (String.length p) s) else None.

(** The supervisor's numbers (constants.rs), which are those of the kernel. *)
Definition SV_SYS_DEBUG : Z := 0x01.
Definition SV_SYS_CONSOLE_WRITE : Z := 0x07.
Definition SV_SYS_EXIT : Z := 0x11.

(** ** Prefixes (crates/zos-ipc/src/lib.rs, debug) *)
Definition INIT_SPAWN : string := "INIT:SPAWN:".
Definition INIT_GRANT : string := "INIT:GRANT:".
Definition INIT_REVOKE : string := "INIT:REVOKE:".
Definition INIT_KILL_OK : string := "INIT:KILL_OK:".
Definition INIT_KILL_FAIL : string := "INIT:KILL_FAIL:".
Definition INIT_PERM_RESPONSE : string := "INIT:PERM_RESPONSE:".
Definition INIT_PERM_LIST : string := "INIT:PERM_LIST:".
Definition INIT_PREFIX : string := "INIT:".
Definition SERVICE_RESPONSE : string := "SERVICE:RESPONSE:".
Definition VFS_RESPONSE : string := "VFS:RESPONSE:".
Definition KEYSTORE_RESPONSE : string := "KEYSTORE:RESPONSE:".
Definition SPAWN_RESPONSE : string := "SPAWN:RESPONSE:".
Definition ENDPOINT_RESPONSE : string := "ENDPOINT:RESPONSE:".
Definition CAP_RESPONSE : string := "CAP:RESPONSE:".
Definition AGENT_LOG : string := "AGENT_LOG:".
Definition DELIVERY_FAILED : string := "ERROR:IPC_DELIVERY_FAILED:no_capability:".

Section dispatch.
Context `{Target} `{HashOrder}.

(** ** syscall/mod.rs *)
Definition handle_init_grant (msg : string) : SM unit :=
  match split_char ":" (str_drop 11 msg) with
  | pid_str :: slot_str :: perms_str :: _ =>
      match uint_from_str_radix 64 10 pid_str, uint_from_str_radix 32 10 slot_str,
            uint_from_str_radix 8 10 perms_str with
      | Some pid, Some slot, Some p =>
          let permissions := mk_Permissions (negb (Z.land p 0x01 =? 0)) (negb (Z.land p 0x02 =? 0))
                               (negb (Z.land p 0x04 =? 0)) in
          sys (sys_grant_capability 1 slot pid permissions) ;; mret tt
      | _, _, _ => mret tt
      end
  | _ => mret tt
  end.

Definition handle_init_revoke (msg : string) : SM unit :=
  match split_char ":" (str_drop 12 msg) with
  | pid_str :: slot_str :: _ =>
      match uint_from_str_radix 64 10 pid_str, uint_from_str_radix 32 10 slot_str with
      | Some pid, Some slot => sys (sys_delete_capability pid slot) ;; mret tt
      | _, _ => mret tt
      end
  | _ => mret tt
  end.

(** ** debug_dispatch.rs *)

(** The process named by [pid={pid}:slot={slot}:...]. *)
Definition handle_ipc_delivery_failed (rest : string) : SM unit :=
  match split_char ":" rest with
  | p0 :: p1 :: _ :: _ =>
      match strip_prefix "pid=" p0 ≫= uint_from_str_radix 32 10 with
      | None => mret tt
      | Some target_pid =>
          match strip_prefix "slot=" p1 ≫= uint_from_str_radix 32 10 with
          | None => mret tt
          | Some _ =>
              v ← sget;
              match get_process (kernel (sv_system v)) target_pid with
              | None => mret tt
              | Some _ => regrant_init_capability_to_service target_pid
              end
          end
      end
  | _ => mret tt
  end.

(** The responses of the spawn protocol are parsed and logged; decoding them can
    panic. *)
Definition handle_init_protocol_response (hex_data : string) : SM unit :=
  match hex_to_bytes hex_data with None => spanic | Some _ => mret tt end.

Definition handle_init_kill_ok (pid_str : string) : SM unit :=
  match uint_from_str_radix 64 10 pid_str with
  | None => mret tt
  | Some target_pid => hal_kill target_pid ;; cleanup_process_state target_pid
  end.

Definition handle_debug_spawn (service_name : string) : SM unit := request_spawn service_name service_name.

Definition RULER : string := "========================================".

Definition handle_debug_console_output (pid : Z) (msg : string) : SM unit :=
  write_console ("[P" +:+ pretty pid +:+ "] " +:+ msg +:+ newline) ;;
  if str_contains RULER msg then sv_check_pingpong_complete pid else mret tt.

Definition dispatch_service_message (pid : Z) (msg : string) : SM unit :=
  match strip_prefix SERVICE_RESPONSE msg with
  | Some rest => sv_debug_service_response rest
  | None =>
  match strip_prefix VFS_RESPONSE msg with
  | Some rest => sv_debug_response rest
  | None =>
  match strip_prefix KEYSTORE_RESPONSE msg with
  | Some rest => sv_debug_response rest
  | None =>
  match strip_prefix SPAWN_RESPONSE msg with
  | Some rest => handle_init_protocol_response rest
  | None =>
  match strip_prefix ENDPOINT_RESPONSE msg with
  | Some rest => handle_init_protocol_response rest
  | None =>
  match strip_prefix CAP_RESPONSE msg with
  | Some rest => handle_init_protocol_response rest
  | None =>
  match strip_prefix DELIVERY_FAILED msg with
  | Some rest => handle_ipc_delivery_failed rest
  | None => handle_debug_console_output pid msg
  end end end end end end end.

Definition dispatch_debug_message (pid : Z) (msg : string) : SM unit :=
  match strip_prefix INIT_SPAWN msg with
  | Some service_name => handle_debug_spawn service_name
  | None =>
  if starts_with INIT_GRANT msg then handle_init_grant msg
  else if starts_with INIT_REVOKE msg then handle_init_revoke msg
  else match strip_prefix INIT_KILL_OK msg with
  | Some rest => handle_init_kill_ok rest
  | None =>
      (* KILL_FAIL, PERM_RESPONSE, PERM_LIST and other messages of Init are logged *)
      if starts_with INIT_PREFIX msg then mret tt else dispatch_service_message pid msg
  end end.

(** ** syscall_dispatch.rs *)
Definition gateway (pid num : Z) (args : Z * Z * Z) (data : list byte) : SM (Z * list byte) := fun v =>
  let '(a0, a1, a2) := args in
  match process_syscall pid num (a0, a1, a2, 0) data (sv_system v) with
  | Some ((result, _, response_data), s) => Some ((result, response_data), up_system s v)
  | None => None
  end.

Definition handle_sys_debug (pid : Z) (data : list byte) : SM Z :=
  r ← gateway pid SV_SYS_DEBUG (0, 0, 0) data;
  match from_utf8 data with Some s => dispatch_debug_message pid s | None => mret tt end ;;
  hal_do (hal_write_syscall_data pid []) ;;
  mret (as_i32 r.1).

Definition handle_sys_exit (pid exit_code : Z) : SM Z :=
  r ← gateway pid SV_SYS_EXIT (exit_code, 0, 0) [];
  (if pid =? 1 then kill_process_direct pid else kill_process_via_init pid) ;;
  mret (as_i32 r.1).

(** [&text[..200]] panics inside a character. *)
Definition preview_panics (text : string) : bool :=
  (200 <? str_len text) && match str_get 200 text with Some a => is_continuation a | None => false end.

Definition handle_sys_console_write (pid : Z) (data : list byte) : SM Z :=
  r ← gateway pid SV_SYS_CONSOLE_WRITE (0, 0, 0) data;
  match from_utf8 data with
  | Some text => if preview_panics text then spanic else write_console_to_process pid text
  | None => mret tt
  end ;;
  mret (as_i32 r.1).

Definition process_syscall_internal (pid num : Z) (args : Z * Z * Z) (data : list byte) : SM Z :=
  v ← sget;
  match get_process (kernel (sv_system v)) pid with
  | None => mret (-1)
  | Some _ =>
      if num =? SV_SYS_DEBUG then handle_sys_debug pid data
      else if num =? SV_SYS_EXIT then handle_sys_exit pid args.1.1
      else if num =? SV_SYS_CONSOLE_WRITE then handle_sys_console_write pid data
      else
        r ← gateway pid num args data;
        hal_do (hal_write_syscall_data pid r.2) ;;
        mret (as_i32 r.1)
  end.

(** ** mod.rs: polling *)
Definition answer_syscall (x : PendingSyscall * list byte) : SM unit :=
  let '(info, data) := x in
  result ← process_syscall_internal (psc_pid info) (psc_num info) (psc_args info) data;
  hal_do (hal_complete_syscall (psc_pid info) result).

Definition poll_syscalls : SM Z :=
  v ← sget;
  let h := hal (kernel (sv_system v)) in
  let pending := hal_poll_syscalls h in
  let syscalls := (fun s => (s, hal_read_syscall_data (psc_pid s) h)) <$> pending in
  sfor syscalls answer_syscall ;;
  sv_progress_pingpong ;;
  check_spawn_timeouts ;;
  mret (len pending).

(** ** mod.rs: a call of a named service from JavaScript *)
Definition SERVICE_NOT_FOUND (name : string) : string := "error:service_not_found:" +:+ name.

Definition send_service_ipc (kernel_error_debug : KernelError -> string) (service_name : string)
    (tag : Z) (data : list byte) : SM string :=
  v ← sget;
  match find_service_pid (sv_system v) service_name with
  | None => mret (SERVICE_NOT_FOUND service_name)
  | Some pid =>
      let request_id := hex_u32 (wrap_u32 (tag + 1)) in
      match sv_init_slot v with
      | None => mret "error:no_init_capability"
      | Some init_slot =>
          r ← sup_send init_slot MSG_SUPERVISOR_IPC_DELIVERY (delivery_payload pid SERVICE_INPUT_SLOT tag data);
          match r with
          | Ok _ => mret request_id
          | Err e => mret ("error:delivery_failed:" +:+ kernel_error_debug e)
          end
      end
  end.

(** ** worker_events.rs *)
Definition MAX_MESSAGES_PER_BATCH : Z := 5000.

Definition on_worker_message (msg : WorkerMessage) : SM unit :=
  let pid := wm_pid msg in
  match wm_type msg with
  | WM_Ready memory_size | WM_MemoryUpdate memory_size =>
      hal_do (hal_update_process_memory pid memory_size) ;;
      sys (fun s => (tt, sys_update_process_memory pid memory_size s))
  | WM_Terminated =>
      v ← sget;
      match get_process (kernel (sv_system v)) pid with
      | None => mret tt
      | Some _ =>
          cleanup_process_state pid ;;
          if pid =? 1 then kill_process_direct pid else kill_process_via_init pid
      end
  | WM_Error _ | WM_Yield => mret tt
  end.

Definition process_worker_messages_internal : SM Z :=
  v ← sget;
  let queue := wb_incoming (hal (kernel (sv_system v))) in
  let take_count := Z.to_nat (Z.min (len queue) MAX_MESSAGES_PER_BATCH) in
  hal_do (set_wb_incoming (drop take_count queue)) ;;
  sfor (take take_count queue) on_worker_message ;;
  mret (len (take take_count queue)).
End dispatch.
