(* ===== verification/SupRun.v ===== *)
(** * Runs of the supervisor

    The entry points of the supervisor composed into runs, and the relation
    between the system before and after each of them: a sequence of calls of the
    methods of [System] from a restricted set, interleaved with steps of the
    platform. *)
From S2P Require Import Prelude StrLib AxiomTypes CommitLog Gateway Hal KernelState.
From S2P Require Import System KernelSpec KernelRefine SystemRefine KernelWf SystemRun.
From S2P Require Import Bridge SpawnState WebHal WebSupervisor SpawnCaps SupDispatch.

Local Open Scope Z_scope.

(** What the supervisor does to the system: it registers processes and itself,
    creates endpoints, passes on capabilities of processes, gives itself and Init
    permission to send to an endpoint in the name of its owner, removes
    capabilities, kills, sends as process 0, executes system calls of processes
    and records their memory. *)
Definition supervisor_event (ev : sevent) : bool :=
  match ev with
  | S_register _ | S_kill _ | S_create_endpoint _ | S_grant _ _ _ _ | S_delete _ _ => true
  | S_syscall _ _ _ _ | S_resize _ _ => true
  | S_register_pid pid _ => pid =? 0
  | S_send pid _ _ _ => pid =? 0
  | S_grant_to_endpoint _ _ to perms =>
      ((to =? 0) || (to =? 1)) && bool_decide (perms = write_only)
  | _ => false
  end.

Section run.
Context `{Target} `{HashOrder}.

(** ** Entry points

    Those exported to JavaScript that act on the system or on what the supervisor
    does to it. The readers of metrics.rs and the asynchronous set-up of browser
    databases (boot.rs, axiom_sync.rs) leave the system alone. *)
Inductive scall : Type :=
| C_boot
| C_spawn_init
| C_set_spawn_callback
| C_set_response_callback
| C_register_console (pid : Z)
| C_unregister_console (pid : Z)
| C_complete_spawn (name : string) (binary : list byte)
| C_poll
| C_worker_messages
| C_input (pid : Z) (input : list byte)
| C_revoke (pid slot : Z)
| C_kill (pid : Z)
| C_kill_all
| C_service (name : string) (tag : Z) (data : list byte)
| C_storage_read (request_id : Z) (data : list byte)
| C_storage_not_found (request_id : Z)
| C_storage_written (request_id : Z)
| C_storage_list (request_id : Z) (keys_json : list byte)
| C_storage_exists (request_id : Z) (present : bool)
| C_storage_error (request_id : Z) (error : list byte)
| C_keystore_read (request_id : Z) (data : list byte)
| C_keystore_not_found (request_id : Z)
| C_keystore_written (request_id : Z)
| C_keystore_list (request_id : Z) (keys_json : list byte)
| C_keystore_exists (request_id : Z) (present : bool)
| C_keystore_error (request_id : Z) (error : list byte)
| C_network_result (request_id pid : Z) (result_json : option (list byte))
| C_platform (f : WebHal -> WebHal).

(** What the browser and the workers do to the platform between calls is an
    arbitrary change of its state. *)
Definition sup_call (c : scall) : SM unit :=
  match c with
  | C_boot => boot
  | C_spawn_init => spawn_init
  | C_set_spawn_callback => set_spawn_callback
  | C_set_response_callback => set_ipc_response_callback
  | C_register_console pid => register_console_callback pid
  | C_unregister_console pid => unregister_console_callback pid
  | C_complete_spawn name binary => complete_spawn name binary ;; mret tt
  | C_poll => poll_syscalls ;; mret tt
  | C_worker_messages => process_worker_messages_internal ;; mret tt
  | C_input pid input => send_input_to_process pid input
  | C_revoke pid slot => sv_revoke_capability pid slot ;; mret tt
  | C_kill pid => sv_kill_process pid
  | C_kill_all => kill_all_processes
  | C_service name tag data => send_service_ipc (fun _ => EmptyString) name tag data ;; mret tt
  | C_storage_read id data => notify_storage_read_complete_internal id data
  | C_storage_not_found id => notify_storage_not_found_internal id
  | C_storage_written id => notify_storage_write_complete_internal id
  | C_storage_list id keys_json => notify_storage_list_complete_internal id keys_json
  | C_storage_exists id present => notify_storage_exists_complete_internal id present
  | C_storage_error id error => notify_storage_error_internal id error
  | C_keystore_read id data => notify_keystore_read_complete_internal id data
  | C_keystore_not_found id => notify_keystore_not_found_internal id
  | C_keystore_written id => notify_keystore_write_complete_internal id
  | C_keystore_list id keys_json => notify_keystore_list_complete_internal id keys_json
  | C_keystore_exists id present => notify_keystore_exists_complete_internal id present
  | C_keystore_error id error => notify_keystore_error_internal id error
  | C_network_result id pid result_json => on_network_result_internal id pid result_json
  | C_platform f => hal_do f
  end.

Fixpoint sup_run (v : Sup) (calls : list scall) : option Sup :=
  match calls with
  | [] => Some v
  | c :: rest => match sup_call c v with Some (_, v1) => sup_run v1 rest | None => None end
  end.

(** ** Relations between states *)

(** Steps of the platform the supervisor makes. *)
Inductive hal_step (h : WebHal) : WebHal -> Prop :=
| HS_refl : hal_step h h
| HS_clock c : hal_step h (set_wb_clock c h)
| HS_spawn pid name binary : hal_step h (spawn_with_pid pid name binary h).2
| HS_kill pid : hal_step h (do_kill_process pid h).2
| HS_write pid data : hal_step h (hal_write_syscall_data pid data h)
| HS_memory pid size : hal_step h (hal_update_process_memory pid size h)
| HS_drain q : hal_step h (set_wb_incoming q h)
| HS_requests t : hal_step h (set_wb_requests t h).

(** A preorder on states of the supervisor that contains its primitive steps:
    changes of its own fields, calls of the system, and steps of the platform. *)
Class SupRel (R : Sup -> Sup -> Prop) : Prop := {
  sr_refl v : R v v;
  sr_trans v1 v2 v3 : R v1 v2 -> R v2 v3 -> R v1 v3;
  sr_mod v v' : sv_system v' = sv_system v -> R v v';
  sr_event v ev s' : sys_exec (sv_system v) ev = Some s' -> supervisor_event ev = true -> R v (up_system s' v);
  sr_hal v h' : hal_step (hal (kernel (sv_system v))) h' ->
    R v (up_system (set_kernel (set_hal h' (kernel (sv_system v))) (sv_system v)) v) }.

(** Every outcome of [m] is related to its start. *)
Definition related (R : Sup -> Sup -> Prop) {T : Type} (m : SM T) : Prop :=
  forall v x v', m v = Some (x, v') -> R v v'.
End run.

Create HintDb sup.

Section related.
Context `{Target} `{HashOrder} (R : Sup -> Sup -> Prop) `{!SupRel R}.

Lemma rel_ret {T} (x : T) : related R (mret x).
Proof. intros v y v' [= _ <-]. apply sr_refl. Qed.

Lemma rel_bind {A B} (m : SM A) (k : A -> SM B) : related R m -> (forall x, related R (k x)) -> related R (m ≫= k).
Proof.
  intros Hm Hk v y v' E. unfold mbind, SM_bind in E. destruct (m v) as [[x v1]|] eqn:E1; [|done].
  eapply sr_trans; [by eapply Hm|by eapply Hk].
Qed.

Lemma rel_sget : related R sget.
Proof. intros v x v' [= _ <-]. apply sr_refl. Qed.

Lemma rel_smod f : (forall v, sv_system (f v) = sv_system v) -> related R (smod f).
Proof. intros Hf v x v' [= _ <-]. by apply sr_mod. Qed.

Lemma rel_panic {T} : related R (@spanic T).
Proof. by intros v x v'. Qed.

(** From one state of the system to another, the other fields unchanged. *)
Definition moves (s s' : System WebHal) : Prop := forall v, sv_system v = s -> R v (up_system s' v).

Lemma moves_refl s : moves s s.
Proof. intros v <-. by apply sr_mod. Qed.

Lemma moves_trans s1 s2 s3 : moves s1 s2 -> moves s2 s3 -> moves s1 s3.
Proof. intros H1 H2 v Hv. eapply sr_trans; [by apply H1|]. by apply (H2 (up_system s2 v)). Qed.

Lemma moves_event s ev s' : sys_exec s ev = Some s' -> supervisor_event ev = true -> moves s s'.
Proof. intros E Hev v <-. by eapply sr_event. Qed.

Lemma moves_hal s h' : hal_step (hal (kernel s)) h' -> moves s (set_kernel (set_hal h' (kernel s)) s).
Proof. intros Hh v <-. by apply sr_hal. Qed.

Lemma rel_sys {T} (f : System WebHal -> T * System WebHal) : (forall s, moves s (f s).2) -> related R (sys f).
Proof.
  intros Hf v x v' E. unfold sys in E. specialize (Hf (sv_system v) v eq_refl).
  destruct (f (sv_system v)) as [y s]. by injection E as <- <-.
Qed.

Lemma rel_event {T} (f : System WebHal -> T * System WebHal) ev :
  (forall s, sys_exec s ev = Some (f s).2) -> supervisor_event ev = true -> related R (sys f).
Proof. intros Hf Hev. apply rel_sys. intros s. by eapply moves_event. Qed.

Lemma rel_on_hal {T} (f : WebHal -> T * WebHal) : (forall h, hal_step h (f h).2) -> related R (sys (on_hal f)).
Proof.
  intros Hf. apply rel_sys. intros s. unfold on_hal. specialize (Hf (hal (kernel s))).
  destruct (f _) as [y h]. by apply moves_hal.
Qed.

Lemma rel_sfor {A} (l : list A) (f : A -> SM unit) : (forall x, related R (f x)) -> related R (sfor l f).
Proof.
  intros Hf. induction l as [|x l IH]; [apply rel_ret|]. simpl. apply rel_bind; [apply Hf|]. by intros [].
Qed.

Lemma rel_send slot tag payload : related R (sup_send slot tag payload).
Proof. by apply (rel_event _ (S_send 0 slot tag payload)). Qed.

Lemma rel_gateway pid num args data : related R (gateway pid num args data).
Proof.
  intros v x v' E. unfold gateway in E. destruct args as [[a0 a1] a2].
  destruct (process_syscall pid num (a0, a1, a2, 0) data (sv_system v)) as [[[[r rich] d] s]|] eqn:Ep; [|done].
  injection E as <- <-. apply (sr_event v (S_syscall pid num (a0, a1, a2, 0) data)); [|done]. cbn [sys_exec]. by rewrite Ep.
Qed.

Lemma rel_grant f fs t perms : related R (sys (sys_grant_capability f fs t perms)).
Proof. by apply (rel_event _ (S_grant f fs t perms)). Qed.

Lemma rel_create owner : related R (sys (sys_create_endpoint owner)).
Proof. by apply (rel_event _ (S_create_endpoint owner)). Qed.

Lemma rel_grant_to owner eid to :
  (to =? 0) || (to =? 1) = true -> related R (sys (sys_grant_capability_to_endpoint owner eid to write_only)).
Proof.
  intros Ht. apply (rel_event _ (S_grant_to_endpoint owner eid to write_only)); [done|].
  cbn [supervisor_event]. rewrite Ht. by rewrite bool_decide_eq_true_2.
Qed.

Lemma rel_hal_do f : (forall h, hal_step h (f h)) -> related R (hal_do f).
Proof. intros Hf. by apply rel_on_hal. Qed.
End related.

#[export] Hint Resolve rel_ret rel_sget rel_panic rel_send rel_gateway rel_grant rel_create : sup.
#[export] Hint Extern 1 (related _ (sys (sys_grant_capability_to_endpoint _ _ _ _))) => apply rel_grant_to; [assumption|reflexivity] : sup.
#[export] Hint Extern 1 (related _ (smod _)) => apply rel_smod; [assumption|reflexivity] : sup.
#[export] Hint Extern 1 (related _ (hal_do _)) => apply rel_hal_do; [assumption|intros; constructor] : sup.
#[export] Hint Extern 1 (related _ (sys (on_hal _))) => apply rel_on_hal; [assumption|intros; constructor] : sup.

(** Splits binds, loops and matches; the leaves are hints. *)
Ltac related_tac :=
  repeat first
    [ match goal with |- forall _, _ => intro end
    | solve [eauto 2 with sup nocore]
    | match goal with
      | |- related _ (mbind _ _) => apply rel_bind; [assumption|..]
      | |- related _ (sfor _ _) => apply rel_sfor; [assumption|..]
      | |- related _ (match ?x with _ => _ end) => destruct x
      end ].

(** ** The operations *)
Section operations.
Context `{Target} `{HashOrder} (R : Sup -> Sup -> Prop) `{HR : !SupRel R}.

Lemma rel_write_console text : related R (write_console text).
Proof. unfold write_console. related_tac. Qed.

Lemma rel_write_to_process pid text : related R (write_console_to_process pid text).
Proof. unfold write_console_to_process, write_console. related_tac. Qed.

Lemma rel_request_spawn t name : related R (request_spawn t name).
Proof. unfold request_spawn, write_console. related_tac. Qed.

Lemma rel_route pid slot tag data : related R (sv_route_ipc_via_init pid slot tag data).
Proof. unfold sv_route_ipc_via_init. related_tac. Qed.

Lemma rel_take_pid f : related R (take_pid f).
Proof.
  apply rel_on_hal; [done|]. intros h. unfold requested. destruct (f (wb_requests h)). apply HS_requests.
Qed.

Lemma rel_notify_storage id rt data : related R (notify_storage id rt data).
Proof. apply rel_bind; [done|apply rel_take_pid|]. intros [pid|]; [apply rel_route|by apply rel_ret]. Qed.

Lemma rel_notify_keystore id rt data : related R (notify_keystore id rt data).
Proof. apply rel_bind; [done|apply rel_take_pid|]. intros [pid|]; [apply rel_route|by apply rel_ret]. Qed.

Lemma rel_network_result id pid json : related R (on_network_result_internal id pid json).
Proof.
  apply rel_bind; [done|apply rel_take_pid|].
  intros [e|]; [destruct (negb _); [by apply rel_ret|apply rel_route]|by apply rel_ret].
Qed.

Lemma rel_cleanup pid : related R (cleanup_process_state pid).
Proof. unfold cleanup_process_state. related_tac. Qed.

Lemma rel_kill_via_init pid : related R (kill_process_via_init pid).
Proof. unfold kill_process_via_init. related_tac. Qed.

Lemma rel_hal_kill pid : related R (hal_kill pid).
Proof. unfold hal_kill. related_tac. Qed.

Lemma rel_sys_kill pid : related R (sys (fun s => (tt, sys_kill_process pid s))).
Proof. by apply (rel_event _ _ (S_kill pid)). Qed.

Lemma rel_delete pid slot : related R (sys (sys_delete_capability pid slot)).
Proof. by apply (rel_event _ _ (S_delete pid slot)). Qed.

Lemma rel_register name : related R (sys (sys_register_process name)).
Proof. by apply (rel_event _ _ (S_register name)). Qed.

Lemma rel_resize pid size : related R (sys (fun s => (tt, sys_update_process_memory pid size s))).
Proof. by apply (rel_event _ _ (S_resize pid size)). Qed.

Lemma rel_wallclock : related R wallclock.
Proof. unfold wallclock. related_tac. Qed.

Lemma rel_kill_direct pid : related R (kill_process_direct pid).
Proof. unfold kill_process_direct. related_tac; auto using rel_sys_kill, rel_hal_kill, rel_cleanup. Qed.

(** Routing and killing of the latency test. *)
Lemma pp_moves init_slot pid slot tag data s :
  moves R s (pp_route_ipc init_slot pid slot tag data s).2 /\ moves R s (pp_request_kill init_slot pid s).2.
Proof.
  unfold pp_route_ipc, pp_request_kill. destruct init_slot as [sl|]; [|split; by apply moves_refl].
  split; [apply (moves_event R _ (S_send 0 sl MSG_SUPERVISOR_IPC_DELIVERY (delivery_payload pid slot tag data)))
         |apply (moves_event R _ (S_send 0 sl MSG_SUPERVISOR_KILL_PROCESS (u32_to_le_bytes (wrap_u32 pid))))]; done.
Qed.

Lemma uptime_moves s : moves R s (uptime_nanos s).2.
Proof.
  unfold uptime_nanos, System.with_hal. simpl. unfold web_now_nanos.
  destruct (wb_clock _) as [|t0 [|t1 l]]; apply moves_hal; [done|constructor|done|constructor|done|constructor].
Qed.

(** One component of a sequence of calls on the system. *)
Ltac pp_step t :=
  match goal with
  | |- context [let '(_, _) := ?call in _] =>
      let Ht := fresh in let r := fresh "r" in let s := fresh "s" in
      assert (Ht := t); destruct call as [r s]; cbn [snd] in Ht;
      eapply moves_trans; [exact HR|exact Ht|clear Ht]
  end.

Lemma grant_moves f fs t perms (s : System WebHal) : moves R s (sys_grant_capability f fs t perms s).2.
Proof. by apply (moves_event R _ (S_grant f fs t perms)). Qed.

Lemma progress_moves st init_slot s : moves R s (progress_pingpong_test st init_slot s).2.
Proof.
  destruct st; cbn [progress_pingpong_test]; try by apply moves_refl.
  - pp_step (grant_moves pinger_pid 0 ponger_pid write_only s).
    pp_step (grant_moves ponger_pid 0 pinger_pid write_only s0). by apply moves_refl.
  - pp_step (proj1 (pp_moves init_slot ponger_pid 0 CMD_PONG_MODE [] s)).
    pp_step (proj1 (pp_moves init_slot pinger_pid 0 CMD_PING (u32_to_le_bytes iterations) s0)).
    pp_step (uptime_moves s1). by apply moves_refl.
  - pp_step (uptime_moves s). destruct (30 <=? _); by apply moves_refl.
  - pp_step (proj1 (pp_moves init_slot pinger_pid 0 CMD_EXIT [] s)).
    pp_step (proj1 (pp_moves init_slot ponger_pid 0 CMD_EXIT [] s0)).
    pp_step (proj2 (pp_moves init_slot pinger_pid 0 0 [] s1)).
    pp_step (proj2 (pp_moves init_slot ponger_pid 0 0 [] s2)). by apply moves_refl.
Qed.

Lemma rel_progress : related R sv_progress_pingpong.
Proof.
  intros v x v' E. unfold sv_progress_pingpong in E.
  pose proof (progress_moves (sv_pingpong v) (sv_init_slot v) (sv_system v) v eq_refl) as Ht.
  destruct (progress_pingpong_test _ _ _) as [st s]. injection E as _ <-.
  eapply sr_trans; [exact Ht|]. by apply sr_mod.
Qed.

Lemma rel_check_complete pid : related R (sv_check_pingpong_complete pid).
Proof. unfold sv_check_pingpong_complete. related_tac; auto using rel_progress. Qed.
End operations.

#[export] Hint Resolve rel_write_console rel_write_to_process rel_request_spawn rel_route
  rel_cleanup rel_kill_via_init rel_hal_kill rel_delete rel_register rel_resize rel_wallclock
  rel_kill_direct rel_progress rel_check_complete : sup.

Section entry_points.
Context `{Target} `{HashOrder} (R : Sup -> Sup -> Prop) `{!SupRel R}.

(** *** Capabilities *)
Lemma rel_notify tag pid slot : related R (notify_init tag pid slot).
Proof. unfold notify_init. related_tac. Qed.

Lemma rel_service_inner pid retry : related R (grant_init_capability_to_service_inner pid retry).
Proof. unfold grant_init_capability_to_service_inner, notify_init_service_cap_with_retry. related_tac; apply rel_notify. Qed.

Lemma rel_vfs_response pid : related R (grant_init_vfs_response_capability pid).
Proof. unfold grant_init_vfs_response_capability, notify_init_vfs_response_cap. related_tac; apply rel_notify. Qed.

Lemma rel_ordinary pid name : related R (setup_ordinary_process pid name).
Proof.
  unfold setup_ordinary_process, grant_vfs_capability_to_process, grant_identity_capability_to_process,
    grant_keystore_capability_to_identity.
  related_tac; apply rel_vfs_response.
Qed.

Lemma rel_role pid name : related R (setup_role pid name).
Proof.
  unfold setup_role, grant_supervisor_capability_to_init, grant_supervisor_capability_to_ps.
  related_tac; apply rel_ordinary.
Qed.

Lemma rel_setup pid name : related R (setup_process_capabilities pid name).
Proof.
  unfold setup_process_capabilities, grant_terminal_capabilities, grant_vfs_capabilities_to_existing_processes,
    grant_identity_capabilities_to_existing_processes, grant_init_capability_to_service,
    grant_keystore_capability_to_identity, create_vfs_response_endpoint_for_process.
  related_tac; first [apply rel_role | apply rel_service_inner | apply rel_vfs_response].
Qed.

(** *** Spawning *)
Lemma rel_failed_spawn pid name : related R (cleanup_failed_spawn pid name).
Proof. unfold cleanup_failed_spawn. related_tac. Qed.

Lemma rel_on_spawned name pid : related R (on_process_spawned name pid).
Proof. unfold on_process_spawned. related_tac. Qed.

Lemma rel_complete_spawn name binary : related R (complete_spawn name binary).
Proof.
  unfold complete_spawn, register_process_for_spawn, setup_process_endpoints, on_tracker.
  related_tac; first [apply rel_setup | apply rel_on_spawned | apply rel_failed_spawn].
Qed.

Lemma rel_timeouts : related R check_spawn_timeouts.
Proof. unfold check_spawn_timeouts. related_tac; apply rel_failed_spawn. Qed.

Lemma rel_boot : related R boot.
Proof.
  unfold boot, initialize_supervisor_process. related_tac.
  by apply (rel_event _ _ (S_register_pid 0 "supervisor")).
Qed.

(** *** Debug messages and system calls *)
Lemma rel_debug_response rest : related R (sv_debug_response rest).
Proof. unfold sv_debug_response. related_tac. Qed.

Lemma rel_service_message pid msg : related R (dispatch_service_message pid msg).
Proof.
  unfold dispatch_service_message, sv_debug_service_response, handle_init_protocol_response,
    handle_ipc_delivery_failed, handle_debug_console_output, regrant_init_capability_to_service.
  related_tac; first [apply rel_debug_response | apply rel_service_inner].
Qed.

Lemma rel_debug_message pid msg : related R (dispatch_debug_message pid msg).
Proof.
  unfold dispatch_debug_message, handle_debug_spawn, handle_init_grant, handle_init_revoke, handle_init_kill_ok.
  related_tac; apply rel_service_message.
Qed.

Lemma rel_syscall pid num args data : related R (process_syscall_internal pid num args data).
Proof.
  unfold process_syscall_internal, handle_sys_debug, handle_sys_exit, handle_sys_console_write.
  related_tac; apply rel_debug_message.
Qed.

Lemma rel_worker_messages : related R process_worker_messages_internal.
Proof. unfold process_worker_messages_internal, on_worker_message. related_tac. Qed.

Lemma rel_kill_all : related R kill_all_processes.
Proof. unfold kill_all_processes. related_tac. Qed.

(** Every entry point, for a relation that allows any change of the platform. *)
Lemma rel_call c : (forall f, related R (hal_do f)) -> related R (sup_call c).
Proof.
  intros Hany. destruct c; cbn [sup_call]; unfold spawn_init, set_spawn_callback, set_ipc_response_callback,
    register_console_callback, unregister_console_callback, send_input_to_process,
    sv_route_console_input_via_init, sv_revoke_capability, sv_kill_process, send_service_ipc,
    poll_syscalls, answer_syscall; related_tac;
    first [apply rel_boot | apply rel_complete_spawn | apply rel_syscall | apply rel_timeouts
          |apply rel_worker_messages | apply rel_kill_all | apply rel_notify_storage
          |apply rel_notify_keystore | apply rel_network_result | apply Hany]; done.
Qed.
End entry_points.

(** ** Every operation is a trace *)
Section traces.
Context `{Target} `{HashOrder}.

Definition traces (s s' : System WebHal) : Prop :=
  exists evs, strace s evs s' /\ forallb supervisor_event evs = true.

Lemma traces_refl s : traces s s.
Proof. exists []. split; [constructor|done]. Qed.

Lemma traces_trans s1 s2 s3 : traces s1 s2 -> traces s2 s3 -> traces s1 s3.
Proof.
  intros (e1 & H1 & F1) (e2 & H2 & F2). exists (e1 ++ e2). split; [by eapply strace_app|].
  by rewrite forallb_app, F1, F2.
Qed.

Lemma traces_hal s h : traces s (set_kernel (set_hal h (kernel s)) s).
Proof. exists []. split; [eapply ST_hal, ST_nil|done]. Qed.

#[export] Instance traces_rel : SupRel (fun v v' => traces (sv_system v) (sv_system v')).
Proof.
  split.
  - intros v. apply traces_refl.
  - intros v1 v2 v3. apply traces_trans.
  - intros v v' ->. apply traces_refl.
  - intros v ev s' E Hev. exists [ev]. split; [eapply ST_ev; [exact E|constructor]|]. simpl. by rewrite Hev.
  - intros v h' _. apply traces_hal.
Qed.

Lemma sup_run_traces calls v v' : sup_run v calls = Some v' -> traces (sv_system v) (sv_system v').
Proof.
  revert v. induction calls as [|c calls IH]; intros v E; simpl in E; [injection E as <-; apply traces_refl|].
  destruct (sup_call c v) as [[x v1]|] eqn:Ec; [|done].
  eapply traces_trans; [|by apply IH]. refine (rel_call (fun v v' => traces (sv_system v) (sv_system v')) c _ v x v1 Ec).
  intros f v0 y v0' E0. unfold hal_do, sys, on_hal in E0. injection E0 as _ <-. apply traces_hal.
Qed.

Lemma supervisor_event_ok ev : supervisor_event ev = true -> event_ok ev.
Proof. destruct ev; try done. cbn. intros ->%Z.eqb_eq. lia. Qed.
End traces.

(** * What the supervisor does to the workers

    The kernel reaches the browser only through the methods of the HAL. None of
    them touches the mailbox of a worker that runs, so that apart from the answer
    to a system call the supervisor never changes the status of a mailbox. *)
From S2P Require Import KernelIpc KernelSyscall HalRel.

Local Open Scope Z_scope.

(** [h'] has no worker that [h] has not, but for workers not yet registered; what
    is left keeps its identity and the request in its mailbox. *)
Definition keeps_workers (h h' : WebHal) : Prop :=
  forall pid p', wb_processes h' !! pid = Some p' -> wp_worker_id p' <> 0 ->
    exists p, wb_processes h !! pid = Some p /\ wp_worker_id p = wp_worker_id p' /\ wp_alive p = wp_alive p' /\
      mb_status (wp_mailbox p) = mb_status (wp_mailbox p').

Lemma kw_refl h : keeps_workers h h.
Proof. intros pid p Hp Hw. by exists p. Qed.

Lemma kw_trans h1 h2 h3 : keeps_workers h1 h2 -> keeps_workers h2 h3 -> keeps_workers h1 h3.
Proof.
  intros H1 H2 pid p3 Hp3 Hw3. destruct (H2 _ _ Hp3 Hw3) as (p2 & Hp2 & E2 & A2 & S2).
  destruct (H1 pid p2 Hp2 ltac:(congruence)) as (p1 & Hp1 & E1 & A1 & S1). exists p1. by split_and!; [|congruence..].
Qed.

Lemma kw_same h h' : wb_processes h' = wb_processes h -> keeps_workers h h'.
Proof. intros E pid p Hp Hw. rewrite E in Hp. by exists p. Qed.

Lemma kw_with_worker pid f h :
  (forall p, wp_worker_id (f p) = wp_worker_id p /\ wp_alive (f p) = wp_alive p /\
     mb_status (wp_mailbox (f p)) = mb_status (wp_mailbox p)) -> keeps_workers h (with_worker pid f h).
Proof.
  intros Hf q p' Hp Hw. unfold with_worker in Hp. destruct (wb_processes h !! pid) as [p|] eqn:E; [|by exists p'].
  destruct (wp_worker_id p =? 0); [by exists p'|]. simpl in Hp. destruct (decide (q = pid)) as [->|Hne].
  - rewrite lookup_insert_eq in Hp. injection Hp as <-. destruct (Hf p) as (? & ? & ?). exists p. by split_and!.
  - rewrite lookup_insert_ne in Hp by done. by exists p'.
Qed.

(** Steps of the platform. *)
Lemma kw_spawn pid name binary h : keeps_workers h (spawn_with_pid pid name binary h).2.
Proof.
  intros q p' Hp Hw. unfold spawn_with_pid in Hp.
  assert (forall r : gmap Z WorkerProcess, (<[pid := mk_WorkerProcess name true 65536 0 Mailbox_new]> r !! q = Some p' ->
    r !! q = Some p')) as Hi.
  { intros r Hr. destruct (decide (q = pid)) as [->|Hne]; [|by rewrite lookup_insert_ne in Hr].
    rewrite lookup_insert_eq in Hr. injection Hr as <-. done. }
  destruct (wb_refuse h) as [|[] refuse]; simpl in Hp; [apply Hi in Hp| |apply Hi in Hp]; by exists p'.
Qed.

Lemma hal_step_kw h h' : hal_step h h' -> keeps_workers h h'.
Proof.
  destruct 1; try by apply kw_same.
  - apply kw_spawn.
  - unfold do_kill_process. destruct (wb_processes h !! pid); [|apply kw_refl]. intros q p' Hp Hw. simpl in Hp.
    apply lookup_delete_Some in Hp as [_ Hp]. by exists p'.
  - by apply kw_with_worker.
  - intros q p' Hp Hw. simpl in Hp. unfold btree_update in Hp. apply lookup_alter_Some in Hp as [(-> & p & Hp & ->)|[_ Hp]].
    + exists p. by split_and!.
    + by exists p'.
Qed.

(** ** The methods of the browser *)
Lemma kw_requested {T} (f : WasmHal -> T * WasmHal) h : keeps_workers h (requested f h).2.
Proof. unfold requested. destruct (f _). by apply kw_same. Qed.

Lemma kw_now h : keeps_workers h (web_now_nanos h).2.
Proof. unfold web_now_nanos. destruct (wb_clock h) as [|t0 [|t1 l]]; by apply kw_same. Qed.

#[export] Instance keeps_workers_rel : HalRel keeps_workers.
Proof.
  split; try (intros; apply kw_requested); intros; try apply kw_refl.
  - by eapply kw_trans.
  - apply kw_now.
  - simpl. unfold default_spawn_process_with_pid, web_spawn_process. eapply kw_trans; [|apply kw_spawn]. by apply kw_same.
Qed.

Section events.
Context `{Target}.

(** Every call of the system the supervisor makes. *)
Lemma kk_event ev (s s' : System WebHal) : supervisor_event ev = true -> sys_exec s ev = Some s' -> kk keeps_workers (kernel s) (kernel s').
Proof.
  intros Hev E. destruct ev; try done; cbn [sys_exec] in E; try (injection E as <-).
  - apply kk_recorded; [apply _|]. intros. apply kk_register; apply _.
  - apply kk_recorded; [apply _|]. intros. apply kk_register_pid; apply _.
  - apply (kk_recorded _ (fun t k => let '(commits, k) := kill_process pid t k in ((tt, commits), k))).
    intros t k. pose proof (kk_kill keeps_workers pid t k) as E. by destruct (kill_process pid t k).
  - apply kk_recorded; [apply _|]. intros. apply kk_create; apply _.
  - apply kk_recorded; [apply _|]. intros. apply kk_same; [apply _|]. apply sh_grant.
  - apply kk_recorded; [apply _|]. intros. apply kk_grant_to; apply _.
  - apply kk_recorded; [apply _|]. intros. apply kk_delete; apply _.
  - apply (kk_recorded _ (fun t k => let '((r, commit), k) := ipc_send pid slot tag data t k in ((r, option_list commit), k))).
    intros t k. apply kk_same; [apply _|]. pose proof (sh_send pid slot tag data t k) as E. by destruct (ipc_send _ _ _ _ t k) as [[] ?].
  - destruct (process_syscall sender num args data s) as [[out s1]|] eqn:E1; [|done]. injection E as <-. by eapply (kk_syscall keeps_workers).
  - apply kk_same; [apply _|done].
Qed.
End events.

(** ** The supervisor *)
Section workers.
Context `{Target} `{HashOrder}.

Definition workers_kept (v v' : Sup) : Prop := kk keeps_workers (kernel (sv_system v)) (kernel (sv_system v')).

#[export] Instance workers_kept_rel : SupRel workers_kept.
Proof.
  split; unfold workers_kept, kk.
  - intros v. apply kw_refl.
  - intros v1 v2 v3. apply kw_trans.
  - intros v v' ->. apply kw_refl.
  - intros v ev s' E Hev. by eapply kk_event.
  - intros v h' Hh. by apply hal_step_kw.
Qed.
End workers.
