(* ===== verification/SpawnProps.v ===== *)
(** * Exact effects of the supervisor's operations

    [view] is what the proofs about spawning follow of the system: the abstract
    kernel and the workers the browser will refuse. Each method of [System] that
    the supervisor calls is given with its result and the view after it; [wp]
    composes such facts along a computation of the monad [SM]. *)
From S2P Require Import Prelude StrLib AxiomTypes CommitLog Hal KernelState.
From S2P Require Import KernelIpc KernelSyscall System KernelSpec KernelRefine KernelWf SystemRun.
From S2P Require Import Bridge SpawnState WebHal WebSupervisor SpawnCaps.

Local Open Scope Z_scope.

Definition view (s : System WebHal) : KA * list bool := (kabs (kernel s), wb_refuse (hal (kernel s))).

Section exact.
Context `{Target} `{HashOrder}.

(** ** Methods of the system *)

Lemma uptime_refuse s t s1 : uptime_nanos s = (t, s1) -> wb_refuse (hal (kernel s1)) = wb_refuse (hal (kernel s)).
Proof.
  unfold uptime_nanos, System.with_hal. simpl. unfold web_now_nanos.
  destruct (wb_clock _) as [|t0 [|t1 l]]; by intros [= _ <-].
Qed.

(** A recorded operation whose effect does not depend on the clock. *)
Lemma recorded_view {T} (op : Z -> KernelCore WebHal -> (T * list Commit) * KernelCore WebHal) s x w :
  (forall t k, kabs k = (view s).1 -> wb_refuse (hal k) = (view s).2 ->
     exists cms k', op t k = ((x, cms), k') /\ kabs k' = w.1 /\ wb_refuse (hal k') = w.2) ->
  exists s', recorded op s = (x, s') /\ view s' = w.
Proof.
  intros Hop. unfold recorded. destruct (uptime_nanos s) as [t s1] eqn:Eu.
  pose proof (proj1 (uptime_kabs _ _ _ Eu)) as Hk.
  pose proof (uptime_refuse _ _ _ Eu) as Hr.
  destruct (Hop t (kernel s1) Hk Hr) as (cms & k' & E & Hk' & Hr'). rewrite E.
  eexists. split; [reflexivity|]. unfold view, record_commits. rewrite append_commit_types_kernel.
  cbn [set_kernel kernel]. rewrite Hk', Hr'. by destruct w.
Qed.

Lemma register_view name s a r :
  view s = (a, r) ->
  exists s', sys_register_process name s = (ka_npid a, s') /\
    view s' = (ka_new_proc (ka_npid a) name (u64_add (ka_npid a) 1) a, r).
Proof.
  intros Hv. apply recorded_view. intros t k Hk Hr. rewrite Hv in Hk, Hr. simpl in Hk, Hr. subst a r.
  eexists _, _. split; [reflexivity|]. split; [|done].
  rewrite kabs_debug. unfold kabs, ka_new_proc. simpl. by rewrite fmap_insert.
Qed.

(** The clock does not matter to a grant of a capability that never expires. *)
Lemma grant_view f fs t perms s a r cs c tcs :
  view s = (a, r) -> ka_caps a !! f = Some cs -> slots cs !! fs = Some c ->
  grant (cap_permissions c) = true -> cap_expires_at c = 0 -> ka_caps a !! t = Some tcs ->
  exists s', sys_grant_capability f fs t perms s = (Ok (next_slot tcs), s') /\
    view s' = (ka_bump_cap (ka_set_cspace t (cs_insert (mk_Capability (ka_ncap a) (cap_object_type c)
      (cap_object_id c) (attenuate_permissions (cap_permissions c) perms) (cap_generation c)
      (cap_expires_at c)) tcs).2 a), r).
Proof.
  intros Hv Hf Hc Hg Hx Ht. apply recorded_view. intros ts k Hk Hr. rewrite Hv in Hk, Hr. simpl in Hk, Hr. subst a r.
  unfold grant_capability, validate_grant_source.
  simpl in Hf. rewrite Hf, (proj2 (ax_axiom_check_Ok cs fs grant_perms None ts c)); [|split_and!; try done; auto].
  simpl. unfold create_derived_cap. simpl. unfold insert_cap. simpl in Ht |- *. rewrite Ht. simpl.
  eexists _, _. split; [reflexivity|]. done.
Qed.

Lemma grant_to_view o eid t perms s a r q tcs :
  view s = (a, r) -> ka_eps a !! eid = Some (o, q) -> ka_caps a !! t = Some tcs ->
  exists s', sys_grant_capability_to_endpoint o eid t perms s = (Ok (next_slot tcs), s') /\
    view s' = (ka_bump_cap (ka_set_cspace t (cs_insert (mk_Capability (ka_ncap a) OT_Endpoint eid perms 0 0) tcs).2 a), r).
Proof.
  intros Hv He Ht. apply recorded_view. intros ts k Hk Hr. rewrite Hv in Hk, Hr. simpl in Hk, Hr. subst a r.
  unfold grant_capability_to_endpoint. simpl in He. rewrite lookup_fmap in He.
  destruct (endpoints k !! eid) as [e|]; [|done]. injection He as <- <-. rewrite Z.eqb_refl. simpl.
  unfold insert_cap. simpl in Ht |- *. rewrite Ht. simpl.
  eexists _, _. split; [reflexivity|]. split; [by rewrite kabs_debug|done].
Qed.

Lemma create_view o s a r cs :
  view s = (a, r) -> is_Some (ka_procs a !! o) -> ka_caps a !! o = Some cs ->
  exists s', sys_create_endpoint o s = (Ok (ka_neid a, next_slot cs), s') /\ view s' = (ka_create o cs a, r).
Proof.
  intros Hv Hp Hcs. apply recorded_view. intros ts k Hk Hr. rewrite Hv in Hk, Hr. simpl in Hk, Hr. subst a r.
  unfold create_endpoint. apply kabs_procs_Some in Hp. rewrite (proj2 (contains_key_true _ _) Hp). simpl.
  unfold grant_owner_endpoint_cap. simpl. unfold insert_cap. simpl in Hcs |- *. rewrite Hcs. simpl.
  eexists _, _. split; [reflexivity|]. split; [|done].
  rewrite kabs_debug. unfold kabs, ka_create, ka_new_endpoint; simpl. by rewrite fmap_insert.
Qed.

(** A message changes nothing but a queue. *)
Definition eps_only (a a' : KA) : Prop :=
  ka_procs a' = ka_procs a /\ ka_caps a' = ka_caps a /\ fst <$> ka_eps a' = fst <$> ka_eps a /\
  ka_npid a' = ka_npid a /\ ka_neid a' = ka_neid a /\ ka_ncap a' = ka_ncap a.

Lemma send_view slot tag payload s a r :
  view s = (a, r) ->
  exists res s' a', sys_ipc_send 0 slot tag payload s = (res, s') /\ view s' = (a', r) /\ eps_only a a'.
Proof.
  intros [= Ha Hr]. unfold sys_ipc_send, recorded. destruct (uptime_nanos s) as [t s1] eqn:Eu.
  pose proof (proj1 (uptime_kabs _ _ _ Eu)) as Hk. rewrite Ha in Hk.
  pose proof (uptime_refuse _ _ _ Eu) as Hr'. rewrite Hr in Hr'.
  assert (view s1 = (a, r)) as Hv1 by (unfold view; congruence). unfold ipc_send.
  destruct (validate_send_cap (kernel s1) 0 slot t) as [eid|e]; [|by eexists _, _, a; split_and!].
  destruct (queue_message eid _ (kernel s1)) as [res k1] eqn:Eq.
  pose proof Eq as Eq'. apply queue_message_abs in Eq' as [(e & -> & -> & _)|(o & q & -> & He & Hk1)];
    [by eexists _, _, a; split_and!|].
  eexists _, _, _. split; [reflexivity|]. unfold view, record_commits. rewrite append_commit_types_kernel.
  cbn [set_kernel kernel]. rewrite kabs_update_send_metrics, Hk1, Hk. rewrite Hk in He. split; [f_equal|].
  - unfold queue_message in Eq. by destruct (endpoints (kernel s1) !! eid); simplify_eq.
  - split_and!; try done. simpl. rewrite fmap_insert. simpl. apply insert_id. by rewrite lookup_fmap, He.
Qed.

(** Any grant: at most one capability more, in the receiver's next slot. *)
Definition adds_one (t : ProcessId) (a a' : KA) : Prop :=
  ka_procs a' = ka_procs a /\ ka_eps a' = ka_eps a /\
  (ka_caps a' = ka_caps a \/
   exists tcs cap, ka_caps a !! t = Some tcs /\ ka_caps a' = <[t := (cs_insert cap tcs).2]> (ka_caps a)).

Lemma grant_any_view f fs t perms s a r :
  view s = (a, r) ->
  exists res s' a', sys_grant_capability f fs t perms s = (res, s') /\ view s' = (a', r) /\ adds_one t a a'.
Proof.
  intros [= Ha Hr]. unfold sys_grant_capability, recorded. destruct (uptime_nanos s) as [ts s1] eqn:Eu.
  pose proof (proj1 (uptime_kabs _ _ _ Eu)) as Hk. rewrite Ha in Hk.
  pose proof (uptime_refuse _ _ _ Eu) as Hr'. rewrite Hr in Hr'.
  assert (view s1 = (a, r)) as Hv1 by (unfold view; congruence). unfold grant_capability.
  destruct (validate_grant_source _ _ _ _) as [c|e]; [|eexists _, _, a; split_and!; [done|done|split_and!; [done|done|by left]]].
  unfold create_derived_cap. simpl.
  destruct (insert_cap t _ _) as [[slot k']|] eqn:E.
  - eexists _, _, (kabs k'). split; [reflexivity|]. unfold view, record_commits.
    rewrite append_commit_types_kernel. cbn [set_kernel kernel]. split.
    + f_equal. rewrite <- Hr'. unfold insert_cap in E. destruct (cap_spaces _ !! t); by inversion E.
    + apply insert_cap_Some in E as (tcs & Ht & _ & ->). rewrite <- Hk. split_and!; [done|done|]. right. by eexists tcs, _.
  - eexists _, _, (ka_bump_cap a). split; [reflexivity|]. rewrite <- Hk. split; [by rewrite <- Hr'|].
    split_and!; [done|done|by left].
Qed.

(** ** Computations *)
Definition wp {T : Type} (m : SM T) (Q : T -> Sup -> Prop) (v : Sup) : Prop :=
  exists x v', m v = Some (x, v') /\ Q x v'.

Lemma wp_ret {T} (x : T) Q v : Q x v -> wp (mret x) Q v.
Proof. intros Hq. by exists x, v. Qed.

Lemma wp_bind {A B} (m : SM A) (k : A -> SM B) Q v :
  wp m (fun x v' => wp (k x) Q v') v -> wp (m ≫= k) Q v.
Proof.
  intros (x & v1 & E1 & y & v2 & E2 & Hq). exists y, v2. split; [|done].
  unfold mbind, SM_bind. by rewrite E1.
Qed.

Lemma wp_mono {T} (m : SM T) (P Q : T -> Sup -> Prop) v :
  wp m P v -> (forall x v', P x v' -> Q x v') -> wp m Q v.
Proof. intros (x & v' & E & Hp) Hpq. exists x, v'. eauto. Qed.

Lemma wp_get Q v : Q v v -> wp sget Q v.
Proof. intros Hq. by exists v, v. Qed.

Lemma wp_mod f Q v : Q tt (f v) -> wp (smod f) Q v.
Proof. intros Hq. by exists tt, (f v). Qed.

Lemma wp_sys {T} (f : System WebHal -> T * System WebHal) x s Q v :
  f (sv_system v) = (x, s) -> Q x (up_system s v) -> wp (sys f) Q v.
Proof. intros E Hq. exists x, (up_system s v). unfold sys. by rewrite E. Qed.

(** The state of the supervisor after Init has been spawned, no latency test
    running, no worker refused. *)
Definition knows (a : KA) (v : Sup) : Prop :=
  view (sv_system v) = (a, []) /\ sv_init_spawned v = true /\ sv_pingpong v = PP_Idle.

Lemma wp_register name a v :
  knows a v -> wp (sys (sys_register_process name))
    (fun x v' => x = ka_npid a /\ knows (ka_new_proc (ka_npid a) name (u64_add (ka_npid a) 1) a) v') v.
Proof. intros (Hv & Hi & Hp). destruct (register_view name _ _ _ Hv) as (s' & E & Hv'). by eapply wp_sys. Qed.

Lemma wp_grant f fs t perms a cs c tcs v :
  knows a v -> ka_caps a !! f = Some cs -> slots cs !! fs = Some c ->
  grant (cap_permissions c) = true -> cap_expires_at c = 0 -> ka_caps a !! t = Some tcs ->
  wp (sys (sys_grant_capability f fs t perms))
    (fun _ v' => knows (ka_bump_cap (ka_set_cspace t (cs_insert (mk_Capability (ka_ncap a) (cap_object_type c)
      (cap_object_id c) (attenuate_permissions (cap_permissions c) perms) (cap_generation c)
      (cap_expires_at c)) tcs).2 a)) v') v.
Proof.
  intros (Hv & Hi & Hp) Hf Hc Hg Hx Ht.
  destruct (grant_view f fs t perms _ _ _ _ _ _ Hv Hf Hc Hg Hx Ht) as (s' & E & Hv'). by eapply wp_sys.
Qed.

Lemma wp_grant_any f fs t perms a v :
  knows a v -> wp (sys (sys_grant_capability f fs t perms)) (fun _ v' => exists a', knows a' v' /\ adds_one t a a') v.
Proof.
  intros (Hv & Hi & Hp). destruct (grant_any_view f fs t perms _ _ _ Hv) as (res & s' & a' & E & Hv' & Ha).
  eapply wp_sys; [exact E|]. by exists a'.
Qed.

Lemma wp_grant_to o eid t perms a q tcs v :
  knows a v -> ka_eps a !! eid = Some (o, q) -> ka_caps a !! t = Some tcs ->
  wp (sys (sys_grant_capability_to_endpoint o eid t perms))
    (fun x v' => x = Ok (next_slot tcs) /\
       knows (ka_bump_cap (ka_set_cspace t (cs_insert (mk_Capability (ka_ncap a) OT_Endpoint eid perms 0 0) tcs).2 a)) v') v.
Proof.
  intros (Hv & Hi & Hp) He Ht. destruct (grant_to_view o eid t perms _ _ _ _ _ Hv He Ht) as (s' & E & Hv').
  by eapply wp_sys.
Qed.

Lemma wp_create o a cs v :
  knows a v -> is_Some (ka_procs a !! o) -> ka_caps a !! o = Some cs ->
  wp (sys (sys_create_endpoint o))
    (fun x v' => x = Ok (ka_neid a, next_slot cs) /\ knows (ka_create o cs a) v') v.
Proof. intros (Hv & Hi & Hp) Ho Hcs. destruct (create_view o _ _ _ _ Hv Ho Hcs) as (s' & E & Hv'). by eapply wp_sys. Qed.

Lemma wp_notify tag pid slot a v :
  knows a v -> wp (notify_init tag pid slot) (fun _ v' => exists a', knows a' v' /\ eps_only a a') v.
Proof.
  intros Hk. pose proof Hk as (Hv & Hi & Hp). unfold notify_init. apply wp_bind, wp_get.
  destruct (sv_init_slot v) as [init_slot|]; [|apply wp_ret; by exists a].
  apply wp_bind. destruct (send_view init_slot tag (u32_to_le_bytes (wrap_u32 pid) ++ u32_to_le_bytes slot) _ _ _ Hv)
    as (res & s' & a' & E & Hv' & Ha).
  eapply wp_sys; [exact E|]. apply wp_ret. by exists a'.
Qed.
End exact.

(** ** Services by name *)
Definition ka_find (name : string) (procs : gmap ProcessId (string * ProcessState)) : option ProcessId :=
  fst <$> List.find (fun x => (x.2.1 =? name)%string) (btree_iter procs).

Lemma find_service_abs s name : find_service_pid s name = ka_find name (ka_procs (kabs (kernel s))).
Proof.
  unfold find_service_pid, ka_find, list_processes. simpl. rewrite btree_iter_fmap.
  induction (btree_iter (processes (kernel s))) as [|[i p] l IH]; [done|]. simpl.
  destruct (proc_name p =? name)%string; [done|]. exact IH.
Qed.

(** A process with the highest identifier comes last. *)
Lemma btree_iter_insert_last {V} (m : gmap Z V) p x :
  (forall i, is_Some (m !! i) -> i < p) -> btree_iter (<[p := x]> m) = (btree_iter m ++ [(p, x)])%list.
Proof.
  intros Hp. assert (m !! p = None) as Hn by (apply eq_None_not_Some; intros Hs%Hp; lia).
  apply btree_iter_unique.
  - apply StronglySorted_app_2; [|apply btree_iter_sorted|repeat constructor].
    intros [i y] z Hi%elem_of_btree_iter ->%list_elem_of_singleton. unfold key_le. simpl.
    assert (i < p) by (apply Hp; eauto). lia.
  - rewrite map_to_list_insert by done. rewrite btree_iter_perm. by rewrite Permutation_app_comm.
Qed.

Lemma ka_find_insert name procs p x :
  (forall i, is_Some (procs !! i) -> i < p) -> x.1 <> name -> ka_find name (<[p := x]> procs) = ka_find name procs.
Proof.
  intros Hp Hx. unfold ka_find. rewrite btree_iter_insert_last by done.
  induction (btree_iter procs) as [|y l IH]; simpl.
  - by rewrite (proj2 (String.eqb_neq _ _) Hx).
  - by destruct (y.2.1 =? name)%string.
Qed.

Lemma ka_find_Some name procs p : ka_find name procs = Some p -> exists x, procs !! p = Some x /\ x.1 = name.
Proof.
  unfold ka_find. destruct (List.find _ _) as [[i x]|] eqn:E; [|done]. intros [= <-].
  apply find_some in E as [Hi%list_elem_of_In%elem_of_btree_iter Hn%String.eqb_eq]. by exists x.
Qed.

(** * What a spawned application holds

    The capabilities of an application after [complete_spawn], slot by slot. *)

Local Open Scope Z_scope.

(** What a capability is for: the type and the number of the object, the
    permissions and the expiry. *)
Definition right_of (c : Capability) : ObjectType * Z * Permissions * Z :=
  (cap_object_type c, cap_object_id c, cap_permissions c, cap_expires_at c).

Definition rights (cs : CapabilitySpace) (slot : CapSlot) : option (ObjectType * Z * Permissions * Z) :=
  right_of <$> slots cs !! slot.

(** The names that have no set-up of their own. *)
Definition app_name (name : string) : bool :=
  negb (existsb (String.eqb name) ["init"; "permission"; "terminal"; "vfs"; "identity"; "time"; "keystore"]%string).

(** The space holds exactly the list, from slot 0. *)
Definition holds_list (cs : CapabilitySpace) (l : list (ObjectType * Z * Permissions * Z)) : Prop :=
  next_slot cs = len l /\ forall i, 0 <= i -> rights cs i = l !! Z.to_nat i.

Lemma holds_new : holds_list CapabilitySpace_new [].
Proof. split; [done|]. intros i Hi. by destruct (Z.to_nat i). Qed.

Lemma holds_insert cs l cap :
  holds_list cs l -> len l < 2 ^ 32 - 1 -> holds_list (cs_insert cap cs).2 (l ++ [right_of cap]).
Proof.
  unfold len. intros [Hn Hl] Hlen. unfold holds_list, cs_insert, rights, len in *. cbn [snd slots next_slot].
  rewrite length_app, Hn. simpl length. split; [rewrite u32_add_small by lia; lia|].
  intros i Hi. destruct (decide (i = Z.of_nat (length l))) as [->|Hne].
  - rewrite lookup_insert_eq, Nat2Z.id. by rewrite list_lookup_middle.
  - rewrite lookup_insert_ne by done. rewrite Hl by done.
    destruct (decide (i < Z.of_nat (length l))); [by rewrite lookup_app_l by lia|].
    rewrite !lookup_ge_None_2; [done|rewrite length_app; simpl; lia|lia].
Qed.

(** Slots below the next one do not change. *)
Lemma adds_one_rights t a a' p cs l :
  adds_one t a a' -> ka_caps a !! p = Some cs -> holds_list cs l -> len l < 2 ^ 32 - 1 ->
  exists cs', ka_caps a' !! p = Some cs' /\ forall i, 0 <= i < len l -> rights cs' i = rights cs i.
Proof.
  intros (_ & _ & [->|(tcs & cap & Ht & ->)]) Hcs [Hn Hl] Hlen; [by exists cs|].
  destruct (decide (t = p)) as [->|Hne]; [|rewrite lookup_insert_ne by done; by exists cs].
  rewrite lookup_insert_eq. eexists. split; [done|]. intros i Hi. simplify_eq.
  unfold rights. simpl. by rewrite lookup_insert_ne by lia.
Qed.

Section spawn.
Context `{Target} `{HashOrder}.

(** A process being set up: [p] has been registered after [a0], holds [l], and
    owns the endpoints allocated since. *)
Record stage (a0 : KA) (p : ProcessId) (name : string) (l : list (ObjectType * Z * Permissions * Z)) (a : KA) : Prop := mk_stage {
  sg_procs : ka_procs a = <[p := (name, Running)]> (ka_procs a0);
  sg_caps : exists cs, ka_caps a !! p = Some cs /\ holds_list cs l;
  sg_others : forall q, q <> p -> ka_caps a !! q = ka_caps a0 !! q;
  sg_eids : ka_neid a0 <= ka_neid a;
  sg_eps : forall i, ka_neid a0 <= i < ka_neid a -> exists q, ka_eps a !! i = Some (p, q) }.

Lemma stage_new a name : stage a (ka_npid a) name [] (ka_new_proc (ka_npid a) name (u64_add (ka_npid a) 1) a).
Proof.
  split; simpl; [done| | |lia|lia].
  - exists CapabilitySpace_new. split; [by rewrite lookup_insert_eq|apply holds_new].
  - intros q Hq. by rewrite lookup_insert_ne.
Qed.

Lemma stage_create a0 p name l a cs :
  stage a0 p name l a -> ka_caps a !! p = Some cs -> len l < 2 ^ 32 - 1 -> 0 <= ka_neid a < 2 ^ 64 - 1 ->
  ka_neid (ka_create p cs a) = ka_neid a + 1 /\
  stage a0 p name (l ++ [(OT_Endpoint, ka_neid a, full, 0)]) (ka_create p cs a).
Proof.
  intros [Hp (cs0 & Hc & Hh) Ho He1 He2] Hcs Hl He. assert (cs0 = cs) as -> by congruence.
  assert (ka_neid (ka_create p cs a) = ka_neid a + 1) as Hn by (simpl; by rewrite u64_add_small by lia).
  split; [done|]. split; [done| | |lia|].
  - eexists. split; [simpl; by rewrite lookup_insert_eq|].
    by apply (holds_insert cs l (endpoint_cap (ka_ncap a) (ka_neid a))).
  - intros q Hq. simpl. rewrite lookup_insert_ne by done. by apply Ho.
  - intros i Hi. rewrite Hn in Hi. simpl. destruct (decide (i = ka_neid a)) as [->|Hne].
    + rewrite lookup_insert_eq. by eexists.
    + rewrite lookup_insert_ne by done. apply He2. lia.
Qed.

Lemma stage_insert a0 p name l a cs cap :
  stage a0 p name l a -> ka_caps a !! p = Some cs -> len l < 2 ^ 32 - 1 ->
  stage a0 p name (l ++ [right_of cap]) (ka_bump_cap (ka_set_cspace p (cs_insert cap cs).2 a)).
Proof.
  intros [Hp (cs0 & Hc & Hh) Ho He1 He2] Hcs Hl. assert (cs0 = cs) as -> by congruence.
  split; simpl; [done| | |done|done].
  - eexists. split; [by rewrite lookup_insert_eq|]. by apply holds_insert.
  - intros q Hq. rewrite lookup_insert_ne by done. by apply Ho.
Qed.

(** *** Operations on a process being set up *)
Lemma wp_stage_create a0 p name l a v (Q : result (EndpointId * CapSlot) KernelError -> Sup -> Prop) :
  knows a v -> stage a0 p name l a -> len l < 2 ^ 32 - 1 -> 0 <= ka_neid a < 2 ^ 64 - 1 ->
  (forall a' v', knows a' v' -> ka_neid a' = ka_neid a + 1 ->
     stage a0 p name (l ++ [(OT_Endpoint, ka_neid a, full, 0)]) a' -> Q (Ok (ka_neid a, len l)) v') ->
  wp (sys (sys_create_endpoint p)) Q v.
Proof.
  intros Hk Hs Hl He HQ. destruct (sg_caps _ _ _ _ _ Hs) as (cs & Hcs & Hh).
  eapply wp_mono; [apply (wp_create p a cs); [done| |done]|].
  - rewrite (sg_procs _ _ _ _ _ Hs), lookup_insert_eq. by eexists.
  - intros x v' [-> Hk']. rewrite (proj1 Hh).
    destruct (stage_create _ _ _ _ _ _ Hs Hcs Hl He) as [Hn Hs']. by eapply HQ.
Qed.

Lemma wp_stage_grant a0 p name l a v f fs perms fcs c (Q : result CapSlot KernelError -> Sup -> Prop) :
  knows a v -> stage a0 p name l a -> len l < 2 ^ 32 - 1 -> f <> p ->
  ka_caps a0 !! f = Some fcs -> slots fcs !! fs = Some c -> grant (cap_permissions c) = true -> cap_expires_at c = 0 ->
  (forall a' v' r, knows a' v' -> ka_neid a' = ka_neid a ->
     stage a0 p name (l ++ [(cap_object_type c, cap_object_id c, attenuate_permissions (cap_permissions c) perms, cap_expires_at c)]) a' -> Q r v') ->
  wp (sys (sys_grant_capability f fs p perms)) Q v.
Proof.
  intros Hk Hs Hl Hne Hf Hc Hg Hx HQ. destruct (sg_caps _ _ _ _ _ Hs) as (cs & Hcs & Hh).
  eapply wp_mono; [apply (wp_grant f fs p perms a fcs c cs); [done| |done|done|done|done]|].
  - by rewrite (sg_others _ _ _ _ _ Hs).
  - intros x v' Hk'. eapply HQ; [exact Hk'|done|]. by eapply (stage_insert _ _ _ _ _ _ (mk_Capability _ _ _ _ _ _)).
Qed.

(** *** The parts of the set-up *)
Definition laid_out (a0 : KA) (p : ProcessId) (l : list (ObjectType * Z * Permissions * Z)) (ics : CapabilitySpace) (a : KA) : Prop :=
  (exists cs, ka_caps a !! p = Some cs /\ forall i, 0 <= i < len l -> rights cs i = l !! Z.to_nat i) /\
  (exists ics', ka_caps a !! 1 = Some ics' /\ rights ics' (next_slot ics) = Some (OT_Endpoint, ka_neid a0 + 2, write_only, 0)) /\
  (forall i, ka_neid a0 <= i < ka_neid a0 + 3 -> (fst <$> ka_eps a) !! i = Some p).

Lemma laid_out_eps a0 p l ics a a' : laid_out a0 p l ics a -> eps_only a a' -> laid_out a0 p l ics a'.
Proof. intros (H1 & H2 & H3) (_ & E2 & E3 & _). unfold laid_out. by rewrite E2, E3. Qed.

Lemma laid_out_adds a0 p l ics a a' :
  laid_out a0 p l ics a -> (exists cs, ka_caps a !! p = Some cs /\ holds_list cs l) -> p <> 1 -> len l < 2 ^ 32 - 1 ->
  adds_one p a a' -> laid_out a0 p l ics a'.
Proof.
  intros (_ & (ics' & Hi & Hr) & He) (cs & Hcs & Hh) Hne Hl Ha.
  destruct (adds_one_rights _ _ _ _ _ _ Ha Hcs Hh Hl) as (cs' & Hcs' & Hr'). split_and!.
  - exists cs'. split; [done|]. intros i Hi'. rewrite Hr' by done. apply Hh. lia.
  - exists ics'. split; [|done]. destruct Ha as (_ & _ & [->|(tcs & cap & _ & ->)]); [done|by rewrite lookup_insert_ne].
  - destruct Ha as (_ & -> & _). done.
Qed.

Lemma endpoint_at_rights s a r p cs slot ty eid perms x :
  view s = (a, r) -> ka_caps a !! p = Some cs -> rights cs slot = Some (ty, eid, perms, x) ->
  endpoint_at s p slot = Some eid.
Proof.
  intros [= <- _] Hcs Hr. unfold endpoint_at, get_cap_space, cs_get. simpl in Hcs. rewrite Hcs.
  unfold rights in Hr. destruct (slots cs !! slot) as [c|]; [|done]. by injection Hr as _ <- _ _.
Qed.

(** The grant to Init of the endpoint for responses. *)
Lemma wp_response a0 p name l a v ics (Q : unit -> Sup -> Prop) :
  knows a v -> stage a0 p name l a -> p <> 1 -> ka_caps a0 !! 1 = Some ics ->
  l !! 4%nat = Some (OT_Endpoint, ka_neid a0 + 2, full, 0) -> ka_neid a = ka_neid a0 + 3 ->
  (forall a' v', knows a' v' -> laid_out a0 p l ics a' -> ka_procs a' = ka_procs a ->
     (exists cs, ka_caps a' !! p = Some cs /\ holds_list cs l) -> Q tt v') ->
  wp (grant_init_vfs_response_capability p) Q v.
Proof.
  intros Hk Hs Hne Hics Hl He HQ. destruct (sg_caps _ _ _ _ _ Hs) as (cs & Hcs & Hh).
  assert (endpoint_at (sv_system v) p VFS_RESPONSE_SLOT = Some (ka_neid a0 + 2)) as Hat.
  { eapply endpoint_at_rights; [apply Hk|exact Hcs|]. rewrite (proj2 Hh) by done. exact Hl. }
  unfold grant_init_vfs_response_capability. apply wp_bind, wp_get. rewrite Hat.
  destruct (sg_eps _ _ _ _ _ Hs (ka_neid a0 + 2) ltac:(lia)) as [q Hq].
  assert (ka_caps a !! 1 = Some ics) as Hics' by by rewrite (sg_others _ _ _ _ _ Hs).
  apply wp_bind. eapply wp_mono; [by apply (wp_grant_to p (ka_neid a0 + 2) 1 write_only a q ics)|].
  intros r v1 [-> Hk1]. unfold notify_init_vfs_response_cap.
  eapply wp_mono; [by apply wp_notify|]. intros [] v2 (a2 & Hk2 & He2). eapply HQ; [exact Hk2| | |].
  - eapply laid_out_eps; [|exact He2]. split_and!.
    + exists cs. simpl. rewrite lookup_insert_ne by done. split; [done|]. intros i Hi. apply Hh. lia.
    + eexists. simpl. rewrite lookup_insert_eq. split; [done|]. unfold rights. simpl. by rewrite lookup_insert_eq.
    + intros i Hi. simpl. destruct (sg_eps _ _ _ _ _ Hs i ltac:(lia)) as [q' Hq']. by rewrite lookup_fmap, Hq'.
  - by rewrite (proj1 He2).
  - exists cs. rewrite (proj1 (proj2 He2)). simpl. by rewrite lookup_insert_ne.
Qed.

(** What an application ends up with: its endpoints for output and input, Init's
    and the file system's endpoints, and its endpoint for responses. *)
Definition app_rights (e : EndpointId) (ic vc : Capability) : list (ObjectType * Z * Permissions * Z) :=
  [(OT_Endpoint, e, full, 0); (OT_Endpoint, e + 1, full, 0);
   (cap_object_type ic, cap_object_id ic, attenuate_permissions (cap_permissions ic) write_only, cap_expires_at ic);
   (cap_object_type vc, cap_object_id vc, attenuate_permissions (cap_permissions vc) read_write, cap_expires_at vc);
   (OT_Endpoint, e + 2, full, 0)].

(** Init and the file system before the spawn: the identifier of the next process
    is above all others, Init and the process named [vfs] exist and their input
    slots hold capabilities they may pass on. *)
Record services_up (a : KA) (vp : ProcessId) (ics vcs : CapabilitySpace) (ic vc : Capability) : Prop := mk_services_up {
  su_pids : map_Forall (fun pid _ => pid < ka_npid a) (ka_procs a);
  su_room : 0 <= ka_neid a < 2 ^ 64 - 3;
  su_live : is_Some (ka_procs a !! 1);
  su_init : ka_caps a !! 1 = Some ics /\ slots ics !! INPUT_ENDPOINT_SLOT = Some ic;
  su_init_cap : grant (cap_permissions ic) = true /\ cap_expires_at ic = 0;
  su_find : ka_find "vfs" (ka_procs a) = Some vp;
  su_vfs : ka_caps a !! vp = Some vcs /\ slots vcs !! SERVICE_INPUT_SLOT = Some vc;
  su_vfs_cap : grant (cap_permissions vc) = true /\ cap_expires_at vc = 0 }.

Lemma knows_find a v name : knows a v -> find_service_pid (sv_system v) name = ka_find name (ka_procs a).
Proof. intros ([= <- _] & _ & _). apply find_service_abs. Qed.

(** Of a process named neither after the file system nor the identity service. *)
Lemma wp_ordinary a0 name a v vp ics vcs ic vc (Q : unit -> Sup -> Prop) :
  services_up a0 vp ics vcs ic vc -> name <> "vfs"%string -> name <> "identity"%string ->
  knows a v -> stage a0 (ka_npid a0) name [(OT_Endpoint, ka_neid a0, full, 0); (OT_Endpoint, ka_neid a0 + 1, full, 0)] a ->
  ka_neid a = ka_neid a0 + 2 ->
  (forall a' v', knows a' v' -> laid_out a0 (ka_npid a0) (app_rights (ka_neid a0) ic vc) ics a' -> Q tt v') ->
  wp (setup_ordinary_process (ka_npid a0) name) Q v.
Proof.
  intros [Hpids Hroom Hlive [Hi1 Hi2] [Hi3 Hix] Hf [Hv1 Hv2] [Hv3 Hvx]] Hn1 Hn2 Hk Hs He HQ.
  assert (forall q, is_Some (ka_procs a0 !! q) -> q < ka_npid a0) as Hlt by (intros q [x Hq]; exact (Hpids q x Hq)).
  destruct (ka_find_Some _ _ _ Hf) as (vx & Hvx' & _).
  assert (1 <> ka_npid a0 /\ vp <> ka_npid a0) as [H1 Hvp]
    by (pose proof (Hlt 1 Hlive); pose proof (Hlt vp (mk_is_Some _ _ Hvx')); lia).
  unfold setup_ordinary_process. apply wp_bind. eapply wp_stage_grant; [exact Hk|exact Hs|done|done|exact Hi1|exact Hi2|done|done|].
  intros a1 v1 r1 Hk1 He1 Hs1. apply wp_bind. unfold grant_vfs_capability_to_process, find_vfs_service_pid.
  apply wp_bind, wp_get. rewrite (knows_find _ _ _ Hk1), (sg_procs _ _ _ _ _ Hs1), ka_find_insert, Hf; [|exact Hlt|done].
  apply wp_bind. eapply wp_stage_grant; [exact Hk1|exact Hs1|done|done|exact Hv1|exact Hv2|done|done|].
  intros a2 v2 r2 Hk2 He2 Hs2. apply wp_ret, wp_bind.
  eapply wp_stage_create; [exact Hk2|exact Hs2|done|lia|]. intros a3 v3 Hk3 He3 Hs3.
  replace (ka_neid a2) with (ka_neid a0 + 2) in Hs3 by lia. apply wp_bind.
  eapply wp_response; [exact Hk3|exact Hs3|done|exact Hi1|done|lia|]. intros a4 v4 Hk4 Hl4 Hp4 Hh4.
  apply wp_bind. unfold grant_identity_capability_to_process, find_identity_service_pid_internal.
  rewrite (proj2 (String.eqb_neq _ _) Hn2). apply wp_bind, wp_get.
  destruct (find_service_pid (sv_system v4) "identity") as [ip|]; [|apply wp_ret, wp_ret; by eapply HQ].
  apply wp_bind. eapply wp_mono; [by apply wp_grant_any|]. intros r5 v5 (a5 & Hk5 & Ha5). apply wp_ret, wp_ret.
  eapply HQ; [exact Hk5|]. by eapply laid_out_adds.
Qed.

(** Neither the trackers nor the console are part of the view. *)
Lemma knows_mod a v v' :
  sv_system v' = sv_system v -> sv_init_spawned v' = sv_init_spawned v -> sv_pingpong v' = sv_pingpong v ->
  knows a v -> knows a v'.
Proof. unfold knows. by intros -> -> ->. Qed.

Lemma wp_endpoints a0 name a v (Q : unit -> Sup -> Prop) :
  knows a v -> stage a0 (ka_npid a0) name [] a -> 0 <= ka_neid a0 < 2 ^ 64 - 3 -> ka_neid a = ka_neid a0 ->
  (forall a' v', knows a' v' -> ka_neid a' = ka_neid a0 + 2 ->
     stage a0 (ka_npid a0) name [(OT_Endpoint, ka_neid a0, full, 0); (OT_Endpoint, ka_neid a0 + 1, full, 0)] a' -> Q tt v') ->
  wp (setup_process_endpoints (ka_npid a0)) Q v.
Proof.
  intros Hk Hs Hr He HQ. unfold setup_process_endpoints.
  apply wp_bind. eapply wp_stage_create; [exact Hk|exact Hs|done|lia|]. intros a1 v1 Hk1 He1 Hs1.
  apply wp_bind. eapply wp_stage_create; [exact Hk1|exact Hs1|done|lia|]. intros a2 v2 Hk2 He2 Hs2.
  apply wp_ret. eapply HQ; [exact Hk2|lia|]. rewrite He1, He in Hs2. exact Hs2.
Qed.

Lemma wp_setup a0 name a v vp ics vcs ic vc (Q : unit -> Sup -> Prop) :
  services_up a0 vp ics vcs ic vc -> app_name name = true ->
  knows a v -> stage a0 (ka_npid a0) name [(OT_Endpoint, ka_neid a0, full, 0); (OT_Endpoint, ka_neid a0 + 1, full, 0)] a ->
  ka_neid a = ka_neid a0 + 2 ->
  (forall a' v', knows a' v' -> laid_out a0 (ka_npid a0) (app_rights (ka_neid a0) ic vc) ics a' -> Q tt v') ->
  wp (setup_process_capabilities (ka_npid a0) name) Q v.
Proof.
  intros Hsu Hn Hk Hs He HQ. unfold app_name in Hn. apply negb_true_iff in Hn. simpl in Hn.
  repeat match type of Hn with (_ || _)%bool = false => apply orb_false_iff in Hn as [? Hn] end.
  unfold setup_process_capabilities. apply wp_bind. unfold setup_role. apply wp_bind, wp_get.
  destruct Hk as (Hv & Hi & Hp).
  repeat match goal with E : (name =? _)%string = false |- _ => rewrite E end. rewrite Hi.
  eapply wp_ordinary; [exact Hsu|by apply String.eqb_neq|by apply String.eqb_neq|by split_and!|exact Hs|exact He|].
  intros a' v' Hk' Hl'. by repeat apply wp_ret; eapply HQ.
Qed.

Lemma wp_complete_spawn name binary a v vp ics vcs ic vc :
  app_name name = true -> knows a v -> services_up a vp ics vcs ic vc ->
  wp (complete_spawn name binary) (fun pid v' => pid = ka_npid a /\
    exists a', knows a' v' /\ laid_out a pid (app_rights (ka_neid a) ic vc) ics a') v.
Proof.
  intros Hn Hk Hsu. pose proof (su_room _ _ _ _ _ _ Hsu) as Hroom.
  unfold complete_spawn, wallclock, register_process_for_spawn, on_tracker.
  apply wp_bind. eapply wp_sys; [reflexivity|]. apply wp_bind, wp_get.
  destruct (start_spawn name _ _) as [request_id tracker]. do 2 (apply wp_bind, wp_mod).
  apply wp_bind, wp_bind. eapply wp_mono; [apply (wp_register name a); exact Hk|].
  intros pid v1 [-> Hk1]. apply wp_bind. eapply wp_endpoints; [exact Hk1|apply stage_new|lia|done|].
  intros a2 v2 Hk2 He2 Hs2. apply wp_ret, wp_bind, wp_mod, wp_bind.
  eapply wp_setup; [exact Hsu|done|by eapply knows_mod; [..|exact Hk2]|exact Hs2|done|].
  intros a3 v3 Hk3 Hl3. apply wp_bind, wp_mod, wp_bind. destruct Hk3 as (Hv3 & Hi3 & Hp3). injection Hv3 as Ha3 Hr3.
  eapply wp_sys; [unfold on_hal, spawn_with_pid; cbn [up_tracker sv_system]; rewrite Hr3; reflexivity|].
  apply wp_bind, wp_mod, wp_bind. unfold on_process_spawned. apply wp_bind, wp_get. cbn. rewrite Hp3. cbn.
  unfold write_console. apply wp_mod, wp_ret. split; [done|]. exists a3. split; [|done].
  unfold knows, view. cbn. rewrite Hi3, Hp3. split_and!; try done. by rewrite <- Ha3.
Qed.
End spawn.
