(* ===== verification/SupLive.v ===== *)
(** * Text of debug messages

    Messages made of ASCII pieces separated by colons, as the supervisor reads
    them. *)
From S2P Require Import Prelude StrLib Bridge.

Local Open Scope string_scope.
Local Open Scope Z_scope.

Definition ascii_str (s : string) : Prop := Forall (fun b => in_range 0x00 0x7F b = true) (str_bytes s).

Lemma str_bytes_string s : String.string_of_list_byte (str_bytes s) = s.
Proof. apply String.string_of_list_byte_of_string. Qed.

Lemma str_bytes_app s1 s2 : str_bytes (s1 +:+ s2) = (str_bytes s1 ++ str_bytes s2)%list.
Proof. induction s1 as [|a s1 IH]; [done|]. exact (f_equal (cons (byte_of_ascii a)) IH). Qed.

Lemma ascii_app s1 s2 : ascii_str s1 -> ascii_str s2 -> ascii_str (s1 +:+ s2).
Proof. unfold ascii_str. rewrite str_bytes_app. by apply Forall_app_2. Qed.

Lemma ascii_utf8 s : ascii_str s -> from_utf8 (str_bytes s) = Some s.
Proof. intros Hs. unfold from_utf8. by rewrite utf8_valid_ascii, str_bytes_string. Qed.

Lemma ascii_digit (x : N) s : (x < 10)%N -> ascii_str s -> ascii_str (String (pretty_N_char x) s).
Proof.
  intros Hx Hs. unfold ascii_str, str_bytes in *. simpl. constructor; [|done].
  assert (Hall : Forall (fun n => in_range 0x00 0x7F (byte_of_ascii (pretty_N_char (N.of_nat n))) = true) (seq 0 10))
    by (by repeat constructor).
  rewrite Forall_forall in Hall. pose proof (Hall (N.to_nat x) ltac:(apply elem_of_seq; lia)) as Hn.
  by rewrite N2Nat.id in Hn.
Qed.

Lemma ascii_pretty_go (x : N) s : ascii_str s -> ascii_str (pretty_N_go x s).
Proof.
  revert s. induction (N.lt_wf_0 x) as [x _ IH]. intros s Hs.
  destruct (decide (x = 0)%N) as [->|Hz]; [by rewrite pretty_N_go_0|].
  rewrite pretty_N_go_step by lia. apply IH; [by apply N.div_lt; lia|].
  apply ascii_digit; [by apply N.mod_lt|done].
Qed.

Lemma ascii_pretty n : 0 <= n -> ascii_str (pretty n).
Proof.
  intros Hn. destruct n as [|p|p]; [by repeat constructor| |lia].
  apply (ascii_pretty_go (N.pos p) ""). constructor.
Qed.

(** Splitting at colons. *)
Lemma split_colon w s :
  str_contains_char ":" w = false -> split_char ":" (w +:+ String ":" s) = w :: split_char ":" s.
Proof.
  induction w as [|a w IH]; intros Hw; [done|]. cbn [str_contains_char] in Hw. apply orb_false_iff in Hw as [Ha Hw].
  change (String a w +:+ String ":" s) with (String a (w +:+ String ":" s)). cbn [split_char].
  by rewrite Ha, IH.
Qed.

Lemma split_no_colon w : str_contains_char ":" w = false -> split_char ":" w = [w].
Proof.
  induction w as [|a w IH]; intros Hw; [done|]. cbn [str_contains_char] in Hw. apply orb_false_iff in Hw as [Ha Hw].
  cbn [split_char]. by rewrite Ha, IH.
Qed.

(** * Polling answers every worker

    The supervisor answers the system calls of the workers in one pass over the
    mailboxes. A pass that does not panic leaves no worker waiting. *)
From S2P Require Import AxiomTypes CommitLog Hal KernelState.
From S2P Require Import KernelSyscall System SystemRefine SystemRun.
From S2P Require Import SpawnState WebHal WebSupervisor SpawnCaps SupDispatch SupRun SpawnProps.

Local Open Scope Z_scope.

(** ** Workers that wait *)
Definition waiting (h : WebHal) (pid : Z) : Prop :=
  exists p, wb_processes h !! pid = Some p /\ pending_of (pid, p) <> None.

Lemma pending_of_spec pid p :
  pending_of (pid, p) <> None <-> wp_alive p = true /\ wp_worker_id p <> 0 /\ mb_status (wp_mailbox p) = STATUS_PENDING.
Proof.
  unfold pending_of. destruct (wp_alive p); [|naive_solver]. simpl.
  destruct (Z.eqb_spec (wp_worker_id p) 0); [naive_solver|].
  destruct (Z.eqb_spec (mb_status (wp_mailbox p)) STATUS_PENDING); naive_solver.
Qed.

Lemma waiting_kept h h' pid : keeps_workers h h' -> waiting h' pid -> waiting h pid.
Proof.
  intros Hk (p' & Hp' & Hw). apply pending_of_spec in Hw as (Ha & Hw & Hs).
  destruct (Hk _ _ Hp' Hw) as (p & Hp & Ew & Ea & Es). exists p. split; [done|]. apply pending_of_spec. by rewrite Ea, Ew, Es.
Qed.

Section live.
Context `{Target} `{HashOrder}.

Lemma waiting_polled h pid : waiting h pid <-> pid ∈ psc_pid <$> hal_poll_syscalls h.
Proof.
  unfold hal_poll_syscalls. rewrite list_elem_of_fmap. split.
  - intros (p & Hp & Hw). destruct (pending_of (pid, p)) as [c|] eqn:E; [|done]. exists c. split.
    + unfold pending_of in E. by repeat case_match; simplify_eq.
    + apply list_elem_of_omap. exists (pid, p). split; [|done]. rewrite iter_order_perm. by apply elem_of_btree_iter.
  - intros (c & -> & (x & Hx & E)%list_elem_of_omap). rewrite iter_order_perm in Hx.
    destruct x as [q p]. apply elem_of_btree_iter in Hx. exists p.
    assert (psc_pid c = q) as -> by (unfold pending_of in E; by repeat case_match; simplify_eq). by rewrite E.
Qed.

Lemma not_waiting_polled h : (forall pid, ~ waiting h pid) -> hal_poll_syscalls h = [].
Proof.
  intros Hn. destruct (hal_poll_syscalls h) as [|c l] eqn:E; [done|]. destruct (Hn (psc_pid c)).
  apply waiting_polled. rewrite E. by left.
Qed.

(** The answer takes the worker out of the waiting. *)
Lemma waiting_complete pid result h q : waiting (hal_complete_syscall pid result h) q -> q <> pid /\ waiting h q.
Proof.
  intros (p' & Hp' & Hw). unfold hal_complete_syscall, with_worker in Hp'.
  destruct (decide (q = pid)) as [->|Hne].
  - destruct (wb_processes h !! pid) as [p|] eqn:E; [|by rewrite E in Hp'].
    apply pending_of_spec in Hw as (Ha & Hw & Hs). destruct (Z.eqb_spec (wp_worker_id p) 0) as [E0|E0].
    + by simplify_eq.
    + simpl in Hp'. rewrite lookup_insert_eq in Hp'. by injection Hp' as <-.
  - split; [done|]. exists p'. split; [|done]. destruct (wb_processes h !! pid) as [p|]; [|done].
    destruct (wp_worker_id p =? 0); [done|]. simpl in Hp'. by rewrite lookup_insert_ne in Hp'.
Qed.

Notation hal_of v := (hal (kernel (sv_system v))).

Lemma answer_waiting c v x v' q : answer_syscall c v = Some (x, v') -> waiting (hal_of v') q -> q <> psc_pid c.1 /\ waiting (hal_of v) q.
Proof.
  destruct c as [c data]. unfold answer_syscall, mbind, SM_bind.
  destruct (process_syscall_internal (psc_pid c) (psc_num c) (psc_args c) data v) as [[r v1]|] eqn:E; [|done].
  unfold hal_do, sys, on_hal. intros [= _ <-] Hq. simpl in Hq. apply waiting_complete in Hq as [Hne Hq]. split; [done|].
  eapply waiting_kept; [|exact Hq]. exact (rel_syscall workers_kept _ _ _ _ v r v1 E).
Qed.

Lemma answers_waiting l v x v' q :
  sfor l answer_syscall v = Some (x, v') -> waiting (hal_of v') q -> q ∉ (fun c => psc_pid c.1) <$> l /\ waiting (hal_of v) q.
Proof.
  revert v. induction l as [|c l IH]; intros v E Hq; cbn [sfor] in E.
  - injection E as _ <-. split; [apply not_elem_of_nil|done].
  - unfold mbind, SM_bind in E. destruct (answer_syscall c v) as [[y v1]|] eqn:E1; [|done].
    destruct (IH v1 E Hq) as [Hn Hw]. destruct (answer_waiting _ _ _ _ _ E1 Hw) as [Hne Hw'].
    split; [|done]. rewrite fmap_cons, elem_of_cons. naive_solver.
Qed.

Lemma poll_waiting v n v' : poll_syscalls v = Some (n, v') -> hal_poll_syscalls (hal_of v') = [].
Proof.
  intros E. unfold poll_syscalls, sget, mbind, SM_bind in E. apply not_waiting_polled. intros q Hq.
  set (calls := (fun s => (s, hal_read_syscall_data (psc_pid s) (hal_of v))) <$> hal_poll_syscalls (hal_of v)) in *.
  destruct (sfor calls answer_syscall v) as [[x1 v1]|] eqn:E1; [|done].
  destruct (sv_progress_pingpong v1) as [[x2 v2]|] eqn:E2; [|done].
  destruct (check_spawn_timeouts v2) as [[x3 v3]|] eqn:E3; [|done]. injection E as _ <-.
  assert (waiting (hal_of v1) q) as Hq1.
  { eapply waiting_kept; [exact (rel_progress workers_kept v1 x2 v2 E2)|].
    eapply waiting_kept; [exact (rel_timeouts workers_kept v2 x3 v3 E3)|done]. }
  destruct (answers_waiting _ _ _ _ _ E1 Hq1) as [Hn Hw]. apply Hn.
  apply waiting_polled in Hw. subst calls. rewrite <- list_fmap_compose. exact Hw.
Qed.

(** ** Computations that do not panic *)
Definition total {T : Type} (m : SM T) : Prop := forall v, m v <> None.

Lemma total_ret {T} (x : T) : total (mret x).
Proof. done. Qed.

Lemma total_bind {A B} (m : SM A) (k : A -> SM B) : total m -> (forall x, total (k x)) -> total (m ≫= k).
Proof.
  intros Hm Hk v. unfold mbind, SM_bind. specialize (Hm v). destruct (m v) as [[x v1]|]; [apply Hk|done].
Qed.

Lemma total_sget : total sget.
Proof. done. Qed.

Lemma total_smod f : total (smod f).
Proof. done. Qed.

Lemma total_sys {T} (f : System WebHal -> T * System WebHal) : total (sys f).
Proof. intros v. unfold sys. by destruct (f _). Qed.

Lemma total_sfor {A} (l : list A) (f : A -> SM unit) : (forall x, x ∈ l -> total (f x)) -> total (sfor l f).
Proof.
  induction l as [|x l IH]; intros Hf; [done|]. cbn [sfor].
  apply total_bind; [apply Hf; by left|]. intros _. apply IH. intros y Hy. apply Hf. by right.
Qed.

Lemma total_progress : total sv_progress_pingpong.
Proof. intros v. unfold sv_progress_pingpong. by destruct (progress_pingpong_test _ _ _). Qed.
End live.

#[export] Hint Resolve total_ret total_sget total_smod total_sys total_progress : sup.

Ltac total_tac :=
  repeat first
    [ match goal with |- forall _, _ => intro end
    | solve [eauto 2 with sup nocore]
    | match goal with
      | |- total (mbind _ _) => apply total_bind
      | |- total (sfor _ _) => apply total_sfor
      | |- total (match ?x with _ => _ end) => destruct x
      end ].

Section answers.
Context `{Target} `{HashOrder}.

(** The calls in which the supervisor or the kernel cannot panic: all but debug
    and console output, spawning, and the writes to the storage and the key store. *)
Definition never_panics (num : Z) : bool := negb (existsb (Z.eqb num) [0x01; 0x07; 0x17; 0x71; 0x81]).

Lemma kernel_fn_never_panics num sender args data ts (k : KernelCore WebHal) :
  never_panics num = true -> execute_syscall_kernel_fn num sender args data ts k <> None.
Proof.
  intros Hn. unfold never_panics in Hn. apply negb_true_iff in Hn. cbn [existsb] in Hn.
  repeat match type of Hn with (_ || _)%bool = false => apply orb_false_iff in Hn as [? Hn] end.
  repeat match goal with E : (num =? _) = false |- _ => apply Z.eqb_neq in E end.
  unfold execute_syscall_kernel_fn, execute_process_syscall.
  repeat match goal with |- (if ?b then _ else _) <> None => destruct b eqn:? end; try done.
  - zeq. lia.
  - unfold execute_storage_syscall. repeat (case_match; try done).
  - unfold execute_keystore_syscall. repeat (case_match; try done).
Qed.

Lemma total_gateway pid num args data : never_panics num = true -> total (gateway pid num args data).
Proof.
  intros Hn v. unfold gateway. destruct args as [[a0 a1] a2].
  destruct (uptime_nanos (sv_system v)) as [t s1] eqn:Eu.
  destruct (execute_syscall_kernel_fn num pid (a0, a1, a2, 0) data t (kernel s1)) as [[[[res cts] d] k]|] eqn:Ek;
    [|by apply kernel_fn_never_panics in Ek].
  destruct (get_syscall_rich_result pid num (a0, a1, a2, 0) res t k) as [[[rich md] more] k2] eqn:Er.
  destruct (process_syscall_exact _ _ _ _ _ _ _ _ _ _ _ _ _ _ _ Eu Ek Er) as (s2 & E2 & _). by rewrite E2.
Qed.

Lemma total_syscall pid num args data : never_panics num = true -> total (process_syscall_internal pid num args data).
Proof.
  intros Hn. unfold process_syscall_internal. apply total_bind; [apply total_sget|]. intros v.
  destruct (get_process _ pid); [|apply total_ret].
  destruct (Z.eqb_spec num SV_SYS_DEBUG) as [->|_]; [done|].
  destruct (Z.eqb_spec num SV_SYS_EXIT) as [->|_].
  - unfold handle_sys_exit, kill_process_direct, kill_process_via_init, hal_kill, cleanup_process_state, sup_send.
    apply total_bind; [by apply total_gateway|]. total_tac.
  - destruct (Z.eqb_spec num SV_SYS_CONSOLE_WRITE) as [->|_]; [done|].
    unfold hal_do. apply total_bind; [by apply total_gateway|]. total_tac.
Qed.

Lemma total_poll v :
  Forall (fun c => never_panics (psc_num c) = true) (hal_poll_syscalls (hal (kernel (sv_system v)))) -> poll_syscalls v <> None.
Proof.
  intros Hf. rewrite Forall_forall in Hf. unfold poll_syscalls, mbind at 1, SM_bind at 1, sget at 1.
  apply total_bind; [|intros; unfold check_spawn_timeouts, wallclock, cleanup_failed_spawn, kill_process_direct,
    kill_process_via_init, hal_kill, cleanup_process_state, sup_send; total_tac].
  apply total_sfor. intros [c data] Hc. apply list_elem_of_fmap in Hc as (c' & [= -> ->] & Hc').
  unfold answer_syscall, hal_do. apply total_bind; [by apply total_syscall, Hf|]. total_tac.
Qed.
End answers.
