(* ===== verification/WorkerIpc.v ===== *)
(** * Processes in the browser

    The host functions of a process that runs in a worker (web/src/workers/mailbox.ts)
    over the supervisor: a system call writes the request into the mailbox, the
    supervisor's poll answers it, and the worker takes the result. *)
From S2P Require Import Prelude StrLib AxiomTypes CommitLog Hal KernelState.
From S2P Require Import KernelIpc KernelFun System SystemRun.
From S2P Require Import Bridge SpawnState WebHal ProcessLib WebSupervisor SpawnCaps SupDispatch SupRun SpawnProps SupLive.

Local Open Scope Z_scope.

Notation hal_of v := (hal (kernel (sv_system v))).

Section worker.
Context `{Target} `{HashOrder}.

(** The supervisor with the mailbox of a worker changed. *)
Definition at_mailbox (pid : Z) (f : Mailbox -> Mailbox) (v : Sup) : Sup :=
  up_system (set_kernel (set_hal (with_worker pid (on_mailbox f) (hal_of v)) (kernel (sv_system v))) (sv_system v)) v.

Definition mailbox_of (pid : Z) (v : Sup) : option Mailbox := wp_mailbox <$> wb_processes (hal_of v) !! pid.

(** The call returns once the worker finds its mailbox answered; a worker that is
    gone by then, or whose mailbox is not answered, does not come back. *)
Definition worker_syscall (pid num a1 a2 a3 : Z) (v : Sup) : option (Z * Sup) :=
  match poll_syscalls (at_mailbox pid (worker_call num a1 a2 a3) v) with
  | Some (_, v1) =>
      match mailbox_of pid v1 with
      | Some m => if mb_status m =? STATUS_READY then Some (mb_result m, at_mailbox pid (set_mb_status STATUS_IDLE) v1) else None
      | None => None
      end
  | None => None
  end.

Definition worker_host (pid : Z) : Host Sup := {|
  zos_syscall := worker_syscall pid;
  zos_send_bytes bytes := at_mailbox pid (worker_send_bytes bytes);
  zos_recv_bytes max_len v := (from_option (worker_recv_bytes max_len) [] (mailbox_of pid v), v);
  zos_yield v := v;
  zos_get_pid v := from_option worker_get_pid 0 (mailbox_of pid v) |}.

(** ** One caller *)
Lemma polled_pids l : NoDup (l.*1) -> NoDup (psc_pid <$> omap pending_of l).
Proof.
  induction l as [|[q p] l IH]; intros Hn; [constructor|].
  rewrite fmap_cons in Hn. apply NoDup_cons in Hn as [Hq Hn]. cbn [fst] in Hq.
  change (omap pending_of ((q, p) :: l)) with
    (match pending_of (q, p) with Some y => y :: omap pending_of l | None => omap pending_of l end).
  destruct (pending_of (q, p)) as [c|] eqn:E; [|by apply IH].
  rewrite fmap_cons. apply NoDup_cons. split; [|by apply IH].
  assert (psc_pid c = q) as -> by (unfold pending_of in E; by repeat case_match; simplify_eq).
  intros (c' & Hc & ([q' p'] & Hx & E')%list_elem_of_omap)%list_elem_of_fmap. apply Hq.
  assert (psc_pid c' = q') as Hq' by (unfold pending_of in E'; by repeat case_match; simplify_eq).
  apply list_elem_of_fmap. exists (q', p'). simpl. split; [congruence|done].
Qed.

Lemma list_singleton {A B} (f : A -> B) (l : list A) c :
  NoDup (f <$> l) -> c ∈ l -> (forall x, x ∈ l -> x = c) -> l = [c].
Proof.
  intros Hn Hc Hx. destruct l as [|x [|y l]]; [by apply not_elem_of_nil in Hc|by rewrite (Hx x) by left|].
  rewrite (Hx x), (Hx y) in Hn by (repeat constructor). simpl in Hn. apply NoDup_cons in Hn as [Hn _].
  destruct Hn. by left.
Qed.

(** A process whose worker runs, nobody waiting for an answer. *)
Definition worker_ready (pid : Z) (p : WorkerProcess) (v : Sup) : Prop :=
  wb_processes (hal_of v) !! pid = Some p /\ wp_alive p = true /\ wp_worker_id p <> 0 /\
  (forall q, ~ waiting (hal_of v) q) /\ sv_pingpong v = PP_Idle.

Lemma at_mailbox_processes pid p f v :
  wb_processes (hal_of v) !! pid = Some p -> wp_worker_id p <> 0 ->
  wb_processes (hal_of (at_mailbox pid f v)) = <[pid := on_mailbox f p]> (wb_processes (hal_of v)).
Proof.
  intros Hp Hw. unfold at_mailbox. simpl. unfold with_worker. rewrite Hp. by rewrite (proj2 (Z.eqb_neq _ _) Hw).
Qed.

Lemma poll_single pid p num a1 a2 a3 v :
  worker_ready pid p v ->
  hal_poll_syscalls (hal_of (at_mailbox pid (worker_call num a1 a2 a3) v)) = [mk_PendingSyscall pid num (a1, a2, a3)].
Proof.
  intros (Hp & Ha & Hw & Hn & _). set (h := hal_of (at_mailbox _ _ v)).
  assert (wb_processes h = <[pid := on_mailbox (worker_call num a1 a2 a3) p]> (wb_processes (hal_of v))) as Hh
    by (by apply at_mailbox_processes).
  assert (pending_of (pid, on_mailbox (worker_call num a1 a2 a3) p) = Some (mk_PendingSyscall pid num (a1, a2, a3))) as Hc
    by (unfold pending_of; simpl; by rewrite Ha, (proj2 (Z.eqb_neq _ _) Hw)).
  unfold hal_poll_syscalls. apply (list_singleton psc_pid).
  - apply polled_pids. rewrite iter_order_perm. apply NoDup_btree_keys.
  - apply list_elem_of_omap. exists (pid, on_mailbox (worker_call num a1 a2 a3) p). split; [|done].
    rewrite iter_order_perm. apply elem_of_btree_iter. by rewrite Hh, lookup_insert_eq.
  - intros c ([q p'] & Hx & E)%list_elem_of_omap. rewrite iter_order_perm in Hx. apply elem_of_btree_iter in Hx.
    rewrite Hh in Hx. destruct (decide (q = pid)) as [->|Hne].
    + rewrite lookup_insert_eq in Hx. injection Hx as <-. congruence.
    + rewrite lookup_insert_ne in Hx by done. destruct (Hn q). exists p'. by rewrite E.
Qed.

(** Spawns that timed out have no process left to clean up. *)
Lemma removed_failed f ids m :
  (forall p, state_pid (ps_state (f p)) = None) -> Forall (fun p => state_pid (ps_state p) = None) (remove_all f ids m).1.
Proof.
  intros Hf. revert m. induction ids as [|id ids IH]; intros m; [constructor|]. simpl.
  destruct (m !! id) as [p|]; [|apply IH]. specialize (IH (delete id m)). destruct (remove_all f ids _). by constructor.
Qed.

Lemma timeouts_exact v : exists t, check_spawn_timeouts v = Some (tt, up_tracker t v).
Proof.
  unfold check_spawn_timeouts, wallclock, mbind, SM_bind. simpl. unfold sget.
  destruct (timeout_spawns _ _) as [timed_out t] eqn:E. exists t. cbn.
  assert (Forall (fun p => state_pid (ps_state p) = None) timed_out) as Hf.
  { pose proof (removed_failed (fun p => spawn_fail (timeout_reason (wb_wallclock (hal_of v)) p) p)
      (check_timeouts (wb_wallclock (hal_of v)) (sv_tracker v)) (st_pending (sv_tracker v)) ltac:(done)) as Hf.
    unfold timeout_spawns in E. cbn in E, Hf. destruct (remove_all _ _ _) as [l m]. by injection E as <- _. }
  clear E. induction Hf as [|p l Hp _ IH]; cbn [sfor].
  - destruct v as [s]. destruct s as [ax k bt]. destruct k. reflexivity.
  - unfold mbind, SM_bind. by rewrite Hp.
Qed.

(** *** A system call of one worker *)

(** What the supervisor reads of a mailbox. *)
Definition sent (m : Mailbox) : list byte :=
  if (0 <? mb_data_len m) && (mb_data_len m <=? MAILBOX_MAX_DATA_LEN) then take (Z.to_nat (mb_data_len m)) (mb_data m) else [].

(** The mailbox after the call has returned. *)
Definition answered (num a1 a2 a3 r : Z) (d : list byte) (m : Mailbox) : Mailbox :=
  set_mb_status STATUS_IDLE (set_mb_status STATUS_READY (set_mb_result r (store_data d (worker_call num a1 a2 a3 m)))).

(** The calls that the supervisor passes on without looking at them. *)
Definition passed_on (num : Z) : bool := negb ((num =? SV_SYS_DEBUG) || (num =? SV_SYS_EXIT) || (num =? SV_SYS_CONSOLE_WRITE)).

Lemma hal_do_exact f v :
  hal_do f v = Some (tt, up_system (set_kernel (set_hal (f (hal_of v)) (kernel (sv_system v))) (sv_system v)) v).
Proof. done. Qed.

Lemma syscall_internal_exact pid num args data v proc r rich d s :
  get_process (kernel (sv_system v)) pid = Some proc -> passed_on num = true ->
  process_syscall pid num (args.1.1, args.1.2, args.2, 0) data (sv_system v) = Some ((r, rich, d), s) ->
  process_syscall_internal pid num args data v =
    Some (as_i32 r, up_system (set_kernel (set_hal (hal_write_syscall_data pid d (hal (kernel s))) (kernel s)) s) v).
Proof.
  intros Hp Hn Hs. unfold passed_on in Hn. apply negb_true_iff, orb_false_iff in Hn as [[H1 H2]%orb_false_iff H3].
  unfold process_syscall_internal, mbind, SM_bind, sget. rewrite Hp, H1, H2, H3.
  unfold gateway. destruct args as [[a0 a1] a2]. simpl in Hs. by rewrite Hs.
Qed.

Lemma progress_idle v :
  sv_pingpong v = PP_Idle ->
  exists v', sv_progress_pingpong v = Some (tt, v') /\ sv_system v' = sv_system v /\ sv_pingpong v' = PP_Idle.
Proof. intros Hp. unfold sv_progress_pingpong. rewrite Hp. by eexists. Qed.

Lemma worker_syscall_exact pid p num a1 a2 a3 v proc r rich d s :
  worker_ready pid p v -> get_process (kernel (sv_system v)) pid = Some proc -> passed_on num = true ->
  process_syscall pid num (a1, a2, a3, 0) (sent (wp_mailbox p))
    (sv_system (at_mailbox pid (worker_call num a1 a2 a3) v)) = Some ((r, rich, d), s) ->
  wb_processes (hal (kernel s)) = wb_processes (hal_of (at_mailbox pid (worker_call num a1 a2 a3) v)) ->
  exists v' h', worker_syscall pid num a1 a2 a3 v = Some (as_i32 r, v') /\ kernel (sv_system v') = set_hal h' (kernel s) /\
    wb_processes h' = <[pid := on_mailbox (answered num a1 a2 a3 (as_i32 r) d) p]> (wb_processes (hal_of v)) /\
    sv_pingpong v' = PP_Idle.
Proof.
  intros Hr Hp Hn Hs Hw. pose proof Hr as (Hp1 & Ha1 & Hw1 & Hn1 & Hpp).
  set (v1 := at_mailbox pid (worker_call num a1 a2 a3) v) in *.
  assert (wb_processes (hal_of v1) = <[pid := on_mailbox (worker_call num a1 a2 a3) p]> (wb_processes (hal_of v))) as Hv1
    by (by apply at_mailbox_processes).
  assert (hal_read_syscall_data pid (hal_of v1) = sent (wp_mailbox p)) as Hd.
  { unfold hal_read_syscall_data. rewrite Hv1, lookup_insert_eq. simpl. by rewrite (proj2 (Z.eqb_neq _ _) Hw1). }
  assert (hal_poll_syscalls (hal_of v1) = [mk_PendingSyscall pid num (a1, a2, a3)]) as Hpoll by (by apply (poll_single pid p)).
  unfold worker_syscall. fold v1. unfold poll_syscalls, mbind, SM_bind, sget. rewrite Hpoll.
  cbn [fmap list_fmap sfor psc_pid]. rewrite Hd. unfold answer_syscall at 1, mbind, SM_bind. cbn [psc_pid psc_num psc_args].
  rewrite (syscall_internal_exact pid num (a1, a2, a3) _ v1 proc r rich d s Hp Hn Hs). rewrite hal_do_exact. cbn [mret SM_ret].
  match goal with |- context [sv_progress_pingpong ?w] => set (v3 := w) end.
  destruct (progress_idle v3 Hpp) as (v4 & Hpr & Hs4 & Hp4). rewrite Hpr.
  destruct (timeouts_exact v4) as [t Ht]. rewrite Ht.
  assert (wb_processes (hal_of v4) = <[pid := on_mailbox (fun m => set_mb_status STATUS_READY (set_mb_result (as_i32 r)
    (store_data d (worker_call num a1 a2 a3 m)))) p]> (wb_processes (hal_of v))) as Hv4.
  { rewrite Hs4. unfold v3. cbn [up_system set_kernel set_hal sv_system kernel hal].
    unfold hal_complete_syscall, hal_write_syscall_data, with_worker. rewrite Hw, Hv1, lookup_insert_eq.
    cbn [on_mailbox wp_worker_id]. rewrite (proj2 (Z.eqb_neq _ _) Hw1). cbn [set_wb_processes wb_processes].
    rewrite lookup_insert_eq. cbn [on_mailbox wp_worker_id]. rewrite (proj2 (Z.eqb_neq _ _) Hw1).
    cbn [set_wb_processes wb_processes]. by rewrite !insert_insert_eq. }
  unfold mret, SM_ret, mailbox_of. cbn [up_tracker sv_system]. rewrite Hv4, lookup_insert_eq. cbn [fmap option_fmap option_map on_mailbox wp_mailbox mb_status set_mb_status].
  eexists _, (with_worker pid (on_mailbox (set_mb_status STATUS_IDLE)) (hal_of v4)).
  split; [reflexivity|]. split; [|split; [|exact Hp4]].
  - unfold at_mailbox. cbn [up_tracker sv_system up_system set_kernel kernel]. rewrite Hs4. reflexivity.
  - unfold with_worker. cbn [up_tracker sv_system]. rewrite Hv4, lookup_insert_eq. cbn [on_mailbox wp_worker_id].
    rewrite (proj2 (Z.eqb_neq _ _) Hw1). cbn [set_wb_processes wb_processes]. rewrite insert_insert_eq. reflexivity.
Qed.
End worker.

(** * Messages between processes in the browser, end to end

    The process library, the mailbox, the supervisor's poll, the dispatcher and
    the kernel composed: what one process sends, another receives. *)
From S2P Require Import KernelSpec KernelRefine.
From S2P Require Import HalRel.

Local Open Scope Z_scope.

(** ** Formats *)
Lemma len_u32 z : length (u32_to_le_bytes z) = 4%nat.
Proof. apply length_to_le_bytes. Qed.

Lemma get_u32_app z l : get_u32 0 (u32_to_le_bytes z ++ l) = z mod 2 ^ 32.
Proof.
  unfold get_u32. rewrite drop_0, take_app_length' by (by rewrite len_u32). unfold u32_to_le_bytes.
  rewrite from_to_le_bytes. reflexivity.
Qed.

Lemma get_skip (f : nat -> list byte -> Z) n l1 l2 :
  (forall off buf, f off buf = f 0%nat (drop off buf)) -> n = length l1 -> f n (l1 ++ l2) = f 0%nat l2.
Proof. intros Hf ->. by rewrite Hf, drop_app_length. Qed.

Lemma parse_cap_slots_app sls rest :
  Forall (fun z => 0 <= z < 2 ^ 32) sls ->
  parse_cap_slots (length sls) (mjoin (u32_to_le_bytes <$> sls) ++ rest) = sls.
Proof.
  induction 1 as [|z sls Hz _ IH]; [done|]. cbn [length parse_cap_slots fmap list_fmap mjoin list_join].
  rewrite <- app_assoc, get_u32_app, Z.mod_small by done. f_equal.
  rewrite drop_app_length' by (by rewrite len_u32). exact IH.
Qed.

Lemma length_slots sls : length (mjoin (u32_to_le_bytes <$> sls)) = (4 * length sls)%nat.
Proof.
  induction sls as [|z sls IH]; [done|].
  change (length (u32_to_le_bytes z ++ mjoin (u32_to_le_bytes <$> sls)) = (4 * S (length sls))%nat).
  rewrite length_app, len_u32, IH. lia.
Qed.

(** A message as the kernel writes it for a receiver. *)
Definition message_bytes (from tag : Z) (sls : list Z) (data : list byte) : list byte :=
  u32_to_le_bytes from ++ u32_to_le_bytes tag ++ [byte_of_Z (len sls)] ++ mjoin (u32_to_le_bytes <$> sls) ++ data.

Lemma length_message_bytes from tag sls data :
  length (message_bytes from tag sls data) = (9 + 4 * length sls + length data)%nat.
Proof.
  unfold message_bytes. rewrite !length_app, !len_u32. simpl.
  rewrite length_slots. lia.
Qed.

Lemma parse_message_bytes from tag sls data :
  0 <= from < 2 ^ 32 -> 0 <= tag < 2 ^ 32 -> len sls < 256 -> Forall (fun z => 0 <= z < 2 ^ 32) sls ->
  parse_message (message_bytes from tag sls data) = Ok (mk_ReceivedMessage from tag sls data).
Proof.
  intros Hf Ht Hl Hs. pose proof (length_message_bytes from tag sls data) as Hlen. unfold len in Hl.
  assert (get_u8 8 (message_bytes from tag sls data) = len sls) as H8.
  { unfold message_bytes. rewrite app_assoc.
    rewrite (get_skip get_u8 8 (u32_to_le_bytes from ++ u32_to_le_bytes tag)); [|done|by rewrite length_app, !len_u32].
    change (from_le_bytes [byte_of_Z (len sls)] = len sls). change [byte_of_Z (len sls)] with (to_le_bytes 1 (len sls)).
    rewrite from_to_le_bytes, Z.mod_small; unfold len; [done|lia]. }
  assert (get_u32 4 (message_bytes from tag sls data) = tag) as H4.
  { unfold message_bytes. rewrite (get_skip get_u32 4 (u32_to_le_bytes from)); [|done|by rewrite len_u32].
    by rewrite get_u32_app, Z.mod_small. }
  assert (get_u32 0 (message_bytes from tag sls data) = from) as H0 by (unfold message_bytes; by rewrite get_u32_app, Z.mod_small).
  unfold parse_message. rewrite H8, H4, H0. unfold len. rewrite Hlen.
  rewrite (proj2 (Z.eqb_neq _ 0)), (proj2 (Z.ltb_ge _ 9)), (proj2 (Z.ltb_ge _ _)) by lia.
  assert (drop 9 (message_bytes from tag sls data) = mjoin (u32_to_le_bytes <$> sls) ++ data) as H9.
  { unfold message_bytes. rewrite !app_assoc. rewrite <- (app_assoc _ _ data), drop_app_length'; [done|].
    by rewrite !length_app, !len_u32. }
  replace (Z.to_nat (9 + Z.of_nat (length sls) * 4)) with (9 + 4 * length sls)%nat by lia.
  rewrite <- drop_drop, H9, Nat2Z.id, parse_cap_slots_app by done. do 2 f_equal. by rewrite drop_app_length' by (symmetry; apply length_slots).
Qed.

(** ** The calls of the system *)
Section ipc.
Context `{Target} `{HashOrder}.

(** [pid] holds in [slot] a capability for the endpoint [eid] that allows [perms]. *)
Definition allowed (a : KA) (pid slot : Z) (perms : Permissions) (eid : EndpointId) : Prop :=
  exists cs c, ka_caps a !! pid = Some cs /\ slots cs !! slot = Some c /\ cap_object_type c = OT_Endpoint /\
    cap_object_id c = eid /\ perm_le perms (cap_permissions c) /\ cap_expires_at c = 0.

Lemma allowed_check (k : KernelCore WebHal) pid slot perms eid ts :
  allowed (kabs k) pid slot perms eid ->
  exists cs c, cap_spaces k !! pid = Some cs /\ axiom_check cs slot perms (Some OT_Endpoint) ts = Ok c /\ cap_object_id c = eid.
Proof.
  intros (cs & c & Hcs & Hc & Hty & Hid & Hp & Hx). exists cs, c. split_and!; [done| |done].
  apply ax_axiom_check_Ok. split_and!; [done|by intros t [= <-]|done|by left].
Qed.

Lemma ipc_send_exact (k : KernelCore WebHal) pid slot tag data ts eid o q :
  allowed (kabs k) pid slot write_only eid -> ka_eps (kabs k) !! eid = Some (o, q) ->
  exists cm k', ipc_send pid slot tag data ts k = ((Ok tt, Some cm), k') /\
    kabs k' = ka_set_ep eid o (q ++ [mk_Message pid tag data []]) (kabs k) /\ hal k' = hal k.
Proof.
  intros Ha He. destruct (allowed_check _ _ _ _ _ ts Ha) as (cs & c & Hcs & Hck & Hid).
  assert (is_Some (endpoints k !! eid)) as [e Hep] by (simpl in He; rewrite lookup_fmap in He; by destruct (endpoints k !! eid)).
  pose proof (sh_queue eid (mk_Message pid tag data []) k) as Hh. unfold ipc_send, validate_send_cap. rewrite Hcs.
  assert (axiom_check cs slot AxiomTypes.write_only (Some OT_Endpoint) ts = Ok c) as -> by exact Hck.
  simpl. rewrite Hid. destruct (queue_message eid (mk_Message pid tag data []) k) as [r k1] eqn:Eq.
  apply queue_message_abs in Eq as [(e' & _ & _ & E)|(o' & q' & -> & He' & Hk1)]; [congruence|].
  simpl in He, He'. rewrite He in He'. injection He' as <- <-.
  eexists _, _. split; [reflexivity|]. split; [by rewrite kabs_update_send_metrics, Hk1|exact Hh].
Qed.

Lemma ipc_receive_exact (k : KernelCore WebHal) pid slot ts eid o m q :
  allowed (kabs k) pid slot read_only eid -> ka_eps (kabs k) !! eid = Some (o, m :: q) ->
  exists k', ipc_receive pid slot ts k = (Ok (Some m), k') /\ kabs k' = ka_set_ep eid o q (kabs k) /\ hal k' = hal k.
Proof.
  intros Ha He. destruct (allowed_check _ _ _ _ _ ts Ha) as (cs & c & Hcs & Hck & Hid).
  simpl in He. rewrite lookup_fmap in He. destruct (endpoints k !! eid) as [e|] eqn:Hep; [|done]. injection He as Ho Hq.
  assert (validate_receive_cap k pid slot ts = Ok eid) as Hv by (unfold validate_receive_cap; by rewrite Hcs, Hck; simpl; rewrite Hid).
  pose proof (sh_receive pid slot ts k) as Hh. destruct (ipc_receive pid slot ts k) as [r k'] eqn:E. pose proof E as E'.
  apply ipc_receive_cases in E' as [[_ Hn]|(eid' & o' & m' & q' & -> & He' & Hk' & _)].
  - unfold ipc_receive in E. rewrite Hv, Hep, Hq in E. injection E as <- _. by destruct (Hn m).
  - unfold ipc_receive in E. rewrite Hv, Hep, Hq in E. injection E as <- Ek. exists k'. split_and!; [done| |done].
    rewrite <- Ek. match goal with |- kabs (set_processes (btree_update ?f ?i ?x) ?k1) = _ => 
      change (kabs (set_processes (btree_update f i (processes k1)) k1) = ka_set_ep eid o q (kabs k)) end.
    rewrite (kabs_metrics (count_received _ _) pid) by done. rewrite kabs_set_endpoint. simpl. by rewrite Ho.
Qed.

Lemma ipc_receive_none (k : KernelCore WebHal) pid slot ts eid o :
  allowed (kabs k) pid slot read_only eid -> ka_eps (kabs k) !! eid = Some (o, []) ->
  ipc_receive pid slot ts k = (Ok None, k).
Proof.
  intros Ha He. destruct (allowed_check _ _ _ _ _ ts Ha) as (cs & c & Hcs & Hck & Hid).
  simpl in He. rewrite lookup_fmap in He. destruct (endpoints k !! eid) as [e|] eqn:Hep; [|done]. injection He as _ Hq.
  unfold ipc_receive, validate_receive_cap. rewrite Hcs, Hck. simpl. by rewrite Hid, Hep, Hq.
Qed.

Lemma uptime_workers (s : System WebHal) t s1 :
  uptime_nanos s = (t, s1) -> wb_processes (hal (kernel s1)) = wb_processes (hal (kernel s)).
Proof.
  unfold uptime_nanos, System.with_hal. simpl. unfold web_now_nanos.
  destruct (wb_clock _) as [|t0 [|t1 l]]; by intros [= _ <-].
Qed.

Lemma send_syscall pid slot tag a3 data (s : System WebHal) eid o q :
  allowed (kabs (kernel s)) pid slot write_only eid -> ka_eps (kabs (kernel s)) !! eid = Some (o, q) ->
  exists s' rich, process_syscall pid SYS_SEND (slot, tag, a3, 0) data s = Some ((0, rich, []), s') /\
    kabs (kernel s') = ka_set_ep eid o (q ++ [mk_Message pid tag data []]) (kabs (kernel s)) /\
    wb_processes (hal (kernel s')) = wb_processes (hal (kernel s)).
Proof.
  intros Ha He. destruct (uptime_nanos s) as [t s1] eqn:Eu. destruct (uptime_kabs _ _ _ Eu) as [Hk _].
  rewrite <- Hk in Ha, He. destruct (ipc_send_exact _ _ _ tag data t _ _ _ Ha He) as (cm & k' & Es & Hk' & Hh).
  destruct (process_syscall_exact pid SYS_SEND (slot, tag, a3, 0) data s t s1 0 (commit_types [cm]) [] k'
    (SR_Ok 0) [] [] k' Eu) as (s' & E & Hks & _); [|done|].
  - change (execute_syscall_kernel_fn SYS_SEND pid (slot, tag, a3, 0) data t (kernel s1)) with
      (Some (execute_ipc_syscall SYS_SEND pid (slot, tag, a3, 0) data t (kernel s1))).
    unfold execute_ipc_syscall. simpl. by rewrite Es.
  - exists s', (SR_Ok 0). rewrite Hks, Hk', Hk, Hh. split_and!; [done|done|]. by apply (uptime_workers _ _ _ Eu).
Qed.

Lemma recv_syscall pid slot a2 a3 data (s : System WebHal) eid o m :
  allowed (kabs (kernel s)) pid slot read_only eid -> ka_eps (kabs (kernel s)) !! eid = Some (o, [m]) ->
  exists s' rich, process_syscall pid SYS_RECV (slot, a2, a3, 0) data s = Some ((1, rich, serialize_ipc_message m), s') /\
    kabs (kernel s') = ka_set_ep eid o [] (kabs (kernel s)) /\
    wb_processes (hal (kernel s')) = wb_processes (hal (kernel s)).
Proof.
  intros Ha He. destruct (uptime_nanos s) as [t s1] eqn:Eu. destruct (uptime_kabs _ _ _ Eu) as [Hk _].
  rewrite <- Hk in Ha, He. destruct (ipc_receive_exact _ _ _ t _ _ _ _ Ha He) as (k' & Es & Hk' & Hh).
  assert (allowed (kabs k') pid slot read_only eid) as Ha' by (rewrite Hk'; exact Ha).
  pose proof (ipc_receive_none k' pid slot t eid o Ha' ltac:(rewrite Hk'; simpl; by rewrite lookup_insert_eq)) as En.
  destruct (process_syscall_exact pid SYS_RECV (slot, a2, a3, 0) data s t s1 1 [] (serialize_ipc_message m) k'
    (SR_Ok 1) [] [] k' Eu) as (s' & E & Hks & _).
  - change (execute_syscall_kernel_fn SYS_RECV pid (slot, a2, a3, 0) data t (kernel s1)) with
      (Some (execute_ipc_syscall SYS_RECV pid (slot, a2, a3, 0) data t (kernel s1))).
    unfold execute_ipc_syscall. simpl. by rewrite Es.
  - change (format_receive_result pid (slot, a2, a3, 0) 1 t k' = ((SR_Ok 1, [], []), k')).
    unfold format_receive_result. simpl. unfold ipc_receive_with_caps. by rewrite En.
  - exists s', (SR_Ok 1). rewrite Hks, Hk', Hk, Hh. split_and!; [|done|by apply (uptime_workers _ _ _ Eu)].
    rewrite E. by destruct (serialize_ipc_message m).
Qed.

(** ** Mailboxes *)
Lemma take_overwrite d buf : take (length d) (overwrite 0 d buf) = d.
Proof. unfold overwrite. simpl. by rewrite take_app_length. Qed.

(** Bytes that fit are read back from either side. *)
Lemma sent_stored data m : len data <= MAILBOX_MAX_DATA_LEN -> sent (store_data data m) = data.
Proof.
  intros Hl. unfold sent, store_data, set_mb_data. cbn [mb_data_len mb_data]. rewrite Z.min_l by done.
  unfold len in *. rewrite Nat2Z.id, firstn_all. rewrite take_overwrite.
  destruct (Z.leb_spec (Z.of_nat (length data)) MAILBOX_MAX_DATA_LEN); [|lia].
  destruct (Z.ltb_spec 0 (Z.of_nat (length data))); [done|]. destruct data; [done|simpl in *; lia].
Qed.

(** What the supervisor writes is cut to the data area. *)
Definition mailbox_cut (data : list byte) : list byte := take (Z.to_nat MAILBOX_MAX_DATA_LEN) data.

Lemma mailbox_cut_id data : len data <= MAILBOX_MAX_DATA_LEN -> mailbox_cut data = data.
Proof. intros Hl. unfold mailbox_cut, len in *. apply take_ge. lia. Qed.

Lemma recv_stored data m : worker_recv_bytes 16384 (store_data data m) = mailbox_cut data.
Proof.
  unfold worker_recv_bytes, store_data, set_mb_data, mailbox_cut. cbn [mb_data_len mb_data].
  set (n := Z.min (len data) MAILBOX_MAX_DATA_LEN).
  assert (0 <= n <= MAILBOX_MAX_DATA_LEN) as Hn by (unfold n, len, MAILBOX_MAX_DATA_LEN; lia).
  rewrite Z.min_l by (unfold MAILBOX_MAX_DATA_LEN in *; lia).
  assert (take (Z.to_nat n) data = take (Z.to_nat MAILBOX_MAX_DATA_LEN) data) as <-.
  { destruct (Z.min_spec (len data) MAILBOX_MAX_DATA_LEN) as [[? E]|[? E]]; fold n in E; rewrite E; [|done].
    unfold len in *. rewrite !take_ge by lia. done. }
  assert (length (take (Z.to_nat n) data) = Z.to_nat n) as Hl by (rewrite length_take; unfold n, len; lia).
  rewrite <- Hl at 1. apply take_overwrite.
Qed.

(** A worker whose mailbox is not waiting adds no waiting. *)
Lemma nobody_waiting h h' pid p f :
  wb_processes h' = <[pid := on_mailbox f p]> (wb_processes h) -> mb_status (f (wp_mailbox p)) <> STATUS_PENDING ->
  (forall q, ~ waiting h q) -> forall q, ~ waiting h' q.
Proof.
  intros Hh Hs Hn q (p' & Hp & Hw). rewrite Hh in Hp. destruct (decide (q = pid)) as [->|Hne].
  - rewrite lookup_insert_eq in Hp. injection Hp as <-. by apply pending_of_spec in Hw as (_ & _ & Hw).
  - rewrite lookup_insert_ne in Hp by done. apply (Hn q). by exists p'.
Qed.

(** The bytes are in place before the call. *)
Lemma ready_send pid p v data :
  worker_ready pid p v ->
  worker_ready pid (on_mailbox (worker_send_bytes data) p) (at_mailbox pid (worker_send_bytes data) v).
Proof.
  intros (Hp & Ha & Hw & Hn & Hpp). pose proof (at_mailbox_processes pid p (worker_send_bytes data) v Hp Hw) as Hh.
  split_and!; [by rewrite Hh, lookup_insert_eq|done|done| |done].
  eapply nobody_waiting; [exact Hh| |done]. intros Hs. apply (Hn pid). exists p. split; [done|]. by apply pending_of_spec.
Qed.

(** ** The calls of the library *)
Lemma get_process_abs (k k' : KernelCore WebHal) pid proc :
  ka_procs (kabs k') = ka_procs (kabs k) -> get_process k pid = Some proc -> exists proc', get_process k' pid = Some proc'.
Proof.
  intros E Hp. assert (is_Some (ka_procs (kabs k') !! pid)) as Hs by (rewrite E; apply kabs_procs_Some; by eexists).
  by apply kabs_procs_Some in Hs as [x Hx]; eexists.
Qed.

Lemma lib_send_exact pid p v slot tag data eid o q proc :
  worker_ready pid p v -> get_process (kernel (sv_system v)) pid = Some proc ->
  allowed (kabs (kernel (sv_system v))) pid slot write_only eid ->
  ka_eps (kabs (kernel (sv_system v))) !! eid = Some (o, q) -> len data <= MAILBOX_MAX_DATA_LEN ->
  exists v' f, lib_send (H := worker_host pid) slot tag data v = Some (Ok tt, v') /\
    kabs (kernel (sv_system v')) = ka_set_ep eid o (q ++ [mk_Message pid tag data []]) (kabs (kernel (sv_system v))) /\
    wb_processes (hal_of v') = <[pid := on_mailbox f p]> (wb_processes (hal_of v)) /\
    mb_status (f (wp_mailbox p)) = STATUS_IDLE /\ sv_pingpong v' = PP_Idle.
Proof.
  intros Hr Hp Ha He Hl. pose proof (ready_send pid p v data Hr) as Hr0. pose proof Hr as (Hp1 & _ & Hw1 & _ & _).
  set (v0 := at_mailbox pid (worker_send_bytes data) v) in *.
  destruct (send_syscall pid slot tag (wrap_u32 (len data)) data
    (sv_system (at_mailbox pid (worker_call SYS_SEND slot tag (wrap_u32 (len data))) v0)) eid o q Ha He)
    as (s & rich & Es & Hk & Hws).
  destruct (worker_syscall_exact pid (on_mailbox (worker_send_bytes data) p) SYS_SEND slot tag (wrap_u32 (len data)) v0
    proc 0 rich [] s Hr0 Hp eq_refl) as (v' & h' & E & Hkv & Hwv & Hpp); [|done|].
  { cbn [on_mailbox wp_mailbox]. unfold worker_send_bytes at 1. rewrite sent_stored by done. exact Es. }
  exists v', (fun m => answered SYS_SEND slot tag (wrap_u32 (len data)) 0 [] (worker_send_bytes data m)). split_and!; [| |..|done|done].
  - unfold lib_send, call_host, send_bytes, mbind, PM_bind. cbn [zos_send_bytes zos_syscall worker_host]. fold v0. by rewrite E.
  - rewrite Hkv. exact Hk.
  - rewrite Hkv. cbn [set_hal hal]. rewrite Hwv. unfold v0. rewrite (at_mailbox_processes pid p) by done. by rewrite insert_insert_eq.
Qed.

(** The library parses what the mailbox holds of the kernel's bytes. *)
Lemma lib_receive_cut pid p v slot eid o m proc :
  worker_ready pid p v -> get_process (kernel (sv_system v)) pid = Some proc ->
  allowed (kabs (kernel (sv_system v))) pid slot read_only eid ->
  ka_eps (kabs (kernel (sv_system v))) !! eid = Some (o, [m]) ->
  exists v' f, lib_receive (H := worker_host pid) slot v = Some (parse_message (mailbox_cut (serialize_ipc_message m)), v') /\
    kabs (kernel (sv_system v')) = ka_set_ep eid o [] (kabs (kernel (sv_system v))) /\
    wb_processes (hal_of v') = <[pid := on_mailbox f p]> (wb_processes (hal_of v)) /\
    mb_status (f (wp_mailbox p)) = STATUS_IDLE /\ sv_pingpong v' = PP_Idle.
Proof.
  intros Hr Hp Ha He.
  destruct (recv_syscall pid slot 0 0 (sent (wp_mailbox p)) (sv_system (at_mailbox pid (worker_call SYS_RECV slot 0 0) v)) eid o m Ha He)
    as (s & rich & Es & Hk & Hws).
  destruct (worker_syscall_exact pid p SYS_RECV slot 0 0 v proc 1 rich (serialize_ipc_message m) s Hr Hp eq_refl Es Hws)
    as (v' & h' & E & Hkv & Hwv & Hpp).
  exists v', (answered SYS_RECV slot 0 0 (as_i32 1) (serialize_ipc_message m)).
  split; [|rewrite Hkv; split_and!; [exact Hk|exact Hwv|done|done]].
  unfold lib_receive, call_host, recv_bytes, mbind, PM_bind. cbn [zos_recv_bytes zos_syscall worker_host]. rewrite E. cbv zeta.
  change (as_i32 (as_i32 1) <=? 0) with false. cbv iota. unfold mret, PM_ret, mailbox_of. rewrite Hkv. cbn [set_hal hal]. rewrite Hwv, lookup_insert_eq.
  do 3 f_equal. apply (recv_stored (serialize_ipc_message m) (worker_call SYS_RECV slot 0 0 (wp_mailbox p))).
Qed.

Lemma lib_receive_exact pid p v slot eid o m proc :
  worker_ready pid p v -> get_process (kernel (sv_system v)) pid = Some proc ->
  allowed (kabs (kernel (sv_system v))) pid slot read_only eid ->
  ka_eps (kabs (kernel (sv_system v))) !! eid = Some (o, [m]) -> len (serialize_ipc_message m) <= MAILBOX_MAX_DATA_LEN ->
  exists v', lib_receive (H := worker_host pid) slot v = Some (parse_message (serialize_ipc_message m), v') /\
    kabs (kernel (sv_system v')) = ka_set_ep eid o [] (kabs (kernel (sv_system v))).
Proof.
  intros Hr Hp Ha He Hl. destruct (lib_receive_cut pid p v slot eid o m proc Hr Hp Ha He) as (v' & f & E & Hk & _).
  exists v'. by rewrite mailbox_cut_id in E by done.
Qed.

(** A worker stays ready when another one has made a call. *)
Lemma ready_after q p pid pw f v v' :
  worker_ready q p v -> q <> pid ->
  wb_processes (hal_of v') = <[pid := on_mailbox f pw]> (wb_processes (hal_of v)) ->
  mb_status (f (wp_mailbox pw)) = STATUS_IDLE -> sv_pingpong v' = PP_Idle -> worker_ready q p v'.
Proof.
  intros (Hq & Ha & Hw & Hn & _) Hne Hh Hs Hpp. split_and!; [by rewrite Hh, lookup_insert_ne|done|done| |done].
  eapply nobody_waiting; [exact Hh|by rewrite Hs|done].
Qed.

(** The caller itself is ready for its next call. *)
Lemma ready_again pid p f v v' :
  worker_ready pid p v -> wb_processes (hal_of v') = <[pid := on_mailbox f p]> (wb_processes (hal_of v)) ->
  mb_status (f (wp_mailbox p)) = STATUS_IDLE -> sv_pingpong v' = PP_Idle ->
  worker_ready pid (on_mailbox f p) v'.
Proof.
  intros (Hq & Ha & Hw & Hn & _) Hh Hs Hpp. split_and!; [by rewrite Hh, lookup_insert_eq|done|done| |done].
  eapply nobody_waiting; [exact Hh|by rewrite Hs|done].
Qed.

(** A message of process 0 that the supervisor sends through the system. *)
Lemma sup_send_exact slot tag data v eid o q :
  allowed (kabs (kernel (sv_system v))) 0 slot write_only eid ->
  ka_eps (kabs (kernel (sv_system v))) !! eid = Some (o, q) ->
  exists s', sup_send slot tag data v = Some (Ok tt, up_system s' v) /\
    kabs (kernel s') = ka_set_ep eid o (q ++ [mk_Message 0 tag data []]) (kabs (kernel (sv_system v))) /\
    wb_processes (hal (kernel s')) = wb_processes (hal_of v) /\ wb_requests (hal (kernel s')) = wb_requests (hal_of v).
Proof.
  intros Ha He. unfold sup_send, sys, sys_ipc_send, recorded. destruct (uptime_nanos (sv_system v)) as [t s1] eqn:Eu.
  pose proof (proj1 (uptime_kabs _ _ _ Eu)) as Hk. rewrite <- Hk in Ha, He.
  destruct (ipc_send_exact (kernel s1) 0 slot tag data t eid o q Ha He) as (cm & k' & Es & Hk' & Hh). rewrite Es.
  eexists. split; [reflexivity|]. unfold record_commits. rewrite append_commit_types_kernel. cbn [set_kernel kernel].
  rewrite Hk', Hk, Hh. split_and!; [done|by eapply uptime_workers|].
  revert Eu. unfold uptime_nanos, System.with_hal. simpl. unfold web_now_nanos.
  destruct (wb_clock _) as [|t0 [|t1 l]]; by intros [= _ <-].
Qed.
End ipc.
