(* ===== verification/SupProps.v ===== *)
(** * Properties of the supervisor

    The supervisor as a client of the system, what spawning gives, and what the
    debug channel lets any process do. *)
From S2P Require Import Prelude StrLib AxiomTypes CommitLog Hal KernelState.
From S2P Require Import KernelIpc KernelSyscall System KernelSpec KernelRefine KernelWf SystemRun KernelFun.
From S2P Require Import Bridge SpawnState WebHal WebSupervisor SpawnCaps SupDispatch SupRun SpawnProps SupLive.

Local Open Scope Z_scope.

Section props.
Context `{Target} `{HashOrder}.

(** C6: the supervisor refines the system: whatever the entry points it exports
    do (boot and spawn, polls and worker messages, input, revocations, kills,
    service requests, and the thirteen completions of storage, keystore and
    network requests), in any order and whatever the browser does to the platform
    in between, the system evolves by a sequence of calls of methods of [System] in which the supervisor
    registers no process but itself under a chosen number, sends only as process
    0, and gives out in the name of an endpoint's owner nothing but the permission
    to send, to itself or to Init; and the system's invariants hold at the end. *)
Theorem supervisor_refines_system h calls v :
  sup_run (Sup_new h) calls = Some v ->
  exists evs, strace (System_new h) evs (sv_system v) /\ forallb supervisor_event evs = true /\
    (4 * len evs <= max_steps -> kwf (kabs (kernel (sv_system v)))).
Proof.
  intros Hr. destruct (sup_run_traces _ _ _ Hr) as (evs & Ht & Hf). exists evs. split_and!; [done|done|].
  intros Hn. destruct (System_new_kwf h) as [Hwf Hb].
  eapply (strace_kwf _ _ _ Ht 0); [|done|done|lia].
  apply Forall_forall. intros ev Hev. apply supervisor_event_ok.
  eapply forallb_forall in Hf; [exact Hf|]. by apply list_elem_of_In.
Qed.

(** C19: an application that is spawned while Init and the file system run (both
    with an unexpired capability for their input that they may pass on, no latency
    test running, the browser accepting the worker) gets a fixed layout: output at
    slot 0, input at slot 1, Init's input (send only) at slot 2, the file system's
    input at slot 3, its endpoint for responses at slot 4, of which Init gets the
    permission to send in its next slot; the three endpoints belong to the
    application. A process spawned before the file system has another layout. *)
Theorem spawn_slot_layout name binary v vp ics vcs ic vc :
  app_name name = true -> knows (kabs (kernel (sv_system v))) v ->
  services_up (kabs (kernel (sv_system v))) vp ics vcs ic vc ->
  exists v' cs ics', let k := kernel (sv_system v) in let k' := kernel (sv_system v') in
    complete_spawn name binary v = Some (next_pid k, v') /\
    cap_spaces k' !! next_pid k = Some cs /\ cap_spaces k' !! 1 = Some ics' /\
    (forall i, (i < 5)%nat -> rights cs (Z.of_nat i) = app_rights (next_endpoint_id k) ic vc !! i) /\
    rights ics' (next_slot ics) = Some (OT_Endpoint, next_endpoint_id k + 2, write_only, 0) /\
    (forall i, 0 <= i < 3 -> ep_owner <$> endpoints k' !! (next_endpoint_id k + i) = Some (next_pid k)).
Proof.
  intros Hn Hk Hsu. destruct (wp_complete_spawn name binary _ v _ _ _ _ _ Hn Hk Hsu)
    as (pid & v' & E & -> & a' & (Hv' & _) & (cs & Hcs & Hr) & (ics' & Hi & Hri) & He).
  injection Hv' as Ha' _. subst a'. exists v', cs, ics'. cbn zeta. split_and!; [done|done|done| |done|].
  - intros i Hi5. rewrite Hr by (unfold len; simpl; lia). by rewrite Nat2Z.id.
  - intros i Hi3. simpl in He. specialize (He (next_endpoint_id (kernel (sv_system v)) + i) ltac:(lia)).
    rewrite !lookup_fmap in He. by destruct (endpoints _ !! _).
Qed.

(** C23: an application that is spawned while Init and the file system run, as for
    the layout above, and the file system's own capability for its input endpoint
    allows receiving, can take the messages meant for the file system: when it
    receives at slot 3, it gets the oldest message waiting at the file system's
    input, which is removed from the queue. *)
Theorem app_takes_vfs_requests name binary v vp ics vcs ic vc :
  app_name name = true -> knows (kabs (kernel (sv_system v))) v ->
  services_up (kabs (kernel (sv_system v))) vp ics vcs ic vc ->
  cap_object_type vc = OT_Endpoint -> read (cap_permissions vc) = true ->
  exists pid v', complete_spawn name binary v = Some (pid, v') /\ pid <> vp /\
    forall ts e m q, endpoints (kernel (sv_system v')) !! cap_object_id vc = Some e -> ep_pending_messages e = m :: q ->
      exists k' e', ipc_receive pid 3 ts (kernel (sv_system v')) = (Ok (Some m), k') /\
        endpoints k' !! cap_object_id vc = Some e' /\ ep_pending_messages e' = q.
Proof.
  intros Hn Hk Hsu Hty Hread. destruct (wp_complete_spawn name binary _ v _ _ _ _ _ Hn Hk Hsu)
    as (pid & v' & E & -> & a' & (Hv' & _) & (cs & Hcs & Hr) & _).
  injection Hv' as Ha' _. subst a'. eexists _, v'. split; [exact E|]. split.
  { destruct (ka_find_Some _ _ _ (su_find _ _ _ _ _ _ Hsu)) as (x & Hx & _).
    pose proof (su_pids _ _ _ _ _ _ Hsu vp x Hx). simpl in *. lia. }
  intros ts e m q He Hq.
  destruct (receive_exact (ka_npid (kabs (kernel (sv_system v)))) 3 ts (kernel (sv_system v')) (cap_object_id vc) e m q)
    as (k' & e' & Hrecv & _ & He' & Hq'); [|done|done|by exists k', e'].
  specialize (Hr 3 ltac:(done)). unfold rights, validate_receive_cap in *. simpl in Hcs, Hr |- *. rewrite Hcs.
  destruct (slots cs !! 3) as [c|] eqn:Hc; [|done]. injection Hr as Ht Ho Hp Hx.
  rewrite (proj2 (ax_axiom_check_Ok cs 3 read_only (Some OT_Endpoint) ts c)); [simpl; by rewrite Ho|].
  split_and!; [done|intros t [= <-]; congruence| |left; rewrite Hx; apply (su_vfs_cap _ _ _ _ _ _ Hsu)].
  rewrite Hp. unfold perm_le. simpl. by rewrite Hread.
Qed.

(** ** The debug channel *)

(** The call that carries a debug message changes nothing in the kernel. *)
Lemma gateway_debug pid data v :
  exists s', gateway pid SV_SYS_DEBUG (0, 0, 0) data v = Some ((0, []), up_system s' v) /\
    kabs (kernel s') = kabs (kernel (sv_system v)).
Proof.
  destruct (uptime_nanos (sv_system v)) as [t s1] eqn:Eu.
  destruct (process_syscall_exact pid SV_SYS_DEBUG (0, 0, 0, 0) data (sv_system v) t s1 0 [] [] (kernel s1)
    (SR_Ok 0) [] [] (kernel s1) Eu) as (s' & E & Hk & _); [done|done|].
  exists s'. unfold gateway. rewrite E. split; [done|]. rewrite Hk. by apply (uptime_kabs _ _ _ Eu).
Qed.

(** Debug messages that are text. *)
Lemma wp_debug pid msg v (Q : Z -> Sup -> Prop) :
  ascii_str msg ->
  (forall s, kabs (kernel s) = kabs (kernel (sv_system v)) ->
     wp (dispatch_debug_message pid msg) (fun _ v' => forall v'',
       kabs (kernel (sv_system v'')) = kabs (kernel (sv_system v')) -> Q 0 v'') (up_system s v)) ->
  wp (handle_sys_debug pid (str_bytes msg)) Q v.
Proof.
  intros Ha Hd. destruct (gateway_debug pid (str_bytes msg) v) as (s' & E & Hk).
  unfold handle_sys_debug. apply wp_bind. exists (0, []), (up_system s' v). split; [exact E|].
  apply wp_bind. rewrite (ascii_utf8 _ Ha). eapply wp_mono; [by apply Hd|]. intros [] v' HQ.
  apply wp_bind. unfold hal_do. eapply wp_sys; [reflexivity|]. apply wp_ret. by apply HQ.
Qed.

Definition grant_message (tgt slot p : Z) : string :=
  INIT_GRANT +:+ pretty tgt +:+ ":" +:+ pretty slot +:+ ":" +:+ pretty p.

Lemma grant_message_parses pid tgt slot p :
  0 <= tgt < 2 ^ 64 -> 0 <= slot < 2 ^ 32 -> 0 <= p < 2 ^ 8 ->
  ascii_str (grant_message tgt slot p) /\
  dispatch_debug_message pid (grant_message tgt slot p) =
  (sys (sys_grant_capability 1 slot tgt (mk_Permissions (negb (Z.land p 0x01 =? 0)) (negb (Z.land p 0x02 =? 0))
     (negb (Z.land p 0x04 =? 0)))) ;; mret tt).
Proof.
  intros Ht Hs Hp. destruct (pretty_uint 64 tgt) as [Pt Ct]; [lia|done|].
  destruct (pretty_uint 32 slot) as [Ps Cs]; [lia|done|]. destruct (pretty_uint 8 p) as [Pp Cp]; [lia|done|]. split.
  - repeat apply ascii_app; try (apply ascii_pretty; lia); by repeat constructor.
  - change (dispatch_debug_message pid (grant_message tgt slot p)) with (handle_init_grant (grant_message tgt slot p)).
    unfold handle_init_grant.
    change (str_drop 11 (grant_message tgt slot p)) with (pretty tgt +:+ String ":" (pretty slot +:+ String ":" (pretty p))).
    rewrite !split_colon, split_no_colon by done. by rewrite Pt, Ps, Pp.
Qed.

(** The debug channel bypasses the capability system: a debug message
    [INIT:GRANT:{target}:{slot}:{permissions}] of any process makes the supervisor
    give the target a capability for whatever Init holds in that slot, although
    the sender holds nothing; the supervisor does not look at who sent it. *)
Theorem debug_grants_init_capability pid args tgt slot p v proc ics c tcs :
  get_process (kernel (sv_system v)) pid = Some proc ->
  cap_spaces (kernel (sv_system v)) !! 1 = Some ics -> slots ics !! slot = Some c ->
  grant (cap_permissions c) = true -> cap_expires_at c = 0 ->
  cap_spaces (kernel (sv_system v)) !! tgt = Some tcs ->
  0 <= tgt < 2 ^ 64 -> 0 <= slot < 2 ^ 32 -> 0 <= p < 2 ^ 8 ->
  exists v' tcs', process_syscall_internal pid SV_SYS_DEBUG args (str_bytes (grant_message tgt slot p)) v = Some (0, v') /\
    cap_spaces (kernel (sv_system v')) !! tgt = Some tcs' /\
    rights tcs' (next_slot tcs) = Some (cap_object_type c, cap_object_id c,
      attenuate_permissions (cap_permissions c) (mk_Permissions (negb (Z.land p 0x01 =? 0)) (negb (Z.land p 0x02 =? 0))
        (negb (Z.land p 0x04 =? 0))), 0).
Proof.
  intros Hproc Hi Hc Hg Hx Ht Rt Rs Rp. destruct (grant_message_parses pid tgt slot p Rt Rs Rp) as [Ha Hd].
  assert (wp (handle_sys_debug pid (str_bytes (grant_message tgt slot p))) (fun x v' => x = 0 /\ exists tcs',
    ka_caps (kabs (kernel (sv_system v'))) !! tgt = Some tcs' /\ rights tcs' (next_slot tcs) =
      Some (cap_object_type c, cap_object_id c, attenuate_permissions (cap_permissions c)
        (mk_Permissions (negb (Z.land p 0x01 =? 0)) (negb (Z.land p 0x02 =? 0)) (negb (Z.land p 0x04 =? 0))), 0)) v)
    as (x & v' & E & -> & tcs' & H1 & H2).
  - apply wp_debug; [done|]. intros s Hs. rewrite Hd. apply wp_bind.
    destruct (grant_view 1 slot tgt (mk_Permissions (negb (Z.land p 0x01 =? 0)) (negb (Z.land p 0x02 =? 0))
      (negb (Z.land p 0x04 =? 0))) s _ _ ics c tcs eq_refl) as (s' & E & Hv); [by rewrite Hs|done|done|done|by rewrite Hs|].
    eapply wp_sys; [exact E|]. apply wp_ret. intros v'' Hk''. split; [done|]. rewrite Hk''. cbn [up_system sv_system].
    rewrite (f_equal fst Hv : kabs (kernel s') = _). eexists. simpl. rewrite lookup_insert_eq. split; [done|].
    unfold rights. simpl. rewrite lookup_insert_eq. unfold right_of. simpl. by rewrite Hx.
  - exists v', tcs'. split; [|done]. unfold process_syscall_internal, mbind, SM_bind, sget. by rewrite Hproc.
Qed.
End props.

(** ** A running system *)
#[local] Existing Instance wasm32.

(** The supervisor after the boot, with Init, the file system and an application. *)
Definition demo_calls : list scall :=
  [C_boot; C_complete_spawn "init" []; C_complete_spawn "vfs" []; C_complete_spawn "app" []].

(** The same run, in which the file system's read of the root is answered. *)
Definition demo_storage_calls : list scall :=
  (demo_calls ++ [C_platform (fun h => (requested (do_storage_read_async 2 "inode:/") h).2);
     C_storage_read 1 [x2a]])%list.

Definition demo : Sup :=
  match sup_run (Sup_new (WebHal_new [0] 1000)) demo_calls with
  | Some v => v
  | None => Sup_new (WebHal_new [0] 1000)
  end.

Definition demo_cspace (pid : ProcessId) : CapabilitySpace :=
  default CapabilitySpace_new (cap_spaces (kernel (sv_system demo)) !! pid).

Definition demo_cap (pid : ProcessId) (slot : CapSlot) : Capability :=
  default (endpoint_cap 0 0) (slots (demo_cspace pid) !! slot).

Definition demo_storage : Sup :=
  match sup_run (Sup_new (WebHal_new [0] 1000)) demo_storage_calls with
  | Some v => v
  | None => Sup_new (WebHal_new [0] 1000)
  end.

(** The completion reaches Init's queue. *)
Lemma demo_storage_routed :
  existsb (fun e => existsb (fun m => msg_tag m =? MSG_SUPERVISOR_IPC_DELIVERY) (ep_pending_messages e))
    (map snd (map_to_list (endpoints (kernel (sv_system demo_storage))))) = true.
Proof. vm_compute. reflexivity. Qed.

Lemma supervisor_refines_system_witness :
  exists evs, strace (System_new (WebHal_new [0] 1000)) evs (sv_system demo_storage) /\ forallb supervisor_event evs = true /\
    (4 * len evs <= max_steps -> kwf (kabs (kernel (sv_system demo_storage)))).
Proof. apply (supervisor_refines_system _ demo_storage_calls). vm_compute. reflexivity. Defined.

Lemma demo_knows : knows (kabs (kernel (sv_system demo))) demo.
Proof. split_and!; vm_compute; reflexivity. Qed.

Lemma demo_services : services_up (kabs (kernel (sv_system demo))) 2 (demo_cspace 1) (demo_cspace 2) (demo_cap 1 1) (demo_cap 2 1).
Proof.
  split; try (split; vm_compute; reflexivity); try (vm_compute; reflexivity).
  - apply (bool_decide_unpack _). vm_compute. exact I.
  - vm_compute. split; [discriminate|reflexivity].
  - vm_compute. by eexists.
Qed.

Lemma spawn_slot_layout_witness :
  app_name "calculator" = true /\ exists v', complete_spawn "calculator" [] demo = Some (4, v').
Proof.
  split; [reflexivity|].
  destruct (spawn_slot_layout "calculator" [] demo 2 (demo_cspace 1) (demo_cspace 2) (demo_cap 1 1) (demo_cap 2 1)
    eq_refl demo_knows demo_services) as (v' & cs & ics' & E & _). by exists v'.
Defined.

(** A request of process 3 waits at the file system's input. *)
Definition demo_waiting : Sup := up_system (sys_ipc_send 3 3 0x6000 [x01; x02] (sv_system demo)).2 demo.

Definition waiting_cap : Capability := demo_cap 2 1.

Lemma demo_waiting_knows : knows (kabs (kernel (sv_system demo_waiting))) demo_waiting.
Proof. split_and!; vm_compute; reflexivity. Qed.

Lemma demo_waiting_services :
  services_up (kabs (kernel (sv_system demo_waiting))) 2 (demo_cspace 1) (demo_cspace 2) (demo_cap 1 1) waiting_cap.
Proof.
  split; try (split; vm_compute; reflexivity); try (vm_compute; reflexivity).
  - apply (bool_decide_unpack _). vm_compute. exact I.
  - vm_compute. split; [discriminate|reflexivity].
  - vm_compute. by eexists.
Qed.

Lemma demo_waiting_queue :
  match complete_spawn "calculator" [] demo_waiting with
  | Some (_, v') => ep_pending_messages <$> endpoints (kernel (sv_system v')) !! cap_object_id waiting_cap
  | None => None
  end = Some [mk_Message 3 0x6000 [x01; x02] []].
Proof. vm_compute. reflexivity. Qed.

(** The new application takes the request of process 3. *)
Lemma app_takes_vfs_requests_witness :
  exists pid v' k', complete_spawn "calculator" [] demo_waiting = Some (pid, v') /\
    ipc_receive pid 3 0 (kernel (sv_system v')) = (Ok (Some (mk_Message 3 0x6000 [x01; x02] [])), k').
Proof.
  destruct (app_takes_vfs_requests "calculator" [] demo_waiting 2 (demo_cspace 1) (demo_cspace 2) (demo_cap 1 1) waiting_cap
    eq_refl demo_waiting_knows demo_waiting_services)
    as (pid & v' & E & _ & H); [vm_compute; reflexivity|vm_compute; reflexivity|].
  pose proof demo_waiting_queue as Hq. rewrite E in Hq.
  destruct (endpoints (kernel (sv_system v')) !! cap_object_id waiting_cap) as [e|] eqn:He; [|discriminate].
  injection Hq as Hq. destruct (H 0 e _ _ eq_refl Hq) as (k' & e' & Hr & _). exists pid, v', k'. split; [exact E|exact Hr].
Defined.

Lemma debug_grants_init_capability_witness :
  get_process (kernel (sv_system demo)) 3 <> None /\
  exists v', process_syscall_internal 3 SV_SYS_DEBUG (0, 0, 0) (str_bytes (grant_message 3 1 7)) demo = Some (0, v').
Proof.
  split; [vm_compute; discriminate|].
  destruct (get_process (kernel (sv_system demo)) 3) as [proc|] eqn:E; [|vm_compute in E; discriminate].
  destruct (debug_grants_init_capability 3 (0, 0, 0) 3 1 7 demo proc (demo_cspace 1) (demo_cap 1 1) (demo_cspace 3))
    as (v' & tcs' & E' & _); [exact E|vm_compute; reflexivity..|lia|lia|lia|]. by exists v'.
Defined.
