(* ===== verification/ProcessProps.v ===== *)
(** * Properties of processes and their library *)
From S2P Require Import Prelude StrLib AxiomTypes CommitLog Hal KernelState.
From S2P Require Import KernelIpc KernelFun System KernelSpec KernelRefine SystemRun.
From S2P Require Import Bridge SpawnState WebHal ProcessLib WebSupervisor SpawnCaps SupDispatch SupRun SpawnProps SupLive WorkerIpc SupProps.

Local Open Scope Z_scope.

Section props.
Context `{Target} `{HashOrder}.

(** C9: between two processes with live workers, while no worker waits for an answer
    and no latency test runs, over an endpoint whose queue is empty, with
    capabilities that do not expire and with at most 16,347 bytes of data (what fits
    the mailbox behind the nine bytes of header), a message crosses the whole system
    unchanged: what the one sends through the library to the endpoint it may write
    is what the other receives from it, with the sender's number and tag, and the
    kernel is as before. With a second message in the queue a receive loses one of
    them, and longer data is cut. *)
Theorem message_end_to_end A B pA pB procA procB slotA slotB tag data v eid o :
  A <> B -> worker_ready A pA v -> worker_ready B pB v ->
  get_process (kernel (sv_system v)) A = Some procA -> get_process (kernel (sv_system v)) B = Some procB ->
  allowed (kabs (kernel (sv_system v))) A slotA write_only eid -> allowed (kabs (kernel (sv_system v))) B slotB read_only eid ->
  ka_eps (kabs (kernel (sv_system v))) !! eid = Some (o, []) ->
  0 <= A < 2 ^ 32 -> 0 <= tag < 2 ^ 32 -> 9 + len data <= MAILBOX_MAX_DATA_LEN ->
  exists v1 v2, lib_send (H := worker_host A) slotA tag data v = Some (Ok tt, v1) /\
    lib_receive (H := worker_host B) slotB v1 = Some (Ok (mk_ReceivedMessage A tag [] data), v2) /\
    kabs (kernel (sv_system v2)) = kabs (kernel (sv_system v)).
Proof.
  intros Hne HrA HrB HpA HpB HaA HaB He RA Rt Hl. pose proof HrB as (HB1 & HB2 & HB3 & HB4 & _).
  destruct (lib_send_exact A pA v slotA tag data eid o [] procA HrA HpA HaA He) as (v1 & f & E1 & Hk1 & Hw1 & Hs1 & Hpp1); [lia|].
  assert (worker_ready B pB v1) as HrB1.
  { split_and!; [by rewrite Hw1, lookup_insert_ne|done|done| |done].
    eapply nobody_waiting; [exact Hw1|by rewrite Hs1|done]. }
  destruct (get_process_abs (kernel (sv_system v)) (kernel (sv_system v1)) B procB) as [procB' HpB']; [by rewrite Hk1|done|].
  set (m := mk_Message A tag data []).
  assert (serialize_ipc_message m = message_bytes A tag [] data) as Hser
    by (unfold serialize_ipc_message, message_bytes; simpl; unfold wrap_u32; by rewrite Z.mod_small).
  destruct (lib_receive_exact B pB v1 slotB eid o m procB' HrB1 HpB') as (v2 & E2 & Hk2).
  - by rewrite Hk1.
  - rewrite Hk1. simpl. by rewrite lookup_insert_eq.
  - rewrite Hser. unfold len in *. rewrite length_message_bytes. simpl. lia.
  - exists v1, v2. split_and!; [done| |].
    + rewrite E2, Hser, parse_message_bytes by done. done.
    + rewrite Hk2, Hk1. unfold ka_set_ep. simpl. rewrite insert_insert_eq. rewrite insert_id by done. reflexivity.
Qed.

(** C18: a poll of the mailboxes that meets no call that can panic returns, and
    leaves no worker waiting for an answer. *)
Theorem poll_answers_all v :
  Forall (fun c => never_panics (psc_num c) = true) (hal_poll_syscalls (hal (kernel (sv_system v)))) ->
  exists n v', poll_syscalls v = Some (n, v') /\ hal_poll_syscalls (hal (kernel (sv_system v'))) = [].
Proof.
  intros Hf. pose proof (total_poll v Hf) as Ht. destruct (poll_syscalls v) as [[n v']|] eqn:E; [|done].
  exists n, v'. split; [done|]. by eapply poll_waiting.
Qed.
End props.

(** ** A running system *)
#[local] Existing Instance wasm32.

(** The demonstration system once the workers of the file system and of the
    application have sent their memory. *)
Definition demo_workers : Sup :=
  match sup_run demo [C_platform (handle_worker_memory 2 7 65536 Mailbox_new); C_platform (handle_worker_memory 3 8 65536 Mailbox_new)] with
  | Some v => v
  | None => demo
  end.

Definition demo_worker (name : string) (id : Z) : WorkerProcess := mk_WorkerProcess name true 65536 id Mailbox_new.

Lemma ready_of pid p v :
  wb_processes (hal (kernel (sv_system v))) !! pid = Some p -> wp_alive p = true -> wp_worker_id p <> 0 ->
  hal_poll_syscalls (hal (kernel (sv_system v))) = [] -> sv_pingpong v = PP_Idle -> worker_ready pid p v.
Proof.
  intros Hp Ha Hw Hn Hpp. split_and!; [done|done|done| |done]. intros q Hq%waiting_polled. rewrite Hn in Hq. by apply not_elem_of_nil in Hq.
Qed.

Lemma demo_allowed pid slot perms cs c eid :
  cap_spaces (kernel (sv_system demo_workers)) !! pid = Some cs -> slots cs !! slot = Some c ->
  (cap_object_type c, cap_object_id c, cap_expires_at c) = (OT_Endpoint, eid, 0) -> perm_le perms (cap_permissions c) ->
  allowed (kabs (kernel (sv_system demo_workers))) pid slot perms eid.
Proof. intros Hcs Hc [= Ht Hi Hx] Hp. exists cs, c. by split_and!. Qed.

(** The application sends a request to the file system. *)
Lemma message_end_to_end_witness :
  exists v1 v2, lib_send (H := worker_host 3) 3 0x6000 [x01; x02] demo_workers = Some (Ok tt, v1) /\
    lib_receive (H := worker_host 2) 1 v1 = Some (Ok (mk_ReceivedMessage 3 0x6000 [] [x01; x02]), v2) /\
    kabs (kernel (sv_system v2)) = kabs (kernel (sv_system demo_workers)).
Proof.
  destruct (get_process (kernel (sv_system demo_workers)) 3) as [p3|] eqn:E3; [|vm_compute in E3; discriminate].
  destruct (get_process (kernel (sv_system demo_workers)) 2) as [p2|] eqn:E2; [|vm_compute in E2; discriminate].
  apply (message_end_to_end 3 2 (demo_worker "app" 8) (demo_worker "vfs" 7) p3 p2 3 1 0x6000 [x01; x02] demo_workers
    (cap_object_id (demo_cap 2 1)) 2).
  - discriminate.
  - apply ready_of; [vm_compute; reflexivity|reflexivity|discriminate|vm_compute; reflexivity|vm_compute; reflexivity].
  - apply ready_of; [vm_compute; reflexivity|reflexivity|discriminate|vm_compute; reflexivity|vm_compute; reflexivity].
  - exact E3.
  - exact E2.
  - eapply demo_allowed; [vm_compute; reflexivity|vm_compute; reflexivity|vm_compute; reflexivity|vm_compute; tauto].
  - eapply demo_allowed; [vm_compute; reflexivity|vm_compute; reflexivity|vm_compute; reflexivity|vm_compute; tauto].
  - vm_compute. reflexivity.
  - lia.
  - lia.
  - unfold MAILBOX_MAX_DATA_LEN, len. simpl. lia.
Defined.

Lemma poll_answers_all_witness :
  exists n v', poll_syscalls (at_mailbox 3 (worker_call SYS_RECV 3 0 0) demo_workers) = Some (n, v') /\
    hal_poll_syscalls (hal (kernel (sv_system v'))) = [].
Proof. apply poll_answers_all. vm_compute. repeat constructor. Defined.
