(* ===== verification/ServiceProps.v ===== *)
(** * Properties of the services *)
From S2P Require Import Hal KernelState KernelSyscall System SystemRun Bridge SpawnState WebHal WebSupervisor SupDispatch.
From S2P Require Import VfsPath Permission Keystore NetService VfsClient TimeService.
From S2P Require Import Prelude StrLib AxiomTypes ProcessLib AppFramework.

Local Open Scope string_scope.
Local Open Scope Z_scope.

(** The lengths that results with the tag declare do not wrap with the header. *)
Definition bounded_results {W : Target} (env : LibEnv) (tag : Z) : Prop := forall h m,
  env (L_receive INPUT_ENDPOINT_SLOT) h = Ok m -> rm_tag m = tag -> 9 + get_u32 5 (rm_data m) < 2 ^ usize_bits.

(** An environment that delivers the messages of a list, and no more. *)
Definition is_receive (c : LibCall) : bool := match c with L_receive _ => true | _ => false end.
Definition script (l : list ReceivedMessage) : LibEnv := fun c h =>
  match c with
  | L_receive _ => match l !! length (List.filter is_receive h) with Some m => Ok m | None => Err NoMessage end
  | c => quiet_env c h
  end.

Lemma script_bounded {W : Target} l tag :
  Forall (fun m => rm_tag m = tag -> 9 + get_u32 5 (rm_data m) < 2 ^ usize_bits) l -> bounded_results (script l) tag.
Proof.
  intros Hl h m. simpl. destruct (l !! _) as [m'|] eqn:E; [|done]. intros [= ->]. by apply (Forall_lookup_1 _ _ _ _ Hl E).
Qed.

Lemma get_u32_nonneg off raw : 0 <= get_u32 off raw.
Proof. apply from_le_bytes_range. Qed.

Lemma result_data_bounded {W : Target} raw :
  9 + get_u32 5 raw < 2 ^ usize_bits -> exists data, Keystore.result_data raw = Some data.
Proof.
  intros Hb. unfold Keystore.result_data, usize_add. pose proof (get_u32_nonneg 5 raw).
  rewrite Z.mod_small by lia. assert ((9 + get_u32 5 raw <? 9) = false) as -> by lia. by destruct (_ && _); eexists.
Qed.

Module KeystoreTrace.
Import Keystore.

Section trace.
Context {W : Target} (env : LibEnv) {J : KeystoreJson}.

(** The message asks for the call [c], to be answered as [op] says. *)
Inductive asks (m : AppMessage) : KeystoreCall -> PendingOp -> Prop :=
| asks_read r : am_tag m = MSG_KEYSTORE_READ -> read_from_slice (am_data m) = Ok r ->
    validate_key (krr_key r) = Ok tt -> asks m (Ks_read (krr_key r)) (P_Read (from_message m) (krr_key r))
| asks_write r : am_tag m = MSG_KEYSTORE_WRITE -> write_from_slice (am_data m) = Ok r ->
    validate_key (kwr_key r) = Ok tt -> len (kwr_value r) <= MAX_CONTENT_SIZE ->
    asks m (Ks_write (kwr_key r) (kwr_value r)) (P_Write (from_message m) (kwr_key r))
| asks_delete r : am_tag m = MSG_KEYSTORE_DELETE -> delete_from_slice (am_data m) = Ok r ->
    validate_key (kdr_key r) = Ok tt -> asks m (Ks_delete (kdr_key r)) (P_Delete (from_message m) (kdr_key r))
| asks_exists r : am_tag m = MSG_KEYSTORE_EXISTS -> exists_from_slice (am_data m) = Ok r ->
    validate_key (ker_key r) = Ok tt -> asks m (Ks_exists (ker_key r)) (P_Exists (from_message m) (ker_key r))
| asks_list r : am_tag m = MSG_KEYSTORE_LIST -> list_from_slice (am_data m) = Ok r ->
    (starts_with "/keys/" (klr_prefix r) = true \/ klr_prefix r = "/keys") ->
    asks m (Ks_list (klr_prefix r)) (P_List (from_message m) (klr_prefix r)).

(** The operation [op] waits for the result [id]: a received message asked for it
    and the system gave the call this number. *)
Definition started (h : History) (id : Z) (op : PendingOp) : Prop :=
  exists m c n h0, asks m c op /\ received env INPUT_ENDPOINT_SLOT m h0 /\
    (L_keystore c :: h0) `suffix_of` h /\ env (L_keystore c) h0 = Ok n /\ wrap_u32 n = id.

Definition client (op : PendingOp) : ClientContext :=
  match op with P_Read c _ | P_Write c _ | P_Delete c _ | P_Exists c _ | P_List c _ => c end.

(** The response to an operation whose result has type [t]. *)
Definition answer (op : PendingOp) (t : Z) (data : list byte) : Z * KeystoreResponse :=
  match op with
  | P_Read _ _ => (MSG_KEYSTORE_READ_RESPONSE, KeystoreReadResponse (read_result t data))
  | P_Write _ _ => (MSG_KEYSTORE_WRITE_RESPONSE, KeystoreWriteResponse (write_result t))
  | P_Delete _ _ => (MSG_KEYSTORE_DELETE_RESPONSE, KeystoreDeleteResponse (delete_result t))
  | P_Exists _ _ => (MSG_KEYSTORE_EXISTS_RESPONSE, KeystoreExistsResponse (exists_result t data))
  | P_List _ _ => (MSG_KEYSTORE_LIST_RESPONSE, KeystoreListResponse (list_result t data))
  end.

Definition is_error (r : KeystoreResponse) : Prop :=
  match r with
  | KeystoreReadResponse (Err _) | KeystoreWriteResponse (Err _) | KeystoreDeleteResponse (Err _)
  | KeystoreExistsResponse (Err _) | KeystoreListResponse (Err _) => True
  | _ => False
  end.

(** Why a response is sent: a request was refused, or the result of an operation
    that had been started came in. *)
Inductive justified (h : History) (ctx : ClientContext) (tag : Z) (r : KeystoreResponse) : Prop :=
| refused m : received env INPUT_ENDPOINT_SLOT m h -> ctx = from_message m -> tag = am_tag m + 1 -> is_error r ->
    justified h ctx tag r
| completed m id op h0 data : (L_receive INPUT_ENDPOINT_SLOT :: h0) `suffix_of` h ->
    env (L_receive INPUT_ENDPOINT_SLOT) h0 = Ok m -> rm_tag m = MSG_KEYSTORE_RESULT -> get_u32 0 (rm_data m) = id ->
    started h0 id op -> ctx = client op -> result_data (rm_data m) = Some data ->
    answer op (get_u8 4 (rm_data m)) data = (tag, r) ->
    justified h ctx tag r.

(** The call carries a response to a client. *)
Definition responds (c : LibCall) (h : History) : Prop :=
  exists ctx tag r data, justified h ctx tag r /\ keystore_to_vec r = Ok data /\
    (c = L_debug (response_line (kc_pid ctx) tag data) \/
     exists slot, head (kc_reply_caps ctx) = Some slot /\ c = L_send slot tag data).

(** Everything the service does. *)
Definition accounted (c : LibCall) (h : History) : Prop :=
  match c with
  | L_get_time | L_get_wallclock | L_yield | L_receive _ => True
  | L_keystore k => exists m op, asks m k op /\ received env INPUT_ENDPOINT_SLOT m h
  | L_send _ _ _ => c = L_send INIT_ENDPOINT_SLOT MSG_REGISTER_SERVICE (registration "keystore") \/ responds c h
  | _ => responds c h
  end.

Definition inv (k : KeystoreService) (h : History) : Prop :=
  traced accounted h /\ Z.of_nat (size (ks_pending_ops k)) <= MAX_PENDING_OPS /\
  forall id op, ks_pending_ops k !! id = Some op -> started h id op.

Lemma keystore_started_mono h h' id op : started h id op -> h `suffix_of` h' -> started h' id op.
Proof. intros (m & c & n & h0 & Ha & Hr & Hs & E) Hh. exists m, c, n, h0. split_and!; [done|done|by trans h|apply E..]. Qed.

Lemma justified_cons h c ctx tag r : justified h ctx tag r -> justified (c :: h) ctx tag r.
Proof.
  intros [m Hm|m id op h0 data Hs]; [eapply refused|eapply completed]; eauto with history. by apply suffix_cons_r.
Qed.

Lemma keystore_inv_call c k h : accounted c h -> inv k h -> inv k (c :: h).
Proof.
  intros Ha (Ht & Hn & Hp). split_and!; [by split|done|]. intros id op Ho. eapply keystore_started_mono; [by apply Hp|].
  by apply suffix_cons_r.
Qed.

Lemma responds_accounted c h : responds c h -> accounted c h.
Proof. intros Hr. destruct c; simpl; try done; [by right|]. destruct Hr as (? & ? & ? & ? & _ & _ & [[=]|(? & _ & [=])]). Qed.

Lemma keystore_start_inv m c op what k h :
  asks m c op -> received env INPUT_ENDPOINT_SLOT m h -> inv k h ->
  wp (start_keystore (H := recorder env) c what op) (fun _ => inv) k h.
Proof.
  intros Ha Hm Hi. unfold start_keystore.
  assert (inv k (L_keystore c :: h)) as Hi' by (apply keystore_inv_call; [by exists m, op|done]).
  repeat (wp_step; cbv beta); [done| |done].
  destruct Hi' as (Ht & Hn & Hp). match goal with E : env _ _ = Ok ?i |- _ => rename i into n, E into En end.
  split_and!; [done|simpl|simpl].
  - pose proof (map_size_insert_le (ks_pending_ops k) (wrap_u32 n) op). lia.
  - intros id op' [[<- <-]|[_ Ho]]%lookup_insert_Some; [|by apply Hp]. by exists m, c, n, h.
Qed.

Lemma debug_inv m tag r k h :
  received env INPUT_ENDPOINT_SLOT m h -> tag = am_tag m + 1 -> is_error r -> inv k h ->
  wp (send_response_via_debug (H := recorder env) (am_from_pid m) tag r) (fun _ => inv) k h.
Proof.
  intros Hm Ht He Hi. unfold send_response_via_debug. destruct (keystore_to_vec r) as [data|e] eqn:E; [|done].
  repeat (wp_step; cbv beta). apply keystore_inv_call; [|done]. exists (from_message m), tag, r, data. split_and!; [by eapply refused|done|by left].
Qed.

Lemma send_inv ctx tag r k h :
  justified h ctx tag r -> inv k h -> wp (send_response (H := recorder env) ctx tag r) (fun _ => inv) k h.
Proof.
  intros Hj Hi. unfold send_response. destruct (keystore_to_vec r) as [data|e] eqn:Ev; [|done]. cbv zeta.
  assert (forall h, justified h ctx tag r -> responds (L_debug (response_line (kc_pid ctx) tag data)) h) as Hd
    by (intros h' Hj'; exists ctx, tag, r, data; auto).
  destruct (kc_reply_caps ctx) as [|slot caps] eqn:Ec.
  - repeat (wp_step; cbv beta). apply keystore_inv_call; [by apply Hd|done].
  - assert (inv k (L_send slot tag data :: h)) as Hi'.
    { apply keystore_inv_call; [|done]. right. exists ctx, tag, r, data. split_and!; [done..|right]. exists slot. by rewrite Ec. }
    repeat (wp_step; cbv beta); [done|]. apply keystore_inv_call; [|done]. apply Hd. by apply justified_cons.
Qed.

Context (Hb : bounded_results env MSG_KEYSTORE_RESULT).

Lemma keystore_result_inv m k h :
  inv k h -> env (L_receive INPUT_ENDPOINT_SLOT) h = Ok m -> rm_tag m = MSG_KEYSTORE_RESULT ->
  wp (handle_keystore_result (H := recorder env) (app_message m)) (fun _ => inv) k (L_receive INPUT_ENDPOINT_SLOT :: h).
Proof.
  intros Hi Em Ht. assert (inv k (L_receive INPUT_ENDPOINT_SLOT :: h)) as Hi' by by apply keystore_inv_call.
  unfold handle_keystore_result. cbv zeta. destruct (_ <? _); [done|].
  change (am_data (app_message m)) with (rm_data m).
  destruct (result_data_bounded (rm_data m)) as [data Ed]; [by apply (Hb h)|]. rewrite Ed. do 2 wp_step.
  destruct (ks_pending_ops k !! _) as [op|] eqn:Eo; [|done].
  do 2 wp_step. set (k' := set_pending _ k).
  assert (inv k' (L_receive INPUT_ENDPOINT_SLOT :: h)) as Hk.
  { destruct Hi' as (Hh & Hn & Hp). split_and!; [done|simpl|simpl; intros ?? [_ Ho]%lookup_delete_Some; by apply Hp].
    pose proof (map_size_delete_le (ks_pending_ops k) (get_u32 0 (rm_data m))). lia. }
  assert (forall tag r, answer op (get_u8 4 (rm_data m)) data = (tag, r) ->
    justified (L_receive INPUT_ENDPOINT_SLOT :: h) (client op) tag r) as Hj
    by (intros tag r Ea; eapply completed; eauto; by apply Hi).
  destruct op; by apply send_inv, Hk; apply Hj.
Qed.

Lemma keystore_message_inv ctx m k h :
  inv k h -> env (L_receive INPUT_ENDPOINT_SLOT) h = Ok m ->
  wp (keystore_on_message (H := recorder env) ctx (app_message m)) (fun _ => inv) k (L_receive INPUT_ENDPOINT_SLOT :: h).
Proof.
  intros Hi Em. pose proof (received_here _ _ _ _ Em) as Hr.
  assert (inv k (L_receive INPUT_ENDPOINT_SLOT :: h)) as Hi' by by apply keystore_inv_call.
  assert (forall tag r, tag = rm_tag m + 1 -> is_error r ->
    wp (send_response_via_debug (H := recorder env) (am_from_pid (app_message m)) tag r) (fun _ => inv) k
      (L_receive INPUT_ENDPOINT_SLOT :: h)) as Hd by (intros; by apply debug_inv).
  unfold keystore_on_message. change (am_tag (app_message m)) with (rm_tag m). cbv zeta.
  destruct (rm_tag m =? MSG_KEYSTORE_RESULT) eqn:E0; [apply keystore_result_inv; auto with lia|].
  destruct (rm_tag m =? MSG_KEYSTORE_READ) eqn:E1; [|destruct (rm_tag m =? MSG_KEYSTORE_WRITE) eqn:E2;
    [|destruct (rm_tag m =? MSG_KEYSTORE_DELETE) eqn:E3; [|destruct (rm_tag m =? MSG_KEYSTORE_EXISTS) eqn:E4;
    [|destruct (rm_tag m =? MSG_KEYSTORE_LIST) eqn:E5; [|done]]]]].
  all: rewrite Z.eqb_eq in *.
  all: unfold handle_read, handle_write, handle_delete, handle_exists, handle_list; repeat wp_step;
    try (apply Hd; [by rewrite ?E1, ?E2, ?E3, ?E4, ?E5|done]);
    repeat match goal with u : unit |- _ => destruct u end.
  all: eapply keystore_start_inv; [|done..].
  - by eapply (asks_read (app_message m)).
  - eapply (asks_write (app_message m)); try done. lia.
  - by eapply (asks_delete (app_message m)).
  - by eapply (asks_exists (app_message m)).
  - eapply (asks_list (app_message m)); try done.
    apply andb_false_iff in Heqb as [->%negb_false_iff| ->%negb_false_iff%String.eqb_eq]; auto.
Qed.

Lemma keystore_invariant : AppInvariant env INPUT_ENDPOINT_SLOT inv.
Proof. split; [intros c k h Hc; apply keystore_inv_call; by destruct c|done|done|apply keystore_message_inv]. Qed.

Lemma keystore_starts ctx :
  wp (app_init (H := recorder env) ctx) (fun _ => inv) KeystoreService_default [L_get_wallclock; L_get_time].
Proof. split_and!; [simpl; auto|by apply Z.leb_le|done]. Qed.
End trace.
End KeystoreTrace.

Module NetTrace.
Import NetService.

Section trace.
Context {W : Target} (env : LibEnv).

(** A request of a trusted process. *)
Definition trusted_request (m : AppMessage) : Prop :=
  am_tag m = MSG_NET_REQUEST /\ am_from_pid m ∈ TRUSTED_PIDS_FOR_NETWORK.

(** The fetch that waits for the result [id], for a request of its client. *)
Definition started (h : History) (id : Z) (p : PendingRequest) : Prop :=
  exists m n h0, trusted_request m /\ am_from_pid m = pr_client_pid p /\ received env INPUT_ENDPOINT_SLOT m h0 /\
    (L_network_fetch (am_data m) :: h0) `suffix_of` h /\ env (L_network_fetch (am_data m)) h0 = Ok n /\ wrap_u32 n = id.

(** What the result [raw] of a request makes the service report. *)
Definition report (request_id : Z) (raw : list byte) : option (list byte) :=
  data ← result_data raw;
  Some (u32_to_le_bytes request_id ++
    if get_u8 4 raw =? NET_OK then data
    else str_bytes (error_json (if len data =? 0 then "Network error" else from_utf8_lossy data)))%list.

Inductive reported (h : History) (pid : Z) (data : list byte) : Prop :=
| rejected m id msg : received env INPUT_ENDPOINT_SLOT m h -> am_tag m = MSG_NET_REQUEST -> am_from_pid m = pid ->
    data = (u32_to_le_bytes id ++ str_bytes (error_json msg))%list -> reported h pid data
| fetched m p h0 : (L_receive INPUT_ENDPOINT_SLOT :: h0) `suffix_of` h ->
    env (L_receive INPUT_ENDPOINT_SLOT) h0 = Ok m -> rm_tag m = MSG_NET_RESULT ->
    started h0 (get_u32 0 (rm_data m)) p -> pr_client_pid p = pid ->
    report (pr_client_request_id p) (rm_data m) = Some data -> reported h pid data.

Definition accounted (c : LibCall) (h : History) : Prop :=
  match c with
  | L_get_time | L_get_wallclock | L_yield | L_receive _ => True
  | L_send _ _ _ => c = L_send INIT_ENDPOINT_SLOT MSG_REGISTER_SERVICE (registration "network")
  | L_network_fetch request => exists m, trusted_request m /\ am_data m = request /\ received env INPUT_ENDPOINT_SLOT m h
  | L_debug line => exists pid data, line = response_line pid data /\ reported h pid data
  | _ => False
  end.

Definition inv (n : NetworkService) (h : History) : Prop :=
  traced accounted h /\ Z.of_nat (size (ns_pending_ops n)) <= MAX_PENDING_OPS /\
  forall id p, ns_pending_ops n !! id = Some p -> started h id p.

Lemma network_started_mono h h' id p : started h id p -> h `suffix_of` h' -> started h' id p.
Proof. intros (m & n & h0 & Ht & Hf & Hr & Hs & E) Hh. exists m, n, h0. do 3 (split; [done|]). split; [by trans h|done]. Qed.

Lemma network_inv_call c n h : accounted c h -> inv n h -> inv n (c :: h).
Proof.
  intros Ha (Ht & Hn & Hp). split_and!; [by split|done|]. intros id op Ho. eapply network_started_mono; [by apply Hp|].
  by apply suffix_cons_r.
Qed.

Lemma error_inv m id msg n h :
  received env INPUT_ENDPOINT_SLOT m h -> am_tag m = MSG_NET_REQUEST -> inv n h ->
  wp (send_error_response (H := recorder env) (am_from_pid m) id msg) (fun _ => inv) n h.
Proof.
  intros Hm Ht Hi. unfold send_error_response. repeat wp_step. apply network_inv_call; [|done].
  eexists _, _. split; [done|]. by eapply rejected.
Qed.

Lemma network_request_inv m n h :
  received env INPUT_ENDPOINT_SLOT m h -> am_tag m = MSG_NET_REQUEST -> inv n h ->
  wp (handle_net_request (H := recorder env) m) (fun _ => inv) n h.
Proof.
  intros Hm Ht Hi. unfold handle_net_request. do 4 wp_step. cbv zeta. set (n' := mk_NetworkService _ _ _).
  assert (inv n' h) as Hn by apply Hi.
  destruct (check_network_permission (am_from_pid m)) eqn:Ec; simpl; [|by apply error_inv].
  assert (trusted_request m) as Htr.
  { split; [done|]. apply existsb_exists in Ec as (p & Hp & ->%Z.eqb_eq). by apply list_elem_of_In. }
  destruct (check_pending_limit n) eqn:El; simpl; [|by apply error_inv].
  assert (inv n' (L_network_fetch (am_data m) :: h)) as Hf by (apply network_inv_call; [by exists m|done]).
  do 2 wp_step. destruct (env _ h) as [i|e] eqn:Ef; [|apply error_inv; auto with history].
  repeat wp_step. destruct Hf as (Hh & Hz & Hp). split_and!; [done|simpl|simpl].
  - pose proof (map_size_insert_le (ns_pending_ops n) (wrap_u32 i) (mk_PendingRequest (am_from_pid m) (ns_next_request_id n))).
    unfold check_pending_limit in El. lia.
  - intros id p [[<- <-]|[_ Ho]]%lookup_insert_Some; [|by apply Hp]. by exists m, i, h.
Qed.

Context (Hb : bounded_results env MSG_NET_RESULT).

Lemma network_result_inv m n h :
  env (L_receive INPUT_ENDPOINT_SLOT) h = Ok m -> rm_tag m = MSG_NET_RESULT -> inv n h ->
  wp (handle_net_result (H := recorder env) (app_message m)) (fun _ => inv) n (L_receive INPUT_ENDPOINT_SLOT :: h).
Proof.
  intros Em Ht Hi. assert (inv n (L_receive INPUT_ENDPOINT_SLOT :: h)) as Hi' by by apply network_inv_call.
  unfold handle_net_result. cbv zeta. destruct (_ <? _); [done|].
  change (am_data (app_message m)) with (rm_data m).
  destruct (result_data_bounded (rm_data m)) as [d Ed]; [by apply (Hb h)|]. change (result_data (rm_data m) = Some d) in Ed.
  rewrite Ed. do 2 wp_step. destruct (ns_pending_ops n !! _) as [p|] eqn:Eo; [|done].
  do 2 wp_step. set (n' := set_pending _ n).
  assert (inv n' (L_receive INPUT_ENDPOINT_SLOT :: h)) as Hn.
  { destruct Hi' as (Hh & Hz & Hp). split_and!; [done|simpl|simpl; intros ?? [_ Ho]%lookup_delete_Some; by apply Hp].
    pose proof (map_size_delete_le (ns_pending_ops n) (get_u32 0 (rm_data m))). lia. }
  assert (forall data, report (pr_client_request_id p) (rm_data m) = Some data ->
    accounted (L_debug (response_line (pr_client_pid p) data)) (L_receive INPUT_ENDPOINT_SLOT :: h)) as Ha.
  { intros data Er. eexists _, _. split; [done|]. eapply fetched; eauto. by apply Hi. }
  unfold send_response, send_error_response. destruct (_ =? NET_OK) eqn:Ek; repeat wp_step; (apply network_inv_call; [|done]).
  all: apply Ha; unfold report; rewrite Ed; simpl; by rewrite Ek.
Qed.

Lemma network_invariant : AppInvariant env INPUT_ENDPOINT_SLOT inv.
Proof.
  split; [intros c n h Hc; apply network_inv_call; by destruct c|done|done|].
  - intros ctx m n h Hi Em. cbn [app_on_message NetworkService_app]. unfold network_on_message.
    assert (inv n (L_receive INPUT_ENDPOINT_SLOT :: h)) as Hi' by by apply network_inv_call.
    change (am_tag (app_message m)) with (rm_tag m).
    destruct (_ =? MSG_NET_REQUEST) eqn:E1; [|destruct (_ =? MSG_NET_RESULT) eqn:E2; [|done]]; rewrite ?Z.eqb_eq in *.
    + by apply network_request_inv; [apply received_here| |].
    + by apply network_result_inv.
Qed.

Lemma network_starts ctx :
  wp (app_init (H := recorder env) ctx) (fun _ => inv) NetworkService_default [L_get_wallclock; L_get_time].
Proof. split_and!; [simpl; auto|by apply Z.leb_le|done]. Qed.
End trace.
End NetTrace.

Module TimeTrace.
Import VfsPath VfsClient TimeService.

Section trace.
Context (env : LibEnv) {J : TimeJson} {V : VfsClientJson}.

Definition read_request : VfsRequest := RQ_Read (mk_ReadFileRequest storage_path None None).
Definition write_request (s : TimeSettings) : VfsRequest := RQ_Write (mk_WriteFileRequest storage_path (to_json s) false).

(** A trusted process asked for the settings [s]. *)
Definition asked (h : History) (pid : Z) (caps : list Z) (s : TimeSettings) : Prop :=
  exists m, received env INPUT_ENDPOINT_SLOT m h /\ am_tag m = MSG_SET_TIME_SETTINGS /\ am_from_pid m = pid /\
    am_cap_slots m = caps /\ pid ∈ TRUSTED_PIDS_FOR_TIME_SETTINGS /\ from_json (am_data m) = Some s.

(** ... and they were sent to the file system. *)
Definition sent (h : History) (pid : Z) (caps : list Z) (s : TimeSettings) : Prop :=
  exists data h0, asked h0 pid caps s /\ vfs_request_to_vec (write_request s) = Ok data /\
    (L_send VFS_ENDPOINT_SLOT MSG_VFS_WRITE data :: h0) `suffix_of` h /\
    env (L_send VFS_ENDPOINT_SLOT MSG_VFS_WRITE data) h0 = Ok tt.

(** A read of the file was sent to the file system. *)
Definition read_sent (h : History) : Prop :=
  exists data, vfs_request_to_vec read_request = Ok data /\
    happened env (L_send VFS_ENDPOINT_SLOT MSG_VFS_READ data) (Ok tt) h.

(** ... and a later message, of whatever sender, said that they were written. *)
Definition written (h : History) (pid : Z) (caps : list Z) (s : TimeSettings) : Prop :=
  exists m h0, sent h0 pid caps s /\ (L_receive INPUT_ENDPOINT_SLOT :: h0) `suffix_of` h /\
    env (L_receive INPUT_ENDPOINT_SLOT) h0 = Ok m /\ rm_tag m = MSG_VFS_WRITE_RESPONSE /\
    parse_write_response (rm_data m) = Ok tt.

(** How a message, of whatever sender, changes the settings: a write response makes
    those of a write that was sent current; a read response after a read that was sent
    those in it, and without any it brings the defaults back, or (for the read at the
    start) changes nothing. *)
Inductive changes (h : History) (m : AppMessage) (s : TimeSettings) : TimeSettings -> Prop :=
| unchanged : changes h m s s
| confirmed pid caps s' :
    am_tag m = MSG_VFS_WRITE_RESPONSE -> parse_write_response (am_data m) = Ok tt -> sent h pid caps s' -> changes h m s s'
| loaded data s' :
    am_tag m = MSG_VFS_READ_RESPONSE -> read_sent h -> parse_read_response (am_data m) = Ok data -> from_json data = Some s' ->
    changes h m s s'
| reset :
    am_tag m = MSG_VFS_READ_RESPONSE -> read_sent h ->
    match parse_read_response (am_data m) with Ok data => from_json data = None | Err _ => True end ->
    changes h m s TimeSettings_default.

(** Settings the service may report: the defaults, what a read of the file returned,
    or what was written. *)
Definition known (h : History) (s : TimeSettings) : Prop :=
  s = TimeSettings_default \/
  (exists m data, received env INPUT_ENDPOINT_SLOT m h /\ am_tag m = MSG_VFS_READ_RESPONSE /\
     parse_read_response (am_data m) = Ok data /\ from_json data = Some s) \/
  (exists pid caps, written h pid caps s).

Inductive answered (h : History) (pid : Z) (caps : list Z) : Z -> list byte -> Prop :=
| got s : known h s -> answered h pid caps MSG_GET_TIME_SETTINGS_RESPONSE (to_json s)
| set s : written h pid caps s -> answered h pid caps MSG_SET_TIME_SETTINGS_RESPONSE (to_json s)
| failed error : answered h pid caps MSG_SET_TIME_SETTINGS_RESPONSE (error_json error).

Definition responds (c : LibCall) (h : History) : Prop :=
  exists pid caps tag json, answered h pid caps tag json /\
    (c = L_debug (response_line pid tag json) \/ exists slot, head caps = Some slot /\ c = L_send slot tag json).

Definition requests (c : LibCall) (h : History) : Prop :=
  (exists data, vfs_request_to_vec read_request = Ok data /\ c = L_send VFS_ENDPOINT_SLOT MSG_VFS_READ data) \/
  (exists pid caps s data, asked h pid caps s /\ vfs_request_to_vec (write_request s) = Ok data /\
     c = L_send VFS_ENDPOINT_SLOT MSG_VFS_WRITE data).

Definition accounted (c : LibCall) (h : History) : Prop :=
  match c with
  | L_get_time | L_get_wallclock | L_yield | L_receive _ => True
  | L_send _ _ _ => c = L_send INIT_ENDPOINT_SLOT MSG_REGISTER_SERVICE (registration "time") \/ requests c h \/ responds c h
  | L_debug _ => responds c h
  | _ => False
  end.

Definition pending_ok (h : History) (e : PendingOp * OpType) : Prop :=
  match e with
  | (P_WriteSettings pid s caps, OpWrite) => sent h pid caps s
  | (P_GetSettings _ _, OpRead) | (P_InitialLoad, OpRead) => read_sent h
  | _ => False
  end.

Definition inv (t : TimeService) (h : History) : Prop :=
  traced accounted h /\ Z.of_nat (size (tm_pending_ops t)) <= MAX_PENDING_OPS /\ known h (tm_settings t) /\
  forall id e, tm_pending_ops t !! id = Some e -> pending_ok h e.

Lemma asked_mono h h' pid caps s : asked h pid caps s -> h `suffix_of` h' -> asked h' pid caps s.
Proof. intros (m & Hm & E) Hs. exists m. split; [by eapply received_mono|done]. Qed.

Lemma sent_mono h h' pid caps s : sent h pid caps s -> h `suffix_of` h' -> sent h' pid caps s.
Proof. intros (d & h0 & Ha & Ev & Hs & E) Hh. exists d, h0. split_and!; [done|done|by trans h|done]. Qed.

Lemma written_mono h h' pid caps s : written h pid caps s -> h `suffix_of` h' -> written h' pid caps s.
Proof. intros (m & h0 & Ha & Hs & E) Hh. exists m, h0. split_and!; [done|by trans h|apply E..]. Qed.

Lemma known_mono h h' s : known h s -> h `suffix_of` h' -> known h' s.
Proof.
  intros [?|[(m & d & Hm & E)|(pid & caps & Hw)]] Hh; [by left|right; left|right; right].
  - exists m, d. split; [by eapply received_mono|done].
  - exists pid, caps. by eapply written_mono.
Qed.

Lemma pending_ok_mono h h' e : pending_ok h e -> h `suffix_of` h' -> pending_ok h' e.
Proof.
  destruct e as [[] []]; simpl; try done; [|apply sent_mono|];
    intros (data & Ev & Hs) Hh; exists data; (split; [done|]); by eapply happened_mono.
Qed.

Lemma time_inv_call c t h : accounted c h -> inv t h -> inv t (c :: h).
Proof.
  assert (h `suffix_of` c :: h) by by apply suffix_cons_r. intros Ha (Ht & Hn & Hk & Hp).
  split_and!; [by split|done|by eapply known_mono|]. intros id e He. eapply pending_ok_mono; [by eapply Hp|done].
Qed.

Lemma inv_cache s t h : known h s -> inv t h -> inv (cache_settings s t) h.
Proof. intros Hk (Ht & Hn & _ & Hp). by split_and!. Qed.

Lemma answered_cons c h pid caps tag json : answered h pid caps tag json -> answered (c :: h) pid caps tag json.
Proof.
  assert (h `suffix_of` c :: h) by by apply suffix_cons_r.
  intros [s Hs|s Hs|e]; constructor; [by eapply known_mono|by eapply written_mono].
Qed.

Lemma reply_inv pid caps tag json t h :
  answered h pid caps tag json -> inv t h -> wp (reply (H := recorder env) pid caps tag json) (fun _ => inv) t h.
Proof.
  intros Ha Hi. unfold reply. cbv zeta.
  assert (forall h, answered h pid caps tag json -> responds (L_debug (response_line pid tag json)) h) as Hd
    by (intros h' Hj; exists pid, caps, tag, json; auto).
  destruct caps as [|slot caps].
  - repeat wp_step. apply time_inv_call; [by apply Hd|done].
  - assert (inv t (L_send slot tag json :: h)) as Hi'.
    { apply time_inv_call; [|done]. right; right. exists pid, (slot :: caps), tag, json. split; [done|right]. by exists slot. }
    repeat wp_step; [done|]. apply time_inv_call; [|done]. by apply Hd, answered_cons.
Qed.

Lemma time_start_inv request op ty t h :
  Z.of_nat (size (tm_pending_ops t)) < MAX_PENDING_OPS -> inv t h ->
  (forall (Q : result unit VfsError -> TimeService -> History -> Prop) t', inv t' h ->
     (forall e h', inv t' h' -> Q (Err e) t' h') ->
     (forall h', inv t' h' -> pending_ok h' (op, ty) -> Q (Ok tt) t' h') -> wp (lift request) Q t' h) ->
  wp (start_vfs (S := History) request op ty) (fun _ => inv) t h.
Proof.
  intros Hn Hi Hr. unfold start_vfs. do 2 wp_step. destruct (alloc_request_id t) as [id t'] eqn:Ea. do 3 wp_step.
  injection Ea as <- <-. set (t' := set_next _ t). assert (inv t' h) as Hi' by apply Hi. apply Hr; [done|done|].
  intros h' (Hh & _ & Hk & Hp) Ho. repeat wp_step. split_and!; [done|simpl|done|simpl].
  - pose proof (map_size_insert_le (tm_pending_ops t) (tm_next_request_id t) (op, ty)). lia.
  - intros i e [[<- <-]|[_ He]]%lookup_insert_Some; [done|by eapply Hp].
Qed.

Lemma read_inv op t h :
  match op with P_WriteSettings _ _ _ => False | _ => True end ->
  Z.of_nat (size (tm_pending_ops t)) < MAX_PENDING_OPS -> inv t h ->
  wp (start_vfs_read (H := recorder env) storage_path op) (fun _ => inv) t h.
Proof.
  intros Ho Hn Hi. apply time_start_inv; [done|done|]. intros Q t' Hi' He Hok. unfold send_read_request, send_vfs_request.
  destruct (vfs_request_to_vec _) as [data|e] eqn:Ev; [|by apply He]. do 2 wp_step.
  assert (inv t' (L_send VFS_ENDPOINT_SLOT MSG_VFS_READ data :: h)) as Hs
    by (apply time_inv_call; [right; left; left; by exists data|done]).
  wp_step. destruct (env _ h) as [[]|] eqn:Ee; [|by apply He]. apply Hok; [done|].
  assert (read_sent (L_send VFS_ENDPOINT_SLOT MSG_VFS_READ data :: h)) by (exists data; split; [done|by exists h]).
  by destruct op.
Qed.

Lemma write_inv pid s caps t h :
  asked h pid caps s -> Z.of_nat (size (tm_pending_ops t)) < MAX_PENDING_OPS -> inv t h ->
  wp (start_vfs_write (H := recorder env) storage_path (to_json s) (P_WriteSettings pid s caps)) (fun _ => inv) t h.
Proof.
  intros Ho Hn Hi. apply time_start_inv; [done|done|]. intros Q t' Hi' He Hok. unfold send_write_request, send_vfs_request.
  destruct (vfs_request_to_vec _) as [data|e] eqn:Ev; [|by apply He]. do 2 wp_step.
  assert (inv t' (L_send VFS_ENDPOINT_SLOT MSG_VFS_WRITE data :: h)) as Hs
    by (apply time_inv_call; [right; left; right; by exists pid, caps, s, data|done]).
  wp_step. destruct (env _ h) as [[]|] eqn:Ee; [|by apply He]. apply Hok; [done|]. by exists data, h.
Qed.

(** Taking a pending operation. *)
Lemma take_inv ty t h (Q : option (Z * PendingOp) -> TimeService -> History -> Prop) :
  inv t h -> (forall t', inv t' h -> Q None t' h) ->
  (forall id op t', inv t' h -> pending_ok h (op, ty) -> Q (Some (id, op)) t' h) ->
  wp (take_op (S := History) ty) Q t h.
Proof.
  intros Hi Hn Hs. unfold take_op, take_pending_by_type. do 2 wp_step.
  destruct (List.find _ _) as [[id [op ty']]|] eqn:Ef; cbv zeta; do 3 wp_step; [|by apply Hn].
  apply find_some in Ef as [Hl Ety%bool_decide_eq_true]. simpl in Ety. subst ty'.
  apply list_elem_of_In, elem_of_btree_iter in Hl.
  destruct Hi as (Hh & Hz & Hk & Hp). apply Hs; [|by eapply Hp]. split_and!; [done|simpl|done|simpl].
  - pose proof (map_size_delete_le (tm_pending_ops t) id). lia.
  - intros i e [_ He]%lookup_delete_Some. by eapply Hp.
Qed.

Lemma sent_before slot h pid caps s : sent (L_receive slot :: h) pid caps s -> sent h pid caps s.
Proof.
  intros (d & h0 & Ha & Ev & Hs & E). exists d, h0. apply suffix_cons_inv in Hs as [[=]|Hs]. by split_and!.
Qed.

Lemma set_inv m t h :
  received env INPUT_ENDPOINT_SLOT m h -> am_tag m = MSG_SET_TIME_SETTINGS -> inv t h ->
  wp (handle_set_time_settings (H := recorder env) m) (fun _ => inv) t h.
Proof.
  intros Hm Ht Hi. unfold handle_set_time_settings. cbv zeta. do 2 wp_step.
  destruct (check_set_permission _) eqn:Ec; simpl; [|by apply reply_inv; [constructor|]].
  destruct (check_pending_limit t) eqn:El; simpl; [|by apply reply_inv; [constructor|]].
  destruct (from_json _) as [s|] eqn:Ej; [|by apply reply_inv; [constructor|]].
  apply awp_bind. eapply awp_mono; [apply write_inv; [|unfold check_pending_limit in El; lia|done]|auto].
  exists m. split_and!; [done..| |done]. apply existsb_exists in Ec as (p & Hp & ->%Z.eqb_eq). by apply list_elem_of_In.
Qed.

Lemma get_inv m t h :
  inv t h -> wp (handle_get_time_settings (H := recorder env) m) (fun _ => inv) t h.
Proof.
  intros Hi. unfold handle_get_time_settings, check_get_permission. simpl. cbv zeta. do 2 wp_step.
  destruct (tm_settings_loaded t); [apply reply_inv; [|done]; constructor; apply Hi|].
  destruct (check_pending_limit t) eqn:El; simpl; [|by apply reply_inv; [constructor|]].
  apply awp_bind. eapply awp_mono; [by apply read_inv; [|unfold check_pending_limit in El; lia|]|auto].
Qed.

Lemma time_message_inv ctx m t h :
  inv t h -> env (L_receive INPUT_ENDPOINT_SLOT) h = Ok m ->
  wp (time_on_message (H := recorder env) ctx (app_message m)) (fun _ => inv) t (L_receive INPUT_ENDPOINT_SLOT :: h).
Proof.
  intros Hi Em. pose proof (received_here _ _ _ _ Em) as Hr.
  assert (inv t (L_receive INPUT_ENDPOINT_SLOT :: h)) as Hi' by by apply time_inv_call.
  unfold time_on_message. change (am_tag (app_message m)) with (rm_tag m). cbv zeta.
  destruct (_ =? MSG_VFS_READ_RESPONSE) eqn:E0; [|destruct (_ =? MSG_VFS_WRITE_RESPONSE) eqn:E1;
    [|destruct (_ =? MSG_GET_TIME_SETTINGS); [by apply get_inv|
      destruct (_ =? MSG_SET_TIME_SETTINGS) eqn:E3; [|done]]]]; rewrite ?Z.eqb_eq in *.
  - unfold handle_vfs_read_response. apply awp_bind, take_inv; [done|done|]. intros id op t' Ht Ho.
    assert (forall d s, parse_read_response (rm_data m) = Ok d -> from_json d = Some s ->
      known (L_receive INPUT_ENDPOINT_SLOT :: h) s) as Hk by (intros d s Hd Hs; right; left; by exists (app_message m), d).
    destruct op; [| |]; [|done|].
    + set (s := match parse_read_response _ with Ok _ => _ | Err _ => _ end).
      assert (known (L_receive INPUT_ENDPOINT_SLOT :: h) s) as Hs.
      { subst s. change (am_data (app_message m)) with (rm_data m).
        destruct (parse_read_response _) eqn:Ep; [|by left]. destruct (from_json _) eqn:Ej; [by eapply Hk|by left]. }
      do 2 wp_step. apply reply_inv; [by constructor|]. by apply inv_cache.
    + cbv zeta. repeat wp_step. apply inv_cache; [|done]. change (am_data (app_message m)) with (rm_data m).
      destruct (parse_read_response _) eqn:Ep; [|by apply Ht].
      destruct (from_json _) eqn:Ej; [by eapply Hk|by apply Ht].
  - unfold handle_vfs_write_response. apply awp_bind, take_inv; [done|done|]. intros id op t' Ht Ho.
    destruct op as [|pid s caps|]; [done| |done]. destruct (parse_write_response _) as [[]|e] eqn:Ep;
      [|by apply reply_inv; [constructor|]].
    assert (written (L_receive INPUT_ENDPOINT_SLOT :: h) pid caps s) as Hw
      by (exists m, h; split_and!; [by eapply sent_before|done..]).
    do 2 wp_step. apply reply_inv; [by constructor|]. apply inv_cache; [|done]. right; right. by exists pid, caps.
  - by apply set_inv.
Qed.

(** *** What a message does to the settings *)
Lemma reply_settings pid caps tag json t h s (P : TimeSettings -> Prop) :
  tm_settings t = s -> P s -> wp (reply (H := recorder env) pid caps tag json) (fun _ t' _ => P (tm_settings t')) t h.
Proof. intros <- Hp. unfold reply. destruct caps; repeat wp_step; done. Qed.


Lemma start_settings tag request op ty t h (P : TimeSettings -> Prop) :
  P (tm_settings t) ->
  wp (start_vfs (send_vfs_request (H := recorder env) VFS_ENDPOINT_SLOT tag request) op ty) (fun _ t' _ => P (tm_settings t')) t h.
Proof.
  intros Hp. unfold start_vfs. do 2 wp_step. destruct (alloc_request_id t) as [id t'] eqn:Ea. injection Ea as <- <-.
  do 3 wp_step. unfold send_vfs_request. destruct (vfs_request_to_vec request); [|done]. repeat wp_step; done.
Qed.

(** A pending operation is taken and the settings stay. *)
Lemma take_settings ty t h h' (Q : option (Z * PendingOp) -> TimeService -> History -> Prop) :
  inv t h -> Q None t h' ->
  (forall id op t', tm_settings t' = tm_settings t -> pending_ok h (op, ty) -> Q (Some (id, op)) t' h') ->
  wp (take_op (S := History) ty) Q t h'.
Proof.
  intros (_ & _ & _ & Hp) Hn Hs. unfold take_op, take_pending_by_type. do 2 wp_step.
  destruct (List.find _ _) as [[id [op ty']]|] eqn:Ef; cbv zeta; do 3 wp_step; [|done].
  apply find_some in Ef as [Hl Ety%bool_decide_eq_true]. simpl in Ety. subst ty'.
  apply list_elem_of_In, elem_of_btree_iter in Hl. apply Hs; [done|by eapply Hp].
Qed.

Lemma read_response_changes m t h h' :
  inv t h -> am_tag m = MSG_VFS_READ_RESPONSE ->
  wp (handle_vfs_read_response (H := recorder env) m) (fun _ t' _ => changes h m (tm_settings t) (tm_settings t')) t h'.
Proof.
  intros Hi Ht. unfold handle_vfs_read_response. apply awp_bind, (take_settings _ _ h); [done|by constructor|].
  intros id op t' Es Ho. destruct op; [|by rewrite <-Es; constructor|]; cbv zeta.
  - do 2 wp_step. eapply reply_settings; [done|]. destruct (parse_read_response _) as [d|e] eqn:Ep.
    + destruct (from_json d) as [s|] eqn:Ej; [by eapply loaded|]. apply reset; [done|done|by rewrite Ep].
    + apply reset; [done|done|by rewrite Ep].
  - do 3 wp_step. cbn [tm_settings cache_settings]. rewrite Es. destruct (parse_read_response _) as [d|e] eqn:Ep; [|constructor].
    destruct (from_json d) as [s|] eqn:Ej; [by eapply loaded|constructor].
Qed.

Lemma write_response_changes m t h h' :
  inv t h -> am_tag m = MSG_VFS_WRITE_RESPONSE ->
  wp (handle_vfs_write_response (H := recorder env) m) (fun _ t' _ => changes h m (tm_settings t) (tm_settings t')) t h'.
Proof.
  intros Hi Ht. unfold handle_vfs_write_response. apply awp_bind, (take_settings _ _ h); [done|by constructor|].
  intros id op t' Es Ho. destruct op as [|pid s caps|]; [done| |done].
  destruct (parse_write_response _) as [[]|e] eqn:Ep; [do 2 wp_step|].
  - eapply reply_settings; [done|]. by eapply confirmed.
  - eapply reply_settings; [exact Es|]. constructor.
Qed.

Lemma message_changes ctx m t h h' :
  inv t h ->
  wp (time_on_message (H := recorder env) ctx m) (fun _ t' _ => changes h m (tm_settings t) (tm_settings t')) t h'.
Proof.
  intros Hi. unfold time_on_message. cbv zeta.
  destruct (_ =? MSG_VFS_READ_RESPONSE) eqn:E0; [by apply read_response_changes; [|apply Z.eqb_eq]|].
  destruct (_ =? MSG_VFS_WRITE_RESPONSE) eqn:E1; [by apply write_response_changes; [|apply Z.eqb_eq]|].
  destruct (_ =? MSG_GET_TIME_SETTINGS).
  { unfold handle_get_time_settings. cbn [check_get_permission negb]. cbv zeta. do 2 wp_step.
    destruct (tm_settings_loaded t); [|destruct (negb _)]; try (by eapply reply_settings; [|constructor]).
    apply awp_bind, start_settings. constructor. }
  destruct (_ =? MSG_SET_TIME_SETTINGS); [|constructor].
  unfold handle_set_time_settings. cbv zeta. do 2 wp_step.
  destruct (negb _); [by eapply reply_settings; [|constructor]|]. destruct (negb _); [by eapply reply_settings; [|constructor]|].
  destruct (from_json _); [|by eapply reply_settings; [|constructor]]. apply awp_bind, start_settings. constructor.
Qed.

Lemma time_invariant : AppInvariant env INPUT_ENDPOINT_SLOT inv.
Proof. split; [intros c t h Hc; apply time_inv_call; by destruct c|done|done|apply time_message_inv]. Qed.

Lemma time_starts ctx :
  wp (app_init (H := recorder env) ctx) (fun _ => inv) TimeService_default [L_get_wallclock; L_get_time].
Proof.
  cbn [app_init TimeService_app]. unfold time_init. do 4 wp_step. apply awp_bind.
  eapply awp_mono; [apply read_inv; [done|by apply Z.ltb_lt|]|auto].
  split_and!; [simpl; auto|by apply Z.leb_le|by left|done].
Qed.
End trace.
End TimeTrace.

Module PermissionTrace.
Import Permission.

Section trace.
Context (env : LibEnv).

(** The root capability of each supported type. *)
Definition root_slot (object_type : Z) : option Z :=
  match object_type with 6 => Some 0 | 2 => Some 2 | 1 => Some 1 | _ => None end.

(** The message asks for a capability of a type. *)
Definition asks (m : AppMessage) (object_type : Z) : Prop :=
  am_tag m = MSG_REQUEST_CAPABILITY /\ 4 <= len (am_data m) /\ ipc_object_type (get_u8 0 (am_data m)) = Some object_type.

Definition grant_call (m : AppMessage) (from_slot : Z) : LibCall :=
  L_cap_grant from_slot (am_from_pid m) (from_byte (get_u8 1 (am_data m))).

(** The slot that is recorded for a grant. *)
Definition recorded_slot (from_slot : Z) (r : result Z Z) : Z := match r with Ok slot => slot | Err _ => from_slot end.

(** Why an entry is in the table. *)
Definition entered (h : History) (key : Z) (cap : GrantedCap) : Prop :=
  exists m object_type from_slot h0, asks m object_type /\ root_slot object_type = Some from_slot /\
    received env INPUT_ENDPOINT_SLOT m h0 /\ (grant_call m from_slot :: h0) `suffix_of` h /\
    key = cap_key (am_from_pid m) object_type /\ gc_permissions cap = get_u8 1 (am_data m) /\
    gc_slot cap = recorded_slot from_slot (env (grant_call m from_slot) h0).

Definition accounted (c : LibCall) (h : History) : Prop :=
  match c with
  | L_get_time | L_get_wallclock | L_yield | L_receive _ => True
  | L_send _ tag _ => tag = MSG_CAPABILITY_RESPONSE \/ tag = MSG_CAPS_LIST_RESPONSE
  | L_debug line => starts_with "PERMSVC:" line = true
  | L_cap_grant from_slot _ _ => exists m object_type, asks m object_type /\ root_slot object_type = Some from_slot /\
      c = grant_call m from_slot /\ received env INPUT_ENDPOINT_SLOT m h
  | L_cap_revoke_from target slot => exists m, am_tag m = MSG_PS_REVOKE_CAP /\ am_from_pid m = 0 /\
      received env INPUT_ENDPOINT_SLOT m h /\ target = get_u32 0 (am_data m) /\ slot = get_u32 4 (am_data m)
  | _ => False
  end.

Definition inv (p : PermissionService) (h : History) : Prop :=
  traced accounted h /\
  (forall object_type slot, source_slot object_type p = Some (Some slot) -> root_slot object_type = Some slot) /\
  forall key cap, ps_granted_caps p !! key = Some cap -> entered h key cap.

Lemma entered_mono h h' key cap : entered h key cap -> h `suffix_of` h' -> entered h' key cap.
Proof.
  intros (m & ot & fs & h0 & Ha & Hr & Hm & Hs & E) Hh. exists m, ot, fs, h0. do 3 (split; [done|]). split; [by trans h|done].
Qed.

Lemma permission_inv_call c p h : accounted c h -> inv p h -> inv p (c :: h).
Proof.
  intros Ha (Ht & Hr & Hp). split_and!; [by split|done|]. intros key cap Hc. eapply entered_mono; [by apply Hp|].
  by apply suffix_cons_r.
Qed.

Lemma inv_subset m p h : m ⊆ ps_granted_caps p -> inv p h -> inv (set_granted m p) h.
Proof. intros Hs (Ht & Hr & Hp). split_and!; [done|done|]. intros key cap Hc. apply Hp. by eapply lookup_weaken. Qed.

Lemma inv_remove pid ot p h : inv p h -> inv (remove_grant pid ot p) h.
Proof. apply inv_subset, delete_subseteq. Qed.

Lemma forget_inv types pid slot p h : inv p h -> inv (forget_slot types pid slot p) h.
Proof.
  induction types as [|t types IH]; intros Hi; [done|]. cbn [forget_slot].
  destruct (get_grant pid t p); [destruct (_ =? _); [by apply inv_remove|]|]; by apply IH.
Qed.

Lemma ui_inv ctx tag data p h :
  tag = MSG_CAPABILITY_RESPONSE -> inv p h -> wp (send_to_ui (H := recorder env) ctx tag data) (fun _ => inv) p h.
Proof. intros -> Hi. unfold send_to_ui. repeat wp_step; [|done]. apply permission_inv_call; [by left|done]. Qed.

Lemma permission_request_inv ctx m p h :
  received env INPUT_ENDPOINT_SLOT m h -> am_tag m = MSG_REQUEST_CAPABILITY -> inv p h ->
  wp (handle_cap_request (H := recorder env) ctx m) (fun _ => inv) p h.
Proof.
  intros Hm Ht Hi. unfold handle_cap_request. cbv zeta.
  destruct (len (am_data m) <? 4) eqn:El; [by apply ui_inv|].
  destruct (ipc_object_type _) as [ot|] eqn:Eo; [|by apply ui_inv]. do 2 wp_step.
  destruct (get_grant _ _ _); [by apply ui_inv|].
  destruct (source_slot ot p) as [[from_slot|]|] eqn:Es; [|by apply ui_inv..].
  assert (asks m ot) as Ha by (split_and!; [done|lia|done]).
  assert (root_slot ot = Some from_slot) as Hr by (by apply Hi).
  assert (inv p (grant_call m from_slot :: h)) as Hi' by (apply permission_inv_call; [by exists m, ot|done]).
  assert (forall reason, inv (record_grant (am_from_pid m) ot (recorded_slot from_slot (env (grant_call m from_slot) h))
    (get_u8 1 (am_data m)) reason p) (grant_call m from_slot :: h)) as Hrec.
  { intros reason. destruct Hi' as (Hh & Hroots & Hp). split_and!; [done|done|simpl].
    intros key cap [[<- <-]|[_ Hc]]%lookup_insert_Some; [|by apply Hp]. by exists m, ot, from_slot, h. }
  unfold grant_and_record. do 2 wp_step. fold (grant_call m from_slot) in *.
  destruct (env _ h) as [slot|e] eqn:Eg.
  - do 2 wp_step. apply ui_inv; [done|]. apply (Hrec (request_reason (am_data m))).
  - do 4 wp_step. apply ui_inv; [done|]. apply permission_inv_call; [done|]. apply (Hrec (request_reason (am_data m))).
Qed.

Lemma permission_invariant : AppInvariant env INPUT_ENDPOINT_SLOT inv.
Proof.
  split; [intros c p h Hc; apply permission_inv_call; by destruct c|done|done|].
  intros ctx m p h Hi Em. cbn [app_on_message PermissionService_app]. unfold permission_on_message.
  pose proof (received_here _ _ _ _ Em) as Hr.
  assert (inv p (L_receive INPUT_ENDPOINT_SLOT :: h)) as Hi' by by apply permission_inv_call. cbv zeta.
  destruct (_ =? MSG_REQUEST_CAPABILITY) eqn:E0; [by apply permission_request_inv; [| apply Z.eqb_eq|]|].
  destruct (_ =? MSG_REVOKE_CAPABILITY) eqn:E1; [|destruct (_ =? MSG_LIST_MY_CAPS) eqn:E2;
    [|destruct (_ =? MSG_PS_REVOKE_CAP) eqn:E3; [|done]]]; rewrite ?Z.eqb_eq in *.
  - unfold handle_cap_revoke. cbv zeta. destruct (_ <? 4); [by apply ui_inv|]. do 2 wp_step.
    destruct (find_by_slot _ _ _) as [ot|]; [|by apply ui_inv]. do 4 wp_step. apply ui_inv; [done|].
    by apply inv_remove, permission_inv_call.
  - unfold handle_list_caps. repeat wp_step; (try (apply permission_inv_call; [by right|])); by apply permission_inv_call.
  - unfold handle_supervisor_revoke. cbv zeta. destruct (am_from_pid _ =? 0) eqn:Ef; cbn [negb]; [|done].
    destruct (_ <? 9); [done|]. do 2 wp_step. set (c := L_cap_revoke_from _ _).
    assert (inv p (c :: L_receive INPUT_ENDPOINT_SLOT :: h)) as Hc
      by (apply permission_inv_call; [exists (app_message m); split_and!; [done|lia|done..]|done]).
    repeat wp_step; [|done]. apply permission_inv_call; [done|]. by apply forget_inv.
Qed.

Lemma permission_starts ctx :
  wp (app_init (H := recorder env) ctx) (fun _ => inv) PermissionService_default [L_get_wallclock; L_get_time].
Proof. split_and!; [simpl; auto| |done]. intros ot slot E. unfold source_slot in E. by repeat case_match; simplify_eq. Qed.
End trace.
End PermissionTrace.

(** ** Lines of the debug channel *)
Module Lines.
Import Hal KernelState System Bridge SpawnState WebHal WebSupervisor SupDispatch.

(** Text without the sign of which rulers are made. *)
Definition plain (s : string) : Prop := str_contains_char "=" s = false.

Lemma plain_app s1 s2 : plain s1 -> plain s2 -> plain (s1 +:+ s2).
Proof.
  unfold plain. intros H1 H2. induction s1 as [|a s1 IH]; [done|].
  change (String a s1 +:+ s2) with (String a (s1 +:+ s2)). cbn [str_contains_char] in *.
  apply orb_false_iff in H1 as [-> H1]. by rewrite IH.
Qed.

Lemma plain_digit (x : N) : (x < 10)%N -> Ascii.eqb (pretty_N_char x) "=" = false.
Proof.
  intros Hx. assert (Hall : Forall (fun n => Ascii.eqb (pretty_N_char (N.of_nat n)) "=" = false) (seq 0 10))
    by (by repeat constructor).
  rewrite Forall_forall in Hall. pose proof (Hall (N.to_nat x) ltac:(apply elem_of_seq; lia)) as Hn.
  by rewrite N2Nat.id in Hn.
Qed.

Lemma plain_pretty_go (x : N) s : plain s -> plain (pretty_N_go x s).
Proof.
  revert s. induction (N.lt_wf_0 x) as [x _ IH]. intros s Hs.
  destruct (decide (x = 0)%N) as [->|Hz]; [by rewrite pretty_N_go_0|].
  rewrite pretty_N_go_step by lia. apply IH; [by apply N.div_lt; lia|].
  unfold plain in *. cbn [str_contains_char]. rewrite plain_digit; [done|]. by apply N.mod_lt.
Qed.

Lemma plain_pretty (n : Z) : plain (pretty n).
Proof.
  destruct n as [|p|p]; [done|by apply (plain_pretty_go (N.pos p))|]. unfold plain.
  change (pretty (Z.neg p)) with ("-" +:+ pretty_N_go (N.pos p) ""). by apply plain_app, plain_pretty_go.
Qed.

Lemma plain_hex l : plain (hex_bytes l).
Proof.
  induction l as [|b l IH]; [done|]. apply plain_app; [|done].
  assert (Hall : Forall (fun n => Ascii.eqb (hex_digit (Z.of_nat n)) "=" = false) (seq 0 16)) by (by repeat constructor).
  rewrite Forall_forall in Hall. pose proof (hex_digits_range b) as (Hq & Hm & _).
  pose proof (Hall (Z.to_nat (Z_of_byte b / 16)) ltac:(apply elem_of_seq; lia)) as H1.
  pose proof (Hall (Z.to_nat (Z_of_byte b mod 16)) ltac:(apply elem_of_seq; lia)) as H2.
  rewrite !Z2Nat.id in * by lia. unfold plain, hex_byte. cbn [str_contains_char]. by rewrite H1, H2.
Qed.

Lemma plain_no_ruler s : plain s -> str_contains RULER s = false.
Proof.
  unfold plain. induction s as [|a s IH]; intros Hp; [done|]. cbn [str_contains_char] in Hp.
  apply orb_false_iff in Hp as [Ha Hp]. cbn [str_contains]. rewrite IH by done. rewrite orb_false_r.
  unfold RULER. cbn [starts_with]. rewrite Ascii.eqb_sym. by rewrite Ha.
Qed.


Lemma routed_line to_pid tag data :
  0 <= to_pid < 2 ^ 32 -> 0 <= tag < 2 ^ 32 ->
  sv_debug_response (pretty to_pid +:+ ":" +:+ hex_u32 tag +:+ ":" +:+ hex_bytes data) =
  sv_route_ipc_via_init to_pid SERVICE_INPUT_SLOT tag data.
Proof.
  intros Hp Ht. destruct (pretty_u32 to_pid Hp) as [Hpp Hpc]. unfold sv_debug_response, splitn3.
  rewrite (split_once_app ":" (pretty to_pid) (hex_u32 tag +:+ ":" +:+ hex_bytes data)) by done.
  change (":" +:+ hex_bytes data) with (String ":" (hex_bytes data)).
  rewrite (split_once_app ":" (hex_u32 tag) (hex_bytes data)) by (apply hex_bytes_no_colon).
  by rewrite Hpp, hex_u32_parse, hex_to_bytes_print.
Qed.

Lemma keystore_line pid to_pid tag data :
  0 <= to_pid < 2 ^ 32 -> 0 <= tag < 2 ^ 32 ->
  dispatch_debug_message pid (Keystore.response_line to_pid tag data) =
  sv_route_ipc_via_init to_pid SERVICE_INPUT_SLOT tag data.
Proof. intros Hp Ht. exact (routed_line to_pid tag data Hp Ht). Qed.

Lemma net_line pid to_pid data (v : Sup) :
  exists v', dispatch_debug_message pid (NetService.response_line to_pid data) v = Some (tt, v') /\
    sv_system v' = sv_system v.
Proof.
  change (dispatch_debug_message pid (NetService.response_line to_pid data)) with
    (handle_debug_console_output pid (NetService.response_line to_pid data)).
  unfold handle_debug_console_output. rewrite plain_no_ruler.
  - by eexists.
  - unfold NetService.response_line. repeat apply plain_app; try done; [apply plain_pretty|apply plain_hex].
Qed.
End Lines.

(** ** Theorems *)
#[local] Existing Instances Keystore.KeystoreService_app NetService.NetworkService_app TimeService.TimeService_app Permission.PermissionService_app.

Section claims.
Context {W : Target} (env : LibEnv).

(** C27: whatever the environment answers and however long it runs, unless a result
    declares a length within 9 bytes of the address space, the keystore service
    returns to its event loop, never has more than 256 operations pending,
    and does nothing without a reason: a keystore call is the one a received, valid
    request asks for; a response goes to a client that asked, refuses its request
    or carries the result of the operation the client had started, and that result
    was received after the system numbered the call. No success is reported before
    a result says so. *)
Theorem keystore_accountable {J : Keystore.KeystoreJson} turns polls pid :
  bounded_results env Keystore.MSG_KEYSTORE_RESULT ->
  exists x k h, run (H0 := recorder env) turns polls (service_runtime pid "com.zero.keystore")
      (Keystore.KeystoreService_default, []) = Some (x, (k, h)) /\
    Z.of_nat (size (Keystore.ks_pending_ops k)) <= Keystore.MAX_PENDING_OPS /\
    forall c h', (c :: h') `suffix_of` h -> KeystoreTrace.accounted env c h'.
Proof.
  intros Hb. destruct (run_exists env (KeystoreTrace.keystore_invariant env Hb) turns polls (service_runtime pid "com.zero.keystore")
    Keystore.KeystoreService_default eq_refl (KeystoreTrace.keystore_starts env)) as (x & k & h & E & Ht & Hn & _).
  exists x, k, h. split_and!; [done|done|]. intros c h'. by apply traced_suffix.
Qed.

(** C28: unless a result declares a length within 9 bytes of the address space, only
    requests of trusted processes reach the network, at most 64 at a time, and every report is made for the process that asked. But no client ever
    sees one: each report is a NET:RESPONSE line, and a supervisor in any state
    leaves the system as it is when it reads the line. *)
Theorem network_reports_lost turns polls pid :
  bounded_results env NetService.MSG_NET_RESULT ->
  exists x n h, run (H0 := recorder env) turns polls (service_runtime pid "com.zero.network")
      (NetService.NetworkService_default, []) = Some (x, (n, h)) /\
    Z.of_nat (size (NetService.ns_pending_ops n)) <= NetService.MAX_PENDING_OPS /\
    (forall c h', (c :: h') `suffix_of` h -> NetTrace.accounted env c h') /\
    forall line v, L_debug line ∈ h -> exists v', SupDispatch.dispatch_debug_message pid line v = Some (tt, v') /\
      WebSupervisor.sv_system v' = WebSupervisor.sv_system v.
Proof.
  intros Hb. destruct (run_exists env (NetTrace.network_invariant env Hb) turns polls (service_runtime pid "com.zero.network")
    NetService.NetworkService_default eq_refl (NetTrace.network_starts env)) as (x & n & h & E & Ht & Hn & _).
  exists x, n, h. split_and!; [done|done| |].
  - intros c h'. by apply traced_suffix.
  - intros line v Hl. apply list_elem_of_split in Hl as (l1 & l2 & ->).
    destruct (traced_suffix _ _ (L_debug line) l2 Ht) as (to_pid & data & -> & _); [by exists l1|].
    apply Lines.net_line.
Qed.

(** C29: however long the time service runs, whatever it is sent and answered, at
    most 32 operations are pending, and whichever message comes next leaves the
    settings as they are but for three cases: a write response with success makes
    those current that a trusted process had asked for and that were sent to the file
    system; a read response with settings, after a read was sent, makes these
    current; a read response without any, after a read was sent, brings the defaults
    back. Who sent the response the service does not check. All that it sends are its
    registration, reads of its file, writes that a trusted process asked for and
    responses; a change is reported as done only after a write response, and settings
    are reported only if they are the defaults, were in a read response or were
    confirmed by a write response. *)
Theorem time_settings_warranted {J : TimeService.TimeJson} {V : VfsClient.VfsClientJson} turns polls pid :
  exists x t h, run (H0 := recorder env) turns polls (service_runtime pid "com.zero.time")
      (TimeService.TimeService_default, []) = Some (x, (t, h)) /\
    Z.of_nat (size (TimeService.tm_pending_ops t)) <= TimeService.MAX_PENDING_OPS /\
    (forall ctx m, exists r t' h', TimeService.time_on_message (H := recorder env) ctx m
        (t, L_receive INPUT_ENDPOINT_SLOT :: h) = Some (r, (t', h')) /\
      TimeTrace.changes env h m (TimeService.tm_settings t) (TimeService.tm_settings t')) /\
    forall c h', (c :: h') `suffix_of` h -> TimeTrace.accounted env c h'.
Proof.
  destruct (run_exists env (TimeTrace.time_invariant env) turns polls (service_runtime pid "com.zero.time")
    TimeService.TimeService_default eq_refl (TimeTrace.time_starts env)) as (x & t & h & E & Hi).
  exists x, t, h. split_and!; [done|apply Hi| |].
  - intros ctx m. pose proof (TimeTrace.message_changes env ctx m t h (L_receive INPUT_ENDPOINT_SLOT :: h) Hi) as Hw.
    unfold wp in Hw. destruct (TimeService.time_on_message _ _ _) as [[r [t' h']]|]; [by exists r, t', h'|done].
  - intros c h'. apply traced_suffix, Hi.
Qed.

(** C30: the permission service grants copies of its three root capabilities only,
    each to the process that asked, and takes capabilities away for process 0 only.
    Every entry of its table comes from a request of the process it names; when the
    grant failed, the entry holds the service's own root slot. *)
Theorem permission_ledger turns polls pid :
  exists x p h, run (H0 := recorder env) turns polls (service_runtime pid "com.zero.permission")
      (Permission.PermissionService_default, []) = Some (x, (p, h)) /\
    (forall key cap, Permission.ps_granted_caps p !! key = Some cap -> PermissionTrace.entered env h key cap) /\
    forall c h', (c :: h') `suffix_of` h -> PermissionTrace.accounted env c h'.
Proof.
  destruct (run_exists env (PermissionTrace.permission_invariant env) turns polls (service_runtime pid "com.zero.permission")
    Permission.PermissionService_default eq_refl (PermissionTrace.permission_starts env)) as (x & p & h & E & Ht & _ & Hp).
  exists x, p, h. split_and!; [done|done|]. intros c h'. by apply traced_suffix.
Qed.
End claims.

(** ** Forged answers *)
Section forged.
Context {W : Target} (env : LibEnv) {J : Keystore.KeystoreJson}.

(** The answers of the keystore are not authenticated. A result message of any
    sender with the number of a pending read completes it with the data of the
    message; and a line printed by any process makes the supervisor route its data
    to any client as the keystore's response. *)
Theorem keystore_answers_forgeable ctx sender caps raw value k h c key data printer to_pid tag forged :
  Keystore.ks_pending_ops k !! get_u32 0 raw = Some (Keystore.P_Read c key) -> 9 <= len raw ->
  get_u8 4 raw = Keystore.KS_READ_OK -> Keystore.result_data raw = Some value -> Keystore.kc_reply_caps c = [] ->
  Keystore.keystore_to_vec (Keystore.KeystoreReadResponse (Ok value)) = Ok data ->
  0 <= to_pid < 2 ^ 32 -> 0 <= tag < 2 ^ 32 ->
  Keystore.keystore_on_message (H := recorder env) ctx (mk_AppMessage Keystore.MSG_KEYSTORE_RESULT sender caps raw) (k, h) =
    Some (Ok tt, (Keystore.set_pending (delete (get_u32 0 raw) (Keystore.ks_pending_ops k)) k,
      L_debug (Keystore.response_line (Keystore.kc_pid c) Keystore.MSG_KEYSTORE_READ_RESPONSE data) :: h)) /\
  SupDispatch.dispatch_debug_message printer (Keystore.response_line to_pid tag forged) =
    WebSupervisor.sv_route_ipc_via_init to_pid Bridge.SERVICE_INPUT_SLOT tag forged.
Proof.
  intros Hk Hl Ht Hv Hc Hd Hp Htag. split; [|by apply Lines.keystore_line].
  assert ((len raw <? 9) = false) as Hlen by lia.
  unfold Keystore.keystore_on_message. simpl. unfold Keystore.handle_keystore_result. simpl.
  rewrite Hlen, Hv. unfold mbind, PM_bind, self. simpl. rewrite Hk. simpl.
  unfold Keystore.handle_read_result, Keystore.send_response, Keystore.read_result. rewrite Ht. simpl. rewrite Hd, Hc. done.
Qed.
End forged.

(** JSON that carries the bytes of a key and of a value as they are. *)
Definition plain_json : Keystore.KeystoreJson := {|
  Keystore.read_from_slice d := Ok (Keystore.mk_KeystoreReadRequest (String.string_of_list_byte d));
  Keystore.write_from_slice d := Ok (Keystore.mk_KeystoreWriteRequest (String.string_of_list_byte d) []);
  Keystore.delete_from_slice d := Ok (Keystore.mk_KeystoreDeleteRequest (String.string_of_list_byte d));
  Keystore.exists_from_slice d := Ok (Keystore.mk_KeystoreExistsRequest (String.string_of_list_byte d));
  Keystore.list_from_slice d := Ok (Keystore.mk_KeystoreListRequest (String.string_of_list_byte d));
  Keystore.names_from_slice d := Ok [String.string_of_list_byte d];
  Keystore.keystore_to_vec r := match r with Keystore.KeystoreReadResponse (Ok d) => Ok d | _ => Ok [] end |}.

#[local] Existing Instances wasm32 Hal.HAL_TestHal.

(** Process 9 waits for a key; a message of process 66 gives it the byte 42. *)
Lemma keystore_answers_forgeable_witness :
  let c := Keystore.mk_ClientContext 9 [] in
  let k := Keystore.mk_KeystoreService true {[5 := Keystore.P_Read c "/keys/1"]} in
  let raw := (u32_to_le_bytes 5 ++ [x00] ++ u32_to_le_bytes 1 ++ [x2a])%list in
  let ctx := mk_AppContext 7 0 0 None None UserContext_system "" in
  Keystore.keystore_on_message (J := plain_json) (H := recorder quiet_env) ctx
      (mk_AppMessage Keystore.MSG_KEYSTORE_RESULT 66 [] raw) (k, []) =
    Some (Ok tt, (Keystore.set_pending (delete (get_u32 0 raw) (Keystore.ks_pending_ops k)) k,
      [L_debug (Keystore.response_line 9 Keystore.MSG_KEYSTORE_READ_RESPONSE [x2a])])) /\
  SupDispatch.dispatch_debug_message 66
      (Keystore.response_line 9 Keystore.MSG_KEYSTORE_READ_RESPONSE [x2a]) =
    WebSupervisor.sv_route_ipc_via_init 9 Bridge.SERVICE_INPUT_SLOT Keystore.MSG_KEYSTORE_READ_RESPONSE [x2a].
Proof.
  intros c k raw ctx. apply (keystore_answers_forgeable (J := plain_json) quiet_env ctx 66 [] raw [x2a] k [] c "/keys/1" [x2a] 66 9
    Keystore.MSG_KEYSTORE_READ_RESPONSE [x2a]); try reflexivity; try (vm_compute; done); lia.
Defined.

(** Process 9 asks for a key, the system numbers the call 5, and its result arrives. *)
Definition key_read : list ReceivedMessage :=
  [mk_ReceivedMessage 9 Keystore.MSG_KEYSTORE_READ [] (str_bytes "/keys/1");
   mk_ReceivedMessage 0 Keystore.MSG_KEYSTORE_RESULT []
     (u32_to_le_bytes 5 ++ [x00] ++ u32_to_le_bytes 1 ++ [x2a])%list].

Lemma keystore_accountable_witness :
  exists x k h, run (H := Keystore.KeystoreService_app (J := plain_json)) (H0 := recorder (script key_read)) 4 4
      (service_runtime 7 "com.zero.keystore") (Keystore.KeystoreService_default, []) = Some (x, (k, h)) /\
    Z.of_nat (size (Keystore.ks_pending_ops k)) <= Keystore.MAX_PENDING_OPS /\
    forall c h', (c :: h') `suffix_of` h -> KeystoreTrace.accounted (J := plain_json) (script key_read) c h'.
Proof. apply (keystore_accountable (script key_read) (J := plain_json)), script_bounded. by repeat constructor. Defined.

(** The second result declares more than it has. *)
Definition net_results : list ReceivedMessage :=
  [mk_ReceivedMessage 0 NetService.MSG_NET_RESULT [] (u32_to_le_bytes 5 ++ [x00] ++ u32_to_le_bytes 0)%list;
   mk_ReceivedMessage 0 NetService.MSG_NET_RESULT [] (u32_to_le_bytes 5 ++ [x00] ++ u32_to_le_bytes 4000000)%list].

Lemma network_reports_lost_witness :
  exists x n h, run (H0 := recorder (script net_results)) 4 4 (service_runtime 8 "com.zero.network")
      (NetService.NetworkService_default, []) = Some (x, (n, h)) /\
    Z.of_nat (size (NetService.ns_pending_ops n)) <= NetService.MAX_PENDING_OPS /\
    (forall c h', (c :: h') `suffix_of` h -> NetTrace.accounted (script net_results) c h') /\
    forall line v, L_debug line ∈ h -> exists v', SupDispatch.dispatch_debug_message 8 line v = Some (tt, v') /\
      WebSupervisor.sv_system v' = WebSupervisor.sv_system v.
Proof. apply (network_reports_lost (script net_results)), script_bounded. by repeat constructor. Defined.

(** ** Applications are never updated *)

(** The applications differ in [update] and [shutdown] only. *)
Definition same_messages (env : LibEnv) {A : Type} (H1 H2 : ZeroApp A) : Prop :=
  (forall ctx st, @app_init A H1 _ (recorder env) ctx st = @app_init A H2 _ (recorder env) ctx st) /\
  (forall ctx m st, @app_on_message A H1 _ (recorder env) ctx m st = @app_on_message A H2 _ (recorder env) ctx m st).

Section updates.
Context (env : LibEnv) {A : Type} (H1 H2 : ZeroApp A) (Hsame : same_messages env H1 H2).

Abbreviation turns_of Ha := (@run_turns A (list LibCall) Ha (recorder env)).

Lemma poll_same polls ctx slot st :
  @poll_messages A _ H1 (recorder env) polls ctx slot st = @poll_messages A _ H2 (recorder env) polls ctx slot st.
Proof.
  revert st. induction polls as [|n IH]; intros st; [done|]. cbn [poll_messages]. unfold mbind, PM_bind.
  destruct (call (L_receive slot) st) as [[[m|e] st1]|]; [|done|done]. rewrite (proj2 Hsame).
  destruct (@app_on_message A H2 _ _ _ _ _) as [[x st2]|]; [apply IH|done].
Qed.

Lemma turn_same polls r st :
  (forall h, env L_get_time h = 0) -> ar_last_update_ns r = 0 -> 0 < ar_update_interval_ns r ->
  @run_turn A _ H1 (recorder env) polls r st = @run_turn A _ H2 (recorder env) polls r st /\
  forall x st', @run_turn A _ H2 (recorder env) polls r st = Some (x, st') -> x = (None, r).
Proof.
  intros Ht Hl Hi. unfold run_turn, build_context, lift, mbind, PM_bind, sys_call, recorder, mret, PM_ret. simpl.
  rewrite Ht, Hl. change (wrap_u64 (0 - 0)) with 0. assert ((ar_update_interval_ns r <=? 0) = false) as -> by lia.
  destruct (ar_input_slot r) as [slot|]; simpl.
  - rewrite poll_same. destruct (poll_messages _ _ _ _) as [[x st2]|]; [|done]. split; [done|]. by intros ?? [= <- <-].
  - split; [done|]. by intros ?? [= <- <-].
Qed.

Lemma turns_same turns polls r st :
  (forall h, env L_get_time h = 0) -> ar_last_update_ns r = 0 -> 0 < ar_update_interval_ns r ->
  turns_of H1 turns polls r st = turns_of H2 turns polls r st.
Proof.
  intros Ht Hl Hi. revert st. induction turns as [|n IH]; intros st; [done|]. cbn [run_turns]. unfold mbind, PM_bind.
  destruct (turn_same polls r st Ht Hl Hi) as [-> Hx].
  destruct (@run_turn A _ H2 _ _ _ _) as [[x st2]|] eqn:E; [|done]. by rewrite (Hx x st2).
Qed.

(** C33: no application is ever updated. The kernel answers the number that the
    library uses for the time with 0, and a runtime that is told the time 0 behaves
    the same whatever [update] and [shutdown] do: it never calls them, however many
    turns it runs. *)
Theorem updates_never_run `{Prelude.Target} `{Hal.HAL Hh} sender args data (s : System.System Hh) turns polls r st :
  (forall h, env L_get_time h = 0) -> ar_last_update_ns r = 0 -> 0 < ar_update_interval_ns r ->
  (exists s', System.process_syscall sender Hal.SYS_TIME args data s = Some ((0, KernelState.SR_Ok 0, []), s')) /\
  @run A _ H1 (recorder env) turns polls r st = @run A _ H2 (recorder env) turns polls r st.
Proof.
  intros Ht Hl Hi. split.
  - destruct (System.uptime_nanos s) as [t s1] eqn:Eu.
    edestruct (SystemRun.process_syscall_exact sender Hal.SYS_TIME args data s t s1 0 [] [] (System.kernel s1)
      (KernelState.SR_Ok 0) [] [] (System.kernel s1) Eu) as (s' & E & _); [done|done|]. by exists s'.
  - unfold run, mbind, PM_bind. destruct (lift _ st) as [[ctx st1]|]; [|done]. rewrite (proj1 Hsame).
    destruct (@app_init A H2 _ _ _ _) as [[[u|e] st2]|]; [|done|done]. by rewrite turns_same.
Qed.
End updates.

(** A keystore that would exit at its first update. *)
Definition exiting_keystore : ZeroApp Keystore.KeystoreService := {|
  app_init := fun S _ => Keystore.keystore_init;
  app_update := fun _ _ _ => mret (CF_Exit 0);
  app_on_message := fun S _ => Keystore.keystore_on_message (J := plain_json);
  app_shutdown := fun _ _ _ => mret tt |}.

Lemma updates_never_run_witness :
  let s := System.System_new Hal.TestHal_new in
  (exists s', System.process_syscall 7 Hal.SYS_TIME (0, 0, 0, 0) [] s = Some ((0, KernelState.SR_Ok 0, []), s')) /\
  @run _ _ (Keystore.KeystoreService_app (J := plain_json)) (recorder quiet_env) 3 3 (service_runtime 7 "com.zero.keystore")
    (Keystore.KeystoreService_default, []) =
  @run _ _ exiting_keystore (recorder quiet_env) 3 3 (service_runtime 7 "com.zero.keystore")
    (Keystore.KeystoreService_default, []).
Proof.
  intros s. apply (updates_never_run quiet_env (Keystore.KeystoreService_app (J := plain_json)) exiting_keystore);
    [by split|reflexivity|reflexivity|reflexivity].
Defined.
