(* ===== verification/IdProps.v ===== *)
(** * Properties of the identity service

    What the service does in any environment: its messages may come from anyone and
    its storage and network may answer anything that does not make it panic. *)
From Stdlib Require Import ZifyBool.
From S2P Require Import NetService ServiceProps.
From S2P Require Import Prelude StrLib ProcessLib AppFramework VfsPath VfsClient Keystore IdTypes IdKeys IdSession IdService.

Local Open Scope string_scope.
Local Open Scope Z_scope.
Local Open Scope zos_scope.

(** ** The [?] operator *)
Lemma wp_bind_ok {A T U E} (m : AppM A History (result T E)) (k : T -> AppM A History (result U E)) Q a h :
  wp m (fun r a h => match r with Ok x => wp (k x) Q a h | Err e => Q (Err e) a h end) a h -> wp (bind_ok m k) Q a h.
Proof. intros Hm. apply awp_bind. eapply awp_mono; [exact Hm|]. by intros [x|e]. Qed.

Ltac id_step :=
  lazymatch goal with
  | |- wp (bind_ok _ _) _ _ _ => apply wp_bind_ok
  | |- match ?x with _ => _ end => destruct x eqn:?
  | |- _ => wp_step
  end.

(** ** Whom the service works for *)
Create HintDb identity.
Create HintDb responses.
Create HintDb handlers.

Module IdTrace.

(** The requests that have no user. *)
Definition registration_tags : list Z :=
  [MSG_ZID_REGISTER_EMAIL; MSG_ZID_INIT_OAUTH; MSG_ZID_OAUTH_CALLBACK; MSG_ZID_INIT_WALLET; MSG_ZID_VERIFY_WALLET].

(** Responses that tell nothing about a user. *)
Definition refusal (r : IdResponse) : Prop :=
  match r with
  | GenerateNeuralKeyResponse (Err _) | RecoverNeuralKeyResponse (Err _) | GetIdentityKeyResponse (Err _)
  | CreateMachineKeyResponse (Err _) | ListMachineKeysResponse [] | GetMachineKeyResponse (Err _)
  | RevokeMachineKeyResponse (Err _) | RotateMachineKeyResponse (Err _) | CreateMachineKeyAndEnrollResponse (Err _)
  | AttachEmailResponse (Err _) | GetCredentialsResponse [] | UnlinkCredentialResponse (Err _) | ZidLoginResponse (Err _)
  | ZidEmailLoginResponse (Err _) | ZidEnrollMachineResponse (Err _) | ZidLogoutResponse (Err _) | ZidRefreshResponse (Err _)
  | SetDefaultKeySchemeResponse (Err _) | SetDefaultMachineKeyResponse (Err _) | GetTierStatusResponse (Err _)
  | UpgradeToSelfSovereignResponse (Err _) => True
  | _ => False
  end.

(** A response carries the tag after that of its request, but for one. *)
Definition answers (request response : Z) : Prop :=
  response = request + 1 \/
  (request = MSG_GET_IDENTITY_PREFERENCES /\ response = MSG_SET_DEFAULT_KEY_SCHEME_RESPONSE).

Section ops.
Context {C : IdCrypto}.

(** The client of an operation and its request. *)
Definition storage_client (op : PendingStorageOp) : RequestContext * Z :=
  match op with
  | CheckIdentityDirectory ctx _ _ | CreateIdentityDirectory ctx _ _ _ | CreateIdentityDirectoryComplete ctx _ _
  | CreateDerivedUserDirectory ctx _ _ | CheckKeyExists ctx _ _ | WriteKeyStore ctx _ _ _ => (ctx, MSG_GENERATE_NEURAL_KEY)
  | GetIdentityKey ctx => (ctx, MSG_GET_IDENTITY_KEY)
  | ReadIdentityForRecovery ctx _ _ | WriteRecoveredKeyStore ctx _ _ _ => (ctx, MSG_RECOVER_NEURAL_KEY)
  | ReadIdentityForMachine ctx _ | WriteMachineKey ctx _ _ _ => (ctx, MSG_CREATE_MACHINE_KEY)
  | ListMachineKeys ctx _ | ReadMachineKey ctx _ _ _ => (ctx, MSG_LIST_MACHINE_KEYS)
  | DeleteMachineKey ctx _ _ => (ctx, MSG_REVOKE_MACHINE_KEY)
  | ReadMachineForRotate ctx _ _ | WriteRotatedMachineKey ctx _ _ _ => (ctx, MSG_ROTATE_MACHINE_KEY)
  | ReadSingleMachineKey ctx => (ctx, MSG_GET_MACHINE_KEY)
  | ReadCredentialsForAttach ctx _ _ | WriteEmailCredential ctx _ _ | CreateCredentialsDirectory ctx _ _
  | WriteEmailCredentialRetry ctx _ _ => (ctx, MSG_ATTACH_EMAIL)
  | GetCredentials ctx => (ctx, MSG_GET_CREDENTIALS)
  | ReadCredentialsForUnlink ctx _ _ | WriteUnlinkedCredential ctx _ _ => (ctx, MSG_UNLINK_CREDENTIAL)
  | ReadMachineKeyForZidLogin ctx _ _ | WriteZidSession ctx _ _ _ | ReadPreferencesForZidLogin ctx _ _ => (ctx, MSG_ZID_LOGIN)
  | ReadMachineKeyForZidEnroll ctx _ _ | WriteZidEnrollSession ctx _ _ _ => (ctx, MSG_ZID_ENROLL_MACHINE)
  | DeleteZidSession ctx => (ctx, MSG_ZID_LOGOUT)
  | WriteZidEmailLoginSession ctx _ _ _ => (ctx, MSG_ZID_LOGIN_EMAIL)
  | ReadIdentityPreferences ctx _ => (ctx, MSG_GET_IDENTITY_PREFERENCES)
  | ReadPreferencesForUpdate ctx _ _ | WritePreferences ctx _ _ => (ctx, MSG_SET_DEFAULT_KEY_SCHEME)
  | ReadPreferencesForDefaultMachine ctx _ _ | WritePreferencesForDefaultMachine ctx _ _
  | CreateIdentityDirForPreferences ctx _ _ | WritePreferencesForDefaultMachineRetry ctx _ _ =>
      (ctx, MSG_SET_DEFAULT_MACHINE_KEY)
  | ReadZidSessionForRefresh ctx _ _ _ | WriteRefreshedZidSession ctx _ _ _ => (ctx, MSG_ZID_REFRESH)
  end.

Definition keystore_client (op : PendingKeystoreOp) : RequestContext * Z :=
  match op with
  | K_CheckKeyExists ctx _ _ | K_WriteKeyStore ctx _ _ _ _ | K_WriteEncryptedShards ctx _ _
  | K_DeleteIdentityKeyAfterShardFailure ctx _ => (ctx, MSG_GENERATE_NEURAL_KEY)
  | K_GetIdentityKey ctx => (ctx, MSG_GET_IDENTITY_KEY)
  | K_ReadIdentityForRecovery ctx _ _ | K_WriteRecoveredKeyStore ctx _ _ _ => (ctx, MSG_RECOVER_NEURAL_KEY)
  | K_ReadIdentityForMachine ctx _ | K_ReadEncryptedShardsForMachine ctx _ _ _ | K_WriteMachineKey ctx _ _ _ =>
      (ctx, MSG_CREATE_MACHINE_KEY)
  | K_ListMachineKeys ctx _ | K_ReadMachineKey ctx _ _ _ => (ctx, MSG_LIST_MACHINE_KEYS)
  | K_DeleteMachineKey ctx _ _ => (ctx, MSG_REVOKE_MACHINE_KEY)
  | K_ReadMachineForRotate ctx _ _ | K_WriteRotatedMachineKey ctx _ _ _ => (ctx, MSG_ROTATE_MACHINE_KEY)
  | K_ReadSingleMachineKey ctx => (ctx, MSG_GET_MACHINE_KEY)
  | K_ListMachineKeysForZidLogin ctx _ _ | K_ReadMachineKeyForZidLogin ctx _ _ => (ctx, MSG_ZID_LOGIN)
  | K_ListMachineKeysForZidEnroll ctx _ _ | K_ReadMachineKeyForZidEnroll ctx _ _ => (ctx, MSG_ZID_ENROLL_MACHINE)
  | K_ReadIdentityForMachineEnroll ctx _ | K_ReadEncryptedShardsForMachineEnroll ctx _ _ _
  | K_WriteMachineKeyForEnroll ctx _ _ _ _ _ _ _ _ => (ctx, MSG_CREATE_MACHINE_KEY_AND_ENROLL)
  end.

Definition network_client (op : PendingNetworkOp) : RequestContext * Z :=
  match op with
  | RequestZidChallenge ctx _ _ _ | SubmitZidLogin ctx _ _ => (ctx, MSG_ZID_LOGIN)
  | SubmitEmailToZid ctx _ _ => (ctx, MSG_ATTACH_EMAIL)
  | SubmitZidEnroll ctx _ _ _ _ | RequestZidChallengeAfterEnroll ctx _ _ _ | SubmitZidLoginAfterEnroll ctx _ _ _ =>
      (ctx, MSG_ZID_ENROLL_MACHINE)
  | SubmitZidEnrollForCombined ctx _ _ _ _ | RequestZidChallengeForCombined ctx _ _ _ _
  | SubmitZidLoginForCombined ctx _ _ _ _ => (ctx, MSG_CREATE_MACHINE_KEY_AND_ENROLL)
  | SubmitZidRefresh ctx _ _ _ _ _ => (ctx, MSG_ZID_REFRESH)
  | SubmitZidEmailLogin ctx _ _ => (ctx, MSG_ZID_LOGIN_EMAIL)
  | RegisterEmail ctx _ _ => (ctx, MSG_ZID_REGISTER_EMAIL)
  | InitOAuth ctx _ _ => (ctx, MSG_ZID_INIT_OAUTH)
  | OAuthCallback ctx _ _ => (ctx, MSG_ZID_OAUTH_CALLBACK)
  | InitWallet ctx _ _ _ => (ctx, MSG_ZID_INIT_WALLET)
  | VerifyWallet ctx _ => (ctx, MSG_ZID_VERIFY_WALLET)
  | GetTierStatus ctx _ _ => (ctx, MSG_ZID_GET_TIER)
  | UpgradeToSelfSovereign ctx _ _ => (ctx, MSG_ZID_UPGRADE)
  end.
End ops.

(** The processes that [check_user_authorization] allows. *)
Definition trusted (pid : Z) : Prop := pid <= DESKTOP_PROCESS_PID.

(** *** What the service relies on *)

(** The shares are five, and a sealed text has its tag. *)
Record crypto_sizes {C : IdCrypto} : Prop := {
  five_shards : forall i key shards, split_neural_key i key = Ok shards -> length shards = 5%nat;
  tag_bytes : forall key nonce text sealed, aes_gcm_encrypt key nonce text = Ok sealed -> 16 <= len sealed }.
Arguments crypto_sizes : clear implicits.

(** The month of the time is one that the table of the months has. *)
Definition dated (timestamp : string) : Prop :=
  match rfc3339_date timestamp with Some (year, month, _, _) => is_Some (month_days year month) | None => True end.

(** Tokens in the body of the answer expire at such a time. *)
Record dated_success {C : IdCrypto} {J : IdJson} (success : HttpSuccess) : Prop := {
  login_dated : forall tokens : ZidTokens, from_slice (hs_body success) = Ok tokens -> dated (zt_expires_at tokens);
  refresh_dated : forall tokens : RefreshTokensPartial,
    from_slice (hs_body success) = Ok tokens -> dated (rt_expires_at tokens) }.

(** So do those of every network result that is delivered. *)
Definition dated_results {W : Target} {C : IdCrypto} {J : IdJson} (env : LibEnv) : Prop := forall h m data success,
  env (L_receive INPUT_ENDPOINT_SLOT) h = Ok m -> rm_tag m = MSG_NET_RESULT -> net_result_data (rm_data m) = Some data ->
  hre_result (http_response_of (get_u8 4 (rm_data m)) data) = Ok success -> dated_success success.

(** *** The request that a call is made for *)

(** The message received last. *)
Fixpoint latest (env : LibEnv) (h : History) : option AppMessage :=
  match h with
  | [] => None
  | L_receive slot :: h' =>
      match env (L_receive slot) h' with
      | Ok m => if slot =? INPUT_ENDPOINT_SLOT then Some (app_message m) else latest env h'
      | Err _ => latest env h'
      end
  | _ :: h' => latest env h'
  end.

(** The services that it asks, the calls by which it does and the tags of their answers. *)
Inductive Server := FileSystem | KeyStore | Network.

Definition asks (c : LibCall) (server : Server) : Prop :=
  match c, server with
  | L_send slot _ _, FileSystem => slot = VFS_ENDPOINT_SLOT
  | L_send slot _ _, KeyStore => slot = KEYSTORE_ENDPOINT_SLOT
  | L_network_fetch _, Network => True
  | _, _ => False
  end.

Definition answer_of (server : Server) (tag : Z) : Prop :=
  match server with
  | FileSystem => is_vfs_response tag = true
  | KeyStore => is_keystore_response tag = true
  | Network => tag = MSG_NET_RESULT
  end.

(** At this point of the history the service works for the request with tag [t] that
    is to be answered to [ctx]: it handles that request, or an answer of a server
    that it asked while it worked for the request. *)
Inductive works_for (env : LibEnv) (ctx : RequestContext) (t : Z) : History -> Prop :=
  | W_request h m : latest env h = Some m -> reply_to m = ctx -> am_tag m = t -> works_for env ctx t h
  | W_answer h m server c h' :
      latest env h = Some m -> answer_of server (am_tag m) ->
      (c :: h') `suffix_of` h -> asks c server -> works_for env ctx t h' -> works_for env ctx t h.

Section trace.
Context {W : Target} {C : IdCrypto} {J : IdJson} {V : VfsClientJson} {K : KeystoreClientJson} {U : UnicodeCase}.
Context (env : LibEnv).
Context (HC : crypto_sizes C) (HD : dated_results env) (Hb : bounded_results env NetService.MSG_NET_RESULT).

(** A server was asked for the request. *)
Definition asked (server : Server) (h : History) (ctx : RequestContext) (t : Z) : Prop :=
  exists c h', (c :: h') `suffix_of` h /\ asks c server /\ works_for env ctx t h'.

(** Whose request goes to the network: a trusted process, or one that registers. *)
Definition admitted (ctx : RequestContext) (t : Z) : Prop := trusted (rc_client_pid ctx) \/ t ∈ registration_tags.

(** The call carries a response to a client. *)
Definition responds (c : LibCall) (h : History) : Prop :=
  exists ctx t tag r data, works_for env ctx t h /\ answers t tag /\ (admitted ctx t \/ refusal r) /\ to_vec r = Ok data /\
    (c = L_debug (id_response_line (rc_client_pid ctx) tag data) \/
     exists slot, head (rc_cap_slots ctx) = Some slot /\ c = L_send slot tag data).

(** A request to the file system or the keystore, for a trusted process. *)
Definition stores (c : LibCall) (h : History) : Prop :=
  exists ctx t, works_for env ctx t h /\ trusted (rc_client_pid ctx) /\ (asks c FileSystem \/ asks c KeyStore).

Definition registers (c : LibCall) : Prop :=
  exists ctx, c = L_send 0 MSG_REGISTER_SERVICE (identity_registration ctx).

(** Everything the service does. *)
Definition accounted (c : LibCall) (h : History) : Prop :=
  match c with
  | L_get_time | L_get_wallclock | L_yield | L_receive _ => True
  | L_network_fetch _ => exists ctx t, works_for env ctx t h /\ admitted ctx t
  | L_send _ _ _ => registers c \/ stores c h \/ responds c h
  | L_debug _ => responds c h
  | _ => False
  end.

Definition inv (s : IdentityService) (h : History) : Prop :=
  traced accounted h /\
  (Z.of_nat (size (id_pending_vfs_ops s)) <= MAX_PENDING_VFS_OPS /\
   Z.of_nat (size (id_pending_keystore_ops s)) <= MAX_PENDING_KEYSTORE_OPS /\
   Z.of_nat (size (id_pending_net_ops s)) <= MAX_PENDING_NET_OPS) /\
  (forall id op, id_pending_vfs_ops s !! id = Some op ->
     asked FileSystem h (storage_client op).1 (storage_client op).2 /\ trusted (rc_client_pid (storage_client op).1)) /\
  (forall id op, id_pending_keystore_ops s !! id = Some op ->
     asked KeyStore h (keystore_client op).1 (keystore_client op).2 /\ trusted (rc_client_pid (keystore_client op).1)) /\
  (forall id op, id_pending_net_ops s !! id = Some op ->
     asked Network h (network_client op).1 (network_client op).2 /\ admitted (network_client op).1 (network_client op).2).

(** The invariant while a request of [ctx] is being served. *)
Definition serving (ctx : RequestContext) (t : Z) (s : IdentityService) (h : History) : Prop :=
  inv s h /\ works_for env ctx t h.

Lemma server_asked_cons server h ctx t c : asked server h ctx t -> asked server (c :: h) ctx t.
Proof. intros (c' & h' & Hs & Hw). exists c', h'. split; [by apply suffix_cons_r|done]. Qed.

Lemma server_asked_now server c h ctx t : asks c server -> works_for env ctx t h -> asked server (c :: h) ctx t.
Proof. intros Ha Hw. by exists c, h. Qed.

Lemma latest_cons c h : is_receive c = false -> latest env (c :: h) = latest env h.
Proof. by destruct c. Qed.

Lemma works_for_cons ctx t c h : is_receive c = false -> works_for env ctx t h -> works_for env ctx t (c :: h).
Proof.
  intros Hc. destruct 1 as [h m|h m server c' h'].
  - apply (W_request env ctx t _ m); by rewrite ?latest_cons.
  - apply (W_answer env ctx t _ m server c' h'); rewrite ?latest_cons; [done..|by apply suffix_cons_r|done|done].
Qed.

Lemma works_on_answer server ctx t h m :
  latest env h = Some m -> answer_of server (am_tag m) -> asked server h ctx t -> works_for env ctx t h.
Proof. intros Hl Ha (c & h' & Hs & Hc & Hw). by eapply W_answer. Qed.

Lemma id_inv_call c s h : accounted c h -> inv s h -> inv s (c :: h).
Proof.
  intros Ha (Ht & Hn & Hv & Hk & Hnet). split_and!; [by split|apply Hn..| | |].
  - intros id op Ho. destruct (Hv id op Ho). auto using server_asked_cons.
  - intros id op Ho. destruct (Hk id op Ho). auto using server_asked_cons.
  - intros id op Ho. destruct (Hnet id op Ho). auto using server_asked_cons.
Qed.

Lemma serving_call ctx t c s h : is_receive c = false -> accounted c h -> serving ctx t s h -> serving ctx t s (c :: h).
Proof. intros Hr Ha [Hi Hc]. split; [by apply id_inv_call|by apply works_for_cons]. Qed.

(** *** Steps that the handlers are made of *)
Abbreviation Svc T := (AppM IdentityService History T) (only parsing).

(** The computation keeps the invariant while it serves. *)
Abbreviation keeps m ctx t := (forall s h, serving ctx t s h -> wp m (fun _ => serving ctx t) s h) (only parsing).

Lemma wallclock_keeps ctx t : keeps (call (H := recorder env) L_get_wallclock) ctx t.
Proof. intros s h Hs. apply wp_call. by apply serving_call. Qed.

Lemma draw_keeps ctx t : keeps (draw (S := History)) ctx t.
Proof. done. Qed.

Lemma respond_keeps ctx t tag r :
  answers t tag -> admitted ctx t \/ refusal r -> keeps (send_response_to_pid (H := recorder env) ctx tag r) ctx t.
Proof.
  intros Ha Hr s h Hs. unfold send_response_to_pid. destruct (to_vec r) as [data|e] eqn:Ed; [|done]. cbv zeta.
  assert (forall s h, serving ctx t s h ->
    wp (call (H := recorder env) (L_debug (id_response_line (rc_client_pid ctx) tag data)) ;; mret (Ok tt))
      (fun (_ : result unit AppError) => serving ctx t) s h) as Hd.
  { intros s' h' Hs'. repeat id_step. apply serving_call; [done| |done]. exists ctx, t, tag, r, data. split_and!; [apply Hs'|done..|by left]. }
  destruct (rc_cap_slots ctx) as [|slot caps] eqn:Ec; [by apply Hd|].
  assert (serving ctx t s (L_send slot tag data :: h)) as Hs'.
  { apply serving_call; [done| |done]. right. right. exists ctx, t, tag, r, data. split_and!; [apply Hs|done..|right].
    exists slot. by rewrite Ec. }
  do 2 id_step. destruct (env _ h); [done|by apply Hd].
Qed.

(** The computation keeps the invariant, and has asked the server unless it failed. *)
Abbreviation asks_for server m ctx t := (forall s h, serving ctx t s h ->
  wp m (fun r s h => serving ctx t s h /\ (forall x, r = Ok x -> asked server h ctx t)) s h) (only parsing).

Lemma vfs_send_asks ctx t tag request :
  trusted (rc_client_pid ctx) ->
  asks_for FileSystem (lift (send_vfs_request (H := recorder env) VFS_ENDPOINT_SLOT tag request)) ctx t.
Proof.
  intros Ht s h Hs. unfold send_vfs_request. destruct (vfs_request_to_vec request); [|by split]. repeat id_step.
  split; [|intros _ _; apply server_asked_now; [done|apply Hs]].
  apply serving_call; [done| |done]. right. left. exists ctx, t. split_and!; [apply Hs|done|by left].
Qed.

Lemma vfs_send_keeps ctx t tag request :
  trusted (rc_client_pid ctx) -> keeps (lift (send_vfs_request (H := recorder env) VFS_ENDPOINT_SLOT tag request)) ctx t.
Proof. intros Ht s h Hs. eapply awp_mono; [by apply vfs_send_asks|]. by intros ??? [??]. Qed.

Lemma keystore_send_asks ctx t tag request :
  trusted (rc_client_pid ctx) -> asks_for KeyStore (lift (send_keystore_request (H := recorder env) tag request)) ctx t.
Proof.
  intros Ht s h Hs. unfold send_keystore_request. destruct (keystore_request_to_vec request); [|by split]. repeat id_step.
  split; [|intros _ _; apply server_asked_now; [done|apply Hs]].
  apply serving_call; [done| |done]. right. left. exists ctx, t. split_and!; [apply Hs|done|by right].
Qed.

Lemma start_vfs_keeps ctx t send op :
  trusted (rc_client_pid ctx) -> storage_client op = (ctx, t) -> asks_for FileSystem (lift send) ctx t ->
  keeps (start_vfs (S := History) send op) ctx t.
Proof.
  intros Ht Eo Hsend s h Hs. unfold start_vfs. do 2 id_step. destruct (_ <=? _) eqn:El; [done|]. cbv zeta.
  do 2 id_step. apply awp_bind. set (s1 := take_vfs_op_id s).
  assert (id_pending_vfs_ops s1 = id_pending_vfs_ops s) as Ep by done.
  assert (wp (lift send) (fun r s' h' => s' = s1 /\ serving ctx t s1 h' /\ forall x, r = Ok x -> asked FileSystem h' ctx t) s1 h) as Hw.
  { pose proof (Hsend s1 h Hs) as Hw. unfold wp, lift in *. simpl in *. by destruct (send h) as [[x h']|]. }
  eapply awp_mono; [exact Hw|]. intros [u|e] s' h' (-> & Hs' & Hask); [|done]. specialize (Hask u eq_refl). repeat id_step.
  destruct Hs' as [(Htr & (Hn1 & Hn2 & Hn3) & Hv & Hk & Hnet) Hc]. split; [|done]. split_and!; try done; simpl.
  - pose proof (map_size_insert_le (id_pending_vfs_ops s) (id_next_vfs_op_id s) op). lia.
  - intros id op' [[<- <-]|[_ Ho]]%lookup_insert_Some; [by rewrite Eo|by apply (Hv id)].
Qed.

Lemma start_keystore_keeps ctx t send op :
  trusted (rc_client_pid ctx) -> keystore_client op = (ctx, t) -> asks_for KeyStore (lift send) ctx t ->
  keeps (start_keystore_op (S := History) send op) ctx t.
Proof.
  intros Ht Eo Hsend s h Hs. unfold start_keystore_op. do 2 id_step. destruct (_ <=? _) eqn:El; [done|]. cbv zeta.
  do 2 id_step. apply awp_bind. set (s1 := take_keystore_op_id s).
  assert (wp (lift send) (fun r s' h' => s' = s1 /\ serving ctx t s1 h' /\ forall x, r = Ok x -> asked KeyStore h' ctx t) s1 h) as Hw.
  { pose proof (Hsend s1 h Hs) as Hw. unfold wp, lift in *. simpl in *. by destruct (send h) as [[x h']|]. }
  eapply awp_mono; [exact Hw|]. intros [u|e] s' h' (-> & Hs' & Hask); [|done]. specialize (Hask u eq_refl). repeat id_step.
  destruct Hs' as [(Htr & (Hn1 & Hn2 & Hn3) & Hv & Hk & Hnet) Hc]. split; [|done]. split_and!; try done; simpl.
  - pose proof (map_size_insert_le (id_pending_keystore_ops s) (id_next_keystore_op_id s) op). lia.
  - intros id op' [[<- <-]|[_ Ho]]%lookup_insert_Some; [by rewrite Eo|by apply (Hk id)].
Qed.

Lemma fetch_keeps ctx t request op :
  admitted ctx t -> network_client op = (ctx, t) -> keeps (start_network_fetch (H := recorder env) request op) ctx t.
Proof.
  intros Ha Eo s h Hs. unfold start_network_fetch. do 2 id_step. destruct (_ <=? _) eqn:El; [done|].
  destruct (to_vec request) as [json|e]; [|done].
  assert (serving ctx t s (L_network_fetch json :: h)) as Hs' by (apply serving_call; [done|by exists ctx, t; split; [apply Hs|]|done]).
  assert (asked Network (L_network_fetch json :: h) ctx t) as Hask by (apply server_asked_now; [done|apply Hs]).
  do 2 id_step. destruct (env _ h) as [i|e]; [|done]. repeat id_step.
  destruct Hs' as [(Htr & (Hn1 & Hn2 & Hn3) & Hv & Hk & Hnet) Hc]. split; [|done]. split_and!; try done; simpl.
  - pose proof (map_size_insert_le (id_pending_net_ops s) (wrap_u32 i) op). lia.
  - intros id op' [[<- <-]|[_ Ho]]%lookup_insert_Some; [by rewrite Eo|by apply (Hnet id)].
Qed.

Lemma swap_Permutation {T} i j (l : list T) : swap i j l ≡ₚ l.
Proof.
  unfold swap. destruct (l !! i) as [a|] eqn:Ei; [|done]. destruct (l !! j) as [b|] eqn:Ej; [|done].
  by apply Permutation_insert_swap.
Qed.

(** *** The handlers and continuations *)
#[local] Hint Unfold failed send_neural_key_response send_recover_key_response send_get_identity_key_response
  send_create_machine_key_response send_list_machine_keys send_list_machine_keys_error send_get_machine_key_response
  send_revoke_machine_key_response send_rotate_machine_key_response send_attach_email_response send_get_credentials
  send_get_credentials_error send_unlink_credential_response send_zid_login_response send_zid_email_login_response
  send_zid_enroll_response send_zid_logout_response send_zid_refresh_response send_get_identity_preferences_response
  send_set_default_key_scheme_response send_set_default_machine_key_response
  send_create_machine_key_and_enroll_response send_register_email_response send_init_oauth_response
  send_oauth_callback_response send_init_wallet_response send_verify_wallet_response send_get_tier_status_response
  send_upgrade_to_self_sovereign_response : responses.
#[local] Hint Unfold start_vfs_read start_vfs_write start_vfs_delete start_vfs_exists start_vfs_readdir start_vfs_mkdir
  start_keystore_read start_keystore_write start_keystore_delete start_keystore_exists start_keystore_list
  send_read_request send_write_request send_exists_request send_mkdir_request send_unlink_request send_readdir_request
  ks_send_read ks_send_write ks_send_delete ks_send_exists ks_send_list : responses.

Ltac side :=
  first [ assumption | reflexivity | exact I
        | left; reflexivity | left; left; assumption | left; assumption | right; exact I
        | left; right; apply (bool_decide_unpack _); reflexivity | right; apply (bool_decide_unpack _); reflexivity
        | right; split; reflexivity ].

Ltac next := let Hnow := fresh "Hnow" in intros ??? Hnow; cbv beta in Hnow.

(** One step of a computation that serves. *)
Ltac serve_step :=
  lazymatch goal with
  | |- serving _ _ _ _ => assumption
  | |- wp (call L_get_wallclock) _ _ _ => eapply awp_mono; [apply wallclock_keeps; eassumption|next]
  | |- wp draw _ _ _ => eapply awp_mono; [apply draw_keeps; eassumption|next]
  | |- wp (send_response_to_pid _ _ _) _ _ _ => eapply awp_mono; [eapply respond_keeps; [| |eassumption]; side|next]
  | |- wp (lift (send_vfs_request _ _ _)) _ _ _ => eapply awp_mono; [eapply vfs_send_keeps; [|eassumption]; side|next]
  | |- wp (start_vfs _ _) _ _ _ =>
      eapply awp_mono; [eapply start_vfs_keeps; [| |by apply vfs_send_asks|eassumption]; side|next]
  | |- wp (start_keystore_op _ _) _ _ _ =>
      eapply awp_mono; [eapply start_keystore_keeps; [| |by apply keystore_send_asks|eassumption]; side|next]
  | |- wp (start_network_fetch _ _) _ _ _ => eapply awp_mono; [eapply fetch_keeps; [| |eassumption]; side|next]
  | _ => first [ id_step | progress autounfold with responses | eapply awp_mono; [solve [eauto 4 with identity]|next] ]
  end.
Ltac serve := repeat (cbv beta iota zeta; serve_step).

#[local] Hint Unfold state_error handle_get_identity_key_read handle_read_identity_for_recovery
  handle_read_identity_for_machine handle_read_encrypted_shards_for_machine handle_read_identity_for_machine_enroll
  handle_read_encrypted_shards_for_machine_enroll handle_read_machine_key handle_read_single_machine_key
  handle_read_machine_for_rotate handle_read_machine_key_for_zid_login handle_read_machine_key_for_zid_enroll
  handle_write_key_store handle_write_encrypted_shards handle_write_recovered_key_store handle_write_machine_key
  handle_write_rotated_machine_key handle_write_machine_key_for_enroll key_exists_checked
  handle_list_machine_keys_result handle_list_machine_keys_for_zid_login handle_list_machine_keys_for_zid_enroll
  write_preferences continue_create_machine_after_identity_read : responses.
#[local] Hint Unfold handle_response otherwise handle_zid_challenge_result handle_zid_login_result handle_email_to_zid_result
  handle_zid_enroll_result handle_zid_challenge_after_enroll_result handle_zid_login_after_enroll_result
  handle_combined_enroll_result handle_combined_challenge_result handle_combined_login_result handle_zid_refresh_result
  handle_zid_email_login_result handle_tier_status_result handle_upgrade_result continue_get_tier_status continue_upgrade
  handle_register_email_result handle_init_oauth_result handle_oauth_callback_result handle_init_wallet_result
  handle_verify_wallet_result continue_register_email continue_init_oauth continue_oauth_callback continue_init_wallet
  continue_verify_wallet : responses.

Ltac dispatch op :=
  intros E s h Hs; destruct op; injection E as -> <-; cbn beta iota; serve.

Section served.
Context {ctx : RequestContext} (Ht : trusted (rc_client_pid ctx)).

Lemma draw_bytes_keeps n what t : keeps (draw_bytes (S := History) n what) ctx t.
Proof. intros s h Hs. unfold draw_bytes. serve. Qed.
#[local] Hint Resolve draw_bytes_keeps : identity.

Lemma generate_key_keeps t : keeps (NeuralKey_generate (S := History)) ctx t.
Proof. intros s h Hs. unfold NeuralKey_generate. serve. Qed.
#[local] Hint Resolve generate_key_keeps : identity.

Lemma split_key_keeps key t : keeps (split_key (S := History) key) ctx t.
Proof. intros s h Hs. unfold split_key. serve. Qed.
#[local] Hint Resolve split_key_keeps : identity.

Lemma shuffle_keeps positions indices t s h :
  serving ctx t s h ->
  wp (shuffle (S := History) positions indices) (fun r s h => serving ctx t s h /\ forall l, r = Ok l -> l ≡ₚ indices) s h.
Proof.
  revert indices s h. induction positions as [|i positions IH]; intros indices s h Hs; cbn [shuffle].
  - apply awp_ret. split; [done|]. by intros l [= ->].
  - apply wp_bind_ok. eapply awp_mono; [by apply draw_bytes_keeps|]. intros [bytes|e] s1 h1 Hs1; [|by split].
    eapply awp_mono; [by apply IH|]. intros r s2 h2 [Hs2 Hl]. split; [done|]. intros l El. by rewrite (Hl l El), swap_Permutation.
Qed.

Lemma failed_keeps {T} tag r reason t s h :
  answers t tag -> admitted ctx t \/ refusal r -> serving ctx t s h ->
  wp (failed (T := T) (send_response_to_pid (H := recorder env) ctx tag r) reason)
    (fun r s h => serving ctx t s h /\ exists e, r = Err e) s h.
Proof.
  intros Ha Hr Hs. apply wp_bind_ok. eapply awp_mono; [by apply (respond_keeps ctx t)|].
  intros [u|e] s1 h1 Hs1; [apply awp_ret|]; eauto.
Qed.

Lemma shards_there shards indices :
  length shards = 5%nat -> indices ≡ₚ [1; 2; 3; 4; 5] ->
  Forall (fun i => is_Some (shard_at (number_shards shards) i)) (take 2 indices) /\
  Forall (fun i => is_Some (shard_at (number_shards shards) i)) (merge_sort Z.le (drop 2 indices)).
Proof.
  intros Hl Hp. rewrite merge_sort_Permutation, <-Forall_app, take_drop, Hp.
  do 6 (destruct shards as [|? shards]; try discriminate Hl). repeat constructor; by eexists.
Qed.

Lemma split_and_select_keeps key s h :
  serving ctx MSG_GENERATE_NEURAL_KEY s h ->
  wp (split_and_select_shards (H := recorder env) key ctx) (fun r s h => serving ctx MSG_GENERATE_NEURAL_KEY s h /\
    forall all enc ext, r = Ok (all, enc, ext) ->
      Forall (fun i => is_Some (shard_at all i)) enc /\ Forall (fun i => is_Some (shard_at all i)) ext) s h.
Proof.
  intros Hs. unfold split_and_select_shards, split_key. do 2 apply awp_bind.
  eapply awp_mono; [by apply draw_keeps|next]. apply awp_ret. destruct (split_neural_key x key) as [shards|e] eqn:Es.
  - unfold select_shards_to_encrypt. apply awp_bind, wp_bind_ok. eapply awp_mono; [by apply shuffle_keeps|].
    intros [indices|e] s2 h2 [Hs2 Hl]; [apply awp_ret|].
    + apply awp_ret. split; [done|]. intros all enc ext [= <- <- <-]. apply shards_there; [by eapply five_shards|auto].
    + eapply awp_mono; [eapply failed_keeps; [| |eassumption]; side|]. naive_solver.
  - eapply awp_mono; [eapply failed_keeps; [| |eassumption]; side|]. naive_solver.
Qed.

Lemma encrypt_shard_keeps hex i key t : keeps (encrypt_shard_with_key (S := History) hex i key) ctx t.
Proof.
  intros s h Hs. unfold encrypt_shard_with_key. serve.
  match goal with E : aes_gcm_encrypt _ _ _ = Ok _ |- _ => apply (tag_bytes HC) in E; lia end.
Qed.
#[local] Hint Resolve encrypt_shard_keeps : identity.

Lemma encrypt_shards_keeps all l key :
  Forall (fun i => is_Some (shard_at all i)) l ->
  keeps (encrypt_selected_shards (H := recorder env) all l key ctx) ctx MSG_GENERATE_NEURAL_KEY.
Proof.
  induction 1 as [|i l [shard Es] _ IH]; intros s h Hs; cbn [encrypt_selected_shards]; [serve|]. rewrite Es. serve.
Qed.
#[local] Hint Resolve encrypt_shards_keeps : identity.

Lemma build_keeps user_id signing all ext encrypted kdf t :
  Forall (fun i => is_Some (shard_at all i)) ext ->
  keeps (build_generation_result (H := recorder env) user_id signing all ext encrypted kdf) ctx t.
Proof.
  intros Hx s h Hs. unfold build_generation_result.
  destruct (mapM_is_Some_2 (shard_at all) ext Hx) as [shards ->]. serve.
Qed.
#[local] Hint Resolve build_keeps : identity.

Lemma generate_keeps user_id exists_ password :
  keeps (continue_generate_after_exists_check (H := recorder env) ctx user_id exists_ password) ctx MSG_GENERATE_NEURAL_KEY.
Proof.
  intros s h Hs. unfold continue_generate_after_exists_check, generate_neural_key_and_identity, create_kdf_and_derive_key,
    create_kdf_params, generate_kdf_salt, store_generated_keys.
  serve; eapply awp_mono; try (by apply split_and_select_keeps).
  all: intros [[[all enc] ext]|?] s2 h2 [Hs2 Hf]; [|done]; destruct (Hf all enc ext eq_refl); serve.
Qed.
#[local] Hint Resolve generate_keeps : identity.

Lemma directory_check_keeps user_id exists_ password :
  keeps (continue_generate_after_directory_check (H := recorder env) ctx user_id exists_ password) ctx MSG_GENERATE_NEURAL_KEY.
Proof. intros s h Hs. unfold continue_generate_after_directory_check. serve. Qed.
#[local] Hint Resolve directory_check_keeps : identity.

Lemma create_directories_keeps user_id directories password :
  keeps (continue_create_directories (H := recorder env) ctx user_id directories password) ctx MSG_GENERATE_NEURAL_KEY.
Proof. intros s h Hs. unfold continue_create_directories. serve. Qed.
#[local] Hint Resolve create_directories_keeps : identity.

Lemma recover_keeps derivation storage shards pubkey :
  keeps (continue_recover_after_identity_read (H := recorder env) ctx derivation storage shards pubkey) ctx MSG_RECOVER_NEURAL_KEY.
Proof. intros s h Hs. unfold continue_recover_after_identity_read. serve. Qed.
#[local] Hint Resolve recover_keeps : identity.

Lemma create_machine_keeps request pubkey derivation store :
  keeps (continue_create_machine_after_shards_read (H := recorder env) ctx request pubkey derivation store) ctx MSG_CREATE_MACHINE_KEY.
Proof. intros s h Hs. unfold continue_create_machine_after_shards_read, derive_machine_keypair, build_and_store_machine_record. serve. Qed.
#[local] Hint Resolve create_machine_keeps : identity.

Lemma rotate_keeps user_id machine_id data :
  keeps (continue_rotate_after_read (H := recorder env) ctx user_id machine_id data) ctx MSG_ROTATE_MACHINE_KEY.
Proof. intros s h Hs. unfold continue_rotate_after_read, generate_rotated_keypair, update_record_with_rotated_keys, store_rotated_record. serve. Qed.
#[local] Hint Resolve rotate_keeps : identity.

Lemma enroll_machine_keeps request pubkey derivation store :
  keeps (continue_create_machine_enroll_after_shards_read (H := recorder env) ctx request pubkey derivation store) ctx MSG_CREATE_MACHINE_KEY_AND_ENROLL.
Proof. intros s h Hs. unfold continue_create_machine_enroll_after_shards_read, derive_keys_for_enroll, or_enroll_error,
    build_and_store_machine_record_for_enroll. serve. Qed.
#[local] Hint Resolve enroll_machine_keeps : identity.

Lemma session_keeps endpoint tokens now t :
  dated (zt_expires_at tokens) -> keeps (session_of (H := recorder env) endpoint tokens now) ctx t.
Proof.
  unfold dated. intros Hd s h Hs. unfold session_of, parse_rfc3339_to_millis. serve. by destruct Hd.
Qed.
#[local] Hint Resolve session_keeps : identity.

Lemma login_tokens_dated success tokens kind :
  dated_success success -> from_slice (hs_body success) = Ok tokens -> dated (zt_expires_at (set_login_type kind tokens)).
Proof. intros Hd. by apply login_dated. Qed.

Lemma refresh_tokens_dated success tokens access refresh session machine kind warning :
  dated_success success -> from_slice (hs_body success) = Ok tokens ->
  dated (zt_expires_at (mk_ZidTokens access refresh session machine (rt_expires_at tokens) kind warning)).
Proof. intros Hd. by apply refresh_dated. Qed.
#[local] Hint Resolve login_tokens_dated refresh_tokens_dated : identity.

Lemma login_preferences_keeps user_id endpoint machine :
  keeps (continue_zid_login_after_preferences (H := recorder env) ctx user_id endpoint machine) ctx MSG_ZID_LOGIN.
Proof. intros s h Hs. unfold continue_zid_login_after_preferences. serve. Qed.
#[local] Hint Resolve login_preferences_keeps : identity.

Lemma login_list_keeps user_id endpoint paths :
  keeps (continue_zid_login_after_list (H := recorder env) ctx user_id endpoint paths) ctx MSG_ZID_LOGIN.
Proof. intros s h Hs. unfold continue_zid_login_after_list. serve. Qed.
#[local] Hint Resolve login_list_keeps : identity.

Lemma login_read_keeps user_id endpoint data :
  keeps (continue_zid_login_after_read (H := recorder env) ctx user_id endpoint data) ctx MSG_ZID_LOGIN.
Proof. intros s h Hs. unfold continue_zid_login_after_read. serve. Qed.
#[local] Hint Resolve login_read_keeps : identity.

Lemma login_challenge_keeps user_id endpoint key response :
  keeps (continue_zid_login_after_challenge (H := recorder env) ctx user_id endpoint key response) ctx MSG_ZID_LOGIN.
Proof. intros s h Hs. unfold continue_zid_login_after_challenge. serve. Qed.
#[local] Hint Resolve login_challenge_keeps : identity.

Lemma login_login_keeps user_id endpoint response :
  dated_success response -> keeps (continue_zid_login_after_login (H := recorder env) ctx user_id endpoint response) ctx MSG_ZID_LOGIN.
Proof. intros Hd s h Hs. unfold continue_zid_login_after_login. serve. Qed.
#[local] Hint Resolve login_login_keeps : identity.

Lemma enroll_list_keeps user_id endpoint paths :
  keeps (continue_zid_enroll_after_list (H := recorder env) ctx user_id endpoint paths) ctx MSG_ZID_ENROLL_MACHINE.
Proof. intros s h Hs. unfold continue_zid_enroll_after_list. serve. Qed.
#[local] Hint Resolve enroll_list_keeps : identity.

Lemma enroll_read_keeps user_id endpoint data :
  keeps (continue_zid_enroll_after_read (H := recorder env) ctx user_id endpoint data) ctx MSG_ZID_ENROLL_MACHINE.
Proof. intros s h Hs. unfold continue_zid_enroll_after_read, or_internal. serve. Qed.
#[local] Hint Resolve enroll_read_keeps : identity.

Lemma enroll_submit_keeps user_id endpoint response keys :
  keeps (continue_zid_enroll_after_submit (H := recorder env) ctx user_id endpoint response keys) ctx MSG_ZID_ENROLL_MACHINE.
Proof. intros s h Hs. unfold continue_zid_enroll_after_submit. serve. Qed.
#[local] Hint Resolve enroll_submit_keeps : identity.

Lemma enroll_challenge_keeps user_id endpoint keys response :
  keeps (continue_zid_enroll_after_challenge (H := recorder env) ctx user_id endpoint keys response) ctx MSG_ZID_ENROLL_MACHINE.
Proof. intros s h Hs. unfold continue_zid_enroll_after_challenge. serve. Qed.
#[local] Hint Resolve enroll_challenge_keeps : identity.

Lemma enroll_login_keeps user_id endpoint keys response :
  dated_success response -> keeps (continue_zid_enroll_after_login (H := recorder env) ctx user_id endpoint keys response) ctx MSG_ZID_ENROLL_MACHINE.
Proof. intros Hd s h Hs. unfold continue_zid_enroll_after_login. serve. Qed.
#[local] Hint Resolve enroll_login_keeps : identity.

Lemma combined_write_keeps user_id endpoint record pk sk1 sk2 sk3 :
  keeps (continue_combined_enroll_after_machine_write (H := recorder env) ctx user_id endpoint record pk sk1 sk2 sk3) ctx MSG_CREATE_MACHINE_KEY_AND_ENROLL.
Proof. intros s h Hs. unfold continue_combined_enroll_after_machine_write, or_internal. serve. Qed.
#[local] Hint Resolve combined_write_keeps : identity.

Lemma combined_create_keeps user_id endpoint keys record machine :
  keeps (continue_combined_enroll_after_identity_create (H := recorder env) ctx user_id endpoint keys record machine) ctx MSG_CREATE_MACHINE_KEY_AND_ENROLL.
Proof. intros s h Hs. unfold continue_combined_enroll_after_identity_create. serve. Qed.
#[local] Hint Resolve combined_create_keeps : identity.

Lemma combined_challenge_keeps user_id endpoint keys record response :
  keeps (continue_combined_enroll_after_challenge (H := recorder env) ctx user_id endpoint keys record response) ctx MSG_CREATE_MACHINE_KEY_AND_ENROLL.
Proof. intros s h Hs. unfold continue_combined_enroll_after_challenge. serve. Qed.
#[local] Hint Resolve combined_challenge_keeps : identity.

Lemma combined_login_keeps record response :
  keeps (continue_combined_enroll_after_login (H := recorder env) ctx record response) ctx MSG_CREATE_MACHINE_KEY_AND_ENROLL.
Proof. intros s h Hs. unfold continue_combined_enroll_after_login. serve. Qed.
#[local] Hint Resolve combined_login_keeps : identity.

Lemma email_login_keeps user_id endpoint response :
  dated_success response -> keeps (continue_zid_email_login_after_network (H := recorder env) ctx user_id endpoint response) ctx MSG_ZID_LOGIN_EMAIL.
Proof. intros Hd s h Hs. unfold continue_zid_email_login_after_network. serve. Qed.
#[local] Hint Resolve email_login_keeps : identity.

Lemma refresh_read_keeps user_id endpoint data token :
  keeps (continue_zid_refresh_after_session_read (H := recorder env) ctx user_id endpoint data token) ctx MSG_ZID_REFRESH.
Proof. intros s h Hs. unfold continue_zid_refresh_after_session_read. serve. Qed.
#[local] Hint Resolve refresh_read_keeps : identity.

Lemma refresh_network_keeps user_id endpoint session machine login response :
  dated_success response -> keeps (continue_zid_refresh_after_network (H := recorder env) ctx user_id endpoint session machine login response) ctx MSG_ZID_REFRESH.
Proof. intros Hd s h Hs. unfold continue_zid_refresh_after_network. serve. Qed.
#[local] Hint Resolve refresh_network_keeps : identity.

Lemma attach_zid_keeps user_id email :
  keeps (continue_attach_email_after_zid (H := recorder env) ctx user_id email) ctx MSG_ATTACH_EMAIL.
Proof. intros s h Hs. unfold continue_attach_email_after_zid. serve. Qed.
#[local] Hint Resolve attach_zid_keeps : identity.

Lemma attach_read_keeps user_id email store :
  keeps (continue_attach_email_after_read (H := recorder env) ctx user_id email store) ctx MSG_ATTACH_EMAIL.
Proof. intros s h Hs. unfold continue_attach_email_after_read. serve. Qed.
#[local] Hint Resolve attach_read_keeps : identity.

Lemma unlink_keeps user_id type data :
  keeps (continue_unlink_credential_after_read (H := recorder env) ctx user_id type data) ctx MSG_UNLINK_CREDENTIAL.
Proof. intros s h Hs. unfold continue_unlink_credential_after_read. serve. Qed.
#[local] Hint Resolve unlink_keeps : identity.

(** *** The dispatch of responses *)
Lemma keystore_read_keeps op r t : keystore_client op = (ctx, t) -> keeps (dispatch_keystore_read_result (H := recorder env) op r) ctx t.
Proof. unfold dispatch_keystore_read_result. dispatch op. Qed.

Lemma keystore_write_keeps op r t : keystore_client op = (ctx, t) -> keeps (dispatch_keystore_write_result (H := recorder env) op r) ctx t.
Proof. unfold dispatch_keystore_write_result. dispatch op. Qed.

Lemma keystore_delete_keeps op r t : keystore_client op = (ctx, t) -> keeps (dispatch_keystore_delete_result (H := recorder env) op r) ctx t.
Proof. unfold dispatch_keystore_delete_result. dispatch op. Qed.

Lemma keystore_exists_keeps op r t : keystore_client op = (ctx, t) -> keeps (dispatch_keystore_exists_result (H := recorder env) op r) ctx t.
Proof. unfold dispatch_keystore_exists_result. dispatch op. Qed.

Lemma keystore_list_keeps op r t : keystore_client op = (ctx, t) -> keeps (dispatch_keystore_list_result (H := recorder env) op r) ctx t.
Proof. unfold dispatch_keystore_list_result. dispatch op. Qed.

Lemma vfs_read_keeps op r t : storage_client op = (ctx, t) -> keeps (dispatch_vfs_read_result (H := recorder env) op r) ctx t.
Proof. unfold dispatch_vfs_read_result. dispatch op. Qed.

Lemma vfs_write_keeps op r t : storage_client op = (ctx, t) -> keeps (dispatch_vfs_write_result (H := recorder env) op r) ctx t.
Proof. unfold dispatch_vfs_write_result. dispatch op. Qed.

Lemma vfs_exists_keeps op r t : storage_client op = (ctx, t) -> keeps (dispatch_vfs_exists_result (H := recorder env) op r) ctx t.
Proof. unfold dispatch_vfs_exists_result. dispatch op. Qed.

Lemma vfs_mkdir_keeps op r t : storage_client op = (ctx, t) -> keeps (dispatch_vfs_mkdir_result (H := recorder env) op r) ctx t.
Proof. unfold dispatch_vfs_mkdir_result. dispatch op. Qed.

Lemma vfs_readdir_keeps op r t : storage_client op = (ctx, t) -> keeps (dispatch_vfs_readdir_result (H := recorder env) op r) ctx t.
Proof. unfold dispatch_vfs_readdir_result. dispatch op. Qed.

Lemma vfs_unlink_keeps op r t : storage_client op = (ctx, t) -> keeps (dispatch_vfs_unlink_result (H := recorder env) op r) ctx t.
Proof. unfold dispatch_vfs_unlink_result. dispatch op. Qed.

Lemma network_keeps op r t :
  (forall success, hre_result r = Ok success -> dated_success success) ->
  network_client op = (ctx, t) -> keeps (dispatch_network_result (H := recorder env) op r) ctx t.
Proof. unfold dispatch_network_result. intros Hd. dispatch op. Qed.
End served.

Lemma registration_keeps ctx op r t :
  t ∈ registration_tags -> network_client op = (ctx, t) -> keeps (dispatch_network_result (H := recorder env) op r) ctx t.
Proof.
  unfold dispatch_network_result. intros Hr%(bool_decide_pack _).
  dispatch op; try (exfalso; revert Hr; exact (fun f => f)).
Qed.

(** *** The operation that a response belongs to *)
Lemma with_vfs_op_keeps m expected k s h :
  latest env h = Some m -> is_vfs_response (am_tag m) = true ->
  (forall ctx t op, trusted (rc_client_pid ctx) -> storage_client op = (ctx, t) -> keeps (k op) ctx t) ->
  inv s h -> wp (with_vfs_op expected k) (fun _ => inv) s h.
Proof.
  intros Hl Hm Hk Hi. unfold with_vfs_op, take_pending_vfs_op_for. do 3 id_step.
  destruct (List.find _ _) as [[key op]|] eqn:Ef; [|by do 2 id_step].
  apply List.find_some in Ef as [Hin%list_elem_of_In%elem_of_btree_iter _]. repeat id_step.
  destruct Hi as (Htr & (Hn1 & Hn2 & Hn3) & Hv & Hks & Hnet). destruct (Hv key op Hin) as [Hc Ht].
  apply (works_on_answer FileSystem _ _ _ m Hl Hm) in Hc.
  eapply awp_mono; [eapply Hk; [exact Ht|apply surjective_pairing|]|by intros ??? [??]].
  split; [|done]. split_and!; try done; simpl.
  - rewrite map_size_delete, Hin. simpl. lia.
  - intros id op' [_ Ho]%lookup_delete_Some. by apply (Hv id).
Qed.

Lemma with_keystore_op_keeps m k s h :
  latest env h = Some m -> is_keystore_response (am_tag m) = true ->
  (forall ctx t op, trusted (rc_client_pid ctx) -> keystore_client op = (ctx, t) -> keeps (k op) ctx t) ->
  inv s h -> wp (with_keystore_op k) (fun _ => inv) s h.
Proof.
  intros Hl Hm Hk Hi. unfold with_keystore_op, take_next_pending_keystore_op. do 3 id_step.
  destruct (btree_iter _) as [|[key op] rest] eqn:Ef; [by do 2 id_step|].
  assert (id_pending_keystore_ops s !! key = Some op) as Hin by (apply elem_of_btree_iter; rewrite Ef; left).
  repeat id_step. destruct Hi as (Htr & (Hn1 & Hn2 & Hn3) & Hv & Hks & Hnet). destruct (Hks key op Hin) as [Hc Ht].
  apply (works_on_answer KeyStore _ _ _ m Hl Hm) in Hc.
  eapply awp_mono; [eapply Hk; [exact Ht|apply surjective_pairing|]|by intros ??? [??]].
  split; [|done]. split_and!; try done; simpl.
  - rewrite map_size_delete, Hin. simpl. lia.
  - intros id op' [_ Ho]%lookup_delete_Some. by apply (Hks id).
Qed.

Lemma net_result_keeps m s h :
  9 + get_u32 5 (am_data m) < 2 ^ usize_bits ->
  (forall data success, net_result_data (am_data m) = Some data ->
     hre_result (http_response_of (get_u8 4 (am_data m)) data) = Ok success -> dated_success success) ->
  latest env h = Some m -> am_tag m = MSG_NET_RESULT -> inv s h ->
  wp (handle_net_result (S := History) (H := recorder env) m) (fun _ => inv) s h.
Proof.
  intros [data Ed]%result_data_bounded Hdated Hl Hm Hi. specialize (Hdated data). change (NetService.result_data (am_data m) = Some data) in Ed.
  unfold handle_net_result, net_result_data. rewrite Ed. repeat id_step; try done.
  destruct Hi as (Htr & (Hn1 & Hn2 & Hn3) & Hv & Hks & Hnet).
  match goal with E : id_pending_net_ops s !! ?key = Some ?op |- _ => rename E into Hin; destruct (Hnet key op Hin) as [Hc Ha];
    apply (works_on_answer Network _ _ _ m Hl Hm) in Hc;
    pose proof (map_size_delete key (id_pending_net_ops s)) as Hsz end.
  assert (forall s h, serving (network_client p).1 (network_client p).2 s h ->
    wp (dispatch_network_result (H := recorder env) p (http_response_of (get_u8 4 (am_data m)) data))
      (fun _ => serving (network_client p).1 (network_client p).2) s h) as Hd.
  { destruct Ha as [Ha|Ha]; [eapply network_keeps; [done| |apply surjective_pairing]; auto|].
    by eapply registration_keeps; [|apply surjective_pairing]. }
  eapply awp_mono; [apply Hd|by intros ??? [??]].
  split; [|done]. split_and!; try done; simpl.
  - rewrite Hsz, Hin. simpl. lia.
  - intros id op' [_ Ho]%lookup_delete_Some. by apply (Hnet id).
Qed.

(** *** Requests *)
Lemma handle_request_keeps {R E} `{Deserialize R} (user : R -> Z) m (refuse : E -> Svc (result unit AppError)) invalid
    unauthorized k t :
  (forall e, keeps (refuse e) (reply_to m) t) ->
  (trusted (rc_client_pid (reply_to m)) -> forall r, keeps (k r) (reply_to m) t) ->
  keeps (handle_request user m refuse invalid unauthorized k) (reply_to m) t.
Proof.
  intros Hr Hk s h Hs. unfold handle_request. destruct (from_slice _) as [r|e]; [|by apply Hr].
  destruct (check_user_authorization _ _) eqn:Ea; [|by apply Hr]. apply Hk; [|done].
  unfold check_user_authorization, check_authorization_with_reason, is_system_process, is_desktop_process,
    TRUSTED_SYSTEM_PID_MAX in Ea.
  unfold trusted, DESKTOP_PROCESS_PID in *. simpl. repeat case_match; simpl in Ea; [lia|lia|done].
Qed.

#[local] Hint Unfold parse_request handle_generate_neural_key handle_recover_neural_key handle_get_identity_key handle_create_machine_key
  handle_list_machine_keys handle_revoke_machine_key handle_rotate_machine_key handle_get_machine_key
  handle_create_machine_key_and_enroll handle_attach_email handle_get_credentials handle_unlink_credential handle_zid_login
  handle_zid_enroll_machine handle_zid_logout handle_zid_refresh handle_zid_login_email handle_get_preferences
  handle_set_default_key_scheme handle_set_default_machine_key handle_register_email handle_init_oauth handle_oauth_callback
  handle_init_wallet handle_verify_wallet handle_get_tier_status handle_upgrade_to_self_sovereign : handlers.

Lemma handled {T} (m : AppMessage) tag (body rest : Svc T) s h :
  serving (reply_to m) (am_tag m) s h ->
  (serving (reply_to m) tag s h -> wp body (fun _ => inv) s h) -> wp rest (fun _ => inv) s h ->
  wp (if am_tag m =? tag then body else rest) (fun _ => inv) s h.
Proof. intros Hs Hbody Hr. destruct (am_tag m =? tag) eqn:E; [|done]. apply Z.eqb_eq in E. rewrite E in Hs. auto. Qed.

Lemma serving_keeps_inv {T} (m : Svc T) ctx t s h : wp m (fun _ => serving ctx t) s h -> wp m (fun _ => inv) s h.
Proof. intros Hm. eapply awp_mono; [exact Hm|]. by intros ??? [??]. Qed.

Ltac request :=
  let Hs := fresh in intros Hs;
  match type of Hs with serving ?ctx ?t _ _ => apply (serving_keeps_inv _ ctx t) end; autounfold with handlers; cbv zeta;
  first [ eapply handle_request_keeps; [..|exact Hs]; [intros ????; serve|intros Ht ????; serve] | serve ].

Lemma on_message_keeps ctx m s h :
  inv s h -> latest env h = Some m -> received env INPUT_ENDPOINT_SLOT m h ->
  wp (identity_on_message (S := History) (H := recorder env) ctx m) (fun _ => inv) s h.
Proof.
  intros Hi Hl Hm. assert (serving (reply_to m) (am_tag m) s h) as Hs by (split; [done|by eapply W_request]). unfold identity_on_message. cbv zeta.
  destruct (is_vfs_response _) eqn:Evfs.
  { unfold handle_vfs_result. cbv zeta.
    repeat (case_match; [apply (with_vfs_op_keeps m); [done|done| |done]; intros ctx' t op Ht Eo|]); [..|done];
      eauto using vfs_read_keeps, vfs_write_keeps, vfs_exists_keeps, vfs_mkdir_keeps, vfs_readdir_keeps, vfs_unlink_keeps. }
  destruct (is_keystore_response _) eqn:Eks.
  { unfold handle_keystore_result. cbv zeta.
    repeat (case_match; [apply (with_keystore_op_keeps m); [done|done| |done]; intros ctx' t op Ht Eo|]); [..|done];
      eauto using keystore_read_keeps, keystore_write_keeps, keystore_delete_keeps, keystore_exists_keeps, keystore_list_keeps. }
  do 27 (apply handled; [exact Hs|request|]).
  destruct (am_tag m =? MSG_NET_RESULT) eqn:Et; [|by apply awp_ret]. apply Z.eqb_eq in Et.
  destruct Hm as (m0 & <- & h0 & _ & E0). apply net_result_keeps; [by apply (Hb h0 m0 E0)| |done..].
  intros data success. by apply (HD h0 m0).
Qed.

(** *** The event loop *)
Lemma update_keeps ctx s h : inv s h -> wp (identity_update (S := History) (H := recorder env) ctx) (fun _ => inv) s h.
Proof.
  intros Hi. unfold identity_update. do 2 id_step. destruct (id_registered s); [done|].
  assert (inv s (L_send 0 MSG_REGISTER_SERVICE (identity_registration ctx) :: h)) as Hi'.
  { apply id_inv_call; [|done]. left. by exists ctx. }
  do 2 id_step. by destruct (env _ h).
Qed.

Lemma identity_invariant : AppInvariant (A := IdentityService) env INPUT_ENDPOINT_SLOT inv.
Proof.
  constructor; simpl.
  - intros c s h Hc Hi. apply id_inv_call; [|done]. by destruct c.
  - intros ctx s h Hi. by apply update_keeps.
  - done.
  - intros ctx m s h Hi E. apply on_message_keeps; [by apply id_inv_call| |by apply received_here].
    simpl. by rewrite E.
Qed.

Lemma identity_starts ctx :
  wp (app_init (A := IdentityService) (H := recorder env) ctx) (fun _ => inv) IdentityService_default [L_get_wallclock; L_get_time].
Proof. apply awp_ret. split_and!; done. Qed.
End trace.
End IdTrace.


(** ** Keys that can be recovered *)
Module IdRecovery.

(** What the crates promise: any three of the five shares make the key, a share is
    the one that its text was made of, and a sealed text opens with its key. *)
Record sharing {C : IdCrypto} : Prop := {
  sharing_sizes : IdTrace.crypto_sizes C;
  any_three : forall i key shards positions l,
    split_neural_key i key = Ok shards -> NoDup positions -> (3 <= length positions)%nat ->
    mapM (fun p => shards !! p) positions = Some l -> combine_shards l = Ok key;
  share_text : forall s, shard_from_hex (shard_to_hex s) = Ok s /\ from_utf8 (str_bytes (shard_to_hex s)) = Some (shard_to_hex s);
  sealed_opens : forall key nonce text sealed,
    aes_gcm_encrypt key nonce text = Ok sealed -> aes_gcm_decrypt key nonce sealed = Some text }.
Arguments sharing : clear implicits.

Section pure.
Context {C : IdCrypto} (HC : sharing C).

(** The share that the number [i] from 1 stands for. *)
Definition share (shards : list ZidNeuralShard) (i : Z) : option ZidNeuralShard := shards !! Z.to_nat (i - 1).

Definition sealed (shards : list ZidNeuralShard) (key : list byte) (i : Z) (e : EncryptedShard) : Prop :=
  es_index e = i /\ exists s, share shards i = Some s /\ decrypt_shard_with_key e key = Ok (shard_to_hex s).

Lemma shards_of_hex_ok l : shards_of_hex (shard_to_hex <$> l) = Ok l.
Proof. induction l as [|s l IH]; [done|]. cbn. rewrite (proj1 (share_text HC s)), IH. done. Qed.

Lemma decrypt_all_ok shards key indices encrypted :
  Forall2 (sealed shards key) indices encrypted ->
  exists l, mapM (share shards) indices = Some l /\ es_index <$> encrypted = indices /\
    decrypt_all encrypted key = Ok (zip indices (shard_to_hex <$> l)) /\ length l = length indices.
Proof.
  induction 1 as [|i e indices encrypted (Ei & s & Es & Ed) _ (l & Hl & Hi & Hd & Hn)]; [by exists []|].
  exists (s :: l). cbn. rewrite Es, Hl, Ed, Hd, Hi, Ei. by rewrite Hn.
Qed.

Lemma combine_selected n key shards indices l :
  split_neural_key n key = Ok shards -> NoDup indices -> Forall (fun i => 1 <= i) indices -> length indices = 3%nat ->
  mapM (share shards) indices = Some l -> combine_shards l = Ok key.
Proof.
  intros Hs Hn Hp Hl Hm. apply (any_three HC n key shards ((fun i => Z.to_nat (i - 1)) <$> indices)); [done| |by rewrite length_fmap, Hl|].
  - apply NoDup_fmap_2_strong; [|done]. rewrite Forall_forall in Hp. intros x y Hx%Hp Hy%Hp. lia.
  - rewrite <-Hm. clear. induction indices as [|i indices IH]; [done|]. cbn. fold (share shards i).
    destruct (share shards i); [|done]. cbn in *. by rewrite IH.
Qed.

Lemma numbered shards i :
  length shards = 5%nat -> i ∈ [1; 2; 3; 4; 5] ->
  exists s, share shards i = Some s /\ shard_at (number_shards shards) i = Some (mk_NeuralShard i (shard_to_hex s)).
Proof.
  intros Hl Hi. do 6 (destruct shards as [|? shards]; try discriminate Hl).
  repeat (apply elem_of_cons in Hi as [->|Hi]; [by eexists|]). by apply not_elem_of_nil in Hi.
Qed.

(** Two of the five numbers, and the others. *)
Definition selected (enc ext : list Z) : Prop := (enc ++ ext)%list ≡ₚ [1; 2; 3; 4; 5] /\ length enc = 2%nat.

Lemma selected_in enc ext i : selected enc ext -> i ∈ (enc ++ ext)%list -> i ∈ [1; 2; 3; 4; 5].
Proof. intros [Hp _]. by rewrite Hp. Qed.

Lemma selected_NoDup enc ext : selected enc ext -> NoDup ((enc ++ ext)%list).
Proof. intros [Hp _]. rewrite Hp. apply (bool_decide_unpack _). reflexivity. Qed.

Lemma selected_pos enc ext l : selected enc ext -> l ⊆ (enc ++ ext)%list -> Forall (fun i => 1 <= i) l.
Proof. intros Hs Hl. apply Forall_forall. intros i Hi%Hl%(selected_in _ _ _ Hs). set_unfold. lia. Qed.

Lemma remove_dups_NoDup (l : list Z) : NoDup l -> remove_dups l = l.
Proof. induction 1 as [|x l Hx Hl IH]; [done|]. cbn. case_decide; [done|]. by rewrite IH. Qed.

Lemma verified_ok n key shards indices l user_id pubkey kp :
  split_neural_key n key = Ok shards -> derive_identity_signing_keypair key (uuid_from_u128 user_id) = Ok (pubkey, kp) ->
  NoDup indices -> Forall (fun i => 1 <= i) indices -> length indices = 3%nat -> mapM (share shards) indices = Some l ->
  combine_shards_verified l user_id pubkey = Ok key.
Proof.
  intros Hs Hd Hn Hp Hl Hm. unfold combine_shards_verified. pose proof (Forall2_length _ _ _ (mapM_Some_1 _ _ _ Hm)) as Hlen.
  assert ((len l <? 3) = false) as -> by (unfold len; lia).
  rewrite (combine_selected n key shards indices l), Hd; [|done..]. by rewrite decide_True.
Qed.

Lemma one_share_suffices n key shards enc ext encrypted password derived store user_id pubkey kp external e :
  split_neural_key n key = Ok shards -> derive_identity_signing_keypair key (uuid_from_u128 user_id) = Ok (pubkey, kp) ->
  selected enc ext -> Forall2 (sealed shards derived) enc encrypted ->
  derive_key_from_password password (ess_kdf store) = Ok derived ->
  ess_encrypted_shards store = encrypted -> ess_external_shard_indices store = ext ->
  mapM (shard_at (number_shards shards)) ext = Some external -> e ∈ external ->
  exists hexes l, decrypt_shards_with_password store password = Ok hexes /\
    collect_and_validate_shards e hexes store = Ok l /\ combine_shards_verified l user_id pubkey = Ok key.
Proof.
  intros Hs Hd Hsel Henc Hk Ee Ex Hm He. pose proof (IdTrace.five_shards (sharing_sizes HC) _ _ _ Hs) as Hfive.
  destruct (decrypt_all_ok shards derived enc encrypted Henc) as (l & Hl & Hi & Ha & Hn).
  assert (exists j, j ∈ ext /\ shard_at (number_shards shards) j = Some e) as (j & Hj & Ej).
  { apply mapM_Some in Hm. apply list_elem_of_lookup in He as [p Hp].
    destruct (Forall2_lookup_r _ _ _ _ _ Hm Hp) as (j & Hj & Ej). exists j. split; [by eapply list_elem_of_lookup_2|done]. }
  destruct (numbered shards j Hfive) as (s & Es & Ejs); [eapply selected_in; [done|set_solver]|].
  rewrite Ejs in Ej. injection Ej as <-.
  assert (NoDup (j :: enc)) as Hnd.
  { pose proof (selected_NoDup _ _ Hsel) as (H1 & H2 & H3)%NoDup_app. constructor; [|done]. intros Hin. by apply (H2 j). }
  exists (zip enc (shard_to_hex <$> l)), (s :: l). split_and!.
  - unfold decrypt_shards_with_password. by rewrite Hk, Ee.
  - unfold collect_and_validate_shards. rewrite Ex, Ee, Hi. cbn [nsh_index nsh_hex].
    assert (existsb (Z.eqb j) ext = true) as -> by (apply existsb_exists; exists j; split; [by apply list_elem_of_In|lia]).
    rewrite remove_dups_NoDup by done. destruct Hsel as [_ H2]. cbn [negb length]. unfold len. cbn [length]. rewrite H2. cbn.
    rewrite (proj1 (share_text HC s)), snd_zip by (rewrite length_fmap; lia). by rewrite shards_of_hex_ok.
  - apply (verified_ok n key shards (j :: enc) (s :: l) user_id pubkey kp); [done|done|done| | |].
    + eapply selected_pos; [done|]. set_solver.
    + destruct Hsel as [_ H2]. cbn. by rewrite H2.
    + cbn. rewrite Es, Hl. done.
Qed.

Lemma external_texts (shards : list ZidNeuralShard) (ext : list Z) (external : list NeuralShard) :
  length shards = 5%nat -> Forall (fun i => i ∈ [1; 2; 3; 4; 5]) ext ->
  mapM (shard_at (number_shards shards)) ext = Some external ->
  exists l : list ZidNeuralShard, mapM (share shards) ext = Some l /\ nsh_hex <$> external = shard_to_hex <$> l.
Proof.
  intros Hfive Hx Hm%mapM_Some_1. induction Hm as [|i e ext external Ei _ IH]; [by exists []|].
  apply Forall_cons in Hx as [Hi Hx]. destruct (IH Hx) as (l & Hl & Et). destruct (numbered shards i Hfive Hi) as (s & Es & Ee).
  exists (s :: l). cbn. rewrite Es, Hl, Et. rewrite Ee in Ei. by injection Ei as <-.
Qed.

Lemma external_shares_suffice n key shards enc ext user_id pubkey kp external :
  split_neural_key n key = Ok shards -> derive_identity_signing_keypair key (uuid_from_u128 user_id) = Ok (pubkey, kp) ->
  selected enc ext -> mapM (shard_at (number_shards shards)) ext = Some external ->
  length external = 3%nat /\
  exists l, shards_of_hex (nsh_hex <$> external) = Ok l /\ combine_shards_verified l user_id pubkey = Ok key.
Proof.
  intros Hs Hd Hsel Hm. pose proof (IdTrace.five_shards (sharing_sizes HC) _ _ _ Hs) as Hfive.
  destruct (external_texts shards ext external Hfive) as (l & Hl & Et); [|done|].
  { apply Forall_forall. intros i Hi. eapply selected_in; [done|set_solver]. }
  assert (length ext = 3%nat) as Hn.
  { destruct Hsel as [Hp He]. apply Permutation_length in Hp. rewrite length_app in Hp. simpl in Hp. lia. }
  split; [by rewrite <-(Forall2_length _ _ _ (mapM_Some_1 _ _ _ Hm))|]. exists l. rewrite Et. split; [by apply shards_of_hex_ok|].
  apply (verified_ok n key shards ext l user_id pubkey kp); [done..| | |done|done].
  - by apply selected_NoDup, NoDup_app in Hsel as (_ & _ & ?).
  - eapply selected_pos; [done|]. set_solver.
Qed.
End pure.

Section generation.
Context {C : IdCrypto} {J : IdJson} {V : VfsClientJson} {K : KeystoreClientJson} (HC : sharing C) (env : LibEnv).

(** The computation returns a value that satisfies [P] and starts no keystore operation. *)
Definition calm {T} (m : AppM IdentityService History T) (P : T -> Prop) : Prop := forall s h,
  wp m (fun x s' _ => id_pending_keystore_ops s' = id_pending_keystore_ops s /\ P x) s h.

(** A value that is [Ok] satisfies [P]. *)
Definition on_ok {T E} (P : T -> Prop) (r : result T E) : Prop := match r with Ok x => P x | Err _ => True end.

Lemma calm_mono {T} (m : AppM IdentityService History T) (P Q : T -> Prop) : calm m P -> (forall x, P x -> Q x) -> calm m Q.
Proof. intros Hm HP s h. eapply awp_mono; [apply Hm|]. intros x s' h' [Es Hx]. auto. Qed.

Lemma calm_ret {T} (x : T) (P : T -> Prop) : P x -> calm (mret x) P.
Proof. intros Hx s h. by apply awp_ret. Qed.

Lemma calm_bind {T U} (m : AppM IdentityService History T) (k : T -> AppM IdentityService History U) P Q :
  calm m P -> (forall x, P x -> calm (k x) Q) -> calm (m ≫= k) Q.
Proof.
  intros Hm Hk s h. apply awp_bind. eapply awp_mono; [apply Hm|]. intros x s' h' [Es Hx].
  eapply awp_mono; [by apply Hk|]. intros y s2 h2 [Es2 Hy]. split; [congruence|done].
Qed.

Lemma calm_bind_ok {T U E} (m : AppM IdentityService History (result T E)) (k : T -> AppM IdentityService History (result U E)) P Q :
  calm m (on_ok P) -> (forall x, P x -> calm (k x) (on_ok Q)) -> calm (bind_ok m k) (on_ok Q).
Proof. intros Hm Hk. eapply calm_bind; [exact Hm|]. intros [x|e] Hx; [by apply Hk|by apply calm_ret]. Qed.

Lemma calm_draw : calm (draw (S := History)) (fun _ => True).
Proof. by intros s h. Qed.

Lemma calm_respond ctx tag r : calm (send_response_to_pid (H := recorder env) ctx tag r) (fun _ => True).
Proof.
  intros s h. unfold send_response_to_pid. destruct (to_vec r); [|done]. destruct (rc_cap_slots ctx); [done|].
  do 2 id_step. by destruct (env _ h).
Qed.

Lemma calm_failed {T} ctx tag r reason P :
  calm (failed (T := T) (send_response_to_pid (H := recorder env) ctx tag r) reason) (on_ok P).
Proof. eapply calm_bind; [apply calm_respond|]. intros [u|e] _; by apply calm_ret. Qed.

Lemma calm_draw_bytes n what : calm (draw_bytes (S := History) n what) (on_ok (fun _ => True)).
Proof. eapply calm_bind; [apply calm_draw|]. intros i _. apply calm_ret. by destruct (map_err _ _). Qed.

Lemma calm_generate user_id ctx :
  calm (generate_neural_key_and_identity (H := recorder env) user_id ctx)
    (on_ok (fun x => exists kp, derive_identity_signing_keypair x.1 (uuid_from_u128 user_id) = Ok (x.2, kp))).
Proof.
  unfold generate_neural_key_and_identity, NeuralKey_generate. eapply calm_bind; [eapply calm_bind; [apply calm_draw|]|].
  - intros i _. by apply (calm_ret _ (fun _ => True)).
  - intros [key|e] _; [|apply calm_failed].
    destruct (derive_identity_signing_keypair key _) as [[pubkey kp]|e] eqn:Ed; [|apply calm_failed].
    apply calm_ret. by exists kp.
Qed.

Lemma calm_shuffle positions indices : calm (shuffle (S := History) positions indices) (on_ok (fun l => l ≡ₚ indices)).
Proof.
  revert indices. induction positions as [|i positions IH]; intros indices; [apply calm_ret; cbn; done|]. cbn [shuffle].
  eapply (calm_bind_ok _ _ (fun _ => True)); [apply calm_draw_bytes|]. intros bytes _.
  eapply calm_mono; [apply IH|]. intros [l|e] Hl; [|done]. cbn in *. by rewrite Hl, IdTrace.swap_Permutation.
Qed.

Lemma calm_split key ctx :
  calm (split_and_select_shards (H := recorder env) key ctx) (on_ok (fun x => exists n shards,
    split_neural_key n key = Ok shards /\ x.1.1 = number_shards shards /\ selected x.1.2 x.2)).
Proof.
  unfold split_and_select_shards, split_key. eapply calm_bind; [eapply calm_bind; [apply calm_draw|]|].
  - intros i _. apply (calm_ret _ (on_ok (fun shards => exists n, split_neural_key n key = Ok shards))).
    destruct (split_neural_key i key) eqn:Es; [|done]. by exists i.
  - intros [shards|e]; [intros [n Hs]|intros _; apply calm_failed].
    eapply (calm_bind _ _ (on_ok (fun x => selected x.1 x.2))).
    + eapply calm_bind_ok; [apply calm_shuffle|]. intros l Hl. apply calm_ret. cbn.
      split; [by rewrite merge_sort_Permutation, take_drop|]. apply Permutation_length in Hl. rewrite length_take, Hl. done.
    + intros [[enc ext]|e] Hx; [|apply calm_failed]. apply calm_ret. by exists n, shards.
Qed.

Lemma calm_kdf password ctx :
  calm (create_kdf_and_derive_key (H := recorder env) password ctx)
    (on_ok (fun x => derive_key_from_password password x.1 = Ok x.2)).
Proof.
  unfold create_kdf_and_derive_key, create_kdf_params, generate_kdf_salt. eapply (calm_bind _ _ (fun _ => True)).
  - eapply calm_mono; [eapply (calm_bind_ok _ _ (fun _ => True) (fun _ => True))|by intros [] _].
    + apply calm_draw_bytes.
    + intros salt _. by apply calm_ret.
  - intros [kdf|e] _; [|apply calm_failed].
    destruct (derive_key_from_password password kdf) eqn:Ed; [apply calm_ret; cbn; done|apply calm_failed].
Qed.

Lemma calm_encrypt_shard hex i key :
  from_utf8 (str_bytes hex) = Some hex ->
  calm (encrypt_shard_with_key (S := History) hex i key)
    (on_ok (fun e => es_index e = i /\ decrypt_shard_with_key e key = Ok hex)).
Proof.
  intros Hu. unfold encrypt_shard_with_key. eapply calm_bind_ok; [apply calm_draw_bytes|]. intros nonce _.
  destruct (aes_gcm_encrypt _ _ _) as [c|e] eqn:Ec; [|by apply calm_ret].
  pose proof (IdTrace.tag_bytes (sharing_sizes HC) _ _ _ _ Ec). assert ((len c <? 16) = false) as -> by lia.
  apply calm_ret. cbn. split; [done|]. unfold decrypt_shard_with_key. cbn. rewrite take_drop.
  by rewrite (sealed_opens HC _ _ _ _ Ec), Hu.
Qed.

Lemma calm_encrypt shards l key ctx :
  length shards = 5%nat -> Forall (fun i => i ∈ [1; 2; 3; 4; 5]) l ->
  calm (encrypt_selected_shards (H := recorder env) (number_shards shards) l key ctx) (on_ok (Forall2 (sealed shards key) l)).
Proof.
  intros Hfive. induction 1 as [|i l Hi _ IH]; [apply calm_ret; cbn; constructor|]. cbn [encrypt_selected_shards].
  destruct (numbered shards i Hfive Hi) as (s & Es & ->). cbn [nsh_hex].
  eapply calm_bind; [apply calm_encrypt_shard, (share_text HC)|]. intros [e|e]; [intros [Ei Ed]|intros _; apply calm_failed].
  eapply calm_bind_ok; [exact IH|]. intros rest Hr. apply calm_ret. cbn. constructor; [|done]. split; [done|]. eauto.
Qed.

Lemma calm_build user_id pubkey shards enc ext encrypted kdf :
  length shards = 5%nat -> selected enc ext ->
  calm (build_generation_result (H := recorder env) user_id pubkey (number_shards shards) ext encrypted kdf) (fun x =>
    exists created_at, x.1.2 = LocalKeyStore_new user_id pubkey zero_key zero_key created_at /\
      x.2 = mk_EncryptedShardStore user_id encrypted ext kdf created_at /\
      mapM (shard_at (number_shards shards)) ext = Some (ng_shards x.1.1)).
Proof.
  intros Hfive Hsel. unfold build_generation_result.
  destruct (mapM_is_Some_2 (shard_at (number_shards shards)) ext) as [external Ex].
  { apply Forall_forall. intros i Hi. destruct (numbered shards i Hfive) as (? & ? & E); [|eauto].
    eapply selected_in; [done|]. set_solver. }
  rewrite Ex. eapply (calm_bind _ _ (fun _ => True)); [by intros s h|]. intros created_at _. apply calm_ret. by exists created_at.
Qed.

(** The operations pending after the key was stored. *)
Lemma store_ops ctx r key_store store s h :
  wp (store_generated_keys (H := recorder env) ctx r key_store store) (fun _ s' _ => forall id op,
    id_pending_keystore_ops s' !! id = Some op -> id_pending_keystore_ops s !! id = Some op \/
    exists key_json shards_json, to_vec key_store = Ok key_json /\ to_vec store = Ok shards_json /\
      op = K_WriteKeyStore ctx (ng_user_id r) r key_json shards_json) s h.
Proof.
  unfold store_generated_keys. assert (forall e, wp (send_response_to_pid (H := recorder env) ctx MSG_GENERATE_NEURAL_KEY_RESPONSE
    (GenerateNeuralKeyResponse (Err e))) (fun _ s' _ => forall id op, id_pending_keystore_ops s' !! id = Some op ->
      id_pending_keystore_ops s !! id = Some op \/ exists key_json shards_json, to_vec key_store = Ok key_json /\
      to_vec store = Ok shards_json /\ op = K_WriteKeyStore ctx (ng_user_id r) r key_json shards_json) s h) as Hfail.
  { intros e. eapply awp_mono; [apply calm_respond|]. intros ??? [E _] id op Ho. left. by rewrite <-E. }
  destruct (to_vec key_store) as [key_json|e] eqn:Ek; [|apply Hfail].
  destruct (to_vec store) as [shards_json|e] eqn:Es; [|apply Hfail].
  unfold start_keystore_write, start_keystore_op, ks_send_write, send_keystore_request. do 2 id_step.
  destruct (_ <=? _); [repeat id_step; by left|]. cbv zeta. repeat id_step; try (intros ???; by left).
  intros id op. cbn [id_pending_keystore_ops set_keystore_ops take_keystore_op_id].
  intros [[<- <-]|[_ Ho]]%lookup_insert_Some; [right|by left]. eauto.
Qed.

(** What the password and a share of the answer can do with the stored keys. *)
Definition recoverable (user_id : Z) (password : string) (r : NeuralKeyGenerated) (key_json shards_json : list byte) : Prop :=
  exists key pubkey created_at store,
    to_vec (LocalKeyStore_new user_id pubkey zero_key zero_key created_at) = Ok key_json /\
    to_vec store = Ok shards_json /\ length (ng_shards r) = 3%nat /\
    (forall ctx request, cm_password request = password -> cm_external_shard request ∈ ng_shards r ->
      continue_create_machine_after_shards_read (H := recorder env) ctx request pubkey user_id store =
        (let? (machine_id, keypair) :=
           derive_machine_keypair (H := recorder env) key (cm_user_id request) (cm_key_scheme request) ctx in
         build_and_store_machine_record (H := recorder env) ctx request machine_id keypair)) /\
    exists l, shards_of_hex (nsh_hex <$> ng_shards r) = Ok l /\ combine_shards_verified l user_id pubkey = Ok key.

Lemma generated_recoverable ctx user_id password s h :
  wp (continue_generate_after_exists_check (H := recorder env) ctx user_id false password) (fun _ s' _ => forall id op,
    id_pending_keystore_ops s' !! id = Some op -> id_pending_keystore_ops s !! id = Some op \/
    exists r key_json shards_json, op = K_WriteKeyStore ctx (ng_user_id r) r key_json shards_json /\
      recoverable user_id password r key_json shards_json) s h.
Proof.
  unfold continue_generate_after_exists_check.
  apply wp_bind_ok. eapply awp_mono; [apply calm_generate|]. intros [[key pubkey]|e] s1 h1 [E1 H1]; [|rewrite E1; auto].
  destruct H1 as [kp Hd]. cbn [fst snd] in Hd.
  apply wp_bind_ok. eapply awp_mono; [apply calm_split|]. intros [[[all enc] ext]|e] s2 h2 [E2 H2]; [|rewrite E2, E1; auto].
  destruct H2 as (n & shards & Hs & Ha & Hsel). cbn in Ha, Hsel. subst all.
  pose proof (IdTrace.five_shards (sharing_sizes HC) _ _ _ Hs) as Hfive.
  apply wp_bind_ok. eapply awp_mono; [apply calm_kdf|]. intros [[kdf derived]|e] s3 h3 [E3 H3]; [|rewrite E3, E2, E1; auto].
  cbn in H3. apply wp_bind_ok. eapply awp_mono; [apply (calm_encrypt shards); [done|]|].
  { apply Forall_forall. intros i Hi. eapply selected_in; [done|]. set_solver. }
  intros [encrypted|e] s4 h4 [E4 H4]; [|rewrite E4, E3, E2, E1; auto]. cbn in H4.
  apply awp_bind. eapply awp_mono; [by eapply calm_build|].
  intros [[r key_store] store] s5 h5 [E5 (created_at & H5 & H6 & H7)]. cbn in H5, H6, H7. subst.
  eapply awp_mono; [apply store_ops|]. intros x s6 h6 H8. cbv beta in H8. intros id op [Ho|(key_json & shards_json & Ek & Es & ->)]%H8.
  { left. by rewrite <-E1, <-E2, <-E3, <-E4, <-E5. }
  right. exists r, key_json, shards_json. split; [done|].
  destruct (external_shares_suffice HC n key shards enc ext user_id pubkey kp (ng_shards r)) as [Hl Hr]; [done..|].
  eexists key, pubkey, created_at, _. split_and!; [done|exact Es|done| |done].
  intros ctx' request Ep Hx. unfold continue_create_machine_after_shards_read.
  destruct (one_share_suffices HC n key shards enc ext encrypted password derived
    (mk_EncryptedShardStore user_id encrypted ext kdf created_at) user_id pubkey kp (ng_shards r)
    (cm_external_shard request)) as (hexes & l & Eh & El & Ec); [done..|]. by rewrite Ep, Eh, El, Ec.
Qed.
End generation.
End IdRecovery.

(** C25: the keys that the generation stores can be recovered. When the key check found
    nothing and the service set out to store a fresh neural key, the client holds
    three shares, and from what is stored: with the password, any one of the three
    makes the creation of a machine key go on with that very neural key, because two
    sealed shares open and three of the five combine to the key that the stored
    identity key belongs to; and the three shares alone combine to it, as the
    recovery checks it. *)
Theorem neural_key_recoverable {C : IdCrypto} {J : IdJson} {V : VfsClientJson} {K : KeystoreClientJson} (env : LibEnv)
    ctx user_id password s h x s' h' id ctx' uid r key_json shards_json :
  IdRecovery.sharing C ->
  continue_generate_after_exists_check (H := recorder env) ctx user_id false password (s, h) = Some (x, (s', h')) ->
  id_pending_keystore_ops s !! id = None ->
  id_pending_keystore_ops s' !! id = Some (K_WriteKeyStore ctx' uid r key_json shards_json) ->
  IdRecovery.recoverable env user_id password r key_json shards_json.
Proof.
  intros HC E Hn Ho. pose proof (IdRecovery.generated_recoverable HC env ctx user_id password s h) as Hw. unfold wp in Hw. rewrite E in Hw.
  destruct (Hw id _ Ho) as [Hs|(r' & k' & j' & [= -> -> -> -> ->] & Hr)]; [congruence|done].
Qed.

(** ** Results that crash the services, and keys that anyone can derive *)
Section hazards.
Context {C : IdCrypto} {J : IdJson} {V : VfsClientJson} {K : KeystoreClientJson} {U : UnicodeCase} {KJ : Keystore.KeystoreJson}.

Lemma oversized_slice raw :
  9 <= len raw -> 2 ^ 32 - 9 <= get_u32 5 raw < 2 ^ 32 -> Keystore.result_data (W := wasm32) raw = None.
Proof.
  intros Hl Hd. unfold Keystore.result_data, usize_add. cbn [usize_bits wasm32].
  replace (9 + get_u32 5 raw) with (9 + get_u32 5 raw - 2 ^ 32 + 1 * 2 ^ 32) by lia.
  rewrite Z.mod_add, Z.mod_small by lia.
  assert ((0 <? get_u32 5 raw) && (9 + get_u32 5 raw - 2 ^ 32 <=? len raw) = true) as -> by lia.
  by assert ((9 + get_u32 5 raw - 2 ^ 32 <? 9) = true) as -> by lia.
Qed.

(** C31: one message stops a service for good. On a 32-bit target, a result of nine bytes
    or more that declares a length within nine of 2^32 makes the keystore, the
    network and the identity service panic, whoever sends it and whatever the
    service was doing: [9 + data_len] wraps below 9, the bounds check passes, and the
    slice does not exist. *)
Theorem oversized_result_crashes (env : LibEnv) ctx pid caps raw k n s h :
  9 <= len raw -> 2 ^ 32 - 9 <= get_u32 5 raw < 2 ^ 32 ->
  Keystore.keystore_on_message (W := wasm32) (H := recorder env) ctx
    (mk_AppMessage Keystore.MSG_KEYSTORE_RESULT pid caps raw) (k, h) = None /\
  NetService.network_on_message (W := wasm32) (H := recorder env) ctx
    (mk_AppMessage NetService.MSG_NET_RESULT pid caps raw) (n, h) = None /\
  identity_on_message (W := wasm32) (H := recorder env) ctx (mk_AppMessage NetService.MSG_NET_RESULT pid caps raw) (s, h) = None.
Proof.
  intros Hl Hd. pose proof (oversized_slice raw Hl Hd) as Hr. assert ((len raw <? 9) = false) as Hn by lia. split_and!.
  - change (Keystore.handle_keystore_result (W := wasm32) (H := recorder env)
      (mk_AppMessage Keystore.MSG_KEYSTORE_RESULT pid caps raw) (k, h) = None).
    unfold Keystore.handle_keystore_result. cbn [am_data]. by rewrite Hn, Hr.
  - change (NetService.handle_net_result (W := wasm32) (H := recorder env)
      (mk_AppMessage NetService.MSG_NET_RESULT pid caps raw) (n, h) = None).
    unfold NetService.handle_net_result. cbn [am_data].
    change (NetService.result_data (W := wasm32) raw) with (Keystore.result_data (W := wasm32) raw). by rewrite Hn, Hr.
  - change (handle_net_result (W := wasm32) (H := recorder env)
      (mk_AppMessage NetService.MSG_NET_RESULT pid caps raw) (s, h) = None).
    unfold handle_net_result, net_result_data. cbn [am_data].
    change (NetService.result_data (W := wasm32) raw) with (Keystore.result_data (W := wasm32) raw). by rewrite Hn, Hr.
Qed.

(** What the enrolment does with the stored record: a request that is signed with a
    key derived from the public key of the record and from the clock. *)
Definition enrolled (env : LibEnv) ctx user_id zid_endpoint (record : MachineKeyRecord) (h h' : History)
  (op : PendingNetworkOp) : Prop :=
  exists identity_id machine_id keypair machine_keypair keys now,
    op = SubmitZidEnroll ctx user_id zid_endpoint identity_id keys /\
    identity_id = Z.lxor (env L_get_wallclock h) (u128_shl user_id 64) /\
    derive_identity_signing_keypair (nk_from_bytes (mr_signing_public_key record)) (u128_to_be_bytes identity_id) =
      Ok (ek_identity_signing_public_key keys, keypair) /\
    exists body request, to_vec (create_identity identity_id machine_id (ek_identity_signing_public_key keys) keypair
      machine_keypair "Browser" now) = Ok body /\ to_vec (enroll_request zid_endpoint body) = Ok request /\
      head h' = Some (L_network_fetch request).

Lemma enroll_ops (env : LibEnv) ctx user_id zid_endpoint data record s h :
  from_slice data = Ok record ->
  wp (continue_zid_enroll_after_read (H := recorder env) ctx user_id zid_endpoint data) (fun _ s' h' => forall id op,
    id_pending_net_ops s' !! id = Some op -> id_pending_net_ops s !! id = Some op \/
      enrolled env ctx user_id zid_endpoint record h h' op) s h.
Proof.
  intros E. unfold continue_zid_enroll_after_read, or_internal, NeuralKey_generate, draw, start_network_fetch,
    send_zid_enroll_response, failed, send_response_to_pid. rewrite E.
  repeat (cbv beta iota zeta; id_step); try (intros ???; by left).
  intros id op. cbn [id_pending_net_ops set_net_ops].
  intros [[_ <-]|[_ Ho]]%lookup_insert_Some; [right|by left]. unfold enrolled. eauto 20.
Qed.

(** C32: the identity that an enrolment creates is not secret. The key that signs the
    request, and that the server will hold for the identity, is derived from the
    public key of the stored machine record and from the clock: no secret of the user
    enters it, so that who knows the public key of the machine and the time can sign
    for the identity. *)
Theorem enroll_identity_from_public_key (env : LibEnv) ctx user_id zid_endpoint data record s h x s' h' id op :
  from_slice data = Ok record ->
  continue_zid_enroll_after_read (H := recorder env) ctx user_id zid_endpoint data (s, h) = Some (x, (s', h')) ->
  id_pending_net_ops s !! id = None -> id_pending_net_ops s' !! id = Some op ->
  enrolled env ctx user_id zid_endpoint record h h' op.
Proof.
  intros Er E Hn Ho. pose proof (enroll_ops env ctx user_id zid_endpoint data record s h Er) as Hw. unfold wp in Hw.
  rewrite E in Hw. destruct (Hw id op Ho); [congruence|done].
Qed.
End hazards.

(** ** Instances *)
#[local] Existing Instance wasm32.

(** Shares that are copies of the key, and a cipher that appends sixteen zeros. *)
#[local] Instance copies : IdCrypto := {|
  NeuralKey := bool; ZidNeuralShard := bool; MachineKeyPair := bool; Ed25519KeyPair := bool; MachineSeed := bool;
  ZidCapabilities := unit; Challenge := unit; FULL_DEVICE := tt; all_capabilities := tt;
  getrandom _ n := Ok (replicate (Z.to_nat n) x00);
  nk_generate i := Ok (Nat.odd i);
  nk_bytes k := replicate 32 (if k then x01 else x00);
  nk_from_bytes b := bool_decide (head b = Some x01);
  split_neural_key _ k := Ok (replicate 5 k);
  combine_shards l := match l with s :: _ => Ok s | [] => Err "no shards" end;
  shard_to_hex s := if s then "01" else "00";
  shard_from_hex s := Ok (String.eqb s "01");
  derive_identity_signing_keypair k _ := Ok (replicate 32 (if k then x01 else x00), k);
  ed_from_seed b := Ok (bool_decide (head b = Some x01));
  ed_seed_bytes k := replicate 32 (if k then x01 else x00);
  sign_message _ m := m;
  derive_machine_keypair_with_scheme k _ _ _ _ _ := Ok k;
  derive_machine_seed k _ _ _ := Ok k;
  derive_machine_signing_seed k _ := Ok (replicate 32 (if k then x01 else x00));
  derive_machine_encryption_seed k _ := Ok (replicate 32 (if k then x01 else x00));
  mkp_from_seeds b _ _ := Ok (bool_decide (head b = Some x01));
  mkp_from_seeds_with_scheme b _ _ _ := Ok (bool_decide (head b = Some x01));
  mkp_signing_public_key k := replicate 32 (if k then x01 else x00);
  mkp_encryption_public_key k := replicate 32 (if k then x01 else x00);
  mkp_signing_key_pair k := k;
  canonicalize_identity_creation_message a b c d e _ := (a ++ b ++ c ++ d ++ e)%list;
  canonicalize_challenge _ := [];
  challenge_id _ := "challenge";
  sha256 b := (take 32 (b ++ replicate 32 x00))%list;
  Argon2Params := unit;
  argon2_params _ _ _ _ := Ok tt;
  argon2id _ password _ := Ok (take 32 (password ++ replicate 32 x00))%list;
  aes_gcm_encrypt _ _ text := Ok (text ++ replicate 16 x00)%list;
  aes_gcm_decrypt _ _ sealed := Some (take (length sealed - 16) sealed) |}.

Definition reject {T} : Deserialize T := fun _ => Err "unexpected input".
Definition blank {T} : Serialize T := fun _ => Ok [].

(** The machine key of a file: its secret is the file, its public key is fixed. *)
Definition stored_record (data : list byte) : MachineKeyRecord :=
  mk_MachineKeyRecord 3 (replicate 32 x01) (replicate 32 x02) (Some data) None 0 7 MachineKeyCapabilities_default None 0 1
    Classical None None.

(** Every request for a key is that of user 7, and the server names one time. *)
#[local] Instance one_user : IdJson.
Proof.
  refine {| de_GenerateNeuralKeyRequest := fun _ => Ok (mk_GenerateNeuralKeyRequest 7 "correct horse battery");
    de_MachineKeyRecord := fun data => Ok (stored_record data);
    de_ZidTokens := fun _ => Ok (mk_ZidTokens "a" "r" "s" "m" "2026-03-01T12:00:00Z" LT_MachineKey None);
    de_RefreshTokensPartial := fun _ => Ok (mk_RefreshTokensPartial "a" "r" None None "2026-03-01T12:00:00Z" None);
    detail_from_value _ := Err "no detail"; object_to_string _ := None |};
  first [exact reject | exact blank].
Defined.

#[local] Instance vfs_json : VfsClientJson.
Proof. refine {| vfs_request_to_vec _ := Ok [] |}; exact (fun _ => Err "unexpected input"). Defined.
#[local] Instance keystore_json : KeystoreClientJson.
Proof. refine {| keystore_request_to_vec _ := Ok [] |}; exact (fun _ => Err "unexpected input"). Defined.
#[local] Instance no_case : UnicodeCase := {| to_lowercase s := s; to_uppercase s := s |}.

Lemma copies_sizes : IdTrace.crypto_sizes copies.
Proof.
  split.
  - by intros i key shards [= <-].
  - intros key nonce text sealed [= <-]. unfold len. rewrite length_app. simpl. lia.
Qed.

Lemma one_user_dates env : IdTrace.dated_results env.
Proof. intros h m data success _ _ _ _. split; intros tokens [= <-]; vm_compute; by eexists. Qed.

(** Processes 99 and 10 ask for the key of user 7, the file system answers, and a
    result of the network arrives. *)
Definition two_requests : list ReceivedMessage :=
  [mk_ReceivedMessage 99 MSG_GENERATE_NEURAL_KEY [] []; mk_ReceivedMessage 10 MSG_GENERATE_NEURAL_KEY [] [];
   mk_ReceivedMessage 3 VfsPath.MSG_VFS_EXISTS_RESPONSE [] [];
   mk_ReceivedMessage 0 MSG_NET_RESULT [] (u32_to_le_bytes 5 ++ [x00] ++ u32_to_le_bytes 2 ++ str_bytes "{}")%list].


Lemma copies_sharing : IdRecovery.sharing copies.
Proof.
  split; [exact copies_sizes| | |].
  - intros i key shards positions l [= <-] _ Hp Hm%mapM_Some_1. destruct Hm as [|p b positions l Hb _]; [simpl in Hp; lia|].
    change (replicate 5 key !! p = Some b) in Hb. apply lookup_replicate in Hb as [-> _]. done.
  - by intros [].
  - intros key nonce text sealed [= <-]. simpl. rewrite length_app. simpl.
    replace (length text + 16 - 16)%nat with (length text) by lia. by rewrite take_app_length.
Qed.

(** The service after it set out to store a key for user 7. *)
Abbreviation generated :=
  (continue_generate_after_exists_check (H := recorder quiet_env) (mk_RequestContext 10 []) 7 false "correct horse battery"
    (IdentityService_default, [])) (only parsing).

Definition stores_key (g : option (result unit AppError * (IdentityService * list LibCall))) : bool :=
  match g with
  | Some (Ok tt, (s', _)) =>
      match id_pending_keystore_ops s' !! 0 with Some (K_WriteKeyStore (mk_RequestContext 10 []) _ _ [] []) => true | _ => false end
  | _ => false
  end.

Lemma stores_key_true g : stores_key g = true -> exists s' h' uid r, g = Some (Ok tt, (s', h')) /\
  id_pending_keystore_ops s' !! 0 = Some (K_WriteKeyStore (mk_RequestContext 10 []) uid r [] []).
Proof. unfold stores_key. intros E. repeat case_match; try discriminate; subst. eauto 10. Qed.

Lemma generated_stores : stores_key generated = true.
Proof. vm_compute. reflexivity. Qed.

Lemma neural_key_recoverable_witness :
  exists s' h' uid r, generated = Some (Ok tt, (s', h')) /\
    id_pending_keystore_ops s' !! 0 = Some (K_WriteKeyStore (mk_RequestContext 10 []) uid r [] []) /\
    IdRecovery.recoverable quiet_env 7 "correct horse battery" r [] [].
Proof.
  destruct (stores_key_true generated generated_stores) as (s' & h' & uid & r & E & Ho).
  exists s', h', uid, r. split_and!; [exact E|exact Ho|].
  apply (neural_key_recoverable quiet_env (mk_RequestContext 10 []) 7 "correct horse battery" IdentityService_default
    [] (Ok tt) s' h' 0 (mk_RequestContext 10 []) uid); [exact copies_sharing|exact E|reflexivity|exact Ho].
Defined.

(** Nine bytes that declare 2^32 - 1 more, from process 66. *)
Lemma oversized_result_crashes_witness :
  let raw := (u32_to_le_bytes 5 ++ [x00] ++ u32_to_le_bytes (2 ^ 32 - 1))%list in
  let ctx := mk_AppContext 7 0 0 None None UserContext_system "" in
  Keystore.keystore_on_message (J := plain_json) (H := recorder quiet_env) ctx
    (mk_AppMessage Keystore.MSG_KEYSTORE_RESULT 66 [] raw) (Keystore.KeystoreService_default, []) = None /\
  NetService.network_on_message (H := recorder quiet_env) ctx
    (mk_AppMessage NetService.MSG_NET_RESULT 66 [] raw) (NetService.NetworkService_default, []) = None /\
  identity_on_message (H := recorder quiet_env) ctx
    (mk_AppMessage NetService.MSG_NET_RESULT 66 [] raw) (IdentityService_default, []) = None.
Proof.
  intros raw ctx. apply (oversized_result_crashes (KJ := plain_json) quiet_env ctx 66 [] raw); vm_compute; [done|split; done].
Defined.

(** A machine key whose secret is the byte 9. *)
Abbreviation enrolling := (continue_zid_enroll_after_read (H := recorder quiet_env) (mk_RequestContext 10 []) 7 "https://zid" [x09]
  (IdentityService_default, [])) (only parsing).

Definition fetches (g : option (result unit AppError * (IdentityService * list LibCall))) : bool :=
  match g with Some (Ok tt, (s', _)) => bool_decide (is_Some (id_pending_net_ops s' !! 5)) | _ => false end.

Lemma fetches_true g : fetches g = true -> exists s' h' op, g = Some (Ok tt, (s', h')) /\ id_pending_net_ops s' !! 5 = Some op.
Proof. unfold fetches. intros E. repeat case_match; try discriminate; subst. apply bool_decide_eq_true in E as [op Ho]. eauto. Qed.

Lemma enrolling_fetches : fetches enrolling = true.
Proof. vm_compute. reflexivity. Qed.

Lemma enroll_identity_from_public_key_witness :
  exists s' h' op, enrolling = Some (Ok tt, (s', h')) /\
    enrolled quiet_env (mk_RequestContext 10 []) 7 "https://zid" (stored_record [x09]) [] h' op.
Proof.
  destruct (fetches_true enrolling enrolling_fetches) as (s' & h' & op & E & Ho). exists s', h', op.
  split; [exact E|]. apply (enroll_identity_from_public_key quiet_env (mk_RequestContext 10 []) 7 "https://zid" [x09]
    (stored_record [x09]) IdentityService_default [] (Ok tt) s' h' 5 op); [reflexivity|exact E|reflexivity|exact Ho].
Defined.
