(* ===== verification/Init.v ===== *)
(** * Init process (crates/zos-init/src)

    The first process: the registry of services, the routing of messages of the
    supervisor to services through the capabilities Init holds, and the
    Init-driven spawn protocol. Each handler is a function of Init's state and of
    the history of its system calls (newest first); an environment answers the
    calls. Console logging is left out; debug messages are protocol and kept. *)
From S2P Require Import Prelude StrLib VfsService Bridge.

Local Open Scope string_scope.
Local Open Scope Z_scope.

(** ** lib.rs: state *)
Record ServiceInfo : Type := mk_ServiceInfo {
  si_pid : Z;
  si_endpoint_id : Z;
  si_ready : bool }.

Record PendingDelivery : Type := mk_PendingDelivery {
  pd_target_pid : Z;
  pd_endpoint_slot : Z;
  pd_tag : Z;
  pd_data : list byte }.

Record Init : Type := mk_Init {
  in_services : gmap string ServiceInfo;
  service_cap_slots : gmap Z Z;
  service_vfs_slots : gmap Z Z;
  pending_deliveries : gmap Z (list PendingDelivery);
  in_endpoint_slot : Z;
  boot_complete : bool }.

Definition Init_new : Init := mk_Init ∅ ∅ ∅ ∅ 1 false.

(** ** System calls *)
Inductive InitCall : Type :=
| IC_Send (slot tag : Z) (data : list byte)
| IC_Kill (pid : Z)
| IC_RegisterProcess (name : string)
| IC_CreateEndpointFor (pid : Z)
| IC_CapGrant (slot to_pid perms : Z)
| IC_LoadBinary (name : string)
| IC_SpawnProcess (name : string) (binary : list byte)
| IC_Debug (msg : string).

Record InitEnv : Type := mk_InitEnv {
  ie_send : list InitCall -> result unit Z;
  ie_kill : list InitCall -> result unit Z;
  ie_register : list InitCall -> result Z Z;
  ie_endpoint : list InitCall -> result (Z * Z) Z;
  ie_grant : list InitCall -> result Z Z;
  ie_load : list InitCall -> result (list byte) Z;
  ie_spawn : list InitCall -> result Z Z }.

Record IWorld : Type := mk_IWorld { iw_init : Init; iw_hist : list InitCall }.

(** Make a call and continue with its answer. *)
Definition ic {T} (c : InitCall) (answer : list InitCall -> T) (k : T -> IWorld -> IWorld) (w : IWorld) : IWorld :=
  let h := c :: iw_hist w in k (answer h) (mk_IWorld (iw_init w) h).

Definition ic_debug (msg : string) (w : IWorld) : IWorld := mk_IWorld (iw_init w) (IC_Debug msg :: iw_hist w).

Definition upd (f : Init -> Init) (w : IWorld) : IWorld := mk_IWorld (f (iw_init w)) (iw_hist w).

Definition set_services m (i : Init) : Init :=
  mk_Init m (service_cap_slots i) (service_vfs_slots i) (pending_deliveries i) (in_endpoint_slot i) (boot_complete i).
Definition set_cap_slots m (i : Init) : Init :=
  mk_Init (in_services i) m (service_vfs_slots i) (pending_deliveries i) (in_endpoint_slot i) (boot_complete i).
Definition set_vfs_slots m (i : Init) : Init :=
  mk_Init (in_services i) (service_cap_slots i) m (pending_deliveries i) (in_endpoint_slot i) (boot_complete i).
Definition set_deliveries m (i : Init) : Init :=
  mk_Init (in_services i) (service_cap_slots i) (service_vfs_slots i) m (in_endpoint_slot i) (boot_complete i).
Definition set_boot_complete (i : Init) : Init :=
  mk_Init (in_services i) (service_cap_slots i) (service_vfs_slots i) (pending_deliveries i) (in_endpoint_slot i) true.

(** ** Fields of messages *)
Definition byte_at (i : nat) (d : list byte) : Z := from_option Z_of_byte 0 (d !! i).
Definition u32_at (i : nat) (d : list byte) : Z := from_le_bytes (take 4 (drop i d)).
Definition u16_at (i : nat) (d : list byte) : Z := from_le_bytes (take 2 (drop i d)).

(** [[name_len: u8, name]] at the start of a message; [None] when it is too short
    or not UTF-8. *)
Definition name_field (d : list byte) : option string :=
  match d with
  | [] => None
  | b :: rest =>
      if len d <? 1 + Z_of_byte b then None else from_utf8 (take (Z.to_nat (Z_of_byte b)) rest)
  end.

(** [{:x}]. *)
Fixpoint hex_go (fuel : nat) (n : Z) (s : string) : string :=
  match fuel with
  | O => s
  | S fuel' => let s' := String (hex_digit (n mod 16)) s in if n / 16 =? 0 then s' else hex_go fuel' (n / 16) s'
  end.

Definition hex_lower (n : Z) : string := hex_go 16 n "".

Section handlers.
Context (env : InitEnv).

(** ** registry.rs *)
Definition handle_register (msg : Message) (w : IWorld) : IWorld :=
  let d := msg_data msg in
  if len d <? 9 then w
  else
    let name_len := byte_at 0 d in
    if len d <? 1 + name_len + 8 then w
    else
      match from_utf8 (take (Z.to_nat name_len) (drop 1 d)) with
      | None => w
      | Some name =>
          let n := Z.to_nat name_len in
          let endpoint_id := Z.lor (Z.shiftl (u32_at (5 + n) d) 32) (u32_at (1 + n) d) in
          upd (fun i => set_services (<[name := mk_ServiceInfo (msg_from_pid msg) endpoint_id false]> (in_services i)) i) w
      end.

Definition handle_lookup (msg : Message) (w : IWorld) : IWorld :=
  match name_field (msg_data msg) with
  | None => w
  | Some name =>
      let '(found, endpoint_id) :=
        match in_services (iw_init w) !! name with
        | Some info => (1, si_endpoint_id info)
        | None => (0, 0)
        end in
      ic_debug ("INIT:LOOKUP_RESPONSE:" +:+ pretty (msg_from_pid msg) +:+ ":" +:+ pretty found +:+ ":"
                +:+ pretty endpoint_id) w
  end.

(** The first service of the sender in the order of names becomes ready. *)
Definition handle_ready (msg : Message) (w : IWorld) : IWorld :=
  match list_find (fun p => si_pid p.2 = msg_from_pid msg) (sbtree_iter (in_services (iw_init w))) with
  | None => w
  | Some (_, (name, info)) =>
      upd (fun i => set_services
             (<[name := mk_ServiceInfo (si_pid info) (si_endpoint_id info) true]> (in_services i)) i) w
  end.

(** ** handlers/service.rs *)
Definition handle_spawn_request (msg : Message) (w : IWorld) : IWorld :=
  match name_field (msg_data msg) with
  | None => w
  | Some name => ic_debug ("INIT:SPAWN:" +:+ name) w
  end.

Definition handle_service_cap_preregister (msg : Message) (w : IWorld) : IWorld :=
  let d := msg_data msg in
  if negb (msg_from_pid msg =? 0) then w
  else if len d <? 8 then w
  else upd (fun i => set_cap_slots (<[u32_at 0 d := u32_at 4 d]> (service_cap_slots i)) i) w.

(** handlers/supervisor.rs: failures of a retry are logged only. *)
Definition send_all (cap_slot : Z) (l : list PendingDelivery) (w : IWorld) : IWorld :=
  foldl (fun w p => ic (IC_Send cap_slot (pd_tag p) (pd_data p)) (ie_send env) (fun _ w => w) w) w l.

Definition retry_pending_deliveries (service_pid cap_slot : Z) (w : IWorld) : IWorld :=
  match pending_deliveries (iw_init w) !! service_pid with
  | None => w
  | Some pending =>
      send_all cap_slot pending
        (upd (fun i => set_deliveries (delete service_pid (pending_deliveries i)) i) w)
  end.

Definition handle_service_cap_granted (msg : Message) (w : IWorld) : IWorld :=
  let d := msg_data msg in
  if negb (msg_from_pid msg =? 0) then w
  else if len d <? 8 then w
  else
    let service_pid := u32_at 0 d in
    let cap_slot := u32_at 4 d in
    retry_pending_deliveries service_pid cap_slot
      (upd (fun i => set_cap_slots (<[service_pid := cap_slot]> (service_cap_slots i)) i) w).

Definition handle_vfs_response_cap_granted (msg : Message) (w : IWorld) : IWorld :=
  let d := msg_data msg in
  if negb (msg_from_pid msg =? 0) then w
  else if len d <? 8 then w
  else upd (fun i => set_vfs_slots (<[u32_at 0 d := u32_at 4 d]> (service_vfs_slots i)) i) w.

(** ** handlers/supervisor.rs *)
Definition MSG_CONSOLE_INPUT : Z := 0x0002.

Definition handle_supervisor_console_input (msg : Message) (w : IWorld) : IWorld :=
  let d := msg_data msg in
  if negb (msg_from_pid msg =? 0) then w
  else if len d <? 10 then w
  else
    let data_len := u16_at 8 d in
    if len d <? 10 + data_len then w
    else
      match service_cap_slots (iw_init w) !! u32_at 0 d with
      | Some cap_slot =>
          ic (IC_Send cap_slot MSG_CONSOLE_INPUT (take (Z.to_nat data_len) (drop 10 d))) (ie_send env) (fun _ w => w) w
      | None => w
      end.

Definition handle_supervisor_kill_process (msg : Message) (w : IWorld) : IWorld :=
  let d := msg_data msg in
  if negb (msg_from_pid msg =? 0) then w
  else if len d <? 4 then w
  else
    let target_pid := u32_at 0 d in
    ic (IC_Kill target_pid) (ie_kill env) (fun r w =>
      match r with
      | Ok _ => ic_debug ("INIT:KILL_OK:" +:+ pretty target_pid) w
      | Err e => ic_debug ("INIT:KILL_FAIL:" +:+ pretty target_pid +:+ ":" +:+ pretty e) w
      end) w.

Definition VFS_RESPONSE_SLOT : Z := 4.

Definition handle_supervisor_ipc_delivery (msg : Message) (w : IWorld) : IWorld :=
  let d := msg_data msg in
  if negb (msg_from_pid msg =? 0) then w
  else if len d <? 14 then w
  else
    let target_pid := u32_at 0 d in
    let endpoint_slot := u32_at 4 d in
    let tag := u32_at 8 d in
    let data_len := u16_at 12 d in
    if len d <? 14 + data_len then w
    else
      let ipc_data := take (Z.to_nat data_len) (drop 14 d) in
      let cap_slot :=
        if endpoint_slot =? VFS_RESPONSE_SLOT then service_vfs_slots (iw_init w) !! target_pid
        else service_cap_slots (iw_init w) !! target_pid in
      match cap_slot with
      | Some cap_slot => ic (IC_Send cap_slot tag ipc_data) (ie_send env) (fun _ w => w) w
      | None =>
          let pending := mk_PendingDelivery target_pid endpoint_slot tag ipc_data in
          let w := upd (fun i => set_deliveries
            (<[target_pid := (default [] (pending_deliveries i !! target_pid) ++ [pending])%list]>
               (pending_deliveries i)) i) w in
          ic_debug ("ERROR:IPC_DELIVERY_FAILED:no_capability:pid=" +:+ pretty target_pid +:+ ":slot="
                    +:+ pretty endpoint_slot +:+ ":tag=0x" +:+ hex_lower tag) w
      end.

Definition send_spawn_response (success pid : Z) : IWorld -> IWorld :=
  ic_debug ("SPAWN:RESPONSE:" +:+ hex_bytes (byte_of_Z success :: u32_to_le_bytes pid)).

Definition handle_supervisor_spawn_process (msg : Message) (w : IWorld) : IWorld :=
  if negb (msg_from_pid msg =? 0) then w
  else
    match name_field (msg_data msg) with
    | None => send_spawn_response 0 0 w
    | Some name =>
        ic (IC_RegisterProcess name) (ie_register env) (fun r w =>
          match r with
          | Ok pid => send_spawn_response 1 pid w
          | Err _ => send_spawn_response 0 0 w
          end) w
    end.

Definition send_endpoint_response (success endpoint_id slot : Z) : IWorld -> IWorld :=
  ic_debug ("ENDPOINT:RESPONSE:" +:+
    hex_bytes (byte_of_Z success :: u64_to_le_bytes endpoint_id ++ u32_to_le_bytes slot)%list).

Definition handle_supervisor_create_endpoint (msg : Message) (w : IWorld) : IWorld :=
  let d := msg_data msg in
  if negb (msg_from_pid msg =? 0) then w
  else if len d <? 4 then send_endpoint_response 0 0 0 w
  else
    ic (IC_CreateEndpointFor (u32_at 0 d)) (ie_endpoint env) (fun r w =>
      match r with
      | Ok (endpoint_id, slot) => send_endpoint_response 1 endpoint_id slot w
      | Err _ => send_endpoint_response 0 0 0 w
      end) w.

Definition send_cap_response (success new_slot : Z) : IWorld -> IWorld :=
  ic_debug ("CAP:RESPONSE:" +:+ hex_bytes (byte_of_Z success :: u32_to_le_bytes new_slot)).

(** The field [from_pid] is read and not used; [Permissions::from_byte] keeps
    three bits. *)
Definition handle_supervisor_grant_cap (msg : Message) (w : IWorld) : IWorld :=
  let d := msg_data msg in
  if negb (msg_from_pid msg =? 0) then w
  else if len d <? 13 then send_cap_response 0 0 w
  else
    ic (IC_CapGrant (u32_at 4 d) (u32_at 8 d) (Z.land (byte_at 12 d) 7)) (ie_grant env) (fun r w =>
      match r with
      | Ok new_slot => send_cap_response 1 new_slot w
      | Err _ => send_cap_response 0 0 w
      end) w.

(** ** bootstrap.rs *)
Definition NOT_SUPPORTED : Z := -3.

(** Spawning from a loaded binary and recording the capability. *)
Definition spawn_loaded (name : string) (binary : list byte) : IWorld -> IWorld :=
  ic (IC_SpawnProcess name binary) (ie_spawn env) (fun r w =>
    match r with
    | Err _ => w
    | Ok pid =>
        ic (IC_CreateEndpointFor pid) (ie_endpoint env) (fun r w =>
          match r with
          | Ok (_, slot) => upd (fun i => set_cap_slots (<[pid := slot]> (service_cap_slots i)) i) w
          | Err _ => w
          end) w
    end).

Definition spawn_service (name : string) : IWorld -> IWorld :=
  ic (IC_LoadBinary name) (ie_load env) (fun r w =>
    match r with
    | Ok binary => spawn_loaded name binary w
    | Err e => if e =? NOT_SUPPORTED then ic_debug ("INIT:SPAWN:" +:+ name) w else w
    end).

Definition try_spawn_qemu_terminal : IWorld -> IWorld :=
  ic (IC_LoadBinary "terminal") (ie_load env) (fun r w =>
    match r with Ok binary => spawn_loaded "terminal" binary w | Err _ => w end).

(** [skip_identity] is the build feature of that name. *)
Definition boot_services (skip_identity : bool) : list string :=
  (["permission"; "vfs"; "keystore"] ++ (if skip_identity then [] else ["identity"]) ++ ["time"])%list.

Definition boot_sequence (skip_identity : bool) (w : IWorld) : IWorld :=
  upd set_boot_complete
    (try_spawn_qemu_terminal (foldl (fun w name => spawn_service name w) w (boot_services skip_identity))).

(** ** lib.rs: dispatch *)
Definition MSG_REGISTER_SERVICE : Z := 0x1000.
Definition MSG_LOOKUP_SERVICE : Z := 0x1001.
Definition MSG_SPAWN_SERVICE : Z := 0x1003.
Definition MSG_SERVICE_READY : Z := 0x1005.
Definition MSG_SERVICE_CAP_GRANTED : Z := 0x1006.
Definition MSG_VFS_RESPONSE_CAP_GRANTED : Z := 0x1007.
Definition MSG_SERVICE_CAP_PREREGISTER : Z := 0x1008.
Definition MSG_SUPERVISOR_KILL_PROCESS : Z := 0x2002.
Definition MSG_SUPERVISOR_SPAWN_PROCESS : Z := 0x2004.
Definition MSG_SUPERVISOR_CREATE_ENDPOINT : Z := 0x2006.
Definition MSG_SUPERVISOR_GRANT_CAP : Z := 0x2008.

Definition handle_message (msg : Message) (w : IWorld) : IWorld :=
  let tag := msg_tag msg in
  if tag =? MSG_REGISTER_SERVICE then handle_register msg w
  else if tag =? MSG_LOOKUP_SERVICE then handle_lookup msg w
  else if tag =? MSG_SERVICE_READY then handle_ready msg w
  else if tag =? MSG_SPAWN_SERVICE then handle_spawn_request msg w
  else if tag =? MSG_SUPERVISOR_CONSOLE_INPUT then handle_supervisor_console_input msg w
  else if tag =? MSG_SUPERVISOR_KILL_PROCESS then handle_supervisor_kill_process msg w
  else if tag =? MSG_SUPERVISOR_IPC_DELIVERY then handle_supervisor_ipc_delivery msg w
  else if tag =? MSG_SERVICE_CAP_GRANTED then handle_service_cap_granted msg w
  else if tag =? MSG_SERVICE_CAP_PREREGISTER then handle_service_cap_preregister msg w
  else if tag =? MSG_VFS_RESPONSE_CAP_GRANTED then handle_vfs_response_cap_granted msg w
  else if tag =? MSG_SUPERVISOR_SPAWN_PROCESS then handle_supervisor_spawn_process msg w
  else if tag =? MSG_SUPERVISOR_CREATE_ENDPOINT then handle_supervisor_create_endpoint msg w
  else if tag =? MSG_SUPERVISOR_GRANT_CAP then handle_supervisor_grant_cap msg w
  else w.

(** The loop of [run] on the messages received after the boot sequence. *)
Definition init_run (skip_identity : bool) (msgs : list Message) : IWorld :=
  foldl (fun w m => handle_message m w) (boot_sequence skip_identity (mk_IWorld Init_new [])) msgs.
End handlers.
