(* ===== verification/InitProps.v ===== *)
(** * Init: who may command it, and the way of a storage result

    Only the supervisor makes Init send, kill, spawn or grant. A storage result is
    followed from the browser's notification through the supervisor, the kernel,
    the mailbox of Init, Init and the mailbox of the service. *)
From S2P Require Import Prelude StrLib AxiomTypes CommitLog Hal KernelState.
From S2P Require Import KernelIpc KernelFun System KernelSpec KernelRefine SystemRun.
From S2P Require Import Bridge SpawnState WebHal ProcessLib WebSupervisor SpawnCaps SupDispatch SupRun SpawnProps SupLive WorkerIpc SupProps ProcessProps.
From S2P Require Import VfsPath VfsService VfsHandlers Init.

Local Open Scope string_scope.
Local Open Scope Z_scope.

(** ** Fields of the messages the supervisor builds *)
Lemma u32_bytes_length z : length (u32_to_le_bytes z) = 4%nat.
Proof. apply length_to_le_bytes. Qed.

Lemma u16_bytes_length z : length (u16_to_le_bytes z) = 2%nat.
Proof. apply length_to_le_bytes. Qed.

Lemma u32_bytes_value z : 0 <= z < 2 ^ 32 -> from_le_bytes (u32_to_le_bytes z) = z.
Proof.
  intros Hz. unfold u32_to_le_bytes. rewrite from_to_le_bytes. change (256 ^ Z.of_nat 4) with (2 ^ 32).
  by apply Z.mod_small.
Qed.

(** The words in front of a payload. *)
Lemma u32_at_0 z rest : 0 <= z < 2 ^ 32 -> u32_at 0 (u32_to_le_bytes z ++ rest)%list = z.
Proof.
  intros Hz. unfold u32_at. rewrite drop_0, take_app_length' by (by rewrite u32_bytes_length).
  by apply u32_bytes_value.
Qed.

Lemma u32_at_app i l rest : u32_at (length l + i) (l ++ rest)%list = u32_at i rest.
Proof. unfold u32_at. by rewrite drop_app_add. Qed.

Lemma u16_at_app i l rest : u16_at (length l + i) (l ++ rest)%list = u16_at i rest.
Proof. unfold u16_at. by rewrite drop_app_add. Qed.

Lemma u16_at_0 z rest : u16_at 0 (u16_to_le_bytes z ++ rest)%list = z mod 2 ^ 16.
Proof.
  unfold u16_at. rewrite drop_0, take_app_length' by (by rewrite u16_bytes_length).
  unfold u16_to_le_bytes. rewrite from_to_le_bytes. done.
Qed.

Section delivery.
Context (pid slot tag : Z) (data : list byte).
Context (Hpid : 0 <= pid < 2 ^ 32) (Hslot : 0 <= slot < 2 ^ 32) (Htag : 0 <= tag < 2 ^ 32).

Lemma delivery_pid : u32_at 0 (delivery_payload pid slot tag data) = pid.
Proof. by apply u32_at_0. Qed.

Lemma delivery_slot : u32_at 4 (delivery_payload pid slot tag data) = slot.
Proof.
  unfold delivery_payload. rewrite (u32_at_app 0 (u32_to_le_bytes pid)). by apply u32_at_0.
Qed.

Lemma delivery_tag : u32_at 8 (delivery_payload pid slot tag data) = tag.
Proof.
  unfold delivery_payload. rewrite (u32_at_app 4 (u32_to_le_bytes pid)), (u32_at_app 0 (u32_to_le_bytes slot)).
  by apply u32_at_0.
Qed.

Lemma delivery_len : u16_at 12 (delivery_payload pid slot tag data) = len data mod 2 ^ 16.
Proof.
  unfold delivery_payload. rewrite (u16_at_app 8 (u32_to_le_bytes pid)), (u16_at_app 4 (u32_to_le_bytes slot)).
  rewrite (u16_at_app 0 (u32_to_le_bytes tag)). apply u16_at_0.
Qed.

Lemma delivery_data : drop 14 (delivery_payload pid slot tag data) = data.
Proof.
  unfold delivery_payload. rewrite !app_assoc. apply drop_app_length'.
  by rewrite !length_app, !u32_bytes_length, u16_bytes_length.
Qed.

Lemma delivery_size : len (delivery_payload pid slot tag data) = 14 + len data.
Proof.
  unfold delivery_payload, len. rewrite !length_app, !u32_bytes_length, u16_bytes_length. lia.
Qed.
End delivery.

Lemma u32_at_take i c d : (i + 4 <= c)%nat -> u32_at i (take c d) = u32_at i d.
Proof. intros Hc. unfold u32_at. rewrite skipn_firstn_comm, take_take. f_equal. f_equal. lia. Qed.

Lemma u16_at_take i c d : (i + 2 <= c)%nat -> u16_at i (take c d) = u16_at i d.
Proof. intros Hc. unfold u16_at. rewrite skipn_firstn_comm, take_take. f_equal. f_equal. lia. Qed.

(** What Init does with the first [c] bytes of a routed message when it holds the
    capability: it drops the message when the declared length, modulo 65536, is
    more than it has, and sends that many bytes otherwise. *)
Lemma delivery_cut env pid tag data slot c w :
  0 <= pid < 2 ^ 32 -> 0 <= tag < 2 ^ 32 -> (14 <= c)%nat ->
  service_cap_slots (iw_init w) !! pid = Some slot ->
  let declared := Z.to_nat (len data mod 2 ^ 16) in
  handle_message env (mk_Message MSG_SUPERVISOR_IPC_DELIVERY 0 []
    (take c (delivery_payload pid SERVICE_INPUT_SLOT tag data))) w =
  if decide (declared <= c - 14)%nat then mk_IWorld (iw_init w) (IC_Send slot tag (take declared data) :: iw_hist w)
  else w.
Proof.
  intros Hpid Htag Hc Hcap declared. set (P := delivery_payload pid SERVICE_INPUT_SLOT tag data).
  change (handle_message env (mk_Message MSG_SUPERVISOR_IPC_DELIVERY 0 [] (take c P)) w) with
    (handle_supervisor_ipc_delivery env (mk_Message MSG_SUPERVISOR_IPC_DELIVERY 0 [] (take c P)) w).
  unfold handle_supervisor_ipc_delivery. cbn [msg_data msg_from_pid negb Z.eqb].
  rewrite !u32_at_take, !u16_at_take by lia. unfold P.
  rewrite delivery_pid, delivery_slot, delivery_tag, delivery_len by (done || unfold SERVICE_INPUT_SLOT; lia).
  rewrite skipn_firstn_comm, delivery_data. fold declared.
  assert (Hl : len (take c (delivery_payload pid SERVICE_INPUT_SLOT tag data)) = Z.min (Z.of_nat c) (14 + len data)).
  { pose proof (delivery_size pid SERVICE_INPUT_SLOT tag data). unfold len in *. rewrite length_take. lia. }
  rewrite Hl. assert (0 <= len data) by (unfold len; lia).
  pose proof (Z.mod_le (len data) (2 ^ 16) ltac:(lia) ltac:(lia)). pose proof (Z.mod_pos_bound (len data) (2 ^ 16) ltac:(lia)).
  rewrite (proj2 (Z.ltb_ge _ 14)) by lia. case_decide as Hd.
  - rewrite (proj2 (Z.ltb_ge _ _)) by lia. change (SERVICE_INPUT_SLOT =? VFS_RESPONSE_SLOT) with false. cbn iota.
    rewrite Hcap, take_take, Nat.min_l by lia. done.
  - by rewrite (proj2 (Z.ltb_lt _ _)) by lia.
Qed.

(** ** A storage result on its way to the service *)
Section results.
Context `{Target} (id rt : Z) (data : list byte).
Context (Hid : 0 <= id < 2 ^ 32) (Hrt : 0 <= rt < 256) (Hlen : 9 + len data < 2 ^ 32).

Lemma result_size : length (result_payload id rt data) = (9 + length data)%nat.
Proof. unfold result_payload. rewrite !length_app, !u32_bytes_length. simpl. lia. Qed.

Lemma result_id n : (9 <= n)%nat -> from_le_bytes (take 4 (take n (result_payload id rt data))) = id.
Proof.
  intros Hn. rewrite take_take, Nat.min_l by lia. unfold result_payload.
  rewrite take_app_length' by (by rewrite u32_bytes_length). by apply u32_bytes_value.
Qed.

Lemma result_type n : (9 <= n)%nat -> take n (result_payload id rt data) !! 4%nat = Some (byte_of_Z rt).
Proof.
  intros Hn. rewrite lookup_take_lt by lia. unfold result_payload.
  rewrite lookup_app_r by (rewrite u32_bytes_length; lia). by rewrite u32_bytes_length.
Qed.

Lemma result_len n : (9 <= n)%nat -> from_le_bytes (take 4 (drop 5 (take n (result_payload id rt data)))) = len data.
Proof.
  intros Hn. rewrite skipn_firstn_comm, take_take, Nat.min_l by lia. unfold result_payload.
  rewrite app_assoc, drop_app_length' by (rewrite length_app, u32_bytes_length; done).
  rewrite take_app_length' by (by rewrite u32_bytes_length). apply u32_bytes_value. unfold len in *. lia.
Qed.

Lemma result_data n : (9 <= n)%nat -> drop 9 (take n (result_payload id rt data)) = take (n - 9) data.
Proof.
  intros Hn. by rewrite skipn_firstn_comm.
Qed.

(** The service reads all the data or none. *)
Lemma parse_cut_result n :
  (9 <= n <= 9 + length data)%nat ->
  parse_storage_result (take n (result_payload id rt data)) =
  PR_Result id rt (if decide (n = 9 + length data)%nat then data else []).
Proof.
  intros Hn. unfold parse_storage_result.
  rewrite result_id, result_type, result_len, result_data by lia.
  assert (Hl : len (take n (result_payload id rt data)) = Z.of_nat n).
  { unfold len. rewrite length_take, result_size. lia. }
  rewrite Hl, (proj2 (Z.ltb_ge _ 9)) by lia. rewrite Z_of_byte_of_Z, Z.mod_small by done.
  pose proof usize_bits_range as Hbits.
  assert (2 ^ 32 <= 2 ^ usize_bits) by (apply Z.pow_le_mono_r; lia).
  assert (Hu : usize_add 9 (len data) = 9 + len data)
    by (unfold usize_add; apply Z.mod_small; unfold len in *; lia).
  rewrite Hu. unfold len. case_decide as Hd.
  - subst n. destruct data as [|b l]; [done|].
    rewrite (proj2 (Z.leb_le _ _)) by lia. rewrite (proj2 (Z.ltb_lt 0 _)) by (simpl; lia).
    cbn [andb]. rewrite (proj2 (Z.ltb_ge _ 9)) by lia. f_equal.
    rewrite take_ge; [apply take_ge; simpl; lia|rewrite length_take; simpl; lia].
  - rewrite (proj2 (Z.leb_gt (9 + _) _)) by lia. by rewrite andb_false_r.
Qed.

Lemma parse_result : parse_storage_result (result_payload id rt data) = PR_Result id rt data.
Proof.
  pose proof (parse_cut_result (9 + length data) ltac:(lia)) as Hp.
  rewrite take_ge in Hp by (rewrite result_size; lia). rewrite Hp. by rewrite decide_True.
Qed.
End results.

(** *** The way through the mailboxes *)
Section way.
Context `{Target} `{HashOrder}.

(** The bytes of a message that fit the mailbox behind its header. *)
Definition MESSAGE_MAX : Z := MAILBOX_MAX_DATA_LEN - 9.

Lemma cut_message from tag data :
  0 <= from < 2 ^ 32 -> 0 <= tag < 2 ^ 32 ->
  parse_message (mailbox_cut (serialize_ipc_message (KernelState.mk_Message from tag data []))) =
  Ok (mk_ReceivedMessage from tag [] (take (Z.to_nat MESSAGE_MAX) data)).
Proof.
  intros Hf Ht.
  assert (mailbox_cut (serialize_ipc_message (KernelState.mk_Message from tag data [])) =
    message_bytes from tag [] (take (Z.to_nat MESSAGE_MAX) data)) as ->.
  { unfold serialize_ipc_message, message_bytes, mailbox_cut.
    cbn [KernelState.msg_from KernelState.msg_tag KernelState.msg_data KernelState.msg_transferred_caps fmap list_fmap mjoin list_join].
    unfold wrap_u32. rewrite Z.mod_small by done.
    replace (Z.to_nat MAILBOX_MAX_DATA_LEN) with (4 + (4 + (1 + Z.to_nat MESSAGE_MAX)))%nat
      by (unfold MESSAGE_MAX, MAILBOX_MAX_DATA_LEN; lia).
    rewrite (take_app_add' (u32_to_le_bytes from)) by (by rewrite u32_bytes_length).
    by rewrite (take_app_add' (u32_to_le_bytes tag)) by (by rewrite u32_bytes_length). }
  by apply parse_message_bytes.
Qed.
(** Init's view of a message it received. *)
Definition init_message (m : ReceivedMessage) : Message :=
  mk_Message (rm_tag m) (rm_from_pid m) (rm_cap_slots m) (rm_data m).

(** The way is open: the request [id] of process [pid] is pending, the workers of
    Init and of [pid] run and nobody waits for an answer, the supervisor may send
    to Init's input [eI] and Init through [slot] to the input [eS] of [pid], and
    both queues are empty. *)
Record way_open (v : Sup) (w : IWorld) (id pid islot slot eI eS : Z) (pI pS : WorkerProcess) : Prop := mk_way_open {
  wo_init_slot : sv_init_slot v = Some islot;
  wo_request : do_get_storage_request_pid id (wb_requests (hal_of v)) = Some pid;
  wo_pid : 0 <= pid < 2 ^ 32 /\ pid <> 1;
  wo_init : worker_ready 1 pI v /\ is_Some (get_process (kernel (sv_system v)) 1);
  wo_service : worker_ready pid pS v /\ is_Some (get_process (kernel (sv_system v)) pid);
  wo_to_init : allowed (kabs (kernel (sv_system v))) 0 islot AxiomTypes.write_only eI /\
    allowed (kabs (kernel (sv_system v))) 1 (in_endpoint_slot (iw_init w)) AxiomTypes.read_only eI /\
    exists o, ka_eps (kabs (kernel (sv_system v))) !! eI = Some (o, []);
  wo_to_service : allowed (kabs (kernel (sv_system v))) 1 slot AxiomTypes.write_only eS /\
    allowed (kabs (kernel (sv_system v))) pid SERVICE_INPUT_SLOT AxiomTypes.read_only eS /\
    exists o, ka_eps (kabs (kernel (sv_system v))) !! eS = Some (o, []);
  wo_distinct : eI <> eS;
  wo_slot : service_cap_slots (iw_init w) !! pid = Some slot }.

(** The notification puts one message into Init's queue and ends the request. *)
Lemma notify_routed v w id pid islot slot eI eS pI pS rt data :
  way_open v w id pid islot slot eI eS pI pS ->
  exists v1 o, notify_storage id rt data v = Some (tt, v1) /\
    do_get_storage_request_pid id (wb_requests (hal_of v1)) = None /\
    kabs (kernel (sv_system v1)) = ka_set_ep eI o [KernelState.mk_Message 0 MSG_SUPERVISOR_IPC_DELIVERY
      (delivery_payload pid SERVICE_INPUT_SLOT MSG_STORAGE_RESULT (result_payload id rt data)) []] (kabs (kernel (sv_system v))) /\
    wb_processes (hal_of v1) = wb_processes (hal_of v) /\ sv_pingpong v1 = sv_pingpong v.
Proof.
  intros [Hs Hreq _ _ _ (Ha & _ & o & He) _ _ _].
  set (payload := delivery_payload _ _ _ _).
  set (v0 := up_system (set_kernel (set_hal (set_wb_requests
    (do_take_storage_request_pid id (wb_requests (hal_of v))).2 (hal_of v)) (kernel (sv_system v))) (sv_system v)) v).
  destruct (sup_send_exact islot MSG_SUPERVISOR_IPC_DELIVERY payload v0 eI o [] Ha He) as (s' & E & Hk & Hw & Hr).
  exists (up_system s' v0), o. split_and!.
  - unfold notify_storage, take_pid, sys, on_hal, requested, mbind, SM_bind.
    unfold do_get_storage_request_pid, get_request_pid in Hreq.
    unfold do_take_storage_request_pid, take_request_pid in *. rewrite Hreq.
    unfold deliver_storage_result, sv_route_ipc_via_init, sget, mbind, SM_bind. cbn [up_system sv_init_slot] in *.
    rewrite Hs. fold payload. unfold v0 in E |- *. cbn [snd] in E |- *. rewrite E. done.
  - cbn [up_system sv_system]. rewrite Hr. apply lookup_delete_eq.
  - exact Hk.
  - exact Hw.
  - done.
Qed.

(** What Init sends is what the service receives. *)
Lemma passed_on_by_init v2 pid slot eS o pI pS d :
  pid <> 1 -> worker_ready 1 pI v2 -> is_Some (get_process (kernel (sv_system v2)) 1) ->
  worker_ready pid pS v2 -> is_Some (get_process (kernel (sv_system v2)) pid) ->
  allowed (kabs (kernel (sv_system v2))) 1 slot AxiomTypes.write_only eS ->
  allowed (kabs (kernel (sv_system v2))) pid SERVICE_INPUT_SLOT AxiomTypes.read_only eS ->
  ka_eps (kabs (kernel (sv_system v2))) !! eS = Some (o, []) -> len d <= MESSAGE_MAX ->
  exists v3 v4, lib_send (H := worker_host 1) slot MSG_STORAGE_RESULT d v2 = Some (Ok tt, v3) /\
    lib_receive (H := worker_host pid) SERVICE_INPUT_SLOT v3 =
      Some (Ok (mk_ReceivedMessage 1 MSG_STORAGE_RESULT [] d), v4).
Proof.
  intros Hne HrI [prI HpI] HrS [prS HpS] HaI HaS He Hl.
  destruct (lib_send_exact 1 pI v2 slot MSG_STORAGE_RESULT d eS o [] prI HrI HpI HaI He)
    as (v3 & f & E3 & Hk3 & Hw3 & Hs3 & Hpp3); [unfold MESSAGE_MAX, MAILBOX_MAX_DATA_LEN in *; lia|].
  pose proof (ready_after pid pS 1 pI f v2 v3 HrS Hne Hw3 Hs3 Hpp3) as HrS3.
  destruct (get_process_abs (kernel (sv_system v2)) (kernel (sv_system v3)) pid prS) as [prS' HpS']; [by rewrite Hk3|done|].
  destruct (lib_receive_cut pid pS v3 SERVICE_INPUT_SLOT eS o (KernelState.mk_Message 1 MSG_STORAGE_RESULT d []) prS' HrS3 HpS')
    as (v4 & g & E4 & _).
  - by rewrite Hk3.
  - rewrite Hk3. simpl. by rewrite lookup_insert_eq.
  - exists v3, v4. split; [done|]. rewrite E4, cut_message by done. rewrite take_ge; [done|]. unfold len in Hl. lia.
Qed.
(** Init, having received the notification. *)
Lemma init_receives v w id pid islot slot eI eS pI pS rt data :
  way_open v w id pid islot slot eI eS pI pS ->
  let P := delivery_payload pid SERVICE_INPUT_SLOT MSG_STORAGE_RESULT (result_payload id rt data) in
  let m := mk_ReceivedMessage 0 MSG_SUPERVISOR_IPC_DELIVERY [] (take (Z.to_nat MESSAGE_MAX) P) in
  exists v1 v2, notify_storage id rt data v = Some (tt, v1) /\
    do_get_storage_request_pid id (wb_requests (hal_of v1)) = None /\
    lib_receive (H := worker_host 1) (in_endpoint_slot (iw_init w)) v1 = Some (Ok m, v2) /\
    forall d, len d <= MESSAGE_MAX ->
      exists v3 v4, lib_send (H := worker_host 1) slot MSG_STORAGE_RESULT d v2 = Some (Ok tt, v3) /\
        lib_receive (H := worker_host pid) SERVICE_INPUT_SLOT v3 =
          Some (Ok (mk_ReceivedMessage 1 MSG_STORAGE_RESULT [] d), v4).
Proof.
  intros Hw P m. destruct (notify_routed v w id pid islot slot eI eS pI pS rt data Hw) as (v1 & o & E1 & Hq & Hk1 & Hw1 & Hpp1).
  destruct Hw as [_ _ [_ Hne] [HrI [prI HpI]] [HrS [prS HpS]] (_ & HaI & o1 & He1) (HaS1 & HaS2 & o2 & He2) Hd _].
  assert (Hsame : forall q p, worker_ready q p v -> worker_ready q p v1).
  { intros q p (Hq1 & Ha & Hwk & Hn & Hpp). split_and!; [by rewrite Hw1|done|done| |congruence].
    intros q' (p' & Hp' & Hw'). rewrite Hw1 in Hp'. apply (Hn q'). by exists p'. }
  assert (Hpr : ka_procs (kabs (kernel (sv_system v1))) = ka_procs (kabs (kernel (sv_system v)))) by (by rewrite Hk1).
  destruct (get_process_abs _ (kernel (sv_system v1)) 1 prI Hpr HpI) as [prI1 HpI1].
  destruct (lib_receive_cut 1 pI v1 (in_endpoint_slot (iw_init w)) eI o
    (KernelState.mk_Message 0 MSG_SUPERVISOR_IPC_DELIVERY P []) prI1 (Hsame _ _ HrI) HpI1)
    as (v2 & f & E2 & Hk2 & Hw2 & Hs2 & Hpp2); [by rewrite Hk1|rewrite Hk1; simpl; by rewrite lookup_insert_eq|].
  rewrite cut_message in E2 by done. exists v1, v2. split_and!; [done|done|exact E2|]. intros d Hl.
  assert (Hpr2 : ka_procs (kabs (kernel (sv_system v2))) = ka_procs (kabs (kernel (sv_system v)))) by (by rewrite Hk2, Hk1).
  eapply (passed_on_by_init v2 pid slot eS o2 (on_mailbox f pI) pS d Hne).
  - eapply ready_again; [by apply Hsame|done..].
  - destruct (get_process_abs _ (kernel (sv_system v2)) 1 prI Hpr2 HpI) as [x Hx]. by exists x.
  - eapply ready_after; [by apply Hsame|done..].
  - destruct (get_process_abs _ (kernel (sv_system v2)) pid prS Hpr2 HpS) as [x Hx]. by exists x.
  - by rewrite Hk2, Hk1.
  - by rewrite Hk2, Hk1.
  - rewrite Hk2, Hk1. simpl. by rewrite !lookup_insert_ne.
  - done.
Qed.

(** C39: over an open way (the request pending, the workers of Init and of the
    service live, Init holding a capability for the service's input, no worker
    waiting for an answer, no latency test running, both queues empty), a storage
    result travels from the browser's notification through the supervisor, the
    kernel, Init's mailbox, Init and the mailbox of the service: with at most 16,324
    bytes of data it arrives with its request identifier, its type and its data.
    With more it does not: up to 65,526 bytes Init finds the message cut by its
    mailbox and drops it; from there on the 16-bit length of the routed message has
    wrapped, and Init drops it or sends so little of it that the service sees a
    short or an empty result. *)
Theorem storage_result_delivery env v w id pid islot slot eI eS pI pS rt data :
  way_open v w id pid islot slot eI eS pI pS ->
  0 <= id < 2 ^ 32 -> 0 <= rt < 256 -> 9 + len data < 2 ^ 32 ->
  exists v1 v2 m, let w' := handle_message env (init_message m) w in
    notify_storage id rt data v = Some (tt, v1) /\
    do_get_storage_request_pid id (wb_requests (hal_of v1)) = None /\
    lib_receive (H := worker_host 1) (in_endpoint_slot (iw_init w)) v1 = Some (Ok m, v2) /\
    ((w' = w /\ 16324 < len data) \/
     exists d v3 v4, w' = mk_IWorld (iw_init w) (IC_Send slot MSG_STORAGE_RESULT d :: iw_hist w) /\
       lib_send (H := worker_host 1) slot MSG_STORAGE_RESULT d v2 = Some (Ok tt, v3) /\
       lib_receive (H := worker_host pid) SERVICE_INPUT_SLOT v3 =
         Some (Ok (mk_ReceivedMessage 1 MSG_STORAGE_RESULT [] d), v4) /\
       (len data <= 16324 /\ parse_storage_result d = PR_Result id rt data \/
        65527 <= len data /\ (parse_storage_result d = PR_Short \/ parse_storage_result d = PR_Result id rt []))).
Proof.
  intros Hw Hid Hrt Hlen. destruct (init_receives v w id pid islot slot eI eS pI pS rt data Hw)
    as (v1 & v2 & E1 & Hq & E2 & Hpass).
  exists v1, v2. eexists. cbv zeta. split_and!; [exact E1|exact Hq|exact E2|].
  unfold init_message. cbn [rm_tag rm_from_pid rm_cap_slots rm_data].
  rewrite (delivery_cut env pid MSG_STORAGE_RESULT (result_payload id rt data) slot) by
    (try done; try (apply Hw); unfold MESSAGE_MAX, MAILBOX_MAX_DATA_LEN; lia).
  pose proof (result_size id rt data) as Hsz. unfold MESSAGE_MAX, MAILBOX_MAX_DATA_LEN in *.
  set (n := Z.to_nat (len (result_payload id rt data) mod 2 ^ 16)).
  assert (Hn : Z.of_nat n = (9 + len data) mod 2 ^ 16)
    by (subst n; unfold len; rewrite Hsz; pose proof (Z.mod_pos_bound (Z.of_nat (9 + length data)) (2 ^ 16) ltac:(lia)); lia).
  pose proof (Z.mod_pos_bound (9 + len data) (2 ^ 16) ltac:(lia)) as Hb. assert (0 <= len data) by (unfold len; lia).
  case_decide as Hd; [|left; split; [done|]; destruct (decide (9 + len data < 2 ^ 16)); [rewrite Z.mod_small in Hn; lia|lia]].
  right. destruct (Hpass (take n (result_payload id rt data))) as (v3 & v4 & E3 & E4); [unfold len; rewrite length_take; lia|].
  eexists _, v3, v4. split_and!; [reflexivity|exact E3|exact E4|].
  destruct (decide (9 + len data < 2 ^ 16)) as [Hs|Hs].
  - left. rewrite Z.mod_small in Hn by lia. split; [lia|]. unfold len in *.
    rewrite take_ge by lia. by apply parse_result.
  - right. split; [lia|]. destruct (decide (9 <= n)%nat) as [Hge|Hlt].
    + right. unfold len in *. rewrite parse_cut_result by (done || lia). by rewrite decide_False by lia.
    + left. unfold parse_storage_result. rewrite (proj2 (Z.ltb_lt _ 9)); [done|]. unfold len. rewrite length_take. lia.
Qed.
End way.

(** ** Authority *)
Definition is_debug (c : InitCall) : Prop := match c with IC_Debug _ => True | _ => False end.

(** C22: A process other than the supervisor cannot make Init send a message, kill,
    spawn, create an endpoint or grant a capability, nor change the capability
    slots and queues: its messages reach the registry of names and the debug
    channel only. *)
Theorem init_authority env m w :
  msg_from_pid m <> 0 ->
  let w' := handle_message env m w in
  (exists l, iw_hist w' = (l ++ iw_hist w)%list /\ Forall is_debug l) /\
  iw_init w' = set_services (in_services (iw_init w')) (iw_init w).
Proof.
  intros Hf w'. assert (Hz : (msg_from_pid m =? 0) = false) by (by apply Z.eqb_neq).
  assert (Hsame : (exists l, iw_hist w = (l ++ iw_hist w)%list /\ Forall is_debug l) /\
    iw_init w = set_services (in_services (iw_init w)) (iw_init w)).
  { split; [by exists []|by destruct w as [[]]]. }
  assert (Hdbg : forall msg, (exists l, iw_hist (ic_debug msg w) = (l ++ iw_hist w)%list /\ Forall is_debug l) /\
    iw_init (ic_debug msg w) = set_services (in_services (iw_init (ic_debug msg w))) (iw_init w)).
  { intros msg. split; [exists [IC_Debug msg]; by repeat constructor|by destruct w as [[]]]. }
  assert (Hreg : forall f, (exists l, iw_hist (upd (fun i => set_services (f i) i) w) = (l ++ iw_hist w)%list /\ Forall is_debug l) /\
    iw_init (upd (fun i => set_services (f i) i) w) =
    set_services (in_services (iw_init (upd (fun i => set_services (f i) i) w))) (iw_init w)).
  { intros f. split; [by exists []|by destruct w as [[]]]. }
  subst w'. unfold handle_message, handle_register, handle_lookup, handle_ready, handle_spawn_request,
    handle_supervisor_console_input, handle_supervisor_kill_process, handle_supervisor_ipc_delivery,
    handle_service_cap_granted, handle_service_cap_preregister, handle_vfs_response_cap_granted,
    handle_supervisor_spawn_process, handle_supervisor_create_endpoint, handle_supervisor_grant_cap.
  rewrite Hz. cbn [negb]. repeat case_match; eauto.
Qed.

(** ** Instances *)
Definition accepting_env : InitEnv :=
  mk_InitEnv (fun _ => Ok tt) (fun _ => Ok tt) (fun _ => Ok 9) (fun _ => Ok (1, 1)) (fun _ => Ok 1)
    (fun _ => Err NOT_SUPPORTED) (fun _ => Err NOT_SUPPORTED).

Definition holding_init : IWorld := mk_IWorld (set_cap_slots {[3 := 7]} Init_new) [].

(** ** A running system: the workers of Init and of the file system have started,
    Init has emptied its queue and holds the capability for the file system in slot
    3, and the read of the root that the file system asked for is pending. *)
#[local] Existing Instance wasm32.

Definition way_calls : list scall :=
  [C_platform (handle_worker_memory 1 6 65536 Mailbox_new); C_platform (handle_worker_memory 2 7 65536 Mailbox_new);
   C_platform (fun h => (requested (do_storage_read_async 2 "inode:/") h).2)].

Definition way_demo : Sup :=
  match sup_run demo way_calls with
  | Some v =>
      match lib_receive (H := worker_host 1) 1 v with
      | Some (_, v) => match lib_receive (H := worker_host 1) 1 v with Some (_, v) => v | None => v end
      | None => v
      end
  | None => demo
  end.

Definition way_init : IWorld := mk_IWorld (set_cap_slots {[2 := 3]} Init_new) [].

Definition allowedb (v : Sup) (pid slot : Z) (perms : Permissions) (eid : Z) : bool :=
  match cap_spaces (kernel (sv_system v)) !! pid with
  | Some cs => match slots cs !! slot with
      | Some c => bool_decide (cap_object_type c = OT_Endpoint) && (cap_object_id c =? eid) &&
          bool_decide (perm_le perms (cap_permissions c)) && (cap_expires_at c =? 0)
      | None => false
      end
  | None => false
  end.

Lemma allowedb_spec v pid slot perms eid :
  allowedb v pid slot perms eid = true -> allowed (kabs (kernel (sv_system v))) pid slot perms eid.
Proof.
  unfold allowedb. destruct (cap_spaces _ !! pid) as [cs|] eqn:Hcs; [|done].
  destruct (slots cs !! slot) as [c|] eqn:Hc; [|done]. rewrite !andb_true_iff, !bool_decide_eq_true, !Z.eqb_eq.
  intros [[[? ?] ?] ?]. by exists cs, c.
Qed.

(** A process whose worker has started, nobody waiting for an answer. *)
Definition readyb (v : Sup) (pid : Z) : bool :=
  match wb_processes (hal_of v) !! pid with
  | Some p => wp_alive p && negb (wp_worker_id p =? 0)
  | None => false
  end && match hal_poll_syscalls (hal_of v) with [] => true | _ => false end &&
  match sv_pingpong v with PP_Idle => true | _ => false end &&
  match get_process (kernel (sv_system v)) pid with Some _ => true | None => false end.

Definition worker_of (v : Sup) (pid : Z) : WorkerProcess :=
  default (mk_WorkerProcess "" false 0 0 Mailbox_new) (wb_processes (hal_of v) !! pid).

Lemma readyb_spec v pid :
  readyb v pid = true -> worker_ready pid (worker_of v pid) v /\ is_Some (get_process (kernel (sv_system v)) pid).
Proof.
  unfold readyb, worker_of. rewrite !andb_true_iff. intros [[[Hp Hn] Hpp] Hg].
  destruct (wb_processes _ !! pid) as [p|] eqn:E; [|done]. apply andb_true_iff in Hp as [Ha Hw%negb_true_iff%Z.eqb_neq].
  destruct (hal_poll_syscalls _) eqn:En; [|done]. destruct (sv_pingpong v) eqn:Ep; try done.
  destruct (get_process _ pid); [|done]. split; [|done]. by apply ready_of.
Qed.

Definition way_queue (eid : Z) : option (Z * list KernelState.Message) := ka_eps (kabs (kernel (sv_system way_demo))) !! eid.

Lemma way_demo_open : way_open way_demo way_init 1 2 0 3 2 4 (worker_of way_demo 1) (worker_of way_demo 2).
Proof.
  assert (way_queue 2 = Some (1, []) /\ way_queue 4 = Some (2, [])) as [H1 H2] by (split; vm_compute; reflexivity).
  split.
  - vm_compute. reflexivity.
  - vm_compute. reflexivity.
  - split; [lia|discriminate].
  - apply readyb_spec. vm_compute. reflexivity.
  - apply readyb_spec. vm_compute. reflexivity.
  - split; [apply allowedb_spec; vm_compute; reflexivity|].
    split; [apply allowedb_spec; vm_compute; reflexivity|]. exists 1. exact H1.
  - split; [apply allowedb_spec; vm_compute; reflexivity|].
    split; [apply allowedb_spec; vm_compute; reflexivity|]. exists 2. exact H2.
  - discriminate.
  - vm_compute. reflexivity.
Qed.

Lemma storage_result_delivery_witness :
  exists v1 v2 m d v3 v4, notify_storage 1 READ_OK [x2a] way_demo = Some (tt, v1) /\
    lib_receive (H := worker_host 1) 1 v1 = Some (Ok m, v2) /\
    lib_send (H := worker_host 1) 3 MSG_STORAGE_RESULT d v2 = Some (Ok tt, v3) /\
    lib_receive (H := worker_host 2) 1 v3 = Some (Ok (mk_ReceivedMessage 1 MSG_STORAGE_RESULT [] d), v4) /\
    parse_storage_result d = PR_Result 1 READ_OK [x2a].
Proof.
  destruct (storage_result_delivery accepting_env way_demo way_init 1 2 0 3 2 4 (worker_of way_demo 1) (worker_of way_demo 2) READ_OK [x2a]
    way_demo_open ltac:(lia) ltac:(unfold READ_OK; lia) ltac:(unfold len; simpl; lia))
    as (v1 & v2 & m & E1 & _ & E2 & [[_ Hl]|(d & v3 & v4 & _ & E3 & E4 & [[_ Hp]|[Hl _]])]).
  - exfalso. unfold len in Hl. simpl in Hl. lia.
  - exists v1, v2, m, d, v3, v4. split_and!; [exact E1|exact E2|exact E3|exact E4|exact Hp].
  - exfalso. unfold len in Hl. simpl in Hl. lia.
Defined.

Lemma init_authority_witness :
  (exists l, iw_hist (handle_message accepting_env (mk_Message MSG_SUPERVISOR_KILL_PROCESS 5 [] (u32_to_le_bytes 3)) holding_init) = l /\
    Forall is_debug l).
Proof.
  destruct (init_authority accepting_env (mk_Message MSG_SUPERVISOR_KILL_PROCESS 5 [] (u32_to_le_bytes 3)) holding_init
    ltac:(done)) as [(l & Hl & Hf) _].
  exists l. rewrite Hl. split; [apply app_nil_r|exact Hf].
Defined.

(** Two services of one process: only the first becomes ready. *)
Example ready_marks_one :
  let reg name := mk_Message MSG_REGISTER_SERVICE 5 [] (byte_of_Z 1 :: str_bytes name ++ u64_to_le_bytes 0)%list in
  let w := foldl (fun w m => handle_message accepting_env m w) (mk_IWorld Init_new [])
    [reg "a"; reg "b"; mk_Message MSG_SERVICE_READY 5 [] []] in
  (si_ready <$> in_services (iw_init w) !! "a", si_ready <$> in_services (iw_init w) !! "b") = (Some true, Some false).
Proof. vm_compute. reflexivity. Qed.

(** A process takes over a registered name. *)
Example name_taken_over :
  let reg pid ep := mk_Message MSG_REGISTER_SERVICE pid [] (byte_of_Z 3 :: str_bytes "vfs" ++ u64_to_le_bytes ep)%list in
  let w := foldl (fun w m => handle_message accepting_env m w) (mk_IWorld Init_new []) [reg 3 10; reg 66 99] in
  in_services (iw_init w) !! "vfs" = Some (mk_ServiceInfo 66 99 false).
Proof. vm_compute. reflexivity. Qed.

(** A response for the VFS response endpoint that waits for its capability is not
    sent when that capability arrives, but later to the input endpoint. *)
Example vfs_delivery_misrouted :
  let grant tag slot := mk_Message tag 0 [] (u32_to_le_bytes 3 ++ u32_to_le_bytes slot)%list in
  let w := foldl (fun w m => handle_message accepting_env m w) (mk_IWorld Init_new [])
    [mk_Message MSG_SUPERVISOR_IPC_DELIVERY 0 [] (delivery_payload 3 VFS_RESPONSE_SLOT 5 [x01]);
     grant MSG_VFS_RESPONSE_CAP_GRANTED 8; grant MSG_SERVICE_CAP_GRANTED 7] in
  (iw_hist w !! 0%nat) = Some (IC_Send 7 5 [x01]).
Proof. vm_compute. reflexivity. Qed.
