(* ===== verification/InitOrder.v ===== *)
(** * Init: messages for a process are sent in order

    The abstract view of one process [p]: the messages Init has tried to send to it
    so far followed by those queued for it. A send that the kernel refuses is only
    logged, and its message is lost; [accepted] are the others. Init's handlers
    refine "append what the supervisor delivers", and a queue exists only until the
    capability to [p] is granted. *)
From S2P Require Import Prelude StrLib VfsPath VfsService VfsHandlers Bridge Init InitProps.

Local Open Scope string_scope.
Local Open Scope Z_scope.

(** The target, endpoint slot, tag and data of a delivery the handler accepts. *)
Definition delivery_of (m : Message) : option (Z * Z * (Z * list byte)) :=
  let d := msg_data m in
  if (msg_tag m =? MSG_SUPERVISOR_IPC_DELIVERY) && (msg_from_pid m =? 0) &&
     negb (len d <? 14) && negb (len d <? 14 + u16_at 12 d)
  then Some (u32_at 0 d, u32_at 4 d, (u32_at 8 d, take (Z.to_nat (u16_at 12 d)) (drop 14 d)))
  else None.

Section order.
Context (env : InitEnv) (owner : Z -> option Z) (p : Z).

(** The messages for [p] among those delivered. *)
Definition delivered_to (m : Message) : list (Z * list byte) :=
  match delivery_of m with
  | Some (target, _, msg) => if decide (target = p) then [msg] else []
  | None => []
  end.

(** A capability slot belongs to the process whose endpoint it names. *)
Definition attempt_to (c : InitCall) : list (Z * list byte) :=
  match c with
  | IC_Send slot tag data => if decide (owner slot = Some p) then [(tag, data)] else []
  | _ => []
  end.

(** Every attempt to send to [p], oldest first. *)
Definition attempted (h : list InitCall) : list (Z * list byte) := mjoin (map attempt_to (reverse h)).

(** The sends to [p] that the kernel accepted, oldest first, and whether it
    accepted all of them. *)
Fixpoint accepted (h : list InitCall) : list (Z * list byte) :=
  match h with
  | [] => []
  | c :: h' => (accepted h' ++ match ie_send env (c :: h') with Ok _ => attempt_to c | Err _ => [] end)%list
  end.

Fixpoint none_refused (h : list InitCall) : bool :=
  match h with
  | [] => true
  | c :: h' => match attempt_to c, ie_send env (c :: h') with _ :: _, Err _ => false | _, _ => none_refused h' end
  end.

Definition queue (i : Init) : list (Z * list byte) :=
  map (fun d => (pd_tag d, pd_data d)) (default [] (pending_deliveries i !! p)).

Definition conforms (i : Init) : Prop :=
  (forall q c, service_cap_slots i !! q = Some c -> owner c = Some q) /\
  (forall q c, service_vfs_slots i !! q = Some c -> owner c = Some q).

Definition is_grant (m : Message) : Prop :=
  msg_tag m = MSG_SERVICE_CAP_GRANTED \/ msg_tag m = MSG_SERVICE_CAP_PREREGISTER \/
  msg_tag m = MSG_VFS_RESPONSE_CAP_GRANTED.

(** Grants name the owner; a slot of [p] is pre-registered only while nothing is
    queued for [p]; [p] gets its messages on its input endpoint. *)
Record admissible (m : Message) (i : Init) : Prop := mk_admissible {
  ad_grant : is_grant m -> owner (u32_at 4 (msg_data m)) = Some (u32_at 0 (msg_data m));
  ad_prereg : msg_tag m = MSG_SERVICE_CAP_PREREGISTER -> u32_at 0 (msg_data m) = p ->
    pending_deliveries i !! p = None;
  ad_console : msg_tag m = MSG_SUPERVISOR_CONSOLE_INPUT -> u32_at 0 (msg_data m) <> p;
  ad_slot : msg_tag m = MSG_SUPERVISOR_IPC_DELIVERY -> u32_at 0 (msg_data m) = p ->
    u32_at 4 (msg_data m) <> VFS_RESPONSE_SLOT }.

(** Nothing waits for a process whose capability is held. *)
Definition ready (i : Init) : Prop := conforms i /\ (is_Some (service_cap_slots i !! p) -> queue i = []).

Lemma attempted_cons c h : attempted (c :: h) = (attempted h ++ attempt_to c)%list.
Proof.
  unfold attempted. rewrite reverse_cons, map_app, join_app. simpl. by rewrite app_nil_r.
Qed.

Lemma accepted_sublist h : accepted h `sublist_of` attempted h.
Proof.
  induction h as [|c h IH]; [done|]. rewrite attempted_cons. cbn [accepted].
  apply sublist_app; [done|]. destruct (ie_send env (c :: h)); [done|apply sublist_nil_l].
Qed.

Lemma accepted_all h : none_refused h = true -> accepted h = attempted h.
Proof.
  induction h as [|c h IH]; [done|]. rewrite attempted_cons. cbn [accepted none_refused].
  destruct (attempt_to c) as [|x l]; [intros ?; rewrite IH by done; by destruct (ie_send env (c :: h))|].
  destruct (ie_send env (c :: h)); [|done]. intros ?. by rewrite IH.
Qed.

Lemma attempt_to_other slot q tag data : owner slot = Some q -> q <> p -> attempt_to (IC_Send slot tag data) = [].
Proof. intros Ho Hq. simpl. rewrite decide_False; [done|]. by rewrite Ho; intros [= ->]. Qed.

Lemma attempt_to_p slot tag data : owner slot = Some p -> attempt_to (IC_Send slot tag data) = [(tag, data)].
Proof. intros Ho. simpl. by rewrite decide_True. Qed.

(** The effect of a step: the view grows by what was delivered. *)
Definition step_ok (m : Message) (w w' : IWorld) : Prop :=
  (attempted (iw_hist w') ++ queue (iw_init w') = attempted (iw_hist w) ++ queue (iw_init w) ++ delivered_to m)%list /\
  ready (iw_init w').

Lemma step_same m w : ready (iw_init w) -> delivered_to m = [] -> step_ok m w w.
Proof. intros Hr Hd. split; [by rewrite Hd, !app_nil_r|done]. Qed.

Lemma step_silent m w w' c :
  step_ok m w w' -> attempt_to c = [] -> step_ok m w (mk_IWorld (iw_init w') (c :: iw_hist w')).
Proof. intros [Hs Hr] Hc. split; [|done]. simpl. by rewrite attempted_cons, Hc, app_nil_r. Qed.

(** A change of state that keeps slots, queues and history. *)
Lemma step_state m w i :
  ready (iw_init w) -> delivered_to m = [] -> service_cap_slots i = service_cap_slots (iw_init w) ->
  service_vfs_slots i = service_vfs_slots (iw_init w) ->
  pending_deliveries i = pending_deliveries (iw_init w) -> step_ok m w (mk_IWorld i (iw_hist w)).
Proof.
  intros [[Hc Hv] Hq] Hd H1 H2 H3. split; simpl.
  - unfold queue. rewrite H3, Hd. by rewrite app_nil_r.
  - unfold ready, conforms, queue in *. by rewrite H1, H2, H3.
Qed.

(** A retry sends the queue through the slot. *)
Lemma send_all_hist slot l w :
  send_all env slot l w =
  mk_IWorld (iw_init w) (reverse (map (fun d => IC_Send slot (pd_tag d) (pd_data d)) l) ++ iw_hist w)%list.
Proof.
  revert w. induction l as [|d l IH]; intros w; [by destruct w|].
  unfold send_all in *. cbn [foldl map]. rewrite IH. unfold ic. simpl.
  by rewrite reverse_cons, <- app_assoc.
Qed.

Lemma attempted_sends slot l h :
  attempted (reverse (map (fun d => IC_Send slot (pd_tag d) (pd_data d)) l) ++ h)%list =
  (attempted h ++ if decide (owner slot = Some p) then map (fun d => (pd_tag d, pd_data d)) l else [])%list.
Proof.
  unfold attempted. rewrite reverse_app, reverse_involutive, map_app, join_app. f_equal.
  induction l as [|d l IH]; simpl; [by case_decide|]. rewrite IH. by case_decide.
Qed.

(** ** Handlers *)
Lemma delivered_other m : msg_tag m <> MSG_SUPERVISOR_IPC_DELIVERY -> delivered_to m = [].
Proof. intros Ht%Z.eqb_neq. unfold delivered_to, delivery_of. by rewrite Ht. Qed.

Lemma step_ipc_delivery m w :
  msg_tag m = MSG_SUPERVISOR_IPC_DELIVERY -> admissible m (iw_init w) -> ready (iw_init w) ->
  step_ok m w (handle_supervisor_ipc_delivery env m w).
Proof.
  intros Ht Had Hr. pose proof Hr as [[Hc Hv] Hq]. unfold step_ok, delivered_to, delivery_of, handle_supervisor_ipc_delivery.
  rewrite Ht, Z.eqb_refl. cbn [andb].
  destruct (msg_from_pid m =? 0); cbn [negb andb]; [|by rewrite !app_nil_r].
  destruct (len (msg_data m) <? 14); cbn [negb andb]; [by rewrite !app_nil_r|].
  destruct (len (msg_data m) <? 14 + u16_at 12 (msg_data m)); cbn [negb]; [by rewrite !app_nil_r|].
  set (target := u32_at 0 (msg_data m)). set (data := take _ (drop 14 _)). set (tag := u32_at 8 _).
  set (cap := if _ =? _ then _ else _). destruct cap as [c|] eqn:Hcap; subst cap.
  - unfold ic. cbn [iw_hist iw_init]. split; [|done]. rewrite attempted_cons.
    case_decide as Htp.
    + pose proof (ad_slot _ _ Had Ht Htp) as Hs%Z.eqb_neq. rewrite Hs, Htp in Hcap.
      rewrite attempt_to_p by (by apply Hc). rewrite Hq by done. by rewrite !app_nil_r.
    + rewrite (attempt_to_other _ target) by (destruct (_ =? _); eauto). by rewrite !app_nil_r.
  - unfold ic_debug, upd. cbn [iw_hist iw_init]. rewrite attempted_cons. cbn [attempt_to]. rewrite app_nil_r.
    unfold queue, ready, conforms, queue. cbn [set_deliveries pending_deliveries service_cap_slots service_vfs_slots].
    case_decide as Htp.
    + rewrite Htp, lookup_insert_eq. cbn [default from_option id]. rewrite map_app. split; [done|].
      pose proof (ad_slot _ _ Had Ht Htp) as Hs%Z.eqb_neq. rewrite Hs, Htp in Hcap.
      split; [done|]. intros [? ?]. congruence.
    + rewrite lookup_insert_ne by done. rewrite app_nil_r. done.
Qed.

(** Recording a capability of its owner, with nothing queued for [p] if it is [p]'s. *)
Lemma ready_cap q c i :
  ready i -> owner c = Some q -> (q = p -> pending_deliveries i !! p = None) ->
  ready (set_cap_slots (<[q := c]> (service_cap_slots i)) i).
Proof.
  intros [[Hc Hv] Hq] Ho Hp. split; [split|]; simpl; [|done|].
  - intros q' c' [[-> ->]|[? ?]]%lookup_insert_Some; eauto.
  - destruct (decide (q = p)) as [->|Hne]; [|by rewrite lookup_insert_ne].
    intros _. unfold queue. simpl. by rewrite Hp.
Qed.

Lemma step_cap_granted m w :
  msg_tag m = MSG_SERVICE_CAP_GRANTED -> admissible m (iw_init w) -> ready (iw_init w) ->
  step_ok m w (handle_service_cap_granted env m w).
Proof.
  intros Ht Had Hr. assert (Hd : delivered_to m = []) by (apply delivered_other; by rewrite Ht).
  unfold handle_service_cap_granted.
  destruct (negb (msg_from_pid m =? 0)); [by apply step_same|].
  destruct (len (msg_data m) <? 8); [by apply step_same|].
  pose proof (ad_grant _ _ Had (or_introl Ht)) as Ho.
  set (q := u32_at 0 (msg_data m)) in *. set (c := u32_at 4 (msg_data m)) in *.
  unfold retry_pending_deliveries. cbn [upd iw_init set_cap_slots pending_deliveries].
  unfold step_ok. rewrite Hd, app_nil_r. destruct Hr as [[Hc Hv] Hq].
  destruct (pending_deliveries (iw_init w) !! q) as [l|] eqn:Hl.
  - rewrite send_all_hist. cbn [iw_init iw_hist upd]. rewrite attempted_sends.
    unfold ready, conforms, queue. cbn. split.
    + case_decide as Hop; rewrite Ho in Hop.
      * injection Hop as Hop. rewrite Hop in *. rewrite lookup_delete_eq, Hl. by rewrite app_nil_r.
      * rewrite lookup_delete_ne by congruence. by rewrite app_nil_r.
    + split; [split; [|done]|].
      * intros q' c' [[-> ->]|[? ?]]%lookup_insert_Some; eauto.
      * destruct (decide (q = p)) as [->|Hne]; [by rewrite lookup_delete_eq|].
        by rewrite lookup_insert_ne, lookup_delete_ne by done.
  - cbn [iw_init iw_hist upd]. split; [done|]. apply ready_cap; [by split|done|congruence].
Qed.

Lemma step_preregister m w :
  msg_tag m = MSG_SERVICE_CAP_PREREGISTER -> admissible m (iw_init w) -> ready (iw_init w) ->
  step_ok m w (handle_service_cap_preregister m w).
Proof.
  intros Ht Had Hr. assert (Hd : delivered_to m = []) by (apply delivered_other; by rewrite Ht).
  unfold handle_service_cap_preregister.
  destruct (negb (msg_from_pid m =? 0)); [by apply step_same|].
  destruct (len (msg_data m) <? 8); [by apply step_same|].
  unfold step_ok. rewrite Hd, app_nil_r. cbn [upd iw_init iw_hist]. split; [done|].
  apply ready_cap; [done|apply (ad_grant _ _ Had); by right; left|by apply (ad_prereg _ _ Had)].
Qed.

Lemma step_vfs_granted m w :
  msg_tag m = MSG_VFS_RESPONSE_CAP_GRANTED -> admissible m (iw_init w) -> ready (iw_init w) ->
  step_ok m w (handle_vfs_response_cap_granted m w).
Proof.
  intros Ht Had Hr. assert (Hd : delivered_to m = []) by (apply delivered_other; by rewrite Ht).
  unfold handle_vfs_response_cap_granted.
  destruct (negb (msg_from_pid m =? 0)); [by apply step_same|].
  destruct (len (msg_data m) <? 8); [by apply step_same|].
  pose proof (ad_grant _ _ Had (or_intror (or_intror Ht))) as Ho. destruct Hr as [[Hc Hv] Hq].
  unfold step_ok. rewrite Hd, app_nil_r. cbn [upd iw_init iw_hist]. split; [done|].
  split; [split; [done|]|done]. simpl. intros q' c' [[<- <-]|[? ?]]%lookup_insert_Some; eauto.
Qed.

Lemma step_console m w :
  msg_tag m = MSG_SUPERVISOR_CONSOLE_INPUT -> admissible m (iw_init w) -> ready (iw_init w) ->
  step_ok m w (handle_supervisor_console_input env m w).
Proof.
  intros Ht Had Hr. assert (Hd : delivered_to m = []) by (apply delivered_other; by rewrite Ht).
  unfold handle_supervisor_console_input. repeat case_match; try by apply step_same.
  pose proof Hr as [[Hc _] _].
  apply step_silent; [by apply step_same|]. eapply attempt_to_other; [by apply Hc|by apply (ad_console _ _ Had)].
Qed.

(** Calls other than sends, and changes of the registry. *)
Lemma step_others m w :
  ready (iw_init w) -> delivered_to m = [] ->
  step_ok m w (handle_register m w) /\ step_ok m w (handle_lookup m w) /\ step_ok m w (handle_ready m w) /\
  step_ok m w (handle_spawn_request m w) /\ step_ok m w (handle_supervisor_kill_process env m w) /\
  step_ok m w (handle_supervisor_spawn_process env m w) /\
  step_ok m w (handle_supervisor_create_endpoint env m w) /\ step_ok m w (handle_supervisor_grant_cap env m w).
Proof.
  intros Hr Hd. unfold handle_register, handle_lookup, handle_ready, handle_spawn_request,
    handle_supervisor_kill_process, handle_supervisor_spawn_process, handle_supervisor_create_endpoint,
    handle_supervisor_grant_cap, send_spawn_response, send_endpoint_response, send_cap_response, ic, ic_debug, upd.
  split_and!; repeat case_match; try (by apply step_same); try (by apply step_state).
  all: repeat match goal with
    | |- step_ok ?m ?w (mk_IWorld (iw_init ?w') (?c :: iw_hist ?w')) => apply (step_silent m w w'); [|done]
    | |- step_ok ?m ?w (mk_IWorld ?i (?c :: ?h)) => apply (step_silent m w (mk_IWorld i h)); [|done]
    end; by destruct w; apply step_same.
Qed.

Lemma step_message m w :
  admissible m (iw_init w) -> ready (iw_init w) -> step_ok m w (handle_message env m w).
Proof.
  intros Had Hr. unfold handle_message.
  destruct (decide (msg_tag m = MSG_SUPERVISOR_IPC_DELIVERY)) as [Ht|Ht].
  { rewrite Ht. by apply step_ipc_delivery. }
  pose proof (delivered_other m Ht) as Hd.
  destruct (step_others m w Hr Hd) as (?&?&?&?&?&?&?&?).
  repeat match goal with
    | |- context [if msg_tag m =? ?t then _ else _] =>
        destruct (msg_tag m =? t) eqn:?; [try done|]
    end; try (by apply step_same).
  - by apply step_console; [apply Z.eqb_eq|..].
  - by apply Z.eqb_eq in Heqb5.
  - by apply step_cap_granted; [apply Z.eqb_eq|..].
  - by apply step_preregister; [apply Z.eqb_eq|..].
  - by apply step_vfs_granted; [apply Z.eqb_eq|..].
Qed.

(** Every message of a run is admissible when it arrives. *)
Fixpoint admissible_run (msgs : list Message) (w : IWorld) : Prop :=
  match msgs with
  | [] => True
  | m :: msgs => admissible m (iw_init w) /\ admissible_run msgs (handle_message env m w)
  end.

Lemma run_order w msgs :
  ready (iw_init w) -> admissible_run msgs w ->
  let w' := foldl (fun w m => handle_message env m w) w msgs in
  (attempted (iw_hist w') ++ queue (iw_init w') =
   attempted (iw_hist w) ++ queue (iw_init w) ++ mjoin (map delivered_to msgs))%list /\
  (is_Some (service_cap_slots (iw_init w') !! p) -> queue (iw_init w') = []).
Proof.
  revert w. induction msgs as [|m msgs IH]; intros w Hr Hadm.
  - simpl. rewrite app_nil_r. split; [done|apply Hr].
  - destruct Hadm as [Had Hadm]. destruct (step_message m w Had Hr) as [Hs Hr'].
    cbn [foldl map mjoin list_join]. destruct (IH _ Hr' Hadm) as [Hi Hq]. split; [|done].
    rewrite Hi. rewrite app_assoc, Hs. by rewrite <- !app_assoc.
Qed.
End order.

(** C17: Init hands the messages of the supervisor to a process in order. What it
    has tried to send to the process followed by what it keeps queued for it is
    exactly what the supervisor delivered, each message once and in order, whether
    it came before or after the capability; what the kernel accepted of it keeps
    that order, and is all of it when the kernel refused no send (a refused send is
    only logged and its message lost); the queue is empty once the capability is
    held. The supervisor's messages are assumed to name the owner of each capability
    they grant, to pre-register a capability of the process only while nothing is
    queued for it, to address the process on its input endpoint, and to carry no
    console input for it, which does not go through the queue. *)
Theorem init_delivers_in_order env owner p w msgs :
  ready owner p (iw_init w) -> admissible_run env owner p msgs w ->
  let w' := foldl (fun w m => handle_message env m w) w msgs in
  let due := (attempted owner p (iw_hist w) ++ queue p (iw_init w) ++ mjoin (map (delivered_to p) msgs))%list in
  (attempted owner p (iw_hist w') ++ queue p (iw_init w'))%list = due /\
  (accepted env owner p (iw_hist w') ++ queue p (iw_init w'))%list `sublist_of` due /\
  (none_refused env owner p (iw_hist w') = true ->
     (accepted env owner p (iw_hist w') ++ queue p (iw_init w'))%list = due) /\
  (is_Some (service_cap_slots (iw_init w') !! p) -> queue p (iw_init w') = []).
Proof.
  intros Hr Hadm w' due. destruct (run_order env owner p w msgs Hr Hadm) as [Hi Hq]. fold w' in Hi, Hq.
  split_and!; [done| |intros Hn; by rewrite accepted_all|done].
  unfold due. rewrite <- Hi. apply sublist_app; [apply accepted_sublist|done].
Qed.

(** A queued message, the grant, and a second message. *)
Definition owner_7 (slot : Z) : option Z := if slot =? 7 then Some 3 else None.

Definition three_messages : list Message :=
  [ mk_Message MSG_SUPERVISOR_IPC_DELIVERY 0 [] (delivery_payload 3 1 5 [x01]);
    mk_Message MSG_SERVICE_CAP_GRANTED 0 [] (u32_to_le_bytes 3 ++ u32_to_le_bytes 7)%list;
    mk_Message MSG_SUPERVISOR_IPC_DELIVERY 0 [] (delivery_payload 3 1 6 [x02]) ].

(** The kernel refuses the second send to process 3. *)
Definition refusing_env : InitEnv :=
  mk_InitEnv (fun h => if decide (length h = 3)%nat then Err 1 else Ok tt) (ie_kill accepting_env)
    (ie_register accepting_env) (ie_endpoint accepting_env) (ie_grant accepting_env) (ie_load accepting_env)
    (ie_spawn accepting_env).

Example refused_send_lost :
  let w' := foldl (fun w m => handle_message refusing_env m w) (mk_IWorld Init_new []) three_messages in
  accepted refusing_env owner_7 3 (iw_hist w') = [(5, [x01])] /\ queue 3 (iw_init w') = [].
Proof. vm_compute. by split. Qed.

Lemma init_delivers_in_order_witness :
  let w' := foldl (fun w m => handle_message accepting_env m w) (mk_IWorld Init_new []) three_messages in
  iw_hist w' <> [] /\
  (accepted accepting_env owner_7 3 (iw_hist w') ++ queue 3 (iw_init w') = [(5, [x01]); (6, [x02])])%list.
Proof.
  split; [by vm_compute|].
  refine (eq_trans (proj1 (proj2 (proj2 (init_delivers_in_order accepting_env owner_7 3 (mk_IWorld Init_new []) three_messages _ _))) _) _).
  - split; [split; simpl; intros q c Hq; by rewrite lookup_empty in Hq|]. intros _. reflexivity.
  - repeat split; vm_compute; intuition congruence.
  - vm_compute. reflexivity.
  - vm_compute. reflexivity.
Defined.
