(* ===== verification/VfsLive.v ===== *)
(** * Runs of the VFS service and the warrant of every change of storage

    A run feeds messages, from clients, from storage or forged, to the service
    after its [init]. The invariant follows each pending operation back to the
    request that opened it, to the storage call it waits for and to the result
    that granted it. *)
From S2P Require Import Prelude StrLib VfsPath VfsService VfsHandlers VfsOutcome.

Local Open Scope string_scope.
Local Open Scope Z_scope.

Section runs.
Context `{Target} {J : VfsJson} (env : Env).

(** The messages received, newest first, and the state they lead to. *)
Inductive served : list Message -> World -> Prop :=
| served_init r w : vfs_init env (mk_World VfsService_default []) = Some (r, w) -> served [] w
| served_message ms w m r w' : served ms w -> on_message env m w = Some (r, w') -> served (m :: ms) w'.

(** A storage call was made and got a request identifier. *)
Definition issued (h : list SysCall) (id : Z) (call : SysCall) : Prop :=
  exists h1 h2 n, h = (h2 ++ call :: h1)%list /\ env_storage env (call :: h1) = Ok n /\ wrap_u32 n = id.

(** A result for a read of the guard's inode has been received, and it passes. *)
Definition granted (ms : list Message) (h : list SysCall) (g : guard) : Prop :=
  exists m id data, m ∈ ms /\ msg_tag m = MSG_STORAGE_RESULT /\
    parse_storage_result (msg_data m) = PR_Result id READ_OK data /\
    issued h id (Sys_StorageRead (inode_key (g_path g))) /\ passes g READ_OK data.

(** Why a call that changes storage may be made: a client asked for a change that
    the call carries out, on the path and with the content of its request, and the
    inode that decides about it passed the check for that client; or a client asked
    for mkdir with parents, and the call makes a directory on the way. *)
Definition warrant (ms : list Message) (h : list SysCall) (c : SysCall) : Prop :=
  (exists m ch, m ∈ ms /\ requests m ch /\ carries_out ch c /\
     granted ms h (guard_of (derive_permission_context (msg_from_pid m) (change_path ch)) ch)) \/
  (exists m path, m ∈ ms /\ asks_mkdir_p m path /\ on_way path c).

(** ** Monotonicity *)
Lemma issued_mono h l id call : issued h id call -> issued (l ++ h)%list id call.
Proof. intros (h1 & h2 & n & -> & He & Hn). exists h1, (l ++ h2)%list, n. by rewrite <- app_assoc. Qed.

Lemma granted_mono ms h m l g : granted ms h g -> granted (m :: ms) (l ++ h)%list g.
Proof.
  intros (m0 & id & data & Hm & Ht & Hp & Hi & Hg). exists m0, id, data.
  split_and!; try done; [by right|by apply issued_mono].
Qed.

Lemma warrant_mono ms h m l c : warrant ms h c -> warrant (m :: ms) (l ++ h)%list c.
Proof.
  intros [(m0 & ch & Hm & Hr & Hc & Hgr)|(m0 & path & Hm & Ha & Hkey)].
  - left. exists m0, ch. split_and!; try done; [by right|by apply granted_mono].
  - right. exists m0, path. split_and!; try done. by right.
Qed.

(** ** Pending operations *)
Record tracked (ms : list Message) (h : list SysCall) (id : Z) (op : PendingOp) : Prop := mk_tracked {
  tr_ok : op_ok op;
  tr_call : exists call, call_of op call /\ issued h id call;
  tr_kind : exists m, m ∈ ms /\ is_Some (request_kind m) /\ op_kind op = request_kind m /\ serves m op;
  tr_granted : forall perm ch, op_phase op = Ph_granted perm ch -> granted ms h (guard_of perm ch);
  tr_mkdir_p : forall path, op_phase op = Ph_mkdir_p path -> exists m, m ∈ ms /\ asks_mkdir_p m path }.

Lemma tracked_mono ms h m l id op : tracked ms h id op -> tracked (m :: ms) (l ++ h)%list id op.
Proof.
  intros [Hok (call & Hc & Hi) (m0 & Hm & Hk) Hg Hp]. constructor; [done| | | |].
  - exists call. by split; [|apply issued_mono].
  - exists m0. split; [by right|done].
  - intros perm ch Hph. by apply granted_mono, Hg.
  - intros path (m1 & Hm1 & Ha)%Hp. exists m1. by split; [right|].
Qed.

Lemma phase_change op ctx tag perm ch :
  op_ok op -> op_kind op = Some (ctx, tag) -> op_phase op = Ph_check perm ch \/ op_phase op = Ph_granted perm ch ->
  op_change op = Some ch /\ perm = derive_permission_context (cc_pid ctx) (change_path ch).
Proof.
  intros Hok Hk Hph.
  destruct op as [| | | | | | | | |? ? ? st|? ? ? st cp|? ? ? st|? ? ? st]; simpl in *; try naive_solver.
  all: repeat case_match; simplify_eq; destruct Hph; simplify_eq; split; simpl; eauto; naive_solver.
Qed.

Lemma check_call op perm ch call :
  op_phase op = Ph_check perm ch -> call_of op call -> call = Sys_StorageRead (inode_key (g_path (guard_of perm ch))).
Proof. intros Hph Hc. destruct op; simpl in *; repeat case_match; simplify_eq; done. Qed.

Lemma request_client m ctx tag : request_kind m = Some (ctx, tag) -> cc_pid ctx = msg_from_pid m.
Proof. unfold request_kind. repeat case_match; intros; by simplify_eq. Qed.

Definition service_inv (ms : list Message) (w : World) : Prop :=
  (forall id op, pending_ops (w_svc w) !! id = Some op -> tracked ms (w_hist w) id op) /\
  (forall c key, c ∈ w_hist w -> mutation_key c = Some key -> warrant ms (w_hist w) c).

(** ** The effect of an outcome on state and history *)
Definition no_change (c : SysCall) : Prop := mutation_key c = None.

Lemma delivered_hist ctx tag data h h' :
  delivered env ctx tag data h h' -> exists l, h' = (l ++ h)%list /\ Forall no_change l.
Proof.
  intros Hd. destruct Hd.
  - exists [Sys_Send slot tag data]. split; [done|by repeat constructor].
  - eexists [_; _]. split; [done|by repeat constructor].
  - eexists [_]. split; [done|by repeat constructor].
Qed.

Lemma clocked_hist h h' : clocked h h' -> exists l, h' = (l ++ h)%list /\ Forall no_change l.
Proof. intros [->| ->]; [by exists []|exists [Sys_Wallclock]; by repeat constructor]. Qed.

Lemma outcome_effect ctx tag (P : SysCall -> PendingOp -> Prop) s h r w' :
  outcome env ctx tag P (mk_World s h) r w' ->
  exists l, w_hist w' = (l ++ h)%list /\ Forall (fun c => no_change c \/ exists op, P c op) l /\
    (pending_ops (w_svc w') = pending_ops s \/
     exists call op id, P call op /\ issued (w_hist w') id call /\
       pending_ops (w_svc w') = <[id := op]> (pending_ops s)).
Proof.
  intros Ho. inversion Ho as [? ? h1 h2 ? ? Hc ? Hd|? ? h1 call op n Hc HP Hn|? ? h1 ? Hc|? ? h1 call op ? ? Hc HP];
    subst; apply clocked_hist in Hc as (l1 & -> & Hl1); simpl.
  - apply delivered_hist in Hd as (l2 & -> & Hl2). exists (l2 ++ l1)%list. rewrite <- app_assoc.
    split_and!; [done| |by left]. eapply Forall_impl; [by apply Forall_app|]. by left.
  - exists (call :: l1). split_and!; [done| |].
    + constructor; [right; by exists op|]. eapply Forall_impl; [done|]. by left.
    + right. exists call, op, (wrap_u32 n). split_and!; try done. by exists (l1 ++ h)%list, [], n.
  - exists l1. split_and!; [done| |by left]. eapply Forall_impl; [done|]. by left.
  - exists (call :: l1). split_and!; [done| |by left].
    constructor; [right; by exists op|]. eapply Forall_impl; [done|]. by left.
Qed.

(** ** Preservation *)

(** A step that keeps [rest] of the pending operations and whose outcome starts
    only tracked operations with warranted calls preserves the invariant. *)
Lemma inv_outcome ms m s0 h rest ctx tag (P : SysCall -> PendingOp -> Prop) r w' :
  service_inv ms (mk_World s0 h) ->
  (forall id op, pending_ops rest !! id = Some op -> pending_ops s0 !! id = Some op) ->
  outcome env ctx tag P (mk_World rest h) r w' ->
  (forall call op l id, P call op -> w_hist w' = (l ++ h)%list -> issued (w_hist w') id call ->
     tracked (m :: ms) (w_hist w') id op) ->
  (forall call op key, P call op -> mutation_key call = Some key -> warrant (m :: ms) h call) ->
  service_inv (m :: ms) w'.
Proof.
  intros [Hpend Hhist] Hrest Ho Htr Hw. simpl in Hpend, Hhist.
  apply outcome_effect in Ho as (l & Hh & Hl & Hp). split.
  - intros id op Hid. destruct Hp as [Hp|(call & op1 & id1 & HP & Hi & Hp)]; rewrite Hp in Hid.
    + rewrite Hh. by apply tracked_mono, Hpend, Hrest.
    + apply lookup_insert_Some in Hid as [[-> ->]|[_ Hid]]; [by eapply Htr|].
      rewrite Hh. by apply tracked_mono, Hpend, Hrest.
  - intros c key Hc Hk. rewrite Hh in Hc |- *. apply elem_of_app in Hc as [Hc|Hc].
    + rewrite Forall_forall in Hl. apply Hl in Hc as [Hn|(op & HP)]; [by rewrite Hn in Hk|].
      pose proof (Hw _ _ _ HP Hk) as Hwa.
      destruct Hwa as [(m0 & ch & Hm & Hr & Hco & Hgr)|Hmk]; [|by right].
      left. exists m0, ch. split_and!; try done.
      destruct Hgr as (m1 & id & data & ? & ? & ? & Hi & ?). exists m1, id, data.
      split_and!; try done. by apply issued_mono.
    + by apply warrant_mono, (Hhist c key).
Qed.

(** A request: what it opens changes nothing and holds no grant. *)
Lemma inv_request ms m w r w' :
  service_inv ms w -> msg_tag m <> MSG_STORAGE_RESULT -> is_Some (request_kind m) ->
  on_message env m w = Some (r, w') -> service_inv (m :: ms) w'.
Proof.
  intros Hinv Ht [[ctx tag] Hk] Hstep. destruct w as [s h].
  destruct (request_outcome env m ctx tag Ht Hk (mk_World s h)) as (r0 & w0 & Hc & Ho).
  simplify_eq. eapply (inv_outcome ms m s h s); [done|done|exact Ho| |].
  - intros call op l id [Hok Hkd Hcall Hpure Hng Hsv Hmp] Hh Hi. constructor; [done|by exists call| | |].
    + exists m. split_and!; [by left|by rewrite Hk|done|done].
    + intros perm ch Hph. by destruct (Hng perm ch).
    + intros path Hph. exists m. split; [by left|by apply Hmp].
  - intros call op key [] Hmk. congruence.
Qed.

(** The grant that a passed check gives. *)
Lemma grant_of_result ms h m id rt data op perm ch :
  tracked ms h id op -> msg_tag m = MSG_STORAGE_RESULT ->
  parse_storage_result (msg_data m) = PR_Result id rt data ->
  op_phase op = Ph_check perm ch -> passes (guard_of perm ch) rt data -> granted (m :: ms) h (guard_of perm ch).
Proof.
  intros [_ (call & Hc & Hi) _ _ _] Ht Hp Hph Hg.
  pose proof (proj1 Hg) as ->. rewrite (check_call _ _ _ _ Hph Hc) in Hi.
  exists m, id, data. split_and!; try done. by left.
Qed.

(** The warrant of the changes that a result permits. *)
Lemma warrant_of_result ms h m id rt data op c :
  tracked ms h id op -> msg_tag m = MSG_STORAGE_RESULT ->
  parse_storage_result (msg_data m) = PR_Result id rt data ->
  permits (op_phase op) rt data c -> warrant (m :: ms) h c.
Proof.
  intros Htr Ht Hp Hper. pose proof Htr as [Hok _ (m0 & Hm0 & [[ctx tag] Hk0] & Hkd & Hsv) Hgr Hmp].
  rewrite Hk0 in Hkd. pose proof (request_client _ _ _ Hk0) as Hpid.
  destruct (op_phase op) as [|perm ch|perm ch|path] eqn:Hph; simpl in Hper; [done|..].
  - destruct (phase_change op ctx tag perm ch) as [Hch Hperm]; [done|done|by left|].
    destruct Hper as [Hpass Hco]. left. exists m0, ch. unfold serves in Hsv. rewrite Hch in Hsv.
    split_and!; [by right|done|done|]. rewrite <- Hpid, <- Hperm. by eapply grant_of_result.
  - destruct (phase_change op ctx tag perm ch) as [Hch Hperm]; [done|done|by right|].
    left. exists m0, ch. unfold serves in Hsv. rewrite Hch in Hsv.
    split_and!; [by right|done|done|]. rewrite <- Hpid, <- Hperm. apply (granted_mono _ _ _ []). by apply Hgr.
  - right. destruct (Hmp path eq_refl) as (m1 & Hm1 & Ha). exists m1, path. split_and!; [by right|done..].
Qed.

Lemma inv_result ms m w r w' :
  service_inv ms w -> msg_tag m = MSG_STORAGE_RESULT ->
  handle_storage_result env m w = Some (r, w') -> service_inv (m :: ms) w'.
Proof.
  intros Hinv Ht Hstep. destruct w as [s h]. unfold handle_storage_result in Hstep.
  assert (Hsame : service_inv (m :: ms) (mk_World s h)).
  { destruct Hinv as [Hp Hh]. split; intros;
      [by apply (tracked_mono _ _ _ []), Hp|by eapply (warrant_mono _ _ _ []), Hh]. }
  destruct (parse_storage_result (msg_data m)) as [| |id rt data] eqn:Hparse; [by injection Hstep as <- <-|done|].
  unfold m_bind, m_get, m_modify in Hstep. simpl in Hstep.
  destruct (pending_ops s !! id) as [op|] eqn:Hop; [|by injection Hstep as <- <-]. simpl in Hstep.
  pose proof (proj1 Hinv id op Hop) as Htr. simpl in Htr.
  pose proof Htr as [Hok _ (m0 & Hm0 & [[ctx tag] Hk0] & Hkd & Hsv) Hgr Hmp].
  set (rest := set_pending (delete id (pending_ops s)) s) in *.
  rewrite Hk0 in Hkd.
  destruct (dispatch_outcome env op rt data ctx tag Hok Hkd (mk_World rest h)) as (r0 & w0 & Hc & Ho).
  simplify_eq. eapply (inv_outcome ms m s h rest); [done| |exact Ho| |].
  - intros id0 op0. subst rest. simpl. by intros [_ ?]%lookup_delete_Some.
  - intros call op' l id' [Hok' Hk' _ Hcall _ Hg' Hs' Hm'] Hh Hi. constructor; [done|by exists call| | |].
    + exists m0. split_and!; [by right|by rewrite Hk0|congruence|by apply Hs'].
    + intros perm ch' (ch & <- & [Hph|[Hph Hpass]])%Hg'; rewrite Hh.
      * eapply granted_mono. eauto.
      * destruct (grant_of_result _ _ _ _ _ _ _ _ _ Htr Ht Hparse Hph Hpass) as (m1&id1&d1&?&?&?&?&?).
        exists m1, id1, d1. split_and!; try done. by apply issued_mono.
    + intros path (m1 & Hm1 & Ha)%Hm'%Hmp. exists m1. by split; [right|].
  - intros call op' key Hf Hmk. eapply warrant_of_result; [done..|]. by eapply fo_mutation.
Qed.

Lemma request_or_ignored m w :
  msg_tag m <> MSG_STORAGE_RESULT -> request_kind m = None -> on_message env m w = Some (Ok tt, w).
Proof.
  intros Ht%Z.eqb_neq Hk. unfold on_message. rewrite Ht. unfold request_kind in Hk.
  repeat case_match; simplify_eq; done.
Qed.

Lemma served_inv ms w : served ms w -> service_inv ms w.
Proof.
  induction 1 as [r w Hinit|ms w m r w' _ IH Hstep].
  - unfold vfs_init, m_bind, m_call, m_modify, m_ret in Hinit. simplify_eq/=. split; simpl.
    + intros id op Hid. by rewrite lookup_empty in Hid.
    + intros c key Hc%list_elem_of_singleton Hk. by subst.
  - destruct (decide (msg_tag m = MSG_STORAGE_RESULT)) as [Ht|Ht].
    + unfold on_message in Hstep. rewrite Ht, Z.eqb_refl in Hstep. by eapply inv_result.
    + destruct (request_kind m) as [k|] eqn:Hk; [by eapply inv_request|].
      rewrite request_or_ignored in Hstep by done. simplify_eq. destruct IH as [Hp Hh]. split; intros;
        [by apply (tracked_mono _ _ _ []), Hp|by eapply (warrant_mono _ _ _ []), Hh].
Qed.
End runs.

(** * VFS service: every request is settled

    Inputs are requests and results of storage. A request is settled when its
    response has been delivered or its handler has returned an error. The number
    of requests of a kind is, in every state, the number of those settled and of
    those whose operation is pending; and results, in any order and of any
    content, lead to a state in which nothing is pending. *)
From S2P Require Import Bridge Init InitProps.

Local Open Scope string_scope.
Local Open Scope Z_scope.

Abbreviation Kind := (ClientContext * Z)%type.

#[export] Instance ClientContext_eq_dec : EqDecision ClientContext.
Proof. solve_decision. Defined.

Inductive event : Type :=
| Ev_asked (k : Kind)
| Ev_answered (k : Kind) (data : list byte)
| Ev_failed (k : Kind) (e : AppError).

Inductive input : Type :=
| In_request (m : Message)
| In_result (id rt : Z) (data : list byte).

Definition input_ok (i : input) : Prop :=
  match i with
  | In_request m => is_Some (request_kind m)
  | In_result id rt data => 0 <= id < 2 ^ 32 /\ 0 <= rt < 256 /\ 9 + len data < 2 ^ 32
  end.

Definition result_message (id rt : Z) (data : list byte) : Message :=
  mk_Message MSG_STORAGE_RESULT 1 [] (result_payload id rt data).

Definition message_of (i : input) : Message :=
  match i with In_request m => m | In_result id rt data => result_message id rt data end.

(** Operations of a kind that are pending. *)
Definition waiting (k : Kind) (s : VfsService) : nat :=
  size (filter (fun p => op_kind p.2 = Some k) (pending_ops s)).

Definition is_asked (k : Kind) (e : event) : Prop :=
  match e with Ev_asked k' => k' = k | _ => False end.

Definition is_settled (k : Kind) (e : event) : Prop :=
  match e with Ev_answered k' _ | Ev_failed k' _ => k' = k | _ => False end.

#[export] Instance is_asked_dec k e : Decision (is_asked k e).
Proof. unfold is_asked. destruct e; apply _. Defined.

#[export] Instance is_settled_dec k e : Decision (is_settled k e).
Proof. unfold is_settled. destruct e; apply _. Defined.

Definition asked (k : Kind) (evs : list event) : nat := length (filter (is_asked k) evs).
Definition settled (k : Kind) (evs : list event) : nat := length (filter (is_settled k) evs).

(** The storage results all pending operations can still consume. *)
Definition total_rank (s : VfsService) : nat := map_fold (fun _ op n => (op_rank op + n)%nat) 0%nat (pending_ops s).

(** ** Counting *)
Lemma waiting_insert k s id op :
  pending_ops s !! id = None ->
  waiting k (set_pending (<[id := op]> (pending_ops s)) s) =
  ((if decide (op_kind op = Some k) then 1 else 0) + waiting k s)%nat.
Proof.
  intros Hid. unfold waiting. simpl. case_decide as Hk.
  - rewrite map_filter_insert_True by done. rewrite map_size_insert_None; [done|].
    apply map_lookup_filter_None. by left.
  - rewrite map_filter_insert_False by done. by rewrite delete_id.
Qed.

Lemma waiting_delete k s id op :
  pending_ops s !! id = Some op ->
  waiting k s =
  ((if decide (op_kind op = Some k) then 1 else 0) + waiting k (set_pending (delete id (pending_ops s)) s))%nat.
Proof.
  intros Hid. rewrite <- (waiting_insert k (set_pending (delete id (pending_ops s)) s) id op)
    by apply lookup_delete_eq.
  f_equal. destruct s as [r m]. unfold set_pending. simpl in *. by rewrite insert_delete_id.
Qed.

Lemma total_rank_insert s id op :
  pending_ops s !! id = None ->
  total_rank (set_pending (<[id := op]> (pending_ops s)) s) = (op_rank op + total_rank s)%nat.
Proof. intros Hid. unfold total_rank. simpl. rewrite map_fold_insert_L; [done| |done]. intros; lia. Qed.

Lemma total_rank_delete s id op :
  pending_ops s !! id = Some op ->
  total_rank s = (op_rank op + total_rank (set_pending (delete id (pending_ops s)) s))%nat.
Proof.
  intros Hid. rewrite <- (total_rank_insert (set_pending (delete id (pending_ops s)) s) id op)
    by apply lookup_delete_eq.
  f_equal. destruct s as [r m]. unfold set_pending. simpl in *. by rewrite insert_delete_id.
Qed.

Lemma op_rank_pos op : op_ok op -> (0 < op_rank op)%nat.
Proof.
  intros Hok. destruct op as [| | | | | | | | |? ? ? st|? ? ? st cp|? ? ? st|? ? ? st]; simpl; try lia;
    repeat case_match; simpl in Hok; lia.
Qed.

Lemma asked_app k l1 l2 : asked k (l1 ++ l2)%list = (asked k l1 + asked k l2)%nat.
Proof. unfold asked. by rewrite filter_app, length_app. Qed.

Lemma asked_cons k k0 evs : asked k (Ev_asked k0 :: evs) = ((if decide (k0 = k) then 1 else 0) + asked k evs)%nat.
Proof. unfold asked, filter, list_filter. cbn. by case_decide. Qed.

Lemma settled_app k l1 l2 : settled k (l1 ++ l2)%list = (settled k l1 + settled k l2)%nat.
Proof. unfold settled. by rewrite filter_app, length_app. Qed.

Section live.
Context `{Target} {J : VfsJson} (env : Env).

(** Request identifiers are not reused while the service runs. *)
Definition fresh_ids : Prop :=
  forall c h n c' h1 h2 n', env_storage env (c :: h) = Ok n -> h = (h2 ++ c' :: h1)%list ->
    env_storage env (c' :: h1) = Ok n' -> wrap_u32 n' <> wrap_u32 n.

(** How a step of a kind ends: the response delivered, an operation pending, or an error. *)
Inductive ends (k : Kind) (P : PendingOp -> Prop) (s : VfsService) : list SysCall -> result unit AppError -> World -> list event -> Prop :=
| ends_answered h h1 h' response data :
    clocked h h1 -> response_to_vec response = Ok data -> delivered env k.1 k.2 data h1 h' ->
    ends k P s h (Ok tt) (mk_World s h') [Ev_answered k data]
| ends_pending h h' id op :
    op_kind op = Some k -> P op -> pending_ops s !! id = None ->
    ends k P s h (Ok tt) (mk_World (set_pending (<[id := op]> (pending_ops s)) s) h') []
| ends_failed h h' e : ends k P s h (Err e) (mk_World s h') [Ev_failed k e].

(** A step of the service on an input. *)
Inductive vstep : World -> input -> list event -> World -> Prop :=
| vs_request w m k r w' evs :
    request_kind m = Some k -> on_message env m w = Some (r, w') -> ends k (fun _ => True) (w_svc w) (w_hist w) r w' evs ->
    vstep w (In_request m) (Ev_asked k :: evs) w'
| vs_result w id rt data op k r w' evs :
    pending_ops (w_svc w) !! id = Some op -> op_kind op = Some k ->
    on_message env (result_message id rt data) w = Some (r, w') ->
    ends k (fun op' => op_rank op' < op_rank op)%nat (set_pending (delete id (pending_ops (w_svc w))) (w_svc w))
      (w_hist w) r w' evs ->
    vstep w (In_result id rt data) evs w'
| vs_unknown w id rt data :
    pending_ops (w_svc w) !! id = None ->
    on_message env (result_message id rt data) w = Some (Ok tt, w) -> vstep w (In_result id rt data) [] w.

(** Inputs so far (newest first) and events (oldest first). *)
Inductive vrun : list Message -> list event -> World -> Prop :=
| vr_init r w : vfs_init env (mk_World VfsService_default []) = Some (r, w) -> vrun [] [] w
| vr_step ms evs w i evs' w' :
    vrun ms evs w -> input_ok i -> vstep w i evs' w' -> vrun (message_of i :: ms) (evs ++ evs')%list w'.

Lemma vrun_served ms evs w : vrun ms evs w -> served env ms w.
Proof.
  induction 1 as [r w Hi|ms evs w i evs' w' _ IH _ Hs]; [by eapply served_init|].
  destruct Hs; by eapply served_message.
Qed.

(** An outcome ends the step, when identifiers are fresh. *)
Lemma outcome_ends k P (Q : SysCall -> PendingOp -> Prop) ms w rest r w' :
  fresh_ids -> service_inv env ms w ->
  (forall id, is_Some (pending_ops rest !! id) -> is_Some (pending_ops (w_svc w) !! id)) ->
  (forall c op, Q c op -> op_kind op = Some k /\ P op) ->
  outcome env k.1 k.2 Q (mk_World rest (w_hist w)) r w' ->
  exists evs, ends k P rest (w_hist w) r w' evs.
Proof.
  intros Hf [Hinv _] Hrest HQ Ho. inversion Ho as [? ? h1 h2 ? ? Hc Hv Hd|? ? h1 call op n Hc Hop Hn|? ? h1 ? Hc|? ? h1 call op ? ? Hc Hop]; subst.
  - eexists. by eapply ends_answered.
  - eexists. apply HQ in Hop as [Hk HP]. apply ends_pending; [done|done|].
    apply eq_None_not_Some. intros [op0 Hop0]%Hrest.
    destruct (tr_call _ _ _ _ _ (Hinv _ _ Hop0)) as (c' & _ & hh1 & hh2 & n' & Hh & He & Hw).
    apply clocked_hist in Hc as (l & -> & _).
    by apply (Hf call (l ++ w_hist w)%list n c' hh1 (l ++ hh2)%list n' Hn); [rewrite Hh, app_assoc|..].
  - eexists. apply ends_failed.
  - eexists. apply ends_failed.
Qed.

(** Every acceptable input makes a step. *)
Lemma vstep_progress ms evs w i :
  fresh_ids -> vrun ms evs w -> input_ok i -> exists evs' w', vstep w i evs' w'.
Proof.
  intros Hf Hrun Hi. pose proof (served_inv env ms w (vrun_served _ _ _ Hrun)) as Hinv.
  destruct w as [s h]. destruct i as [m|id rt data].
  - destruct Hi as [[ctx tag] Hk].
    assert (Ht : msg_tag m <> MSG_STORAGE_RESULT) by (intros Ht; unfold request_kind in Hk; by rewrite Ht in Hk).
    destruct (request_outcome env m ctx tag Ht Hk (mk_World s h)) as (r & w' & Hc & Ho).
    destruct (outcome_ends (ctx, tag) (fun _ => True) (opens m) ms (mk_World s h) s r w') as [evs' He]; try done.
    { intros c op Hop. split; [|done]. by rewrite (on_kind _ _ _ Hop). }
    eexists _, w'. by eapply vs_request.
  - destruct Hi as (Hid & Hrt & Hlen).
    assert (Hon : forall w, on_message env (result_message id rt data) w =
      handle_storage_result env (result_message id rt data) w) by done.
    unfold handle_storage_result in Hon. cbn [msg_data result_message] in Hon.
    rewrite parse_result in Hon by done.
    destruct (pending_ops s !! id) as [op|] eqn:Hop.
    + destruct (proj1 Hinv id op Hop) as [Hok _ (m0 & _ & [[ctx tag] Hk0] & Hkd & _) _ _]. rewrite Hk0 in Hkd.
      set (rest := set_pending (delete id (pending_ops s)) s).
      destruct (dispatch_outcome env op rt data ctx tag Hok Hkd (mk_World rest h)) as (r & w' & Hc & Ho).
      destruct (outcome_ends (ctx, tag) (fun op' => op_rank op' < op_rank op)%nat (follows op rt data) ms
        (mk_World s h) rest r w') as [evs' He]; try done.
      { intros id' [op' Hop']. simpl in Hop'. apply lookup_delete_Some in Hop' as [_ ?]. by eexists. }
      { intros c op' [_ Hk' Hr' _ _ _ _ _]. split; [congruence|done]. }
      eexists _, w'. eapply vs_result; [done|done| |done]. rewrite Hon. unfold m_bind, m_get, m_modify. simpl.
      by rewrite Hop.
    + eexists _, _. apply vs_unknown; [done|]. rewrite Hon. unfold m_bind, m_get. simpl. by rewrite Hop.
Qed.

(** ** Conservation *)
Lemma ends_count k0 P s h r w' evs k :
  ends k0 P s h r w' evs ->
  asked k evs = 0%nat /\
  (settled k evs + waiting k (w_svc w') = (if decide (k0 = k) then 1 else 0) + waiting k s)%nat.
Proof.
  intros He. destruct He as [h h1 h' response data Hc Hv Hd|h h' id op Hk HP Hid|h h' e]; simpl.
  - split; [done|]. unfold settled. simpl. unfold filter, list_filter. cbn. by case_decide.
  - split; [done|]. rewrite waiting_insert by done. rewrite Hk. unfold settled. simpl.
    destruct (decide (k0 = k)) as [->|Hne]; [by rewrite decide_True|].
    by rewrite decide_False by congruence.
  - split; [done|]. unfold settled, filter, list_filter. cbn. by case_decide.
Qed.

Lemma vstep_count w i evs w' k :
  vstep w i evs w' -> (asked k evs + waiting k (w_svc w) = settled k evs + waiting k (w_svc w'))%nat.
Proof.
  intros Hs. destruct Hs as [w m k0 r w' evs Hk Hc He|w id rt data op k0 r w' evs Hop Hk Hc He|w id rt data Hop Hc].
  - destruct (ends_count _ _ _ _ _ _ _ k He) as [Ha Hw].
    rewrite asked_cons.
    assert (settled k (Ev_asked k0 :: evs) = settled k evs) as -> by done. lia.
  - destruct (ends_count _ _ _ _ _ _ _ k He) as [Ha Hw]. rewrite (waiting_delete k _ _ _ Hop), Hk.
    rewrite Ha. destruct (decide (k0 = k)) as [->|Hne]; [rewrite decide_True by done; lia|].
    rewrite decide_False by congruence. lia.
  - done.
Qed.

Lemma vrun_count ms evs w k :
  vrun ms evs w -> asked k evs = (settled k evs + waiting k (w_svc w))%nat.
Proof.
  induction 1 as [r w Hi|ms evs w i evs' w' _ IH _ Hs].
  - unfold vfs_init, m_bind, m_call, m_modify, m_ret in Hi. simplify_eq/=. done.
  - rewrite asked_app, settled_app. pose proof (vstep_count _ _ _ _ k Hs). lia.
Qed.

(** ** Draining *)
Lemma vstep_rank ms evs w id rt data evs' w' :
  vrun ms evs w -> is_Some (pending_ops (w_svc w) !! id) -> vstep w (In_result id rt data) evs' w' ->
  (total_rank (w_svc w') < total_rank (w_svc w))%nat /\ forall k, asked k evs' = 0%nat.
Proof.
  intros Hrun [op0 Hop0] Hs.
  assert (Hok : op_ok op0) by (by eapply tr_ok, (served_inv env ms w); [eapply vrun_served|]).
  remember (In_result id rt data) as i eqn:Hi.
  destruct Hs as [|w id' rt' data' op k0 r w' evs' Hop Hk Hc He|]; simplify_eq. split.
  - rewrite (total_rank_delete _ _ _ Hop0). pose proof (op_rank_pos _ Hok).
    inversion He as [| ? ? id' op' Hk' Hr' Hid'|]; subst; cbn [w_svc]; [lia| |lia].
    rewrite total_rank_insert by done. lia.
  - intros k. by apply (ends_count _ _ _ _ _ _ _ k He).
Qed.

(** Answer pending operations, chosen and answered by [next], until none is left. *)
Fixpoint drain (next : World -> Z * Z * list byte) (fuel : nat) (w : World) : option World :=
  if decide (pending_ops (w_svc w) = ∅) then Some w
  else
    match fuel with
    | O => None
    | S fuel' =>
        let '(id, rt, data) := next w in
        match on_message env (result_message id rt data) w with
        | Some (_, w') => drain next fuel' w'
        | None => None
        end
    end.

(** A choice of a pending operation and of a result for it. *)
Definition answers_pending (next : World -> Z * Z * list byte) : Prop :=
  forall w, pending_ops (w_svc w) <> ∅ ->
    (forall id, is_Some (pending_ops (w_svc w) !! id) -> 0 <= id < 2 ^ 32) ->
    let '(id, rt, data) := next w in
    is_Some (pending_ops (w_svc w) !! id) /\ input_ok (In_result id rt data).

Lemma total_rank_0 ms evs w : vrun ms evs w -> total_rank (w_svc w) = 0%nat -> pending_ops (w_svc w) = ∅.
Proof.
  intros Hrun Hr. apply map_empty. intros id. destruct (pending_ops (w_svc w) !! id) as [op|] eqn:Hop; [|done].
  assert (Hok : op_ok op) by (by eapply tr_ok, (served_inv env ms w); [eapply vrun_served|]).
  pose proof (op_rank_pos _ Hok). rewrite (total_rank_delete _ _ _ Hop) in Hr. lia.
Qed.

Lemma pending_range ms evs w :
  vrun ms evs w -> forall id, is_Some (pending_ops (w_svc w) !! id) -> 0 <= id < 2 ^ 32.
Proof.
  intros Hrun id [op Hop]. destruct (tr_call _ _ _ _ _ (proj1 (served_inv env ms w (vrun_served _ _ _ Hrun)) _ _ Hop))
    as (c & _ & h1 & h2 & n & _ & _ & <-). unfold wrap_u32. apply Z.mod_pos_bound. lia.
Qed.

Lemma vstep_on_message w id rt data evs w' :
  vstep w (In_result id rt data) evs w' -> exists r, on_message env (result_message id rt data) w = Some (r, w').
Proof. intros Hs. inversion Hs; subst; by eexists. Qed.

Lemma drain_run next fuel ms evs w :
  fresh_ids -> answers_pending next -> vrun ms evs w -> (total_rank (w_svc w) <= fuel)%nat ->
  exists ms' evs' w', drain next fuel w = Some w' /\ pending_ops (w_svc w') = ∅ /\
    vrun (ms' ++ ms)%list (evs ++ evs')%list w' /\ forall k, asked k evs' = 0%nat.
Proof.
  intros Hf Hn. revert ms evs w. induction fuel as [|fuel IH]; intros ms evs w Hrun Hr.
  - exists [], [], w. pose proof (total_rank_0 _ _ _ Hrun ltac:(lia)) as He. rewrite app_nil_r.
    simpl. by rewrite decide_True.
  - cbn [drain]. case_decide as He; [exists [], [], w; by rewrite app_nil_r|].
    specialize (Hn w He (pending_range _ _ _ Hrun)). destruct (next w) as [[id rt] data]. destruct Hn as [Hid Hi].
    destruct (vstep_progress ms evs w _ Hf Hrun Hi) as (evs1 & w1 & Hs).
    destruct (vstep_rank _ _ _ _ _ _ _ _ Hrun Hid Hs) as [Hlt Ha].
    destruct (vstep_on_message _ _ _ _ _ _ Hs) as [r Hc]. rewrite Hc.
    destruct (IH _ _ _ (vr_step _ _ _ _ _ _ Hrun Hi Hs) ltac:(lia)) as (ms2 & evs2 & w2 & Hd & Hp & Hrun2 & Ha2).
    exists (ms2 ++ [message_of (In_result id rt data)])%list, (evs1 ++ evs2)%list, w2.
    rewrite <- !app_assoc in *. split_and!; [done..|]. intros k. by rewrite asked_app, Ha, Ha2.
Qed.
End live.
