(* ===== verification/VfsStore.v ===== *)
(** * A serialization for the VFS service

    The laws the service relies on (serde_json reads back what it wrote and
    serializes the service's types without failing), and an instance that
    satisfies them: records are lists of numbers, and a number is the bytes of
    its bits. *)
From S2P Require Import Prelude StrLib VfsPath VfsService.

Local Open Scope string_scope.
Local Open Scope Z_scope.

Class VfsJsonLaws (J : VfsJson) : Prop := {
  inode_serializes : forall i, exists v, inode_to_vec i = Ok v /\ inode_from_slice v = Ok i;
  response_serializes : forall r, exists v, response_to_vec r = Ok v }.

(** ** Numbers as bytes *)
Fixpoint bits (p : positive) : list byte :=
  match p with
  | xH => []
  | xO p => x00 :: bits p
  | xI p => x01 :: bits p
  end.

Fixpoint unbits (l : list byte) : positive :=
  match l with
  | [] => xH
  | b :: l => if Z_of_byte b =? 0 then xO (unbits l) else xI (unbits l)
  end.

Lemma unbits_bits p : unbits (bits p) = p.
Proof. induction p as [p IH|p IH|]; simpl; by rewrite ?IH. Qed.

Definition to_bytes (fields : list positive) : list byte := bits (positives_flatten fields).

Definition of_bytes (l : list byte) : option (list positive) := positives_unflatten (unbits l).

Lemma of_to_bytes fields : of_bytes (to_bytes fields) = Some fields.
Proof. unfold of_bytes, to_bytes. rewrite unbits_bits. apply positives_unflatten_flatten. Qed.

(** ** Inodes *)
#[export] Instance byte_countable : Countable byte := inj_countable' Z_of_byte byte_of_Z byte_of_Z_of_byte.

Definition string_field (s : string) : positive := encode (str_bytes s).
Definition of_string_field (p : positive) : option string := String.string_of_list_byte <$> decode p.

Lemma of_string_fieldK s : of_string_field (string_field s) = Some s.
Proof. unfold of_string_field, string_field. rewrite decode_encode. simpl. f_equal. apply String.string_of_list_byte_of_string. Qed.

Definition type_fields (t : InodeType) : positive * positive :=
  match t with
  | IT_File => (1%positive, 1%positive)
  | IT_Directory => (2%positive, 1%positive)
  | IT_SymLink target => (3%positive, string_field target)
  end.

Definition of_type_fields (a b : positive) : option InodeType :=
  match a with
  | 1%positive => Some IT_File
  | 2%positive => Some IT_Directory
  | _ => IT_SymLink <$> of_string_field b
  end.

Definition permission_list (p : FilePermissions) : list bool :=
  [owner_read p; owner_write p; owner_execute p; system_read p; system_write p; world_read p; world_write p].

Definition of_permission_list (l : list bool) : option FilePermissions :=
  match l with
  | [a; b; c; d; e; f; g] => Some (mk_FilePermissions a b c d e f g)
  | _ => None
  end.

Definition inode_fields (i : Inode) : list positive :=
  [string_field (ino_path i); string_field (ino_parent_path i); string_field (ino_name i);
   (type_fields (ino_type i)).1; (type_fields (ino_type i)).2; encode (ino_owner_id i);
   encode (permission_list (ino_permissions i)); encode (ino_created_at i); encode (ino_modified_at i);
   encode (ino_accessed_at i); encode (ino_size i); encode (ino_encrypted i); encode (ino_content_hash i)].

Definition of_inode_fields (l : list positive) : option Inode :=
  match l with
  | [a; b; c; d; e; f; g; h; i; j; k; m; n] =>
      path ← of_string_field a; parent ← of_string_field b; name ← of_string_field c;
      ty ← of_type_fields d e; owner ← decode f; perms ← decode g ≫= of_permission_list;
      created ← decode h; modified ← decode i; accessed ← decode j; size ← decode k;
      encrypted ← decode m; hash ← decode n;
      Some (mk_Inode path parent name ty owner perms created modified accessed size encrypted hash)
  | _ => None
  end.

Lemma of_type_fieldsK t : of_type_fields (type_fields t).1 (type_fields t).2 = Some t.
Proof. destruct t; simpl; [done..|]. by rewrite of_string_fieldK. Qed.

Lemma of_inode_fieldsK i : of_inode_fields (inode_fields i) = Some i.
Proof.
  destruct i as [path parent name ty owner perms created modified accessed size encrypted hash].
  unfold of_inode_fields, inode_fields. cbn [ino_path ino_parent_path ino_name ino_type ino_owner_id
    ino_permissions ino_created_at ino_modified_at ino_accessed_at ino_size ino_encrypted ino_content_hash].
  rewrite !of_string_fieldK, of_type_fieldsK, !decode_encode. simpl. by destruct perms.
Qed.

(** ** Requests and responses *)
Definition or_invalid {T} (o : option T) : result T string :=
  match o with Some x => Ok x | None => Err "invalid" end.

(** A path and the remaining fields. *)
Definition request_fields {T} (f : string -> list positive -> option T) (l : list byte) : result T string :=
  or_invalid (match of_bytes l with
              | Some (p :: rest) => match of_string_field p with Some path => f path rest | None => None end
              | _ => None
              end).

Definition flag_field (k : bool -> option MkdirRequest) (rest : list positive) : option MkdirRequest :=
  match rest with [b] => match decode b with Some b => k b | None => None end | _ => None end.

Definition error_code (e : VfsError) : byte :=
  match e with
  | VfsNotFound => x01 | VfsAlreadyExists => x02 | VfsNotADirectory => x03 | VfsNotAFile => x04
  | VfsDirectoryNotEmpty => x05 | VfsPermissionDenied => x06 | VfsInvalidPath _ => x07
  | VfsInvalidRequest _ => x08 | VfsStorage _ _ => x09 | VfsStorageError _ => x0a
  | VfsQuotaExceeded => x0b | VfsFileTooLarge => x0c | VfsEncryptionError _ => x0d
  | VfsDecryptionError _ => x0e | VfsIoError _ => x0f | VfsNotSupported _ => x10
  end.

Definition result_bytes {T} (f : T -> list byte) (r : result T VfsError) : list byte :=
  match r with Ok x => x00 :: f x | Err e => [xff; error_code e] end.

Definition response_bytes (r : VfsResponse) : list byte :=
  match r with
  | MkdirResponse r | RmdirResponse r | WriteFileResponse r | UnlinkResponse r => result_bytes (fun _ => []) r
  | ReaddirResponse r => result_bytes (fun l => mjoin (map (fun e => str_bytes (de_path e) ++ [x0a])%list l)) r
  | ReadFileResponse r => result_bytes id r
  | StatResponse r => result_bytes (fun i => to_bytes (inode_fields i)) r
  | ExistsResponse r => result_bytes (fun b => [if b : bool then x01 else x00]) r
  end.

#[export] Instance bit_json : VfsJson := {|
  mkdir_request_from_slice := request_fields (fun path => flag_field (fun b => Some (mk_MkdirRequest path b)));
  rmdir_request_from_slice := request_fields (fun path _ => Some (mk_RmdirRequest path false));
  readdir_request_from_slice := request_fields (fun path _ => Some (mk_ReaddirRequest path));
  write_request_from_slice := request_fields (fun path rest =>
    match rest with
    | [c] => match decode c with Some content => Some (mk_WriteFileRequest path content false) | None => None end
    | _ => None
    end);
  read_request_from_slice := request_fields (fun path _ => Some (mk_ReadFileRequest path None None));
  unlink_request_from_slice := request_fields (fun path _ => Some (mk_UnlinkRequest path));
  stat_request_from_slice := request_fields (fun path _ => Some (mk_StatRequest path));
  exists_request_from_slice := request_fields (fun path _ => Some (mk_ExistsRequest path));
  inode_from_slice := fun l => or_invalid (match of_bytes l with Some f => of_inode_fields f | None => None end);
  keys_from_slice := fun l => or_invalid (match of_bytes l with Some f => mapM of_string_field f | None => None end);
  inode_to_vec := fun i => Ok (to_bytes (inode_fields i));
  response_to_vec := fun r => Ok (response_bytes r) |}.

#[export] Instance bit_json_laws : VfsJsonLaws bit_json.
Proof.
  split.
  - intros i. eexists. split; [done|]. simpl. by rewrite of_to_bytes, of_inode_fieldsK.
  - intros r. by eexists.
Qed.

(** * VFS service over a store that remembers

    A key-value store answers each storage call of the service; [serve] feeds the
    results back until the service has answered its client. *)
From S2P Require Import VfsHandlers VfsOutcome Bridge Init InitProps VfsLive.

Local Open Scope string_scope.
Local Open Scope Z_scope.

Abbreviation Store := (gmap string (list byte)).

(** The result of a storage call, as the supervisor's notifications report it. *)
Definition perform (list_json : list string -> list byte) (c : SysCall) (st : Store) : option (Z * list byte * Store) :=
  match c with
  | Sys_StorageRead key =>
      match st !! key with
      | Some v => Some (READ_OK, v, st)
      | None => Some (ST_NOT_FOUND, [], st)
      end
  | Sys_StorageWrite key v => Some (WRITE_OK, [], <[key := v]> st)
  | Sys_StorageDelete key => Some (WRITE_OK, [], delete key st)
  | Sys_StorageExists key => Some (EXISTS_OK, [if decide (is_Some (st !! key)) then x01 else x00], st)
  | Sys_StorageList prefix => Some (LIST_OK, list_json (filter (fun k => starts_with prefix k = true) (sbtree_keys st)), st)
  | _ => None
  end.

Section store.
Context `{Target} {J : VfsJson} (env : Env) (list_json : list string -> list byte).

(** Deliver [m]; while the newest call is a storage call, answer it. *)
Fixpoint serve (fuel : nat) (m : Message) (st : Store) (w : World) : option (Store * World) :=
  match fuel with
  | O => None
  | S fuel' =>
      match on_message env m w with
      | Some (Ok _, w') =>
          match w_hist w' with
          | c :: _ =>
              match perform list_json c st, env_storage env (w_hist w') with
              | Some (rt, data, st'), Ok id => serve fuel' (result_message (wrap_u32 id) rt data) st' w'
              | Some _, Err _ => None
              | None, _ => Some (st, w')
              end
          | [] => Some (st, w')
          end
      | _ => None
      end
  end.

(** Storage accepts every call. *)
Definition accepts_calls : Prop := forall h, exists n, env_storage env h = Ok n.

(** A started operation: the call is recorded and the operation waits for its identifier. *)
Lemma start_ok call what op s h n :
  Z.of_nat (size (pending_ops s)) < MAX_PENDING_OPS -> env_storage env (call :: h) = Ok n ->
  start_storage env call what op (mk_World s h) =
  Some (Ok tt, mk_World (set_pending (<[wrap_u32 n := op]> (pending_ops s)) s) (call :: h)).
Proof.
  intros Hs Hn. unfold start_storage, m_bind, m_get, m_call, m_modify, m_ret. simpl. cbn [w_svc w_hist].
  rewrite (proj2 (Z.leb_gt _ _)) by done. cbn [w_svc w_hist]. by rewrite Hn.
Qed.

(** A result reaches the operation that waits for it. *)
Lemma result_dispatch id op rt data s h :
  pending_ops s !! id = Some op -> 0 <= id < 2 ^ 32 -> 0 <= rt < 256 -> 9 + len data < 2 ^ 32 ->
  on_message env (result_message id rt data) (mk_World s h) =
  dispatch_op env op rt data (mk_World (set_pending (delete id (pending_ops s)) s) h).
Proof.
  intros Hop Hid Hrt Hlen.
  change (on_message env (result_message id rt data) (mk_World s h)) with
    (handle_storage_result env (result_message id rt data) (mk_World s h)).
  unfold handle_storage_result. cbn [msg_data result_message]. rewrite parse_result by done.
  unfold m_bind, m_get, m_modify. simpl. by rewrite Hop.
Qed.

(** Serving a message whose handler starts a storage call. *)
Lemma serve_call fuel m st s h call rt data st' n op :
  on_message env m (mk_World s h) =
    Some (Ok tt, mk_World (set_pending (<[wrap_u32 n := op]> (pending_ops s)) s) (call :: h)) ->
  env_storage env (call :: h) = Ok n -> perform list_json call st = Some (rt, data, st') ->
  serve (S fuel) m st (mk_World s h) =
  serve fuel (result_message (wrap_u32 n) rt data) st'
    (mk_World (set_pending (<[wrap_u32 n := op]> (pending_ops s)) s) (call :: h)).
Proof. intros Hm Hn Hp. cbn [serve]. rewrite Hm. cbn [w_hist]. by rewrite Hp, Hn. Qed.

(** Serving a result whose operation starts the next call; [h0] is the history
    after the readings of the clock. *)
Lemma serve_next fuel id op rt data st s h h0 call what op' rt' data' st' n :
  pending_ops s !! id = Some op -> 0 <= id < 2 ^ 32 -> 0 <= rt < 256 -> 9 + len data < 2 ^ 32 ->
  dispatch_op env op rt data (mk_World (set_pending (delete id (pending_ops s)) s) h) =
    start_storage env call what op' (mk_World (set_pending (delete id (pending_ops s)) s) h0) ->
  Z.of_nat (size (delete id (pending_ops s))) < MAX_PENDING_OPS ->
  env_storage env (call :: h0) = Ok n -> perform list_json call st = Some (rt', data', st') ->
  serve (S fuel) (result_message id rt data) st (mk_World s h) =
  serve fuel (result_message (wrap_u32 n) rt' data') st'
    (mk_World (set_pending (<[wrap_u32 n := op']> (delete id (pending_ops s))) s) (call :: h0)).
Proof.
  intros Hop Hid Hrt Hlen Hd Hsz Hn Hp. cbn [serve].
  rewrite (result_dispatch _ op), Hd, (start_ok _ _ _ _ _ n) by done. cbn [w_hist]. by rewrite Hp, Hn.
Qed.

(** Serving a result whose operation answers. *)
Lemma serve_answer fuel id op rt data st s h s' h' :
  pending_ops s !! id = Some op -> 0 <= id < 2 ^ 32 -> 0 <= rt < 256 -> 9 + len data < 2 ^ 32 ->
  dispatch_op env op rt data (mk_World (set_pending (delete id (pending_ops s)) s) h) =
    Some (Ok tt, mk_World s' h') ->
  match h' with c :: _ => perform list_json c st = None | [] => True end ->
  serve (S fuel) (result_message id rt data) st (mk_World s h) = Some (st, mk_World s' h').
Proof.
  intros Hop Hid Hrt Hlen Hd Hh. cbn [serve]. rewrite (result_dispatch _ op), Hd by done. cbn [w_hist].
  destruct h' as [|c h']; [done|]. by rewrite Hh.
Qed.

(** A response leaves the state and is no storage call. *)
Lemma send_response_done ctx tag response data s h :
  response_to_vec response = Ok data ->
  exists h', send_response env ctx tag response (mk_World s h) = Some (Ok tt, mk_World s h') /\
    delivered env ctx tag data h h' /\ forall st, match h' with c :: _ => perform list_json c st = None | [] => True end.
Proof.
  intros Hv. unfold send_response. rewrite Hv. destruct (cc_reply_caps ctx) as [|slot rest] eqn:Hc.
  - eexists. split_and!; [reflexivity|apply del_debug|done].
  - unfold m_bind, m_call. simpl. cbn [w_hist w_svc].
    destruct (env_send env (Sys_Send slot tag data :: h)) as [[]|e] eqn:Hs; cbn [w_hist w_svc].
    + eexists. split_and!; [reflexivity|by eapply del_send|done].
    + eexists. split_and!; [reflexivity|by eapply del_fallback|done].
Qed.

(** ** Writing a file *)
Section file.
Context (Hcalls : accepts_calls) (path : string).

Lemma inserted_size (p : gmap Z PendingOp) id op :
  Z.of_nat (size p) < MAX_PENDING_OPS -> Z.of_nat (size (delete id (<[id := op]> p))) < MAX_PENDING_OPS.
Proof.
  intros Hs. rewrite delete_insert_eq. enough (size (delete id p) <= size p)%nat by lia.
  apply map_subseteq_size, delete_subseteq.
Qed.

(** The dispatch of the three results of a write. *)
Lemma write_checked ctx perm content parent_json parent w :
  inode_from_slice parent_json = Ok parent -> is_directory parent = true -> check_write parent perm = true ->
  dispatch_op env (WriteFileOp ctx path perm (WF_CheckingParent content)) READ_OK parent_json w =
  start_storage env (Sys_StorageWrite (content_key path) content) "write"
    (WriteFileOp ctx path perm (WF_WritingContent (len content))) w.
Proof.
  intros Hp Hd Hw. simpl. unfold handle_write_checking_parent. simpl. by rewrite Hp, Hd, Hw.
Qed.

Lemma write_content_done ctx perm n inode_json s h :
  inode_to_vec (Inode_new_file path (parent_path path) (rsplit_next "/" path) (pc_user_id perm) n None
    (env_clock env (Sys_Wallclock :: h))) = Ok inode_json ->
  dispatch_op env (WriteFileOp ctx path perm (WF_WritingContent n)) WRITE_OK [] (mk_World s h) =
  start_storage env (Sys_StorageWrite (inode_key path) inode_json) "write"
    (WriteFileOp ctx path perm WF_WritingInode) (mk_World s (Sys_Wallclock :: h)).
Proof.
  intros Hj. simpl. unfold handle_write_content_done. simpl. unfold m_bind, get_wallclock, m_call. cbn [w_hist w_svc].
  by rewrite Hj.
Qed.

Lemma serve_write `{!VfsJsonLaws J} m content encrypt st parent_json parent s h :
  msg_tag m = MSG_VFS_WRITE ->
  write_request_from_slice (msg_data m) = Ok (mk_WriteFileRequest path content encrypt) ->
  validate_path path = Ok tt -> path <> "/" -> len content <= MAX_CONTENT_SIZE ->
  st !! inode_key (parent_path path) = Some parent_json -> 9 + len parent_json < 2 ^ 32 ->
  inode_from_slice parent_json = Ok parent -> is_directory parent = true ->
  check_write parent (derive_permission_context (msg_from_pid m) path) = true ->
  Z.of_nat (size (pending_ops s)) < MAX_PENDING_OPS ->
  exists s' h1 h' clock inode_json data,
    serve 4 m st (mk_World s h) =
      Some (<[inode_key path := inode_json]> (<[content_key path := content]> st), mk_World s' h') /\
    inode_to_vec (Inode_new_file path (parent_path path) (rsplit_next "/" path)
      (pc_user_id (derive_permission_context (msg_from_pid m) path)) (len content) None (env_clock env clock)) =
      Ok inode_json /\
    response_to_vec (WriteFileResponse (Ok tt)) = Ok data /\
    delivered env (ClientContext_from_message m) MSG_VFS_WRITE_RESPONSE data h1 h' /\
    Z.of_nat (size (pending_ops s')) < MAX_PENDING_OPS.
Proof.
  intros Ht Hreq Hval Hroot Hlen Hpar Hpj Hparse Hdir Hw Hsz.
  set (ctx := ClientContext_from_message m). set (perm := derive_permission_context (msg_from_pid m) path).
  set (c1 := Sys_StorageRead (inode_key (parent_path path))). destruct (Hcalls (c1 :: h)) as [n1 Hn1].
  rewrite (serve_call 3 m st s h c1 READ_OK parent_json st n1
    (WriteFileOp ctx path perm (WF_CheckingParent content))); [|..|done|by cbn; rewrite Hpar].
  2: { unfold on_message. rewrite Ht. cbn. unfold handle_write. rewrite Hreq. cbn [write_path write_content].
       rewrite Hval, (proj2 (Z.ltb_ge _ _)) by done. rewrite (proj2 (String.eqb_neq _ _)) by done.
       unfold start_storage_read. by rewrite (start_ok _ _ _ _ _ n1). }
  set (c2 := Sys_StorageWrite (content_key path) content). destruct (Hcalls (c2 :: c1 :: h)) as [n2 Hn2].
  erewrite (serve_next 2); [|apply lookup_insert_eq|apply wrap_u32_range|done|done|
    by apply (write_checked ctx perm content parent_json parent)|by apply inserted_size|exact Hn2|reflexivity].
  set (h3 := Sys_Wallclock :: c2 :: c1 :: h).
  destruct (inode_serializes (Inode_new_file path (parent_path path) (rsplit_next "/" path) (pc_user_id perm)
    (len content) None (env_clock env h3))) as (inode_json & Hj & _).
  set (c3 := Sys_StorageWrite (inode_key path) inode_json). destruct (Hcalls (c3 :: h3)) as [n3 Hn3].
  erewrite (serve_next 1); [|apply lookup_insert_eq|apply wrap_u32_range|done|done|
    by apply (write_content_done ctx perm (len content) inode_json)|by apply inserted_size, inserted_size|exact Hn3|reflexivity].
  destruct (response_serializes (WriteFileResponse (Ok tt))) as [data Hdata].
  edestruct (send_response_done ctx MSG_VFS_WRITE_RESPONSE (WriteFileResponse (Ok tt)) data) as (h' & Hsend & Hdel & Hno);
    [done|].
  erewrite (serve_answer 0); [|apply lookup_insert_eq|apply wrap_u32_range|done|done|exact Hsend|apply Hno].
  eexists _, _, h', h3, inode_json, data. split_and!; [reflexivity|done|done|exact Hdel|].
  by apply inserted_size, inserted_size, inserted_size.
Qed.

(** ** Reading a file *)
Lemma read_checked ctx perm inode_json inode w :
  inode_from_slice inode_json = Ok inode -> is_file inode = true -> check_read inode perm = true ->
  dispatch_op env (GetInode ctx path IO_ReadFile perm) READ_OK inode_json w =
  start_storage env (Sys_StorageRead (content_key path)) "read" (GetContent ctx path perm) w.
Proof. intros Hp Hf Hr. simpl. unfold handle_read_file_inode_result. simpl. by rewrite Hp, Hf, Hr. Qed.

Lemma serve_read `{!VfsJsonLaws J} m request st inode_json inode content s h :
  msg_tag m = MSG_VFS_READ -> read_request_from_slice (msg_data m) = Ok request -> read_path request = path ->
  validate_path path = Ok tt ->
  st !! inode_key path = Some inode_json -> 9 + len inode_json < 2 ^ 32 ->
  inode_from_slice inode_json = Ok inode -> is_file inode = true ->
  check_read inode (derive_permission_context (msg_from_pid m) path) = true ->
  st !! content_key path = Some content -> 9 + len content < 2 ^ 32 ->
  Z.of_nat (size (pending_ops s)) < MAX_PENDING_OPS ->
  exists s' h1 h' data,
    serve 3 m st (mk_World s h) = Some (st, mk_World s' h') /\
    response_to_vec (ReadFileResponse (Ok content)) = Ok data /\
    delivered env (ClientContext_from_message m) MSG_VFS_READ_RESPONSE data h1 h'.
Proof.
  intros Ht Hreq Hpath Hval Hi Hij Hparse Hf Hr Hc Hcl Hsz.
  set (ctx := ClientContext_from_message m). set (perm := derive_permission_context (msg_from_pid m) path).
  set (c1 := Sys_StorageRead (inode_key path)). destruct (Hcalls (c1 :: h)) as [n1 Hn1].
  rewrite (serve_call 2 m st s h c1 READ_OK inode_json st n1 (GetInode ctx path IO_ReadFile perm));
    [|..|done|by cbn; rewrite Hi].
  2: { unfold on_message. rewrite Ht. cbn. unfold handle_read. rewrite Hreq, Hpath, Hval.
       unfold start_storage_read. by rewrite (start_ok _ _ _ _ _ n1). }
  set (c2 := Sys_StorageRead (content_key path)). destruct (Hcalls (c2 :: c1 :: h)) as [n2 Hn2].
  erewrite (serve_next 1); [|apply lookup_insert_eq|apply wrap_u32_range|done|done|
    by apply (read_checked ctx perm inode_json inode)|by apply inserted_size|exact Hn2|by cbn; rewrite Hc].
  destruct (response_serializes (ReadFileResponse (Ok content))) as [data Hdata].
  edestruct (send_response_done ctx MSG_VFS_READ_RESPONSE (ReadFileResponse (Ok content)) data)
    as (h' & Hsend & Hdel & Hno); [done|].
  erewrite (serve_answer 0); [|apply lookup_insert_eq|apply wrap_u32_range|done|done|exact Hsend|apply Hno].
  eexists _, _, h', data. split_and!; [reflexivity|done|exact Hdel].
Qed.
End file.
End store.

(** The keys of contents and of inodes differ. *)
Lemma content_inode_key p q : content_key p <> inode_key q.
Proof. done. Qed.
