(* ===== verification/VfsProps.v ===== *)
(** * VFS service: properties

    Every change of storage has its warrant; every request is settled; what is
    written can be read. *)
From S2P Require Import Prelude StrLib VfsPath VfsService VfsHandlers VfsOutcome Bridge Init InitProps VfsLive VfsStore.

Local Open Scope string_scope.
Local Open Scope Z_scope.

(** C12: In every run of the service, over any messages (forged ones included) and
    any answers of the system, each write or delete it asks of storage carries out
    a request it received: a write request for that path and with that content, a
    mkdir, an unlink or a rmdir of that path; and the service received a result of
    its own read of the inode that decides about it (the parent directory for a
    write and a mkdir, the file or the directory itself for a removal) that passes
    the type and the permission check for the process that made the request. The
    only exception is the creation of the directories on the way by a mkdir with
    parents that was asked for. *)
Theorem vfs_changes_warranted `{Target} {J : VfsJson} env ms w c :
  served env ms w -> c ∈ w_hist w -> is_Some (mutation_key c) -> warrant env ms (w_hist w) c.
Proof. intros Hs Hc [key Hk]. by eapply (served_inv env ms w Hs). Qed.

(** C20: Requests are settled: as long as request identifiers are fresh, storage
    results for the pending operations, chosen in any order and with any result
    type and data, lead in at most [total_rank] steps to a state without pending
    operations, and then each kind of request has been answered, or reported as
    failed, exactly as often as it was asked. *)
Theorem vfs_requests_settled `{Target} {J : VfsJson} env next ms evs w :
  fresh_ids env -> answers_pending next -> vrun env ms evs w ->
  exists ms' evs' w',
    drain env next (total_rank (w_svc w)) w = Some w' /\ pending_ops (w_svc w') = ∅ /\
    vrun env (ms' ++ ms)%list (evs ++ evs')%list w' /\
    forall k, asked k evs = settled k (evs ++ evs')%list.
Proof.
  intros Hf Hn Hrun.
  destruct (drain_run env next (total_rank (w_svc w)) ms evs w Hf Hn Hrun ltac:(lia))
    as (ms' & evs' & w' & Hd & Hp & Hrun' & Ha).
  exists ms', evs', w'. split_and!; [done..|]. intros k.
  pose proof (vrun_count env _ _ _ k Hrun') as Hc. rewrite asked_app, Ha in Hc. unfold waiting in Hc.
  rewrite Hp in Hc. rewrite map_filter_empty, map_size_empty in Hc. lia.
Qed.

(** The inode a write creates. *)
Definition written_inode (pid : Z) (path : string) (size now : Z) : Inode :=
  Inode_new_file path (parent_path path) (rsplit_next "/" path)
    (pc_user_id (derive_permission_context pid path)) size None now.

Lemma written_readable pid1 pid2 path size now :
  pid2 < 10 \/ is_Some (extract_user_id_from_path path) ->
  check_read (written_inode pid1 path size now) (derive_permission_context pid2 path) = true.
Proof.
  intros Hr. unfold check_read, derive_permission_context, written_inode.
  destruct (pid2 <? 10) eqn:Hp; [done|]. apply Z.ltb_ge in Hp. destruct Hr as [Hr|[u Hu]]; [lia|].
  unfold owns, derive_permission_context. rewrite Hu. simpl.
  destruct (pid1 <? 10); simpl; by rewrite bool_decide_eq_true_2.
Qed.

(** C21: A file that was written is read back: over a store that remembers, a
    write request that passes the checks is answered with success after three
    storage calls, and a read of the path without offset and length is then answered
    with the content. The reader is a system process, or any process when the path
    names a user. *)
Theorem vfs_write_read `{Target} {J : VfsJson} `{!VfsJsonLaws J} env list_json m1 m2 path content encrypt
    st parent_json parent s h :
  accepts_calls env ->
  msg_tag m1 = MSG_VFS_WRITE -> write_request_from_slice (msg_data m1) = Ok (mk_WriteFileRequest path content encrypt) ->
  msg_tag m2 = MSG_VFS_READ -> read_request_from_slice (msg_data m2) = Ok (mk_ReadFileRequest path None None) ->
  validate_path path = Ok tt -> path <> "/" -> len content <= MAX_CONTENT_SIZE ->
  st !! inode_key (parent_path path) = Some parent_json -> 9 + len parent_json < 2 ^ 32 ->
  inode_from_slice parent_json = Ok parent -> is_directory parent = true ->
  check_write parent (derive_permission_context (msg_from_pid m1) path) = true ->
  msg_from_pid m2 < 10 \/ is_Some (extract_user_id_from_path path) ->
  (forall clock v, inode_to_vec (written_inode (msg_from_pid m1) path (len content) (env_clock env clock)) = Ok v ->
     9 + len v < 2 ^ 32) ->
  Z.of_nat (size (pending_ops s)) < MAX_PENDING_OPS ->
  exists st' w1 h1 data1 w2 h2 data2,
    serve env list_json 4 m1 st (mk_World s h) = Some (st', w1) /\
    response_to_vec (WriteFileResponse (Ok tt)) = Ok data1 /\
    delivered env (ClientContext_from_message m1) MSG_VFS_WRITE_RESPONSE data1 h1 (w_hist w1) /\
    serve env list_json 3 m2 st' w1 = Some (st', w2) /\
    response_to_vec (ReadFileResponse (Ok content)) = Ok data2 /\
    delivered env (ClientContext_from_message m2) MSG_VFS_READ_RESPONSE data2 h2 (w_hist w2).
Proof.
  intros Hcalls Ht1 Hreq1 Ht2 Hreq2 Hval Hroot Hlen Hpar Hpj Hparse Hdir Hw Hreader Hsmall Hsz.
  destruct (serve_write env list_json Hcalls path m1 content encrypt st parent_json parent s h Ht1 Hreq1 Hval Hroot
    Hlen Hpar Hpj Hparse Hdir Hw Hsz) as (s1 & h1 & h1' & clock & inode_json & data1 & Hs1 & Hj & Hd1 & Hdel1 & Hsz1).
  fold (written_inode (msg_from_pid m1) path (len content) (env_clock env clock)) in Hj.
  destruct (inode_serializes (written_inode (msg_from_pid m1) path (len content) (env_clock env clock)))
    as (v & Hv & Hback). rewrite Hj in Hv. injection Hv as <-.
  set (st' := <[inode_key path := inode_json]> (<[content_key path := content]> st)) in *.
  destruct (serve_read env list_json Hcalls path m2 (mk_ReadFileRequest path None None) st' inode_json
    (written_inode (msg_from_pid m1) path (len content) (env_clock env clock)) content s1 h1')
    as (s2 & h2 & h2' & data2 & Hs2 & Hd2 & Hdel2); try done.
  - apply lookup_insert_eq.
  - by apply (Hsmall clock).
  - by apply written_readable.
  - subst st'. rewrite lookup_insert_ne by (intros Hk; by apply (content_inode_key path path)).
    apply lookup_insert_eq.
  - unfold MAX_CONTENT_SIZE in Hlen. lia.
  - by eexists st', (mk_World s1 h1'), h1, data1, (mk_World s2 h2'), h2, data2.
Qed.

(** ** Instances *)

(** Storage that numbers its calls, as long as the numbers fit. *)
Definition numbering_env : Env :=
  mk_Env (fun h => if len h <? 2 ^ 32 then Ok (len h) else Err (-1)) (fun _ => Ok tt) (fun _ => 0).

Lemma numbering_fresh : fresh_ids numbering_env.
Proof.
  intros c h n c' h1 h2 n' Hn -> Hn'. unfold numbering_env, env_storage in Hn, Hn'.
  repeat case_match; simplify_eq. rewrite Z.ltb_lt in *. unfold wrap_u32.
  rewrite !Z.mod_small by (unfold len in *; lia). unfold len in *. simpl in *. rewrite length_app in *. simpl in *. lia.
Qed.

Definition root_inode : Inode :=
  mk_Inode "/" "" "" IT_Directory None world_rw 0 0 0 0 false None.

Definition demo_write : Message :=
  mk_Message MSG_VFS_WRITE 12 [3] (to_bytes [string_field "/notes"; encode [x68; x69]]).

Definition demo_parent : Message :=
  result_message 2 READ_OK (to_bytes (inode_fields root_inode)).

(** The worlds of a run. *)
Definition after (w : World) (m : Message) : World :=
  match @on_message wasm32 bit_json numbering_env m w with Some (_, w') => w' | None => w end.

Definition demo_start : World :=
  match vfs_init numbering_env (mk_World VfsService_default []) with Some (_, w) => w | None => mk_World VfsService_default [] end.

Definition demo_end : World := after (after demo_start demo_write) demo_parent.

Lemma demo_served : @served wasm32 bit_json numbering_env [demo_parent; demo_write] demo_end.
Proof.
  eapply (@served_message wasm32 bit_json _ _ (after demo_start demo_write) demo_parent (Ok tt)).
  - eapply (@served_message wasm32 bit_json _ _ demo_start demo_write (Ok tt)).
    + by eapply (@served_init wasm32 bit_json numbering_env (Ok tt)).
    + vm_compute. reflexivity.
  - vm_compute. reflexivity.
Qed.

Lemma vfs_changes_warranted_witness :
  @warrant wasm32 bit_json numbering_env [demo_parent; demo_write] (w_hist demo_end)
    (Sys_StorageWrite (content_key "/notes") [x68; x69]).
Proof.
  apply (@vfs_changes_warranted wasm32 bit_json numbering_env _ demo_end
    (Sys_StorageWrite (content_key "/notes") [x68; x69]) demo_served).
  - vm_compute. left.
  - by eexists.
Defined.

(** The first pending operation fails. *)
Definition fail_first (w : World) : Z * Z * list byte :=
  match map_to_list (pending_ops (w_svc w)) with
  | (id, _) :: _ => (id, ST_ERROR, [])
  | [] => (0, ST_ERROR, [])
  end.

Lemma fail_first_answers : answers_pending fail_first.
Proof.
  intros w He Hr. unfold fail_first. destruct (map_to_list (pending_ops (w_svc w))) as [|[id op] l] eqn:Hl.
  - by apply map_to_list_empty_iff in Hl.
  - assert (Hin : pending_ops (w_svc w) !! id = Some op)
      by (apply elem_of_map_to_list; rewrite Hl; by left).
    split; [by eexists|]. split; [by apply Hr; eexists|]. split; [done|]. done.
Qed.

Definition demo_kind : Kind := (ClientContext_from_message demo_write, MSG_VFS_WRITE_RESPONSE).

Lemma demo_run : exists evs, @vrun wasm32 bit_json numbering_env [demo_write] evs (after demo_start demo_write) /\
  asked demo_kind evs = 1%nat.
Proof.
  assert (Hi : @vrun wasm32 bit_json numbering_env [] [] demo_start)
    by (by eapply (@vr_init wasm32 bit_json numbering_env (Ok tt))).
  destruct (@vstep_progress wasm32 bit_json numbering_env [] [] demo_start (In_request demo_write)
    numbering_fresh Hi ltac:(by eexists)) as (evs & w' & Hs).
  assert (Hw : w' = after demo_start demo_write).
  { unfold after. inversion Hs as [? ? k r ? ? Hk Hc He| |]; subst. by rewrite Hc. }
  subst w'. exists ([] ++ evs)%list.
  split; [by apply (vr_step _ _ _ _ (In_request demo_write) _ _ Hi ltac:(by eexists) Hs)|].
  inversion Hs as [? ? k r ? evs' Hk Hc He| |]; subst.
  assert (k = demo_kind) as -> by (by injection Hk as <-).
  rewrite app_nil_l, asked_cons, decide_True by done.
  by rewrite (proj1 (ends_count _ _ _ _ _ _ _ _ demo_kind He)).
Qed.

Lemma vfs_requests_settled_witness :
  exists evs evs' w', @vrun wasm32 bit_json numbering_env [demo_write] evs (after demo_start demo_write) /\
    @drain wasm32 bit_json numbering_env fail_first 3 (after demo_start demo_write) = Some w' /\
    pending_ops (w_svc w') = ∅ /\ settled demo_kind (evs ++ evs')%list = 1%nat.
Proof.
  destruct demo_run as (evs & Hrun & Ha).
  destruct (@vfs_requests_settled wasm32 bit_json numbering_env fail_first [demo_write] evs
    (after demo_start demo_write) numbering_fresh fail_first_answers Hrun) as (ms' & evs' & w' & Hd & Hp & _ & Hk).
  exists evs, evs', w'. split; [exact Hrun|split; [exact Hd|split; [exact Hp|]]].
  rewrite <- Hk. exact Ha.
Defined.

(** Storage that never refuses. *)
Definition patient_env : Env := mk_Env (fun h => Ok (len h)) (fun _ => Ok tt) (fun _ => 0).

Definition demo_store : Store := {[ inode_key "/" := to_bytes (inode_fields root_inode) ]}.

Definition demo_read : Message :=
  mk_Message MSG_VFS_READ 5 [4] (to_bytes [string_field "/notes"]).

Lemma demo_write_request :
  write_request_from_slice (msg_data demo_write) = Ok (mk_WriteFileRequest "/notes" [x68; x69] false).
Proof. vm_compute. reflexivity. Qed.

Lemma demo_read_request : read_request_from_slice (msg_data demo_read) = Ok (mk_ReadFileRequest "/notes" None None).
Proof. vm_compute. reflexivity. Qed.

Lemma demo_root : inode_from_slice (to_bytes (inode_fields root_inode)) = Ok root_inode.
Proof. vm_compute. reflexivity. Qed.

Lemma demo_inode_size clock v :
  inode_to_vec (written_inode (msg_from_pid demo_write) "/notes" (len [x68; x69]) (env_clock patient_env clock)) = Ok v ->
  9 + len v < 2 ^ 32.
Proof. intros Hv. injection Hv as <-. vm_compute. reflexivity. Qed.

Lemma vfs_write_read_witness :
  exists st' w1 w2 h2,
    @serve wasm32 bit_json patient_env (fun _ => []) 4 demo_write demo_store (mk_World VfsService_default []) = Some (st', w1) /\
    @serve wasm32 bit_json patient_env (fun _ => []) 3 demo_read st' w1 = Some (st', w2) /\
    delivered patient_env (ClientContext_from_message demo_read) MSG_VFS_READ_RESPONSE [x00; x68; x69] h2 (w_hist w2).
Proof.
  destruct (@vfs_write_read wasm32 bit_json bit_json_laws patient_env (fun _ => []) demo_write demo_read "/notes" [x68; x69]
    false demo_store (to_bytes (inode_fields root_inode)) root_inode
    VfsService_default [] (fun h => ex_intro _ (len h) eq_refl) eq_refl demo_write_request eq_refl demo_read_request)
    as (st' & w1 & h1 & data1 & w2 & h2 & data2 & H1 & _ & _ & H2 & H3 & H4).
  - vm_compute. reflexivity.
  - discriminate.
  - vm_compute. discriminate.
  - vm_compute. reflexivity.
  - vm_compute. reflexivity.
  - exact demo_root.
  - reflexivity.
  - vm_compute. reflexivity.
  - left. vm_compute. reflexivity.
  - exact demo_inode_size.
  - vm_compute. reflexivity.
  - exists st', w1, w2, h2. split; [exact H1|split; [exact H2|]]. injection H3 as <-. exact H4.
Defined.

(** ** Behaviours the documentation does not describe *)
Definition mkdir_p (path : string) : Message :=
  mk_Message MSG_VFS_MKDIR 12 [3] (to_bytes [string_field path; encode true]).

Definition closed_store : Store :=
  {[ inode_key "/" := to_bytes (inode_fields (mk_Inode "/" "" "" IT_Directory None system_only 0 0 0 0 false None)) ]}.

(** mkdir with parents creates the target without its parents, in a directory the
    client may not write: a result that says a parent is absent counts as present,
    and no permission is checked. *)
Example mkdir_p_orphan :
  match @serve wasm32 bit_json patient_env (fun _ => []) 9 (mkdir_p "/a/b") closed_store (mk_World VfsService_default []) with
  | Some (st, _) => (bool_decide (is_Some (st !! inode_key "/a/b")), bool_decide (is_Some (st !! inode_key "/a")))
  | None => (false, false)
  end = (true, false).
Proof. vm_compute. reflexivity. Qed.

(** An application that writes outside a user's directory cannot read its file. *)
Example own_file_unreadable :
  match @serve wasm32 bit_json patient_env (fun _ => []) 4 demo_write demo_store (mk_World VfsService_default []) with
  | Some (st, w) =>
      match @serve wasm32 bit_json patient_env (fun _ => []) 3
              (mk_Message MSG_VFS_READ 12 [3] (to_bytes [string_field "/notes"])) st w with
      | Some (_, w') => head (w_hist w')
      | None => None
      end
  | None => None
  end = Some (Sys_Send 3 MSG_VFS_READ_RESPONSE (response_bytes (ReadFileResponse (Err VfsPermissionDenied)))).
Proof. vm_compute. reflexivity. Qed.

(** Any application owns every user's directory: the user is read from the path. *)
Example path_decides_user :
  derive_permission_context 99 "/home/7/secret" = mk_PermissionContext (Some 7) PC_Application.
Proof. vm_compute. reflexivity. Qed.

(** A forged result of nine bytes stops the service on a 32-bit target. *)
Example forged_result_panics :
  @parse_storage_result wasm32 (result_payload 1 READ_OK [] ++ [])%list = PR_Result 1 READ_OK [] /\
  @parse_storage_result wasm32 (u32_to_le_bytes 1 ++ [x00] ++ u32_to_le_bytes (2 ^ 32 - 1))%list = PR_Panic.
Proof. split; vm_compute; reflexivity. Qed.
