(* ===== verification/FrameRun.v ===== *)
(** * Physical frame allocator (crates/zos-hal/src/x86_64/vmm/frame_allocator.rs)

    The bitmap allocator, word by word as in the source, and its refinement to a
    set of free frames. A frame is named by its physical start address; indices
    count frames from [base_addr]. Sums of addresses are [u64] and wrap. *)
From S2P Require Import Prelude.

Local Open Scope Z_scope.

Definition PAGE_SIZE : Z := 4096.
Definition MAX_FRAMES : Z := 262144.

Record FrameAllocator : Type := mk_FrameAllocator {
  bitmap : list Z;
  base_addr : Z;
  total_frames : nat;
  free_frames : nat;
  next_frame : nat }.

Definition FrameAllocator_new : FrameAllocator := mk_FrameAllocator [] 0 0 0 0.

(** ** Words and bits *)
Definition word (bm : list Z) (i : nat) : Z := default 0 (bm !! i).

Definition bit_set (bm : list Z) (i : nat) : bool := Z.testbit (word bm (i / 64)) (Z.of_nat (i mod 64)).

Definition set_bit (i : nat) (bm : list Z) : list Z :=
  <[(i / 64)%nat := Z.setbit (word bm (i / 64)) (Z.of_nat (i mod 64))]> bm.

Definition clear_bit (i : nat) (bm : list Z) : list Z :=
  <[(i / 64)%nat := Z.clearbit (word bm (i / 64)) (Z.of_nat (i mod 64))]> bm.

(** [trailing_zeros] of a word that is not zero. *)
Definition trailing_zeros (w : Z) : nat :=
  match list_find (fun b => Z.testbit w (Z.of_nat b) = true) (seq 0 64) with
  | Some (_, b) => b
  | None => 64
  end.

(** ** Operations *)

(** [align_up] to a page: [(a + 4095) & !4095] on [u64]. *)
Definition align_page (a : Z) : Z := Z.land (wrap_u64 (a + PAGE_SIZE - 1)) (2 ^ 64 - PAGE_SIZE).

(** One iteration of the marking loop of [add_region]. *)
Definition mark_usable (fa : FrameAllocator) (i : nat) : FrameAllocator :=
  if (i / 64 <? length (bitmap fa))%nat && negb (bit_set (bitmap fa) i) then
    mk_FrameAllocator (set_bit i (bitmap fa)) (base_addr fa) (total_frames fa + 1) (free_frames fa + 1) (next_frame fa)
  else fa.

Definition add_region (start size : Z) (fa : FrameAllocator) : FrameAllocator :=
  let safe_start := if start <? 0x100000 then 0x100000 else start in
  let size := if start <? 0x100000 then Z.max 0 (size - (0x100000 - start)) else size in
  if size =? 0 then fa
  else
    let aligned_start := align_page safe_start in
    let aligned_size := Z.max 0 (size - wrap_u64 (aligned_start - safe_start)) in
    let num_frames := aligned_size / PAGE_SIZE in
    if num_frames =? 0 then fa
    else
      let fa :=
        if decide (bitmap fa = []) then
          mk_FrameAllocator (replicate (Z.to_nat ((MAX_FRAMES + 63) / 64)) 0) aligned_start (total_frames fa) (free_frames fa)
            (next_frame fa)
        else fa in
      if aligned_start <? base_addr fa then fa
      else
        let start_frame := (aligned_start - base_addr fa) / PAGE_SIZE in
        let end_frame := Z.min (start_frame + num_frames) (MAX_FRAMES) in
        if MAX_FRAMES <=? start_frame then fa
        else foldl mark_usable fa (seq (Z.to_nat start_frame) (Z.to_nat (end_frame - start_frame))).

(** The first frame of the first word that is not zero. *)
Fixpoint find_free (bm : list Z) (words : list nat) : option nat :=
  match words with
  | [] => None
  | k :: ks => if word bm k =? 0 then find_free bm ks else Some (k * 64 + trailing_zeros (word bm k))%nat
  end.

Definition frame_addr (fa : FrameAllocator) (i : nat) : Z := base_addr fa + Z.of_nat i * PAGE_SIZE.

Definition take_frame (i : nat) (fa : FrameAllocator) : option Z * FrameAllocator :=
  (Some (frame_addr fa i),
   mk_FrameAllocator (clear_bit i (bitmap fa)) (base_addr fa) (total_frames fa) (free_frames fa - 1) (i + 1)).

Definition allocate_frame (fa : FrameAllocator) : option Z * FrameAllocator :=
  if (free_frames fa =? 0)%nat then (None, fa)
  else
    let start_word := (next_frame fa / 64)%nat in
    match find_free (bitmap fa) (seq start_word (length (bitmap fa) - start_word)) with
    | Some i => take_frame i fa
    | None =>
        match find_free (bitmap fa) (seq 0 start_word) with
        | Some i => take_frame i fa
        | None => (None, fa)
        end
    end.

(** Marking a frame free, when it is in range and used. *)
Definition release (fa : FrameAllocator) (i : nat) : FrameAllocator :=
  if (i / 64 <? length (bitmap fa))%nat && negb (bit_set (bitmap fa) i) then
    mk_FrameAllocator (set_bit i (bitmap fa)) (base_addr fa) (total_frames fa) (free_frames fa + 1) (next_frame fa)
  else fa.

Definition free_frame (addr : Z) (fa : FrameAllocator) : FrameAllocator :=
  if addr <? base_addr fa then fa
  else release fa (Z.to_nat ((addr - base_addr fa) / PAGE_SIZE)).

(** The scan of [allocate_frames]: the start and the length of the current run. *)
Fixpoint scan_run (bm : list Z) (count : nat) (frames : list nat) (start : option nat) (consecutive : nat) : option nat :=
  match frames with
  | [] => None
  | i :: rest =>
      if bit_set bm i then
        let s := default i start in
        if (consecutive + 1 =? count)%nat then Some s else scan_run bm count rest (Some s) (consecutive + 1)
      else scan_run bm count rest None 0
  end.

Definition allocate_frames (count : nat) (fa : FrameAllocator) : option Z * FrameAllocator :=
  if (count =? 0)%nat || (free_frames fa <? count)%nat then (None, fa)
  else if (count =? 1)%nat then allocate_frame fa
  else
    match scan_run (bitmap fa) count (seq 0 (length (bitmap fa) * 64)) None 0 with
    | None => (None, fa)
    | Some s =>
        (Some (frame_addr fa s),
         mk_FrameAllocator (foldl (fun bm i => clear_bit i bm) (bitmap fa) (seq s count)) (base_addr fa)
           (total_frames fa) (free_frames fa - count) (next_frame fa))
    end.

Definition free_contiguous (addr : Z) (count : nat) (fa : FrameAllocator) : FrameAllocator :=
  if addr <? base_addr fa then fa
  else foldl release fa (seq (Z.to_nat ((addr - base_addr fa) / PAGE_SIZE)) count).

(** ** vmm/mod.rs: initialisation from the memory map *)
Inductive MemoryRegionKind : Type :=
| Usable | Reserved | AcpiReclaimable | AcpiNvs | BadMemory | BootloaderReserved | MRK_Kernel | MRK_Unknown.

#[export] Instance MemoryRegionKind_eq_dec : EqDecision MemoryRegionKind.
Proof. solve_decision. Defined.

Record MemoryRegionDescriptor : Type := mk_MemoryRegionDescriptor {
  mr_start : Z; mr_size : Z; mr_kind : MemoryRegionKind }.

Definition vmm_init_allocator (regions : list MemoryRegionDescriptor) : FrameAllocator :=
  foldl (fun fa r => if decide (mr_kind r = Usable) then add_region (mr_start r) (mr_size r) fa else fa)
    FrameAllocator_new regions.

(** * Frame allocator: no frame is handed out twice

    The bitmap denotes a set of free frames; each operation is the corresponding
    operation on the set. *)

Local Open Scope Z_scope.

(** ** Bits *)
Lemma word_insert bm k v j :
  (k < length bm)%nat -> word (<[k := v]> bm) j = if decide (j = k) then v else word bm j.
Proof.
  intros Hk. unfold word. case_decide as Hj; [subst; by rewrite list_lookup_insert_eq|].
  by rewrite list_lookup_insert_ne.
Qed.

Lemma div_mod_inj i j : (i / 64 = j / 64)%nat -> (i mod 64 = j mod 64)%nat -> i = j.
Proof. intros Hd Hm. rewrite (Nat.div_mod i 64), (Nat.div_mod j 64) by done. congruence. Qed.

Lemma bit_set_set bm i j :
  (i / 64 < length bm)%nat -> bit_set (set_bit i bm) j = bool_decide (j = i) || bit_set bm j.
Proof.
  intros Hi. unfold bit_set, set_bit. rewrite word_insert by done. case_decide as Hw.
  - rewrite Z.setbit_eqb, Hw by lia. f_equal. destruct (Z.eqb_spec (Z.of_nat (i mod 64)) (Z.of_nat (j mod 64))) as [He|He].
    + symmetry. apply bool_decide_eq_true. apply div_mod_inj; [done|lia].
    + symmetry. apply bool_decide_eq_false. intros ->. lia.
  - rewrite bool_decide_eq_false_2 by (intros ->; done). done.
Qed.

Lemma bit_set_clear bm i j :
  (i / 64 < length bm)%nat -> bit_set (clear_bit i bm) j = negb (bool_decide (j = i)) && bit_set bm j.
Proof.
  intros Hi. unfold bit_set, clear_bit. rewrite word_insert by done. case_decide as Hw.
  - rewrite Z.clearbit_eqb, Hw, andb_comm by lia. f_equal. f_equal.
    destruct (Z.eqb_spec (Z.of_nat (i mod 64)) (Z.of_nat (j mod 64))) as [He|He].
    + symmetry. apply bool_decide_eq_true. apply div_mod_inj; [done|lia].
    + symmetry. apply bool_decide_eq_false. intros ->. lia.
  - rewrite bool_decide_eq_false_2 by (intros ->; done). done.
Qed.

Lemma in_range_div i n : (i < n * 64)%nat <-> (i / 64 < n)%nat.
Proof.
  split; intros Hi; [apply Nat.Div0.div_lt_upper_bound; lia|].
  pose proof (Nat.div_mod i 64 ltac:(done)). pose proof (Nat.mod_upper_bound i 64 ltac:(done)). lia.
Qed.

(** ** The set of free frames *)
Definition free_set (bm : list Z) : gset nat :=
  filter (fun i => bit_set bm i = true) (set_seq 0 (length bm * 64)).

Lemma elem_of_free_set bm i : i ∈ free_set bm <-> (i < length bm * 64)%nat /\ bit_set bm i = true.
Proof. unfold free_set. rewrite elem_of_filter, elem_of_set_seq. naive_solver lia. Qed.

Lemma length_set_bit bm i : length (set_bit i bm) = length bm.
Proof. apply length_insert. Qed.

Lemma length_clear_bit bm i : length (clear_bit i bm) = length bm.
Proof. apply length_insert. Qed.

Lemma free_set_set bm i : (i < length bm * 64)%nat -> free_set (set_bit i bm) = {[i]} ∪ free_set bm.
Proof.
  intros Hi. apply set_eq. intros j. rewrite elem_of_union, elem_of_singleton, !elem_of_free_set, length_set_bit.
  rewrite bit_set_set by (by apply in_range_div). rewrite orb_true_iff, bool_decide_eq_true. naive_solver.
Qed.

Lemma free_set_clear bm i : (i < length bm * 64)%nat -> free_set (clear_bit i bm) = free_set bm ∖ {[i]}.
Proof.
  intros Hi. apply set_eq. intros j.
  rewrite elem_of_difference, elem_of_singleton, !elem_of_free_set, length_clear_bit.
  rewrite bit_set_clear by (by apply in_range_div). rewrite andb_true_iff, negb_true_iff, bool_decide_eq_false.
  naive_solver.
Qed.

(** ** Words *)
Definition u64_word (w : Z) : Prop := 0 <= w /\ forall n, 64 <= n -> Z.testbit w n = false.

Lemma word_bits w : u64_word w -> (forall b, (b < 64)%nat -> Z.testbit w (Z.of_nat b) = false) -> w = 0.
Proof.
  intros [H0 H1] Hb. apply Z.bits_inj_0. intros n. destruct (decide (n < 0)); [by apply Z.testbit_neg_r|].
  destruct (decide (n < 64)); [|apply H1; lia]. rewrite <- (Z2Nat.id n) by lia. apply Hb. lia.
Qed.

Lemma trailing_zeros_spec w :
  u64_word w -> w <> 0 -> (trailing_zeros w < 64)%nat /\ Z.testbit w (Z.of_nat (trailing_zeros w)) = true.
Proof.
  intros Hw Hz. unfold trailing_zeros. destruct (list_find _ _) as [[k b]|] eqn:Hf.
  - apply list_find_Some in Hf as (Hl & Hb & _). apply lookup_seq in Hl as [-> Hl]. split; [lia|done].
  - exfalso. apply Hz, word_bits; [done|]. intros b Hb. apply list_find_None in Hf. rewrite Forall_forall in Hf.
    apply not_true_iff_false. apply Hf, elem_of_seq. lia.
Qed.

Lemma u64_setbit w b : u64_word w -> (b < 64)%nat -> u64_word (Z.setbit w (Z.of_nat b)).
Proof.
  intros [H0 H1] Hb. split.
  - unfold Z.setbit. apply Z.lor_nonneg. split; [done|]. apply Z.shiftl_nonneg. lia.
  - intros n Hn. rewrite Z.setbit_eqb, H1 by lia. rewrite orb_false_r. apply Z.eqb_neq. lia.
Qed.

Lemma u64_clearbit w b : u64_word w -> u64_word (Z.clearbit w (Z.of_nat b)).
Proof.
  intros [H0 H1]. split.
  - unfold Z.clearbit. apply Z.ldiff_nonneg. by left.
  - intros n Hn. rewrite Z.clearbit_eqb, H1 by lia. done.
Qed.

Lemma u64_word_at bm k : Forall u64_word bm -> u64_word (word bm k).
Proof.
  intros Hb. unfold word. destruct (bm !! k) as [w|] eqn:Hk; simpl.
  - rewrite Forall_lookup in Hb. by eapply Hb.
  - split; [done|]. intros. apply Z.bits_0.
Qed.

Lemma set_bit_words bm i : Forall u64_word bm -> Forall u64_word (set_bit i bm).
Proof.
  intros Hb. apply Forall_insert; [done|]. apply u64_setbit; [by apply u64_word_at|by apply Nat.mod_upper_bound].
Qed.

Lemma clear_bit_words bm i : Forall u64_word bm -> Forall u64_word (clear_bit i bm).
Proof. intros Hb. apply Forall_insert; [done|]. by apply u64_clearbit, u64_word_at. Qed.

(** ** The invariant of the allocator *)
Record fa_inv (fa : FrameAllocator) : Prop := mk_fa_inv {
  fi_words : Forall u64_word (bitmap fa);
  fi_count : free_frames fa = size (free_set (bitmap fa));
  fi_next : (next_frame fa <= length (bitmap fa) * 64)%nat }.

Lemma find_free_some bm ks i :
  Forall u64_word bm -> Forall (fun k => k < length bm)%nat ks -> find_free bm ks = Some i -> i ∈ free_set bm.
Proof.
  intros Hb. induction ks as [|k ks IH]; intros Hk Hf; [done|]. apply Forall_cons in Hk as [Hk Hks].
  cbn [find_free] in Hf. destruct (Z.eqb_spec (word bm k) 0) as [Hz|Hz]; [by apply IH|]. injection Hf as <-.
  destruct (trailing_zeros_spec (word bm k) (u64_word_at _ _ Hb) Hz) as [Ht Hbit].
  apply elem_of_free_set. split; [lia|]. unfold bit_set.
  rewrite Nat.div_add_l, Nat.div_small, Nat.add_0_r by lia.
  by rewrite Nat.add_comm, Nat.Div0.mod_add, Nat.mod_small by lia.
Qed.

Lemma find_free_none bm ks k : find_free bm ks = None -> k ∈ ks -> word bm k = 0.
Proof.
  induction ks as [|k' ks IH]; intros Hf Hk; [by apply not_elem_of_nil in Hk|]. cbn [find_free] in Hf.
  destruct (Z.eqb_spec (word bm k') 0) as [Hz|Hz]; [|done].
  apply elem_of_cons in Hk as [->|Hk]; [done|by apply IH].
Qed.

Lemma take_frame_inv fa i :
  fa_inv fa -> i ∈ free_set (bitmap fa) -> fa_inv (take_frame i fa).2 /\
  free_set (bitmap (take_frame i fa).2) = free_set (bitmap fa) ∖ {[i]}.
Proof.
  intros [Hw Hc Hn] Hi. pose proof Hi as [Hlt _]%elem_of_free_set.
  assert (Hs : free_set (clear_bit i (bitmap fa)) = free_set (bitmap fa) ∖ {[i]}) by (by apply free_set_clear).
  split; [|exact Hs]. constructor; simpl; [by apply clear_bit_words| |rewrite length_clear_bit; lia].
  rewrite Hs, Hc, size_difference, size_singleton by set_solver. done.
Qed.

(** Allocation takes a free frame, and fails only when there is none. *)
Lemma allocate_frame_spec fa :
  fa_inv fa ->
  match allocate_frame fa with
  | (Some a, fa') => exists i, i ∈ free_set (bitmap fa) /\ a = frame_addr fa i /\ fa_inv fa' /\
      free_set (bitmap fa') = free_set (bitmap fa) ∖ {[i]} /\ base_addr fa' = base_addr fa /\
      length (bitmap fa') = length (bitmap fa)
  | (None, fa') => fa' = fa /\ free_set (bitmap fa) = ∅
  end.
Proof.
  intros Hinv. pose proof Hinv as [Hw Hc Hn]. unfold allocate_frame.
  destruct (Nat.eqb_spec (free_frames fa) 0) as [Hz|Hz].
  { split; [done|]. apply leibniz_equiv, size_empty_inv. congruence. }
  assert (Htake : forall i, i ∈ free_set (bitmap fa) -> match take_frame i fa with
    | (Some a, fa') => exists i, i ∈ free_set (bitmap fa) /\ a = frame_addr fa i /\ fa_inv fa' /\
        free_set (bitmap fa') = free_set (bitmap fa) ∖ {[i]} /\ base_addr fa' = base_addr fa /\
      length (bitmap fa') = length (bitmap fa)
    | (None, fa') => fa' = fa /\ free_set (bitmap fa) = ∅ end).
  { intros i Hi. destruct (take_frame_inv fa i Hinv Hi). exists i. split_and!; try done. apply length_clear_bit. }
  assert (Hsw : (next_frame fa / 64 <= length (bitmap fa))%nat).
  { rewrite <- (Nat.div_mul (length (bitmap fa)) 64) by done. by apply Nat.Div0.div_le_mono. }
  destruct (find_free (bitmap fa) (seq (next_frame fa / 64) _)) as [i|] eqn:H1.
  { apply Htake. eapply find_free_some; [done| |exact H1]. apply Forall_forall. intros k Hk%elem_of_seq. lia. }
  destruct (find_free (bitmap fa) (seq 0 (next_frame fa / 64))) as [i|] eqn:H2.
  { apply Htake. eapply find_free_some; [done| |exact H2]. apply Forall_forall. intros k Hk%elem_of_seq. lia. }
  split; [done|]. apply set_eq. intros i. split; [|by intros ?%not_elem_of_empty].
  intros [Hi Hb]%elem_of_free_set. exfalso. apply in_range_div in Hi. unfold bit_set in Hb.
  assert (word (bitmap fa) (i / 64) = 0) as Hz0; [|by rewrite Hz0, Z.bits_0 in Hb].
  destruct (decide (i / 64 < next_frame fa / 64)%nat);
    [apply (find_free_none _ _ _ H2)|apply (find_free_none _ _ _ H1)]; apply elem_of_seq; lia.
Qed.

(** Releasing a frame adds it to the set. *)
Lemma release_spec fa i :
  fa_inv fa -> (i < length (bitmap fa) * 64)%nat ->
  fa_inv (release fa i) /\ free_set (bitmap (release fa i)) = {[i]} ∪ free_set (bitmap fa) /\
  base_addr (release fa i) = base_addr fa /\ length (bitmap (release fa i)) = length (bitmap fa).
Proof.
  intros Hinv Hi. pose proof Hinv as [Hw Hc Hn]. unfold release.
  rewrite (proj2 (Nat.ltb_lt _ _)) by (by apply in_range_div). cbn [andb].
  destruct (bit_set (bitmap fa) i) eqn:Hb; cbn [negb].
  - split_and!; [done| |done..]. assert (i ∈ free_set (bitmap fa)) by (by apply elem_of_free_set). set_solver.
  - assert (Hs : free_set (set_bit i (bitmap fa)) = {[i]} ∪ free_set (bitmap fa)) by (by apply free_set_set).
    split_and!; [|exact Hs|done|apply length_set_bit].
    constructor; simpl; [by apply set_bit_words| |by rewrite length_set_bit].
    rewrite Hs, size_union, size_singleton, Hc; [lia|].
    apply disjoint_singleton_l. rewrite elem_of_free_set. intros [_ ?]. congruence.
Qed.

Lemma release_all_spec fa s n :
  fa_inv fa -> (s + n <= length (bitmap fa) * 64)%nat ->
  let fa' := foldl release fa (seq s n) in
  fa_inv fa' /\ free_set (bitmap fa') = set_seq s n ∪ free_set (bitmap fa) /\
  base_addr fa' = base_addr fa /\ length (bitmap fa') = length (bitmap fa).
Proof.
  revert fa s. induction n as [|n IH]; intros fa s Hinv Hs; cbn [seq foldl].
  - split_and!; [done| |done..]. cbn [set_seq]. set_solver.
  - destruct (release_spec fa s Hinv ltac:(lia)) as (H1 & H2 & H3 & H4).
    destruct (IH (release fa s) (S s) H1 ltac:(lia)) as (H5 & H6 & H7 & H8).
    split_and!; [done| |congruence..]. rewrite H6, H2. cbn [set_seq]. set_solver.
Qed.

(** ** Contiguous allocation *)
Lemma scan_run_spec bm count n k start cons :
  (cons < count)%nat -> (cons <= k)%nat -> start = (if decide (cons = 0%nat) then None else Some (k - cons)%nat) ->
  (forall j, k - cons <= j < k -> bit_set bm j = true)%nat ->
  match scan_run bm count (seq k n) start cons with
  | Some s => (s + count <= k + n)%nat /\ forall j, (s <= j < s + count)%nat -> bit_set bm j = true
  | None => forall s, (k - cons <= s)%nat -> (s + count <= k + n)%nat ->
      exists j, (s <= j < s + count)%nat /\ bit_set bm j = false
  end.
Proof.
  revert k start cons. induction n as [|n IH]; intros k start cons Hc Hk Hs Hrun; cbn [seq scan_run].
  { intros s H1 H2. lia. }
  destruct (bit_set bm k) eqn:Hb.
  - assert (Hs' : default k start = (k - cons)%nat) by (subst; case_decide; simpl; lia).
    rewrite Hs'. assert (Hrun' : forall j, (k - cons <= j < S k)%nat -> bit_set bm j = true).
    { intros j Hj. destruct (decide (j = k)) as [->|]; [done|apply Hrun; lia]. }
    destruct (Nat.eqb_spec (cons + 1) count) as [He|He].
    + split; [lia|]. intros j Hj. apply Hrun'. lia.
    + specialize (IH (S k) (Some (k - cons)%nat) (cons + 1)%nat ltac:(lia) ltac:(lia)).
      rewrite decide_False in IH by lia. replace (S k - (cons + 1))%nat with (k - cons)%nat in IH by lia.
      specialize (IH eq_refl Hrun'). replace (k + S n)%nat with (S k + n)%nat by lia. exact IH.
  - specialize (IH (S k) None 0%nat ltac:(lia) ltac:(lia) eq_refl ltac:(intros; lia)).
    replace (S k - 0)%nat with (S k) in IH by lia. replace (k + S n)%nat with (S k + n)%nat by lia.
    destruct (scan_run bm count (seq (S k) n) None 0) as [s|]; [done|].
    intros s H1 H2. destruct (decide (S k <= s)%nat); [by apply IH|]. exists k. split; [lia|done].
Qed.

Lemma clear_all_spec bm s n :
  Forall u64_word bm -> (s + n <= length bm * 64)%nat ->
  let bm' := foldl (fun bm i => clear_bit i bm) bm (seq s n) in
  Forall u64_word bm' /\ free_set bm' = free_set bm ∖ set_seq s n /\ length bm' = length bm.
Proof.
  revert bm s. induction n as [|n IH]; intros bm s Hw Hs; cbn [seq foldl].
  - split_and!; [done| |done]. cbn [set_seq]. set_solver.
  - destruct (IH (clear_bit s bm) (S s)) as (H1 & H2 & H3);
      [by apply clear_bit_words|rewrite length_clear_bit; lia|].
    split_and!; [done| |by rewrite H3, length_clear_bit]. rewrite H2, free_set_clear by lia.
    cbn [set_seq]. set_solver.
Qed.

(** A run of free frames is found when there is one. *)
Lemma allocate_frames_spec count fa :
  fa_inv fa -> (0 < count)%nat ->
  match allocate_frames count fa with
  | (Some a, fa') => exists s, a = frame_addr fa s /\ set_seq s count ⊆ free_set (bitmap fa) /\ fa_inv fa' /\
      free_set (bitmap fa') = free_set (bitmap fa) ∖ set_seq s count /\ base_addr fa' = base_addr fa /\
      length (bitmap fa') = length (bitmap fa)
  | (None, fa') => fa' = fa /\ forall s, ~ set_seq s count ⊆ free_set (bitmap fa)
  end.
Proof.
  intros Hinv Hpos. pose proof Hinv as [Hw Hc Hn]. unfold allocate_frames.
  rewrite (proj2 (Nat.eqb_neq count 0)) by lia. cbn [orb].
  destruct (Nat.ltb_spec (free_frames fa) count) as [Hlt|Hge].
  { split; [done|]. intros s Hsub%subseteq_size. rewrite size_set_seq in Hsub. lia. }
  destruct (Nat.eqb_spec count 1) as [->|Hone].
  { pose proof (allocate_frame_spec fa Hinv) as Ha. destruct (allocate_frame fa) as [[a|] fa'].
    - destruct Ha as (i & Hi & -> & H1 & H2 & H3 & H4). exists i. split_and!; [done| |done| |done|done]; cbn [set_seq]; [set_solver|].
      rewrite H2. set_solver.
    - destruct Ha as [-> He]. split; [done|]. intros s Hsub. rewrite He in Hsub. cbn [set_seq] in Hsub. set_solver. }
  pose proof (scan_run_spec (bitmap fa) count (length (bitmap fa) * 64) 0 None 0 ltac:(lia) ltac:(lia) eq_refl
    ltac:(intros; lia)) as Hscan.
  destruct (scan_run _ _ _ _ _) as [s|].
  - destruct Hscan as [Hr Hbits]. destruct (clear_all_spec (bitmap fa) s count Hw ltac:(lia)) as (H1 & H2 & H3).
    assert (Hsub : set_seq s count ⊆ free_set (bitmap fa)).
    { intros i Hi%elem_of_set_seq. apply elem_of_free_set. split; [lia|by apply Hbits]. }
    exists s. split_and!; [done|done| |done|done|done]. constructor; simpl; [done| |by rewrite H3].
    rewrite H2, Hc, size_difference, size_set_seq by done. done.
  - split; [done|]. intros s Hsub.
    assert (Hend : (s + count <= length (bitmap fa) * 64)%nat).
    { assert (Hl : (s + count - 1)%nat ∈ free_set (bitmap fa)) by (apply Hsub, elem_of_set_seq; lia).
      apply elem_of_free_set in Hl as [Hl _]. lia. }
    destruct (Hscan s ltac:(lia) ltac:(lia)) as (j & Hj & Hb).
    assert (Hf : j ∈ free_set (bitmap fa)) by (apply Hsub, elem_of_set_seq; lia).
    apply elem_of_free_set in Hf as [_ Hf]. congruence.
Qed.

(** * Frame allocator: regions, runs and the partition of memory *)

Local Open Scope Z_scope.

(** ** Alignment *)
Lemma land_page_mask x : 0 <= x < 2 ^ 64 -> Z.land x (2 ^ 64 - PAGE_SIZE) = x / PAGE_SIZE * PAGE_SIZE.
Proof.
  intros Hx. change (2 ^ 64 - PAGE_SIZE) with (Z.shiftl (Z.ones 52) 12). unfold PAGE_SIZE.
  replace (x / 4096 * 4096) with (Z.shiftl (Z.shiftr x 12) 12)
    by (rewrite Z.shiftl_mul_pow2, Z.shiftr_div_pow2 by lia; done).
  apply Z.bits_inj'. intros n Hn. rewrite Z.land_spec, !Z.shiftl_spec by done.
  destruct (decide (n < 12)).
  - rewrite !(Z.testbit_neg_r _ (n - 12)) by lia. apply andb_false_r.
  - rewrite Z.shiftr_spec by lia. rewrite Z.testbit_ones_nonneg by lia. replace (n - 12 + 12) with n by lia.
    destruct (Z.ltb_spec (n - 12) 52) as [?|Hhi]; [apply andb_true_r|]. rewrite andb_false_r. symmetry.
    destruct (decide (x = 0)) as [->|Hz]; [apply Z.bits_0|]. apply Z.bits_above_log2; [lia|].
    apply Z.lt_le_trans with 64; [|lia]. apply Z.log2_lt_pow2; lia.
Qed.

Lemma align_page_spec a :
  0 <= a <= 2 ^ 52 -> a <= align_page a < a + PAGE_SIZE /\ align_page a mod PAGE_SIZE = 0.
Proof.
  intros Ha. unfold align_page. rewrite wrap_u64_small by (unfold PAGE_SIZE; lia).
  rewrite land_page_mask by (unfold PAGE_SIZE; lia). unfold PAGE_SIZE.
  pose proof (Z.div_mod (a + 4096 - 1) 4096 ltac:(lia)). pose proof (Z.mod_pos_bound (a + 4096 - 1) 4096 ltac:(lia)).
  split; [lia|apply Z.mod_mul; lia].
Qed.

(** ** Marking is releasing *)
Definition with_total (t : nat) (fa : FrameAllocator) : FrameAllocator :=
  mk_FrameAllocator (bitmap fa) (base_addr fa) t (free_frames fa) (next_frame fa).

Lemma mark_all fa l : exists t, foldl mark_usable fa l = with_total t (foldl release fa l).
Proof.
  assert (Hone : forall fa i t0, exists t, mark_usable (with_total t0 fa) i = with_total t (release fa i)).
  { intros fa0 i t0. unfold mark_usable, release. simpl. case_match; by eexists. }
  assert (Hall : forall l fa t0, exists t, foldl mark_usable (with_total t0 fa) l = with_total t (foldl release fa l)).
  { induction l0 as [|i l0 IH]; intros fa0 t0; [by eexists|]. cbn [foldl].
    destruct (Hone fa0 i t0) as [t1 ->]. apply IH. }
  destruct (Hall l fa (total_frames fa)) as [t Ht]. exists t. rewrite <- Ht. by destruct fa.
Qed.

(** ** Regions *)
Definition region_ok (r : Z * Z) : Prop := 0 <= r.1 /\ 0 <= r.2 /\ r.1 + r.2 <= 2 ^ 52.

(** A page of usable memory, above the first megabyte. *)
Definition usable_page (rs : list (Z * Z)) (a : Z) : Prop :=
  a mod PAGE_SIZE = 0 /\ 0x100000 <= a /\ exists r, r ∈ rs /\ r.1 <= a /\ a + PAGE_SIZE <= r.1 + r.2.

Record fa_regions (rs : list (Z * Z)) (fa : FrameAllocator) : Prop := mk_fa_regions {
  fr_inv : fa_inv fa;
  fr_size : bitmap fa = [] \/ length (bitmap fa) = 4096%nat;
  fr_base : base_addr fa mod PAGE_SIZE = 0;
  fr_pages : forall i, i ∈ free_set (bitmap fa) -> usable_page rs (frame_addr fa i) }.

Lemma usable_page_mono rs r a : usable_page rs a -> usable_page (r :: rs) a.
Proof. intros (H1 & H2 & r' & H3 & H4). split_and!; [done..|]. exists r'. split; [by right|done]. Qed.

Lemma fa_regions_mono rs r fa : fa_regions rs fa -> fa_regions (r :: rs) fa.
Proof. intros [H1 H2 H3 H4]. constructor; [done..|]. intros i Hi. by apply usable_page_mono, H4. Qed.

Lemma free_set_zeros n : free_set (replicate n 0) = ∅.
Proof.
  apply set_eq. intros i. rewrite elem_of_free_set. split; [|by intros ?%not_elem_of_empty].
  intros [_ Hb]. unfold bit_set, word in Hb. destruct (replicate n 0 !! (i / 64)%nat) as [w|] eqn:Hw; simpl in Hb.
  - apply lookup_replicate in Hw as [-> _]. by rewrite Z.bits_0 in Hb.
  - by rewrite Z.bits_0 in Hb.
Qed.

(** The first region allocates the bitmap. *)
Lemma fresh_bitmap rs fa base :
  fa_regions rs fa -> bitmap fa = [] -> base mod PAGE_SIZE = 0 ->
  fa_regions rs (mk_FrameAllocator (replicate (Z.to_nat ((MAX_FRAMES + 63) / 64)) 0) base (total_frames fa)
    (free_frames fa) (next_frame fa)).
Proof.
  intros [[Hw Hc Hn] Hs Hb Hp] He Hbase. rewrite He in *.
  constructor; cbn [bitmap base_addr free_frames next_frame]; [|by right; rewrite length_replicate|done|].
  - constructor; cbn [bitmap free_frames next_frame].
    + apply Forall_replicate. split; [done|]. intros. apply Z.bits_0.
    + by rewrite free_set_zeros, Hc.
    + simpl in Hn. lia.
  - intros i Hi. by rewrite free_set_zeros in Hi.
Qed.

(** The pages of an aligned range become free. *)
Lemma mark_range rs r fa aligned num :
  fa_regions rs fa -> length (bitmap fa) = 4096%nat -> aligned mod PAGE_SIZE = 0 -> base_addr fa <= aligned ->
  0x100000 <= aligned -> 1 <= num -> r.1 <= aligned -> aligned + num * PAGE_SIZE <= r.1 + r.2 ->
  let start_frame := (aligned - base_addr fa) / PAGE_SIZE in
  let end_frame := Z.min (start_frame + num) MAX_FRAMES in
  start_frame < MAX_FRAMES ->
  fa_regions (r :: rs) (foldl mark_usable fa (seq (Z.to_nat start_frame) (Z.to_nat (end_frame - start_frame)))).
Proof.
  intros [Hinv Hs Hb Hp] Hlen Hal Hge Hmb Hnum Hr1 Hr2 start_frame end_frame Hlt. unfold PAGE_SIZE in *.
  assert (Hsf : aligned = base_addr fa + start_frame * 4096).
  { subst start_frame. pose proof (Z.div_mod (aligned - base_addr fa) 4096 ltac:(lia)) as Hd.
    rewrite Zminus_mod, Hal, Hb in Hd. simpl in Hd. rewrite Zmod_0_l in Hd. lia. }
  assert (Hsf0 : 0 <= start_frame) by (apply Z.div_pos; lia). clearbody start_frame.
  destruct (mark_all fa (seq (Z.to_nat start_frame) (Z.to_nat (end_frame - start_frame)))) as [t ->].
  unfold MAX_FRAMES in *.
  destruct (release_all_spec fa (Z.to_nat start_frame) (Z.to_nat (end_frame - start_frame)) Hinv) as (H1 & H2 & H3 & H4).
  { rewrite Hlen. subst end_frame. lia. }
  set (fa' := foldl release fa _) in *. constructor; cbn [with_total bitmap base_addr].
  - destruct H1 as [Hw Hc Hn]. by constructor.
  - right. by rewrite H4.
  - by rewrite H3.
  - intros i Hi. rewrite H2 in Hi. unfold frame_addr. cbn [with_total base_addr]. rewrite H3.
    apply elem_of_union in Hi as [Hi|Hi]; [|by apply usable_page_mono, Hp].
    apply elem_of_set_seq in Hi. unfold usable_page, PAGE_SIZE. split_and!.
    + by rewrite Z.mod_add by lia.
    + subst end_frame. lia.
    + exists r. split; [by left|]. subst end_frame. lia.
Qed.

Lemma add_region_spec rs start size fa :
  region_ok (start, size) -> fa_regions rs fa -> fa_regions ((start, size) :: rs) (add_region start size fa).
Proof.
  intros (H1 & H2 & H3) Hfa. simpl in H1, H2, H3. unfold add_region.
  set (safe := if start <? 0x100000 then 0x100000 else start).
  set (sz := if start <? 0x100000 then Z.max 0 (size - (0x100000 - start)) else size).
  destruct (Z.eqb_spec sz 0) as [Hz|Hz]; [by apply fa_regions_mono|].
  assert (Hsafe : start <= safe /\ 0x100000 <= safe /\ 0 < sz /\ safe + sz = start + size).
  { subst safe sz. destruct (Z.ltb_spec start 0x100000); lia. }
  clearbody safe sz. destruct (align_page_spec safe ltac:(lia)) as [Ha Hal].
  set (aligned := align_page safe) in *. rewrite wrap_u64_small by (unfold PAGE_SIZE in *; lia).
  set (asz := Z.max 0 (sz - (aligned - safe))).
  destruct (Z.eqb_spec (asz / PAGE_SIZE) 0) as [Hn|Hn]; [by apply fa_regions_mono|].
  assert (Hasz : 0 <= asz) by lia.
  assert (Hnum : 1 <= asz / PAGE_SIZE /\ aligned + asz / PAGE_SIZE * PAGE_SIZE <= start + size).
  { unfold PAGE_SIZE in *. pose proof (Z.div_mod asz 4096 ltac:(lia)). pose proof (Z.mod_pos_bound asz 4096 ltac:(lia)).
    pose proof (Z.div_pos asz 4096 Hasz ltac:(lia)). subst asz. lia. }
  set (fa1 := if decide (bitmap fa = []) then _ else fa).
  assert (Hfa1 : fa_regions rs fa1 /\ length (bitmap fa1) = 4096%nat).
  { subst fa1. case_decide as He; [split; [by apply fresh_bitmap|by cbn; rewrite length_replicate]|].
    split; [done|]. by destruct (fr_size _ _ Hfa). }
  destruct Hfa1 as [Hr1 Hl1]. clearbody fa1.
  destruct (Z.ltb_spec aligned (base_addr fa1)) as [Hb|Hb]; [by apply fa_regions_mono|].
  destruct (Z.leb_spec MAX_FRAMES ((aligned - base_addr fa1) / PAGE_SIZE)) as [Hm|Hm]; [by apply fa_regions_mono|].
  apply mark_range; simpl; (done || lia).
Qed.

Definition usable_regions (regions : list MemoryRegionDescriptor) : list (Z * Z) :=
  map (fun r => (mr_start r, mr_size r)) (filter (fun r => mr_kind r = Usable) regions).

Lemma new_regions : fa_regions [] FrameAllocator_new.
Proof.
  constructor; simpl; [|by left|done|].
  - constructor; simpl; [apply Forall_nil_2| |lia]; by change (free_set []) with (free_set (replicate 0 0)); rewrite free_set_zeros.
  - intros i Hi. change (free_set []) with (free_set (replicate 0 0)) in Hi. by rewrite free_set_zeros in Hi.
Qed.

(** The order in which regions are listed does not matter for the invariant. *)
Lemma fa_regions_perm rs rs' fa : (forall r, r ∈ rs -> r ∈ rs') -> fa_regions rs fa -> fa_regions rs' fa.
Proof.
  intros Hsub [H1 H2 H3 H4]. constructor; [done..|]. intros i Hi. destruct (H4 i Hi) as (Ha & Hb & r & Hr & Hc).
  split_and!; [done..|]. exists r. split; [by apply Hsub|done].
Qed.

Lemma init_regions regions :
  Forall region_ok (usable_regions regions) -> fa_regions (usable_regions regions) (vmm_init_allocator regions).
Proof.
  assert (Hgen : forall l rs fa, Forall region_ok (usable_regions l) -> fa_regions rs fa ->
    fa_regions (usable_regions l ++ rs) (foldl (fun fa r => if decide (mr_kind r = Usable)
      then add_region (mr_start r) (mr_size r) fa else fa) fa l)).
  { induction l as [|r l IH]; intros rs fa Hok Hfa; [done|]. cbn [foldl].
    unfold usable_regions in *. destruct (decide (mr_kind r = Usable)) as [Hu|Hu].
    - rewrite filter_cons_True in * by done. cbn [map] in *. apply Forall_cons in Hok as [Hr Hok].
      eapply fa_regions_perm; [|apply (IH ((mr_start r, mr_size r) :: rs)); [done|by apply add_region_spec]].
      set_solver.
    - rewrite filter_cons_False in * by done. by apply IH. }
  intros Hok. eapply fa_regions_perm; [|apply (Hgen regions [] FrameAllocator_new Hok new_regions)]. set_solver.
Qed.

(** ** Runs *)

(** The start addresses of the free frames, and of [n] frames from [a] on. *)
Definition free_addrs (fa : FrameAllocator) : gset Z := set_map (frame_addr fa) (free_set (bitmap fa)).

Definition pages (a : Z) (n : nat) : gset Z := list_to_set (map (fun k => a + Z.of_nat k * PAGE_SIZE) (seq 0 n)).

(** An allocator and the frames in use; frames are returned by their users only. *)
Inductive frun (fa0 : FrameAllocator) : FrameAllocator -> gset Z -> Prop :=
| fr_start : frun fa0 fa0 ∅
| fr_alloc fa own r fa' :
    frun fa0 fa own -> allocate_frame fa = (r, fa') ->
    frun fa0 fa' (match r with Some a => {[a]} ∪ own | None => own end)
| fr_free fa own a : frun fa0 fa own -> a ∈ own -> frun fa0 (free_frame a fa) (own ∖ {[a]})
| fr_alloc_n fa own n r fa' :
    frun fa0 fa own -> allocate_frames n fa = (r, fa') ->
    frun fa0 fa' (match r with Some a => pages a n ∪ own | None => own end)
| fr_free_n fa own a n :
    frun fa0 fa own -> pages a n ⊆ own -> frun fa0 (free_contiguous a n fa) (own ∖ pages a n).

Section partition.
Context (fa0 : FrameAllocator).

(** Addresses count from the base, which no operation moves. *)
Definition at_index (i : nat) : Z := base_addr fa0 + Z.of_nat i * PAGE_SIZE.

#[local] Instance at_index_inj : Inj (=) (=) at_index.
Proof. intros i j. unfold at_index, PAGE_SIZE. lia. Qed.

Lemma map_difference (X Y : gset nat) :
  (set_map at_index (X ∖ Y) : gset Z) = set_map at_index X ∖ set_map at_index Y.
Proof.
  apply set_eq. intros a. rewrite elem_of_difference, !elem_of_map. split.
  - intros (i & -> & [Hi Hn]%elem_of_difference). split; [by exists i|]. intros (j & <-%(inj at_index) & Hj). done.
  - intros [(i & -> & Hi) Hn]. exists i. split; [done|]. apply elem_of_difference. split; [done|].
    intros Hj. apply Hn. by exists i.
Qed.

Lemma size_at_index (X : gset nat) : size (set_map at_index X : gset Z) = size X.
Proof.
  induction X as [|i X Hi IH] using set_ind_L; [by rewrite set_map_empty, !size_empty|].
  rewrite set_map_union_L, set_map_singleton_L, !size_union, !size_singleton, IH; [done|set_solver|].
  apply disjoint_singleton_l. intros (j & <-%(inj at_index) & Hj)%elem_of_map. done.
Qed.

Lemma pages_index s n : pages (at_index s) n = set_map at_index (set_seq s n : gset nat).
Proof.
  apply set_eq. intros a. unfold pages. rewrite elem_of_list_to_set, elem_of_map, list_elem_of_fmap. split.
  - intros (k & -> & Hk%elem_of_seq). exists (s + k)%nat. split; [unfold at_index, PAGE_SIZE; lia|]. apply elem_of_set_seq. lia.
  - intros (i & -> & Hi%elem_of_set_seq). exists (i - s)%nat. split; [unfold at_index, PAGE_SIZE; lia|apply elem_of_seq; lia].
Qed.

Lemma index_of i : Z.to_nat ((at_index i - base_addr fa0) / PAGE_SIZE) = i.
Proof.
  unfold at_index. replace (base_addr fa0 + Z.of_nat i * PAGE_SIZE - base_addr fa0) with (Z.of_nat i * PAGE_SIZE) by lia.
  rewrite Z.div_mul by (unfold PAGE_SIZE; lia). lia.
Qed.

(** The frames in use and the free frames are what there was at the start. *)
Record partition (fa : FrameAllocator) (own : gset Z) : Prop := mk_partition {
  pt_inv : fa_inv fa;
  pt_base : base_addr fa = base_addr fa0;
  pt_split : exists X : gset nat, own = set_map at_index X /\ X ## free_set (bitmap fa) /\
    X ∪ free_set (bitmap fa) = free_set (bitmap fa0) /\
    (forall i, i ∈ X -> (i < length (bitmap fa) * 64)%nat) }.

Lemma frame_addr_base fa i : base_addr fa = base_addr fa0 -> frame_addr fa i = at_index i.
Proof. intros Hb. unfold frame_addr, at_index. by rewrite Hb. Qed.

Lemma partition_take fa own fa' (T : gset nat) :
  partition fa own -> fa_inv fa' -> base_addr fa' = base_addr fa -> T ⊆ free_set (bitmap fa) ->
  free_set (bitmap fa') = free_set (bitmap fa) ∖ T -> length (bitmap fa') = length (bitmap fa) ->
  partition fa' (set_map at_index T ∪ own).
Proof.
  intros [_ Hb (X & -> & Hd & Hu & Hr)] Hinv Hbase HT Hs Hl. constructor; [done|congruence|].
  exists (T ∪ X). rewrite set_map_union_L, Hs, Hl. split_and!; [done|set_solver| |].
  - rewrite <- Hu. apply set_eq. intros i. specialize (HT i).
    rewrite !elem_of_union, !elem_of_difference. destruct (decide (i ∈ T)); tauto.
  - intros i [Hi|Hi]%elem_of_union; [|by apply Hr]. by apply HT, elem_of_free_set in Hi as [? _].
Qed.

Lemma partition_give fa own fa' (T : gset nat) :
  partition fa own -> fa_inv fa' -> base_addr fa' = base_addr fa -> set_map at_index T ⊆ own ->
  free_set (bitmap fa') = T ∪ free_set (bitmap fa) -> length (bitmap fa') = length (bitmap fa) ->
  partition fa' (own ∖ set_map at_index T).
Proof.
  intros [_ Hb (X & -> & Hd & Hu & Hr)] Hinv Hbase HT Hs Hl. constructor; [done|congruence|].
  assert (HTX : T ⊆ X).
  { intros i Hi. assert (Hm : at_index i ∈ (set_map at_index X : gset Z)) by (apply HT, elem_of_map; by exists i).
    apply elem_of_map in Hm as (j & <-%(inj at_index) & Hj). done. }
  exists (X ∖ T). rewrite map_difference, Hs, Hl. split_and!; [done|set_solver| |set_solver].
  rewrite <- Hu. apply set_eq. intros i. specialize (HTX i).
  rewrite !elem_of_union, !elem_of_difference. destruct (decide (i ∈ T)); tauto.
Qed.
End partition.

Lemma partition_free fa0 fa own a :
  partition fa0 fa own -> a ∈ own -> partition fa0 (free_frame a fa) (own ∖ {[a]}).
Proof.
  intros Hp Ha. pose proof Hp as [H1 H2 (X & -> & H3 & H4 & H5)].
  apply elem_of_map in Ha as (i & -> & Hi). unfold free_frame.
  rewrite (proj2 (Z.ltb_ge _ _)) by (rewrite H2; unfold at_index, PAGE_SIZE; lia). rewrite H2, index_of.
  destruct (release_spec fa i H1 (H5 i Hi)) as (R1 & R2 & R3 & R4).
  rewrite <- (set_map_singleton_L (C:=gset nat) (at_index fa0)).
  eapply (partition_give fa0 fa _ _ {[i]}); [exact Hp|done|done| |done|done].
  intros b (j & -> & ->%elem_of_singleton)%elem_of_map. apply elem_of_map. by exists i.
Qed.

Lemma partition_free_n fa0 fa own a n :
  partition fa0 fa own -> pages a n ⊆ own -> partition fa0 (free_contiguous a n fa) (own ∖ pages a n).
Proof.
  intros Hp Ha. pose proof Hp as [H1 H2 (X & -> & H3 & H4 & H5)]. destruct (decide (n = 0%nat)) as [->|Hn].
  { unfold free_contiguous, pages. simpl. rewrite difference_empty_L. by destruct (a <? base_addr fa). }
  assert (Ha0 : a ∈ pages a n).
  { unfold pages. apply elem_of_list_to_set, list_elem_of_fmap. exists 0%nat. split; [lia|apply elem_of_seq; lia]. }
  apply Ha, elem_of_map in Ha0 as (s & -> & Hs). rewrite pages_index in *. unfold free_contiguous.
  rewrite (proj2 (Z.ltb_ge _ _)) by (rewrite H2; unfold at_index, PAGE_SIZE; lia). rewrite H2, index_of.
  assert (Hlast : (s + n - 1)%nat ∈ X).
  { assert (Hm : at_index fa0 (s + n - 1) ∈ (set_map (at_index fa0) X : gset Z)).
    { apply Ha, elem_of_map. exists (s + n - 1)%nat. split; [done|apply elem_of_set_seq; lia]. }
    apply elem_of_map in Hm as (j & Hj & HjX). unfold at_index, PAGE_SIZE in Hj. by replace (s + n - 1)%nat with j by lia. }
  apply H5 in Hlast. destruct (release_all_spec fa s n H1 ltac:(lia)) as (R1 & R2 & R3 & R4).
  by eapply (partition_give fa0 fa _ _ (set_seq s n)).
Qed.

(** Every step keeps the partition. *)
Lemma frun_partition fa0 fa own : fa_inv fa0 -> frun fa0 fa own -> partition fa0 fa own.
Proof.
  intros Hinv0. induction 1 as [|fa own r fa' _ IH Ha|fa own a _ IH Ha|fa own n r fa' _ IH Ha|fa own a n _ IH Ha].
  - constructor; [done|done|]. exists ∅. split_and!; [by rewrite set_map_empty|set_solver|set_solver|set_solver].
  - pose proof (allocate_frame_spec fa (pt_inv _ _ _ IH)) as Hs. rewrite Ha in Hs.
    destruct r as [a|]; [|by destruct Hs as [-> _]].
    destruct Hs as (i & Hi & -> & H1 & H2 & H3 & H4). rewrite (frame_addr_base fa0) by apply IH.
    rewrite <- (set_map_singleton_L (C:=gset nat) (at_index fa0)).
    eapply (partition_take fa0 fa own fa' {[i]}); try done. by apply singleton_subseteq_l.
  - by apply partition_free.
  - destruct (decide (n = 0%nat)) as [->|Hn].
    { unfold allocate_frames in Ha. simpl in Ha. by injection Ha as <- <-. }
    pose proof (allocate_frames_spec n fa (pt_inv _ _ _ IH) ltac:(lia)) as Hs. rewrite Ha in Hs.
    destruct r as [a|]; [|by destruct Hs as [-> _]].
    destruct Hs as (s & -> & H1 & H2 & H3 & H4 & H5). rewrite (frame_addr_base fa0) by apply IH.
    rewrite pages_index. by eapply (partition_take fa0 fa own fa' (set_seq s n)).
  - by apply partition_free_n.
Qed.

(** C16: After initialisation from any memory map, and through any sequence of
    single and contiguous allocations and of returns of frames in use, the frames
    in use and the free frames are disjoint and together are the frames the map
    made usable; the counter of free frames is exact; a frame that is handed out
    is page aligned, lies above the first megabyte and within a usable region;
    and a single allocation fails only when every frame is in use. *)
Theorem frames_partitioned regions fa own :
  Forall region_ok (usable_regions regions) -> frun (vmm_init_allocator regions) fa own ->
  own ## free_addrs fa /\ own ∪ free_addrs fa = free_addrs (vmm_init_allocator regions) /\
  free_frames fa = size (free_addrs fa) /\
  (forall a, a ∈ own -> usable_page (usable_regions regions) a) /\
  ((allocate_frame fa).1 = None <-> free_addrs fa = ∅).
Proof.
  intros Hok Hrun. set (fa0 := vmm_init_allocator regions) in *.
  pose proof (init_regions regions Hok) as [Hinv0 _ _ Hpages]. fold fa0 in Hinv0, Hpages.
  destruct (frun_partition fa0 fa own Hinv0 Hrun) as [Hinv Hb (X & -> & Hd & Hu & Hr)].
  assert (Hf : free_addrs fa = set_map (at_index fa0) (free_set (bitmap fa))).
  { unfold free_addrs. apply set_eq. intros a. rewrite !elem_of_map.
    setoid_rewrite (fun i => frame_addr_base fa0 fa i Hb). done. }
  rewrite Hf. split_and!.
  - intros a (i & -> & Hi)%elem_of_map (j & Hj & Hj')%elem_of_map. unfold at_index, PAGE_SIZE in Hj.
    assert (i = j) as <- by lia. by apply (Hd i).
  - unfold free_addrs. rewrite <- set_map_union_L, Hu. done.
  - rewrite (fi_count _ Hinv). symmetry. apply size_at_index.
  - intros a (i & -> & Hi)%elem_of_map. apply Hpages. rewrite <- Hu. set_solver.
  - pose proof (allocate_frame_spec fa Hinv) as Ha. destruct (allocate_frame fa) as [[a|] fa']; simpl.
    + destruct Ha as (i & Hi & _). split; [done|]. intros He.
      assert (Hin : at_index fa0 i ∈ (∅ : gset Z)) by (rewrite <- He; apply elem_of_map; by exists i).
      by apply not_elem_of_empty in Hin.
    + destruct Ha as [_ ->]. by rewrite set_map_empty.
Qed.

(** One region: two allocations and a return. *)
Definition one_region : list MemoryRegionDescriptor := [mk_MemoryRegionDescriptor 0x100000 0x3000 Usable].

Definition demo_fa0 : FrameAllocator := vmm_init_allocator one_region.
Definition demo_fa1 : FrameAllocator := (allocate_frame demo_fa0).2.
Definition demo_fa2 : FrameAllocator := (allocate_frames 2 demo_fa1).2.

Lemma frames_partitioned_witness :
  {[0x101000; 0x102000; 0x100000]} ## free_addrs demo_fa2 /\
  free_frames demo_fa2 = size (free_addrs demo_fa2) /\ (allocate_frame demo_fa2).1 = None.
Proof.
  assert (Hrun : frun demo_fa0 demo_fa2 (pages 0x101000 2 ∪ ({[0x100000]} ∪ ∅))).
  { eapply (fr_alloc_n _ demo_fa1 _ 2 (Some 0x101000)); [|vm_compute; reflexivity].
    eapply (fr_alloc _ demo_fa0 _ (Some 0x100000)); [apply fr_start|vm_compute; reflexivity]. }
  destruct (frames_partitioned one_region demo_fa2 (pages 0x101000 2 ∪ ({[0x100000]} ∪ ∅))) as (H1 & _ & H2 & _ & H3).
  - repeat constructor; simpl; lia.
  - exact Hrun.
  - split; [|split; [exact H2|vm_compute; reflexivity]].
    assert (E : pages 0x101000 2 ∪ ({[0x100000]} ∪ ∅) = {[0x101000; 0x102000; 0x100000]}) by (vm_compute; reflexivity).
    rewrite <- E. exact H1.
Defined.

(** A return of a frame that was never handed out makes reserved memory usable:
    the frame after the region is allocated next. *)
Example reserved_frame_freed :
  let fa := free_frame 0x103000 demo_fa2 in
  ((allocate_frame fa).1, (free_frames fa <=? total_frames fa)%nat) = (Some 0x103000, true).
Proof. vm_compute. reflexivity. Qed.
