(* ===== verification/PageMap.v ===== *)
(** * Page tables (crates/zos-hal/src/x86_64/vmm/page_table.rs)

    Physical memory is a map from addresses to 64-bit words, zero where nothing
    was written; the offset mapping of [phys_to_virt] is the identity on it. A
    table is the 512 words from its physical address on. Virtual addresses are
    canonical 64-bit values. [PhysAddr::new] panics on an address of 2^52 or more;
    a panic is [None]. *)
From S2P Require Import Prelude FrameRun.

Local Open Scope Z_scope.

Abbreviation Mem := (gmap Z Z).

Definition read_word (m : Mem) (a : Z) : Z := default 0 (m !! a).

(** ** Flags and entries *)
Definition PRESENT : Z := 1.
Definition WRITABLE : Z := 2.
Definition USER : Z := 4.
Definition HUGE_PAGE : Z := 128.
Definition NO_EXECUTE : Z := 2 ^ 63.
Definition ADDR_MASK : Z := 0x000FFFFFFFFFF000.

Definition is_present (e : Z) : bool := negb (Z.land e PRESENT =? 0).
Definition is_writable (e : Z) : bool := negb (Z.land e WRITABLE =? 0).
Definition is_user (e : Z) : bool := negb (Z.land e USER =? 0).
Definition is_huge (e : Z) : bool := negb (Z.land e HUGE_PAGE =? 0).
Definition entry_phys (e : Z) : Z := Z.land e ADDR_MASK.
Definition entry_flags (e : Z) : Z := Z.land e (2 ^ 64 - 1 - ADDR_MASK).
Definition entry_new (phys flags : Z) : Z := Z.lor (Z.land phys ADDR_MASK) flags.

(** ** Tables *)
Definition entry_addr (table : Z) (i : Z) : Z := table + 8 * i.

Definition table_entry (m : Mem) (table i : Z) : Z := read_word m (entry_addr table i).

Definition set_entry (table i : Z) (e : Z) (m : Mem) : Mem := <[entry_addr table i := e]> m.

(** [clear]: all 512 words become zero. *)
Definition table_clear (table : Z) (m : Mem) : Mem :=
  filter (fun p => ~ (table <= p.1 < table + PAGE_SIZE)) m.

(** ** Virtual addresses *)
Definition pml4_index (v : Z) : Z := Z.land (Z.shiftr v 39) 0x1FF.
Definition pdpt_index (v : Z) : Z := Z.land (Z.shiftr v 30) 0x1FF.
Definition pd_index (v : Z) : Z := Z.land (Z.shiftr v 21) 0x1FF.
Definition pt_index (v : Z) : Z := Z.land (Z.shiftr v 12) 0x1FF.
Definition page_offset (v : Z) : Z := Z.land v 0xFFF.

Definition PhysAddr_new (a : Z) : option (option Z) := if a <? 2 ^ 52 then Some (Some a) else None.

(** ** translate *)
Definition translate (m : Mem) (pml4 v : Z) : option (option Z) :=
  let pml4e := table_entry m pml4 (pml4_index v) in
  if negb (is_present pml4e) then Some None
  else
    let pdpte := table_entry m (entry_phys pml4e) (pdpt_index v) in
    if negb (is_present pdpte) then Some None
    else if is_huge pdpte then PhysAddr_new (entry_phys pdpte + Z.land v 0x3FFFFFFF)
    else
      let pde := table_entry m (entry_phys pdpte) (pd_index v) in
      if negb (is_present pde) then Some None
      else if is_huge pde then PhysAddr_new (entry_phys pde + Z.land v 0x1FFFFF)
      else
        let pte := table_entry m (entry_phys pde) (pt_index v) in
        if negb (is_present pte) then Some None
        else PhysAddr_new (entry_phys pte + page_offset v).

(** ** map_page: the closure [allocate_frame] threads its own state [A]. *)
Section map.
Context {A : Type} (alloc : A -> option Z * A).

(** Get the table an entry points to, or create it. *)
Definition next_table (what : string) (table i : Z) (m : Mem) (a : A) : result Z string * (Mem * A) :=
  let e := table_entry m table i in
  if is_present e then (Ok (entry_phys e), (m, a))
  else
    match alloc a with
    | (None, a) => (Err (String.append "Failed to allocate " what), (m, a))
    | (Some frame, a) =>
        let m := table_clear frame m in
        let m := set_entry table i (entry_new frame (Z.lor (Z.lor PRESENT WRITABLE) USER)) m in
        (Ok frame, (m, a))
    end.

Definition map_page (pml4 v paddr flags : Z) (m : Mem) (a : A) : result unit string * (Mem * A) :=
  let flags := Z.lor flags PRESENT in
  match next_table "PDPT" pml4 (pml4_index v) m a with
  | (Err e, s) => (Err e, s)
  | (Ok pdpt, (m, a)) =>
      match next_table "PD" pdpt (pdpt_index v) m a with
      | (Err e, s) => (Err e, s)
      | (Ok pd, (m, a)) =>
          match next_table "PT" pd (pd_index v) m a with
          | (Err e, s) => (Err e, s)
          | (Ok pt, (m, a)) => (Ok tt, (set_entry pt (pt_index v) (entry_new paddr flags) m, a))
          end
      end
  end.
End map.

(** ** unmap_page *)
Definition unmap_page (pml4 v : Z) (m : Mem) : option Z * Mem :=
  let pml4e := table_entry m pml4 (pml4_index v) in
  if negb (is_present pml4e) then (None, m)
  else
    let pdpte := table_entry m (entry_phys pml4e) (pdpt_index v) in
    if negb (is_present pdpte) || is_huge pdpte then (None, m)
    else
      let pde := table_entry m (entry_phys pdpte) (pd_index v) in
      if negb (is_present pde) || is_huge pde then (None, m)
      else
        let pte := table_entry m (entry_phys pde) (pt_index v) in
        if negb (is_present pte) then (None, m)
        else (Some (entry_phys pte), set_entry (entry_phys pde) (pt_index v) 0 m).

(** * Page tables: mapping is the update of a finite map

    Four-level tables that form a tree denote a partial map from pages to
    entries; [map_page] updates it at one page, [unmap_page] removes one page, and
    [translate] reads it. *)

Local Open Scope Z_scope.

(** ** Memory *)
Lemma read_write m a v b : read_word (<[a := v]> m) b = if decide (b = a) then v else read_word m b.
Proof. unfold read_word. case_decide; [subst; by rewrite lookup_insert_eq|by rewrite lookup_insert_ne]. Qed.

Lemma read_clear t m b :
  read_word (table_clear t m) b = if decide (t <= b < t + PAGE_SIZE) then 0 else read_word m b.
Proof.
  unfold read_word, table_clear. case_decide as Hb.
  - rewrite map_lookup_filter_None_2; [done|]. right. intros v _ Hn. by apply Hn.
  - f_equal. destruct (m !! b) as [v|] eqn:Hv.
    + by apply map_lookup_filter_Some_2.
    + apply map_lookup_filter_None_2. by left.
Qed.

(** ** Entries *)
Definition aligned (a : Z) : Prop := 0 <= a < 2 ^ 52 /\ a mod PAGE_SIZE = 0.

Lemma mask_bits n : 0 <= n -> Z.testbit ADDR_MASK n = bool_decide (12 <= n < 52).
Proof.
  intros Hn. change ADDR_MASK with (Z.shiftl (Z.ones 40) 12). rewrite Z.shiftl_spec by done.
  destruct (decide (n < 12)); [rewrite Z.testbit_neg_r by lia; symmetry; apply bool_decide_eq_false; lia|].
  rewrite Z.testbit_ones_nonneg by lia. destruct (Z.ltb_spec (n - 12) 40); symmetry;
    [apply bool_decide_eq_true|apply bool_decide_eq_false]; lia.
Qed.

Lemma land_mask a : aligned a -> Z.land a ADDR_MASK = a.
Proof.
  intros [Ha Hm]. apply Z.bits_inj'. intros n Hn. rewrite Z.land_spec, mask_bits by done.
  case_bool_decide as Hr; [apply andb_true_r|]. rewrite andb_false_r. symmetry.
  destruct (decide (n < 12)) as [Hlo|Hhi].
  - pose proof (Z.div_mod a PAGE_SIZE ltac:(done)) as Hd. rewrite Hm in Hd. unfold PAGE_SIZE in Hd.
    rewrite Hd. replace (4096 * (a / 4096) + 0) with (Z.shiftl (a / 4096) 12) by (rewrite Z.shiftl_mul_pow2; lia).
    rewrite Z.shiftl_spec by done. apply Z.testbit_neg_r. lia.
  - destruct (decide (a = 0)) as [->|Hz]; [apply Z.bits_0|]. apply Z.bits_above_log2; [lia|].
    apply Z.lt_le_trans with 52; [|lia]. apply Z.log2_lt_pow2; lia.
Qed.

Lemma entry_new_phys a flags : aligned a -> Z.land flags ADDR_MASK = 0 -> entry_phys (entry_new a flags) = a.
Proof. intros Ha Hf. unfold entry_phys, entry_new. by rewrite Z.land_lor_distr_l, Hf, Z.lor_0_r, !(land_mask a Ha). Qed.

Lemma land_bit e n : 0 <= n -> negb (Z.land e (2 ^ n) =? 0) = Z.testbit e n.
Proof.
  intros Hn. destruct (Z.testbit e n) eqn:Hb.
  - apply negb_true_iff, Z.eqb_neq. intros Hz. apply (f_equal (fun z => Z.testbit z n)) in Hz.
    rewrite Z.land_spec, Hb, Z.pow2_bits_true, Z.bits_0 in Hz by done. done.
  - apply negb_false_iff, Z.eqb_eq. apply Z.bits_inj'. intros k Hk. rewrite Z.land_spec, Z.bits_0.
    destruct (decide (k = n)) as [->|]; [by rewrite Hb|]. rewrite Z.pow2_bits_false by done. apply andb_false_r.
Qed.

Lemma present_bit e : is_present e = Z.testbit e 0.
Proof. apply (land_bit e 0). lia. Qed.

Lemma huge_bit e : is_huge e = Z.testbit e 7.
Proof. apply (land_bit e 7). lia. Qed.

Lemma entry_new_bit a flags n : 0 <= n < 12 -> Z.testbit (entry_new a flags) n = Z.testbit flags n.
Proof.
  intros Hn. unfold entry_new. rewrite Z.lor_spec, Z.land_spec, mask_bits by lia.
  rewrite bool_decide_eq_false_2 by lia. by rewrite andb_false_r.
Qed.

Lemma table_flags_new a :
  aligned a -> let e := entry_new a (Z.lor (Z.lor PRESENT WRITABLE) USER) in
  is_present e = true /\ is_huge e = false /\ entry_phys e = a.
Proof.
  intros Ha e. subst e. rewrite present_bit, huge_bit, !entry_new_bit by lia.
  split_and!; [done|done|by apply entry_new_phys].
Qed.

(** ** Walks

    The entry at the end of a list of indices. *)
Fixpoint walk (m : Mem) (t : Z) (idx : list Z) : option Z :=
  match idx with
  | [] => None
  | i :: rest =>
      let e := table_entry m t i in
      if is_present e then
        match rest with [] => Some e | _ => walk m (entry_phys e) rest end
      else None
  end.

Definition indices (v : Z) : list Z := [pml4_index v; pdpt_index v; pd_index v; pt_index v].

Definition index_ok (i : Z) : Prop := 0 <= i < 512.

Lemma land_511 x : index_ok (Z.land x 0x1FF).
Proof. unfold index_ok. change 0x1FF with (Z.ones 9). rewrite Z.land_ones by lia. apply Z.mod_pos_bound. lia. Qed.

Lemma indices_ok v : Forall index_ok (indices v).
Proof. repeat constructor; apply land_511. Qed.

(** ** Trees of tables

    Each table is named by the indices that lead to it. *)
Record tree (m : Mem) (root : Z) (T : gmap Z (list Z)) : Prop := mk_tree {
  tree_root : T !! root = Some [];
  tree_aligned : forall t p, T !! t = Some p -> aligned t /\ (length p <= 3)%nat;
  tree_inj : forall t1 t2 p, T !! t1 = Some p -> T !! t2 = Some p -> t1 = t2;
  tree_edge : forall t p i, T !! t = Some p -> (length p < 3)%nat -> index_ok i ->
    is_present (table_entry m t i) = true ->
    is_huge (table_entry m t i) = false /\ T !! entry_phys (table_entry m t i) = Some (p ++ [i]);
  tree_link : forall u p i, T !! u = Some (p ++ [i]) -> exists t, T !! t = Some p /\ index_ok i /\
    is_present (table_entry m t i) = true /\ entry_phys (table_entry m t i) = u }.

(** Entries of different tables, and of different indices, are at different addresses. *)
Lemma entry_addr_inj t1 i1 t2 i2 :
  aligned t1 -> aligned t2 -> index_ok i1 -> index_ok i2 -> entry_addr t1 i1 = entry_addr t2 i2 -> t1 = t2 /\ i1 = i2.
Proof.
  unfold aligned, index_ok, entry_addr, PAGE_SIZE. intros [_ H1] [_ H2] H3 H4 He.
  pose proof (Z.div_mod t1 4096 ltac:(lia)). pose proof (Z.div_mod t2 4096 ltac:(lia)).
  assert (t1 / 4096 = t2 / 4096) by nia. nia.
Qed.

Lemma entry_in_table t u i : aligned t -> aligned u -> index_ok i -> t <= entry_addr u i < t + PAGE_SIZE -> u = t.
Proof.
  unfold aligned, index_ok, entry_addr, PAGE_SIZE. intros [_ H1] [_ H2] H3 H4.
  pose proof (Z.div_mod t 4096 ltac:(lia)). pose proof (Z.div_mod u 4096 ltac:(lia)).
  assert (t / 4096 = u / 4096) by nia. nia.
Qed.

(** ** Frame sources: what [map_page] needs of its closure *)
Class FrameSource {A : Type} (alloc : A -> option Z * A) : Type := {
  avail : A -> gset Z;
  alloc_some : forall a f a', alloc a = (Some f, a') -> f ∈ avail a /\ avail a' ⊆ avail a ∖ {[f]};
  alloc_none : forall a a', alloc a = (None, a') -> avail a' ⊆ avail a }.

Section mapping.
Context {A : Type} (alloc : A -> option Z * A) `{!FrameSource alloc}.

(** Available frames are aligned and hold no table. *)
Definition spare (T : gmap Z (list Z)) (a : A) : Prop :=
  forall f, f ∈ avail a -> aligned f /\ T !! f = None.

Lemma spare_mono T a a' : spare T a -> avail a' ⊆ avail a -> spare T a'.
Proof. intros Hs Hsub f Hf. by apply Hs, Hsub. Qed.

(** Memory after a fresh table [f] was linked at entry [i] of [t]. *)
Section link.
Context (m : Mem) (root t i f : Z) (T : gmap Z (list Z)) (p : list Z).
Context (Htree : tree m root T) (Ht : T !! t = Some p) (Hp : (length p < 3)%nat) (Hi : index_ok i)
  (Habs : is_present (table_entry m t i) = false) (Hf : aligned f) (Hfresh : T !! f = None).

Definition linked : Mem :=
  set_entry t i (entry_new f (Z.lor (Z.lor PRESENT WRITABLE) USER)) (table_clear f m).

Lemma linked_entry u j q :
  T !! u = Some q -> index_ok j ->
  table_entry linked u j =
  if decide (u = t /\ j = i) then entry_new f (Z.lor (Z.lor PRESENT WRITABLE) USER) else table_entry m u j.
Proof.
  intros Hu Hj. pose proof (tree_aligned _ _ _ Htree _ _ Ht) as [Hta _].
  pose proof (tree_aligned _ _ _ Htree _ _ Hu) as [Hua _].
  unfold table_entry, linked, set_entry. rewrite read_write, read_clear.
  destruct (decide (entry_addr u j = entry_addr t i)) as [He|He].
  - apply entry_addr_inj in He as [-> ->]; [|done..]. by rewrite decide_True.
  - rewrite (decide_False (P := u = t /\ j = i)) by (intros [-> ->]; done).
    rewrite decide_False; [done|]. intros Hin. apply entry_in_table in Hin; [|done..]. congruence.
Qed.

Lemma linked_new j : index_ok j -> table_entry linked f j = 0.
Proof.
  intros Hj. pose proof (tree_aligned _ _ _ Htree _ _ Ht) as [Hta _].
  unfold table_entry, linked, set_entry. rewrite read_write, read_clear. rewrite decide_False.
  - rewrite decide_True; [done|]. unfold entry_addr, PAGE_SIZE. unfold index_ok in Hj. lia.
  - intros [-> _]%entry_addr_inj; [congruence|done..].
Qed.

Lemma link_new_path u : T !! u <> Some (p ++ [i]).
Proof.
  intros (t' & Ht' & _ & Hpr & _)%(tree_link _ _ _ Htree).
  rewrite (tree_inj _ _ _ Htree t' t p Ht' Ht) in Hpr. congruence.
Qed.

Lemma linked_tree : tree linked root (<[f := p ++ [i]]> T).
Proof.
  destruct (table_flags_new f Hf) as (Hpr & Hhu & Hph).
  assert (Hlen : length (p ++ [i]) = S (length p)) by (rewrite length_app; simpl; lia). constructor.
  - rewrite lookup_insert_ne; [apply Htree|]. intros ->. by rewrite (tree_root _ _ _ Htree) in Hfresh.
  - intros u q [[<- <-]|[_ Hu]]%lookup_insert_Some; [split; [done|lia]|by eapply tree_aligned].
  - intros u1 u2 q [[<- <-]|[_ H1]]%lookup_insert_Some [[<- Hq]|[_ H2]]%lookup_insert_Some; try done.
    + by destruct (link_new_path u2).
    + subst q. by destruct (link_new_path u1).
    + by eapply tree_inj.
  - intros u q j [[<- <-]|[Hne Hu]]%lookup_insert_Some Hq Hj Hpj.
    + by rewrite linked_new in Hpj.
    + rewrite (linked_entry u j q Hu Hj) in *. destruct (decide (u = t /\ j = i)) as [[-> ->]|Hd].
      * rewrite Hph, lookup_insert_eq. rewrite Ht in Hu. by injection Hu as <-.
      * destruct (tree_edge _ _ _ Htree u q j Hu Hq Hj Hpj) as [H1 H2]. split; [done|].
        rewrite lookup_insert_ne; [done|]. intros He. rewrite <- He in H2. congruence.
  - intros u q j [[<- Heq]|[Hne Hu]]%lookup_insert_Some.
    + apply app_inj_tail in Heq as [<- <-]. exists t. rewrite (linked_entry t i p Ht Hi), decide_True by done.
      rewrite lookup_insert_ne by congruence. done.
    + destruct (tree_link _ _ _ Htree u q j Hu) as (t' & H1 & H2 & H3 & H4). exists t'.
      rewrite (linked_entry t' j q H1 H2), decide_False; [rewrite lookup_insert_ne by congruence; done|].
      intros [-> ->]. congruence.
Qed.

(** Linking an empty table changes no walk. *)
Lemma linked_walk rest u q :
  T !! u = Some q -> (length q + length rest = 4)%nat -> Forall index_ok rest -> walk linked u rest = walk m u rest.
Proof.
  destruct (table_flags_new f Hf) as (Hpr & Hhu & Hph).
  revert u q. induction rest as [|j rest IH]; intros u q Hu Hl Hok; [done|]. apply Forall_cons in Hok as [Hj Hok].
  cbn [walk]. rewrite (linked_entry u j q Hu Hj). destruct (decide (u = t /\ j = i)) as [[-> ->]|Hd].
  - rewrite Hpr, Habs, Hph. rewrite Ht in Hu. injection Hu as <-. destruct rest as [|k rest]; [simpl in Hl; lia|].
    apply Forall_cons in Hok as [Hk _]. cbn [walk]. by rewrite linked_new.
  - destruct (is_present (table_entry m u j)) eqn:He; [|done]. destruct rest as [|k rest]; [done|].
    assert (Hq : (length q < 3)%nat) by (simpl in Hl; lia).
    destruct (tree_edge _ _ _ Htree u q j Hu Hq Hj He) as [_ Hn].
    apply (IH _ (q ++ [j])); [done| |done]. rewrite length_app. simpl in *. lia.
Qed.
End link.

(** ** Finding or creating a table *)
Lemma next_table_spec what root t i m a T p r m' a' :
  tree m root T -> spare T a -> T !! t = Some p -> (length p < 3)%nat -> index_ok i ->
  next_table alloc what t i m a = (r, (m', a')) ->
  exists T', tree m' root T' /\ spare T' a' /\
    (forall rest, length rest = 4%nat -> Forall index_ok rest -> walk m' root rest = walk m root rest) /\
    (forall u q, T !! u = Some q -> T' !! u = Some q) /\
    match r with
    | Ok t' => T' !! t' = Some (p ++ [i]) /\
        (forall rest, rest <> [] -> walk m' t (i :: rest) = walk m' t' rest)
    | Err _ => True
    end.
Proof.
  intros Htree Hs Ht Hp Hi Hn. unfold next_table in Hn.
  destruct (is_present (table_entry m t i)) eqn:Hpr.
  { injection Hn as <- <- <-. destruct (tree_edge _ _ _ Htree t p i Ht Hp Hi Hpr) as [_ Hc].
    exists T. split_and!; try done. intros [|k rest] Hne; [done|]. cbn [walk]. by rewrite Hpr. }
  destruct (alloc a) as [[f|] a1] eqn:Ha.
  - injection Hn as <- <- <-. destruct (alloc_some _ _ _ Ha) as [Hav Hsub]. destruct (Hs f Hav) as [Hf Hfresh].
    exists (<[f := p ++ [i]]> T). fold (linked m t i f).
    destruct (table_flags_new f Hf) as (Hp1 & _ & Hp3). split_and!.
    + by apply linked_tree.
    + intros g Hg%Hsub. apply elem_of_difference in Hg as [Hg Hne%not_elem_of_singleton].
      destruct (Hs g Hg) as [? ?]. by rewrite lookup_insert_ne.
    + intros rest Hl Hok.
      by apply (linked_walk m root t i f T p Htree Ht Hp Hi Hpr Hf Hfresh rest root []); [apply Htree|..].
    + intros u q Hu. rewrite lookup_insert_ne; [done|]. congruence.
    + apply lookup_insert_eq.
    + intros [|k rest] Hne; [done|]. cbn [walk].
      by rewrite (linked_entry m root t i f T p Htree Ht Hi Hf Hfresh t i p Ht Hi), decide_True, Hp1, Hp3.
  - injection Hn as <- <- <-. exists T. split_and!; [done| |done..]. eapply spare_mono; [done|by eapply alloc_none].
Qed.
End mapping.

(** ** Writing an entry of a last-level table *)
Section leaf.
Context (m : Mem) (root t i e : Z) (T : gmap Z (list Z)) (p : list Z).
Context (Htree : tree m root T) (Ht : T !! t = Some p) (Hp : length p = 3%nat) (Hi : index_ok i).

Lemma leaf_entry u j q :
  T !! u = Some q -> index_ok j ->
  table_entry (set_entry t i e m) u j = if decide (u = t /\ j = i) then e else table_entry m u j.
Proof.
  intros Hu Hj. unfold table_entry, set_entry. rewrite read_write.
  pose proof (tree_aligned _ _ _ Htree _ _ Ht) as [Hta _]. pose proof (tree_aligned _ _ _ Htree _ _ Hu) as [Hua _].
  destruct (decide (entry_addr u j = entry_addr t i)) as [He|He].
  - apply entry_addr_inj in He as [-> ->]; [|done..]. by rewrite decide_True.
  - rewrite decide_False; [done|]. intros [-> ->]. done.
Qed.

Lemma leaf_tree : tree (set_entry t i e m) root T.
Proof.
  assert (Hsame : forall u q j, T !! u = Some q -> (length q < 3)%nat -> index_ok j ->
    table_entry (set_entry t i e m) u j = table_entry m u j).
  { intros u q j Hu Hq Hj. rewrite (leaf_entry u j q Hu Hj), decide_False; [done|].
    intros [-> _]. rewrite Ht in Hu. injection Hu as <-. lia. }
  constructor; [apply Htree|apply Htree|apply Htree| |].
  - intros u q j Hu Hq Hj. rewrite (Hsame u q j) by done. by apply (tree_edge _ _ _ Htree).
  - intros u q j Hu. destruct (tree_link _ _ _ Htree u q j Hu) as (t' & H1 & H2 & H3 & H4). exists t'.
    rewrite (Hsame t' q j); [done|done| |done].
    pose proof (tree_aligned _ _ _ Htree _ _ Hu) as [_ Hl]. rewrite length_app in Hl. simpl in Hl. lia.
Qed.

(** The tables on the way to a table are linked. *)
Lemma ancestor_present s u q j :
  T !! u = Some q -> (exists t', T !! t' = Some (q ++ [j] ++ s)) -> is_present (table_entry m u j) = true.
Proof.
  intros Hu. induction s as [|k s IH] using rev_ind; intros [t' Ht'].
  - rewrite app_nil_r in Ht'. destruct (tree_link _ _ _ Htree t' q j Ht') as (u' & H1 & _ & H3 & _).
    by rewrite (tree_inj _ _ _ Htree u' u q H1 Hu) in H3.
  - rewrite !app_assoc in Ht'. destruct (tree_link _ _ _ Htree _ _ _ Ht') as (u' & H1 & _). apply IH.
    exists u'. by rewrite <- app_assoc in H1.
Qed.

Lemma leaf_walk rest u q :
  T !! u = Some q -> (length q + length rest = 4)%nat -> rest <> [] -> Forall index_ok rest ->
  walk (set_entry t i e m) u rest =
  if decide (q ++ rest = p ++ [i]) then (if is_present e then Some e else None) else walk m u rest.
Proof.
  revert u q. induction rest as [|j rest IH]; intros u q Hu Hl Hne Hok; [done|]. clear Hne.
  apply Forall_cons in Hok as [Hj Hok]. cbn [walk]. rewrite (leaf_entry u j q Hu Hj).
  destruct rest as [|k rest].
  - destruct (decide (u = t /\ j = i)) as [[-> ->]|Hd].
    + rewrite Ht in Hu. injection Hu as <-. by rewrite decide_True.
    + rewrite decide_False; [done|]. intros [-> ->]%app_inj_tail. apply Hd. split; [|done].
      by eapply (tree_inj _ _ _ Htree).
  - assert (Hq : (length q < 3)%nat) by (simpl in Hl; lia).
    rewrite decide_False by (intros [-> _]; rewrite Ht in Hu; injection Hu as <-; lia).
    destruct (is_present (table_entry m u j)) eqn:He.
    + destruct (tree_edge _ _ _ Htree u q j Hu Hq Hj He) as [_ Hn].
      rewrite (IH _ (q ++ [j]) Hn); [|rewrite length_app; simpl in *; lia|done|done].
      by rewrite <- app_assoc.
    + rewrite decide_False; [done|]. intros Heq.
      assert (Hpt : exists s, p = q ++ [j] ++ s).
      { exists (take (2 - length q) (k :: rest)). apply (f_equal (take 3)) in Heq.
        rewrite (take_app_length' p) in Heq by done. rewrite <- Heq, take_app, take_ge by lia. f_equal.
        destruct (3 - length q)%nat as [|n] eqn:Hn; [lia|]. simpl. f_equal. f_equal. lia. }
      destruct Hpt as [s Hs]. rewrite (ancestor_present s u q j Hu) in He; [done|]. exists t. by rewrite <- Hs.
Qed.
End leaf.

(** * Page tables refine a finite map from pages to entries *)

Local Open Scope Z_scope.

(** Pages are named by their four indices. *)
Abbreviation PageMap := (gmap (list Z) Z).

Definition abs_translate (F : PageMap) (v : Z) : option Z :=
  match F !! indices v with Some e => Some (entry_phys e + page_offset v) | None => None end.

Inductive pt_op : Type :=
| PT_map (v paddr flags : Z)
| PT_unmap (v : Z).

Definition pt_op_ok (op : pt_op) : Prop :=
  match op with
  | PT_map _ paddr flags => aligned paddr /\ Z.land flags ADDR_MASK = 0
  | PT_unmap _ => True
  end.

(** What an operation returns: success of a mapping, or the address unmapped. *)
Inductive pt_res : Type :=
| Res_map (r : result unit string)
| Res_unmap (r : option Z).

Definition abs_step (op : pt_op) (res : pt_res) (F : PageMap) : PageMap :=
  match op, res with
  | PT_map v paddr flags, Res_map (Ok _) => <[indices v := entry_new paddr (Z.lor flags PRESENT)]> F
  | PT_unmap v, _ => delete (indices v) F
  | _, _ => F
  end.

Section refinement.
Context {A : Type} (alloc : A -> option Z * A) `{!FrameSource alloc} (root : Z).

Definition pt_step (op : pt_op) (m : Mem) (a : A) : pt_res * (Mem * A) :=
  match op with
  | PT_map v paddr flags => let '(r, s) := map_page alloc root v paddr flags m a in (Res_map r, s)
  | PT_unmap v => let '(r, m') := unmap_page root v m in (Res_unmap r, (m', a))
  end.

(** The tables form a tree whose walks are the map, with spare frames outside. *)
Definition represents (m : Mem) (a : A) (F : PageMap) : Prop :=
  exists T, tree m root T /\ spare alloc T a /\
    forall idx, length idx = 4%nat -> Forall index_ok idx -> walk m root idx = F !! idx.

Lemma indices_length v : length (indices v) = 4%nat.
Proof. done. Qed.

(** Reading through the walk. *)
Lemma translate_walk m T v :
  tree m root T ->
  translate m root v =
  match walk m root (indices v) with Some e => PhysAddr_new (entry_phys e + page_offset v) | None => Some None end.
Proof.
  intros Htree. pose proof (indices_ok v) as Hok. unfold indices in *.
  apply Forall_cons in Hok as [H1 Hok]. apply Forall_cons in Hok as [H2 Hok]. apply Forall_cons in Hok as [H3 _].
  unfold translate. cbn [walk].
  destruct (is_present (table_entry m root (pml4_index v))) eqn:P1; [|done]. cbn [negb].
  destruct (tree_edge _ _ _ Htree root [] _ (tree_root _ _ _ Htree) ltac:(simpl; lia) H1 P1) as [_ E1].
  destruct (is_present (table_entry m _ (pdpt_index v))) eqn:P2; [|done]. cbn [negb].
  destruct (tree_edge _ _ _ Htree _ _ _ E1 ltac:(simpl; lia) H2 P2) as [-> E2].
  destruct (is_present (table_entry m _ (pd_index v))) eqn:P3; [|done]. cbn [negb].
  destruct (tree_edge _ _ _ Htree _ _ _ E2 ltac:(simpl; lia) H3 P3) as [-> E3].
  by destruct (is_present (table_entry m _ (pt_index v))).
Qed.

Lemma offset_range v : 0 <= page_offset v < PAGE_SIZE.
Proof.
  unfold page_offset. change 0xFFF with (Z.ones 12). rewrite Z.land_ones by lia. apply Z.mod_pos_bound. done.
Qed.

(** Masking an address rounds it down to its page. *)
Lemma land_addr_mask x : 0 <= x < 2 ^ 52 -> Z.land x ADDR_MASK = x / PAGE_SIZE * PAGE_SIZE.
Proof.
  intros Hb. rewrite <- land_page_mask by lia. change ADDR_MASK with (Z.land (2 ^ 64 - PAGE_SIZE) (Z.ones 52)).
  rewrite Z.land_assoc, Z.land_ones by lia. apply Z.mod_small. rewrite land_page_mask by lia. unfold PAGE_SIZE.
  pose proof (Z.div_mod x 4096 ltac:(lia)). pose proof (Z.mod_pos_bound x 4096 ltac:(lia)).
  pose proof (Z.div_pos x 4096 ltac:(lia) ltac:(lia)). lia.
Qed.

(** The physical part of an entry and an offset form an address. *)
Lemma phys_in_range e v : PhysAddr_new (entry_phys e + page_offset v) = Some (Some (entry_phys e + page_offset v)).
Proof.
  unfold PhysAddr_new. rewrite (proj2 (Z.ltb_lt _ _)); [done|]. pose proof (offset_range v).
  assert (He : entry_phys e = Z.land (Z.land e (Z.ones 52)) ADDR_MASK).
  { unfold entry_phys. rewrite <- Z.land_assoc. f_equal. }
  pose proof (Z.mod_pos_bound e (2 ^ 52) ltac:(lia)) as Hb.
  rewrite Z.land_ones in He by lia. rewrite He, land_addr_mask by lia. unfold PAGE_SIZE in *.
  assert (e mod 2 ^ 52 / 4096 < 2 ^ 40) by (apply Z.div_lt_upper_bound; lia). lia.
Qed.

Lemma represents_translate m a F v : represents m a F -> translate m root v = Some (abs_translate F v).
Proof.
  intros (T & Htree & _ & Hw). rewrite (translate_walk m T v Htree), (Hw (indices v)) by (done || apply indices_ok).
  unfold abs_translate. destruct (F !! indices v) as [e|]; [|done]. apply phys_in_range.
Qed.

(** ** map_page *)
Lemma map_page_represents v paddr flags m a F r m' a' :
  represents m a F -> aligned paddr -> Z.land flags ADDR_MASK = 0 ->
  map_page alloc root v paddr flags m a = (r, (m', a')) ->
  represents m' a' (abs_step (PT_map v paddr flags) (Res_map r) F).
Proof.
  intros (T & Htree & Hs & Hw) Hp Hf Hm. pose proof (indices_ok v) as Hok. unfold indices in Hok.
  apply Forall_cons in Hok as [H1 Hok]. apply Forall_cons in Hok as [H2 Hok].
  apply Forall_cons in Hok as [H3 Hok]. apply Forall_cons in Hok as [H4 _].
  unfold map_page in Hm.
  destruct (next_table alloc "PDPT" root (pml4_index v) m a) as [r1 [m1 a1]] eqn:N1.
  destruct (next_table_spec alloc _ root root _ m a T [] _ _ _ Htree Hs (tree_root _ _ _ Htree) ltac:(simpl; lia) H1 N1)
    as (T1 & Ht1 & Hs1 & Hw1 & _ & Hr1).
  destruct r1 as [pdpt|e]; [|simplify_eq; exists T1; split_and!; [done..|]; intros; rewrite Hw1 by done; by apply Hw].
  destruct Hr1 as [Hp1 _].
  destruct (next_table alloc "PD" pdpt (pdpt_index v) m1 a1) as [r2 [m2 a2]] eqn:N2.
  destruct (next_table_spec alloc _ root pdpt _ m1 a1 T1 _ _ _ _ Ht1 Hs1 Hp1 ltac:(simpl; lia) H2 N2)
    as (T2 & Ht2 & Hs2 & Hw2 & _ & Hr2).
  destruct r2 as [pd|e]; [|simplify_eq; exists T2; split_and!; [done..|]; intros; rewrite Hw2, Hw1 by done; by apply Hw].
  destruct Hr2 as [Hp2 _].
  destruct (next_table alloc "PT" pd (pd_index v) m2 a2) as [r3 [m3 a3]] eqn:N3.
  destruct (next_table_spec alloc _ root pd _ m2 a2 T2 _ _ _ _ Ht2 Hs2 Hp2 ltac:(simpl; lia) H3 N3)
    as (T3 & Ht3 & Hs3 & Hw3 & _ & Hr3).
  destruct r3 as [pt|e]; [|simplify_eq; exists T3; split_and!; [done..|]; intros; rewrite Hw3, Hw2, Hw1 by done; by apply Hw].
  destruct Hr3 as [Hp3 _]. injection Hm as <- <- <-. exists T3. split_and!; [by eapply leaf_tree|done|].
  intros idx Hl Hi. cbn [abs_step].
  rewrite (leaf_walk m3 root pt (pt_index v) _ T3 _ Ht3 Hp3 ltac:(done) H4 idx root [] (tree_root _ _ _ Ht3))
    by (done || by destruct idx).
  rewrite present_bit, entry_new_bit, Z.lor_spec by lia. rewrite orb_true_r.
  change ([] ++ idx) with idx. case_decide as Heq.
  - assert (idx = indices v) as -> by (by rewrite Heq). by rewrite lookup_insert_eq.
  - rewrite lookup_insert_ne by (intros <-; by apply Heq). rewrite Hw3, Hw2, Hw1 by done. by apply Hw.
Qed.

(** ** unmap_page *)
Lemma unmap_page_tree v m T :
  tree m root T ->
  match walk m root (indices v) with
  | None => unmap_page root v m = (None, m)
  | Some e => exists pt, T !! pt = Some [pml4_index v; pdpt_index v; pd_index v] /\
      unmap_page root v m = (Some (entry_phys e), set_entry pt (pt_index v) 0 m)
  end.
Proof.
  intros Htree. pose proof (indices_ok v) as Hok. unfold indices in *.
  apply Forall_cons in Hok as [H1 Hok]. apply Forall_cons in Hok as [H2 Hok]. apply Forall_cons in Hok as [H3 _].
  unfold unmap_page. cbn [walk].
  destruct (is_present (table_entry m root (pml4_index v))) eqn:P1; [|done]. cbn [negb].
  destruct (tree_edge _ _ _ Htree root [] _ (tree_root _ _ _ Htree) ltac:(simpl; lia) H1 P1) as [_ E1].
  destruct (is_present (table_entry m _ (pdpt_index v))) eqn:P2; [|done]. cbn [negb].
  destruct (tree_edge _ _ _ Htree _ _ _ E1 ltac:(simpl; lia) H2 P2) as [-> E2].
  destruct (is_present (table_entry m _ (pd_index v))) eqn:P3; [|done]. cbn [negb].
  destruct (tree_edge _ _ _ Htree _ _ _ E2 ltac:(simpl; lia) H3 P3) as [-> E3].
  destruct (is_present (table_entry m _ (pt_index v))) eqn:P4; [|done]. by eexists.
Qed.

(** Clearing the entry of a page removes the page from the walks. *)
Lemma clear_entry_walk m T v pt idx :
  tree m root T -> T !! pt = Some [pml4_index v; pdpt_index v; pd_index v] ->
  length idx = 4%nat -> Forall index_ok idx ->
  walk (set_entry pt (pt_index v) 0 m) root idx = if decide (idx = indices v) then None else walk m root idx.
Proof.
  intros Htree Hpt Hl Hi. assert (H4 : index_ok (pt_index v)) by apply land_511.
  rewrite (leaf_walk m root _ (pt_index v) 0 T _ Htree Hpt ltac:(done) H4 idx root [] (tree_root _ _ _ Htree))
    by (done || by destruct idx).
  change ([] ++ idx) with idx. change (_ ++ [pt_index v]) with (indices v). repeat case_decide; done.
Qed.

Lemma unmap_page_represents v m a F :
  represents m a F ->
  represents (unmap_page root v m).2 a (delete (indices v) F) /\
  (unmap_page root v m).1 = entry_phys <$> F !! indices v.
Proof.
  intros (T & Htree & Hs & Hw). pose proof (unmap_page_tree v m T Htree) as Hu.
  rewrite (Hw (indices v) eq_refl (indices_ok v)) in Hu. destruct (F !! indices v) as [e|] eqn:He.
  - destruct Hu as (pt & Hpt & ->). split; [|done]. cbn [snd].
    exists T. split_and!; [eapply leaf_tree; [done|done|done|apply land_511]|done|].
    intros idx Hl Hi. rewrite (clear_entry_walk m T v pt idx) by done.
    case_decide as Heq; [subst; by rewrite lookup_delete_eq|]. rewrite lookup_delete_ne by done. by apply Hw.
  - rewrite Hu. split; [|done]. rewrite delete_id by done. by exists T.
Qed.

(** An empty root table represents the empty map. *)
Lemma cleared_root m :
  aligned root ->
  tree (table_clear root m) root {[root := []]} /\
  forall idx, length idx = 4%nat -> Forall index_ok idx -> walk (table_clear root m) root idx = (∅ : PageMap) !! idx.
Proof.
  intros Hr.
  assert (Hz : forall i, index_ok i -> table_entry (table_clear root m) root i = 0).
  { intros i Hi. unfold table_entry. rewrite read_clear, decide_True; [done|].
    unfold entry_addr, PAGE_SIZE. unfold index_ok in Hi. lia. }
  split.
  - constructor.
    + apply lookup_singleton_eq.
    + intros t p [<- <-]%lookup_singleton_Some. split; [done|simpl; lia].
    + intros t1 t2 p [<- <-]%lookup_singleton_Some [<- _]%lookup_singleton_Some. done.
    + intros t p i [<- <-]%lookup_singleton_Some _ Hi Hp. by rewrite Hz in Hp.
    + intros u p i [_ Hp]%lookup_singleton_Some. by destruct p.
  - intros idx Hl Hi. destruct idx as [|i idx]; [done|]. apply Forall_cons in Hi as [Hi _].
    cbn [walk]. by rewrite Hz.
Qed.

Lemma empty_represents m a :
  aligned root -> (forall f, f ∈ avail a -> aligned f /\ f <> root) ->
  represents (table_clear root m) a ∅.
Proof.
  intros Hr Ha. destruct (cleared_root m Hr) as [Ht Hw]. exists {[root := []]}. split_and!; [done| |done].
  intros f Hf. destruct (Ha f Hf) as [? ?]. split; [done|]. by rewrite lookup_singleton_ne.
Qed.

(** Operations one after the other, with their results. *)
Fixpoint pt_run (ops : list pt_op) (m : Mem) (a : A) : list pt_res * (Mem * A) :=
  match ops with
  | [] => ([], (m, a))
  | op :: ops =>
      let '(res, (m, a)) := pt_step op m a in
      let '(rs, s) := pt_run ops m a in (res :: rs, s)
  end.
End refinement.

Fixpoint abs_run (ops : list pt_op) (rs : list pt_res) (F : PageMap) : PageMap :=
  match ops, rs with
  | op :: ops, res :: rs => abs_run ops rs (abs_step op res F)
  | _, _ => F
  end.

(** Unmapping returns the page's entry. *)
Fixpoint unmaps_right (ops : list pt_op) (rs : list pt_res) (F : PageMap) : Prop :=
  match ops, rs with
  | op :: ops, res :: rs =>
      match op, res with PT_unmap v, Res_unmap r => r = entry_phys <$> F !! indices v | _, _ => True end /\
      unmaps_right ops rs (abs_step op res F)
  | _, _ => True
  end.

(** C13: Page tables refine a finite map from pages to entries: starting from a
    cleared root table and a source of fresh aligned frames, after any sequence of
    mappings (those that fail for want of frames included) and unmappings, every
    virtual address translates as the map says, without panic, and each unmapping
    has returned the physical address the map had; a mapping changes the
    translation of no other page. *)
Theorem page_tables_refine_map {A : Type} (alloc : A -> option Z * A) `{!FrameSource alloc} root m a ops rs m' a' :
  aligned root -> (forall f, f ∈ avail a -> aligned f /\ f <> root) -> Forall pt_op_ok ops ->
  pt_run alloc root ops (table_clear root m) a = (rs, (m', a')) ->
  (forall v, translate m' root v = Some (abs_translate (abs_run ops rs ∅) v)) /\ unmaps_right ops rs ∅.
Proof.
  intros Hr Ha Hok Hrun.
  enough (Hgen : forall ops rs F m a, Forall pt_op_ok ops -> represents alloc root m a F ->
    pt_run alloc root ops m a = (rs, (m', a')) ->
    represents alloc root m' a' (abs_run ops rs F) /\ unmaps_right ops rs F).
  { destruct (Hgen ops rs ∅ _ _ Hok (empty_represents alloc root m a Hr Ha) Hrun) as [Hrep Hun].
    split; [|done]. intros v. by eapply represents_translate. }
  clear. intros ops. induction ops as [|op ops IH]; intros rs F m a Hok Hrep Hrun; cbn [pt_run] in Hrun.
  { by simplify_eq. }
  apply Forall_cons in Hok as [Hop Hok]. destruct op as [v paddr flags|v]; cbn [pt_step] in Hrun.
  - destruct Hop as [Hp Hf]. destruct (map_page alloc root v paddr flags m a) as [r [m1 a1]] eqn:Hm.
    destruct (pt_run alloc root ops m1 a1) as [rs1 s1] eqn:Hr1. simplify_eq. cbn [abs_run unmaps_right].
    destruct (IH rs1 _ m1 a1 Hok (map_page_represents alloc root _ _ _ _ _ _ _ _ _ Hrep Hp Hf Hm) Hr1). done.
  - destruct (unmap_page_represents alloc root v m a F Hrep) as [Hrep1 Hres].
    destruct (unmap_page root v m) as [r m1]. cbn [fst snd] in *.
    destruct (pt_run alloc root ops m1 a) as [rs1 s1] eqn:Hr1. simplify_eq. cbn [abs_run unmaps_right].
    destruct (IH rs1 _ m1 a Hok Hrep1 Hr1). done.
Qed.

(** ** The frame allocator is a source of frames *)
Definition Allocator : Type := { fa : FrameAllocator | fa_inv fa }.

Lemma allocate_frame_inv fa : fa_inv fa -> fa_inv (allocate_frame fa).2.
Proof.
  intros Hinv. pose proof (allocate_frame_spec fa Hinv) as Ha.
  destruct (allocate_frame fa) as [[f|] fa']; simpl; [|by destruct Ha as [-> _]].
  by destruct Ha as (i & _ & _ & ? & _).
Qed.

Definition vmm_allocate_frame (s : Allocator) : option Z * Allocator :=
  ((allocate_frame (proj1_sig s)).1, exist _ (allocate_frame (proj1_sig s)).2 (allocate_frame_inv _ (proj2_sig s))).

#[export] Instance allocator_source : FrameSource vmm_allocate_frame.
Proof.
  refine {| avail := fun s => free_addrs (proj1_sig s) |}.
  - intros [fa Hinv] f [fa' Hinv'] Hal. unfold vmm_allocate_frame in Hal. simpl in *. injection Hal as Hf He.
    pose proof (allocate_frame_spec fa Hinv) as Ha. destruct (allocate_frame fa) as [r fa1]. simpl in *. subst r fa1.
    destruct Ha as (i & Hi & -> & _ & Hs & Hb & _). split; [apply elem_of_map; by exists i|].
    intros a (j & -> & Hj)%elem_of_map. rewrite Hs in Hj. apply elem_of_difference in Hj as [Hj Hne%not_elem_of_singleton].
    assert (Hfj : frame_addr fa' j = frame_addr fa j) by (unfold frame_addr; by rewrite Hb).
    rewrite Hfj. apply elem_of_difference. split; [apply elem_of_map; by exists j|].
    apply not_elem_of_singleton. unfold frame_addr, PAGE_SIZE. lia.
  - intros [fa Hinv] [fa' Hinv'] Hal. unfold vmm_allocate_frame in Hal. simpl in *. injection Hal as Hf He.
    pose proof (allocate_frame_spec fa Hinv) as Ha. destruct (allocate_frame fa) as [r fa1]. simpl in *. subst r fa1.
    destruct Ha as [-> _]. done.
Defined.

(** After initialisation and the allocation of a root table, the remaining frames
    are aligned and different from it. *)
Lemma allocator_ready regions root fa' :
  Forall region_ok (usable_regions regions) ->
  allocate_frame (vmm_init_allocator regions) = (Some root, fa') ->
  aligned root /\ forall s : Allocator, proj1_sig s = fa' -> forall f, f ∈ avail s -> aligned f /\ f <> root.
Proof.
  intros Hok Ha. pose proof (init_regions regions Hok) as [Hinv _ _ Hp]. set (fa := vmm_init_allocator regions) in *.
  pose proof (allocate_frame_spec fa Hinv) as Hs. rewrite Ha in Hs.
  destruct Hs as (i & Hi & -> & _ & Hs & Hb & _).
  assert (Hal : forall j, j ∈ free_set (bitmap fa) -> aligned (frame_addr fa j)).
  { intros j Hj. destruct (Hp j Hj) as (H1 & H2 & r & Hr & H3 & H4). rewrite Forall_forall in Hok.
    destruct (Hok r Hr) as (H5 & H6 & H7). split; [unfold PAGE_SIZE in *; lia|done]. }
  split; [by apply Hal|]. intros [fa1 Hinv1] He f Hf. simpl in He, Hf. subst fa1.
  apply elem_of_map in Hf as (j & -> & Hj). rewrite Hs in Hj.
  apply elem_of_difference in Hj as [Hj Hne%not_elem_of_singleton].
  assert (Hfj : frame_addr fa' j = frame_addr fa j) by (unfold frame_addr; by rewrite Hb).
  rewrite Hfj. split; [by apply Hal|]. unfold frame_addr, PAGE_SIZE. lia.
Qed.

(** Two pages are mapped in a new address space and one is unmapped. *)
Definition small_machine : list MemoryRegionDescriptor := [mk_MemoryRegionDescriptor 0x100000 0x8000 Usable].

Definition rooted : FrameAllocator := (allocate_frame (vmm_init_allocator small_machine)).2.

Lemma small_machine_ok : Forall region_ok (usable_regions small_machine).
Proof. repeat constructor; simpl; lia. Qed.

Definition rooted_source : Allocator :=
  exist _ rooted (allocate_frame_inv _ (fr_inv _ _ (init_regions small_machine small_machine_ok))).

Definition demo_ops : list pt_op :=
  [PT_map 0x400000 0x200000 USER; PT_map 0x401000 0x201000 USER; PT_unmap 0x400000].

Lemma demo_ops_ok : Forall pt_op_ok demo_ops.
Proof. repeat apply Forall_cons_2; [| | |apply Forall_nil_2]; repeat split; (lia || reflexivity). Qed.

Lemma small_root : allocate_frame (vmm_init_allocator small_machine) = (Some 0x100000, rooted).
Proof. vm_compute. reflexivity. Qed.

Lemma demo_results :
  (pt_run vmm_allocate_frame 0x100000 demo_ops (table_clear 0x100000 ∅) rooted_source).1 =
  [Res_map (Ok tt); Res_map (Ok tt); Res_unmap (Some 0x200000)].
Proof. vm_compute. reflexivity. Qed.

Lemma page_tables_refine_map_witness :
  let '(rs, (m', _)) := pt_run vmm_allocate_frame 0x100000 demo_ops (table_clear 0x100000 ∅) rooted_source in
  translate m' 0x100000 0x401234 = Some (Some 0x201234) /\ translate m' 0x100000 0x400000 = Some None.
Proof.
  destruct (pt_run vmm_allocate_frame 0x100000 demo_ops (table_clear 0x100000 ∅) rooted_source) as [rs [m' a']] eqn:Hrun.
  destruct (allocator_ready small_machine 0x100000 rooted small_machine_ok small_root) as [Hr Hf].
  destruct (page_tables_refine_map vmm_allocate_frame 0x100000 ∅ rooted_source demo_ops rs m' a' Hr (Hf rooted_source eq_refl) demo_ops_ok Hrun) as [Ht _].
  pose proof demo_results as Hrs. rewrite Hrun in Hrs. cbn [fst] in Hrs.
  rewrite !Ht, Hrs. split; vm_compute; reflexivity.
Defined.
