(* ===== verification/AddressSpace.v ===== *)
(** * Address spaces (crates/zos-hal/src/x86_64/vmm/address_space.rs, vmm/mod.rs)

    The global frame allocator and physical memory are the state [Vmm]; a frame is
    its start address. TLB flushes are left out. [VirtAddr::new] panics on an
    address that is not canonical; a panic is [None]. *)
From S2P Require Import Prelude FrameRun PageMap.

Local Open Scope Z_scope.

(** ** vmm/mod.rs *)
Record Vmm : Type := mk_Vmm {
  vm_allocator : option FrameAllocator;
  vm_mem : Mem }.

Definition vmm_init (regions : list MemoryRegionDescriptor) (v : Vmm) : Vmm :=
  mk_Vmm (Some (vmm_init_allocator regions)) (vm_mem v).

Definition vm_allocate_frame (v : Vmm) : option Z * Vmm :=
  match vm_allocator v with
  | None => (None, v)
  | Some fa => let '(r, fa') := allocate_frame fa in (r, mk_Vmm (Some fa') (vm_mem v))
  end.

Definition vm_free_frame (f : Z) (v : Vmm) : Vmm :=
  match vm_allocator v with
  | None => v
  | Some fa => mk_Vmm (Some (free_frame f fa)) (vm_mem v)
  end.

Definition frame_stats (v : Vmm) : option (nat * nat) :=
  (fun fa => (free_frames fa, total_frames fa)) <$> vm_allocator v.

Definition VirtAddr_ok (v : Z) : bool := (v <? 2 ^ 47) || (2 ^ 64 - 2 ^ 47 <=? v).

(** ** Protection and regions *)
Record MemoryProtection : Type := mk_MemoryProtection {
  mp_read : bool; mp_write : bool; mp_execute : bool; mp_user : bool }.

Definition mp_read_only : MemoryProtection := mk_MemoryProtection true false false true.
Definition mp_read_write : MemoryProtection := mk_MemoryProtection true true false true.
Definition mp_read_execute : MemoryProtection := mk_MemoryProtection true false true true.
Definition mp_read_write_execute : MemoryProtection := mk_MemoryProtection true true true true.
Definition mp_kernel : MemoryProtection := mk_MemoryProtection true true true false.

Definition to_page_flags (p : MemoryProtection) : Z :=
  let flags := PRESENT in
  let flags := if mp_write p then Z.lor flags WRITABLE else flags in
  let flags := if mp_user p then Z.lor flags USER else flags in
  if mp_execute p then flags else Z.lor flags NO_EXECUTE.

Inductive MemoryBacking : Type :=
| MB_Anonymous
| MB_Physical (frames : list Z)
| MB_Shared (shared_id : Z).

Record MemoryRegion : Type := mk_MemoryRegion {
  reg_base : Z;
  reg_size : Z;
  reg_prot : MemoryProtection;
  reg_backing : MemoryBacking }.

Record AddressSpace : Type := mk_AddressSpace {
  pml4_phys : Z;
  as_regions : gmap Z MemoryRegion;
  mapped_pages : Z;
  table_frames : list Z }.

Definition AddressSpace_new (v : Vmm) : option AddressSpace * Vmm :=
  match vm_allocate_frame v with
  | (None, v) => (None, v)
  | (Some frame, v) =>
      (Some (mk_AddressSpace frame ∅ 0 []), mk_Vmm (vm_allocator v) (table_clear frame (vm_mem v)))
  end.

(** ** Mapping

    The closure of [map_page] allocates and remembers the frame. *)
Definition table_alloc (s : option FrameAllocator * list Z) : option Z * (option FrameAllocator * list Z) :=
  match vm_allocate_frame (mk_Vmm s.1 ∅) with
  | (None, v) => (None, (vm_allocator v, s.2))
  | (Some f, v) => (Some f, (vm_allocator v, (s.2 ++ [f])%list))
  end.

(** [page_table::map_page] on the space's tables. *)
Definition space_map (space : AddressSpace) (vaddr paddr flags : Z) (v : Vmm) : result unit string * (AddressSpace * Vmm) :=
  let '(r, (m, (fa, frames))) :=
    map_page table_alloc (pml4_phys space) vaddr paddr flags (vm_mem v) (vm_allocator v, table_frames space) in
  (r, (mk_AddressSpace (pml4_phys space) (as_regions space) (mapped_pages space) frames, mk_Vmm fa m)).

(** Allocate, zero and map one frame. *)
Definition map_new_frame (what : string) (space : AddressSpace) (vaddr : Z) (prot : MemoryProtection) (v : Vmm)
  : result Z string * (AddressSpace * Vmm) :=
  match vm_allocate_frame v with
  | (None, v) => (Err what, (space, v))
  | (Some frame, v) =>
      let v := mk_Vmm (vm_allocator v) (table_clear frame (vm_mem v)) in
      match space_map space vaddr frame (to_page_flags prot) v with
      | (Ok _, s) => (Ok frame, s)
      | (Err e, s) => (Err e, s)
      end
  end.

Definition record_region (base size : Z) (prot : MemoryProtection) (frames : list Z) (pages : Z) (space : AddressSpace) : AddressSpace :=
  mk_AddressSpace (pml4_phys space)
    (<[base := mk_MemoryRegion base size prot (MB_Physical frames)]> (as_regions space))
    (wrap_u64 (mapped_pages space + pages)) (table_frames space).

Definition as_map_page (space : AddressSpace) (vaddr : Z) (prot : MemoryProtection) (v : Vmm)
  : result unit string * (AddressSpace * Vmm) :=
  match map_new_frame "Failed to allocate frame for page" space vaddr prot v with
  | (Err e, s) => (Err e, s)
  | (Ok frame, (space, v)) => (Ok tt, (record_region vaddr PAGE_SIZE prot [frame] 1 space, v))
  end.

(** The loop of [map_range]; frames mapped before a failure stay mapped. *)
Fixpoint map_range_loop (pages : list nat) (vaddr : Z) (prot : MemoryProtection) (frames : list Z)
    (space : AddressSpace) (v : Vmm) : option (result (list Z) string * (AddressSpace * Vmm)) :=
  match pages with
  | [] => Some (Ok frames, (space, v))
  | i :: rest =>
      let page := wrap_u64 (vaddr + Z.of_nat i * PAGE_SIZE) in
      if negb (VirtAddr_ok page) then None
      else
        match map_new_frame "Failed to allocate frame" space page prot v with
        | (Err e, s) => Some (Err e, s)
        | (Ok frame, (space, v)) => map_range_loop rest vaddr prot (frames ++ [frame])%list space v
        end
  end.

Definition as_map_range (space : AddressSpace) (vaddr size : Z) (prot : MemoryProtection) (v : Vmm)
  : option (result unit string * (AddressSpace * Vmm)) :=
  let num_pages := wrap_u64 (size + PAGE_SIZE - 1) / PAGE_SIZE in
  match map_range_loop (seq 0 (Z.to_nat num_pages)) vaddr prot [] space v with
  | None => None
  | Some (Err e, s) => Some (Err e, s)
  | Some (Ok frames, (space, v)) =>
      Some (Ok tt, (record_region vaddr (num_pages * PAGE_SIZE) prot frames num_pages space, v))
  end.

Definition as_unmap_page (space : AddressSpace) (vaddr : Z) (v : Vmm) : result unit string * (AddressSpace * Vmm) :=
  match unmap_page (pml4_phys space) vaddr (vm_mem v) with
  | (Some paddr, m) =>
      (Ok tt, (mk_AddressSpace (pml4_phys space) (delete vaddr (as_regions space)) (wrap_u64 (mapped_pages space - 1))
                 (table_frames space),
               vm_free_frame paddr (mk_Vmm (vm_allocator v) m)))
  | (None, m) => (Err "Page not mapped", (space, mk_Vmm (vm_allocator v) m))
  end.

Definition as_translate (space : AddressSpace) (vaddr : Z) (v : Vmm) : option (option Z) :=
  translate (vm_mem v) (pml4_phys space) vaddr.

(** The region with the largest base not above the address, if it reaches it. *)
Definition get_region (space : AddressSpace) (vaddr : Z) : option MemoryRegion :=
  match last (filter (fun p => p.1 <= vaddr) (btree_iter (as_regions space))) with
  | Some (_, r) => if vaddr <? wrap_u64 (reg_base r + reg_size r) then Some r else None
  | None => None
  end.

(** The loop of [protect]: pages that are not mapped are skipped. *)
Fixpoint protect_loop (pages : list nat) (vaddr : Z) (prot : MemoryProtection) (space : AddressSpace) (v : Vmm)
  : option (result unit string * (AddressSpace * Vmm)) :=
  match pages with
  | [] => Some (Ok tt, (space, v))
  | i :: rest =>
      let page := wrap_u64 (vaddr + Z.of_nat i * PAGE_SIZE) in
      if negb (VirtAddr_ok page) then None
      else
        match as_translate space page v with
        | None => None
        | Some None => protect_loop rest vaddr prot space v
        | Some (Some paddr) =>
            match space_map space page paddr (to_page_flags prot) v with
            | (Err e, s) => Some (Err e, s)
            | (Ok _, (space, v)) => protect_loop rest vaddr prot space v
            end
        end
  end.

Definition protect (space : AddressSpace) (vaddr size : Z) (prot : MemoryProtection) (v : Vmm)
  : option (result unit string * (AddressSpace * Vmm)) :=
  let num_pages := wrap_u64 (size + PAGE_SIZE - 1) / PAGE_SIZE in
  match protect_loop (seq 0 (Z.to_nat num_pages)) vaddr prot space v with
  | Some (Ok _, (space, v)) =>
      let regions := match as_regions space !! vaddr with
                     | Some r => <[vaddr := mk_MemoryRegion (reg_base r) (reg_size r) prot (reg_backing r)]> (as_regions space)
                     | None => as_regions space
                     end in
      Some (Ok tt, (mk_AddressSpace (pml4_phys space) regions (mapped_pages space) (table_frames space), v))
  | r => r
  end.

(** [drop]: the frames of the regions, of the tables and of the root are freed. *)
Definition region_frames (r : MemoryRegion) : list Z :=
  match reg_backing r with MB_Physical frames => frames | _ => [] end.

Definition as_drop (space : AddressSpace) (v : Vmm) : Vmm :=
  let frames := (mjoin (map (fun p => region_frames p.2) (btree_iter (as_regions space)))
                 ++ table_frames space ++ [pml4_phys space])%list in
  foldl (fun v f => vm_free_frame f v) v frames.

(** ** The region bookkeeping of [unmap_page]

    [unmap_page] frees the frame of the page and forgets the region whose base is
    that page; a region of several pages keeps the freed frame in its list. When
    the space is dropped the frame is freed a second time, whoever owns it. *)
Module Sharing.

Definition machine : Vmm :=
  vmm_init [mk_MemoryRegionDescriptor 0x100000 0xB000 Usable] (mk_Vmm None ∅).

Definition new_space (v : Vmm) : AddressSpace * Vmm :=
  match AddressSpace_new v with
  | (Some sp, v) => (sp, v)
  | (None, v) => (mk_AddressSpace 0 ∅ 0 [], v)
  end.

Definition range_mapped (v : Vmm) : AddressSpace * Vmm :=
  let '(sp, v) := new_space v in
  match as_map_range sp 0x400000 0x2000 mp_read_write v with
  | Some (_, s) => s
  | None => (sp, v)
  end.

(** Two spaces fill the machine; the first one unmaps its second page, and the
    second one maps a page with the frame that became free. *)
Definition two_spaces : AddressSpace * AddressSpace * Vmm :=
  let '(a, v) := range_mapped machine in
  let '(b, v) := new_space v in
  let '(b, v) := (as_map_page b 0x400000 mp_read_write v).2 in
  let '(a, v) := (as_unmap_page a 0x401000 v).2 in
  let '(b, v) := (as_map_page b 0x401000 mp_read_write v).2 in
  (a, b, v).

Definition is_free (f : Z) (v : Vmm) : bool :=
  match vm_allocator v with
  | Some fa => bit_set (bitmap fa) (Z.to_nat ((f - base_addr fa) / PAGE_SIZE))
  | None => false
  end.

(** The second space still translates to the frame, which the allocator now hands out again. *)
Example freed_under_owner :
  (let '(a, b, v) := two_spaces in
   let v' := as_drop a v in
   match as_translate b 0x401000 v' with
   | Some (Some f) => negb (is_free f v) && is_free f v'
   | _ => false
   end) = true.
Proof. vm_compute. reflexivity. Qed.

(** Unmapping the first page of a range forgets the region: the frame of the
    second page is mapped, not free, and no longer freed by [drop]. *)
Example unmap_leaks_range :
  (let '(a, v) := range_mapped machine in
   let '(a, v) := (as_unmap_page a 0x400000 v).2 in
   match as_translate a 0x401000 v with
   | Some (Some f) => negb (is_free f (as_drop a v))
   | _ => false
   end) = true.
Proof. vm_compute. reflexivity. Qed.

End Sharing.
