(* ===== verification/SpaceOps.v ===== *)
(** * The tables of an address space and the frame allocator

    What one mapping or unmapping does to the tables of a space, to the memory
    outside them and to the allocator. [used] is the set of frames that are not
    free. *)
From S2P Require Import Prelude FrameRun PageMap AddressSpace.

Local Open Scope Z_scope.

Lemma allocate_none fa fa' : allocate_frame fa = (None, fa') -> fa' = fa.
Proof. unfold allocate_frame, take_frame. intros Ha. repeat case_match; by simplify_eq. Qed.

Section allocation.
Context (fa0 : FrameAllocator) (Hal : forall f, f ∈ free_addrs fa0 -> aligned f).

Lemma free_addrs_index fa f :
  base_addr fa = base_addr fa0 -> f ∈ free_addrs fa <-> exists i, f = at_index fa0 i /\ i ∈ free_set (bitmap fa).
Proof.
  intros Hb. unfold free_addrs. rewrite elem_of_map. by setoid_rewrite (fun i => frame_addr_base fa0 fa i Hb).
Qed.

(** Every frame is in use or free. *)
Lemma part_total fa used f : partition fa0 fa used -> f ∈ free_addrs fa0 <-> f ∈ used \/ f ∈ free_addrs fa.
Proof.
  intros [_ Hb (X & -> & _ & Hu & _)]. rewrite (free_addrs_index fa0), (free_addrs_index fa) by done.
  rewrite <- Hu, elem_of_map. setoid_rewrite elem_of_union. naive_solver.
Qed.

Lemma part_aligned fa used f : partition fa0 fa used -> f ∈ used -> aligned f.
Proof. intros Hp Hf. apply Hal, (part_total fa used f Hp). by left. Qed.

Lemma part_alloc fa used f fa' :
  partition fa0 fa used -> allocate_frame fa = (Some f, fa') ->
  f ∉ used /\ aligned f /\ partition fa0 fa' ({[f]} ∪ used).
Proof.
  intros Hp Ha. pose proof Hp as [Hinv Hb (X & HX & Hd & _ & _)].
  pose proof (allocate_frame_spec fa Hinv) as Hs. rewrite Ha in Hs. destruct Hs as (i & Hi & -> & H1 & H2 & H3 & H4).
  rewrite (frame_addr_base fa0) by done. split_and!.
  - rewrite HX. intros (j & Hj & HjX)%elem_of_map. unfold at_index, PAGE_SIZE in Hj. assert (i = j) as <- by lia. set_solver.
  - apply Hal, (part_total fa used _ Hp). right. apply free_addrs_index; [done|]. by exists i.
  - rewrite <- (set_map_singleton_L (C:=gset nat) (at_index fa0)).
    eapply (partition_take fa0 fa used fa' {[i]}); try done. by apply singleton_subseteq_l.
Qed.

(** Freeing a frame that is free already does nothing. *)
Lemma part_free fa used f :
  partition fa0 fa used -> f ∈ free_addrs fa0 -> partition fa0 (free_frame f fa) (used ∖ {[f]}).
Proof.
  intros Hp Hf. destruct (decide (f ∈ used)) as [Hu|Hu]; [by apply partition_free|].
  apply (part_total fa used f Hp) in Hf as [|Hf]; [done|]. pose proof Hp as [_ Hb _].
  apply free_addrs_index in Hf as (i & -> & Hi); [|done]. unfold free_frame.
  rewrite (proj2 (Z.ltb_ge _ _)) by (rewrite Hb; unfold at_index, PAGE_SIZE; lia). rewrite Hb, index_of.
  unfold release. apply elem_of_free_set in Hi as [_ ->]. rewrite andb_false_r.
  by rewrite difference_disjoint_L by set_solver.
Qed.

(** ** Tables *)
Section tables.
Context (root : Z).

(** The tables [T] grew by the frames [fs]; no walk changed, and no other table. *)
Record grown (m : Mem) (T : gmap Z (list Z)) (used : gset Z) (fs : list Z) (m' : Mem) (T' : gmap Z (list Z)) (used' : gset Z) : Prop := mk_grown {
  gr_tree : tree m' root T';
  gr_walk : forall idx, length idx = 4%nat -> Forall index_ok idx -> walk m' root idx = walk m root idx;
  gr_sub : T ⊆ T';
  gr_dom : dom T' = dom T ∪ list_to_set fs;
  gr_used : used' = used ∪ list_to_set fs;
  gr_fresh : list_to_set fs ## used;
  gr_frame : forall u j, aligned u -> index_ok j -> T' !! u = None -> table_entry m' u j = table_entry m u j }.

Lemma grown_refl m T used : tree m root T -> grown m T used [] m T used.
Proof. intros Ht. constructor; [done..| | | |done]; simpl; set_solver. Qed.

Lemma grown_trans m T used fs m1 T1 used1 gs m2 T2 used2 :
  grown m T used fs m1 T1 used1 -> grown m1 T1 used1 gs m2 T2 used2 -> grown m T used (fs ++ gs) m2 T2 used2.
Proof.
  intros [A1 A2 A3 A4 A5 A6 A7] [B1 B2 B3 B4 B5 B6 B7]. constructor; [done| | | | | |].
  - intros idx Hl Hi. rewrite B2 by done. by apply A2.
  - by etrans.
  - rewrite B4, A4, list_to_set_app_L. set_solver.
  - rewrite B5, A5, list_to_set_app_L. set_solver.
  - rewrite list_to_set_app_L. set_solver.
  - intros u j Hu Hj Hn. rewrite B7 by done. apply A7; [done..|]. by eapply lookup_weaken_None.
Qed.

(** Linking a fresh table. *)
Lemma linked_outside m t i f u j :
  aligned t -> aligned f -> aligned u -> index_ok i -> index_ok j -> u <> t -> u <> f ->
  table_entry (linked m t i f) u j = table_entry m u j.
Proof.
  intros Ht Hf Hu Hi Hj Hut Huf. unfold table_entry, linked, set_entry. rewrite read_write, read_clear.
  rewrite decide_False by (by intros [? _]%entry_addr_inj).
  rewrite decide_False; [done|]. by intros ?%entry_in_table.
Qed.

Lemma next_table_grown what t i m fa used l T p r m' a' :
  tree m root T -> dom T ⊆ used -> partition fa0 fa used -> T !! t = Some p -> (length p < 3)%nat -> index_ok i ->
  next_table table_alloc what t i m (Some fa, l) = (r, (m', a')) ->
  exists T' used' fa' fs, a' = (Some fa', (l ++ fs)%list) /\ partition fa0 fa' used' /\
    grown m T used fs m' T' used' /\
    match r with Ok t' => T' !! t' = Some (p ++ [i]) | Err _ => True end.
Proof.
  intros Htree Hdom Hp Ht Hl Hi Hn. unfold next_table in Hn. destruct (is_present (table_entry m t i)) eqn:Hpr.
  { injection Hn as <- <- <-. destruct (tree_edge _ _ _ Htree t p i Ht Hl Hi Hpr) as [_ Hc].
    exists T, used, fa, []. rewrite app_nil_r. split_and!; [done..|by apply grown_refl|done]. }
  unfold table_alloc, vm_allocate_frame in Hn. cbn [fst snd vm_allocator] in Hn.
  destruct (allocate_frame fa) as [[f|] fa1] eqn:Ha; cbn in Hn; injection Hn as <- <- <-.
  2: { apply allocate_none in Ha as ->. exists T, used, fa, []. rewrite app_nil_r.
       split_and!; [done..|by apply grown_refl|done]. }
  destruct (part_alloc fa used f fa1 Hp Ha) as (Hfu & Hf & Hp').
  assert (Hfresh : T !! f = None) by (apply not_elem_of_dom; set_solver).
  exists (<[f := p ++ [i]]> T), (used ∪ {[f]}), fa1, [f]. fold (linked m t i f).
  split_and!; [done|by rewrite (union_comm_L used)| |apply lookup_insert_eq].
  pose proof (tree_aligned _ _ _ Htree _ _ Ht) as [Hta _]. constructor.
  - by apply linked_tree.
  - intros idx Hlen Hok. by apply (linked_walk m root t i f T p Htree Ht Hl Hi Hpr Hf Hfresh idx root []); [apply Htree|..].
  - by apply insert_subseteq.
  - rewrite dom_insert_L. simpl. set_solver.
  - simpl. set_solver.
  - simpl. set_solver.
  - intros u j Hu Hj Hn. apply lookup_insert_None in Hn as [Hn Hne].
    apply linked_outside; try done; congruence.
Qed.

(** The whole of [map_page]: the tables grow, and on success one entry is written. *)
Lemma map_page_grown v paddr flags m fa used l T r m' a' :
  tree m root T -> dom T ⊆ used -> partition fa0 fa used ->
  map_page table_alloc root v paddr flags m (Some fa, l) = (r, (m', a')) ->
  exists T' used' fa' fs m1, a' = (Some fa', (l ++ fs)%list) /\ partition fa0 fa' used' /\
    grown m T used fs m1 T' used' /\
    match r with
    | Err _ => m' = m1
    | Ok _ => exists pt, T' !! pt = Some [pml4_index v; pdpt_index v; pd_index v] /\
        m' = set_entry pt (pt_index v) (entry_new paddr (Z.lor flags PRESENT)) m1
    end.
Proof.
  intros Htree Hd Hp Hm. pose proof (indices_ok v) as Hok. unfold indices in Hok.
  apply Forall_cons in Hok as [H1 Hok]. apply Forall_cons in Hok as [H2 Hok]. apply Forall_cons in Hok as [H3 _].
  unfold map_page in Hm.
  destruct (next_table table_alloc "PDPT" root (pml4_index v) m (Some fa, l)) as [r1 [m1 a1]] eqn:N1.
  destruct (next_table_grown _ root _ m fa used l T [] _ _ _ Htree Hd Hp (tree_root _ _ _ Htree) ltac:(simpl; lia) H1 N1)
    as (T1 & u1 & fa1 & fs1 & -> & P1 & G1 & R1).
  destruct r1 as [pdpt|e]; [|simplify_eq; by exists T1, u1, fa1, fs1, m'].
  assert (Hd1 : dom T1 ⊆ u1) by (rewrite (gr_dom _ _ _ _ _ _ _ G1), (gr_used _ _ _ _ _ _ _ G1); set_solver).
  destruct (next_table table_alloc "PD" pdpt (pdpt_index v) m1 _) as [r2 [m2 a2]] eqn:N2.
  destruct (next_table_grown _ pdpt _ m1 fa1 u1 _ T1 _ _ _ _ (gr_tree _ _ _ _ _ _ _ G1) Hd1 P1 R1 ltac:(simpl; lia) H2 N2)
    as (T2 & u2 & fa2 & fs2 & -> & P2 & G2 & R2). pose proof (grown_trans _ _ _ _ _ _ _ _ _ _ _ G1 G2) as G12.
  destruct r2 as [pd|e]; [|simplify_eq; rewrite <- app_assoc; by eexists T2, u2, fa2, _, m'].
  assert (Hd2 : dom T2 ⊆ u2) by (rewrite (gr_dom _ _ _ _ _ _ _ G12), (gr_used _ _ _ _ _ _ _ G12); set_solver).
  destruct (next_table table_alloc "PT" pd (pd_index v) m2 _) as [r3 [m3 a3]] eqn:N3.
  destruct (next_table_grown _ pd _ m2 fa2 u2 _ T2 _ _ _ _ (gr_tree _ _ _ _ _ _ _ G2) Hd2 P2 R2 ltac:(simpl; lia) H3 N3)
    as (T3 & u3 & fa3 & fs3 & -> & P3 & G3 & R3). pose proof (grown_trans _ _ _ _ _ _ _ _ _ _ _ G12 G3) as G123.
  rewrite <- !app_assoc in *. destruct r3 as [pt|e]; injection Hm as <- <- <-; eexists T3, u3, fa3, _, m3; split_and!; try done.
  by exists pt.
Qed.

(** Entries of a last-level table written over, seen from other tables. *)
Lemma set_entry_outside m t i e u j :
  aligned t -> aligned u -> index_ok i -> index_ok j -> u <> t -> table_entry (set_entry t i e m) u j = table_entry m u j.
Proof.
  intros Ht Hu Hi Hj Hne. unfold table_entry, set_entry. rewrite read_write.
  by rewrite decide_False by (by intros [? _]%entry_addr_inj).
Qed.

Lemma table_clear_outside m t u j :
  aligned t -> aligned u -> index_ok j -> u <> t -> table_entry (table_clear t m) u j = table_entry m u j.
Proof.
  intros Ht Hu Hj Hne. unfold table_entry. rewrite read_clear. by rewrite decide_False by (by intros ?%entry_in_table).
Qed.

(** ** Trees and walks depend on their own tables only *)
Definition agree (T : gmap Z (list Z)) (m m' : Mem) : Prop :=
  forall u j, u ∈ dom T -> index_ok j -> table_entry m' u j = table_entry m u j.

Lemma agree_lookup T m m' u p j :
  agree T m m' -> T !! u = Some p -> index_ok j -> table_entry m' u j = table_entry m u j.
Proof. intros Ha Hu. apply Ha. by apply elem_of_dom. Qed.

Lemma tree_agree m m' T : agree T m m' -> tree m root T -> tree m' root T.
Proof.
  intros Ha Ht. constructor; [apply Ht..| |].
  - intros t p i Htp Hl Hi. rewrite (agree_lookup T m m' t p i Ha) by done. by apply (tree_edge _ _ _ Ht).
  - intros u p i Hu. destruct (tree_link _ _ _ Ht u p i Hu) as (t & H1 & H2 & H3). exists t.
    by rewrite (agree_lookup T m m' t p i Ha).
Qed.

Lemma walk_agree m m' T rest u q :
  agree T m m' -> tree m root T -> T !! u = Some q -> (length q + length rest = 4)%nat -> Forall index_ok rest ->
  walk m' u rest = walk m u rest.
Proof.
  intros Ha Ht. revert u q. induction rest as [|j rest IH]; intros u q Hu Hl Hok; [done|].
  apply Forall_cons in Hok as [Hj Hok]. cbn [walk]. rewrite (agree_lookup T m m' u q j Ha) by done.
  destruct (is_present (table_entry m u j)) eqn:He; [|done]. destruct rest as [|k rest]; [done|].
  destruct (tree_edge _ _ _ Ht u q j Hu ltac:(simpl in Hl; lia) Hj He) as [_ Hn].
  apply (IH _ (q ++ [j])); [done| |done]. rewrite length_app. simpl in *. lia.
Qed.
End tables.
End allocation.

(** * What an operation does to its own address space, and to nothing else *)

Local Open Scope Z_scope.

(** The frames behind a space: its tables, what they map, and its pages. *)
Record Own : Type := mk_Own {
  ow_tables : gmap Z (list Z);
  ow_map : PageMap;
  ow_pages : gset Z }.

Definition owned (o : Own) : gset Z := dom (ow_tables o) ∪ ow_pages o.

Record space_inv (m : Mem) (sp : AddressSpace) (o : Own) : Prop := mk_space_inv {
  si_tree : tree m (pml4_phys sp) (ow_tables o);
  si_walk : forall idx, length idx = 4%nat -> Forall index_ok idx -> walk m (pml4_phys sp) idx = ow_map o !! idx;
  si_dom : dom (ow_tables o) = {[pml4_phys sp]} ∪ list_to_set (table_frames sp);
  si_page : forall idx e, ow_map o !! idx = Some e -> entry_phys e ∈ ow_pages o;
  si_inj : forall idx idx' e e', ow_map o !! idx = Some e -> ow_map o !! idx' = Some e' ->
    entry_phys e = entry_phys e' -> idx = idx';
  si_sep : dom (ow_tables o) ## ow_pages o }.

(** The frames of the regions are pages of the space, each in one region. *)
Record tidy (sp : AddressSpace) (o : Own) : Prop := mk_tidy {
  td_page : forall k r f, as_regions sp !! k = Some r -> f ∈ region_frames r -> f ∈ ow_pages o;
  td_once : forall k k' r r' f, as_regions sp !! k = Some r -> as_regions sp !! k' = Some r' ->
    f ∈ region_frames r -> f ∈ region_frames r' -> k = k' }.

Lemma space_inv_agree m m' sp o : agree (ow_tables o) m m' -> space_inv m sp o -> space_inv m' sp o.
Proof.
  intros Ha [H1 H2 H3 H4 H5 H6]. constructor; [by eapply tree_agree| |done..].
  intros idx Hl Hi. rewrite <- H2 by done. eapply walk_agree; [done|exact H1|apply H1|done|done].
Qed.

Lemma space_translate m sp o v :
  space_inv m sp o -> translate m (pml4_phys sp) v = Some (abs_translate (ow_map o) v).
Proof.
  intros Hi. rewrite (translate_walk _ m (ow_tables o) v (si_tree _ _ _ Hi)).
  rewrite (si_walk _ _ _ Hi) by (done || apply indices_ok). unfold abs_translate.
  destruct (ow_map o !! indices v); [apply phys_in_range|done].
Qed.

Section steps.
Context (fa0 : FrameAllocator) (Hal : forall f, f ∈ free_addrs fa0 -> aligned f).

(** A step of one space: what it newly owns was free, and frames in use that it
    does not own stay in use, with the entries they hold. *)
Record local (m : Mem) (used : gset Z) (o : Own) (m' : Mem) (fa' : FrameAllocator) (used' : gset Z) (sp' : AddressSpace) (o' : Own) : Prop := mk_local {
  lo_inv : space_inv m' sp' o';
  lo_part : partition fa0 fa' used';
  lo_owned : owned o' ⊆ used';
  lo_new : forall f, f ∈ owned o' -> f ∈ owned o \/ f ∉ used;
  lo_keep : forall f, f ∈ used -> f ∉ owned o -> f ∈ used';
  lo_frame : forall u j, u ∈ used -> u ∉ owned o -> index_ok j -> table_entry m' u j = table_entry m u j }.

Lemma local_refl m fa used sp o :
  space_inv m sp o -> partition fa0 fa used -> owned o ⊆ used -> local m used o m fa used sp o.
Proof. intros Hi Hp Ho. constructor; try done. intros f Hf. by left. Qed.

Lemma local_trans m used o m1 fa1 used1 sp1 o1 m2 fa2 used2 sp2 o2 :
  local m used o m1 fa1 used1 sp1 o1 -> local m1 used1 o1 m2 fa2 used2 sp2 o2 -> local m used o m2 fa2 used2 sp2 o2.
Proof.
  intros [A1 A2 A3 A4 A5 A6] [B1 B2 B3 B4 B5 B6].
  assert (Hout : forall f, f ∈ used -> f ∉ owned o -> f ∈ used1 /\ f ∉ owned o1).
  { intros f Hu Ho. split; [by apply A5|]. by intros [|]%A4. }
  constructor; [done..| | |].
  - intros f [Hf|Hf]%B4; [by apply A4|]. destruct (decide (f ∈ used)) as [Hu|]; [|by right].
    destruct (decide (f ∈ owned o)) as [|Ho]; [by left|]. by destruct (Hout f Hu Ho).
  - intros f Hu Ho. destruct (Hout f Hu Ho). by apply B5.
  - intros u j Hu Ho Hj. destruct (Hout u Hu Ho). rewrite B6 by done. by apply A6.
Qed.

(** *** A fresh, cleared page *)
Lemma local_page m fa used sp o f fa' :
  space_inv m sp o -> partition fa0 fa used -> owned o ⊆ used -> allocate_frame fa = (Some f, fa') ->
  f ∉ used /\ aligned f /\
  local m used o (table_clear f m) fa' ({[f]} ∪ used) sp (mk_Own (ow_tables o) (ow_map o) ({[f]} ∪ ow_pages o)).
Proof.
  intros Hi Hp Ho Ha. destruct (part_alloc fa0 Hal fa used f fa' Hp Ha) as (Hf & Hfa & Hp'). split_and!; [done..|].
  assert (Hout : forall u j, u ∈ used -> index_ok j -> table_entry (table_clear f m) u j = table_entry m u j).
  { intros u j Hu Hj. apply table_clear_outside; [done|by apply (part_aligned fa0 Hal fa used)|done|]. by intros ->. }
  unfold owned in Ho. constructor; unfold owned; simpl.
  - assert (Hi' : space_inv (table_clear f m) sp o).
    { apply (space_inv_agree m); [|done]. intros u j Hu Hj. apply Hout; set_solver. }
    destruct Hi' as [H1 H2 H3 H4 H5 H6]. constructor; simpl; [done..| |done|set_solver].
    intros idx e He. apply H4 in He. set_solver.
  - done.
  - set_solver.
  - intros g Hg. rewrite !elem_of_union, elem_of_singleton in Hg.
    destruct Hg as [Hg|[->|Hg]]; [left; set_solver|by right|left; set_solver].
  - set_solver.
  - intros u j Hu _. by apply Hout.
Qed.

(** *** Mapping a page of the space *)
Lemma local_map v paddr flags m fa used sp o r m' a' :
  space_inv m sp o -> partition fa0 fa used -> owned o ⊆ used ->
  map_page table_alloc (pml4_phys sp) v paddr flags m (Some fa, table_frames sp) = (r, (m', a')) ->
  entry_phys (entry_new paddr (Z.lor flags PRESENT)) ∈ ow_pages o ->
  (forall idx e, ow_map o !! idx = Some e -> entry_phys e = entry_phys (entry_new paddr (Z.lor flags PRESENT)) -> idx = indices v) ->
  exists fa' frames used' T',
    a' = (Some fa', frames) /\
    local m used o m' fa' used' (mk_AddressSpace (pml4_phys sp) (as_regions sp) (mapped_pages sp) frames)
      (mk_Own T' (abs_step (PT_map v paddr flags) (Res_map r) (ow_map o)) (ow_pages o)).
Proof.
  intros Hi Hp Ho Hm Hpg Hinj. pose proof Hi as [I1 I2 I3 I4 I5 I6]. unfold owned in Ho.
  assert (Hd : dom (ow_tables o) ⊆ used) by set_solver.
  destruct (map_page_grown fa0 Hal _ _ _ _ _ _ _ _ _ _ _ _ I1 Hd Hp Hm)
    as (T' & used' & fa' & fs & m1 & -> & Hp' & [G1 G2 G3 G4 G5 G6 G7] & Hr).
  exists fa', (table_frames sp ++ fs)%list, used', T'. split; [done|].
  assert (Hal' : forall u, u ∈ used -> aligned u) by (intros; by apply (part_aligned fa0 Hal fa used)).
  assert (Hdom : dom T' = {[pml4_phys sp]} ∪ list_to_set (table_frames sp ++ fs))
    by (rewrite G4, I3, list_to_set_app_L; set_solver).
  assert (Hsep : dom T' ## ow_pages o) by (rewrite G4; set_solver).
  assert (Hsub : dom T' ∪ ow_pages o ⊆ used') by (rewrite G4, G5; set_solver).
  assert (Hnew : forall f, f ∈ dom T' ∪ ow_pages o -> f ∈ owned o \/ f ∉ used).
  { unfold owned. intros f. rewrite G4. set_solver. }
  assert (Hnot : forall u, u ∈ used -> u ∉ owned o -> T' !! u = None).
  { intros u Hu Hn. apply not_elem_of_dom. rewrite G4. unfold owned in Hn. set_solver. }
  destruct r as [u|e]; cbn [abs_step].
  - destruct Hr as (pt & Hpt & ->). pose proof (indices_ok v) as Hok. unfold indices in Hok.
    repeat (apply Forall_cons in Hok as [? Hok]).
    assert (Hpta : aligned pt) by (by destruct (tree_aligned _ _ _ G1 pt _ Hpt)).
    constructor; simpl; [|done|exact Hsub|exact Hnew|rewrite G5; set_solver|].
    + constructor; simpl; [by eapply leaf_tree| |done| | |done].
      * intros idx Hl Hx. rewrite (leaf_walk m1 (pml4_phys sp) pt (pt_index v) _ T' _ G1 Hpt ltac:(done) ltac:(done) idx _ [] (tree_root _ _ _ G1)) by (done || by destruct idx).
        rewrite present_bit, entry_new_bit, Z.lor_spec, orb_true_r by lia. change ([] ++ idx) with idx.
        case_decide as Heq; [assert (idx = indices v) as -> by (by rewrite Heq); by rewrite lookup_insert_eq|].
        rewrite lookup_insert_ne by (intros <-; by apply Heq). rewrite G2 by done. by apply I2.
      * intros idx e [[<- <-]|[_ He]]%lookup_insert_Some; [done|by apply I4 in He].
      * intros idx idx' e e' [[<- <-]|[_ E1]]%lookup_insert_Some [[<- <-]|[_ E2]]%lookup_insert_Some Heq; try done.
        -- symmetry. by eapply Hinj.
        -- by eapply Hinj.
        -- by eapply I5.
    + intros w j Hw Hn Hj. rewrite set_entry_outside; [apply G7; auto|done|auto|done|done|].
      intros ->. rewrite Hnot in Hpt by done. done.
  - subst m1. constructor; simpl; [|done|exact Hsub|exact Hnew|rewrite G5; set_solver|].
    + constructor; simpl; try done. intros idx Hl Hx. rewrite G2 by done. by apply I2.
    + intros w j Hw Hn Hj. apply G7; auto.
Qed.

(** *** Unmapping a page *)
Lemma local_unmap v m fa used sp sp' o :
  space_inv m sp o -> partition fa0 fa used -> owned o ⊆ used ->
  pml4_phys sp' = pml4_phys sp -> table_frames sp' = table_frames sp ->
  match unmap_page (pml4_phys sp) v m with
  | (None, m') => m' = m
  | (Some f, m') => f ∈ ow_pages o /\
      local m used o m' (free_frame f fa) (used ∖ {[f]}) sp'
        (mk_Own (ow_tables o) (delete (indices v) (ow_map o)) (ow_pages o ∖ {[f]}))
  end.
Proof.
  intros Hi Hp Ho Hroot Htf. pose proof Hi as [I1 I2 I3 I4 I5 I6]. unfold owned in Ho.
  pose proof (unmap_page_tree _ v m _ I1) as Hu. rewrite (I2 (indices v) eq_refl (indices_ok v)) in Hu.
  destruct (ow_map o !! indices v) as [e|] eqn:He; [|by rewrite Hu].
  destruct Hu as (pt & Hpt & ->). pose proof (I4 _ _ He) as Hpg. split; [done|].
  assert (Hfu : entry_phys e ∈ used) by set_solver.
  assert (Hptd : pt ∈ dom (ow_tables o)) by (by apply elem_of_dom). constructor; unfold owned; simpl.
  - constructor; simpl; rewrite ?Hroot, ?Htf; [eapply leaf_tree; [done|done|done|apply land_511]| |done| | |set_solver].
    + intros idx Hl Hx. rewrite (clear_entry_walk _ m (ow_tables o) v pt idx) by done.
      case_decide as Heq; [subst; by rewrite lookup_delete_eq|]. rewrite lookup_delete_ne by done. by apply I2.
    + intros idx e' [Hne He']%lookup_delete_Some. apply elem_of_difference. split; [by eapply I4|].
      apply not_elem_of_singleton. intros Heq. apply Hne. by eapply I5.
    + intros idx idx' e1 e2 [_ E1]%lookup_delete_Some [_ E2]%lookup_delete_Some. by eapply I5.
  - apply (part_free fa0 Hal); [done|]. apply (part_total fa0 fa used _ Hp). by left.
  - set_solver.
  - set_solver.
  - set_solver.
  - intros u j Hu Hn Hj. apply set_entry_outside; [|by apply (part_aligned fa0 Hal fa used)|apply land_511|done|set_solver].
    apply (part_aligned fa0 Hal fa used); [done|set_solver].
Qed.

(** ** Operations of address spaces *)
Definition vstep (v : Vmm) (used : gset Z) (o : Own) (v' : Vmm) (used' : gset Z) (sp' : AddressSpace) (o' : Own) : Prop :=
  exists fa', vm_allocator v' = Some fa' /\ local (vm_mem v) used o (vm_mem v') fa' used' sp' o'.

Definition good (v : Vmm) (used : gset Z) (sp : AddressSpace) (o : Own) : Prop :=
  exists fa, vm_allocator v = Some fa /\ partition fa0 fa used /\ space_inv (vm_mem v) sp o /\ owned o ⊆ used.

Lemma vstep_good v used o v' used' sp' o' : vstep v used o v' used' sp' o' -> good v' used' sp' o'.
Proof. intros (fa' & Hfa & [H1 H2 H3 _ _ _]). by exists fa'. Qed.

Lemma vstep_refl v used sp o : good v used sp o -> vstep v used o v used sp o.
Proof. intros (fa & Hfa & H1 & H2 & H3). exists fa. split; [done|by apply local_refl]. Qed.

Lemma vstep_trans v used o v1 used1 sp1 o1 v2 used2 sp2 o2 :
  vstep v used o v1 used1 sp1 o1 -> vstep v1 used1 o1 v2 used2 sp2 o2 -> vstep v used o v2 used2 sp2 o2.
Proof. intros (fa1 & _ & H1) (fa2 & Hfa & H2). exists fa2. split; [done|by eapply local_trans]. Qed.

Lemma page_flags_mask prot : Z.land (Z.lor (to_page_flags prot) PRESENT) ADDR_MASK = 0.
Proof. by destruct prot as [[] [] [] []]. Qed.

Lemma entry_phys_new f prot :
  aligned f -> entry_phys (entry_new f (Z.lor (to_page_flags prot) PRESENT)) = f.
Proof. intros Hf. apply entry_new_phys; [done|apply page_flags_mask]. Qed.

(** An address within a page names the frame of the page. *)
Lemma entry_phys_offset f v prot :
  aligned f -> entry_phys (entry_new (f + page_offset v) (Z.lor (to_page_flags prot) PRESENT)) = f.
Proof.
  intros [Hf Hm]. pose proof (offset_range v) as Hv. unfold PAGE_SIZE in *.
  pose proof (Z.div_mod f 4096 ltac:(lia)) as Hd.
  assert (Hr : 0 <= f + page_offset v < 2 ^ 52) by (assert (f / 4096 < 2 ^ 40) by (apply Z.div_lt_upper_bound; lia); lia).
  unfold entry_phys, entry_new. rewrite Z.land_lor_distr_l, page_flags_mask, Z.lor_0_r, <- Z.land_assoc, Z.land_diag.
  rewrite land_addr_mask by done. unfold PAGE_SIZE. rewrite Hd at 1. rewrite Hm, Z.add_0_r.
  replace (4096 * (f / 4096) + page_offset v) with (page_offset v + f / 4096 * 4096) by lia.
  rewrite Z.div_add, Z.div_small by lia. lia.
Qed.

Lemma space_map_ok sp vaddr paddr prot v used o r sp' v' :
  good v used sp o -> space_map sp vaddr paddr (to_page_flags prot) v = (r, (sp', v')) ->
  entry_phys (entry_new paddr (Z.lor (to_page_flags prot) PRESENT)) ∈ ow_pages o ->
  (forall idx e, ow_map o !! idx = Some e ->
     entry_phys e = entry_phys (entry_new paddr (Z.lor (to_page_flags prot) PRESENT)) -> idx = indices vaddr) ->
  as_regions sp' = as_regions sp /\
  exists used' o', vstep v used o v' used' sp' o' /\ ow_pages o' = ow_pages o.
Proof.
  intros (fa & Hfa & Hp & Hi & Ho) Hm Hpg Hinj. unfold space_map in Hm. rewrite Hfa in Hm.
  destruct (map_page table_alloc (pml4_phys sp) vaddr paddr (to_page_flags prot) (vm_mem v) (Some fa, table_frames sp))
    as [r1 [m1 a1]] eqn:Hmp.
  destruct (local_map _ _ _ _ _ _ _ _ _ _ _ Hi Hp Ho Hmp Hpg Hinj) as (fa' & frames & used' & T' & -> & Hl).
  injection Hm as <- <- <-. split; [done|]. exists used', (mk_Own T' (abs_step (PT_map vaddr paddr (to_page_flags prot)) (Res_map r1) (ow_map o)) (ow_pages o)).
  split; [|done]. by exists fa'.
Qed.

Lemma map_new_frame_ok what sp vaddr prot v used o r sp' v' :
  good v used sp o -> map_new_frame what sp vaddr prot v = (r, (sp', v')) ->
  as_regions sp' = as_regions sp /\
  exists used' o', vstep v used o v' used' sp' o' /\ ow_pages o ⊆ ow_pages o' /\
    match r with Ok f => f ∈ ow_pages o' /\ f ∉ ow_pages o | Err _ => True end.
Proof.
  intros Hg Hm. pose proof Hg as (fa & Hfa & Hp & Hi & Ho). unfold map_new_frame, vm_allocate_frame in Hm.
  rewrite Hfa in Hm. destruct (allocate_frame fa) as [[f|] fa1] eqn:Ha; cbn [vm_allocator vm_mem] in Hm.
  2: { injection Hm as <- <- <-. apply allocate_none in Ha as ->. split; [done|]. exists used, o.
       split; [|done]. destruct v as [al m]. simpl in *. subst al. by apply vstep_refl. }
  destruct (local_page _ _ _ _ _ _ _ Hi Hp Ho Ha) as (Hf & Hfa' & Hl).
  set (o1 := mk_Own (ow_tables o) (ow_map o) ({[f]} ∪ ow_pages o)) in *. set (v1 := mk_Vmm (Some fa1) _) in Hm.
  assert (Hs1 : vstep v used o v1 ({[f]} ∪ used) sp o1) by (by exists fa1).
  assert (Hnew : f ∉ ow_pages o) by (unfold owned in Ho; set_solver).
  destruct (space_map sp vaddr f (to_page_flags prot) v1) as [r1 [sp1 v2]] eqn:Hsm.
  destruct (space_map_ok _ _ _ _ _ _ _ _ _ _ (vstep_good _ _ _ _ _ _ _ Hs1) Hsm) as (Hreg & used2 & o2 & Hs2 & Hpg).
  { rewrite entry_phys_new by done. simpl. set_solver. }
  { intros idx e He. rewrite entry_phys_new by done. intros <-. by apply (si_page _ _ _ Hi) in He. }
  assert (Hsub : ow_pages o ⊆ ow_pages o2) by (rewrite Hpg; simpl; set_solver).
  pose proof (vstep_trans _ _ _ _ _ _ _ _ _ _ _ Hs1 Hs2) as Hs.
  destruct r1; injection Hm as <- <- <-; (split; [done|]); exists used2, o2; split_and!; try done.
  rewrite Hpg. simpl. set_solver.
Qed.
End steps.

(** * The operations of address spaces keep their invariants *)

Local Open Scope Z_scope.

Lemma tidy_mono sp o sp' o' :
  tidy sp o -> as_regions sp' = as_regions sp -> ow_pages o ⊆ ow_pages o' -> tidy sp' o'.
Proof. intros [H1 H2] Hr Hp. constructor; rewrite Hr; [|done]. intros k r f Hk Hf. apply Hp. by eapply H1. Qed.

(** Recording a region of new pages. *)
Lemma tidy_record base size prot frames n sp o sp' o' :
  tidy sp o -> as_regions sp' = as_regions sp -> ow_pages o ⊆ ow_pages o' ->
  (forall f, f ∈ frames -> f ∈ ow_pages o' /\ f ∉ ow_pages o) ->
  tidy (record_region base size prot frames n sp') o'.
Proof.
  intros [H1 H2] Hr Hp Hf. constructor; simpl; rewrite Hr.
  - intros k r f [[<- <-]|[_ Hk]]%lookup_insert_Some Hin; [by apply Hf|]. apply Hp. by eapply H1.
  - intros k k' r r' f [[<- <-]|[_ Hk]]%lookup_insert_Some [[<- <-]|[_ Hk']]%lookup_insert_Some Hin Hin'; [done| | |by eapply H2].
    + exfalso. apply Hf in Hin as [_ []]. by eapply H1.
    + exfalso. apply Hf in Hin' as [_ []]. by eapply H1.
Qed.

Lemma space_inv_same m sp sp' o :
  pml4_phys sp' = pml4_phys sp -> table_frames sp' = table_frames sp -> space_inv m sp o -> space_inv m sp' o.
Proof. intros Hr Ht [H1 H2 H3 H4 H5 H6]. constructor; by rewrite ?Hr, ?Ht. Qed.

Section ops.
Context (fa0 : FrameAllocator) (Hal : forall f, f ∈ free_addrs fa0 -> aligned f).

Lemma vstep_same v used o v' used' sp1 sp2 o' :
  pml4_phys sp2 = pml4_phys sp1 -> table_frames sp2 = table_frames sp1 ->
  vstep fa0 v used o v' used' sp1 o' -> vstep fa0 v used o v' used' sp2 o'.
Proof.
  intros Hr Ht (fa' & Hfa & [H1 H2 H3 H4 H5 H6]). exists fa'. split; [done|]. constructor; try done.
  by eapply space_inv_same.
Qed.

(** A step of the space that keeps its regions in order. *)
Definition op_ok (v : Vmm) (used : gset Z) (sp : AddressSpace) (o : Own) (v' : Vmm) (sp' : AddressSpace) : Prop :=
  exists used' o', vstep fa0 v used o v' used' sp' o' /\ (tidy sp o -> tidy sp' o').

Lemma as_map_page_ok sp vaddr prot v used o r sp' v' :
  good fa0 v used sp o -> as_map_page sp vaddr prot v = (r, (sp', v')) -> op_ok v used sp o v' sp'.
Proof.
  intros Hg Hm. unfold as_map_page in Hm.
  destruct (map_new_frame _ sp vaddr prot v) as [r1 [sp1 v1]] eqn:Hn.
  destruct (map_new_frame_ok fa0 Hal _ _ _ _ _ _ _ _ _ _ Hg Hn) as (Hreg & used' & o' & Hs & Hp & Hr).
  exists used', o'. destruct r1 as [f|e]; injection Hm as <- <- <-.
  - split; [by eapply vstep_same; [..|exact Hs]|]. intros Ht. eapply tidy_record; [done..|].
    by intros g ->%list_elem_of_singleton.
  - split; [done|]. intros Ht. by eapply tidy_mono.
Qed.

Lemma map_range_loop_ok ps vaddr prot sp v used o acc r sp' v' :
  good fa0 v used sp o -> map_range_loop ps vaddr prot acc sp v = Some (r, (sp', v')) ->
  as_regions sp' = as_regions sp /\
  exists used' o', vstep fa0 v used o v' used' sp' o' /\ ow_pages o ⊆ ow_pages o' /\
    match r with
    | Ok frames => exists fs, frames = (acc ++ fs)%list /\ forall f, f ∈ fs -> f ∈ ow_pages o' /\ f ∉ ow_pages o
    | Err _ => True
    end.
Proof.
  revert sp v used o acc. induction ps as [|i ps IH]; intros sp v used o acc Hg Hm; cbn [map_range_loop] in Hm.
  - injection Hm as <- <- <-. split; [done|]. exists used, o. split_and!; [by apply vstep_refl|done|].
    exists []. rewrite app_nil_r. split; [done|]. by intros f ?%not_elem_of_nil.
  - destruct (negb _); [done|]. destruct (map_new_frame _ sp _ prot v) as [[f|e] [sp1 v1]] eqn:Hn;
      destruct (map_new_frame_ok fa0 Hal _ _ _ _ _ _ _ _ _ _ Hg Hn) as (Hreg & used1 & o1 & Hs1 & Hp1 & Hr1).
    + destruct (IH _ _ _ _ _ (vstep_good _ _ _ _ _ _ _ _ Hs1) Hm) as (Hreg2 & used2 & o2 & Hs2 & Hp2 & Hr2).
      split; [congruence|]. exists used2, o2. split_and!; [by eapply vstep_trans|by etrans|].
      destruct r as [frames|]; [|done]. destruct Hr2 as (fs & -> & Hfs). exists (f :: fs).
      split; [by rewrite <- app_assoc|]. intros g [->|Hg']%elem_of_cons; [set_solver|].
      destruct (Hfs g Hg'). set_solver.
    + injection Hm as <- <- <-. split; [done|]. exists used1, o1. done.
Qed.

Lemma as_map_range_ok sp vaddr size prot v used o r sp' v' :
  good fa0 v used sp o -> as_map_range sp vaddr size prot v = Some (r, (sp', v')) -> op_ok v used sp o v' sp'.
Proof.
  intros Hg Hm. unfold as_map_range in Hm.
  destruct (map_range_loop _ vaddr prot [] sp v) as [[r1 [sp1 v1]]|] eqn:Hn; [|done].
  destruct (map_range_loop_ok _ _ _ _ _ _ _ _ _ _ _ Hg Hn) as (Hreg & used' & o' & Hs & Hp & Hr).
  exists used', o'. destruct r1 as [frames|e]; injection Hm as <- <- <-.
  - destruct Hr as (fs & -> & Hfs). split; [by eapply vstep_same; [..|exact Hs]|].
    intros Ht. by eapply tidy_record.
  - split; [done|]. intros Ht. by eapply tidy_mono.
Qed.

(** Protecting pages maps the frames they have. *)
Lemma protect_loop_ok ps vaddr prot sp v used o r sp' v' :
  good fa0 v used sp o -> protect_loop ps vaddr prot sp v = Some (r, (sp', v')) ->
  as_regions sp' = as_regions sp /\
  exists used' o', vstep fa0 v used o v' used' sp' o' /\ ow_pages o' = ow_pages o.
Proof.
  revert sp v used o. induction ps as [|i ps IH]; intros sp v used o Hg Hm; cbn [protect_loop] in Hm.
  - injection Hm as <- <- <-. split; [done|]. exists used, o. split; [by apply vstep_refl|done].
  - destruct (negb _); [done|]. set (page := wrap_u64 _) in Hm. unfold as_translate in Hm.
    pose proof Hg as (fa & Hfa & Hpt & Hi & Ho). rewrite (space_translate _ _ _ page Hi) in Hm.
    unfold abs_translate in Hm. destruct (ow_map o !! indices page) as [e|] eqn:He; [|by eapply IH].
    assert (Hpg : entry_phys e ∈ ow_pages o) by (by eapply si_page).
    assert (Hae : aligned (entry_phys e)) by (apply (part_aligned fa0 Hal fa used); [done|]; unfold owned in Ho; set_solver).
    destruct (space_map sp page _ _ v) as [r1 [sp1 v1]] eqn:Hsm.
    destruct (space_map_ok fa0 Hal _ _ _ _ _ _ _ _ _ _ Hg Hsm) as (Hreg & used1 & o1 & Hs1 & Hp1).
    { by rewrite entry_phys_offset. }
    { intros idx e'. rewrite entry_phys_offset by done. intros He' Heq. by eapply (si_inj _ _ _ Hi). }
    destruct r1 as [u|er]; [|injection Hm as <- <- <-; split; [done|]; by exists used1, o1].
    destruct (IH _ _ _ _ (vstep_good _ _ _ _ _ _ _ _ Hs1) Hm) as (Hreg2 & used2 & o2 & Hs2 & Hp2).
    split; [congruence|]. exists used2, o2. split; [by eapply vstep_trans|congruence].
Qed.

Lemma protect_ok sp vaddr size prot v used o r sp' v' :
  good fa0 v used sp o -> protect sp vaddr size prot v = Some (r, (sp', v')) -> op_ok v used sp o v' sp'.
Proof.
  intros Hg Hm. unfold protect in Hm.
  destruct (protect_loop _ vaddr prot sp v) as [[r1 [sp1 v1]]|] eqn:Hn; [|done].
  destruct (protect_loop_ok _ _ _ _ _ _ _ _ _ _ Hg Hn) as (Hreg & used' & o' & Hs & Hp).
  exists used', o'. destruct r1 as [u|e]; injection Hm as <- <- <-.
  2: { split; [done|]. intros Ht. eapply tidy_mono; [done..|by rewrite Hp]. }
  split; [by eapply vstep_same; [..|exact Hs]|]. intros [H1 H2].
  assert (Hfr : forall k r f, (match as_regions sp1 !! vaddr with
      | Some r => <[vaddr := mk_MemoryRegion (reg_base r) (reg_size r) prot (reg_backing r)]> (as_regions sp1)
      | None => as_regions sp1 end) !! k = Some r -> f ∈ region_frames r ->
      exists r', as_regions sp !! k = Some r' /\ f ∈ region_frames r').
  { rewrite Hreg. intros k r f Hk Hf. destruct (as_regions sp !! vaddr) as [r0|] eqn:Hv; [|by exists r].
    apply lookup_insert_Some in Hk as [[<- <-]|[_ Hk]]; [by exists r0|by exists r]. }
  constructor; simpl; rewrite ?Hp.
  - intros k r2 f Hk Hf. destruct (Hfr k r2 f Hk Hf) as (r' & Hr' & Hf'). by eapply H1.
  - intros k k' r2 r3 f Hk Hk' Hf Hf'. destruct (Hfr k r2 f Hk Hf) as (r' & ? & ?).
    destruct (Hfr k' r3 f Hk' Hf') as (r'' & ? & ?). by eapply H2.
Qed.

(** Unmapping a page that is not mapped, or that is a region by itself. *)
Definition unmap_single (sp : AddressSpace) (vaddr : Z) (v : Vmm) : bool :=
  match (unmap_page (pml4_phys sp) vaddr (vm_mem v)).1 with
  | None => true
  | Some f =>
      match as_regions sp !! vaddr with
      | Some r => bool_decide (region_frames r = [f])
      | None => false
      end
  end.

Lemma as_unmap_page_ok sp vaddr v used o r sp' v' :
  good fa0 v used sp o -> as_unmap_page sp vaddr v = (r, (sp', v')) ->
  exists used' o', vstep fa0 v used o v' used' sp' o' /\ (unmap_single sp vaddr v = true -> tidy sp o -> tidy sp' o').
Proof.
  intros Hg Hm. pose proof Hg as (fa & Hfa & Hp & Hi & Ho). unfold as_unmap_page in Hm. unfold unmap_single.
  pose proof (fun sp' => local_unmap fa0 Hal vaddr (vm_mem v) fa used sp sp' o Hi Hp Ho) as Hl.
  destruct (unmap_page (pml4_phys sp) vaddr (vm_mem v)) as [[f|] m1]; cbn [fst].
  - injection Hm as <- <- <-. destruct (Hl (mk_AddressSpace (pml4_phys sp) (delete vaddr (as_regions sp)) (wrap_u64 (mapped_pages sp - 1)) (table_frames sp)) eq_refl eq_refl) as [Hpg Hloc].
    eexists _, _. split; [exists (free_frame f fa); unfold vm_free_frame; simpl; rewrite Hfa; by split|].
    destruct (as_regions sp !! vaddr) as [r|] eqn:Hr; [|done]. intros Hs%bool_decide_eq_true [H1 H2].
    constructor; simpl; [|intros k k' r1 r2 g [_ E1]%lookup_delete_Some [_ E2]%lookup_delete_Some; by eapply H2].
    intros k r1 g [Hne Hk]%lookup_delete_Some Hin. apply elem_of_difference. split; [by eapply H1|].
    apply not_elem_of_singleton. intros ->. apply Hne. eapply (H2 vaddr k r r1 f); [done..| |done].
    rewrite Hs. by apply list_elem_of_singleton.
  - injection Hm as <- <- <-. rewrite (Hl sp eq_refl eq_refl). exists used, o. split; [|done].
    destruct v as [al m]. by apply vstep_refl.
Qed.

(** Dropping a space gives its frames back and leaves memory alone. *)
Lemma free_all_ok frames v fa used :
  vm_allocator v = Some fa -> partition fa0 fa used -> (forall f, f ∈ frames -> f ∈ free_addrs fa0) ->
  let v' := foldl (fun v f => vm_free_frame f v) v frames in
  vm_mem v' = vm_mem v /\ exists fa', vm_allocator v' = Some fa' /\ partition fa0 fa' (used ∖ list_to_set frames).
Proof.
  revert v fa used. induction frames as [|f frames IH]; intros v fa used Hfa Hp Hin; cbn [foldl].
  - split; [done|]. exists fa. simpl. by rewrite difference_empty_L.
  - assert (Hf : f ∈ free_addrs fa0) by (apply Hin; by left).
    destruct (IH (vm_free_frame f v) (free_frame f fa) (used ∖ {[f]})) as (Hm & fa' & Hfa' & Hp').
    + unfold vm_free_frame. by rewrite Hfa.
    + by apply (part_free fa0 Hal).
    + intros g Hg. apply Hin. by right.
    + split; [rewrite Hm; unfold vm_free_frame; by rewrite Hfa|]. exists fa'. split; [done|].
      cbn [list_to_set]. by rewrite <- difference_difference_l_L.
Qed.

Lemma as_drop_ok sp v used o :
  good fa0 v used sp o -> tidy sp o ->
  vm_mem (as_drop sp v) = vm_mem v /\
  exists fa' gone, vm_allocator (as_drop sp v) = Some fa' /\ partition fa0 fa' (used ∖ gone) /\ gone ⊆ owned o.
Proof.
  intros (fa & Hfa & Hp & Hi & Ho) Ht. unfold as_drop. set (frames := (_ ++ _)%list).
  assert (Hin : forall f, f ∈ frames -> f ∈ owned o).
  { intros f. subst frames. rewrite !elem_of_app, list_elem_of_singleton. unfold owned. rewrite (si_dom _ _ _ Hi).
    intros [Hf|[Hf| ->]]; [|set_solver..]. apply list_elem_of_join in Hf as (l & Hl & Hm).
    apply list_elem_of_fmap in Hm as ([k r] & -> & Hk%elem_of_btree_iter).
    apply elem_of_union_r. by eapply (td_page _ _ Ht). }
  destruct (free_all_ok frames v fa used Hfa Hp) as (Hm & fa' & Hfa' & Hp').
  { intros f Hf. apply (part_total fa0 fa used f Hp). left. by apply Ho, Hin. }
  split; [done|]. exists fa', (list_to_set frames). split_and!; [done..|].
  intros f Hf%elem_of_list_to_set. by apply Hin.
Qed.

(** A new space owns its root table. *)
Lemma AddressSpace_new_ok v fa used sp v' :
  vm_allocator v = Some fa -> partition fa0 fa used -> AddressSpace_new v = (Some sp, v') ->
  exists fa' o, vm_allocator v' = Some fa' /\
    local fa0 (vm_mem v) used (mk_Own ∅ ∅ ∅) (vm_mem v') fa' (owned o ∪ used) sp o /\ tidy sp o.
Proof.
  intros Hfa Hp Hn. unfold AddressSpace_new, vm_allocate_frame in Hn. rewrite Hfa in Hn.
  destruct (allocate_frame fa) as [[f|] fa1] eqn:Ha; [|done]. injection Hn as <- <-.
  destruct (part_alloc fa0 Hal fa used f fa1 Hp Ha) as (Hf & Hfa' & Hp').
  exists fa1, (mk_Own {[f := []]} ∅ ∅). split; [done|]. unfold owned. simpl. rewrite dom_singleton_L, union_empty_r_L.
  assert (Hrep : tree (table_clear f (vm_mem v)) f {[f := []]} /\ forall idx, length idx = 4%nat -> Forall index_ok idx ->
    walk (table_clear f (vm_mem v)) f idx = (∅ : PageMap) !! idx) by (by apply cleared_root).
  split; [|constructor; simpl; intros *; by rewrite lookup_empty]. constructor; simpl.
  - constructor; simpl; [apply Hrep|apply Hrep|rewrite dom_singleton_L; set_solver| | |set_solver].
    + intros idx e. by rewrite lookup_empty.
    + intros idx idx' e e'. by rewrite lookup_empty.
  - done.
  - unfold owned. simpl. rewrite dom_singleton_L. set_solver.
  - unfold owned. simpl. rewrite dom_singleton_L. set_solver.
  - set_solver.
  - intros u j Hu _ Hj. apply table_clear_outside; [done|by apply (part_aligned fa0 Hal fa used)|done|]. by intros ->.
Qed.
End ops.
