(* ===== verification/SpaceProps.v ===== *)
(** * Isolation of address spaces

    A machine with any number of address spaces on one frame allocator. *)
From S2P Require Import Prelude FrameRun PageMap AddressSpace SpaceOps.

Local Open Scope Z_scope.

Record Machine : Type := mk_Machine {
  mc_vmm : Vmm;
  mc_spaces : gmap nat AddressSpace }.

Inductive space_op : Type :=
| SO_new
| SO_map (vaddr : Z) (prot : MemoryProtection)
| SO_map_range (vaddr size : Z) (prot : MemoryProtection)
| SO_unmap (vaddr : Z)
| SO_protect (vaddr size : Z) (prot : MemoryProtection)
| SO_drop.

(** An operation of the space [id]; [None] when there is no such space, when
    the identifier is taken, or when the operation panics. *)
Definition on_space (op : space_op) (sp : AddressSpace) (v : Vmm) : option (option AddressSpace * Vmm) :=
  match op with
  | SO_new => None
  | SO_map vaddr prot => let '(_, (sp, v)) := as_map_page sp vaddr prot v in Some (Some sp, v)
  | SO_map_range vaddr size prot => '(_, (sp, v)) ← as_map_range sp vaddr size prot v; Some (Some sp, v)
  | SO_unmap vaddr => let '(_, (sp, v)) := as_unmap_page sp vaddr v in Some (Some sp, v)
  | SO_protect vaddr size prot => '(_, (sp, v)) ← protect sp vaddr size prot v; Some (Some sp, v)
  | SO_drop => Some (None, as_drop sp v)
  end.

Definition machine_step (id : nat) (op : space_op) (M : Machine) : option Machine :=
  match op, mc_spaces M !! id with
  | SO_new, None =>
      let '(r, v) := AddressSpace_new (mc_vmm M) in
      Some (mk_Machine v (match r with Some sp => <[id := sp]> (mc_spaces M) | None => mc_spaces M end))
  | SO_new, Some _ | _, None => None
  | _, Some sp =>
      '(r, v) ← on_space op sp (mc_vmm M);
      Some (mk_Machine v (match r with Some sp => <[id := sp]> (mc_spaces M) | None => delete id (mc_spaces M) end))
  end.

(** Spaces that have unmapped a page out of a larger region. *)
Definition marks (id : nat) (op : space_op) (M : Machine) (marked : gset nat) : gset nat :=
  match op, mc_spaces M !! id with
  | SO_unmap vaddr, Some sp => if unmap_single sp vaddr (mc_vmm M) then marked else {[id]} ∪ marked
  | _, _ => marked
  end.

(** Runs in which no such space is dropped. *)
Inductive machine_run (regions : list MemoryRegionDescriptor) : Machine -> gset nat -> Prop :=
| mr_start v : machine_run regions (mk_Machine (vmm_init regions v) ∅) ∅
| mr_step M marked id op M' :
    machine_run regions M marked -> machine_step id op M = Some M' -> (op = SO_drop -> id ∉ marked) ->
    machine_run regions M' (marks id op M marked).

Lemma step_on_space id op M M' sp :
  mc_spaces M !! id = Some sp -> machine_step id op M = Some M' ->
  exists r v, on_space op sp (mc_vmm M) = Some (r, v) /\
    M' = mk_Machine v (match r with Some sp => <[id := sp]> (mc_spaces M) | None => delete id (mc_spaces M) end).
Proof.
  intros Hid Hs. unfold machine_step in Hs. rewrite Hid in Hs.
  destruct op; try done; apply bind_Some in Hs as ([r v] & ? & ?); simplify_eq; by exists r, v.
Qed.

Lemma on_space_none op sp v v' : on_space op sp v = Some (None, v') -> op = SO_drop /\ v' = as_drop sp v.
Proof. intros Hop. destruct op; simpl in Hop; simplify_option_eq; repeat case_match; by simplify_eq. Qed.

Section machine.
Context (fa0 : FrameAllocator) (Hal : forall f, f ∈ free_addrs fa0 -> aligned f).

Record machine_inv (own : nat -> Own) (used : gset Z) (M : Machine) (marked : gset nat) : Prop := mk_machine_inv {
  mi_alloc : exists fa, vm_allocator (mc_vmm M) = Some fa /\ partition fa0 fa used;
  mi_space : forall id sp, mc_spaces M !! id = Some sp ->
    space_inv (vm_mem (mc_vmm M)) sp (own id) /\ owned (own id) ⊆ used /\ (id ∉ marked -> tidy sp (own id));
  mi_disj : forall id id' sp sp', mc_spaces M !! id = Some sp -> mc_spaces M !! id' = Some sp' -> id <> id' ->
    owned (own id) ## owned (own id') }.

Lemma machine_good own used M marked id sp :
  machine_inv own used M marked -> mc_spaces M !! id = Some sp -> good fa0 (mc_vmm M) used sp (own id).
Proof.
  intros [(fa & Hfa & Hp) Hs _] Hid. destruct (Hs id sp Hid) as (Hi & Ho & _). by exists fa.
Qed.

(** A space that a local step does not touch. *)
Lemma other_space v used o v' used' sp' o' q sq :
  vstep fa0 v used o v' used' sp' o' -> space_inv (vm_mem v) sq q -> owned q ⊆ used -> owned o ## owned q ->
  space_inv (vm_mem v') sq q /\ owned q ⊆ used' /\ owned o' ## owned q.
Proof.
  intros (fa' & _ & [_ _ _ Hnew Hkeep Hfr]) Hi Ho Hd. split_and!.
  - eapply space_inv_agree; [|done]. intros u j Hu Hj.
    assert (u ∈ owned q) by (unfold owned; set_solver). apply Hfr; [set_solver..|done].
  - intros f Hf. apply Hkeep; set_solver.
  - intros f Hf Hq. apply Hnew in Hf as [Hf|Hf]; set_solver.
Qed.

(** Replacing one space by the result of a step. *)
Lemma machine_update own used M marked marked' id o v' used' sp' o' :
  machine_inv own used M marked ->
  vstep fa0 (mc_vmm M) used o v' used' sp' o' ->
  (forall id' sp, id' <> id -> mc_spaces M !! id' = Some sp -> owned o ## owned (own id')) ->
  (id ∉ marked' -> tidy sp' o') -> (forall id', id' <> id -> id' ∉ marked' -> id' ∉ marked) ->
  machine_inv (fun k => if decide (k = id) then o' else own k) used' (mk_Machine v' (<[id := sp']> (mc_spaces M))) marked'.
Proof.
  intros [Ha Hs Hd] Hv Ho Ht Hm. pose proof Hv as (fa' & Hfa & [L1 L2 L3 _ _ _]). constructor; simpl.
  - by exists fa'.
  - intros k sp [[<- <-]|[Hne Hk]]%lookup_insert_Some.
    + rewrite decide_True by done. done.
    + rewrite decide_False by done. destruct (Hs k sp Hk) as (H1 & H2 & H3).
      destruct (other_space _ _ _ _ _ _ _ _ _ Hv H1 H2 (Ho k sp (not_eq_sym Hne) Hk)) as (H4 & H5 & _). auto.
  - intros k k' sp1 sp2 [[<- <-]|[Hne Hk]]%lookup_insert_Some [[<- <-]|[Hne' Hk']]%lookup_insert_Some Hkk; [done|..].
    + rewrite decide_True, decide_False by done. destruct (Hs k' sp2 Hk') as (H1 & H2 & _).
      by destruct (other_space _ _ _ _ _ _ _ _ _ Hv H1 H2 (Ho k' sp2 (not_eq_sym Hne') Hk')) as (_ & _ & ?).
    + rewrite decide_False, decide_True by done. destruct (Hs k sp1 Hk) as (H1 & H2 & _). symmetry.
      by destruct (other_space _ _ _ _ _ _ _ _ _ Hv H1 H2 (Ho k sp1 (not_eq_sym Hne) Hk)) as (_ & _ & ?).
    + rewrite !decide_False by done. by eapply Hd.
Qed.

(** Operations other than creation and drop. *)
Lemma on_space_ok own used M marked id op sp sp' v' :
  machine_inv own used M marked -> mc_spaces M !! id = Some sp -> on_space op sp (mc_vmm M) = Some (Some sp', v') ->
  exists used' o', vstep fa0 (mc_vmm M) used (own id) v' used' sp' o' /\
    (id ∉ marks id op M marked -> tidy sp' o') /\ (forall id', id' <> id -> id' ∉ marks id op M marked -> id' ∉ marked).
Proof.
  intros Hi Hid Hop. pose proof (machine_good _ _ _ _ _ _ Hi Hid) as Hg.
  destruct (mi_space _ _ _ _ Hi id sp Hid) as (_ & _ & Ht). unfold marks. rewrite Hid.
  destruct op as [|va prot|va sz prot|va|va sz prot|]; cbn [on_space] in Hop; [done|..|done].
  - destruct (as_map_page sp va prot (mc_vmm M)) as [r [s v]] eqn:E. simplify_eq.
    destruct (as_map_page_ok fa0 Hal _ _ _ _ _ _ _ _ _ Hg E) as (u & o & ? & ?). exists u, o. auto.
  - destruct (as_map_range sp va sz prot (mc_vmm M)) as [[r [s v]]|] eqn:E; simplify_option_eq.
    destruct (as_map_range_ok fa0 Hal _ _ _ _ _ _ _ _ _ _ Hg E) as (u & o & ? & ?). exists u, o. auto.
  - destruct (as_unmap_page sp va (mc_vmm M)) as [r [s v]] eqn:E. simplify_eq.
    destruct (as_unmap_page_ok fa0 Hal _ _ _ _ _ _ _ _ Hg E) as (u & o & ? & Htd). exists u, o. split; [done|].
    destruct (unmap_single sp va (mc_vmm M)); [auto|]. split; [|set_solver]. intros []. set_solver.
  - destruct (protect sp va sz prot (mc_vmm M)) as [[r [s v]]|] eqn:E; simplify_option_eq.
    destruct (protect_ok fa0 Hal _ _ _ _ _ _ _ _ _ _ Hg E) as (u & o & ? & ?). exists u, o. auto.
Qed.

Lemma drop_memory sp v : vm_mem (as_drop sp v) = vm_mem v.
Proof.
  unfold as_drop. generalize (mjoin (map (fun p => region_frames p.2) (btree_iter (as_regions sp))) ++ table_frames sp ++ [pml4_phys sp])%list.
  intros l. revert v. induction l as [|f l IH]; intros v; [done|]. cbn [foldl]. rewrite IH.
  unfold vm_free_frame. by destruct (vm_allocator v).
Qed.

Lemma failed_new v fa v' : vm_allocator v = Some fa -> AddressSpace_new v = (None, v') -> v' = v.
Proof.
  intros Hfa Hn. unfold AddressSpace_new, vm_allocate_frame in Hn. rewrite Hfa in Hn.
  destruct (allocate_frame fa) as [[f|] fa1] eqn:Ha; [done|]. apply allocate_none in Ha as ->.
  injection Hn as <-. destruct v as [al m]. simpl in *. by subst.
Qed.

Lemma machine_drop own used M marked id sp :
  machine_inv own used M marked -> mc_spaces M !! id = Some sp -> id ∉ marked ->
  exists used', machine_inv own used' (mk_Machine (as_drop sp (mc_vmm M)) (delete id (mc_spaces M))) marked.
Proof.
  intros Hi Hid Hm. destruct (mi_space _ _ _ _ Hi id sp Hid) as (_ & _ & Ht).
  destruct (as_drop_ok fa0 Hal _ _ _ _ (machine_good _ _ _ _ _ _ Hi Hid) (Ht Hm)) as (Hmem & fa' & gone & Hfa & Hp & Hg).
  exists (used ∖ gone). constructor; simpl.
  - by exists fa'.
  - intros k sq [Hne Hk]%lookup_delete_Some. destruct (mi_space _ _ _ _ Hi k sq Hk) as (H1 & H2 & H3).
    rewrite Hmem. split_and!; [done| |done]. pose proof (mi_disj _ _ _ _ Hi id k sp sq Hid Hk Hne). set_solver.
  - intros k k' s1 s2 [_ H1]%lookup_delete_Some [_ H2]%lookup_delete_Some. by eapply (mi_disj _ _ _ _ Hi).
Qed.

Lemma machine_new own used M marked id sp v' :
  machine_inv own used M marked -> AddressSpace_new (mc_vmm M) = (Some sp, v') ->
  exists used' o, vstep fa0 (mc_vmm M) used (mk_Own ∅ ∅ ∅) v' used' sp o /\
    machine_inv (fun k => if decide (k = id) then o else own k) used' (mk_Machine v' (<[id := sp]> (mc_spaces M))) marked.
Proof.
  intros Hi Hn. destruct (mi_alloc _ _ _ _ Hi) as (fa & Hfa & Hp).
  destruct (AddressSpace_new_ok fa0 Hal _ _ _ _ _ Hfa Hp Hn) as (fa' & o & Hfa' & Hl & Ht).
  assert (Hv : vstep fa0 (mc_vmm M) used (mk_Own ∅ ∅ ∅) v' (owned o ∪ used) sp o) by (by exists fa').
  exists (owned o ∪ used), o. split; [done|]. eapply machine_update; [done..| |done|done].
  intros id' sq _ _. unfold owned. simpl. rewrite dom_empty_L. set_solver.
Qed.

Lemma machine_step_inv own used M marked id op M' :
  machine_inv own used M marked -> machine_step id op M = Some M' -> (op = SO_drop -> id ∉ marked) ->
  exists own' used', machine_inv own' used' M' (marks id op M marked).
Proof.
  intros Hi Hs Hd. destruct (mc_spaces M !! id) as [sp|] eqn:Hid.
  - destruct (step_on_space _ _ _ _ _ Hid Hs) as ([sp'|] & v & Hop & ->).
    + destruct (on_space_ok _ _ _ _ _ _ _ _ _ Hi Hid Hop) as (used' & o' & Hv & Ht & Hm).
      eexists _, used'. eapply machine_update; [done|done| |done|done].
      intros id' sq Hne Hk. by eapply (mi_disj _ _ _ _ Hi); [..|apply not_eq_sym].
    + apply on_space_none in Hop as [-> ->]. destruct (machine_drop _ _ _ _ _ _ Hi Hid (Hd eq_refl)) as [used' ?].
      by exists own, used'.
  - unfold machine_step in Hs. rewrite Hid in Hs. destruct op; try done. destruct (AddressSpace_new (mc_vmm M)) as [[sp|] v] eqn:Hn; injection Hs as <-.
    + destruct (machine_new _ _ _ _ id _ _ Hi Hn) as (used' & o & _ & ?). eauto.
    + destruct (mi_alloc _ _ _ _ Hi) as (fa & Hfa & _). rewrite (failed_new _ _ _ Hfa Hn). exists own, used. by destruct M.
Qed.

(** A step of one space is not seen by another. *)
Lemma machine_step_others own used M marked id op M' id' sp :
  machine_inv own used M marked -> machine_step id op M = Some M' -> id' <> id -> mc_spaces M !! id' = Some sp ->
  mc_spaces M' !! id' = Some sp /\ forall va, as_translate sp va (mc_vmm M') = as_translate sp va (mc_vmm M).
Proof.
  intros Hi Hs Hne Hid'. destruct (mi_space _ _ _ _ Hi id' sp Hid') as (H1 & H2 & _).
  assert (Hsame : forall v o used' sq o', vstep fa0 (mc_vmm M) used o v used' sq o' -> owned o ## owned (own id') ->
    forall va, as_translate sp va v = as_translate sp va (mc_vmm M)).
  { intros v o used' sq o' Hv Hd va. destruct (other_space _ _ _ _ _ _ _ _ _ Hv H1 H2 Hd) as (H3 & _ & _).
    unfold as_translate. by rewrite (space_translate _ _ _ va H3), (space_translate _ _ _ va H1). }
  destruct (mc_spaces M !! id) as [sq|] eqn:Hid.
  - destruct (step_on_space _ _ _ _ _ Hid Hs) as ([sp'|] & v & Hop & ->); simpl.
    + destruct (on_space_ok _ _ _ _ _ _ _ _ _ Hi Hid Hop) as (used' & o' & Hv & _).
      rewrite lookup_insert_ne by done. split; [done|]. eapply Hsame; [done|]. by eapply (mi_disj _ _ _ _ Hi); [..|apply not_eq_sym].
    + apply on_space_none in Hop as [-> ->]. rewrite lookup_delete_ne by done. split; [done|]. intros va. unfold as_translate. by rewrite drop_memory.
  - unfold machine_step in Hs. rewrite Hid in Hs. destruct op; try done. destruct (AddressSpace_new (mc_vmm M)) as [[sq|] v] eqn:Hn; injection Hs as <-; simpl.
    + destruct (machine_new _ _ _ _ id _ _ Hi Hn) as (used' & o & Hv & _). rewrite lookup_insert_ne by done.
      split; [done|]. eapply Hsame; [done|]. unfold owned. simpl. rewrite dom_empty_L. set_solver.
    + destruct (mi_alloc _ _ _ _ Hi) as (fa & Hfa & _). by rewrite (failed_new _ _ _ Hfa Hn).
Qed.
End machine.

(** A mapped address lies in a page of the space. *)
Lemma translate_page m sp o va p :
  space_inv m sp o -> (forall f, f ∈ owned o -> aligned f) -> translate m (pml4_phys sp) va = Some (Some p) ->
  exists e, ow_map o !! indices va = Some e /\ p / PAGE_SIZE = entry_phys e / PAGE_SIZE /\
    entry_phys e ∈ owned o /\ entry_phys e ∉ dom (ow_tables o).
Proof.
  intros Hi Ha Ht. rewrite (space_translate _ _ _ _ Hi) in Ht. unfold abs_translate in Ht.
  destruct (ow_map o !! indices va) as [e|] eqn:He; [|done]. simplify_eq. exists e.
  pose proof (si_page _ _ _ Hi _ _ He) as Hp. pose proof (si_sep _ _ _ Hi).
  assert (Ho : entry_phys e ∈ owned o) by (unfold owned; set_solver). split_and!; [done| |done|set_solver].
  destruct (Ha _ Ho) as [_ Hm]. pose proof (offset_range va) as Hv. unfold PAGE_SIZE in *.
  rewrite (Z.div_mod (entry_phys e) 4096) at 1 by lia. rewrite Hm, Z.add_0_r.
  replace (4096 * (entry_phys e / 4096) + page_offset va) with (page_offset va + entry_phys e / 4096 * 4096) by lia.
  rewrite Z.div_add, Z.div_small by lia. lia.
Qed.

Lemma aligned_page_eq f g : aligned f -> aligned g -> f / PAGE_SIZE = g / PAGE_SIZE -> f = g.
Proof.
  intros [_ Hf] [_ Hg] He. unfold PAGE_SIZE in *.
  rewrite (Z.div_mod f 4096), (Z.div_mod g 4096) by lia. lia.
Qed.

Lemma init_aligned regions :
  Forall region_ok (usable_regions regions) -> forall f, f ∈ free_addrs (vmm_init_allocator regions) -> aligned f.
Proof.
  intros Hok f (i & -> & Hi)%elem_of_map. destruct (init_regions regions Hok) as [_ _ _ Hp].
  destruct (Hp i Hi) as (H1 & H2 & r & Hr & H3 & H4). rewrite Forall_forall in Hok.
  destruct (Hok r Hr) as (H5 & H6 & H7). split; [unfold PAGE_SIZE in *; lia|done].
Qed.

Lemma machine_run_inv regions M marked :
  Forall region_ok (usable_regions regions) -> machine_run regions M marked ->
  exists own used, machine_inv (vmm_init_allocator regions) own used M marked.
Proof.
  intros Hok. induction 1 as [v|M marked id op M' _ (own & used & IH) Hs Hd].
  - exists (fun _ => mk_Own ∅ ∅ ∅), ∅. constructor; simpl; [|intros *; by rewrite lookup_empty..].
    eexists. split; [done|]. apply frun_partition; [apply (init_regions regions Hok)|constructor].
  - eapply machine_step_inv; [by apply init_aligned|done..].
Qed.

(** C14: Address spaces are isolated. On a machine started from any memory map, after any
    interleaving of creations, mappings of pages and ranges, unmappings, changes
    of protection and drops of address spaces, where a space that has unmapped a
    page out of a larger region is not dropped: translation never panics; a
    physical page is reached from one page of one space only; no address of any
    space reaches a page table; and an operation of one space changes neither
    the record nor any translation of another. *)
Theorem address_spaces_isolated regions M marked :
  Forall region_ok (usable_regions regions) -> machine_run regions M marked ->
  (forall id sp va, mc_spaces M !! id = Some sp -> is_Some (as_translate sp va (mc_vmm M))) /\
  (forall id id' sp sp' va va' p p', mc_spaces M !! id = Some sp -> mc_spaces M !! id' = Some sp' ->
    as_translate sp va (mc_vmm M) = Some (Some p) -> as_translate sp' va' (mc_vmm M) = Some (Some p') ->
    p / PAGE_SIZE = p' / PAGE_SIZE -> id = id' /\ indices va = indices va') /\
  (forall id id' sp sp' va p t, mc_spaces M !! id = Some sp -> mc_spaces M !! id' = Some sp' ->
    as_translate sp va (mc_vmm M) = Some (Some p) -> t ∈ pml4_phys sp' :: table_frames sp' ->
    p / PAGE_SIZE <> t / PAGE_SIZE) /\
  (forall id op M' id' sp, machine_step id op M = Some M' -> id' <> id -> mc_spaces M !! id' = Some sp ->
    mc_spaces M' !! id' = Some sp /\ forall va, as_translate sp va (mc_vmm M') = as_translate sp va (mc_vmm M)).
Proof.
  intros Hok Hrun. pose proof (init_aligned regions Hok) as Hal.
  destruct (machine_run_inv regions M marked Hok Hrun) as (own & used & Hi).
  destruct (mi_alloc _ _ _ _ _ Hi) as (fa & Hfa & Hp).
  assert (Hs : forall id sp, mc_spaces M !! id = Some sp ->
    space_inv (vm_mem (mc_vmm M)) sp (own id) /\ forall f, f ∈ owned (own id) -> aligned f).
  { intros id sp Hid. destruct (mi_space _ _ _ _ _ Hi id sp Hid) as (H1 & H2 & _). split; [done|].
    intros f Hf. apply (part_aligned _ Hal fa used); [done|]. by apply H2. }
  split_and!.
  - intros id sp va Hid. unfold as_translate. rewrite (space_translate _ _ _ va (proj1 (Hs id sp Hid))). by eexists.
  - intros id id' sp sp' va va' p p' Hid Hid' Ht Ht' Heq. destruct (Hs id sp Hid) as [I A]. destruct (Hs id' sp' Hid') as [I' A'].
    destruct (translate_page _ _ _ _ _ I A Ht) as (e & He & Hpe & Ho & _).
    destruct (translate_page _ _ _ _ _ I' A' Ht') as (e' & He' & Hpe' & Ho' & _).
    assert (Hee : entry_phys e = entry_phys e') by (apply aligned_page_eq; [auto..|congruence]).
    destruct (decide (id = id')) as [<-|Hne]; [split; [done|by eapply (si_inj _ _ _ I)]|].
    pose proof (mi_disj _ _ _ _ _ Hi _ _ _ _ Hid Hid' Hne). rewrite Hee in Ho. set_solver.
  - intros id id' sp sp' va p t Hid Hid' Ht Hin Heq. destruct (Hs id sp Hid) as [I A]. destruct (Hs id' sp' Hid') as [I' A'].
    destruct (translate_page _ _ _ _ _ I A Ht) as (e & He & Hpe & Ho & Hn).
    assert (Htd : t ∈ dom (ow_tables (own id'))) by (rewrite (si_dom _ _ _ I'); set_solver).
    assert (Hto : t ∈ owned (own id')) by (unfold owned; set_solver).
    assert (Hte : entry_phys e = t) by (apply aligned_page_eq; [auto..|congruence]). subst t.
    destruct (decide (id = id')) as [<-|Hne]; [done|].
    pose proof (mi_disj _ _ _ _ _ Hi _ _ _ _ Hid Hid' Hne). set_solver.
  - intros. by eapply (machine_step_others (vmm_init_allocator regions) Hal).
Qed.

(** Operations one after the other, with the check on drops. *)
Fixpoint machine_ops (l : list (nat * space_op)) (M : Machine) (marked : gset nat) : option (Machine * gset nat) :=
  match l with
  | [] => Some (M, marked)
  | (id, op) :: l =>
      if match op with SO_drop => bool_decide (id ∈ marked) | _ => false end then None
      else M' ← machine_step id op M; machine_ops l M' (marks id op M marked)
  end.

Lemma machine_ops_run regions l M marked M' marked' :
  machine_run regions M marked -> machine_ops l M marked = Some (M', marked') -> machine_run regions M' marked'.
Proof.
  revert M marked. induction l as [|[id op] l IH]; intros M marked Hr Hl; cbn [machine_ops] in Hl; [by simplify_eq|].
  destruct (match op with SO_drop => _ | _ => false end) eqn:Hd; [done|].
  apply bind_Some in Hl as (M1 & Hs & Hl). eapply IH; [|done]. eapply mr_step; [done..|].
  intros ->. by apply bool_decide_eq_false in Hd.
Qed.

(** Two spaces map the same address; the first one changes and unmaps pages, a third one comes and goes. *)
Definition demo_regions : list MemoryRegionDescriptor := [mk_MemoryRegionDescriptor 0x100000 0x20000 Usable].

Definition demo_space_ops : list (nat * space_op) :=
  [(0%nat, SO_new); (1%nat, SO_new); (0%nat, SO_map_range 0x400000 0x2000 mp_read_write);
   (1%nat, SO_map 0x400000 mp_read_only); (2%nat, SO_new); (2%nat, SO_map 0x400000 mp_read_write);
   (2%nat, SO_unmap 0x400000); (2%nat, SO_drop); (0%nat, SO_protect 0x400000 0x2000 mp_read_only);
   (0%nat, SO_unmap 0x401000)].

Definition demo_start : Machine := mk_Machine (vmm_init demo_regions (mk_Vmm None ∅)) ∅.

Definition demo_end : Machine :=
  match machine_ops demo_space_ops demo_start ∅ with Some (M, _) => M | None => demo_start end.

Definition translation (M : Machine) (id : nat) (va : Z) : option (option Z) :=
  sp ← mc_spaces M !! id; as_translate sp va (mc_vmm M).

Lemma translation_space M id va r :
  translation M id va = Some r -> exists sp, mc_spaces M !! id = Some sp /\ as_translate sp va (mc_vmm M) = Some r.
Proof. unfold translation. intros (sp & ? & ?)%bind_Some. eauto. Qed.

Lemma demo_regions_ok : Forall region_ok (usable_regions demo_regions).
Proof. repeat constructor; simpl; lia. Qed.

Lemma demo_finishes : bool_decide (is_Some (machine_ops demo_space_ops demo_start ∅)) = true.
Proof. vm_compute. reflexivity. Qed.

Lemma demo_addresses : translation demo_end 0 0x400123 = Some (Some 0x102123) /\ translation demo_end 1 0x400123 = Some (Some 0x107123) /\ translation demo_end 0 0x401000 = Some None.
Proof. vm_compute. auto. Qed.

Lemma demo_machine_run : exists marked, machine_run demo_regions demo_end marked.
Proof.
  pose proof demo_finishes as [[M marked] Hm]%bool_decide_eq_true. exists marked. unfold demo_end. rewrite Hm.
  eapply machine_ops_run; [|exact Hm]. apply mr_start.
Qed.

Lemma address_spaces_isolated_witness :
  exists a b, mc_spaces demo_end !! 0%nat = Some a /\ mc_spaces demo_end !! 1%nat = Some b /\
    0x102123 / PAGE_SIZE <> 0x107123 / PAGE_SIZE.
Proof.
  destruct demo_machine_run as [marked Hr].
  destruct (address_spaces_isolated demo_regions demo_end marked demo_regions_ok Hr) as (_ & Hsep & _).
  destruct demo_addresses as (H0 & H1 & _).
  destruct (translation_space demo_end 0 _ _ H0) as (a & Ha & Ha'). destruct (translation_space demo_end 1 _ _ H1) as (b & Hb & Hb').
  exists a, b. split; [exact Ha|]. split; [exact Hb|]. intros He.
  destruct (Hsep _ _ _ _ _ _ _ _ Ha Hb Ha' Hb' He) as [Hid _]. discriminate Hid.
Defined.
